(* ===== verification/_CoqProject ===== *)
-Q . S2P
Prelude.v
Machine.v
MemGeom.v
TopBreak.v
PageTable.v
MemBrk.v
PageWalk.v
MmapRegion.v
MmapGuest.v
MmapList.v
MmapRange.v
MmapFree.v
MmapCorrect.v
MmapSystem.v
Signal.v
SignalProps.v
SignalSpec.v
SignalWitness.v
Decode.v
DecodeSpec.v
DecodeProps.v
FdTable.v
FdGroups.v
FdInv.v
FdSystem.v
FdWitness.v
Stdio.v
ExecFd.v
ExecProps.v
ExecEnv.v
ExecEnvProps.v
ExecArgs.v
ExecWitness.v
GdbPacket.v
GdbPacketProps.v
GdbBreak.v
GdbBreakProps.v
GdbRun.v
GdbRunProps.v
GdbFile.v
GdbFileProps.v
GdbWitness.v
Vcpu.v
VcpuProps.v
Notes.v
IoContext.v
IoProps.v
CoreFs.v
CoreDump.v
FdRecover.v
FdRecoverProps.v
Snapshot.v
CoreProps.v
CoreBounds.v
CoreImage.v
SnapNotes.v
CorePipes.v
SnapFile.v
SnapMem.v
SnapBoot.v
SnapVcpu.v
SnapRestore.v
SnapWitness.v
Hcall.v
HcallFns.v
HcallMore.v
HcallProc.v
HcallMsg.v
HcallTable.v
HcallProps.v
HcallAbi.v
HcallWorld.v
HcallWitness.v
GuestStart.v
GuestStartProps.v
GuestIntr.v
GuestLoad.v
GuestLoadProps.v
GuestWitness.v
