(* ===== verification/Prelude.v ===== *)
(** * Verification of the Kontain Monitor (km)

    km runs an unmodified program as the only program of a virtual machine.  The
    guest's system calls arrive as hypercalls; the monitor manages the guest's
    memory, signals and file descriptors and uses the host kernel for the rest.
    This library models the parts of src/km that keep state of their own and proves
    what makes each of them correct.

    ** Parts and files

    Machine.v (km.h, km_mem.h): the machine record - memory size, the two breaks,
    the mmap lists, the page tables - and the constants of the address space.

    MemGeom.v (km_mem.h, km_mem.c km_mem_init): guest virtual, guest physical and
    monitor addresses, memory regions of doubling size, the initial geometry.

    PageTable.v (km_mem.c): the tables of a 64 bit guest, their construction
    (init_pml4), the moves of the two breaks (fixup_bottom_page_tables,
    fixup_top_page_tables), plugging of regions (set_pml4_hierarchy), and the walk
    the processor does over them.

    TopBreak.v, MemBrk.v (km_mem.c): km_mem_brk and km_mem_tbrk with the allocation
    of memory regions, and km_mem_init, from which reachable machines start; the
    interface [TopBreak] is what mmap needs of tbrk.  PageWalk.v follows the tables
    through all of them and shows what the processor's walk finds.

    MmapRegion.v, MmapGuest.v (km_mmap.c): the busy and free lists and every
    operation on them, mmap, munmap, mprotect, madvise, msync, mremap, the delayed
    munmap of an exiting thread and the access checks.  MmapList.v, MmapRange.v,
    MmapFree.v hold the lemmas on tilings, range application and the free list;
    MmapCorrect.v the abstract address map and the refinement; MmapSystem.v the
    sequences of calls and the witnesses.

    Signal.v (km_signal.c, km_signal.h, km_vcpu_run.c): signal sets, the queues and
    their pool of entries, posting, delivery, the frame on the guest stack,
    sigreturn, the signal system calls and the snapshot notes.  SignalProps.v,
    SignalSpec.v and SignalWitness.v hold the theorems.

    Decode.v (km_decode.c): the instruction decoder that finds the address of a
    faulting access, with all opcode tables.  DecodeSpec.v defines the effective
    address as the processor manual does and proves the decoder equal to it;
    DecodeProps.v has termination and the cases where it is not.

    FdTable.v (km_filesys.c, km_filesys_private.h): the table of guest descriptors,
    the groups of dups, sockets, epoll sets, name translation, and the calls on
    them.  FdGroups.v treats the groups as a relation; FdInv.v relates the table to
    the host kernel's; FdSystem.v proves it for any sequence of calls; FdWitness.v
    has a concrete host, the snapshot note and the hazard of epoll_ctl.

    Stdio.v: the part of printf and sscanf the monitor uses, as printer and parser of
    formats, with the lemma that what was printed is scanned back.  ExecFd.v
    (km_exec_fd_save_recover.c), ExecEnv.v (km_exec.c) and ExecArgs.v (km_exec.c,
    km_main.c km_parse_shebang, km_hcalls.c do_exec): the guest's descriptors, the
    monitor's state and the command line as an exec passes them to the new instance
    of the monitor, and their recovery there.  ExecProps.v and ExecEnvProps.v hold the
    lemmas, ExecWitness.v the instances.

    GdbPacket.v, GdbBreak.v, GdbRun.v and GdbFile.v (km_gdb_stub.c, gdb_kvm_x86_64.c,
    km_gdb.h): the stub for a remote debugger - packets with their checksum,
    acknowledgement and escapes; software breakpoints, which are traps in guest
    memory, and hardware ones, with the debug registers; memory and register
    transfer; vCont, the queue of events from the vcpus, signal numbers; the files
    the debugger reads through the stub.  Each has its lemmas in the file of the same
    name with Props; GdbWitness.v holds the instances.

    Vcpu.v (km_cpu_init.c, km_vcpu_run.c, km_init_guest.c): the pool of vcpus, their
    threads and the pause protocol, as steps of interleaved threads.  VcpuProps.v
    has the invariant and what follows from it.

    Notes.v (km_coredump.h, km_coredump.c km_add_note_header, km_snapshot.c
    km_snapshot_notes_apply): little endian fields, ELF notes and the walk over them.
    IoContext.v, IoProps.v (km_iocontext.c): the contexts of asynchronous I/O.
    CoreFs.v (km_filesys.c): the notes of descriptors and the data taken out of pipes
    and put back, over a model of the host's pipes in which dups share a queue.  CoreDump.v (km_coredump.c): km_dump_core, the whole file.
    FdRecover.v (km_filesys.c km_fs_recover): descriptors made again from their notes.
    Snapshot.v (km_snapshot.c, load_elf.c, km_cpu_init.c km_vcpu_restore):
    km_snapshot_restore.  The lemmas: CoreProps.v (writing), CoreBounds.v (the notes fit
    their buffer), CoreImage.v (the layout of the file), CorePipes.v, SnapNotes.v (the
    notes are framed), SnapFile.v (the file is parsed back), SnapMem.v (memory),
    SnapBoot.v (the machine to be restored into), SnapVcpu.v, SnapRestore.v (all of it),
    FdRecoverProps.v; SnapWitness.v holds the instances.

    Hcall.v (include/km_hcalls.h): what a handler of a hypercall works on - its six
    words, the interface [World] to what it calls, and the trace of what it does with
    addresses.  HcallFns.v, HcallMore.v, HcallProc.v and HcallMsg.v (km_hcalls.c): the
    handlers.  HcallTable.v (km_hcalls.c km_hcalls_table, km_vcpu_run.c hypercall): the
    table and the dispatch.  HcallProps.v proves that only translated addresses are used,
    HcallAbi.v that the handlers follow a table of signatures; HcallWorld.v puts the
    memory system behind the interface; HcallWitness.v holds the instances and defects.

    GuestStart.v (km_init_guest.c km_init_main): the first stack of the guest;
    GuestStartProps.v has the reader that follows the ABI and the proof.  GuestIntr.v
    (km_intr.c, km_guest_asmcode.s): the interrupt descriptor table, its stubs and
    km_handle_interrupt, with the proofs.  GuestLoad.v, GuestLoadProps.v (load_elf.c):
    loading of the program and its dynamic linker.  GuestWitness.v holds the instances.

    ** How the code is translated

    A C function that changes state is a computation of the monad [M S A] of this
    file: it ends with a value and a state, ends the process (km_err, km_abortx, a
    failed km_assert, a wild access), or exhausts the fuel given to a loop.  [wp]
    states what holds of all its outcomes.  Unsigned 64 bit values are [Z] below
    2^64 with wrapping written out.  Lists of the source (TAILQ) are lists; arrays
    are functions or finite maps.  The host kernel is a parameter: a class of
    functions that answer each call from the history of the earlier calls, so that
    a theorem holds for every host that satisfies the hypotheses it names.
    Where threads interleave (Vcpu.v) the state has the program point of each thread,
    and the steps between two accesses to shared state are the rules of an inductive
    relation; theorems hold for every state it reaches.
    Functions the theorems are about keep the names they have in the source.

    ** What the theorems show

    Each property's comment names the conditions it needs and the requests it leaves out,
    with the theorem that shows why where the code misbehaves there.

    - Memory: from km_mem_init, over any sequence of brk and tbrk requests but two that are
      named, the breaks stay apart and exactly the regions under them are plugged; the
      tables translate every address of the bottom zone below the break to itself and
      fault above; address conversions are exact and regions tile memory.
    - mmap: the busy and free lists always tile the mmap area; anonymous mmap, munmap and
      mprotect refine the obvious operations on a map from addresses to protections;
      no sequence of such calls fails an assertion, except those that are named.
    - Signals: entries are conserved, dequeueing follows priority and the mask, a
      handler's sigreturn restores the interrupted state, the mask operations equal
      their definition on 64 bit words.
    - Decoder: it terminates, and computes the manual's effective address for one
      byte opcodes, VEX encodings and string instructions, in the operand forms and
      behind the prefixes it knows.
    - Descriptors: for every sequence of the modelled calls and every host that gives out
      unused descriptors below the limit, the table has exactly the host's descriptors, and
      two are in one dup group exactly when they share an open file description; the
      groups survive a snapshot.
    - Exec: what the old instance of the monitor writes into the environment is what
      the new one has after parsing it - every descriptor that stays open and
      nothing else, when no eventfd is among them - and scripts run under the interpreter
      they name.
    - Debugger: an intact packet is delivered behind noise and damaged packets and both
      loops end; traps can neither be seen by the debugger nor left behind; the debug
      registers are those of the list in the manual's encodings; vCont gives each thread the
      leftmost action for it; an event is queued once, unless a vcpu is reused too early,
      and the oldest one is reported; files read through the stub arrive whole and no
      descriptor is lost.
    - Vcpu threads: however they interleave, a pause of all vcpus is exclusive; and while
      the host's threads can be made, the pool has each idle vcpu once.
    - Core dumps and snapshots: when the host writes what it is given, a dump of a
      well-formed guest does not fail for lack of room and its file is laid out as its
      headers say; the file is parsed back, header by header and note by note; restoring it
      on a fresh machine gives the memory of the program and of the accessible mappings, the
      protections and the vcpus of the guest; pipes that are paired keep their data and
      duplicated ends lose it; I/O contexts keep their names.
    - Hypercalls: whatever the guest passes, no address reaches a component, the host
      kernel or the monitor's own loads and stores but NULL or one that was translated,
      but for the fields the property names; handlers answer -EFAULT exactly when a needed
      address is not valid and otherwise make the call their signature names; memory calls
      through hypercalls keep the memory system.
    - Start and exceptions: the guest finds argc, arguments, environment and each entry of
      the auxiliary vector on an aligned stack that fits, and its segments in memory; the
      exceptions that have a stub become the signals the ABI names, three apart, and leave
      the interrupted program's registers as they were, the flags apart.
    - Theorems whose names end in _keeps_lock, _out_of_bounds, _aborts, _fails, _exhausted, _diverted, _crash,
      _not_restored, _written_back, _overruns, _steps, _race, _passes_guest_addresses, _stops_guest, _not_terminated,
      _low_accepted, _keeps_slot_1, _splits_dups, _breaks_queue, _addresses or _operand
      with "ignores" show where the code does not do what it means to.

    ** Bounds and fuel

    Guest memory is a power of two from 2 GiB to 512 GiB (exponent 31 to 39), the
    sizes km_mem_init accepts.  Loops over lists recurse on the list.  The loops
    that do not (range application, sigsuspend, instruction prefixes) take fuel;
    the theorems are stated for the fuel the definitions pass - the number of
    regions plus a constant for range application, more than the size of guest
    memory for the prefixes, the length of the input for packets - and show that it
    is never exhausted.  The descriptor
    table has MAX_OPEN_FILES - MAX_KM_FILES = 727 entries, as in the source.

    The arguments of a hypercall are read once, when it is dispatched, and its result is
    stored when the handler returns; an array on the monitor's stack that is larger than
    the stack ends the monitor.

    A loop that writes takes as much fuel as there are bytes, since every write that
    does not fail writes at least one; memory is written in as many pieces as there are
    MiB.  The pool of a snapshot's vcpus is KVM_MAX_VCPUS, as in the source.

    ** Not modelled

    Locking and the interleaving of vcpu threads inside one call, except in Vcpu.v: the
    calls modelled hold their component's lock, so each is one step.  Waiting calls
    (select, poll), the dispatch of the debugger's commands and its queries, fork, the
    counters of hypercalls, the decoding of exits from KVM, the symbols of programs, the
    management socket and the command line: host I/O.  In a snapshot, floating point state is the bytes the
    driver gives, and restoring it is the driver's.  The guest's libc, payloads and tests
    are not the monitor. *)
From Stdlib Require Export ZArith Lia Bool.
From stdpp Require Export base list gmap strings.

Declare Scope km_scope.
Delimit Scope km_scope with km.
Open Scope Z_scope.

(** ** Machine integers

    [km_gva_t], [size_t] and [uint64_t] are values [0 <= x < 2^64] of [Z]; every
    addition and subtraction of the source that may wrap is written with the
    wrapping operators below. *)
Definition two64 : Z := 2 ^ 64.
Definition u64 (x : Z) : Z := x mod two64.
Definition is_u64 (x : Z) : Prop := 0 <= x < two64.

Notation "a +u b" := (u64 (a + b)) (at level 50, left associativity) : km_scope.
Notation "a -u b" := (u64 (a - b)) (at level 50, left associativity) : km_scope.
Open Scope km_scope.

(** A negative [errno] returned through an unsigned 64 bit result. *)
Definition neg_errno (e : Z) : Z := u64 (- e).

Definition EPERM : Z := 1.
Definition ENOENT : Z := 2.
Definition ENOMEM : Z := 12.
Definition EFAULT : Z := 14.
Definition EBADF : Z := 9.
Definition EINVAL : Z := 22.

Lemma u64_small x : is_u64 x -> u64 x = x.
Proof. unfold is_u64, u64. intros. by apply Z.mod_small. Qed.

Lemma u64_range x : is_u64 (u64 x).
Proof. unfold is_u64, u64, two64. apply Z.mod_pos_bound. lia. Qed.

Lemma u64_idemp x : u64 (u64 x) = u64 x.
Proof. apply u64_small, u64_range. Qed.

Lemma neg_errno_val e : 0 < e < 4096 -> neg_errno e = two64 - e.
Proof.
  intros. unfold neg_errno, u64. symmetry. apply Z.mod_unique_pos with (-1); unfold two64 in *; lia.
Qed.

(** [u64_norm] removes the wrap-around of every operation whose operands are
    known to stay in range. *)
Ltac u64_norm :=
  repeat match goal with
  | |- context [u64 ?e] =>
      rewrite (u64_small e) by (unfold is_u64, two64 in *; lia)
  | H : context [u64 ?e] |- _ =>
      rewrite (u64_small e) in H by (unfold is_u64, two64 in *; lia)
  end.

(** [dlia] is [lia] for goals with [/] and [mod] by constants. *)
Ltac dlia := Z.div_mod_to_equations; lia.

(** ** Bit fields of a 64 bit word *)
Definition bf_get (lo len w : Z) : Z := Z.land (Z.shiftr w lo) (Z.ones len).
Definition bf_set (lo len v w : Z) : Z :=
  Z.lor (Z.ldiff w (Z.shiftl (Z.ones len) lo)) (Z.shiftl (Z.land v (Z.ones len)) lo).

Lemma testbit_shifted_ones lo len i :
  0 <= lo -> 0 <= len -> 0 <= i ->
  Z.testbit (Z.shiftl (Z.ones len) lo) i = (lo <=? i) && (i <? lo + len).
Proof.
  intros. rewrite Z.shiftl_spec by lia.
  destruct (Z.leb_spec lo i); simpl.
  - rewrite Z.testbit_ones_nonneg by lia.
    destruct (Z.ltb_spec (i - lo) len), (Z.ltb_spec i (lo + len)); lia.
  - apply Z.testbit_neg_r. lia.
Qed.

Lemma bf_set_testbit lo len v w i :
  0 <= lo -> 0 <= len -> 0 <= i ->
  Z.testbit (bf_set lo len v w) i =
    if (lo <=? i) && (i <? lo + len) then Z.testbit v (i - lo) else Z.testbit w i.
Proof.
  intros. unfold bf_set. rewrite Z.lor_spec, Z.ldiff_spec, testbit_shifted_ones by lia.
  rewrite Z.shiftl_spec by lia.
  destruct (Z.leb_spec lo i); simpl.
  - rewrite Z.land_spec, Z.testbit_ones_nonneg by lia.
    destruct (Z.ltb_spec (i - lo) len), (Z.ltb_spec i (lo + len)); try lia; simpl.
    + by rewrite andb_false_r, andb_true_r.
    + by rewrite andb_true_r, andb_false_r, orb_false_r.
  - rewrite (Z.testbit_neg_r _ (i - lo)) by lia. by rewrite andb_true_r, orb_false_r.
Qed.

Lemma bf_get_testbit lo len w i :
  0 <= lo -> 0 <= len -> 0 <= i ->
  Z.testbit (bf_get lo len w) i = (i <? len) && Z.testbit w (i + lo).
Proof.
  intros. unfold bf_get.
  rewrite Z.land_spec, Z.shiftr_spec, Z.testbit_ones_nonneg by lia. apply andb_comm.
Qed.

Lemma bf_get_range lo len w : 0 <= len -> 0 <= bf_get lo len w < 2 ^ len.
Proof.
  intros. unfold bf_get. rewrite Z.land_ones by lia. apply Z.mod_pos_bound. lia.
Qed.

Lemma bf_get_set_same lo len v w :
  0 <= lo -> 0 <= len -> 0 <= v < 2 ^ len -> bf_get lo len (bf_set lo len v w) = v.
Proof.
  intros Hlo Hlen Hv. apply Z.bits_inj'. intros i Hi.
  rewrite bf_get_testbit, bf_set_testbit by lia.
  destruct (Z.ltb_spec i len); simpl.
  - destruct (Z.leb_spec lo (i + lo)), (Z.ltb_spec (i + lo) (lo + len)); try lia; simpl.
    f_equal. lia.
  - symmetry. rewrite <- (Z.mod_small v (2 ^ len)) by lia.
    by apply Z.mod_pow2_bits_high; lia.
Qed.

Lemma bf_get_set_other lo len lo' len' v w :
  0 <= lo -> 0 <= len -> 0 <= lo' -> 0 <= len' ->
  lo + len <= lo' \/ lo' + len' <= lo ->
  bf_get lo' len' (bf_set lo len v w) = bf_get lo' len' w.
Proof.
  intros ???? Hd. apply Z.bits_inj'. intros i Hi.
  rewrite !bf_get_testbit, bf_set_testbit by lia.
  destruct (Z.ltb_spec i len'); simpl; [|done].
  destruct (Z.leb_spec lo (i + lo')), (Z.ltb_spec (i + lo') (lo + len)); simpl; try done; lia.
Qed.

(** ** [roundup] and [rounddown] (sys/param.h and km.h), on 64 bit operands *)
Definition rounddown (x y : Z) : Z := x / y * y.
Definition roundup (x y : Z) : Z := (x +u (y - 1)) / y * y.

Lemma rounddown_le x y : 0 < y -> rounddown x y <= x < rounddown x y + y.
Proof. intros. unfold rounddown. pose proof (Z.div_mod x y). pose proof (Z.mod_pos_bound x y). lia. Qed.

Lemma rounddown_mono x x' y : 0 < y -> x <= x' -> rounddown x y <= rounddown x' y.
Proof. intros. unfold rounddown. apply Z.mul_le_mono_nonneg_r; [lia|]. by apply Z.div_le_mono. Qed.

Lemma rounddown_mod x y : 0 < y -> rounddown x y mod y = 0.
Proof. intros. unfold rounddown. by rewrite Z.mod_mul by lia. Qed.

Lemma roundup_bounds x y :
  0 < y -> 0 <= x -> x + (y - 1) < two64 -> x <= roundup x y < x + y /\ roundup x y mod y = 0.
Proof.
  intros. unfold roundup. rewrite u64_small by (unfold is_u64; lia).
  pose proof (Z.div_mod (x + (y - 1)) y). pose proof (Z.mod_pos_bound (x + (y - 1)) y).
  split; [lia|]. by rewrite Z.mod_mul by lia.
Qed.

(** ** The effect of a C function

    A function of the monitor either returns a value and a new state, or ends the
    process ([km_assert], [km_err], [km_abortx]: [Abort]).  Loops that are not
    structural run on fuel; [NoFuel] is the outcome of an exhausted loop and the
    termination theorems show it is not reached. *)
Inductive outcome (A : Type) : Type :=
| Ret (a : A)
| Abort
| NoFuel.
Arguments Ret {A}.
Arguments Abort {A}.
Arguments NoFuel {A}.

Definition M (S A : Type) : Type := S -> outcome (A * S).

Definition ret {S A} (a : A) : M S A := fun s => Ret (a, s).
Definition bind {S A B} (m : M S A) (k : A -> M S B) : M S B :=
  fun s => match m s with
           | Ret (a, s') => k a s'
           | Abort => Abort
           | NoFuel => NoFuel
           end.
Definition get {S} : M S S := fun s => Ret (s, s).
Definition gets {S A} (f : S -> A) : M S A := fun s => Ret (f s, s).
Definition modify {S} (f : S -> S) : M S unit := fun s => Ret (tt, f s).
Definition abort {S A} : M S A := fun _ => Abort.
Definition km_assert {S} (b : bool) : M S unit := if b then ret tt else abort.

Notation "'let*' p := m 'in' k" := (bind m (fun p => k))
  (at level 10, p pattern, m at level 100, k at level 200) : km_scope.
Notation "m ;;; k" := (bind m (fun _ => k)) (at level 100, right associativity) : km_scope.

Definition is_ret {A} (o : outcome A) : Prop := exists a, o = Ret a.

(** [run_step] unfolds one layer of monadic code applied to a state. *)
Ltac run_step :=
  cbv beta iota delta [bind ret get gets modify abort] in *.

Lemma bind_ret {S A B} (m : M S A) (k : A -> M S B) s b s' :
  bind m k s = Ret (b, s') -> exists a s1, m s = Ret (a, s1) /\ k a s1 = Ret (b, s').
Proof. unfold bind. destruct (m s) as [[a s1]| |]; intros; try discriminate. eauto. Qed.

Lemma km_assert_true {S} (b : bool) (s : S) : b = true -> km_assert b s = Ret (tt, s).
Proof. by intros ->. Qed.

Example let_pattern_ex : (let* (a, b) := ret (1, 2) in ret (a + b)) tt = Ret (3, tt).
Proof. reflexivity. Qed.

Lemma bind_assoc {S A B C} (m : M S A) (k : A -> M S B) (h : B -> M S C) s :
  bind (bind m k) h s = bind m (fun a => bind (k a) h) s.
Proof. unfold bind. by destruct (m s) as [[a s1]| |]. Qed.

(** ** Weakest preconditions

    [wp ab c Q s]: running [c] from [s] ends in a value and state that satisfy [Q];
    it never exhausts its fuel, and ends the process only if [ab] holds ([False]
    when it must not). *)
Definition wp {S A} (ab : Prop) (c : M S A) (Q : A -> S -> Prop) (s : S) : Prop :=
  match c s with
  | Ret (a, s') => Q a s'
  | Abort => ab
  | NoFuel => False
  end.

Section Wp.
  Context {S : Type} (ab : Prop).

Lemma wp_bind {A B} (c : M S A) (k : A -> M S B) Q s :
  wp ab c (fun a s' => wp ab (k a) Q s') s -> wp ab (bind c k) Q s.
Proof. unfold wp, bind. by destruct (c s) as [[a s']| |]. Qed.

Lemma wp_bind_inv {A B} (c : M S A) (k : A -> M S B) Q s :
  wp ab (bind c k) Q s -> wp ab c (fun a s' => wp ab (k a) Q s') s.
Proof. unfold wp, bind. by destruct (c s) as [[a s']| |]. Qed.

Lemma wp_ret {A} (a : A) (Q : A -> S -> Prop) s : Q a s -> wp ab (ret a) Q s.
Proof. done. Qed.

Lemma wp_get (Q : S -> S -> Prop) s : Q s s -> wp ab get Q s.
Proof. done. Qed.

Lemma wp_gets {A} (f : S -> A) (Q : A -> S -> Prop) s : Q (f s) s -> wp ab (gets f) Q s.
Proof. done. Qed.

Lemma wp_modify (f : S -> S) (Q : unit -> S -> Prop) s : Q tt (f s) -> wp ab (modify f) Q s.
Proof. done. Qed.

Lemma wp_assert (b : bool) (Q : unit -> S -> Prop) s :
  b = true -> Q tt s -> wp ab (km_assert b) Q s.
Proof. intros ->. done. Qed.

Lemma wp_mono {A} (c : M S A) (Q Q' : A -> S -> Prop) s :
  wp ab c Q s -> (forall a s', Q a s' -> Q' a s') -> wp ab c Q' s.
Proof. unfold wp. destruct (c s) as [[a s']| |]; auto. Qed.

(** Code that never aborts does so under any excuse. *)
Lemma wp_safe {A} (c : M S A) (Q : A -> S -> Prop) s : wp False c Q s -> wp ab c Q s.
Proof. unfold wp. by destruct (c s) as [[a s']| |]. Qed.

Lemma wp_excuse {A} (c : M S A) (Q : A -> S -> Prop) s : ~ ab -> wp ab c Q s -> wp False c Q s.
Proof. unfold wp. by destruct (c s) as [[a s']| |]. Qed.

End Wp.

(** [wp_step] takes one primitive step of the code under a [wp]. *)
Ltac wp_step :=
  lazymatch goal with
  | |- wp _ (bind _ _) _ _ => apply wp_bind
  | |- wp _ (ret _) _ _ => apply wp_ret
  | |- wp _ get _ _ => apply wp_get
  | |- wp _ (gets _) _ _ => apply wp_gets
  | |- wp _ (modify _) _ _ => apply wp_modify
  end; cbv beta.
Ltac wp_steps := repeat wp_step.

(** Facts that close the routine side conditions of the components. *)
Create HintDb km.
