(* ===== verification/Machine.v ===== *)
(** * The monitor's machine state (km.h, km_mem.h, x86_cpu.h)

    The part of [km_machine_t] that the memory components share: the memory
    slots, the two breaks, the geometry of physical memory, the guest page
    tables, the two region lists of [machine.mmaps] and the requests made to
    the host kernel.  The host is a parameter: an oracle that answers each
    request from the history of the earlier ones. *)
From S2P Require Import Prelude.

(** ** Constants *)
Definition KM_PAGE_SIZE : Z := 0x1000.
Definition KIB : Z := 0x400.
Definition MIB : Z := 0x100000.
Definition GIB : Z := 0x40000000.
Definition RSV_MEM_START : Z := KM_PAGE_SIZE * 32.
Definition RSV_MEM_SIZE : Z := KM_PAGE_SIZE * 32.
Definition RSV_IDMAP_OFFSET : Z := RSV_MEM_SIZE.
Definition RSV_GUEST_PA (x : Z) : Z := x + RSV_MEM_START.
Definition KM_RSRV_MEMSLOT : Z := 0.
Definition KM_RSRV_VDSOSLOT : Z := 41.
Definition KM_RSRV_KMGUESTMEM_SLOT : Z := 42.
Definition KM_MEM_SLOTS : Z := 43.
Definition GUEST_MEM_START_VA : Z := 2 * MIB.
Definition GUEST_PRIVATE_MEM_START_VA : Z := 512 * GIB.
Definition GUEST_MEM_TOP_VA : Z := 512 * GIB - GUEST_MEM_START_VA.
Definition GUEST_VVAR_VDSO_BASE_VA : Z := GUEST_PRIVATE_MEM_START_VA.
Definition GUEST_VVAR_VDSO_BASE_GPA : Z := 0x7ffff00000.
Definition GUEST_KMGUESTMEM_BASE_VA : Z := GUEST_PRIVATE_MEM_START_VA + 32 * KIB.
Definition GUEST_KMGUESTMEM_BASE_GPA : Z := 0x7ffff08000.
Definition GUEST_MAX_PHYSMEM_SUPPORTED : Z := 512 * GIB.

(** protections and flags of mmap(2) *)
Definition PROT_NONE : Z := 0.
Definition PROT_READ : Z := 1.
Definition PROT_WRITE : Z := 2.
Definition PROT_EXEC : Z := 4.
Definition PROT_GROWSDOWN : Z := 0x01000000.
Definition PROT_GROWSUP : Z := 0x02000000.
Definition MAP_SHARED : Z := 0x01.
Definition MAP_PRIVATE : Z := 0x02.
Definition MAP_FIXED : Z := 0x10.
Definition MAP_ANONYMOUS : Z := 0x20.
Definition MAP_NORESERVE : Z := 0x4000.
Definition MAP_FIXED_NOREPLACE : Z := 0x100000.
Definition MADV_WILLNEED : Z := 3.
Definition MADV_DONTNEED : Z := 4.
Definition MADV_HUGEPAGE : Z := 14.
Definition MREMAP_MAYMOVE : Z := 1.

(** ** Requests to the host kernel and allocator *)
Inductive hostcall : Type :=
| H_mmap (addr size prot flags fd off : Z)
| H_munmap (addr size : Z)
| H_mprotect (addr size prot : Z)
| H_madvise (addr size advice : Z)
| H_msync (addr size flag : Z)
| H_memcpy (dst src size : Z)
| H_set_user_memory_region (slot gpa size uaddr : Z)
| H_set_identity_map_addr (addr : Z)
| H_calloc.

(** The answer: the value the call returns, a negative errno on failure
    ([H_calloc] answers 0 when there is no memory). *)
Class Host := host_answer : list hostcall -> hostcall -> Z.

(** ** Data *)
Inductive vm_type_t := VM_TYPE_KVM | VM_TYPE_KKM.

Record kvm_mem_reg := mk_mem_reg {
  slot : Z; reg_flags : Z; guest_phys_addr : Z; memory_size : Z; userspace_addr : Z
}.
Definition kvm_mem_reg_zero : kvm_mem_reg := mk_mem_reg 0 0 0 0 0.

(** Each table is 512 words; a slot that was never written is zero. *)
Record page_tables := mk_page_tables {
  pml4 : gmap Z Z; pdpt0 : gmap Z Z; pdpt1 : gmap Z Z; pdpt2 : gmap Z Z;
  pd0 : gmap Z Z; pd1 : gmap Z Z; pd2 : gmap Z Z; pt1 : gmap Z Z
}.

(** The page tables of a fresh mapping. *)
Definition page_tables_0 : page_tables := mk_page_tables ∅ ∅ ∅ ∅ ∅ ∅ ∅ ∅.

(** km_mmap_flags_u: the three bits in use of the union. *)
Record km_mmap_flags := mk_km_flags {
  km_mmap_monitor : bool; km_mmap_clean : bool; km_mmap_part_of_monitor : bool
}.
Definition km_flags_0 : km_mmap_flags := mk_km_flags false false false.
Definition data32 (f : km_mmap_flags) : Z :=
  Z.b2z (km_mmap_monitor f) + 2 * Z.b2z (km_mmap_clean f) + 4 * Z.b2z (km_mmap_part_of_monitor f).

Record km_mmap_reg := mk_reg {
  start : Z; size : Z; flags : Z; protection : Z; km_flags : km_mmap_flags;
  filename : option string; offset : Z
}.

Record machine := mk_machine {
  vm_type : vm_type_t;   (* km.h vm_type_t: KVM or KKM *)
  vm_mem_regs : gmap Z kvm_mem_reg;   (* guest physical memory slots, KM_MEM_SLOTS of them *)
  brk : Z;   (* program break *)
  tbrk : Z;   (* top break *)
  guest_max_physmem : Z;
  pdpe1g : bool;
  guest_mid_physmem : Z;
  mid_mem_idx : Z;
  last_mem_idx : Z;
  overcommit_memory : bool;
  km_vvar_vdso_base : Z * Z;
  km_vvar_vdso_size : Z;
  pt : page_tables;   (* the reserved area at RSV_MEM_START *)
  mmaps_free : list km_mmap_reg;
  mmaps_busy : list km_mmap_reg;
  recovery_mode : bool;
  trace : list hostcall;   (* requests made to the host, latest first *)
}.

Definition set_vm_type (v : vm_type_t) (m : machine) : machine :=
  mk_machine v (m.(vm_mem_regs)) (m.(brk)) (m.(tbrk)) (m.(guest_max_physmem)) (m.(pdpe1g)) (m.(guest_mid_physmem)) (m.(mid_mem_idx)) (m.(last_mem_idx)) (m.(overcommit_memory)) (m.(km_vvar_vdso_base)) (m.(km_vvar_vdso_size)) (m.(pt)) (m.(mmaps_free)) (m.(mmaps_busy)) (m.(recovery_mode)) (m.(trace)).
Definition set_vm_mem_regs (v : gmap Z kvm_mem_reg) (m : machine) : machine :=
  mk_machine (m.(vm_type)) v (m.(brk)) (m.(tbrk)) (m.(guest_max_physmem)) (m.(pdpe1g)) (m.(guest_mid_physmem)) (m.(mid_mem_idx)) (m.(last_mem_idx)) (m.(overcommit_memory)) (m.(km_vvar_vdso_base)) (m.(km_vvar_vdso_size)) (m.(pt)) (m.(mmaps_free)) (m.(mmaps_busy)) (m.(recovery_mode)) (m.(trace)).
Definition set_brk (v : Z) (m : machine) : machine :=
  mk_machine (m.(vm_type)) (m.(vm_mem_regs)) v (m.(tbrk)) (m.(guest_max_physmem)) (m.(pdpe1g)) (m.(guest_mid_physmem)) (m.(mid_mem_idx)) (m.(last_mem_idx)) (m.(overcommit_memory)) (m.(km_vvar_vdso_base)) (m.(km_vvar_vdso_size)) (m.(pt)) (m.(mmaps_free)) (m.(mmaps_busy)) (m.(recovery_mode)) (m.(trace)).
Definition set_tbrk (v : Z) (m : machine) : machine :=
  mk_machine (m.(vm_type)) (m.(vm_mem_regs)) (m.(brk)) v (m.(guest_max_physmem)) (m.(pdpe1g)) (m.(guest_mid_physmem)) (m.(mid_mem_idx)) (m.(last_mem_idx)) (m.(overcommit_memory)) (m.(km_vvar_vdso_base)) (m.(km_vvar_vdso_size)) (m.(pt)) (m.(mmaps_free)) (m.(mmaps_busy)) (m.(recovery_mode)) (m.(trace)).
Definition set_guest_max_physmem (v : Z) (m : machine) : machine :=
  mk_machine (m.(vm_type)) (m.(vm_mem_regs)) (m.(brk)) (m.(tbrk)) v (m.(pdpe1g)) (m.(guest_mid_physmem)) (m.(mid_mem_idx)) (m.(last_mem_idx)) (m.(overcommit_memory)) (m.(km_vvar_vdso_base)) (m.(km_vvar_vdso_size)) (m.(pt)) (m.(mmaps_free)) (m.(mmaps_busy)) (m.(recovery_mode)) (m.(trace)).
Definition set_pdpe1g (v : bool) (m : machine) : machine :=
  mk_machine (m.(vm_type)) (m.(vm_mem_regs)) (m.(brk)) (m.(tbrk)) (m.(guest_max_physmem)) v (m.(guest_mid_physmem)) (m.(mid_mem_idx)) (m.(last_mem_idx)) (m.(overcommit_memory)) (m.(km_vvar_vdso_base)) (m.(km_vvar_vdso_size)) (m.(pt)) (m.(mmaps_free)) (m.(mmaps_busy)) (m.(recovery_mode)) (m.(trace)).
Definition set_guest_mid_physmem (v : Z) (m : machine) : machine :=
  mk_machine (m.(vm_type)) (m.(vm_mem_regs)) (m.(brk)) (m.(tbrk)) (m.(guest_max_physmem)) (m.(pdpe1g)) v (m.(mid_mem_idx)) (m.(last_mem_idx)) (m.(overcommit_memory)) (m.(km_vvar_vdso_base)) (m.(km_vvar_vdso_size)) (m.(pt)) (m.(mmaps_free)) (m.(mmaps_busy)) (m.(recovery_mode)) (m.(trace)).
Definition set_mid_mem_idx (v : Z) (m : machine) : machine :=
  mk_machine (m.(vm_type)) (m.(vm_mem_regs)) (m.(brk)) (m.(tbrk)) (m.(guest_max_physmem)) (m.(pdpe1g)) (m.(guest_mid_physmem)) v (m.(last_mem_idx)) (m.(overcommit_memory)) (m.(km_vvar_vdso_base)) (m.(km_vvar_vdso_size)) (m.(pt)) (m.(mmaps_free)) (m.(mmaps_busy)) (m.(recovery_mode)) (m.(trace)).
Definition set_last_mem_idx (v : Z) (m : machine) : machine :=
  mk_machine (m.(vm_type)) (m.(vm_mem_regs)) (m.(brk)) (m.(tbrk)) (m.(guest_max_physmem)) (m.(pdpe1g)) (m.(guest_mid_physmem)) (m.(mid_mem_idx)) v (m.(overcommit_memory)) (m.(km_vvar_vdso_base)) (m.(km_vvar_vdso_size)) (m.(pt)) (m.(mmaps_free)) (m.(mmaps_busy)) (m.(recovery_mode)) (m.(trace)).
Definition set_overcommit_memory (v : bool) (m : machine) : machine :=
  mk_machine (m.(vm_type)) (m.(vm_mem_regs)) (m.(brk)) (m.(tbrk)) (m.(guest_max_physmem)) (m.(pdpe1g)) (m.(guest_mid_physmem)) (m.(mid_mem_idx)) (m.(last_mem_idx)) v (m.(km_vvar_vdso_base)) (m.(km_vvar_vdso_size)) (m.(pt)) (m.(mmaps_free)) (m.(mmaps_busy)) (m.(recovery_mode)) (m.(trace)).
Definition set_km_vvar_vdso_base (v : Z * Z) (m : machine) : machine :=
  mk_machine (m.(vm_type)) (m.(vm_mem_regs)) (m.(brk)) (m.(tbrk)) (m.(guest_max_physmem)) (m.(pdpe1g)) (m.(guest_mid_physmem)) (m.(mid_mem_idx)) (m.(last_mem_idx)) (m.(overcommit_memory)) v (m.(km_vvar_vdso_size)) (m.(pt)) (m.(mmaps_free)) (m.(mmaps_busy)) (m.(recovery_mode)) (m.(trace)).
Definition set_km_vvar_vdso_size (v : Z) (m : machine) : machine :=
  mk_machine (m.(vm_type)) (m.(vm_mem_regs)) (m.(brk)) (m.(tbrk)) (m.(guest_max_physmem)) (m.(pdpe1g)) (m.(guest_mid_physmem)) (m.(mid_mem_idx)) (m.(last_mem_idx)) (m.(overcommit_memory)) (m.(km_vvar_vdso_base)) v (m.(pt)) (m.(mmaps_free)) (m.(mmaps_busy)) (m.(recovery_mode)) (m.(trace)).
Definition set_pt (v : page_tables) (m : machine) : machine :=
  mk_machine (m.(vm_type)) (m.(vm_mem_regs)) (m.(brk)) (m.(tbrk)) (m.(guest_max_physmem)) (m.(pdpe1g)) (m.(guest_mid_physmem)) (m.(mid_mem_idx)) (m.(last_mem_idx)) (m.(overcommit_memory)) (m.(km_vvar_vdso_base)) (m.(km_vvar_vdso_size)) v (m.(mmaps_free)) (m.(mmaps_busy)) (m.(recovery_mode)) (m.(trace)).
Definition set_mmaps_free (v : list km_mmap_reg) (m : machine) : machine :=
  mk_machine (m.(vm_type)) (m.(vm_mem_regs)) (m.(brk)) (m.(tbrk)) (m.(guest_max_physmem)) (m.(pdpe1g)) (m.(guest_mid_physmem)) (m.(mid_mem_idx)) (m.(last_mem_idx)) (m.(overcommit_memory)) (m.(km_vvar_vdso_base)) (m.(km_vvar_vdso_size)) (m.(pt)) v (m.(mmaps_busy)) (m.(recovery_mode)) (m.(trace)).
Definition set_mmaps_busy (v : list km_mmap_reg) (m : machine) : machine :=
  mk_machine (m.(vm_type)) (m.(vm_mem_regs)) (m.(brk)) (m.(tbrk)) (m.(guest_max_physmem)) (m.(pdpe1g)) (m.(guest_mid_physmem)) (m.(mid_mem_idx)) (m.(last_mem_idx)) (m.(overcommit_memory)) (m.(km_vvar_vdso_base)) (m.(km_vvar_vdso_size)) (m.(pt)) (m.(mmaps_free)) v (m.(recovery_mode)) (m.(trace)).
Definition set_recovery_mode (v : bool) (m : machine) : machine :=
  mk_machine (m.(vm_type)) (m.(vm_mem_regs)) (m.(brk)) (m.(tbrk)) (m.(guest_max_physmem)) (m.(pdpe1g)) (m.(guest_mid_physmem)) (m.(mid_mem_idx)) (m.(last_mem_idx)) (m.(overcommit_memory)) (m.(km_vvar_vdso_base)) (m.(km_vvar_vdso_size)) (m.(pt)) (m.(mmaps_free)) (m.(mmaps_busy)) v (m.(trace)).
Definition set_trace (v : list hostcall) (m : machine) : machine :=
  mk_machine (m.(vm_type)) (m.(vm_mem_regs)) (m.(brk)) (m.(tbrk)) (m.(guest_max_physmem)) (m.(pdpe1g)) (m.(guest_mid_physmem)) (m.(mid_mem_idx)) (m.(last_mem_idx)) (m.(overcommit_memory)) (m.(km_vvar_vdso_base)) (m.(km_vvar_vdso_size)) (m.(pt)) (m.(mmaps_free)) (m.(mmaps_busy)) (m.(recovery_mode)) v.

(** ** Talking to the host *)
Definition hcall `{Host} (c : hostcall) : M machine Z :=
  fun m => Ret (host_answer m.(trace) c, set_trace (c :: m.(trace)) m).

(** A [km_assert] inside a pure helper is [None]. *)
Definition lift {A} (o : option A) : M machine A :=
  match o with Some a => ret a | None => abort end.

Lemma wp_hcall `{Host} ab c (Q : Z -> machine -> Prop) m :
  Q (host_answer m.(trace) c) (set_trace (c :: m.(trace)) m) -> wp ab (hcall c) Q m.
Proof. done. Qed.

Lemma wp_lift {A} ab (o : option A) (Q : A -> machine -> Prop) m a :
  o = Some a -> Q a m -> wp ab (lift o) Q m.
Proof. by intros ->. Qed.

(** km_syscall_ok: the tail of the 64 bit range holds negative errnos. *)
Definition s64 (x : Z) : Z := if x <? 2 ^ 63 then x else x - two64.
Definition km_syscall_ok (r : Z) : Z := if u64 (-4096) <? r then -1 else s64 r.
