(* ===== verification/MemGeom.v ===== *)
(** * Geometry of guest memory (km_mem.h, geometry set up by km_mem_init)

    Guest physical memory is cut into regions that double in size up to the
    middle and halve again after it; each region is one KVM memory slot.  This
    file models the index arithmetic of km_mem.h and shows that it is exact:
    the regions tile the usable physical memory and [gva_to_memreg_idx] finds
    the one region that holds an address.  It also models the translations
    between guest virtual, guest physical and monitor addresses. *)
From S2P Require Import Prelude Machine.

(** ** Definitions *)
Definition clzl (x : Z) : Z := 63 - Z.log2 x.

Definition MEM_IDX (addr : Z) : option Z :=
  if 0 <? addr then Some (43 - clzl addr) else None.

Section Layout.
  Context (m : machine).

Definition GUEST_MEM_ZONE_SIZE_VA : Z := m.(guest_max_physmem).
Definition GUEST_VA_OFFSET : Z := GUEST_MEM_TOP_VA + GUEST_MEM_START_VA - GUEST_MEM_ZONE_SIZE_VA.

Definition gva_to_gpa_nocheck (gva : Z) : Z :=
  if GUEST_VA_OFFSET <? gva then gva - GUEST_VA_OFFSET else gva.

Definition gva_to_gpa (gva : Z) : option Z :=
  if ((GUEST_MEM_START_VA - 1 <=? gva) && (gva <? GUEST_MEM_ZONE_SIZE_VA))
     || ((GUEST_VA_OFFSET <=? gva) && (gva <=? GUEST_MEM_TOP_VA))
  then Some (gva_to_gpa_nocheck gva) else None.

Definition gpa_to_upper_gva (gpa : Z) : option Z :=
  if (GUEST_MEM_START_VA <=? gpa) && (gpa <? m.(guest_max_physmem))
  then Some (gpa + GUEST_VA_OFFSET) else None.

Definition gva_to_memreg_idx (gva : Z) : option Z :=
  addr ← gva_to_gpa gva;
  if m.(guest_mid_physmem) <? addr
  then i ← MEM_IDX (m.(guest_max_physmem) - addr - 1); Some (m.(last_mem_idx) - i)
  else MEM_IDX addr.

(** memreg_base and memreg_top call each other on the mirrored index; [is_top]
    selects which of the two is computed. *)
Fixpoint memreg_bound (fuel : nat) (is_top : bool) (idx : Z) : Z :=
  if idx <=? m.(mid_mem_idx)
  then if is_top then Z.shiftl (Z.shiftl MIB 1) idx else Z.shiftl MIB idx
  else match fuel with
       | O => 0
       | S fuel' => m.(guest_max_physmem) - memreg_bound fuel' (negb is_top) (m.(last_mem_idx) - idx)
       end.
Definition memreg_base (idx : Z) : Z := memreg_bound 1 false idx.
Definition memreg_top (idx : Z) : Z := memreg_bound 1 true idx.

Definition memreg_size (idx : Z) : Z :=
  if idx <=? m.(mid_mem_idx) then Z.shiftl MIB idx
  else Z.shiftl MIB (m.(last_mem_idx) - idx).

Definition km_vdso_gva (gva : Z) : bool :=
  (GUEST_VVAR_VDSO_BASE_VA <=? gva) && (gva <? GUEST_VVAR_VDSO_BASE_VA + m.(km_vvar_vdso_size)).

Definition guestmem_reg : kvm_mem_reg :=
  default kvm_mem_reg_zero (m.(vm_mem_regs) !! KM_RSRV_KMGUESTMEM_SLOT).
Definition vdso_reg : kvm_mem_reg :=
  default kvm_mem_reg_zero (m.(vm_mem_regs) !! KM_RSRV_VDSOSLOT).

Definition km_guestmem_gva (gva : Z) : bool :=
  (GUEST_KMGUESTMEM_BASE_VA <=? gva)
  && (gva <? GUEST_KMGUESTMEM_BASE_VA + guestmem_reg.(memory_size)).

(** KM_USER_MEM_BASE is 0 in the default build. *)
Definition KM_USER_MEM_BASE : Z := 0.

Definition km_gva_to_kma_nocheck (gva : Z) : Z :=
  if km_vdso_gva gva then vdso_reg.(userspace_addr) + (gva - GUEST_VVAR_VDSO_BASE_VA)
  else if km_guestmem_gva gva
       then guestmem_reg.(userspace_addr) + (gva - GUEST_KMGUESTMEM_BASE_VA)
       else KM_USER_MEM_BASE + gva_to_gpa_nocheck gva.

(** [None] is the NULL result. *)
Definition km_gva_to_kma (gva : Z) : option Z :=
  if (gva <? GUEST_MEM_START_VA) || (GUEST_MEM_TOP_VA <=? gva)
     || ((roundup m.(brk) KM_PAGE_SIZE <=? gva) && (gva <? rounddown m.(tbrk) KM_PAGE_SIZE)
         && negb ((GUEST_VVAR_VDSO_BASE_VA <=? gva)
                  && (gva <? GUEST_VVAR_VDSO_BASE_VA + m.(km_vvar_vdso_size)))
         && negb ((GUEST_KMGUESTMEM_BASE_VA <=? gva)
                  && (gva <? GUEST_KMGUESTMEM_BASE_VA + guestmem_reg.(memory_size))))
  then None else Some (km_gva_to_kma_nocheck gva).

End Layout.
#[global] Arguments memreg_base : simpl never.
#[global] Arguments memreg_top : simpl never.
#[global] Arguments memreg_size : simpl never.

Definition protection_adjust (prot : Z) : Z :=
  if Z.land prot PROT_WRITE =? PROT_WRITE then Z.lor prot PROT_READ else prot.

(** The assignments of km_mem_init that fix the geometry. *)
Definition km_mem_init_geometry (m : machine) : option machine :=
  let m := set_brk GUEST_MEM_START_VA m in
  let m := set_tbrk GUEST_MEM_TOP_VA m in
  let m := set_guest_mid_physmem (Z.shiftr m.(guest_max_physmem) 1) m in
  i ← MEM_IDX (m.(guest_mid_physmem) - 1);
  let m := set_mid_mem_idx i m in
  Some (set_last_mem_idx (Z.shiftl m.(mid_mem_idx) 1 + 1) m).

(** ** The geometry invariant *)

(** Physical memory is a power of two between 2 GiB (no 1 GiB pages) and
    512 GiB, and the cached values are those km_mem_init computes. *)
Definition geom_ok (m : machine) (w : Z) : Prop :=
  31 <= w <= 39 /\ m.(guest_max_physmem) = 2 ^ w /\ m.(guest_mid_physmem) = 2 ^ (w - 1)
  /\ m.(mid_mem_idx) = w - 22 /\ m.(last_mem_idx) = 2 * (w - 22) + 1.

Ltac geom H := destruct H as (?Hw & ?Hmax & ?Hmid & ?Hmidx & ?Hlast).

(** ** Lemmas *)
Lemma MEM_IDX_log2 x : 0 < x -> MEM_IDX x = Some (Z.log2 x - 20).
Proof.
  intros. unfold MEM_IDX, clzl. destruct (Z.ltb_spec 0 x); [|lia]. f_equal. lia.
Qed.

Lemma shiftl_MIB i : 0 <= i -> Z.shiftl MIB i = 2 ^ (20 + i).
Proof. intros. rewrite Z.shiftl_mul_pow2, Z.pow_add_r by lia. reflexivity. Qed.

Lemma shiftl_2MIB i : 0 <= i -> Z.shiftl (Z.shiftl MIB 1) i = 2 ^ (21 + i).
Proof. intros. rewrite Z.shiftl_mul_pow2, Z.pow_add_r by lia. reflexivity. Qed.

Section Geometry.
  Context (m : machine) (w : Z) (G : geom_ok m w).

Lemma memreg_base_low i : 0 <= i <= w - 22 -> memreg_base m i = 2 ^ (20 + i).
Proof.
  geom G. intros. unfold memreg_base. cbn.
  destruct (Z.leb_spec i m.(mid_mem_idx)); [|lia]. by rewrite shiftl_MIB by lia.
Qed.

Lemma memreg_top_low i : 0 <= i <= w - 22 -> memreg_top m i = 2 ^ (21 + i).
Proof.
  geom G. intros. unfold memreg_top. cbn.
  destruct (Z.leb_spec i m.(mid_mem_idx)); [|lia]. by rewrite shiftl_2MIB by lia.
Qed.

Lemma memreg_base_high i :
  w - 22 < i <= 2 * (w - 22) + 1 -> memreg_base m i = 2 ^ w - 2 ^ (21 + (2 * (w - 22) + 1 - i)).
Proof.
  geom G. intros. unfold memreg_base. cbn.
  destruct (Z.leb_spec i m.(mid_mem_idx)); [lia|].
  destruct (Z.leb_spec (m.(last_mem_idx) - i) m.(mid_mem_idx)); [|lia].
  rewrite shiftl_2MIB by lia. rewrite Hmax, Hlast. f_equal.
Qed.

Lemma memreg_top_high i :
  w - 22 < i <= 2 * (w - 22) + 1 -> memreg_top m i = 2 ^ w - 2 ^ (20 + (2 * (w - 22) + 1 - i)).
Proof.
  geom G. intros. unfold memreg_top. cbn.
  destruct (Z.leb_spec i m.(mid_mem_idx)); [lia|].
  destruct (Z.leb_spec (m.(last_mem_idx) - i) m.(mid_mem_idx)); [|lia].
  rewrite shiftl_MIB by lia. rewrite Hmax, Hlast. f_equal.
Qed.

Lemma memreg_size_eq i :
  0 <= i <= 2 * (w - 22) + 1 -> memreg_size m i = memreg_top m i - memreg_base m i.
Proof.
  intros Hi. pose proof G as (?&?&?&Hmidx&Hlast). unfold memreg_size.
  destruct (Z.leb_spec i m.(mid_mem_idx)).
  - rewrite memreg_top_low, memreg_base_low by lia. rewrite shiftl_MIB by lia.
    replace (21 + i) with (Z.succ (20 + i)) by lia. rewrite Z.pow_succ_r; lia.
  - rewrite memreg_top_high, memreg_base_high by lia. rewrite shiftl_MIB by lia.
    rewrite Hlast. set (k := 2 * (w - 22) + 1 - i).
    replace (21 + k) with (Z.succ (20 + k)) by lia. rewrite Z.pow_succ_r; lia.
Qed.

Lemma memreg_adjacent i :
  0 <= i < 2 * (w - 22) + 1 -> memreg_top m i = memreg_base m (i + 1).
Proof.
  intros Hi. destruct (Z_lt_le_dec i (w - 22)).
  - rewrite memreg_top_low, memreg_base_low by lia. f_equal. lia.
  - destruct (Z.eq_dec i (w - 22)) as [->|].
    + rewrite memreg_top_low, memreg_base_high by lia.
      replace (21 + (2 * (w - 22) + 1 - (w - 22 + 1))) with (w - 1) by lia.
      replace (21 + (w - 22)) with (w - 1) by lia.
      replace w with (Z.succ (w - 1)) at 2 by lia. rewrite Z.pow_succ_r; [lia|]. geom G. lia.
    + rewrite memreg_top_high, memreg_base_high by lia. f_equal. f_equal. lia.
Qed.

Lemma memreg_base_lt_top i : 0 <= i <= 2 * (w - 22) + 1 -> memreg_base m i < memreg_top m i.
Proof.
  intros Hi. pose proof (memreg_size_eq i Hi) as Hs.
  pose proof G as (?&?&?&Hmidx&Hlast). unfold memreg_size in Hs.
  destruct (Z.leb_spec i m.(mid_mem_idx)); rewrite shiftl_MIB in Hs by lia;
    [pose proof (Z.pow_pos_nonneg 2 (20 + i)) | pose proof (Z.pow_pos_nonneg 2 (20 + (m.(last_mem_idx) - i)))]; lia.
Qed.

Lemma gpa_index gva gpa :
  gva_to_gpa m gva = Some gpa -> 2 ^ 20 <= gpa < 2 ^ w - 2 ^ 20 ->
  exists i, gva_to_memreg_idx m gva = Some i /\ 0 <= i <= 2 * (w - 22) + 1
            /\ memreg_base m i <= gpa < memreg_top m i.
Proof.
  intros Hg Hr. pose proof G as (Hw&Hmax&Hmid&Hmidx&Hlast).
  unfold gva_to_memreg_idx. rewrite Hg. cbn.
  destruct (Z.ltb_spec m.(guest_mid_physmem) gpa) as [Hup|Hlo].
  - rewrite MEM_IDX_log2 by lia. cbn. rewrite Hmax, Hlast, Hmid in *.
    set (x := 2 ^ w - gpa - 1).
    assert (Hx : 2 ^ 20 <= x < 2 ^ (w - 1)).
    { unfold x. split; [lia|]. replace w with (Z.succ (w - 1)) at 1 by lia.
      rewrite Z.pow_succ_r; lia. }
    pose proof (Z.log2_spec x ltac:(lia)) as [Hl1 Hl2].
    assert (20 <= Z.log2 x) by (apply Z.log2_le_pow2; lia).
    assert (Z.log2 x < w - 1) by (apply Z.log2_lt_pow2; lia).
    eexists; split; [reflexivity|]. split; [lia|].
    rewrite memreg_base_high, memreg_top_high by lia.
    replace (21 + _) with (Z.succ (Z.log2 x)) by lia.
    replace (20 + _) with (Z.log2 x) by lia. unfold x in *. lia.
  - rewrite MEM_IDX_log2 by lia. rewrite Hmid in Hlo.
    pose proof (Z.log2_spec gpa ltac:(lia)) as [Hl1 Hl2].
    assert (20 <= Z.log2 gpa) by (apply Z.log2_le_pow2; lia).
    assert (Z.log2 gpa <= w - 1).
    { rewrite <- (Z.log2_pow2 (w - 1)) by lia. by apply Z.log2_le_mono. }
    eexists; split; [reflexivity|]. split; [lia|].
    destruct (Z.eq_dec (Z.log2 gpa) (w - 1)) as [He|].
    + rewrite He in *. rewrite memreg_base_high, memreg_top_high by lia.
      replace (21 + _) with (w - 1) by lia. replace (20 + _) with (w - 2) by lia.
      assert (2 ^ w = 2 * 2 ^ (w - 1)) by (rewrite <- Z.pow_succ_r by lia; f_equal; lia).
      assert (2 ^ (w - 1) = 2 * 2 ^ (w - 2)) by (rewrite <- Z.pow_succ_r by lia; f_equal; lia).
      pose proof (Z.pow_pos_nonneg 2 (w - 2)). lia.
    + rewrite memreg_base_low, memreg_top_low by lia.
      replace (20 + (Z.log2 gpa - 20)) with (Z.log2 gpa) by lia.
      replace (21 + (Z.log2 gpa - 20)) with (Z.succ (Z.log2 gpa)) by lia. split; [exact Hl1|exact Hl2].
Qed.

Lemma memreg_top_le_base i j :
  0 <= i -> i < j -> j <= 2 * (w - 22) + 1 -> memreg_top m i <= memreg_base m j.
Proof.
  intros Hi Hij. assert (Hj : i + 1 <= j) by lia. clear Hij. revert j Hj.
  apply (Zlt_lower_bound_ind (fun j => j <= 2 * (w - 22) + 1 -> memreg_top m i <= memreg_base m j)).
  intros j IH Hj Hl.
  destruct (Z.eq_dec j (i + 1)) as [->|].
  - rewrite memreg_adjacent; lia.
  - pose proof (IH (j - 1) ltac:(lia) ltac:(lia)).
    pose proof (memreg_base_lt_top (j - 1) ltac:(lia)).
    pose proof (memreg_adjacent (j - 1) ltac:(lia)) as Ha.
    replace (j - 1 + 1) with j in Ha by lia. lia.
Qed.

Lemma memreg_unique i j a :
  0 <= i <= 2 * (w - 22) + 1 -> 0 <= j <= 2 * (w - 22) + 1 ->
  memreg_base m i <= a < memreg_top m i -> memreg_base m j <= a < memreg_top m j -> i = j.
Proof.
  intros. destruct (Z.lt_trichotomy i j) as [|[|]]; auto.
  - pose proof (memreg_top_le_base i j). lia.
  - pose proof (memreg_top_le_base j i). lia.
Qed.

Lemma va_offset_eq : GUEST_VA_OFFSET m = 2 ^ 39 - 2 ^ w.
Proof. geom G. unfold GUEST_VA_OFFSET, GUEST_MEM_ZONE_SIZE_VA. rewrite Hmax. reflexivity. Qed.

Lemma pow_w_bounds : 2 ^ 31 <= 2 ^ w <= 2 ^ 39.
Proof. geom G. split; apply Z.pow_le_mono_r; lia. Qed.

(** addresses of the bottom zone are their own physical address *)
Lemma gva_to_gpa_low gva :
  GUEST_MEM_START_VA - 1 <= gva < 2 ^ w -> gva_to_gpa m gva = Some gva.
Proof.
  intros Hr. pose proof pow_w_bounds. pose proof va_offset_eq as Ho. geom G.
  unfold gva_to_gpa, gva_to_gpa_nocheck, GUEST_MEM_ZONE_SIZE_VA. rewrite Ho, Hmax.
  destruct (Z.leb_spec (GUEST_MEM_START_VA - 1) gva), (Z.ltb_spec gva (2 ^ w)); try lia. cbn.
  destruct (Z.ltb_spec (2 ^ 39 - 2 ^ w) gva); [|done].
  assert (w = 39) as ->; [|f_equal; lia].
  destruct (Z.eq_dec w 39); [done|].
  assert (2 ^ w <= 2 ^ 38) by (apply Z.pow_le_mono_r; lia). lia.
Qed.

Lemma gva_to_gpa_high gva :
  2 ^ 39 - 2 ^ w < gva <= GUEST_MEM_TOP_VA -> gva_to_gpa m gva = Some (gva - (2 ^ 39 - 2 ^ w)).
Proof.
  intros Hr. pose proof pow_w_bounds. pose proof va_offset_eq as Ho. geom G.
  unfold gva_to_gpa, gva_to_gpa_nocheck. rewrite Ho.
  destruct (Z.leb_spec (2 ^ 39 - 2 ^ w) gva), (Z.leb_spec gva GUEST_MEM_TOP_VA); try lia.
  rewrite orb_true_r. destruct (Z.ltb_spec (2 ^ 39 - 2 ^ w) gva); [done|lia].
Qed.

Lemma gpa_to_upper_gva_eq gpa :
  GUEST_MEM_START_VA <= gpa < 2 ^ w -> gpa_to_upper_gva m gpa = Some (gpa + (2 ^ 39 - 2 ^ w)).
Proof.
  intros Hr. pose proof va_offset_eq as Ho. geom G. unfold gpa_to_upper_gva. rewrite Ho, Hmax.
  destruct (Z.leb_spec GUEST_MEM_START_VA gpa), (Z.ltb_spec gpa (2 ^ w)); try lia. done.
Qed.

End Geometry.

(** A machine with [2 ^ w] bytes of physical memory and empty tables, as an example: breaks
    and geometry are those km_mem_init sets (MemBrk.v, where the reachable machines start
    from km_mem_init itself). *)
Definition boot_machine (ty : vm_type_t) (w : Z) : machine :=
  let regs := list_to_map ((fun i => (i, kvm_mem_reg_zero)) <$> seqZ 0 KM_MEM_SLOTS) in
  let regs := <[KM_RSRV_MEMSLOT := mk_mem_reg 0 0 RSV_MEM_START RSV_MEM_SIZE RSV_MEM_START]> regs in
  mk_machine ty regs GUEST_MEM_START_VA GUEST_MEM_TOP_VA (2 ^ w) true (2 ^ (w - 1)) (w - 22)
    (2 * (w - 22) + 1) false (0, 0) 0 page_tables_0 [] [] false [].

Lemma boot_machine_geom ty w : 31 <= w <= 39 -> geom_ok (boot_machine ty w) w.
Proof. intros. unfold geom_ok. cbn. split_and!; lia. Qed.

(** ** Properties *)

(** Km_mem_init on a machine whose physical memory is a power of two
    between 2 GiB and 512 GiB establishes the geometry invariant, and the breaks
    start at the two ends of the guest address space. *)
Theorem km_mem_init_geometry_ok m w :
  31 <= w <= 39 -> m.(guest_max_physmem) = 2 ^ w ->
  exists m', km_mem_init_geometry m = Some m' /\ geom_ok m' w
             /\ m'.(brk) = GUEST_MEM_START_VA /\ m'.(tbrk) = GUEST_MEM_TOP_VA.
Proof.
  intros Hw Hmax. unfold km_mem_init_geometry. cbn. rewrite Hmax.
  rewrite Z.shiftr_div_pow2 by lia.
  replace (2 ^ w / 2 ^ 1) with (2 ^ (w - 1)) by (rewrite <- Z.pow_sub_r by lia; done).
  assert (2 ^ 30 <= 2 ^ (w - 1)) by (apply Z.pow_le_mono_r; lia).
  rewrite MEM_IDX_log2 by lia. cbn.
  eexists; split; [reflexivity|]. unfold geom_ok; cbn. rewrite Hmax.
  assert (Z.log2 (2 ^ (w - 1) - 1) = w - 2) as ->.
  { apply Z.log2_unique; [lia|]. replace (Z.succ (w - 2)) with (w - 1) by lia.
    split; [|lia]. replace (w - 1) with (Z.succ (w - 2)) by lia.
    pose proof (Z.pow_pos_nonneg 2 (w - 2)). rewrite Z.pow_succ_r; lia. }
  rewrite Z.shiftl_mul_pow2 by lia. split_and!; lia.
Qed.

(** The regions 1 .. last_mem_idx-1 tile the usable guest physical
    memory: they start at 2 MiB, each ends where the next begins, sizes are the
    differences of their bounds, and the last one ends 2 MiB below the top. *)
Theorem memreg_tiling m w :
  geom_ok m w ->
  memreg_base m 1 = GUEST_MEM_START_VA
  /\ (forall i, 1 <= i < m.(last_mem_idx) ->
       memreg_top m i = memreg_base m (i + 1)
       /\ memreg_size m i = memreg_top m i - memreg_base m i
       /\ 0 < memreg_size m i)
  /\ memreg_top m (m.(last_mem_idx) - 1) = m.(guest_max_physmem) - GUEST_MEM_START_VA.
Proof.
  intros G. pose proof G as (Hw&Hmax&Hmid&Hmidx&Hlast). rewrite Hlast. split_and!.
  - rewrite (memreg_base_low m w G) by lia. reflexivity.
  - intros i Hi. split_and!.
    + apply (memreg_adjacent m w G). lia.
    + apply (memreg_size_eq m w G). lia.
    + rewrite (memreg_size_eq m w G) by lia.
      pose proof (memreg_base_lt_top m w G i ltac:(lia)). lia.
  - rewrite (memreg_top_high m w G) by lia. rewrite Hmax. f_equal.
    replace (20 + _) with 21 by lia. reflexivity.
Qed.

(** Gva_to_memreg_idx is exact: for an address whose physical address is
    usable it returns the one region that holds it, and no other region holds it. *)
Theorem gva_to_memreg_idx_exact m w gva gpa :
  geom_ok m w -> gva_to_gpa m gva = Some gpa ->
  GUEST_MEM_START_VA <= gpa < m.(guest_max_physmem) - GUEST_MEM_START_VA ->
  exists i, gva_to_memreg_idx m gva = Some i /\ 1 <= i < m.(last_mem_idx)
    /\ memreg_base m i <= gpa < memreg_top m i
    /\ forall j, 1 <= j < m.(last_mem_idx) ->
         memreg_base m j <= gpa < memreg_top m j -> j = i.
Proof.
  intros G Hg Hr. pose proof G as (Hw&Hmax&Hmid&Hmidx&Hlast). rewrite Hmax in Hr.
  assert (GUEST_MEM_START_VA = 2 ^ 21) as HS by reflexivity. rewrite HS in Hr.
  destruct (gpa_index m w G gva gpa Hg ltac:(lia)) as (i & Hi & Hir & Hb).
  assert (i <> 0).
  { intros ->. rewrite (memreg_top_low m w G) in Hb by lia. cbn in Hb. lia. }
  assert (i <> 2 * (w - 22) + 1).
  { intros ->. rewrite (memreg_base_high m w G) in Hb by lia.
    replace (21 + _) with 21 in Hb by lia. lia. }
  rewrite Hlast.
  exists i. split_and!; try done; try lia.
  intros j Hj Hbj. apply (memreg_unique m w G j i gpa); auto; lia.
Qed.

(** Physical addresses survive the round trip through the top zone of
    guest virtual memory, and the two zones never overlap unless they coincide. *)
Theorem gpa_upper_gva_roundtrip m w gpa :
  geom_ok m w -> GUEST_MEM_START_VA <= gpa <= m.(guest_max_physmem) - GUEST_MEM_START_VA ->
  exists gva, gpa_to_upper_gva m gpa = Some gva /\ gva_to_gpa m gva = Some gpa
    /\ GUEST_VA_OFFSET m + GUEST_MEM_START_VA <= gva <= GUEST_MEM_TOP_VA.
Proof.
  intros G Hr. pose proof G as (Hw&Hmax&_). rewrite Hmax in Hr.
  assert (GUEST_MEM_START_VA = 2 ^ 21) as HS by reflexivity.
  assert (GUEST_MEM_TOP_VA = 2 ^ 39 - 2 ^ 21) as HT by reflexivity.
  rewrite (va_offset_eq m w G). eexists. split; [apply (gpa_to_upper_gva_eq m w G); lia|].
  rewrite (gva_to_gpa_high m w G) by lia. split; [f_equal|]; lia.
Qed.

(** Km_gva_to_kma accepts exactly the page-rounded bottom zone below brk
    and the page-rounded top zone above tbrk; it yields the physical address, and
    every address at or above GUEST_MEM_TOP_VA is refused. *)
Theorem km_gva_to_kma_spec m w gva :
  geom_ok m w -> m.(km_vvar_vdso_size) >= 0 -> 0 <= gva ->
  km_gva_to_kma m gva =
    if (GUEST_MEM_START_VA <=? gva) && (gva <? GUEST_MEM_TOP_VA)
       && ((gva <? roundup m.(brk) KM_PAGE_SIZE) || (rounddown m.(tbrk) KM_PAGE_SIZE <=? gva))
    then Some (gva_to_gpa_nocheck m gva) else None.
Proof.
  intros G Hv Hg. unfold km_gva_to_kma, km_gva_to_kma_nocheck, km_vdso_gva, km_guestmem_gva.
  assert (GUEST_MEM_TOP_VA < GUEST_VVAR_VDSO_BASE_VA) by reflexivity.
  assert (GUEST_MEM_TOP_VA < GUEST_KMGUESTMEM_BASE_VA) by reflexivity.
  destruct (Z.ltb_spec gva GUEST_MEM_START_VA), (Z.leb_spec GUEST_MEM_START_VA gva); try lia; [done|].
  destruct (Z.leb_spec GUEST_MEM_TOP_VA gva), (Z.ltb_spec gva GUEST_MEM_TOP_VA); try lia; [done|].
  destruct (Z.leb_spec GUEST_VVAR_VDSO_BASE_VA gva); [lia|].
  destruct (Z.leb_spec GUEST_KMGUESTMEM_BASE_VA gva); [lia|]. cbn.
  rewrite !andb_true_r.
  destruct (Z.leb_spec (roundup m.(brk) KM_PAGE_SIZE) gva), (Z.ltb_spec gva (roundup m.(brk) KM_PAGE_SIZE)); try lia;
  destruct (Z.ltb_spec gva (rounddown m.(tbrk) KM_PAGE_SIZE)), (Z.leb_spec (rounddown m.(tbrk) KM_PAGE_SIZE) gva); try lia; done.
Qed.

(** ** The hypotheses hold *)
Lemma km_mem_init_geometry_ok_witness : exists m',
  km_mem_init_geometry (boot_machine VM_TYPE_KVM 32) = Some m' /\ geom_ok m' 32
  /\ m'.(brk) = GUEST_MEM_START_VA /\ m'.(tbrk) = GUEST_MEM_TOP_VA.
Proof. apply (km_mem_init_geometry_ok (boot_machine VM_TYPE_KVM 32) 32); [lia|reflexivity]. Defined.

Lemma memreg_tiling_witness : memreg_base (boot_machine VM_TYPE_KVM 32) 1 = GUEST_MEM_START_VA.
Proof. apply (memreg_tiling (boot_machine VM_TYPE_KVM 32) 32). by apply boot_machine_geom. Defined.

Lemma gva_to_memreg_idx_exact_witness : exists i,
  gva_to_memreg_idx (boot_machine VM_TYPE_KVM 32) (5 * MIB) = Some i
  /\ memreg_base (boot_machine VM_TYPE_KVM 32) i <= 5 * MIB < memreg_top (boot_machine VM_TYPE_KVM 32) i.
Proof.
  destruct (gva_to_memreg_idx_exact (boot_machine VM_TYPE_KVM 32) 32 (5 * MIB) (5 * MIB)) as (i & H1 & _ & H2 & _).
  - by apply boot_machine_geom.
  - reflexivity.
  - vm_compute. split; [discriminate|reflexivity].
  - by exists i.
Defined.

Lemma gpa_upper_gva_roundtrip_witness : exists gva,
  gpa_to_upper_gva (boot_machine VM_TYPE_KVM 32) (3 * GIB) = Some gva
  /\ gva_to_gpa (boot_machine VM_TYPE_KVM 32) gva = Some (3 * GIB).
Proof.
  destruct (gpa_upper_gva_roundtrip (boot_machine VM_TYPE_KVM 32) 32 (3 * GIB)) as (gva & H1 & H2 & _).
  - by apply boot_machine_geom.
  - vm_compute. split; discriminate.
  - by exists gva.
Defined.

Lemma km_gva_to_kma_spec_witness : km_gva_to_kma (boot_machine VM_TYPE_KVM 32) (4 * MIB) = None.
Proof.
  rewrite (km_gva_to_kma_spec (boot_machine VM_TYPE_KVM 32) 32 (4 * MIB));
    [reflexivity|by apply boot_machine_geom|discriminate|discriminate].
Defined.
