(* ===== verification/TopBreak.v ===== *)
(** * What guest memory promises to the mmap layer

    km_mmap.c takes fresh address space from km_mem.c and gives it back only
    through [km_mem_tbrk].  [TopBreak] is that interface: the operation, an
    invariant of the memory component and the laws its client may use.  The mmap
    component is modelled and proved against it; MemBrk.v provides the instance. *)
From S2P Require Import Prelude Machine MemGeom.

(** The fields of the machine that a move of the top break leaves alone. *)
Record tb_frame (m s : machine) : Prop := {
  fr_free : s.(mmaps_free) = m.(mmaps_free);
  fr_busy : s.(mmaps_busy) = m.(mmaps_busy);
  fr_recovery : s.(recovery_mode) = m.(recovery_mode);
  fr_brk : s.(brk) = m.(brk);
  fr_max : s.(guest_max_physmem) = m.(guest_max_physmem);
}.

Lemma tb_frame_refl m : tb_frame m m.
Proof. by split. Qed.

Lemma tb_frame_trans m1 m2 m3 : tb_frame m1 m2 -> tb_frame m2 m3 -> tb_frame m1 m3.
Proof. intros [] []. split; congruence. Qed.

Class TopBreak `{Host} := {
  km_mem_tbrk_op : Z -> M machine Z;
  tb_inv : machine -> Prop;
  (** when the host may force the monitor to exit *)
  tb_exit : Prop;
  tb_query : forall m, km_mem_tbrk_op 0 m = Ret (m.(tbrk), m);
  tb_move : forall m t,
    tb_inv m -> t <> 0 -> t <> GUEST_VA_OFFSET m ->
    wp tb_exit (km_mem_tbrk_op t)
      (fun r s => tb_inv s /\ tb_frame m s
         /\ (r = t /\ s.(tbrk) = t \/ r = neg_errno ENOMEM /\ s.(tbrk) = m.(tbrk)
                /\ ~ (m.(tbrk) <= t <= GUEST_MEM_TOP_VA))) m;
  tb_bounds : forall m, tb_inv m ->
    GUEST_VA_OFFSET m + GUEST_MEM_START_VA <= m.(tbrk) <= GUEST_MEM_TOP_VA /\ 0 <= GUEST_VA_OFFSET m;
  tb_inv_free : forall m l, tb_inv m -> tb_inv (set_mmaps_free l m);
  tb_inv_busy : forall m l, tb_inv m -> tb_inv (set_mmaps_busy l m);
  tb_inv_trace : forall m l, tb_inv m -> tb_inv (set_trace l m);
}.
