(* ===== verification/PageTable.v ===== *)
(** * Guest page tables (km_mem.c)

    The reserved area holds one PML4 table, page directory pointer tables, page
    directories and one page table.  Words are 64 bit integers and the bit fields
    of x86_cpu.h are explicit; a directory that the code casts between entry types
    is the same word read with another layout.  [mmu_walk] is the translation the
    processor performs on these tables (Intel SDM vol. 3, 4.5), the reference the
    table updates are judged against. *)
From S2P Require Import Prelude Machine MemGeom.

(** ** Slots *)
Definition PT_ENTRIES : Z := 512.
Definition PML4E_REGION : Z := 512 * GIB.
Definition PDPTE_REGION : Z := GIB.
Definition PDE_REGION : Z := 2 * MIB.

Definition PTE_SLOT (addr : Z) : Z := Z.land (Z.shiftr addr 12) 0x1ff.
Definition PDE_SLOT (addr : Z) : Z := Z.land (Z.shiftr addr 21) 0x1ff.
Definition PDPTE_SLOT (addr : Z) : Z := Z.shiftr (Z.land addr 0x7fffffffff) 30.
Definition MAX_PDE_SLOT : Z := PDE_SLOT GUEST_MEM_TOP_VA.
Definition MAX_PDPTE_SLOT : Z := PDPTE_SLOT GUEST_MEM_TOP_VA.

(** ** Entries *)
Definition ent (t : gmap Z Z) (i : Z) : Z := default 0 (t !! i).
Definition f_p (e : Z) : Z := bf_get 0 1 e.
Definition f_rw (e : Z) : Z := bf_get 1 1 e.
Definition f_us (e : Z) : Z := bf_get 2 1 e.
Definition f_ps (e : Z) : Z := bf_get 7 1 e.
Definition set_p (v e : Z) : Z := bf_set 0 1 v e.
Definition set_rw (v e : Z) : Z := bf_set 1 1 v e.
Definition set_us (v e : Z) : Z := bf_set 2 1 v e.
Definition set_ps (v e : Z) : Z := bf_set 7 1 v e.
Definition set_glb (v e : Z) : Z := bf_set 8 1 v e.

Definition pml4e_set (pdpt e : Z) : Z :=
  bf_set 12 40 (Z.shiftr pdpt 12) (set_us 1 (set_rw 1 (set_p 1 e))).
Definition pdpte_set (pd e : Z) : Z :=
  bf_set 12 40 (Z.shiftr pd 12) (set_us 1 (set_rw 1 (set_p 1 e))).
Definition pdpte_1g_set (addr e : Z) : Z :=
  bf_set 30 22 (Z.shiftr addr 30) (set_glb 1 (set_ps 1 (set_us 1 (set_rw 1 e)))).
Definition pde_2mb_set (addr e : Z) : Z :=
  bf_set 21 31 (Z.shiftr addr 21) (set_glb 1 (set_ps 1 (set_us 1 (set_rw 1 e)))).
Definition pde_4k_set (addr e : Z) : Z :=
  bf_set 12 40 (Z.shiftr addr 12) (set_us 1 (set_rw 1 (set_p 1 e))).
Definition pte_set (addr e : Z) : Z :=
  bf_set 12 40 (Z.shiftr addr 12) (set_us 1 (set_rw 1 (set_p 1 e))).

Definition upd (f : Z -> Z) (i : Z) (t : gmap Z Z) : gmap Z Z := <[i := f (ent t i)]> t.

(** [for (i = lo; i <= hi; i++) t[i] = f(t[i])] *)
Definition upd_range (f : Z -> Z) (lo hi : Z) (t : gmap Z Z) : gmap Z Z :=
  foldl (fun t i => upd f i t) t (seqZ lo (hi - lo + 1)).

Definition with_pml4 (t : gmap Z Z) (p : page_tables) :=
  mk_page_tables t p.(pdpt0) p.(pdpt1) p.(pdpt2) p.(pd0) p.(pd1) p.(pd2) p.(pt1).
Definition with_pdpt0 (t : gmap Z Z) (p : page_tables) :=
  mk_page_tables p.(pml4) t p.(pdpt1) p.(pdpt2) p.(pd0) p.(pd1) p.(pd2) p.(pt1).
Definition with_pdpt1 (t : gmap Z Z) (p : page_tables) :=
  mk_page_tables p.(pml4) p.(pdpt0) t p.(pdpt2) p.(pd0) p.(pd1) p.(pd2) p.(pt1).
Definition with_pd0 (t : gmap Z Z) (p : page_tables) :=
  mk_page_tables p.(pml4) p.(pdpt0) p.(pdpt1) p.(pdpt2) t p.(pd1) p.(pd2) p.(pt1).
Definition with_pd1 (t : gmap Z Z) (p : page_tables) :=
  mk_page_tables p.(pml4) p.(pdpt0) p.(pdpt1) p.(pdpt2) p.(pd0) t p.(pd2) p.(pt1).
Definition with_pd2 (t : gmap Z Z) (p : page_tables) :=
  mk_page_tables p.(pml4) p.(pdpt0) p.(pdpt1) p.(pdpt2) p.(pd0) p.(pd1) t p.(pt1).
Definition with_pt1 (t : gmap Z Z) (p : page_tables) :=
  mk_page_tables p.(pml4) p.(pdpt0) p.(pdpt1) p.(pdpt2) p.(pd0) p.(pd1) p.(pd2) t.

(** Guest physical addresses of the tables: page_tables_t at RSV_MEM_START. *)
Definition pa_pml4 : Z := RSV_MEM_START.
Definition pa_pdpt0 : Z := RSV_MEM_START + 1 * KM_PAGE_SIZE.
Definition pa_pdpt1 : Z := RSV_MEM_START + 2 * KM_PAGE_SIZE.
Definition pa_pdpt2 : Z := RSV_MEM_START + 3 * KM_PAGE_SIZE.
Definition pa_pd0 : Z := RSV_MEM_START + 4 * KM_PAGE_SIZE.
Definition pa_pd1 : Z := RSV_MEM_START + 5 * KM_PAGE_SIZE.
Definition pa_pd2 : Z := RSV_MEM_START + 6 * KM_PAGE_SIZE.
Definition pa_pt1 : Z := RSV_MEM_START + 7 * KM_PAGE_SIZE.

(** ** init_pml4 (build without KM_HIGH_GVA) *)

Definition init_pml4 (m : machine) : option page_tables :=
  if (m.(guest_max_physmem) <=? PML4E_REGION) && (GUEST_VA_OFFSET m mod PDPTE_REGION =? 0) then
    let p := page_tables_0 in
    let p := with_pml4 (upd (pml4e_set pa_pdpt0) 0 p.(pml4)) p in
    let p := with_pdpt0 (upd (pdpte_set pa_pd0) 0 p.(pdpt0)) p in
    let p := with_pml4 (upd (pml4e_set pa_pdpt1) (GUEST_PRIVATE_MEM_START_VA / PML4E_REGION) p.(pml4)) p in
    let p := with_pdpt1 (upd (pdpte_set pa_pd1) 0 p.(pdpt1)) p in
    let p := with_pd1 (upd (pde_4k_set pa_pt1) (PDE_SLOT GUEST_VVAR_VDSO_BASE_VA) p.(pd1)) p in
    Some (with_pdpt0 (upd (pdpte_set pa_pd2) (PDE_SLOT GUEST_MEM_TOP_VA) p.(pdpt0)) p)
  else None.

(** ** Present bits follow the breaks *)
Definition fixup_bottom_page_tables (old_brk new_brk : Z) (p : page_tables) : page_tables :=
  let old_2m_slot := Z.max 1 (PDE_SLOT (old_brk - 1)) in
  let new_2m_slot := Z.max 1 (PDE_SLOT (new_brk - 1)) in
  let old_1g_slot := PDPTE_SLOT (old_brk - 1) in
  let new_1g_slot := PDPTE_SLOT (new_brk - 1) in
  if old_brk <? new_brk then
    let p := if old_1g_slot =? 0 then
               let limit := if new_1g_slot =? 0 then new_2m_slot else MAX_PDE_SLOT in
               with_pd0 (upd_range (set_p 1) old_2m_slot limit p.(pd0)) p
             else p in
    if 0 <? new_1g_slot then
      let start := if old_1g_slot =? 0 then 1 else old_1g_slot in
      with_pdpt0 (upd_range (set_p 1) start new_1g_slot p.(pdpt0)) p
    else p
  else
    let p := if 0 <? old_1g_slot
             then with_pdpt0 (upd_range (set_p 0) (new_1g_slot + 1) old_1g_slot p.(pdpt0)) p
             else p in
    if new_1g_slot =? 0 then
      let limit := if old_1g_slot =? 0 then old_2m_slot else MAX_PDE_SLOT in
      with_pd0 (upd_range (set_p 0) (new_2m_slot + 1) limit p.(pd0)) p
    else p.

Definition fixup_top_page_tables (old_brk new_brk : Z) (p : page_tables) : page_tables :=
  let old_2m_slot := PDE_SLOT old_brk in
  let new_2m_slot := PDE_SLOT new_brk in
  let old_1g_slot := PDPTE_SLOT old_brk in
  let new_1g_slot := PDPTE_SLOT new_brk in
  if new_brk <? old_brk then
    let p := if old_1g_slot =? MAX_PDPTE_SLOT then
               let start := if new_1g_slot =? MAX_PDPTE_SLOT then new_2m_slot else 0 in
               with_pd2 (upd_range (set_p 1) start old_2m_slot p.(pd2)) p
             else p in
    if new_1g_slot <? MAX_PDPTE_SLOT
    then with_pdpt0 (upd_range (set_p 1) new_1g_slot old_1g_slot p.(pdpt0)) p
    else p
  else
    let p := if old_1g_slot <? MAX_PDPTE_SLOT
             then with_pdpt0 (upd_range (set_p 0) old_1g_slot (new_1g_slot - 1) p.(pdpt0)) p
             else p in
    if new_1g_slot =? MAX_PDPTE_SLOT then
      let start := if old_1g_slot =? MAX_PDPTE_SLOT then 0 else old_2m_slot in
      with_pd2 (upd_range (set_p 0) start (new_2m_slot - 1) p.(pd2)) p
    else p.

(** ** Frames follow the memory regions *)

(** The addresses [a], [a + step], ... below [a + size] that the loops visit. *)
Definition steps (a size step : Z) : list Z :=
  (fun k => a + k * step) <$> seqZ 0 ((size + step - 1) / step).

Definition set_pml4_hierarchy (m : machine) (reg : kvm_mem_reg) (upper_va : bool)
    (p : page_tables) : option page_tables :=
  let sz := reg.(memory_size) in
  let base := reg.(guest_phys_addr) in
  if sz <? PDPTE_REGION then
    let fill t := foldl (fun t addr => upd (pde_2mb_set addr) (PDE_SLOT addr) t) t
                    (steps base sz PDE_REGION) in
    Some (if upper_va then with_pd2 (fill p.(pd2)) p else with_pd0 (fill p.(pd0)) p)
  else if m.(pdpe1g) then
    gva ← (if upper_va then gpa_to_upper_gva m base else Some base);
    Some (with_pdpt0
      (foldl (fun t addr => upd (pdpte_1g_set (base + (addr - gva))) (PDPTE_SLOT addr) t) p.(pdpt0)
         (steps gva sz PDPTE_REGION)) p)
  else None.

Definition clear_pml4_hierarchy (m : machine) (reg : kvm_mem_reg) (upper_va : bool)
    (p : page_tables) : option page_tables :=
  let sz := reg.(memory_size) in
  let base := reg.(guest_phys_addr) in
  if sz <? PDPTE_REGION then
    let wipe t := foldl (fun t addr => upd (fun _ => 0) (PDE_SLOT addr) t) t
                    (steps base sz PDE_REGION) in
    Some (if upper_va then with_pd2 (wipe p.(pd2)) p else with_pd0 (wipe p.(pd0)) p)
  else if m.(pdpe1g) then
    gva ← (if upper_va then gpa_to_upper_gva m base else Some base);
    Some (with_pdpt0
      (foldl (fun t addr => upd (fun _ => 0) (PDPTE_SLOT addr) t) p.(pdpt0)
         (steps gva sz PDPTE_REGION)) p)
  else None.

(** ** The processor's walk *)
Definition table_at (p : page_tables) (pa : Z) : option (gmap Z Z) :=
  if pa =? pa_pdpt0 then Some p.(pdpt0) else if pa =? pa_pdpt1 then Some p.(pdpt1)
  else if pa =? pa_pdpt2 then Some p.(pdpt2) else if pa =? pa_pd0 then Some p.(pd0)
  else if pa =? pa_pd1 then Some p.(pd1) else if pa =? pa_pd2 then Some p.(pd2)
  else if pa =? pa_pt1 then Some p.(pt1) else None.

Definition next_table (p : page_tables) (e : Z) : option (gmap Z Z) :=
  if f_p e =? 1 then table_at p (bf_get 12 40 e * 2 ^ 12) else None.

Definition mmu_walk (p : page_tables) (gva : Z) : option Z :=
  t3 ← next_table p (ent p.(pml4) (bf_get 39 9 gva));
  let e3 := ent t3 (bf_get 30 9 gva) in
  if f_p e3 =? 0 then None
  else if f_ps e3 =? 1 then Some (bf_get 30 22 e3 * 2 ^ 30 + gva mod 2 ^ 30)
  else t2 ← next_table p e3;
       let e2 := ent t2 (bf_get 21 9 gva) in
       if f_p e2 =? 0 then None
       else if f_ps e2 =? 1 then Some (bf_get 21 31 e2 * 2 ^ 21 + gva mod 2 ^ 21)
       else t1 ← next_table p e2;
            let e1 := ent t1 (bf_get 12 9 gva) in
            if f_p e1 =? 0 then None
            else Some (bf_get 12 40 e1 * 2 ^ 12 + gva mod 2 ^ 12).

(** ** Lemmas *)
Create HintDb pt.

Lemma ent_upd f i j t : ent (upd f i t) j = if decide (i = j) then f (ent t i) else ent t j.
Proof.
  unfold ent, upd. rewrite lookup_insert. by case_decide.
Qed.

Lemma ent_foldl_upd {A} (F : A -> Z -> Z) (sl : A -> Z) (l : list A) t i :
  NoDup (sl <$> l) ->
  (forall a, a ∈ l -> sl a = i ->
     ent (foldl (fun t a => upd (F a) (sl a) t) t l) i = F a (ent t i))
  /\ (i ∉ sl <$> l -> ent (foldl (fun t a => upd (F a) (sl a) t) t l) i = ent t i).
Proof.
  revert t. induction l as [|b l IH]; intros t Hnd; cbn.
  - split; [intros a Ha; inversion Ha|done].
  - apply NoDup_cons in Hnd as [Hb Hnd]. destruct (IH (upd (F b) (sl b) t) Hnd) as [IH1 IH2].
    split.
    + intros a Ha Hi. apply elem_of_cons in Ha as [->|Ha].
      * rewrite IH2 by (by rewrite <- Hi). rewrite ent_upd. by rewrite decide_True, Hi.
      * rewrite (IH1 a Ha Hi), ent_upd. rewrite decide_False; [done|].
        intros He. apply Hb. rewrite He, <- Hi. by apply list_elem_of_fmap_2.
    + intros Hi. apply not_elem_of_cons in Hi as [Hn Hi].
      rewrite (IH2 Hi), ent_upd. rewrite decide_False; [done|congruence].
Qed.

Lemma ent_upd_range f lo hi t i :
  ent (upd_range f lo hi t) i = if (lo <=? i) && (i <=? hi) then f (ent t i) else ent t i.
Proof.
  unfold upd_range.
  destruct (ent_foldl_upd (fun _ => f) id (seqZ lo (hi - lo + 1)) t i) as [H1 H2].
  { rewrite list_fmap_id. apply NoDup_seqZ. }
  destruct (Z.leb_spec lo i), (Z.leb_spec i hi); cbn;
    try (apply (H1 i); [apply elem_of_seqZ; lia|done]);
    apply H2; rewrite list_fmap_id, elem_of_seqZ; lia.
Qed.

Lemma PDE_SLOT_div a : 0 <= a -> PDE_SLOT a = a / 2 ^ 21 mod 512.
Proof.
  intros. unfold PDE_SLOT. rewrite Z.shiftr_div_pow2 by lia.
  change 0x1ff with (Z.ones 9). by rewrite Z.land_ones by lia.
Qed.

Lemma PDPTE_SLOT_div a : 0 <= a < 2 ^ 39 -> PDPTE_SLOT a = a / 2 ^ 30.
Proof.
  intros. unfold PDPTE_SLOT. change 0x7fffffffff with (Z.ones 39).
  rewrite Z.land_ones by lia. rewrite Z.shiftr_div_pow2 by lia. by rewrite Z.mod_small by lia.
Qed.

Lemma f_p_set_p v e : 0 <= v < 2 -> f_p (set_p v e) = v.
Proof. intros. apply bf_get_set_same; lia. Qed.

Lemma f_p_cases e : f_p e = 0 \/ f_p e = 1.
Proof. pose proof (bf_get_range 0 1 e). unfold f_p. lia. Qed.

(** ** What the present bits must say *)

(** Bottom zone: the 2 MiB slots of the first GiB and the 1 GiB slots below the
    top zone are present exactly when they hold an address below [b]. *)
Definition bottom_present (p : page_tables) (lim b : Z) : Prop :=
  (forall i, 1 <= i <= 511 -> f_p (ent p.(pd0) i) = if i * 2 ^ 21 <? b then 1 else 0)
  /\ (forall j, 1 <= j < lim -> f_p (ent p.(pdpt0) j) = if j * 2 ^ 30 <? b then 1 else 0).

(** Top zone: the 2 MiB slots of the last GiB and the 1 GiB slots above the
    bottom zone are present exactly when they hold an address at or above [b]. *)
Definition top_present (p : page_tables) (lim b : Z) : Prop :=
  (forall i, 0 <= i <= 510 ->
     f_p (ent p.(pd2) i) = if b <? 511 * 2 ^ 30 + (i + 1) * 2 ^ 21 then 1 else 0)
  /\ (forall j, lim <= j <= 510 -> f_p (ent p.(pdpt0) j) = if b <? (j + 1) * 2 ^ 30 then 1 else 0).

Ltac zb :=
  repeat match goal with
  | |- context [Z.leb ?a ?b] => destruct (Z.leb_spec a b)
  | |- context [Z.ltb ?a ?b] => destruct (Z.ltb_spec a b)
  | |- context [Z.eqb ?a ?b] => destruct (Z.eqb_spec a b)
  end; cbn.

(** What fixup_bottom_page_tables does to the present bit [bit] of the entry for
    [x .. x + s]: set from the page of the old break up to the new one, cleared from
    the new break up to the old one. *)
Definition fixed_bit (s old new x bit : Z) : Z :=
  if old <? new then if (x <? new) && (old <=? x + s) then 1 else bit
  else if (new <=? x) && (x <? old) then 0 else bit.

Lemma fixup_bottom_bits p lim old new :
  GUEST_MEM_START_VA <= old -> GUEST_MEM_START_VA <= new ->
  old <= lim * 2 ^ 30 -> new <= lim * 2 ^ 30 -> lim <= 511 ->
  let p' := fixup_bottom_page_tables old new p in
  (forall i, 1 <= i <= 511 -> f_p (ent p'.(pd0) i)
     = if (i =? 1) && (new =? GUEST_MEM_START_VA) then f_p (ent p.(pd0) 1)
       else fixed_bit (2 ^ 21) old new (i * 2 ^ 21) (f_p (ent p.(pd0) i)))
  /\ (forall j, 1 <= j < lim -> f_p (ent p'.(pdpt0) j)
     = fixed_bit (2 ^ 30) old new (j * 2 ^ 30) (f_p (ent p.(pdpt0) j))).
Proof.
  intros Ho Hn Hol Hnl Hlim. change GUEST_MEM_START_VA with (2 ^ 21) in *.
  assert (He : forall x, 2 ^ 21 <= x <= lim * 2 ^ 30 ->
     PDPTE_SLOT (x - 1) = (x - 1) / 2 ^ 30 /\ PDE_SLOT (x - 1) = (x - 1) / 2 ^ 21 mod 512).
  { intros x Hx. rewrite PDPTE_SLOT_div, PDE_SLOT_div by lia. done. }
  destruct (He old ltac:(lia)) as [Ho1 Ho2]. destruct (He new ltac:(lia)) as [Hn1 Hn2].
  unfold fixup_bottom_page_tables, fixed_bit. rewrite Ho1, Ho2, Hn1, Hn2.
  change MAX_PDE_SLOT with 511. clear He Ho1 Ho2 Hn1 Hn2.
  split.
  - intros i Hi. destruct (Z.eqb_spec i 1) as [->|]; cbn [andb];
      zb; rewrite ?ent_upd_range; zb; rewrite ?f_p_set_p by lia; try done; try dlia.
  - intros j Hj.
    zb; rewrite ?ent_upd_range; zb; rewrite ?f_p_set_p by lia; try done; try dlia.
Qed.

(** C10. fixup_bottom_page_tables carries the present bits of the bottom zone from
    the old break to the new one, growing and shrinking, for all breaks from 2 MiB
    to the limit of the zone, which is below the last GiB: afterwards every 2 MiB
    slot of the first GiB and every 1 GiB slot behind it is present exactly when it
    holds an address below the new break.  One bit is not carried: with the new
    break at exactly 2 MiB slot 1 keeps the bit it had, since the slots start at
    MAX(1, ...). *)
Theorem fixup_bottom_exact p lim old new :
  GUEST_MEM_START_VA <= old -> GUEST_MEM_START_VA <= new ->
  old <= lim * 2 ^ 30 -> new <= lim * 2 ^ 30 -> lim <= 511 ->
  bottom_present p lim old ->
  let p' := fixup_bottom_page_tables old new p in
  if new =? GUEST_MEM_START_VA then
    f_p (ent p'.(pd0) 1) = f_p (ent p.(pd0) 1)
    /\ (forall i, 2 <= i <= 511 -> f_p (ent p'.(pd0) i) = 0)
    /\ (forall j, 1 <= j < lim -> f_p (ent p'.(pdpt0) j) = 0)
  else bottom_present p' lim new.
Proof.
  intros Ho Hn Hol Hnl Hlim [Hd Hg] p'.
  destruct (fixup_bottom_bits p lim old new Ho Hn Hol Hnl Hlim) as [Bd Bg]. fold p' in Bd, Bg.
  unfold fixed_bit in *. change GUEST_MEM_START_VA with (2 ^ 21) in *.
  destruct (Z.eqb_spec new (2 ^ 21)) as [En|Hne]; split_and!.
  - by rewrite (Bd 1) by lia.
  - intros i Hi. rewrite Bd, (Hd i) by lia. zb; try done; lia.
  - intros j Hj. rewrite Bg, Hg by lia. zb; try done; lia.
  - intros i Hi. rewrite Bd, (Hd i) by lia. rewrite andb_false_r. zb; try done; lia.
  - intros j Hj. rewrite Bg, Hg by lia. zb; try done; lia.
Qed.

(** The excluded bit: shrinking from 6 MiB to 2 MiB leaves slot 1 present. The
    region that holds it is unplugged before, so that the slot is empty when
    km_mem_brk calls the function. *)
Theorem fixup_bottom_keeps_slot_1 :
  let p := fixup_bottom_page_tables GUEST_MEM_START_VA (6 * MIB) page_tables_0 in
  f_p (ent (fixup_bottom_page_tables (6 * MIB) GUEST_MEM_START_VA p).(pd0) 1) = 1.
Proof. vm_compute. reflexivity. Qed.

Lemma fixup_top_carries p lim old new :
  0 <= lim -> lim * 2 ^ 30 <= old <= GUEST_MEM_TOP_VA -> lim * 2 ^ 30 <= new <= GUEST_MEM_TOP_VA ->
  (new < old \/ 511 * 2 ^ 30 <= old \/ new < 511 * 2 ^ 30) ->
  top_present p lim old ->
  top_present (fixup_top_page_tables old new p) lim new.
Proof.
  intros Hl Ho Hn Hcase [Hd Hg]. change GUEST_MEM_TOP_VA with (511 * 2 ^ 30 + 511 * 2 ^ 21) in *.
  assert (He : forall x, lim * 2 ^ 30 <= x <= 511 * 2 ^ 30 + 511 * 2 ^ 21 ->
     PDPTE_SLOT x = x / 2 ^ 30 /\ PDE_SLOT x = x / 2 ^ 21 mod 512).
  { intros x Hx. rewrite PDPTE_SLOT_div, PDE_SLOT_div by lia. done. }
  destruct (He old Ho) as [Ho1 Ho2]. destruct (He new Hn) as [Hn1 Hn2].
  unfold fixup_top_page_tables. rewrite Ho1, Ho2, Hn1, Hn2.
  change MAX_PDPTE_SLOT with 511. clear He.
  split.
  - intros i Hi. specialize (Hd i Hi). clear Hg.
    zb; rewrite ?ent_upd_range; zb; rewrite ?f_p_set_p by lia; try done; try lia;
      rewrite ?Hd; zb; try done; try dlia.
  - intros j Hj. specialize (Hg j Hj). clear Hd.
    zb; rewrite ?ent_upd_range; zb; rewrite ?f_p_set_p by lia; try done; try lia;
      rewrite ?Hg; zb; try done; try dlia.
Qed.

(** Fixup_top_page_tables carries the top present bits exactly from the old
    break to the new one when memory grows, and when it shrinks with the old break
    already in the last GiB or the new one still below it. *)
Theorem fixup_top_exact p lim old new :
  0 <= lim -> lim * 2 ^ 30 <= old <= GUEST_MEM_TOP_VA -> lim * 2 ^ 30 <= new <= GUEST_MEM_TOP_VA ->
  (new < old \/ 511 * 2 ^ 30 <= old \/ new < 511 * 2 ^ 30) ->
  top_present p lim old ->
  top_present (fixup_top_page_tables old new p) lim new.
Proof. apply fixup_top_carries. Qed.

(** The excluded case: the top break moves up from below the last GiB into it. *)
Definition stale_old : Z := 510 * 2 ^ 30 + 400 * 2 ^ 21.
Definition stale_new : Z := 511 * 2 ^ 30 + 300 * 2 ^ 21.
Definition stale_tables : page_tables :=
  fixup_top_page_tables GUEST_MEM_TOP_VA stale_old page_tables_0.

(** When the top break moves up from below the last GiB into it, 2 MiB
    slots below the new break keep their present bit: the shrink loop starts at
    the old break's slot number instead of 0. *)
Theorem fixup_top_shrink_stale :
  top_present stale_tables 510 stale_old
  /\ f_p (ent (fixup_top_page_tables stale_old stale_new stale_tables).(pd2) 299) = 1
  /\ ~ top_present (fixup_top_page_tables stale_old stale_new stale_tables) 510 stale_new.
Proof.
  assert (H299 : f_p (ent (fixup_top_page_tables stale_old stale_new stale_tables).(pd2) 299) = 1)
    by (vm_compute; reflexivity).
  split_and!.
  - apply (fixup_top_carries page_tables_0 510 GUEST_MEM_TOP_VA stale_old);
      try (unfold GUEST_MEM_TOP_VA, GUEST_MEM_START_VA, GIB, MIB, stale_old; lia).
    change GUEST_MEM_TOP_VA with (511 * 2 ^ 30 + 511 * 2 ^ 21).
    split; intros k Hk; change (ent _ k) with 0; change (f_p 0) with 0; zb; lia.
  - exact H299.
  - intros [Hd _]. specialize (Hd 299 ltac:(lia)). rewrite H299 in Hd. discriminate.
Qed.

(** ** Frames *)

(** A large-page entry that maps the frame at [addr], whatever its present bit. *)
Definition maps_2m (e addr : Z) : Prop :=
  f_ps e = 1 /\ f_rw e = 1 /\ f_us e = 1 /\ bf_get 21 31 e = addr / 2 ^ 21.
Definition maps_1g (e addr : Z) : Prop :=
  f_ps e = 1 /\ f_rw e = 1 /\ f_us e = 1 /\ bf_get 30 22 e = addr / 2 ^ 30.

Ltac bf_simpl :=
  repeat first [rewrite bf_get_set_same by lia | rewrite bf_get_set_other by lia].

Lemma pde_2mb_set_maps addr e :
  0 <= addr < 2 ^ 52 -> maps_2m (pde_2mb_set addr e) addr /\ f_p (pde_2mb_set addr e) = f_p e.
Proof.
  intros Ha. unfold maps_2m, pde_2mb_set, f_ps, f_rw, f_us, f_p, set_glb, set_ps, set_us, set_rw.
  assert (0 <= Z.shiftr addr 21 < 2 ^ 31) by (rewrite Z.shiftr_div_pow2 by lia; dlia).
  split_and!; bf_simpl; try done. by rewrite Z.shiftr_div_pow2 by lia.
Qed.

Lemma pdpte_1g_set_maps addr e :
  0 <= addr < 2 ^ 52 -> maps_1g (pdpte_1g_set addr e) addr /\ f_p (pdpte_1g_set addr e) = f_p e.
Proof.
  intros Ha. unfold maps_1g, pdpte_1g_set, f_ps, f_rw, f_us, f_p, set_glb, set_ps, set_us, set_rw.
  assert (0 <= Z.shiftr addr 30 < 2 ^ 22) by (rewrite Z.shiftr_div_pow2 by lia; dlia).
  split_and!; bf_simpl; try done. by rewrite Z.shiftr_div_pow2 by lia.
Qed.

Lemma set_p_maps_2m v e addr : maps_2m (set_p v e) addr <-> maps_2m e addr.
Proof.
  unfold maps_2m, f_ps, f_rw, f_us, set_p. by rewrite !bf_get_set_other by lia.
Qed.

Lemma set_p_maps_1g v e addr : maps_1g (set_p v e) addr <-> maps_1g e addr.
Proof.
  unfold maps_1g, f_ps, f_rw, f_us, set_p. by rewrite !bf_get_set_other by lia.
Qed.

Lemma elem_of_steps a sz st x :
  0 < st -> 0 <= sz -> sz mod st = 0 ->
  x ∈ steps a sz st <-> exists k, 0 <= k < sz / st /\ x = a + k * st.
Proof.
  intros Hst Hsz Hm. unfold steps. rewrite list_elem_of_fmap.
  assert ((sz + st - 1) / st = sz / st) as ->.
  { symmetry. apply Z.div_unique with (st - 1); [lia|].
    pose proof (Z.div_mod sz st). lia. }
  setoid_rewrite elem_of_seqZ. split.
  - intros (k & -> & Hk). exists k. split; [lia|done].
  - intros (k & Hk & ->). exists k. split; [done|lia].
Qed.

Lemma steps_slots_nodup a sz st (sl : Z -> Z) :
  0 < st -> 0 <= sz ->
  (forall k k', 0 <= k < (sz + st - 1) / st -> 0 <= k' < (sz + st - 1) / st ->
     sl (a + k * st) = sl (a + k' * st) -> k = k') ->
  NoDup (sl <$> steps a sz st).
Proof.
  intros Hst Hsz Hinj. unfold steps. rewrite <- list_fmap_compose.
  apply NoDup_fmap_2_strong; [|apply NoDup_seqZ].
  intros k k' Hk Hk'. rewrite elem_of_seqZ in Hk, Hk'. cbn. apply Hinj; lia.
Qed.

Lemma PDE_REGION_eq : PDE_REGION = 2 ^ 21.
Proof. reflexivity. Qed.
Lemma PDPTE_REGION_eq : PDPTE_REGION = 2 ^ 30.
Proof. reflexivity. Qed.

Definition fill_2m (b s : Z) (t : gmap Z Z) : gmap Z Z :=
  foldl (fun t addr => upd (pde_2mb_set addr) (PDE_SLOT addr) t) t (steps b s PDE_REGION).

Section Fill2m.
  Context (b s : Z).
  Context (Hb : 0 <= b) (Ht : b + s <= 2 ^ 39) (Hs : 0 <= s < 2 ^ 30).
  Context (Hbm : b mod 2 ^ 21 = 0) (Hsm : s mod 2 ^ 21 = 0).

Lemma fill_2m_nodup : NoDup (PDE_SLOT <$> steps b s PDE_REGION).
Proof.
  rewrite PDE_REGION_eq. apply steps_slots_nodup; [lia|lia|]. intros k k' Hk Hk'.
  rewrite !PDE_SLOT_div by lia. dlia.
Qed.

Lemma fill_2m_inside t a :
  b <= a < b + s -> maps_2m (ent (fill_2m b s t) (PDE_SLOT a)) a.
Proof.
  intros Ha. pose proof fill_2m_nodup as Hnd.
  set (x := b + (a - b) / 2 ^ 21 * 2 ^ 21).
  assert (Hx : x ∈ steps b s PDE_REGION).
  { rewrite PDE_REGION_eq. apply elem_of_steps; [lia|lia|done|].
    exists ((a - b) / 2 ^ 21). split; [dlia|done]. }
  assert (Hr : 0 <= x < 2 ^ 39) by (unfold x; dlia).
  assert (Hd : x / 2 ^ 21 = a / 2 ^ 21) by (unfold x; dlia).
  assert (Hsl : PDE_SLOT x = PDE_SLOT a) by (rewrite !PDE_SLOT_div by lia; congruence).
  destruct (ent_foldl_upd pde_2mb_set PDE_SLOT _ t (PDE_SLOT a) Hnd) as [H1 _].
  unfold fill_2m. rewrite (H1 x Hx Hsl).
  destruct (pde_2mb_set_maps x (ent t (PDE_SLOT a))) as [(?&?&?&Hf) _]; [lia|].
  unfold maps_2m. rewrite Hf, Hd. done.
Qed.

Lemma fill_2m_present t i : f_p (ent (fill_2m b s t) i) = f_p (ent t i).
Proof.
  pose proof fill_2m_nodup as Hnd.
  destruct (ent_foldl_upd pde_2mb_set PDE_SLOT _ t i Hnd) as [H1 H2]. unfold fill_2m.
  destruct (decide (i ∈ PDE_SLOT <$> steps b s PDE_REGION)) as [Hi|Hi]; [|by rewrite H2].
  apply list_elem_of_fmap in Hi as (x & -> & Hx). rewrite (H1 x Hx eq_refl).
  rewrite PDE_REGION_eq in Hx. apply elem_of_steps in Hx as (k & Hk & ->); [|lia|lia|done].
  apply pde_2mb_set_maps. dlia.
Qed.

End Fill2m.

(** Plugging a region of less than 1 GiB sets, for each of its 2 MiB pages,
    a writable large-page entry with the page's own frame, and leaves every
    present bit of the directory and the 1 GiB table as they were. *)
Theorem set_pml4_hierarchy_2m m reg upper p :
  0 <= reg.(guest_phys_addr) -> reg.(guest_phys_addr) + reg.(memory_size) <= 2 ^ 39 ->
  reg.(guest_phys_addr) mod PDE_REGION = 0 -> reg.(memory_size) mod PDE_REGION = 0 ->
  0 <= reg.(memory_size) < PDPTE_REGION ->
  exists p', set_pml4_hierarchy m reg upper p = Some p'
  /\ (forall a, reg.(guest_phys_addr) <= a < reg.(guest_phys_addr) + reg.(memory_size) ->
       maps_2m (ent (if upper then p'.(pd2) else p'.(pd0)) (PDE_SLOT a)) a)
  /\ (forall i, f_p (ent p'.(pd2) i) = f_p (ent p.(pd2) i)
              /\ f_p (ent p'.(pd0) i) = f_p (ent p.(pd0) i))
  /\ p'.(pdpt0) = p.(pdpt0).
Proof.
  rewrite PDE_REGION_eq, PDPTE_REGION_eq. intros Hb Ht Hbm Hsm Hsz.
  unfold set_pml4_hierarchy. rewrite PDPTE_REGION_eq.
  destruct (Z.ltb_spec reg.(memory_size) (2 ^ 30)) as [_|]; [|lia].
  eexists; split; [reflexivity|].
  pose proof (fill_2m_inside _ _ Hb Ht Hsz Hbm Hsm) as HI.
  pose proof (fill_2m_present _ _ Hb Ht Hsz Hbm Hsm) as HP.
  destruct upper; (split_and!; [exact (HI _)| |done]); intros i;
    first [by split; [apply HP|] | by split; [|apply HP]].
Qed.

(** ** The walk *)

(** The upper levels as init_pml4 builds them: table 0 of the PML4 covers the
    first 512 GiB, whose first and last GiB go through directories. *)
Definition points_to (e pa : Z) : Prop := f_p e = 1 /\ bf_get 12 40 e * 2 ^ 12 = pa.
Definition tables_ok (p : page_tables) : Prop :=
  points_to (ent p.(pml4) 0) pa_pdpt0
  /\ (points_to (ent p.(pdpt0) 0) pa_pd0 /\ f_ps (ent p.(pdpt0) 0) = 0)
  /\ (points_to (ent p.(pdpt0) 511) pa_pd2 /\ f_ps (ent p.(pdpt0) 511) = 0).

Lemma tables_ok_next p :
  tables_ok p ->
  next_table p (ent p.(pml4) 0) = Some p.(pdpt0)
  /\ (f_p (ent p.(pdpt0) 0) = 1 /\ f_ps (ent p.(pdpt0) 0) = 0
      /\ next_table p (ent p.(pdpt0) 0) = Some p.(pd0))
  /\ (f_p (ent p.(pdpt0) 511) = 1 /\ f_ps (ent p.(pdpt0) 511) = 0
      /\ next_table p (ent p.(pdpt0) 511) = Some p.(pd2)).
Proof.
  intros ((A1 & A2) & ((B1 & B2) & B3) & ((C1 & C2) & C3)). unfold next_table.
  rewrite A1, A2, B1, B2, C1, C2. done.
Qed.

Lemma bf_get_div lo len a : 0 <= lo -> 0 <= len -> bf_get lo len a = a / 2 ^ lo mod 2 ^ len.
Proof. intros. unfold bf_get. by rewrite Z.land_ones, Z.shiftr_div_pow2 by lia. Qed.

Section Walk.
  Context (p : page_tables) (T : tables_ok p).

Lemma walk_1g gva :
  2 ^ 30 <= gva < 511 * 2 ^ 30 ->
  let e := ent p.(pdpt0) (PDPTE_SLOT gva) in
  (f_p e = 0 -> mmu_walk p gva = None)
  /\ (forall gpa, f_p e = 1 -> maps_1g e gpa -> gpa mod 2 ^ 30 = gva mod 2 ^ 30 ->
        mmu_walk p gva = Some gpa).
Proof.
  intros Hr e. destruct (tables_ok_next p T) as (T3 & _ & _). unfold mmu_walk.
  rewrite !(bf_get_div _ _ gva) by lia.
  replace (gva / 2 ^ 39 mod 2 ^ 9) with 0 by dlia. rewrite T3. cbn [mbind option_bind].
  replace (gva / 2 ^ 30 mod 2 ^ 9) with (PDPTE_SLOT gva) by (rewrite PDPTE_SLOT_div by lia; dlia).
  fold e. split.
  - intros ->. done.
  - intros gpa -> (-> & _ & _ & ->) Hm. cbn. f_equal. rewrite <- Hm. dlia.
Qed.

Lemma walk_2m gva i d :
  i = 0 /\ d = p.(pd0) \/ i = 511 /\ d = p.(pd2) ->
  i * 2 ^ 30 <= gva < (i + 1) * 2 ^ 30 ->
  let e := ent d (PDE_SLOT gva) in
  (f_p e = 0 -> mmu_walk p gva = None)
  /\ (forall gpa, f_p e = 1 -> maps_2m e gpa -> gpa mod 2 ^ 21 = gva mod 2 ^ 21 ->
        mmu_walk p gva = Some gpa).
Proof.
  intros Hi Hr e. destruct (tables_ok_next p T) as (T3 & (A1 & A2 & A3) & (B1 & B2 & B3)). unfold mmu_walk.
  rewrite !(bf_get_div _ _ gva) by lia.
  replace (gva / 2 ^ 39 mod 2 ^ 9) with 0 by (destruct Hi as [[-> _]|[-> _]]; dlia).
  rewrite T3. cbn [mbind option_bind].
  replace (gva / 2 ^ 30 mod 2 ^ 9) with i by (destruct Hi as [[-> _]|[-> _]]; dlia).
  replace (gva / 2 ^ 21 mod 2 ^ 9) with (PDE_SLOT gva)
    by (rewrite PDE_SLOT_div; [done|destruct Hi as [[-> _]|[-> _]]; lia]).
  destruct Hi as [[-> ->]|[-> ->]]; rewrite ?A1, ?A2, ?A3, ?B1, ?B2, ?B3; cbn [mbind option_bind];
    (split; [intros H; fold e; by rewrite H
            | intros gpa H (H1 & _ & _ & H2) Hm; fold e; rewrite H, H1, H2; cbn; f_equal;
              rewrite <- Hm; dlia]).
Qed.

End Walk.

(** Every address below [b] is backed by a large-page entry with its own frame. *)
Definition bottom_frames (p : page_tables) (b : Z) : Prop :=
  (forall a, GUEST_MEM_START_VA <= a < b -> a < GIB -> maps_2m (ent p.(pd0) (PDE_SLOT a)) a)
  /\ (forall a, GIB <= a < b -> maps_1g (ent p.(pdpt0) (PDPTE_SLOT a)) a).

(** With these tables, present bits and frames the processor translates every
    guest address below the break to itself, and faults on every large page that
    lies wholly at or above it. *)
Lemma bottom_walk p lim b a :
  tables_ok p -> bottom_present p lim b -> bottom_frames p b ->
  b <= lim * GIB -> lim <= 511 -> GUEST_MEM_START_VA <= a < lim * GIB ->
  (a < b -> mmu_walk p a = Some a)
  /\ (b <= rounddown a (if a <? GIB then PDE_REGION else PDPTE_REGION) -> mmu_walk p a = None).
Proof.
  intros T [Pd Pg] [Fd Fg] Hb Hl Ha. rewrite PDE_REGION_eq, PDPTE_REGION_eq.
  change GIB with (2 ^ 30) in *. change GUEST_MEM_START_VA with (2 ^ 21) in *.
  destruct (Z.ltb_spec a (2 ^ 30)) as [Hlo|Hhi].
  - destruct (walk_2m p T a 0 p.(pd0) ltac:(auto) ltac:(lia)) as [W0 W1].
    assert (Hi : PDE_SLOT a = a / 2 ^ 21) by (rewrite PDE_SLOT_div by lia; dlia).
    rewrite Hi in *. specialize (Pd (a / 2 ^ 21) ltac:(dlia)). split; intros Hc.
    + apply W1; [|rewrite <- Hi; apply Fd; lia|done].
      rewrite Pd. destruct (Z.ltb_spec (a / 2 ^ 21 * 2 ^ 21) b); [done|dlia].
    + apply W0. rewrite Pd. unfold rounddown in Hc.
      destruct (Z.ltb_spec (a / 2 ^ 21 * 2 ^ 21) b); [lia|done].
  - destruct (walk_1g p T a ltac:(lia)) as [W0 W1].
    assert (Hi : PDPTE_SLOT a = a / 2 ^ 30) by (rewrite PDPTE_SLOT_div by lia; done).
    rewrite Hi in *. specialize (Pg (a / 2 ^ 30) ltac:(dlia)). split; intros Hc.
    + apply W1; [|rewrite <- Hi; apply Fg; lia|done].
      rewrite Pg. destruct (Z.ltb_spec (a / 2 ^ 30 * 2 ^ 30) b); [done|dlia].
    + apply W0. rewrite Pg. unfold rounddown in Hc.
      destruct (Z.ltb_spec (a / 2 ^ 30 * 2 ^ 30) b); [lia|done].
Qed.

(** Init_pml4 succeeds on every supported geometry; its tables have the
    shape the walk relies on and map nothing below GUEST_MEM_TOP_VA yet. *)
Theorem init_pml4_ok m w :
  geom_ok m w ->
  exists p, init_pml4 m = Some p /\ tables_ok p
    /\ forall a, 0 <= a < 2 ^ 39 -> mmu_walk p a = None.
Proof.
  intros G. unfold init_pml4. pose proof (va_offset_eq m w G) as Ho. pose proof G as (Hw & Hmax & _).
  rewrite Ho, Hmax. change PML4E_REGION with (2 ^ 39). rewrite PDPTE_REGION_eq.
  destruct (Z.leb_spec (2 ^ w) (2 ^ 39)) as [_|Hf].
  2: { assert (2 ^ w <= 2 ^ 39) by (apply Z.pow_le_mono_r; lia). lia. }
  assert ((2 ^ 39 - 2 ^ w) mod 2 ^ 30 = 0) as ->.
  { replace (2 ^ 39 - 2 ^ w) with ((2 ^ 9 - 2 ^ (w - 30)) * 2 ^ 30).
    - by apply Z.mod_mul.
    - rewrite Z.mul_sub_distr_r, <- !Z.pow_add_r by lia. do 2 f_equal. lia. }
  cbn [andb Z.eqb]. eexists; split; [reflexivity|].
  match goal with |- tables_ok ?q /\ _ => set (p := q) end.
  assert (T : tables_ok p) by (vm_compute; split_and!; reflexivity).
  split; [exact T|]. intros a Ha.
  destruct (Z_lt_le_dec a (2 ^ 30)); [|destruct (Z_lt_le_dec a (511 * 2 ^ 30))].
  - apply (walk_2m p T a 0 p.(pd0)); [auto|lia|]. reflexivity.
  - apply (walk_1g p T a); [lia|]. assert (Hs : PDPTE_SLOT a = a / 2 ^ 30) by (apply PDPTE_SLOT_div; lia).
    rewrite Hs. assert (Hr : 1 <= a / 2 ^ 30 <= 510) by dlia.
    unfold p. cbn [pdpt0 with_pdpt0 with_pd1 with_pdpt1 with_pml4].
    rewrite !ent_upd. change (PDE_SLOT GUEST_MEM_TOP_VA) with 511.
    rewrite !decide_False by lia. reflexivity.
  - apply (walk_2m p T a 511 p.(pd2)); [auto|lia|]. reflexivity.
Qed.

(** ** The hypotheses hold *)

(** A property of a table slot, tested slot by slot. *)
Lemma slots_check (f : Z -> bool) lo n :
  forallb f (seqZ lo n) = true -> forall i, lo <= i < lo + n -> f i = true.
Proof.
  intros Hf i Hi. rewrite forallb_forall in Hf. apply Hf, list_elem_of_In, elem_of_seqZ. lia.
Qed.

Lemma bottom_present_check p lim b :
  forallb (fun i => f_p (ent p.(pd0) i) =? if i * 2 ^ 21 <? b then 1 else 0) (seqZ 1 511) = true ->
  forallb (fun j => f_p (ent p.(pdpt0) j) =? if j * 2 ^ 30 <? b then 1 else 0) (seqZ 1 (lim - 1)) = true ->
  bottom_present p lim b.
Proof.
  intros H1 H2. split; intros i Hi; apply Z.eqb_eq.
  - apply (slots_check _ _ _ H1 i). lia.
  - apply (slots_check _ _ _ H2 i). lia.
Qed.

Lemma top_present_check p lim b :
  forallb (fun i => f_p (ent p.(pd2) i) =? if b <? 511 * 2 ^ 30 + (i + 1) * 2 ^ 21 then 1 else 0) (seqZ 0 511) = true ->
  forallb (fun j => f_p (ent p.(pdpt0) j) =? if b <? (j + 1) * 2 ^ 30 then 1 else 0) (seqZ lim (511 - lim)) = true ->
  top_present p lim b.
Proof.
  intros H1 H2. split; intros i Hi; apply Z.eqb_eq.
  - apply (slots_check _ _ _ H1 i). lia.
  - apply (slots_check _ _ _ H2 i). lia.
Qed.

Lemma fixup_bottom_exact_witness :
  bottom_present (fixup_bottom_page_tables GUEST_MEM_START_VA (5 * MIB) page_tables_0) 4 (5 * MIB).
Proof.
  assert (P : bottom_present page_tables_0 4 GUEST_MEM_START_VA) by (apply bottom_present_check; vm_compute; reflexivity).
  refine (fixup_bottom_exact page_tables_0 4 GUEST_MEM_START_VA (5 * MIB) _ _ _ _ _ P);
    vm_compute; discriminate.
Defined.

Lemma fixup_top_exact_witness :
  top_present (fixup_top_page_tables GUEST_MEM_TOP_VA stale_old page_tables_0) 510 stale_old.
Proof.
  apply (fixup_top_exact page_tables_0 510 GUEST_MEM_TOP_VA stale_old).
  - lia.
  - vm_compute. split; discriminate.
  - vm_compute. split; discriminate.
  - left. vm_compute. reflexivity.
  - apply top_present_check; vm_compute; reflexivity.
Defined.

Definition low_reg : kvm_mem_reg := mk_mem_reg 1 0 (2 * MIB) (2 * MIB) (2 * MIB).

Lemma set_pml4_hierarchy_2m_witness : exists p',
  set_pml4_hierarchy (boot_machine VM_TYPE_KVM 32) low_reg false page_tables_0 = Some p'
  /\ maps_2m (ent p'.(pd0) (PDE_SLOT (3 * MIB))) (3 * MIB).
Proof.
  destruct (set_pml4_hierarchy_2m (boot_machine VM_TYPE_KVM 32) low_reg false page_tables_0) as (p' & E & Hm & _);
    [vm_compute; discriminate|vm_compute; discriminate|reflexivity|reflexivity|vm_compute; split; [discriminate|reflexivity]|].
  exists p'. split; [exact E|]. apply Hm. vm_compute. split; [discriminate|reflexivity].
Defined.

Lemma init_pml4_ok_witness : exists p, init_pml4 (boot_machine VM_TYPE_KVM 32) = Some p /\ mmu_walk p (3 * MIB) = None.
Proof.
  destruct (init_pml4_ok (boot_machine VM_TYPE_KVM 32) 32) as (p & E & _ & Hw); [by apply boot_machine_geom|].
  exists p. split; [exact E|]. apply Hw. vm_compute. split; [discriminate|reflexivity].
Defined.
