(* ===== verification/MemBrk.v ===== *)
(** * Growing and shrinking guest memory (km_mem.c: km_mem_brk, km_mem_tbrk)

    Guest memory grows up from 2 MiB with brk and down from the top with tbrk.
    Each move plugs or unplugs the KVM memory slots the geometry of km_mem.h
    assigns to the range, updates the guest page tables and moves the break.
    The mutex of the source ([km_mem_lock]) brackets the whole of each operation,
    so an operation is one step on the machine state. *)
From S2P Require Import Prelude Machine MemGeom TopBreak PageTable.

(** ** Operations *)
Section Ops.
  Context `{Host}.

(** [&machine.vm_mem_regs[idx]]: an index outside the array ends the run. *)
Definition vm_mem_reg (idx : Z) : M machine kvm_mem_reg :=
  let* m := get in lift (m.(vm_mem_regs) !! idx).
Definition put_vm_mem_reg (idx : Z) (r : kvm_mem_reg) : M machine unit :=
  modify (fun m => set_vm_mem_regs (<[idx := r]> m.(vm_mem_regs)) m).

Definition km_guest_page_malloc (gpa_hint sz prot : Z) : M machine (option Z) :=
  let* m := get in
  let flags := Z.lor (Z.lor MAP_PRIVATE MAP_ANONYMOUS)
                 (if m.(overcommit_memory) then MAP_NORESERVE else 0) in
  if negb (Z.land sz (KM_PAGE_SIZE - 1) =? 0) || negb (Z.land gpa_hint (KM_PAGE_SIZE - 1) =? 0)
  then ret None
  else let* addr := hcall (H_mmap (gpa_hint + KM_USER_MEM_BASE) sz prot flags (-1) 0) in
       if addr <? 0 then ret None
       else if negb (addr =? gpa_hint + KM_USER_MEM_BASE) then abort
       else ret (Some addr).

Definition km_guest_page_free (addr sz : Z) : M machine unit :=
  let* _ := hcall (H_munmap (addr + KM_USER_MEM_BASE) sz) in ret tt.

Definition set_hierarchy (r : kvm_mem_reg) (upper_va : bool) : M machine unit :=
  let* m := get in
  let* p := lift (set_pml4_hierarchy m r upper_va m.(pt)) in
  modify (set_pt p).
Definition clear_hierarchy (r : kvm_mem_reg) (upper_va : bool) : M machine unit :=
  let* m := get in
  let* p := lift (clear_pml4_hierarchy m r upper_va m.(pt)) in
  modify (set_pt p).
Definition is_kvm (m : machine) : bool :=
  match m.(vm_type) with VM_TYPE_KVM => true | VM_TYPE_KKM => false end.

Definition km_alloc_region (idx sz : Z) (upper_va : bool) : M machine Z :=
  let* reg := vm_mem_reg idx in
  let* m := get in
  let base := memreg_base m idx in
  km_assert ((reg.(memory_size) =? 0) && (reg.(userspace_addr) =? 0)) ;;;
  km_assert (m.(pdpe1g) || (base <? GIB) || (m.(guest_max_physmem) - GIB <=? base)) ;;;
  let* ptr := km_guest_page_malloc base sz PROT_NONE in
  match ptr with
  | None => ret (- ENOMEM)
  | Some ptr =>
      let reg := mk_mem_reg idx 0 base sz ptr in
      put_vm_mem_reg idx reg ;;;
      let* rc := hcall (H_set_user_memory_region idx base sz ptr) in
      if rc <? 0 then
        km_guest_page_free base sz ;;;
        put_vm_mem_reg idx kvm_mem_reg_zero ;;;
        ret rc
      else
        (if is_kvm m then set_hierarchy reg upper_va else ret tt) ;;;
        ret 0
  end.

Definition km_free_region (idx : Z) (upper_va : bool) : M machine unit :=
  let* reg := vm_mem_reg idx in
  let* m := get in
  let sz := reg.(memory_size) in
  km_assert (negb (sz =? 0)) ;;;
  (if is_kvm m then clear_hierarchy reg upper_va else ret tt) ;;;
  put_vm_mem_reg idx (mk_mem_reg reg.(slot) reg.(reg_flags) reg.(guest_phys_addr) 0 reg.(userspace_addr)) ;;;
  let* rc := hcall (H_set_user_memory_region reg.(slot) reg.(guest_phys_addr) 0 reg.(userspace_addr)) in
  if rc <? 0 then abort
  else
    km_guest_page_free reg.(guest_phys_addr) sz ;;;
    put_vm_mem_reg idx (mk_mem_reg reg.(slot) reg.(reg_flags) 0 0 0).

Definition km_region_allocated (idx : Z) : M machine bool :=
  let* reg := vm_mem_reg idx in ret (negb (reg.(userspace_addr) =? 0)).

(** First loop of km_mem_brk; the result is (idx, brk, error). *)
Fixpoint brk_grow (fuel : nat) (new_brk idx : Z) : M machine (Z * Z * Z) :=
  match fuel with
  | O => fun _ => NoFuel
  | S fuel' =>
      let* m := get in
      if Z.min new_brk (memreg_top m idx) <? new_brk then
        let idx := idx + 1 in
        let* al := km_region_allocated idx in
        if al then
          (if is_kvm m then let* r := vm_mem_reg idx in set_hierarchy r false else ret tt) ;;;
          brk_grow fuel' new_brk idx
        else
          let* rc := km_alloc_region idx (memreg_size m idx) false in
          if negb (rc =? 0) then ret (idx - 1, m.(brk), ENOMEM)
          else brk_grow fuel' new_brk idx
      else ret (idx, new_brk, 0)
  end.

(** Second loop of km_mem_brk. *)
Fixpoint brk_shrink (fuel : nat) (new_brk idx tbrk_idx : Z) : M machine unit :=
  match fuel with
  | O => fun _ => NoFuel
  | S fuel' =>
      let* m := get in
      let* i := lift (gva_to_memreg_idx m (new_brk - 1)) in
      if i <? idx then
        (if idx <? tbrk_idx then km_free_region idx false else ret tt) ;;;
        brk_shrink fuel' new_brk (idx - 1) tbrk_idx
      else ret tt
  end.

Definition loop_fuel : nat := 64.

Definition km_mem_brk (new_brk : Z) : M machine Z :=
  let* m := get in
  if new_brk =? 0 then ret m.(brk)
  else if GUEST_MEM_ZONE_SIZE_VA m <=? new_brk then ret (neg_errno ENOMEM)
  else
    let* brk_pa := lift (gva_to_gpa m new_brk) in
    let* tbrk_pa := lift (gva_to_gpa m m.(tbrk)) in
    if rounddown tbrk_pa PDPTE_REGION <=? rounddown brk_pa PDPTE_REGION then ret (neg_errno ENOMEM)
    else
      let* idx := lift (gva_to_memreg_idx m (m.(brk) - 1)) in
      let* (idx, new_brk, error) := brk_grow loop_fuel new_brk idx in
      let* tbrk_idx := lift (gva_to_memreg_idx m m.(tbrk)) in
      brk_shrink loop_fuel new_brk idx tbrk_idx ;;;
      (if is_kvm m then modify (fun m => set_pt (fixup_bottom_page_tables m.(brk) new_brk m.(pt)) m)
       else ret tt) ;;;
      let oldpage := roundup m.(brk) KM_PAGE_SIZE in
      let newpage := roundup new_brk KM_PAGE_SIZE in
      (if oldpage <? newpage then
         let* _ := hcall (H_mprotect (km_gva_to_kma_nocheck m oldpage) (newpage - oldpage)
                            (Z.lor PROT_READ PROT_WRITE)) in ret tt
       else if newpage <? oldpage then
         let* _ := hcall (H_mprotect (km_gva_to_kma_nocheck m newpage) (oldpage - newpage) PROT_NONE) in
         ret tt
       else ret tt) ;;;
      modify (set_brk new_brk) ;;;
      ret (if error =? 0 then new_brk else neg_errno error).

(** First loop of km_mem_tbrk; the result is (idx, tbrk, error). *)
Fixpoint tbrk_grow (fuel : nat) (new_tbrk idx : Z) : M machine (Z * Z * Z) :=
  match fuel with
  | O => fun _ => NoFuel
  | S fuel' =>
      let* m := get in
      let* g := lift (gpa_to_upper_gva m (memreg_base m idx)) in
      if new_tbrk <? Z.max new_tbrk g then
        let idx := idx - 1 in
        let* al := km_region_allocated idx in
        if al then
          (if is_kvm m then let* r := vm_mem_reg idx in set_hierarchy r true else ret tt) ;;;
          tbrk_grow fuel' new_tbrk idx
        else
          let* rc := km_alloc_region idx (memreg_size m idx) true in
          if negb (rc =? 0) then ret (idx + 1, m.(tbrk), ENOMEM)
          else tbrk_grow fuel' new_tbrk idx
      else ret (idx, new_tbrk, 0)
  end.

(** Second loop of km_mem_tbrk. *)
Fixpoint tbrk_shrink (fuel : nat) (new_tbrk idx brk_idx : Z) : M machine unit :=
  match fuel with
  | O => fun _ => NoFuel
  | S fuel' =>
      let* m := get in
      let* i := lift (gva_to_memreg_idx m new_tbrk) in
      if idx <? i then
        (if brk_idx <? idx then km_free_region idx true else ret tt) ;;;
        tbrk_shrink fuel' new_tbrk (idx + 1) brk_idx
      else ret tt
  end.

Definition km_mem_tbrk (new_tbrk : Z) : M machine Z :=
  let* m := get in
  if new_tbrk =? 0 then ret m.(tbrk)
  else if (GUEST_MEM_TOP_VA <? new_tbrk) || (new_tbrk <? GUEST_VA_OFFSET m) then ret (neg_errno ENOMEM)
  else
    let* brk_pa := lift (gva_to_gpa m m.(brk)) in
    let* tbrk_pa := lift (gva_to_gpa m new_tbrk) in
    if rounddown tbrk_pa PDPTE_REGION <=? rounddown brk_pa PDPTE_REGION then ret (neg_errno ENOMEM)
    else
      let* idx := lift (gva_to_memreg_idx m m.(tbrk)) in
      let* (idx, new_tbrk, error) := tbrk_grow loop_fuel new_tbrk idx in
      let* brk_idx := lift (gva_to_memreg_idx m (m.(brk) - 1)) in
      tbrk_shrink loop_fuel new_tbrk idx brk_idx ;;;
      (if is_kvm m then modify (fun m => set_pt (fixup_top_page_tables m.(tbrk) new_tbrk m.(pt)) m)
       else ret tt) ;;;
      modify (set_tbrk new_tbrk) ;;;
      ret (if error =? 0 then new_tbrk else neg_errno error).

(** km_mem_init up to the mmap lists: the reserved slot with the page tables, the
    identity map page, and the geometry. *)
Definition km_mem_init (force_overcommit : bool) : M machine unit :=
  modify (set_overcommit_memory force_overcommit) ;;;
  let* m := get in
  (if is_kvm m then
     let* ptr := km_guest_page_malloc RSV_MEM_START RSV_MEM_SIZE (Z.lor PROT_READ PROT_WRITE) in
     match ptr with
     | None => abort
     | Some ptr =>
         put_vm_mem_reg KM_RSRV_MEMSLOT (mk_mem_reg KM_RSRV_MEMSLOT 0 RSV_MEM_START RSV_MEM_SIZE ptr) ;;;
         let* rc := hcall (H_set_user_memory_region KM_RSRV_MEMSLOT RSV_MEM_START RSV_MEM_SIZE ptr) in
         if rc <? 0 then abort
         else let* m := get in
              let* p := lift (init_pml4 m) in
              modify (set_pt p)
     end
   else ret tt) ;;;
  let* rc := hcall (H_set_identity_map_addr (RSV_GUEST_PA RSV_IDMAP_OFFSET)) in
  if rc <? 0 then abort
  else let* m := get in
       let* m' := lift (km_mem_init_geometry m) in
       fun _ => Ret (tt, m').

End Ops.

(** The static variable [machine] before km_mem_init: the driver is chosen, the size of
    physical memory and the support of 1 GiB pages are known, all else is zero. *)
Definition machine_static (ty : vm_type_t) (w : Z) (p1g : bool) : machine :=
  mk_machine ty (list_to_map ((fun i => (i, kvm_mem_reg_zero)) <$> seqZ 0 KM_MEM_SLOTS)) 0 0 (2 ^ w) p1g
    0 0 0 false (0, 0) 0 page_tables_0 [] [] false [].

(** ** Invariant *)

(** What the monitor relies on from the host: an anonymous mapping requested at a
    free hint is placed there or refused, and unplugging a slot succeeds. *)
Definition host_coop `{Host} : Prop :=
  (forall tr a s p f, host_answer tr (H_mmap a s p f (-1) 0) = a
                      \/ host_answer tr (H_mmap a s p f (-1) 0) < 0)
  /\ (forall tr sl g u, 0 <= host_answer tr (H_set_user_memory_region sl g 0 u)).

(** A slot that holds region [i], and a free one. *)
Definition reg_full (m : machine) (i : Z) (r : kvm_mem_reg) : Prop :=
  r.(memory_size) = memreg_size m i /\ r.(guest_phys_addr) = memreg_base m i
  /\ r.(userspace_addr) = memreg_base m i /\ r.(slot) = i.
Definition reg_free (r : kvm_mem_reg) : Prop := r.(memory_size) = 0 /\ r.(userspace_addr) = 0.

(** Regions up to [b] (bottom zone) and from [t] (top zone) are plugged, the
    others are not. *)
Definition plugged (m : machine) (regs : gmap Z kvm_mem_reg) (b t : Z) : Prop :=
  forall i, 1 <= i < m.(last_mem_idx) ->
    exists r, regs !! i = Some r
              /\ if decide (i <= b \/ t <= i) then reg_full m i r else reg_free r.

Record mem_static (m : machine) (w : Z) : Prop := {
  ms_geom : geom_ok m w;
  ms_1g : w = 31 \/ m.(pdpe1g) = true;
}.

(** The breaks: inside their zones and never in the same GiB of physical memory. *)
Record brk_inv (m : machine) (w : Z) : Prop := {
  bi_brk : GUEST_MEM_START_VA <= m.(brk);
  bi_tbrk : 2 ^ 39 - 2 ^ w + GUEST_MEM_START_VA <= m.(tbrk) <= GUEST_MEM_TOP_VA;
  bi_apart : rounddown m.(brk) PDPTE_REGION < rounddown (m.(tbrk) - (2 ^ 39 - 2 ^ w)) PDPTE_REGION;
}.

Definition idx_brk (m : machine) (b : Z) : Z := default 0 (gva_to_memreg_idx m (b - 1)).
Definition idx_tbrk (m : machine) (t : Z) : Z := default 0 (gva_to_memreg_idx m t).

Record mem_inv (m : machine) (w : Z) : Prop := {
  mi_static : mem_static m w;
  mi_brk : brk_inv m w;
  mi_plugged : plugged m m.(vm_mem_regs) (idx_brk m m.(brk)) (idx_tbrk m m.(tbrk));
}.

(** Same machine but for memory slots, page tables and host requests. *)
Definition with_mem (m : machine) (regs : gmap Z kvm_mem_reg) (p : page_tables) (tr : list hostcall) :=
  set_vm_mem_regs regs (set_pt p (set_trace tr m)).

(** The slots that brk and tbrk never touch. *)
Definition outside (m : machine) (regs regs' : gmap Z kvm_mem_reg) : Prop :=
  forall i, ~ (1 <= i < m.(last_mem_idx)) -> regs' !! i = regs !! i.

Lemma with_mem_id m : with_mem m m.(vm_mem_regs) m.(pt) m.(trace) = m.
Proof. by destruct m. Qed.

Lemma with_mem_set_pt m regs p tr q : set_pt q (with_mem m regs p tr) = with_mem m regs q tr.
Proof. done. Qed.
Lemma with_mem_set_regs m regs p tr r : set_vm_mem_regs r (with_mem m regs p tr) = with_mem m r p tr.
Proof. done. Qed.
Lemma with_mem_set_trace m regs p tr t : set_trace t (with_mem m regs p tr) = with_mem m regs p t.
Proof. done. Qed.

Section Static.
  Context (m : machine) (w : Z) (St : mem_static m w).

Lemma static_geom : geom_ok m w.
Proof. apply St. Qed.

Lemma pow_page k : 12 <= k -> 2 ^ k mod 4096 = 0.
Proof.
  intros. replace k with (12 + (k - 12)) by lia. rewrite Z.pow_add_r by lia.
  rewrite Z.mul_comm. by apply Z.mod_mul.
Qed.

Lemma land_page x : x mod 4096 = 0 -> (Z.land x (KM_PAGE_SIZE - 1) =? 0) = true.
Proof.
  intros Hx. change (KM_PAGE_SIZE - 1) with (Z.ones 12). rewrite Z.land_ones by lia.
  change (2 ^ 12) with 4096. by rewrite Hx.
Qed.

Lemma memreg_base_page i : 0 <= i <= m.(last_mem_idx) -> memreg_base m i mod 4096 = 0.
Proof.
  intros Hi. pose proof static_geom as (Hw & Hmax & _ & Hmidx & Hlast).
  destruct (Z_le_gt_dec i (w - 22)).
  - rewrite (memreg_base_low m w static_geom) by lia. apply pow_page. lia.
  - rewrite (memreg_base_high m w static_geom) by lia. rewrite Zminus_mod, !pow_page by lia. done.
Qed.

Lemma memreg_size_pow i :
  0 <= i <= m.(last_mem_idx) ->
  exists k, 20 <= k <= w - 2 /\ memreg_size m i = 2 ^ k.
Proof.
  intros Hi. pose proof static_geom as (Hw & Hmax & _ & Hmidx & Hlast). unfold memreg_size.
  destruct (Z.leb_spec i m.(mid_mem_idx)); rewrite shiftl_MIB by lia; eexists; (split; [|reflexivity]); lia.
Qed.

Lemma memreg_size_page i : 0 <= i <= m.(last_mem_idx) -> memreg_size m i mod 4096 = 0.
Proof. intros Hi. destruct (memreg_size_pow i Hi) as (k & Hk & ->). apply pow_page. lia. Qed.

Lemma memreg_size_pos i : 0 <= i <= m.(last_mem_idx) -> 0 < memreg_size m i.
Proof. intros Hi. destruct (memreg_size_pow i Hi) as (k & Hk & ->). lia. Qed.

Lemma memreg_base_range i :
  1 <= i <= m.(last_mem_idx) -> 2 ^ 21 <= memreg_base m i /\ memreg_base m i + memreg_size m i <= 2 ^ w.
Proof.
  intros Hi. pose proof static_geom as (Hw & Hmax & Hmid & Hmidx & Hlast).
  pose proof (memreg_base_low m w static_geom 1 ltac:(lia)) as H1. change (2 ^ (20 + 1)) with (2 ^ 21) in H1.
  rewrite (memreg_size_eq m w static_geom) by lia. split.
  - destruct (Z.eq_dec i 1) as [->|]; [lia|].
    pose proof (memreg_top_le_base m w static_geom 1 i ltac:(lia) ltac:(lia) ltac:(lia)).
    pose proof (memreg_base_lt_top m w static_geom 1 ltac:(lia)). lia.
  - replace (memreg_base m i + (memreg_top m i - memreg_base m i)) with (memreg_top m i) by lia.
    destruct (Z.eq_dec i (2 * (w - 22) + 1)) as [->|].
    + rewrite (memreg_top_high m w static_geom) by lia. lia.
    + pose proof (memreg_top_le_base m w static_geom i (2 * (w - 22) + 1) ltac:(lia) ltac:(lia) ltac:(lia)) as Ht.
      rewrite (memreg_base_high m w static_geom) in Ht by lia.
      pose proof (Z.pow_pos_nonneg 2 (21 + (2 * (w - 22) + 1 - (2 * (w - 22) + 1)))). lia.
Qed.

Lemma pdpe1g_needed i :
  0 <= i <= m.(last_mem_idx) -> 2 ^ 30 <= memreg_size m i -> m.(pdpe1g) = true.
Proof.
  intros Hi Hs. destruct (ms_1g m w St) as [Ew|]; [|done].
  destruct (memreg_size_pow i Hi) as (k & Hk & Hs'). rewrite Hs' in Hs.
  assert (2 ^ k <= 2 ^ 29) by (apply Z.pow_le_mono_r; lia). lia.
Qed.

Lemma hierarchy_defined i r up q :
  1 <= i < m.(last_mem_idx) -> reg_full m i r ->
  (exists p, set_pml4_hierarchy m r up q = Some p) /\ (exists p, clear_pml4_hierarchy m r up q = Some p).
Proof.
  intros Hi (Hs & Hb & _ & _). unfold set_pml4_hierarchy, clear_pml4_hierarchy.
  rewrite Hs, Hb, PDPTE_REGION_eq.
  destruct (Z.ltb_spec (memreg_size m i) (2 ^ 30)); [eauto|].
  rewrite (pdpe1g_needed i) by lia.
  pose proof (memreg_base_range i ltac:(lia)). pose proof (memreg_size_pos i ltac:(lia)).
  destruct up; cbn; [|eauto].
  rewrite (gpa_to_upper_gva_eq m w static_geom) by (change GUEST_MEM_START_VA with (2 ^ 21); lia). cbn. eauto.
Qed.

Lemma alloc_assert i :
  1 <= i < m.(last_mem_idx) ->
  m.(pdpe1g) || (memreg_base m i <? GIB) || (m.(guest_max_physmem) - GIB <=? memreg_base m i) = true.
Proof.
  intros Hi. destruct (ms_1g m w St) as [Ew|E1]; [|by rewrite E1]. change GIB with (2 ^ 30).
  pose proof static_geom as (_ & Hmax & _). rewrite Hmax, Ew. destruct (Z.ltb_spec (memreg_base m i) (2 ^ 30)); [by rewrite orb_true_r|].
  destruct (Z.leb_spec (2 ^ 31 - 2 ^ 30) (memreg_base m i)); [by rewrite orb_true_r|lia].
Qed.

End Static.

(** ** Plugging and unplugging one region *)
Ltac wm :=
  repeat match goal with
  | |- context [memreg_base (with_mem ?m ?r ?p ?t) ?i] => change (memreg_base (with_mem m r p t) i) with (memreg_base m i)
  | |- context [memreg_top (with_mem ?m ?r ?p ?t) ?i] => change (memreg_top (with_mem m r p t) i) with (memreg_top m i)
  | |- context [memreg_size (with_mem ?m ?r ?p ?t) ?i] => change (memreg_size (with_mem m r p t) i) with (memreg_size m i)
  | |- context [gva_to_memreg_idx (with_mem ?m ?r ?p ?t) ?i] => change (gva_to_memreg_idx (with_mem m r p t) i) with (gva_to_memreg_idx m i)
  | |- context [gpa_to_upper_gva (with_mem ?m ?r ?p ?t) ?i] => change (gpa_to_upper_gva (with_mem m r p t) i) with (gpa_to_upper_gva m i)
  | |- context [set_pml4_hierarchy (with_mem ?m ?r ?p ?t)] => change (set_pml4_hierarchy (with_mem m r p t)) with (set_pml4_hierarchy m)
  | |- context [clear_pml4_hierarchy (with_mem ?m ?r ?p ?t)] => change (clear_pml4_hierarchy (with_mem m r p t)) with (clear_pml4_hierarchy m)
  | |- context [is_kvm (with_mem ?m ?r ?p ?t)] => change (is_kvm (with_mem m r p t)) with (is_kvm m)
  end;
  rewrite ?with_mem_set_pt, ?with_mem_set_regs, ?with_mem_set_trace;
  cbn [pdpe1g guest_max_physmem brk tbrk last_mem_idx vm_mem_regs pt trace with_mem
       set_vm_mem_regs set_pt set_trace].

Section Regions.
  Context `{Host} (m : machine) (w : Z) (St : mem_static m w).

Abbreviation ab := (~ host_coop).

(** What plugging and unplugging region [i] do to the page tables. *)
Definition plug_pt (up : bool) (i : Z) (p p' : page_tables) : Prop :=
  if is_kvm m then exists r, reg_full m i r /\ set_pml4_hierarchy m r up p = Some p' else p' = p.
Definition unplug_pt (up : bool) (i : Z) (p p' : page_tables) : Prop :=
  if is_kvm m then exists r, reg_full m i r /\ clear_pml4_hierarchy m r up p = Some p' else p' = p.

Lemma wp_vm_mem_reg regs p tr i r (Q : kvm_mem_reg -> machine -> Prop) :
  regs !! i = Some r -> Q r (with_mem m regs p tr) ->
  wp ab (vm_mem_reg i) Q (with_mem m regs p tr).
Proof. intros Hr HQ. unfold vm_mem_reg. wp_steps. by eapply wp_lift. Qed.

Lemma wp_page_malloc base sz prot regs p tr (Q : option Z -> machine -> Prop) :
  base mod 4096 = 0 -> sz mod 4096 = 0 -> 0 <= base ->
  (forall tr', Q None (with_mem m regs p tr')) ->
  (forall tr', Q (Some base) (with_mem m regs p tr')) ->
  wp ab (km_guest_page_malloc base sz prot) Q (with_mem m regs p tr).
Proof.
  intros Hb Hs Hpos HN HS. unfold km_guest_page_malloc. wp_steps.
  rewrite !land_page by done. cbn [negb orb]. wp_steps. apply wp_hcall.
  change KM_USER_MEM_BASE with 0. rewrite Z.add_0_r. wm.
  match goal with |- context [host_answer ?a ?b] => set (ans := host_answer a b) end.
  destruct (Z.ltb_spec ans 0); [wp_steps; apply HN|].
  destruct (Z.eqb_spec ans base) as [->|Hne]; cbn [negb]; [wp_steps; apply HS|].
  cbn. intros [Hm _]. destruct (Hm tr base sz prot
    (Z.lor (Z.lor MAP_PRIVATE MAP_ANONYMOUS) (if overcommit_memory m then MAP_NORESERVE else 0))) as [Hx|Hx];
    unfold ans in *; cbn in *; congruence || lia.
Qed.

Lemma wp_alloc_region idx up regs p tr r :
  1 <= idx < m.(last_mem_idx) -> regs !! idx = Some r -> reg_free r ->
  wp ab (km_alloc_region idx (memreg_size m idx) up)
    (fun rc s => exists r' p' tr', s = with_mem m (<[idx := r']> regs) p' tr'
       /\ if decide (rc = 0) then reg_full m idx r' /\ plug_pt up idx p p' else reg_free r' /\ p' = p)
    (with_mem m regs p tr).
Proof.
  intros Hi Hr [Hf1 Hf2]. unfold km_alloc_region. wp_step. eapply wp_vm_mem_reg; [done|].
  wp_steps. rewrite Hf1, Hf2. apply wp_assert; [done|]. wp_steps. wm.
  apply wp_assert; [by apply (alloc_assert m w St)|]. wp_steps.
  pose proof (memreg_base_range m w St idx ltac:(lia)) as Hbr.
  apply wp_page_malloc; [apply (memreg_base_page m w St); lia|apply (memreg_size_page m w St); lia|lia| |].
  - intros tr'. wp_steps. exists r, p, tr'. rewrite insert_id by done. by rewrite decide_False.
  - intros tr'. wp_steps. unfold put_vm_mem_reg. wp_steps. wm. apply wp_hcall. wm.
    destruct (Z.ltb_spec (host_answer tr' (H_set_user_memory_region idx (memreg_base m idx)
                            (memreg_size m idx) (memreg_base m idx))) 0).
    + unfold km_guest_page_free. wp_steps. apply wp_hcall. wp_steps. wm.
      do 3 eexists. rewrite insert_insert_eq. split; [reflexivity|]. rewrite decide_False by lia. done.
    + wp_steps.
      set (nr := mk_mem_reg idx 0 (memreg_base m idx) (memreg_size m idx) (memreg_base m idx)).
      assert (HF : reg_full m idx nr) by (by unfold reg_full).
      unfold plug_pt. destruct (is_kvm m); wp_steps.
      * unfold set_hierarchy. wp_steps. wm.
        destruct (hierarchy_defined m w St idx nr up p Hi HF) as [[q Hq] _].
        eapply wp_lift; [exact Hq|]. wp_steps. wm. do 3 eexists. split; [reflexivity|]. rewrite decide_True by done. eauto.
      * do 3 eexists. split; [reflexivity|]. by rewrite decide_True.
Qed.

Lemma wp_free_region idx up regs p tr r :
  1 <= idx < m.(last_mem_idx) -> regs !! idx = Some r -> reg_full m idx r ->
  wp ab (km_free_region idx up)
    (fun _ s => exists r' p' tr', s = with_mem m (<[idx := r']> regs) p' tr' /\ reg_free r' /\ unplug_pt up idx p p')
    (with_mem m regs p tr).
Proof.
  intros Hi Hr HF. unfold km_free_region. wp_step. eapply wp_vm_mem_reg; [done|]. wp_steps.
  pose proof (memreg_size_pos m w St idx ltac:(lia)).
  apply wp_assert. { destruct HF as (-> & _). destruct (Z.eqb_spec (memreg_size m idx) 0); [lia|done]. }
  wp_steps. wm.
  assert (Hrest : forall q, unplug_pt up idx p q -> wp ab
     (put_vm_mem_reg idx (mk_mem_reg r.(slot) r.(reg_flags) r.(guest_phys_addr) 0 r.(userspace_addr)) ;;;
      let* rc := hcall (H_set_user_memory_region r.(slot) r.(guest_phys_addr) 0 r.(userspace_addr)) in
      if rc <? 0 then abort
      else km_guest_page_free r.(guest_phys_addr) r.(memory_size) ;;;
           put_vm_mem_reg idx (mk_mem_reg r.(slot) r.(reg_flags) 0 0 0))
     (fun _ s => exists r' p' tr', s = with_mem m (<[idx := r']> regs) p' tr' /\ reg_free r' /\ unplug_pt up idx p p')
     (with_mem m regs q tr)).
  { intros q Hq. unfold put_vm_mem_reg, km_guest_page_free. wp_steps. wm. apply wp_hcall. wm.
    match goal with |- context [host_answer ?a ?b] => set (ans := host_answer a b) end.
    destruct (Z.ltb_spec ans 0).
    - cbn. intros [_ Hu]. specialize (Hu tr r.(slot) r.(guest_phys_addr) r.(userspace_addr)).
      unfold ans in *. cbn in *. lia.
    - wp_steps. apply wp_hcall. wp_steps. wm. rewrite insert_insert_eq.
      do 3 eexists. split; [reflexivity|done]. }
  destruct (is_kvm m) eqn:Ek; wp_steps.
  - unfold clear_hierarchy. wp_steps. wm.
    destruct (hierarchy_defined m w St idx r up p Hi HF) as [_ [q Hq]].
    eapply wp_lift; [exact Hq|]. wp_steps. wm. apply wp_bind_inv, Hrest. unfold unplug_pt. rewrite Ek. eauto.
  - apply wp_bind_inv, Hrest. unfold unplug_pt. by rewrite Ek.
Qed.

End Regions.

(** ** The loops *)
Section Loops.
  Context `{Host} (m : machine) (w : Z) (St : mem_static m w).

Abbreviation ab := (~ host_coop).
Abbreviation last := (m.(last_mem_idx)).

Lemma outside_refl regs : outside m regs regs.
Proof. done. Qed.

Lemma outside_insert regs regs' i r :
  1 <= i < last -> outside m (<[i := r]> regs) regs' -> outside m regs regs'.
Proof. intros Hi Ho j Hj. rewrite Ho by done. rewrite lookup_insert_ne; [done|]. intros ->. lia. Qed.

Lemma reg_full_not_free i r : 1 <= i < last -> reg_full m i r -> (r.(userspace_addr) =? 0) = false.
Proof.
  intros Hi (_ & _ & -> & _). pose proof (memreg_base_range m w St i ltac:(lia)).
  destruct (Z.eqb_spec (memreg_base m i) 0); [lia|done].
Qed.

(** Whether a slot is in use is read off its address. *)
Lemma plugged_lookup regs b t i :
  plugged m regs b t -> 1 <= i < last ->
  exists r, regs !! i = Some r
    /\ (if r.(userspace_addr) =? 0 then reg_free r /\ b < i < t
        else reg_full m i r /\ (i <= b \/ t <= i)).
Proof.
  intros Hp Hi. destruct (Hp i Hi) as (r & Hr & Hc). exists r. split; [done|].
  case_decide.
  - rewrite (reg_full_not_free i r Hi Hc). auto.
  - pose proof Hc as [_ ->]. cbn. split; [done|lia].
Qed.

Lemma plugged_full regs b t b' t' i r :
  plugged m regs b t -> reg_full m i r ->
  (forall j, 1 <= j < last -> j <> i -> (j <= b' \/ t' <= j) <-> (j <= b \/ t <= j)) ->
  (i <= b' \/ t' <= i) ->
  plugged m (<[i := r]> regs) b' t'.
Proof.
  intros Hp HF Heq Hi j Hj. destruct (decide (j = i)) as [->|Hne].
  - exists r. rewrite lookup_insert_eq. by rewrite decide_True.
  - destruct (Hp j Hj) as (rj & Hrj & Hc). exists rj. rewrite lookup_insert_ne by done.
    split; [done|]. specialize (Heq j Hj Hne). repeat case_decide; tauto.
Qed.

Lemma plugged_free regs b t b' t' i r :
  plugged m regs b t -> reg_free r ->
  (forall j, 1 <= j < last -> j <> i -> (j <= b' \/ t' <= j) <-> (j <= b \/ t <= j)) ->
  ~ (i <= b' \/ t' <= i) ->
  plugged m (<[i := r]> regs) b' t'.
Proof.
  intros Hp HF Heq Hi j Hj. destruct (decide (j = i)) as [->|Hne].
  - exists r. rewrite lookup_insert_eq. by rewrite decide_False.
  - destruct (Hp j Hj) as (rj & Hrj & Hc). exists rj. rewrite lookup_insert_ne by done.
    split; [done|]. specialize (Heq j Hj Hne). repeat case_decide; tauto.
Qed.

Lemma plugged_ext regs b t b' t' :
  plugged m regs b t ->
  (forall j, 1 <= j < last -> (j <= b' \/ t' <= j) <-> (j <= b \/ t <= j)) -> plugged m regs b' t'.
Proof.
  intros Hp Heq j Hj. destruct (Hp j Hj) as (r & Hr & Hc). exists r. split; [done|].
  specialize (Heq j Hj). repeat case_decide; tauto.
Qed.

Lemma wp_set_hierarchy regs p tr i r up (Q : unit -> machine -> Prop) :
  is_kvm m = true -> 1 <= i < last -> reg_full m i r ->
  (forall q, plug_pt m up i p q -> Q tt (with_mem m regs q tr)) ->
  wp ab (set_hierarchy r up) Q (with_mem m regs p tr).
Proof.
  intros Hk Hi HF HQ. unfold set_hierarchy. wp_steps. wm.
  destruct (hierarchy_defined m w St i r up p Hi HF) as [[q Hq] _].
  eapply wp_lift; [exact Hq|]. wp_steps. wm. apply HQ. unfold plug_pt. rewrite Hk. eauto.
Qed.

(** The four loops keep a predicate [J] of the last region done and the tables,
    if plugging (or unplugging) the next region keeps it. *)
Lemma brk_grow_spec (J : Z -> page_tables -> Prop) fuel new idx t regs p tr :
  (forall i p p', 0 <= i -> i + 1 < last -> memreg_top m i < new -> J i p -> plug_pt m false (i + 1) p p' -> J (i + 1) p') ->
  0 <= idx < last -> last - idx < Z.of_nat fuel -> new <= memreg_top m (last - 1) ->
  plugged m regs idx t -> J idx p ->
  wp ab (brk_grow fuel new idx)
    (fun res s => let '(idx', b', err) := res in
       exists regs' p' tr', s = with_mem m regs' p' tr' /\ plugged m regs' idx' t
         /\ outside m regs regs' /\ idx <= idx' < last
         /\ (err = 0 /\ b' = new /\ new <= memreg_top m idx' /\ (idx' = idx \/ memreg_top m (idx' - 1) < new)
             \/ err = ENOMEM /\ b' = m.(brk))
         /\ J idx' p')
    (with_mem m regs p tr).
Proof.
  intros HJ.
  revert idx regs p tr. induction fuel as [|fuel IH]; intros idx regs p tr Hidx Hf Hnew Hp Jp; [lia|].
  cbn [brk_grow]. wp_steps. wm.
  destruct (Z.ltb_spec (Z.min new (memreg_top m idx)) new) as [Hlt|Hge].
  2: { wp_steps. do 3 eexists. split; [reflexivity|]. split_and!; try done; lia. }
  assert (Hn : 1 <= idx + 1 < last).
  { split; [lia|]. destruct (Z.eq_dec idx (last - 1)) as [->|]; lia. }
  destruct (plugged_lookup regs idx t (idx + 1) Hp Hn) as (r & Hr & Hc).
  unfold km_region_allocated. wp_step. wp_step. eapply wp_vm_mem_reg; [exact Hr|]. wp_steps.
  destruct (r.(userspace_addr) =? 0); cbn [negb]; destruct Hc as [HF Hb].
  - wp_step. eapply wp_mono; [eapply (wp_alloc_region m w St); eauto|]. cbv beta.
    intros rc s (r' & p' & tr' & -> & Hrc). case_decide as Hz; destruct Hrc as [Hrc Hpt].
    + subst rc. cbn [negb Z.eqb].
      eapply wp_mono; [apply IH; try lia|].
      { eapply plugged_full; eauto; lia. }
      { apply (HJ idx p p'); auto; lia. }
      cbv beta. intros [[i' b'] e'] s' (regs' & p2 & tr2 & Hs & Hp' & Ho & Hi' & Hres & HJ').
      do 3 eexists. split; [exact Hs|]. split_and!; try done; try lia.
      * eapply outside_insert; eauto.
      * destruct Hres as [(?&?&?&Hor)|]; [left|by right]. split_and!; auto.
        destruct Hor as [->|]; [|by auto]. right. replace (idx + 1 - 1) with idx by lia. lia.
    + destruct (Z.eqb_spec rc 0); [done|]. cbn [negb]. wp_steps.
      do 3 eexists. split; [reflexivity|]. replace (idx + 1 - 1) with idx by lia.
      split_and!; try lia.
      * eapply plugged_free; eauto; lia.
      * eapply outside_insert; [|apply outside_refl]. lia.
      * by rewrite Hpt.
  - assert (Hp1 : plugged m regs (idx + 1) t) by (eapply plugged_ext; [exact Hp|lia]).
    assert (Hk : forall q, plug_pt m false (idx + 1) p q -> wp ab (brk_grow fuel new (idx + 1))
       (fun res s => let '(idx', b', err) := res in
          exists regs' p' tr', s = with_mem m regs' p' tr' /\ plugged m regs' idx' t
         /\ outside m regs regs' /\ idx <= idx' < last
         /\ (err = 0 /\ b' = new /\ new <= memreg_top m idx' /\ (idx' = idx \/ memreg_top m (idx' - 1) < new)
             \/ err = ENOMEM /\ b' = m.(brk)) /\ J idx' p') (with_mem m regs q tr)).
    { intros q Hq. eapply wp_mono; [apply IH; [lia|lia|lia|exact Hp1|apply (HJ idx p q); auto; lia]|].
      cbv beta. intros [[i' b'] e'] s' (regs' & p2 & tr2 & Hs & Hp' & Ho & Hi' & Hres & HJ').
      do 3 eexists. split; [exact Hs|]. split_and!; try done; try lia.
      destruct Hres as [(?&?&?&Hor)|]; [left|by right]. split_and!; auto.
      destruct Hor as [->|]; [|by auto]. right. replace (idx + 1 - 1) with idx by lia. lia. }
    destruct (is_kvm m) eqn:Ek; wp_steps; [|apply Hk; unfold plug_pt; by rewrite Ek].
    eapply wp_vm_mem_reg; [exact Hr|]. eapply wp_set_hierarchy; [done|exact Hn|exact HF|]. intros q Hq. by apply Hk.
Qed.

Lemma brk_shrink_spec (J : Z -> page_tables -> Prop) fuel new idx t i regs p tr :
  (forall j p p', i < j < last -> J j p -> (if j <? t then unplug_pt m false j p p' else p' = p) -> J (j - 1) p') ->
  gva_to_memreg_idx m (new - 1) = Some i -> 0 <= i <= idx -> idx < last ->
  idx - i < Z.of_nat fuel -> plugged m regs idx t -> J idx p ->
  wp ab (brk_shrink fuel new idx t)
    (fun _ s => exists regs' p' tr', s = with_mem m regs' p' tr' /\ plugged m regs' i t
                                     /\ outside m regs regs' /\ J i p')
    (with_mem m regs p tr).
Proof.
  intros HJ Hi Hr Hl. revert idx regs p tr Hr Hl.
  induction fuel as [|fuel IH]; intros idx regs p tr Hr Hl Hf Hp Jp; [lia|].
  cbn [brk_shrink]. wp_steps. wm. eapply wp_lift; [exact Hi|].
  destruct (Z.ltb_spec i idx) as [Hlt|Hge].
  2: { assert (idx = i) as -> by lia. wp_steps. do 3 eexists. split; [reflexivity|]. done. }
  destruct (plugged_lookup regs idx t idx Hp ltac:(lia)) as (r & Hrr & Hc).
  wp_step. pose proof (HJ idx p) as HJi. destruct (Z.ltb_spec idx t) as [Hit|Hit].
  - destruct (r.(userspace_addr) =? 0); destruct Hc as [HF Hb]; [lia|].
    eapply wp_mono; [eapply (wp_free_region m w St); eauto; lia|]. cbv beta.
    intros _ s (r' & p' & tr' & -> & HFr & Hpt).
    eapply wp_mono; [apply IH; try lia|].
    { eapply plugged_free; eauto; lia. }
    { apply HJi; auto; lia. }
    cbv beta. intros _ s' (regs' & p2 & tr2 & Hs & Hp' & Ho & HJ'). do 3 eexists.
    split; [exact Hs|]. split; [done|]. split; [|done]. eapply outside_insert; [|exact Ho]. lia.
  - wp_steps. eapply IH; try lia; [eapply plugged_ext; [exact Hp|]; lia|]. apply HJi; auto; lia.
Qed.

(** Outcome of tbrk_grow. *)
Definition tgrow_post (J : Z -> page_tables -> Prop) (new idx b : Z) (regs : gmap Z kvm_mem_reg) (res : Z * Z * Z) (s : machine) : Prop :=
  let '(idx', b', err) := res in
  exists regs' p' tr', s = with_mem m regs' p' tr' /\ plugged m regs' b idx'
    /\ outside m regs regs' /\ 1 <= idx' <= idx
    /\ (err = 0 /\ b' = new /\ memreg_base m idx' + (2 ^ 39 - 2 ^ w) <= new
          /\ (idx' = idx \/ new < memreg_base m (idx' + 1) + (2 ^ 39 - 2 ^ w))
        \/ err = ENOMEM /\ b' = m.(tbrk) /\ new < memreg_base m idx + (2 ^ 39 - 2 ^ w))
    /\ J idx' p'.

Lemma tgrow_post_step J new idx b regs regs1 res s :
  tgrow_post J new (idx - 1) b regs1 res s ->
  (forall regs', outside m regs1 regs' -> outside m regs regs') ->
  new < memreg_base m idx + (2 ^ 39 - 2 ^ w) -> tgrow_post J new idx b regs res s.
Proof.
  destruct res as [[i' b'] e'].
  intros (regs' & p2 & tr2 & Hs & Hp' & Ho & Hi' & Hres & HJ) Hout Hlt.
  exists regs', p2, tr2. split_and!; auto; try lia.
  destruct Hres as [(?&?&?&Hor)|(?&?&_)]; [left|by right]. split_and!; auto.
  destruct Hor as [->|]; [|by auto]. right. replace (idx - 1 + 1) with idx by lia. lia.
Qed.

Lemma tbrk_grow_spec (J : Z -> page_tables -> Prop) fuel new idx b regs p tr :
  (forall i p p', 1 < i <= last -> J i p -> plug_pt m true (i - 1) p p' -> J (i - 1) p') ->
  1 <= idx <= last -> idx < Z.of_nat fuel -> 2 ^ 21 + (2 ^ 39 - 2 ^ w) <= new ->
  plugged m regs b idx -> J idx p ->
  wp ab (tbrk_grow fuel new idx) (tgrow_post J new idx b regs) (with_mem m regs p tr).
Proof.
  intros HJ. pose proof (static_geom m w St) as G.
  revert idx regs p tr. induction fuel as [|fuel IH]; intros idx regs p tr Hidx Hf Hnew Hp Jp; [lia|].
  cbn [tbrk_grow]. wp_steps. wm. pose proof (memreg_base_range m w St idx ltac:(lia)) as Hbr.
  pose proof (memreg_size_pos m w St idx ltac:(lia)) as Hsz.
  eapply wp_lift; [apply (gpa_to_upper_gva_eq m w G); change GUEST_MEM_START_VA with (2 ^ 21); lia|].
  destruct (Z.ltb_spec new (Z.max new (memreg_base m idx + (2 ^ 39 - 2 ^ w)))) as [Hlt|Hge].
  2: { wp_steps. do 3 eexists. split; [reflexivity|]. split_and!; try done; lia. }
  assert (Hn : 1 <= idx - 1 < last).
  { split; [|lia]. destruct (Z.eq_dec idx 1) as [->|]; [|lia].
    rewrite (memreg_base_low m w G) in Hlt by (destruct G; lia). change (2 ^ (20 + 1)) with (2 ^ 21) in Hlt. lia. }
  destruct (plugged_lookup regs b idx (idx - 1) Hp Hn) as (r & Hr & Hc).
  unfold km_region_allocated. wp_step. wp_step. eapply wp_vm_mem_reg; [exact Hr|]. wp_steps.
  destruct (r.(userspace_addr) =? 0); cbn [negb]; destruct Hc as [HF Hb].
  - wp_step. eapply wp_mono; [eapply (wp_alloc_region m w St); eauto|]. cbv beta.
    intros rc s (r' & p' & tr' & -> & Hrc). case_decide as Hz; destruct Hrc as [Hrc Hpt].
    + subst rc. cbn [negb Z.eqb].
      eapply wp_mono; [apply IH; [lia|lia|lia|eapply plugged_full; eauto; lia|apply (HJ idx p p'); auto; lia]|].
      intros res s' Hres. eapply tgrow_post_step; [exact Hres| |lia].
      intros regs'. apply outside_insert. lia.
    + destruct (Z.eqb_spec rc 0); [done|]. cbn [negb]. wp_steps.
      do 3 eexists. split; [reflexivity|]. replace (idx - 1 + 1) with idx by lia.
      split_and!; try lia.
      * eapply plugged_free; eauto; lia.
      * eapply outside_insert; [|apply outside_refl]. lia.
      * by rewrite Hpt.
  - assert (Hp1 : plugged m regs b (idx - 1)) by (eapply plugged_ext; [exact Hp|lia]).
    assert (Hk : forall q, plug_pt m true (idx - 1) p q ->
      wp ab (tbrk_grow fuel new (idx - 1)) (tgrow_post J new idx b regs) (with_mem m regs q tr)).
    { intros q Hq. eapply wp_mono; [apply IH; [lia|lia|lia|exact Hp1|apply (HJ idx p q); auto; lia]|].
      intros res s' Hres. eapply tgrow_post_step; [exact Hres|done|lia]. }
    destruct (is_kvm m) eqn:Ek; wp_steps; [|apply Hk; unfold plug_pt; by rewrite Ek].
    eapply wp_vm_mem_reg; [exact Hr|]. eapply wp_set_hierarchy; [done|exact Hn|exact HF|]. intros q Hq. by apply Hk.
Qed.

Lemma tbrk_shrink_spec (J : Z -> page_tables -> Prop) fuel new idx b i regs p tr :
  (forall j p p', 1 <= j < i -> J j p -> (if b <? j then unplug_pt m true j p p' else p' = p) -> J (j + 1) p') ->
  gva_to_memreg_idx m new = Some i -> 1 <= idx -> idx <= i <= last ->
  i - idx < Z.of_nat fuel -> plugged m regs b idx -> J idx p ->
  wp ab (tbrk_shrink fuel new idx b)
    (fun _ s => exists regs' p' tr', s = with_mem m regs' p' tr' /\ plugged m regs' b i
                                     /\ outside m regs regs' /\ J i p')
    (with_mem m regs p tr).
Proof.
  intros HJ Hi. revert idx regs p tr.
  induction fuel as [|fuel IH]; intros idx regs p tr H1 Hr Hf Hp Jp; [lia|].
  cbn [tbrk_shrink]. wp_steps. wm. eapply wp_lift; [exact Hi|].
  destruct (Z.ltb_spec idx i) as [Hlt|Hge].
  2: { assert (idx = i) as -> by lia. wp_steps. do 3 eexists. split; [reflexivity|]. done. }
  destruct (plugged_lookup regs b idx idx Hp ltac:(lia)) as (r & Hrr & Hc).
  wp_step. pose proof (HJ idx p) as HJi. destruct (Z.ltb_spec b idx) as [Hit|Hit].
  - destruct (r.(userspace_addr) =? 0); destruct Hc as [HF Hb]; [lia|].
    eapply wp_mono; [eapply (wp_free_region m w St); eauto; lia|]. cbv beta.
    intros _ s (r' & p' & tr' & -> & HFr & Hpt).
    eapply wp_mono; [apply IH; [lia|lia|lia|eapply plugged_free; eauto; lia|apply HJi; auto; lia]|].
    cbv beta. intros _ s' (regs' & p2 & tr2 & Hs & Hp' & Ho & HJ'). do 3 eexists.
    split; [exact Hs|]. split; [done|]. split; [|done]. eapply outside_insert; [|exact Ho]. lia.
  - wp_steps. eapply IH; try lia; [eapply plugged_ext; [exact Hp|]; lia|]. apply HJi; auto; lia.
Qed.

(** *** Indices of the breaks *)
Lemma idx_brk_spec b :
  2 ^ 21 <= b <= 2 ^ w - 2 ^ 30 ->
  exists i, gva_to_memreg_idx m (b - 1) = Some i /\ idx_brk m b = i /\ 0 <= i < last
            /\ memreg_base m i < b <= memreg_top m i.
Proof.
  intros Hb. pose proof (static_geom m w St) as G. pose proof G as (Hw & Hmax & _ & _ & Hlast).
  assert (2 ^ 31 <= 2 ^ w) by (apply Z.pow_le_mono_r; lia).
  destruct (gpa_index m w G (b - 1) (b - 1)) as (i & Hi & Hr & Hbase).
  - apply (gva_to_gpa_low m w G). change GUEST_MEM_START_VA with (2 ^ 21). lia.
  - lia.
  - exists i. unfold idx_brk. rewrite Hi. split_and!; try done; try lia.
    destruct (Z.eq_dec i last) as [->|]; [|lia].
    rewrite (memreg_base_high m w G) in Hbase by lia. rewrite Hlast in Hbase.
    replace (21 + _) with 21 in Hbase by lia. lia.
Qed.

Lemma idx_tbrk_spec t :
  2 ^ 39 - 2 ^ w + 2 ^ 21 <= t <= GUEST_MEM_TOP_VA ->
  exists i, gva_to_memreg_idx m t = Some i /\ idx_tbrk m t = i /\ 1 <= i <= last
            /\ memreg_base m i <= t - (2 ^ 39 - 2 ^ w) < memreg_top m i.
Proof.
  intros Ht. pose proof (static_geom m w St) as G. pose proof G as (Hw & Hmax & _ & _ & Hlast).
  change GUEST_MEM_TOP_VA with (2 ^ 39 - 2 ^ 21) in *.
  destruct (gpa_index m w G t (t - (2 ^ 39 - 2 ^ w))) as (i & Hi & Hr & Hbase).
  - apply (gva_to_gpa_high m w G). change GUEST_MEM_TOP_VA with (2 ^ 39 - 2 ^ 21). lia.
  - lia.
  - exists i. unfold idx_tbrk. rewrite Hi. split_and!; try done; try lia.
    destruct (Z.eq_dec i 0) as [->|]; [|lia].
    rewrite (memreg_top_low m w G) in Hbase by lia. change (2 ^ (21 + 0)) with (2 ^ 21) in Hbase. lia.
Qed.

End Loops.

(** ** The operations *)
Section Main.
  Context `{Host} (m : machine) (w : Z) (I : mem_inv m w).

Abbreviation ab := (~ host_coop).

Lemma last_small : m.(last_mem_idx) <= 35.
Proof. pose proof (static_geom m w (mi_static m w I)) as (?&?&?&?&Hl). lia. Qed.

(** In physical terms the two breaks are a GiB boundary apart. *)
Lemma apart_bounds b t :
  2 ^ 21 <= b -> t <= GUEST_MEM_TOP_VA ->
  rounddown b PDPTE_REGION < rounddown (t - (2 ^ 39 - 2 ^ w)) PDPTE_REGION ->
  b <= 2 ^ w - 2 ^ 30 /\ 2 ^ 30 <= t - (2 ^ 39 - 2 ^ w) <= 2 ^ w - 2 ^ 21 /\ b < t - (2 ^ 39 - 2 ^ w).
Proof.
  rewrite PDPTE_REGION_eq. unfold rounddown. change GUEST_MEM_TOP_VA with (2 ^ 39 - 2 ^ 21).
  intros Hb Ht Hr. pose proof (static_geom m w (mi_static m w I)) as (Hw & _).
  assert (2 ^ w = 2 ^ (w - 30) * 2 ^ 30) as Hp by (rewrite <- Z.pow_add_r by lia; f_equal; lia).
  set (x := 2 ^ (w - 30)) in *. rewrite Hp in *. clearbody x. split_and!; dlia.
Qed.

Lemma inv_idx_order :
  idx_brk m m.(brk) < m.(last_mem_idx) /\ 0 <= idx_brk m m.(brk)
  /\ 1 <= idx_tbrk m m.(tbrk) <= m.(last_mem_idx)
  /\ gva_to_memreg_idx m (m.(brk) - 1) = Some (idx_brk m m.(brk))
  /\ gva_to_memreg_idx m m.(tbrk) = Some (idx_tbrk m m.(tbrk)).
Proof.
  pose proof (mi_static m w I) as St. destruct (mi_brk m w I) as [B1 B2 B3].
  change GUEST_MEM_START_VA with (2 ^ 21) in *.
  pose proof (apart_bounds m.(brk) m.(tbrk) B1 ltac:(lia) B3) as (Hb & Ht & _).
  destruct (idx_brk_spec m w St m.(brk) ltac:(lia)) as (i & Hi & -> & Hr & _).
  destruct (idx_tbrk_spec m w St m.(tbrk) ltac:(lia)) as (j & Hj & -> & Hr' & _).
  split_and!; try done; lia.
Qed.

Lemma brk_inv_set_brk regs p tr b :
  2 ^ 21 <= b ->
  rounddown b PDPTE_REGION < rounddown (m.(tbrk) - (2 ^ 39 - 2 ^ w)) PDPTE_REGION ->
  plugged m regs (idx_brk m b) (idx_tbrk m m.(tbrk)) ->
  mem_inv (set_brk b (with_mem m regs p tr)) w.
Proof.
  intros Hb Hr Hp. destruct I as [[G P1] [B1 B2 B3] _]. split.
  - split; [exact G|exact P1].
  - split; [exact Hb|exact B2|exact Hr].
  - exact Hp.
Qed.

Lemma brk_inv_set_tbrk regs p tr t :
  2 ^ 39 - 2 ^ w + 2 ^ 21 <= t <= GUEST_MEM_TOP_VA ->
  rounddown m.(brk) PDPTE_REGION < rounddown (t - (2 ^ 39 - 2 ^ w)) PDPTE_REGION ->
  plugged m regs (idx_brk m m.(brk)) (idx_tbrk m t) ->
  mem_inv (set_tbrk t (with_mem m regs p tr)) w.
Proof.
  intros Hb Hr Hp. destruct I as [[G P1] [B1 B2 B3] _]. split.
  - split; [exact G|exact P1].
  - split; [exact B1|exact Hb|exact Hr].
  - exact Hp.
Qed.

Definition brk_post (new r : Z) (s : machine) : Prop :=
  mem_inv s w
  /\ (exists regs p tr, s = set_brk s.(brk) (with_mem m regs p tr) /\ outside m m.(vm_mem_regs) regs)
  /\ (new = 0 /\ r = m.(brk) /\ s = m
      \/ new <> 0 /\ r = new /\ s.(brk) = new
      \/ new <> 0 /\ r = neg_errno ENOMEM /\ s.(brk) = m.(brk)).

Definition tbrk_post (new r : Z) (s : machine) : Prop :=
  mem_inv s w
  /\ (exists regs p tr, s = set_tbrk s.(tbrk) (with_mem m regs p tr) /\ outside m m.(vm_mem_regs) regs)
  /\ (new = 0 /\ r = m.(tbrk) /\ s = m
      \/ new <> 0 /\ r = new /\ s.(tbrk) = new
      \/ new <> 0 /\ r = neg_errno ENOMEM /\ s.(tbrk) = m.(tbrk)
         /\ ~ (m.(tbrk) <= new <= GUEST_MEM_TOP_VA)).

Lemma brk_post_same new r :
  (new = 0 /\ r = m.(brk)) \/ (new <> 0 /\ r = neg_errno ENOMEM) -> brk_post new r m.
Proof.
  intros Hr. split; [exact I|]. split; [|destruct Hr as [[]|[]]; auto].
  exists m.(vm_mem_regs), m.(pt), m.(trace). rewrite with_mem_id. split; [by destruct m|done].
Qed.

Lemma tbrk_post_same new r :
  (new = 0 /\ r = m.(tbrk))
  \/ (new <> 0 /\ r = neg_errno ENOMEM /\ ~ (m.(tbrk) <= new <= GUEST_MEM_TOP_VA)) ->
  tbrk_post new r m.
Proof.
  intros Hr. split; [exact I|]. split; [|destruct Hr as [[]|(?&?&?)]; auto 10].
  exists m.(vm_mem_regs), m.(pt), m.(trace). rewrite with_mem_id. split; [by destruct m|done].
Qed.

(** The tail of km_mem_brk: page tables, protection, the new break; [K] says what
    is known of the tables at a break. *)
Lemma brk_finish (K : Z -> page_tables -> Prop) b new r regs p tr oldpage newpage (k1 k2 : hostcall) :
  K b (if is_kvm m then fixup_bottom_page_tables m.(brk) b p else p) ->
  2 ^ 21 <= b -> rounddown b PDPTE_REGION < rounddown (m.(tbrk) - (2 ^ 39 - 2 ^ w)) PDPTE_REGION ->
  plugged m regs (idx_brk m b) (idx_tbrk m m.(tbrk)) -> outside m m.(vm_mem_regs) regs ->
  new <> 0 -> (r = new /\ b = new \/ r = neg_errno ENOMEM /\ b = m.(brk)) ->
  wp ab ((if is_kvm m then modify (fun m => set_pt (fixup_bottom_page_tables m.(brk) b m.(pt)) m) else ret tt) ;;;
         (if oldpage <? newpage then let* _ := hcall k1 in ret tt
          else if newpage <? oldpage then let* _ := hcall k2 in ret tt else ret tt) ;;;
         modify (set_brk b) ;;; ret r)
    (fun r s => brk_post new r s /\ K s.(brk) s.(pt)) (with_mem m regs p tr).
Proof.
  intros HK Hb Hr Hp Ho Hn Hres. wp_step.
  assert (Hfin : forall q t, K b q -> wp ab (modify (set_brk b) ;;; ret r)
    (fun r s => brk_post new r s /\ K s.(brk) s.(pt)) (with_mem m regs q t)).
  { intros q t Hq. wp_steps. split; [|exact Hq]. split; [by apply brk_inv_set_brk|]. split.
    - exists regs, q, t. done.
    - destruct Hres as [[-> ->]|[-> ->]]; auto. }
  assert (Hmid : forall q, K b q -> wp ab ((if oldpage <? newpage then let* _ := hcall k1 in ret tt
          else if newpage <? oldpage then let* _ := hcall k2 in ret tt else ret tt) ;;;
         modify (set_brk b) ;;; ret r) (fun r s => brk_post new r s /\ K s.(brk) s.(pt)) (with_mem m regs q tr)).
  { intros q Hq. wp_step. destruct (oldpage <? newpage); [|destruct (newpage <? oldpage)];
      wp_steps; try (apply wp_hcall; wp_steps; wm); exact (Hfin _ _ Hq). }
  destruct (is_kvm m); [apply wp_modify; rewrite with_mem_set_pt|apply wp_ret]; by apply Hmid.
Qed.

(** km_mem_brk with a property of the page tables: [J1] through the growing loop,
    [J2] through the shrinking one, [K] at the end. *)
Section BrkTables.
  Context (J1 J2 K : Z -> page_tables -> Prop) (new : Z).
  Context (HK : K m.(brk) m.(pt)) (HJ : J1 (idx_brk m m.(brk)) m.(pt)).
  Context (HJ1 : forall i p p', idx_brk m m.(brk) <= i -> i + 1 < m.(last_mem_idx) -> memreg_top m i < new ->
    new <= 2 ^ w - 2 ^ 30 -> J1 i p -> plug_pt m false (i + 1) p p' -> J1 (i + 1) p').
  Context (HJ12 : forall i p, idx_brk m m.(brk) <= i < m.(last_mem_idx) -> J1 i p -> J2 i p).
  Context (HJ2 : forall i p p', 0 < i < m.(last_mem_idx) -> J2 i p ->
    (if i <? idx_tbrk m m.(tbrk) then unplug_pt m false i p p' else p' = p) -> J2 (i - 1) p').
  Context (HJK : forall b p, 2 ^ 21 <= b ->
    rounddown b PDPTE_REGION < rounddown (m.(tbrk) - (2 ^ 39 - 2 ^ w)) PDPTE_REGION ->
    J2 (idx_brk m b) p -> K b (if is_kvm m then fixup_bottom_page_tables m.(brk) b p else p)).

Lemma km_mem_brk_gen :
  new = 0 \/ GUEST_MEM_START_VA <= new ->
  wp ab (km_mem_brk new) (fun r s => brk_post new r s /\ K s.(brk) s.(pt)) m.
Proof.
  intros Hn. pose proof (mi_static m w I) as St. pose proof (static_geom m w St) as G.
  pose proof G as (Hw & Hmax & _ & _ & Hlast). destruct (mi_brk m w I) as [B1 B2 B3].
  pose proof last_small as HL. pose proof inv_idx_order as (O1 & O2 & O3 & O4 & O5).
  change GUEST_MEM_START_VA with (2 ^ 21) in *.
  unfold km_mem_brk. wp_steps. destruct (Z.eqb_spec new 0) as [->|Hnz].
  { wp_steps. split; [apply brk_post_same; auto|done]. }
  unfold GUEST_MEM_ZONE_SIZE_VA. rewrite Hmax.
  destruct (Z.leb_spec (2 ^ w) new) as [|Hlt]; [wp_steps; split; [apply brk_post_same; auto|done]|].
  wp_step. eapply wp_lift; [apply (gva_to_gpa_low m w G); change GUEST_MEM_START_VA with (2 ^ 21); lia|].
  wp_step. eapply wp_lift; [apply (gva_to_gpa_high m w G); lia|].
  match goal with |- context [?x <=? ?y] => destruct (Z.leb_spec x y) as [|Hap] end;
    [wp_steps; split; [apply brk_post_same; auto|done]|].
  pose proof (apart_bounds new m.(tbrk) ltac:(lia) ltac:(lia) Hap) as (Hnb & _).
  destruct (idx_brk_spec m w St new ltac:(lia)) as (i & Hi & Hie & Hir & Hit).
  wp_step. eapply wp_lift; [exact O4|].
  assert (Htop : new <= memreg_top m (m.(last_mem_idx) - 1)).
  { rewrite Hlast, (memreg_top_high m w G) by lia. replace (20 + _) with 21 by lia. lia. }
  wp_step. pose proof (brk_grow_spec m w St (fun i p => idx_brk m m.(brk) <= i /\ J1 i p)
    loop_fuel new (idx_brk m m.(brk)) (idx_tbrk m m.(tbrk)) m.(vm_mem_regs) m.(pt) m.(trace)) as Hg.
  rewrite with_mem_id in Hg.
  eapply wp_mono; [apply Hg; [|lia|unfold loop_fuel; lia|exact Htop|exact (mi_plugged m w I)|by split]|].
  { intros i0 p p' _ Hi1 Ht1 [Hi0 HJp] Hpl. split; [lia|]. by apply (HJ1 i0 p). }
  cbv beta. intros [[idx b] err] s (regs & p & tr & -> & Hp & Ho & Hidx & Hres & [_ Jp]).
  wp_step. eapply wp_lift; [exact O5|]. wp_step.
  assert (Hshrink : exists ib, gva_to_memreg_idx m (b - 1) = Some ib /\ idx_brk m b = ib /\ 0 <= ib <= idx
     /\ 2 ^ 21 <= b /\ rounddown b PDPTE_REGION < rounddown (m.(tbrk) - (2 ^ 39 - 2 ^ w)) PDPTE_REGION).
  { destruct Hres as [(-> & -> & Htp & _)|(-> & ->)].
    - exists i. split_and!; try done; try lia.
      destruct (Z_le_gt_dec i idx); [lia|]. pose proof (memreg_top_le_base m w G idx i). lia.
    - exists (idx_brk m m.(brk)). split_and!; try done; lia. }
  destruct Hshrink as (ib & Hib & Hibe & Hibr & Hb21 & Hbap).
  eapply wp_mono; [apply (brk_shrink_spec m w St J2 _ _ _ _ ib);
    [intros j q q' Hj; apply HJ2; lia|done|lia|lia|unfold loop_fuel; lia|exact Hp|apply HJ12; [lia|done]]|].
  cbv beta. intros _ s (regs2 & p2 & tr2 & -> & Hp2 & Ho2 & Jp2).
  apply brk_finish; auto; [apply HJK; auto; by rewrite Hibe|by rewrite Hibe| |].
  - intros j Hj. rewrite Ho2 by done. by apply Ho.
  - destruct Hres as [(-> & -> & _)|(-> & ->)]; auto.
Qed.

End BrkTables.

Lemma km_mem_brk_spec new :
  new = 0 \/ GUEST_MEM_START_VA <= new -> wp ab (km_mem_brk new) (brk_post new) m.
Proof.
  intros Hn. eapply wp_mono; [apply (km_mem_brk_gen (fun _ _ => True) (fun _ _ => True) (fun _ _ => True)); done|].
  by intros r s [? _].
Qed.


(** The same for km_mem_tbrk. *)
Section TbrkTables.
  Context (J : page_tables -> Prop) (K : Z -> page_tables -> Prop) (new : Z).
  Context (HK : K m.(tbrk) m.(pt)) (HJ : J m.(pt)).
  Context (HJ1 : forall i p p', 1 <= i < m.(last_mem_idx) -> J p -> plug_pt m true i p p' -> J p').
  Context (HJ2 : forall i p p', 1 <= i < m.(last_mem_idx) -> idx_brk m m.(brk) < i -> J p -> unplug_pt m true i p p' -> J p').
  Context (HJK : forall t p, 2 ^ 39 - 2 ^ w + 2 ^ 21 <= t <= GUEST_MEM_TOP_VA ->
    rounddown m.(brk) PDPTE_REGION < rounddown (t - (2 ^ 39 - 2 ^ w)) PDPTE_REGION ->
    J p -> K t (if is_kvm m then fixup_top_page_tables m.(tbrk) t p else p)).

Lemma km_mem_tbrk_gen :
  new = 0 \/ new <> GUEST_VA_OFFSET m ->
  wp ab (km_mem_tbrk new) (fun r s => tbrk_post new r s /\ K s.(tbrk) s.(pt)) m.
Proof.
  intros Hn. pose proof (mi_static m w I) as St. pose proof (static_geom m w St) as G.
  pose proof G as (Hw & Hmax & _ & _ & Hlast). destruct (mi_brk m w I) as [B1 B2 B3].
  pose proof last_small as HL. pose proof inv_idx_order as (O1 & O2 & O3 & O4 & O5).
  rewrite (va_offset_eq m w G) in Hn. change GUEST_MEM_START_VA with (2 ^ 21) in *.
  pose proof (apart_bounds m.(brk) m.(tbrk) B1 ltac:(lia) B3) as (Hbw & _).
  assert (2 ^ 31 <= 2 ^ w) by (apply Z.pow_le_mono_r; lia).
  unfold km_mem_tbrk. wp_steps. rewrite (va_offset_eq m w G). destruct (Z.eqb_spec new 0) as [->|Hnz].
  { wp_steps. split; [apply tbrk_post_same; auto|done]. }
  destruct (Z.ltb_spec GUEST_MEM_TOP_VA new) as [|Hlt]; [wp_steps; split; [apply tbrk_post_same; right; split_and!; auto; lia|done]|].
  destruct (Z.ltb_spec new (2 ^ 39 - 2 ^ w)) as [|Hlt2]; [wp_steps; split; [apply tbrk_post_same; right; split_and!; auto; lia|done]|]. cbn [orb].
  wp_step. eapply wp_lift; [apply (gva_to_gpa_low m w G); change GUEST_MEM_START_VA with (2 ^ 21); lia|].
  wp_step. eapply wp_lift; [apply (gva_to_gpa_high m w G); lia|].
  match goal with |- context [?x <=? ?y] => destruct (Z.leb_spec x y) as [Hna|Hap] end.
  { wp_steps. split; [|done]. apply tbrk_post_same. right. split_and!; auto. intros Hup. rewrite PDPTE_REGION_eq in *.
    pose proof (rounddown_mono (m.(tbrk) - (2 ^ 39 - 2 ^ w)) (new - (2 ^ 39 - 2 ^ w)) (2 ^ 30)). lia. }
  pose proof (apart_bounds m.(brk) new B1 ltac:(lia) Hap) as (_ & Hnb & _).
  destruct (idx_tbrk_spec m w St new ltac:(lia)) as (i & Hi & Hie & Hir & Hit).
  wp_step. eapply wp_lift; [exact O5|].
  wp_step. pose proof (tbrk_grow_spec m w St (fun _ p => J p) loop_fuel new (idx_tbrk m m.(tbrk)) (idx_brk m m.(brk)) m.(vm_mem_regs) m.(pt) m.(trace)) as Hg.
  rewrite with_mem_id in Hg.
  eapply wp_mono; [apply Hg; [|exact O3|unfold loop_fuel; lia|lia|exact (mi_plugged m w I)|done]|].
  { intros i0 q q' Hi0 HJq Hpl. apply (HJ1 (i0 - 1) q q'); [lia|done|done]. }
  cbv beta. intros [[idx b] err] s (regs & p & tr & -> & Hp & Ho & Hidx & Hres & Jp).
  wp_step. eapply wp_lift; [exact O4|]. wp_step.
  assert (Hshrink : exists ib, gva_to_memreg_idx m b = Some ib /\ idx_tbrk m b = ib
     /\ idx <= ib <= m.(last_mem_idx) /\ 2 ^ 39 - 2 ^ w + 2 ^ 21 <= b <= GUEST_MEM_TOP_VA
     /\ rounddown m.(brk) PDPTE_REGION < rounddown (b - (2 ^ 39 - 2 ^ w)) PDPTE_REGION).
  { destruct Hres as [(-> & -> & Htp & _)|(-> & -> & _)].
    - exists i. split_and!; try done; try lia.
      destruct (Z_le_gt_dec idx i); [lia|]. pose proof (memreg_top_le_base m w G i idx). lia.
    - exists (idx_tbrk m m.(tbrk)). split_and!; try done; lia. }
  destruct Hshrink as (ib & Hib & Hibe & Hibr & Hb21 & Hbap).
  eapply wp_mono; [apply (tbrk_shrink_spec m w St (fun _ p => J p) _ _ _ _ ib);
    [|done|lia|lia|unfold loop_fuel; lia|exact Hp|done]|].
  { intros j q q' Hj HJq. destruct (Z.ltb_spec (idx_brk m m.(brk)) j); [|by intros ->].
    apply (HJ2 j q q'); auto; lia. }
  cbv beta. intros _ s (regs2 & p2 & tr2 & -> & Hp2 & Ho2 & Jp2).
  assert (Ho3 : outside m m.(vm_mem_regs) regs2) by (intros j Hj; rewrite Ho2 by done; by apply Ho).
  wp_step. assert (Hfin : forall q t, K b q -> wp ab (modify (set_tbrk b) ;;; ret (if err =? 0 then b else neg_errno err))
                            (fun r s => tbrk_post new r s /\ K s.(tbrk) s.(pt)) (with_mem m regs2 q t)).
  { intros q t Hq. wp_steps. split; [|exact Hq]. split; [apply brk_inv_set_tbrk; auto; by rewrite Hibe|]. split.
    - exists regs2, q, t. done.
    - destruct Hres as [(-> & -> & _)|(-> & -> & Hbig)]; [auto|]. right; right. split_and!; auto.
      intros Hup. destruct (idx_tbrk_spec m w St m.(tbrk) ltac:(lia)) as (j & _ & Hj & _ & Hjb).
      rewrite Hj in Hbig. lia. }
  pose proof (HJK b p2 Hb21 Hbap Jp2) as HKb.
  destruct (is_kvm m); [apply wp_modify; rewrite with_mem_set_pt|apply wp_ret]; by apply Hfin.
Qed.

End TbrkTables.

Lemma km_mem_tbrk_spec new :
  new = 0 \/ new <> GUEST_VA_OFFSET m -> wp ab (km_mem_tbrk new) (tbrk_post new) m.
Proof.
  intros Hn. eapply wp_mono; [apply (km_mem_tbrk_gen (fun _ => True) (fun _ _ => True)); done|].
  by intros r s [? _].
Qed.

End Main.

(** ** The interface is met *)
Lemma mem_inv_frame m s w :
  mem_inv m w ->
  s = with_mem m s.(vm_mem_regs) s.(pt) s.(trace) \/
  (exists l, s = set_mmaps_free l m) \/ (exists l, s = set_mmaps_busy l m) ->
  s.(vm_mem_regs) = m.(vm_mem_regs) -> mem_inv s w.
Proof.
  intros [[G P1] [B1 B2 B3] Hp] Hs Hr.
  assert (Hg : forall s', s' = with_mem m m.(vm_mem_regs) s'.(pt) s'.(trace) \/
      (exists l, s' = set_mmaps_free l m) \/ (exists l, s' = set_mmaps_busy l m) -> mem_inv s' w).
  { intros s' [->|[[l ->]|[l ->]]]; (split; [split; [exact G|exact P1]|split; assumption|exact Hp]). }
  apply Hg. destruct Hs as [Hs|Hs]; [left|by right]. by rewrite Hr in Hs.
Qed.

#[export] Instance mem_top_break `{Host} : TopBreak.
Proof.
  refine {| km_mem_tbrk_op := km_mem_tbrk;
            tb_inv := fun m => exists w, mem_inv m w;
            tb_exit := ~ host_coop |}.
  - intros m. unfold km_mem_tbrk. done.
  - intros m t [w I] Ht Ho. eapply wp_mono; [apply (km_mem_tbrk_spec m w I); auto|].
    intros r s (Is & (regs & p & tr & Hs & _) & Hr). split; [by exists w|]. split.
    + rewrite Hs. by split.
    + destruct Hr as [(?&_)|[(_&?&?)|(_&?&?)]]; auto; done.
  - intros m [w I]. pose proof (static_geom m w (mi_static m w I)) as G.
    rewrite (va_offset_eq m w G). destruct (mi_brk m w I) as [_ B2 _].
    pose proof (pow_w_bounds m w G). lia.
  - intros m l [w I]. exists w. eapply mem_inv_frame; eauto.
  - intros m l [w I]. exists w. eapply mem_inv_frame; eauto.
  - intros m l [w I]. exists w. eapply mem_inv_frame; eauto.
Defined.

(** ** Properties *)

Lemma boot_machine_inv ty w : 31 <= w <= 39 -> mem_inv (boot_machine ty w) w.
Proof.
  intros Hw. set (m := boot_machine ty w).
  assert (St : mem_static m w) by (split; [unfold geom_ok; cbn; split_and!; lia|by right]).
  pose proof (static_geom m w St) as G. assert (2 ^ 31 <= 2 ^ w) by (apply Z.pow_le_mono_r; lia).
  assert (2 ^ w <= 2 ^ 39) by (apply Z.pow_le_mono_r; lia).
  assert (B : brk_inv m w).
  { split; cbn.
    - done.
    - change GUEST_MEM_START_VA with (2 ^ 21). change GUEST_MEM_TOP_VA with (2 ^ 39 - 2 ^ 21). lia.
    - rewrite PDPTE_REGION_eq. unfold rounddown. change GUEST_MEM_TOP_VA with (2 ^ 39 - 2 ^ 21).
      change (GUEST_MEM_START_VA / 2 ^ 30) with 0. dlia. }
  split; [done|done|]. intros i Hi.
  assert (Hir : 1 <= i < 2 * (w - 22) + 1) by exact Hi.
  exists kvm_mem_reg_zero. split.
  - cbn. rewrite lookup_insert_ne by (unfold KM_RSRV_MEMSLOT; lia).
    apply elem_of_list_to_map_1.
    + rewrite <- list_fmap_compose. cbn. rewrite list_fmap_id. apply NoDup_seqZ.
    + apply list_elem_of_fmap. exists i. split; [done|]. apply elem_of_seqZ. unfold KM_MEM_SLOTS. lia.
  - destruct (idx_brk_spec m w St m.(brk)) as (b & _ & -> & Hb & Hb2).
    { cbn. change GUEST_MEM_START_VA with (2 ^ 21). lia. }
    destruct (idx_tbrk_spec m w St m.(tbrk)) as (t & _ & -> & Ht & Ht2).
    { cbn. change GUEST_MEM_TOP_VA with (2 ^ 39 - 2 ^ 21). lia. }
    rewrite decide_False; [done|]. intros [Hc|Hc].
    + pose proof (memreg_base_range m w St i ltac:(cbn; lia)) as [Hbr _].
      assert (memreg_base m i <= memreg_base m b).
      { destruct (Z.eq_dec i b) as [->|]; [lia|]. pose proof (memreg_top_le_base m w G i b).
        pose proof (memreg_base_lt_top m w G i). cbn in *. lia. }
      change (brk m) with (2 ^ 21) in Hb2. lia.
    + assert (Htop : memreg_top m t <= memreg_base m (2 * (w - 22) + 1)).
      { apply (memreg_top_le_base m w G); cbn in *; lia. }
      rewrite (memreg_base_high m w G) in Htop by lia. replace (21 + _) with 21 in Htop by lia.
      change (tbrk m) with (2 ^ 39 - 2 ^ 21) in Ht2. lia.
Qed.

(** A host that grants every request. *)
Definition host_grants : Host :=
  fun _ c => match c with H_mmap a _ _ _ _ _ => a | H_calloc => 1 | _ => 0 end.

Lemma host_grants_coop : @host_coop host_grants.
Proof. split; intros; cbn; [by left|lia]. Qed.

(** C37. km_mem_brk on a machine with the memory invariant, for a cooperating host
    ([host_coop]: the mmap of a plugged region answers the address asked for or an error,
    and the KVM calls of an unplugged one succeed) and a request that is 0 or at least 2
    MiB: the call returns, keeps the memory invariant (exactly the regions under the two
    breaks are plugged) and the top break, and either moves the break to the requested
    address and returns it, or answers -ENOMEM and leaves it in place. A request below 2 MiB
    is outside: [km_mem_brk_low_aborts] shows that it ends the monitor on a machine of less
    than 512 GiB, [km_mem_brk_low_accepted] that it breaks the invariant on one of 512 GiB.
    *)
Theorem km_mem_brk_correct `{Host} m w new :
  mem_inv m w -> host_coop -> new = 0 \/ GUEST_MEM_START_VA <= new ->
  exists r s, km_mem_brk new m = Ret (r, s) /\ mem_inv s w /\ s.(tbrk) = m.(tbrk)
    /\ (r = s.(brk) /\ s.(brk) = (if new =? 0 then m.(brk) else new)
        \/ r = neg_errno ENOMEM /\ s.(brk) = m.(brk)).
Proof.
  intros I Hc Hn. pose proof (km_mem_brk_spec m w I new Hn) as Hw. unfold wp in Hw.
  destruct (km_mem_brk new m) as [[r s]| |]; [|tauto|tauto].
  exists r, s. destruct Hw as (Is & (regs & p & tr & Hs & _) & Hr). split_and!; try done.
  - by rewrite Hs.
  - destruct (Z.eqb_spec new 0); destruct Hr as [(?&->&->)|[(?&->&?)|(?&->&->)]]; try done; auto.
Qed.

(** The same for km_mem_tbrk and the top break, for every request but the
    one address that equals the offset between the two zones. *)
Theorem km_mem_tbrk_correct `{Host} m w new :
  mem_inv m w -> host_coop -> new = 0 \/ new <> GUEST_VA_OFFSET m ->
  exists r s, km_mem_tbrk new m = Ret (r, s) /\ mem_inv s w /\ s.(brk) = m.(brk)
    /\ (r = s.(tbrk) /\ s.(tbrk) = (if new =? 0 then m.(tbrk) else new)
        \/ r = neg_errno ENOMEM /\ s.(tbrk) = m.(tbrk)).
Proof.
  intros I Hc Hn. pose proof (km_mem_tbrk_spec m w I new Hn) as Hw. unfold wp in Hw.
  destruct (km_mem_tbrk new m) as [[r s]| |]; [|tauto|tauto].
  exists r, s. destruct Hw as (Is & (regs & p & tr & Hs & _) & Hr). split_and!; try done.
  - by rewrite Hs.
  - destruct (Z.eqb_spec new 0); destruct Hr as [(?&->&->)|[(?&->&?)|(?&->&->&_)]]; try done; auto.
Qed.

(** km_mem_init establishes the invariant, whatever the host answers. *)
Lemma fresh_slots_inv m w :
  geom_ok m w -> w = 31 \/ m.(pdpe1g) = true ->
  m.(brk) = GUEST_MEM_START_VA -> m.(tbrk) = GUEST_MEM_TOP_VA ->
  (forall i, 1 <= i < KM_MEM_SLOTS -> m.(vm_mem_regs) !! i = Some kvm_mem_reg_zero) ->
  mem_inv m w.
Proof.
  intros G H1 Hb Ht Hregs. pose proof G as (Hw & Hmax & _ & _ & Hlast).
  assert (St : mem_static m w) by (by split).
  assert (2 ^ 31 <= 2 ^ w) by (apply Z.pow_le_mono_r; lia).
  assert (2 ^ w <= 2 ^ 39) by (apply Z.pow_le_mono_r; lia).
  change GUEST_MEM_TOP_VA with (2 ^ 39 - 2 ^ 21) in *. change GUEST_MEM_START_VA with (2 ^ 21) in *.
  assert (B : brk_inv m w).
  { split; rewrite ?Hb, ?Ht; change GUEST_MEM_START_VA with (2 ^ 21);
      change GUEST_MEM_TOP_VA with (2 ^ 39 - 2 ^ 21); [lia..|].
    rewrite PDPTE_REGION_eq. unfold rounddown. change (2 ^ 21 / 2 ^ 30) with 0. dlia. }
  split; [done|done|]. intros i Hi. exists kvm_mem_reg_zero.
  split; [apply Hregs; unfold KM_MEM_SLOTS; lia|].
  destruct (idx_brk_spec m w St m.(brk) ltac:(lia)) as (b & _ & -> & Hb1 & Hb2).
  destruct (idx_tbrk_spec m w St m.(tbrk)) as (t & _ & -> & Ht1 & Ht2).
  { change GUEST_MEM_TOP_VA with (2 ^ 39 - 2 ^ 21). lia. }
  rewrite decide_False; [done|]. intros [Hc|Hc].
  - pose proof (memreg_base_range m w St i ltac:(lia)) as [Hbr _].
    destruct (Z.eq_dec i b) as [->|]; [lia|].
    pose proof (memreg_top_le_base m w G i b ltac:(lia) ltac:(lia)).
    pose proof (memreg_base_lt_top m w G i ltac:(lia)). lia.
  - destruct (Z.eq_dec t m.(last_mem_idx)) as [->|Hne]; [lia|].
    pose proof (memreg_top_le_base m w G t m.(last_mem_idx) ltac:(lia) ltac:(lia)) as Hl.
    rewrite Hlast, (memreg_base_high m w G) in Hl by lia.
    replace (21 + _) with 21 in Hl by lia. rewrite <- Hlast in *. lia.
Qed.

Lemma fresh_slot ty w p1g i : 0 <= i < KM_MEM_SLOTS -> (machine_static ty w p1g).(vm_mem_regs) !! i = Some kvm_mem_reg_zero.
Proof.
  intros Hi. cbn. apply elem_of_list_to_map_1.
  - rewrite <- list_fmap_compose. cbn. rewrite list_fmap_id. apply NoDup_seqZ.
  - apply list_elem_of_fmap. exists i. split; [done|]. apply elem_of_seqZ. lia.
Qed.

(** What km_mem_init leaves: the invariant, and in a KVM machine the tables of init_pml4. *)
Definition init_post (ty : vm_type_t) (w : Z) (s : machine) : Prop :=
  mem_inv s w /\ s.(vm_type) = ty /\ s.(brk) = GUEST_MEM_START_VA /\ (ty = VM_TYPE_KVM -> init_pml4 s = Some s.(pt)).

Lemma geometry_post ty w p1g m :
  31 <= w <= 39 -> w = 31 \/ p1g = true ->
  m.(guest_max_physmem) = 2 ^ w -> m.(pdpe1g) = p1g -> m.(vm_type) = ty ->
  (forall i, 1 <= i < KM_MEM_SLOTS -> m.(vm_mem_regs) !! i = Some kvm_mem_reg_zero) ->
  (ty = VM_TYPE_KVM -> init_pml4 m = Some m.(pt)) ->
  exists m', km_mem_init_geometry m = Some m' /\ init_post ty w m'.
Proof.
  intros Hw H1 Hmax Hp Hty Hregs Hpt.
  destruct (km_mem_init_geometry_ok m w Hw Hmax) as (m' & Hm' & G & Hb & Ht). exists m'. split; [done|].
  unfold km_mem_init_geometry in Hm'. cbn in Hm'. apply bind_Some in Hm' as (i & _ & [= <-]).
  split; [apply fresh_slots_inv; cbn; [exact G|by rewrite Hp|done..]|]. split_and!; [exact Hty|exact Hb|exact Hpt].
Qed.

Lemma km_mem_init_spec `{Host} ty w p1g oc :
  31 <= w <= 39 -> w = 31 \/ p1g = true ->
  wp True (km_mem_init oc) (fun _ s => init_post ty w s) (machine_static ty w p1g).
Proof.
  intros Hw H1. unfold km_mem_init. wp_steps. pose proof (fresh_slot ty w p1g) as Hs.
  set (m0 := set_overcommit_memory oc (machine_static ty w p1g)).
  assert (Hrest : forall m, m.(guest_max_physmem) = 2 ^ w -> m.(pdpe1g) = p1g -> m.(vm_type) = ty ->
    (forall i, 1 <= i < KM_MEM_SLOTS -> m.(vm_mem_regs) !! i = Some kvm_mem_reg_zero) ->
    (ty = VM_TYPE_KVM -> init_pml4 m = Some m.(pt)) ->
    wp True (let* rc := hcall (H_set_identity_map_addr (RSV_GUEST_PA RSV_IDMAP_OFFSET)) in
      if rc <? 0 then abort
      else let* m := get in let* m' := lift (km_mem_init_geometry m) in fun _ => Ret (tt, m'))
      (fun _ s => init_post ty w s) m).
  { intros m E1 E2 E3 E4 E5. wp_steps. apply wp_hcall. case_match; [done|]. wp_steps.
    match goal with |- context [km_mem_init_geometry ?x] =>
      destruct (geometry_post ty w p1g x) as (m' & Hm' & Hp'); [done..|] end.
    eapply wp_lift; [exact Hm'|]. exact Hp'. }
  destruct ty; cbn [is_kvm vm_type m0 machine_static set_overcommit_memory].
  - unfold km_guest_page_malloc. wp_steps. cbn [andb negb Z.eqb Z.land orb].
    destruct (_ || _); [by wp_steps|]. wp_steps. apply wp_hcall.
    match goal with |- context [host_answer ?a ?b] => generalize (host_answer a b); intros ans end.
    destruct (ans <? 0); [by wp_steps|]. destruct (negb _); [done|]. wp_steps.
    unfold put_vm_mem_reg. wp_steps. apply wp_hcall. case_match; [done|]. wp_steps.
    destruct (init_pml4 _) as [p|] eqn:Ep; [|done]. wp_steps. apply wp_bind_inv, Hrest; [done..| |].
    + intros i Hi. cbn. rewrite lookup_insert_ne by (unfold KM_RSRV_MEMSLOT; lia). apply Hs. lia.
    + intros _. exact Ep.
  - wp_steps. apply wp_bind_inv, Hrest; [done..| |done]. intros i Hi. apply Hs. lia.
Qed.

(** On a machine smaller than 512 GiB no break below 2 MiB is ever set: the request
    ends the monitor. *)
Lemma km_mem_brk_low `{Host} m w b :
  mem_inv m w -> w < 39 -> b <> 0 -> b < GUEST_MEM_START_VA ->
  wp True (km_mem_brk b) (fun _ _ => False) m.
Proof.
  intros I Hw Hb0 Hb. pose proof (mi_static m w I) as St. pose proof (static_geom m w St) as G.
  pose proof (va_offset_eq m w G) as Ho. pose proof G as (Hw2 & Hmax & _).
  destruct (mi_brk m w I) as [B1 B2 B3]. pose proof (inv_idx_order m w I) as (O1 & O2 & O3 & O4 & O5).
  assert (2 ^ w <= 2 ^ 38) by (apply Z.pow_le_mono_r; lia). assert (2 ^ 31 <= 2 ^ w) by (apply Z.pow_le_mono_r; lia).
  change GUEST_MEM_START_VA with (2 ^ 21) in *.
  unfold km_mem_brk. wp_steps. destruct (Z.eqb_spec b 0); [lia|].
  unfold GUEST_MEM_ZONE_SIZE_VA. rewrite Hmax. destruct (Z.leb_spec (2 ^ w) b); [lia|].
  assert (Hg : forall x, x < 2 ^ 21 - 1 -> gva_to_gpa m x = None).
  { intros x Hx. unfold gva_to_gpa. rewrite Ho. change GUEST_MEM_START_VA with (2 ^ 21).
    destruct (Z.leb_spec (2 ^ 21 - 1) x); [lia|]. by destruct (Z.leb_spec (2 ^ 39 - 2 ^ w) x); [lia|]. }
  wp_step. destruct (Z_lt_le_dec b (2 ^ 21 - 1)); [by rewrite Hg|].
  assert (b = 2 ^ 21 - 1) as -> by lia.
  eapply wp_lift; [apply (gva_to_gpa_low m w G); change GUEST_MEM_START_VA with (2 ^ 21); lia|].
  wp_step. eapply wp_lift; [apply (gva_to_gpa_high m w G); lia|].
  pose proof (apart_bounds m w I m.(brk) m.(tbrk) ltac:(lia) ltac:(lia) B3) as (Hbw & Hap & _).
  match goal with |- context [?x <=? ?y] => destruct (Z.leb_spec x y) as [Hx|_] end.
  { rewrite PDPTE_REGION_eq in Hx. unfold rounddown in Hx. change ((2 ^ 21 - 1) / 2 ^ 30) with 0 in Hx. dlia. }
  wp_step. eapply wp_lift; [exact O4|].
  destruct (idx_brk_spec m w St m.(brk)) as (i & _ & Hi & _ & Hir). { lia. } rewrite Hi in *.
  assert (Hf : exists k, loop_fuel = S k) by (by exists 63%nat). destruct Hf as [k ->].
  wp_step. cbn [brk_grow]. wp_steps.
  destruct (Z.ltb_spec (Z.min (2 ^ 21 - 1) (memreg_top m i)) (2 ^ 21 - 1)); [lia|]. wp_steps.
  eapply wp_lift; [exact O5|]. cbn [brk_shrink]. wp_steps.
  assert (gva_to_memreg_idx m (2 ^ 21 - 1 - 1) = None) as -> by (unfold gva_to_memreg_idx; rewrite Hg by lia; done).
  done.
Qed.

(** One request to the memory component, whatever the host answers. A machine of
    512 GiB is left alone below 2 MiB, and the top break is never moved to the
    offset between the two zones. *)
Inductive mem_step `{Host} : machine -> machine -> Prop :=
| step_brk m new r s :
    m.(guest_max_physmem) < PML4E_REGION \/ new = 0 \/ GUEST_MEM_START_VA <= new ->
    km_mem_brk new m = Ret (r, s) -> mem_step m s
| step_tbrk m new r s :
    new = 0 \/ new <> GUEST_VA_OFFSET m -> km_mem_tbrk new m = Ret (r, s) -> mem_step m s.

Lemma brk_returns_high `{Host} m w new r s :
  mem_inv m w -> m.(guest_max_physmem) < PML4E_REGION \/ new = 0 \/ GUEST_MEM_START_VA <= new ->
  km_mem_brk new m = Ret (r, s) -> new = 0 \/ GUEST_MEM_START_VA <= new.
Proof.
  intros I [Hs|] Heq; [|done]. destruct (Z.eq_dec new 0); [auto|].
  destruct (Z_lt_le_dec new GUEST_MEM_START_VA); [|auto].
  pose proof (static_geom m w (mi_static m w I)) as (Hw & Hmax & _).
  destruct (Z.eq_dec w 39) as [->|]; [rewrite Hmax in Hs; change PML4E_REGION with (2 ^ 39) in Hs; lia|].
  pose proof (km_mem_brk_low m w new I ltac:(lia) ltac:(done) ltac:(done)) as Hp.
  unfold wp in Hp. rewrite Heq in Hp. destruct Hp.
Qed.

Lemma mem_step_inv `{Host} m s w : mem_inv m w -> mem_step m s -> mem_inv s w.
Proof.
  intros I Hstep. destruct Hstep as [m new r s Hn Heq|m new r s Hn Heq].
  - pose proof (km_mem_brk_spec m w I new (brk_returns_high m w new r s I Hn Heq)) as Hp.
    unfold wp in Hp. rewrite Heq in Hp. apply Hp.
  - pose proof (km_mem_tbrk_spec m w I new Hn) as Hp. unfold wp in Hp. rewrite Heq in Hp. apply Hp.
Qed.

(** C2. Every machine reached from the one km_mem_init leaves (2^31 to 2^39 bytes of
    physical memory, with 1 GiB pages when it is more than 2 GiB), by any sequence of
    brk and tbrk requests that return, whatever the host answers to each request,
    satisfies the memory invariant: the breaks stay in their zones, never share a
    GiB of physical memory, and the plugged regions are exactly those under a
    break.  Two requests are left out: on a machine of exactly 512 GiB a break
    below 2 MiB, which the code accepts and which does break the invariant
    (km_mem_brk_low_accepted), and moving the top break to the offset between the
    two zones (km_mem_tbrk_offset_aborts). *)
Theorem reachable_mem_inv `{Host} ty w p1g oc s0 s :
  31 <= w <= 39 -> w = 31 \/ p1g = true ->
  km_mem_init oc (machine_static ty w p1g) = Ret (tt, s0) -> rtc mem_step s0 s -> mem_inv s w.
Proof.
  intros Hw H1 Hi Hr. pose proof (km_mem_init_spec ty w p1g oc Hw H1) as Hp.
  unfold wp in Hp. rewrite Hi in Hp. destruct Hp as (I & _). clear Hi.
  induction Hr as [m|m m' s Hstep _ IH]; [done|]. by apply IH, (mem_step_inv m m').
Qed.

(** With 512 GiB the two zones coincide, and a break below 2 MiB is accepted: the
    break is then below the start of guest memory, against the invariant. *)
Theorem km_mem_brk_low_accepted :
  let m := boot_machine VM_TYPE_KVM 39 in
  exists s, @km_mem_brk host_grants 0x180000 m = Ret (0x180000, s) /\ s.(brk) = 0x180000 /\ ~ mem_inv s 39.
Proof.
  cbv zeta. destruct (@km_mem_brk host_grants 0x180000 (boot_machine VM_TYPE_KVM 39)) as [[r s]| |] eqn:E;
    [|vm_compute in E; discriminate..].
  assert (r = 0x180000 /\ s.(brk) = 0x180000) as [-> Hb].
  { vm_compute in E. injection E as <- <-. done. }
  exists s. split_and!; [done|done|]. intros [_ [B1 _ _] _]. rewrite Hb in B1. change GUEST_MEM_START_VA with (2 ^ 21) in B1. lia.
Qed.

(** A guest that asks for a break below GUEST_MEM_START_VA - 1 ends the
    monitor when physical memory is smaller than 512 GiB; with 512 GiB a request
    for break 1 does. Neither is refused with an error. *)
Theorem km_mem_brk_low_aborts `{Host} m w b :
  geom_ok m w -> w < 39 -> 0 < b < GUEST_MEM_START_VA - 1 ->
  km_mem_brk b m = Abort
  /\ @km_mem_brk host_grants 1 (boot_machine VM_TYPE_KVM 39) = Abort.
Proof.
  intros G Hw Hb. split; [|vm_compute; reflexivity].
  pose proof (pow_w_bounds m w G). pose proof (va_offset_eq m w G) as Ho. pose proof G as (Hw2 & Hmax & _).
  assert (2 ^ w <= 2 ^ 38) by (apply Z.pow_le_mono_r; lia).
  change GUEST_MEM_START_VA with (2 ^ 21) in *.
  unfold km_mem_brk, bind, get. destruct (Z.eqb_spec b 0); [lia|].
  unfold GUEST_MEM_ZONE_SIZE_VA. rewrite Hmax. destruct (Z.leb_spec (2 ^ w) b); [lia|].
  unfold gva_to_gpa. rewrite Ho. change GUEST_MEM_START_VA with (2 ^ 21).
  destruct (Z.leb_spec (2 ^ 21 - 1) b); [lia|]. destruct (Z.leb_spec (2 ^ 39 - 2 ^ w) b); [lia|].
  reflexivity.
Qed.

(** The one request km_mem_tbrk does not survive: moving the top break
    to exactly GUEST_VA_OFFSET on a machine with less than 512 GiB. The two
    neighbouring requests are answered with -ENOMEM. *)
Theorem km_mem_tbrk_offset_aborts :
  let m := boot_machine VM_TYPE_KVM 32 in
  let run t := @km_mem_tbrk host_grants t m in
  run (GUEST_VA_OFFSET m) = Abort
  /\ (exists s, run (GUEST_VA_OFFSET m - 1) = Ret (neg_errno ENOMEM, s))
  /\ (exists s, run (GUEST_VA_OFFSET m + 1) = Ret (neg_errno ENOMEM, s)).
Proof.
  split_and!; [vm_compute; reflexivity|eexists; vm_compute; reflexivity|eexists; vm_compute; reflexivity].
Qed.

(** *** Witnesses *)
Lemma km_mem_brk_correct_witness :
  exists r s, @km_mem_brk host_grants 0x5000000 (boot_machine VM_TYPE_KVM 39) = Ret (r, s) /\ mem_inv s 39
    /\ s.(tbrk) = GUEST_MEM_TOP_VA
    /\ (r = s.(brk) /\ s.(brk) = 0x5000000 \/ r = neg_errno ENOMEM /\ s.(brk) = GUEST_MEM_START_VA).
Proof.
  apply (@km_mem_brk_correct host_grants (boot_machine VM_TYPE_KVM 39) 39 0x5000000).
  - apply boot_machine_inv. lia.
  - apply host_grants_coop.
  - right. vm_compute. discriminate.
Defined.

Lemma km_mem_tbrk_correct_witness :
  exists r s, @km_mem_tbrk host_grants (GUEST_MEM_TOP_VA - 0x40000000) (boot_machine VM_TYPE_KVM 39) = Ret (r, s)
    /\ mem_inv s 39 /\ s.(brk) = GUEST_MEM_START_VA
    /\ (r = s.(tbrk) /\ s.(tbrk) = GUEST_MEM_TOP_VA - 0x40000000
        \/ r = neg_errno ENOMEM /\ s.(tbrk) = GUEST_MEM_TOP_VA).
Proof.
  apply (@km_mem_tbrk_correct host_grants (boot_machine VM_TYPE_KVM 39) 39 (GUEST_MEM_TOP_VA - 0x40000000)).
  - apply boot_machine_inv. lia.
  - apply host_grants_coop.
  - right. vm_compute. discriminate.
Defined.

Lemma reachable_mem_inv_witness : exists s0 s,
  @km_mem_init host_grants false (machine_static VM_TYPE_KVM 39 true) = Ret (tt, s0)
  /\ rtc (@mem_step host_grants) s0 s /\ s.(brk) = 0x5000000 /\ mem_inv s 39.
Proof.
  destruct (@km_mem_init host_grants false (machine_static VM_TYPE_KVM 39 true)) as [[[] s0]| |] eqn:E0;
    [|vm_compute in E0; discriminate..].
  destruct (@km_mem_brk host_grants 0x5000000 s0) as [[r s]| |] eqn:E;
    [|vm_compute in E0; injection E0 as <-; vm_compute in E; discriminate..].
  assert (Hs : rtc (@mem_step host_grants) s0 s).
  { apply rtc_once. eapply step_brk; [|exact E]. right. right. vm_compute. discriminate. }
  exists s0, s. split; [done|]. split; [exact Hs|]. split.
  - vm_compute in E0. injection E0 as <-. vm_compute in E. injection E as _ <-. reflexivity.
  - apply (@reachable_mem_inv host_grants VM_TYPE_KVM 39 true false s0); [lia|by right|exact E0|exact Hs].
Defined.

Lemma km_mem_brk_low_aborts_witness :
  @km_mem_brk host_grants 0x1000 (boot_machine VM_TYPE_KVM 36) = Abort
  /\ @km_mem_brk host_grants 1 (boot_machine VM_TYPE_KVM 39) = Abort.
Proof.
  apply (@km_mem_brk_low_aborts host_grants (boot_machine VM_TYPE_KVM 36) 36); [|lia|].
  - unfold geom_ok. cbn. split_and!; lia.
  - vm_compute. auto.
Defined.
