(* ===== verification/PageWalk.v ===== *)
(** * The page tables follow the program break (km_mem.c)

    The tables through the whole life of a KVM machine: what init_pml4 builds and
    what km_mem_brk and km_mem_tbrk make of it, with set_pml4_hierarchy,
    clear_pml4_hierarchy and the two fixup functions.  The processor's walk finds
    every address of the bottom zone below the break and none behind it. *)
From S2P Require Import Prelude Machine MemGeom TopBreak PageTable MemBrk.

(** ** Loops over the entries of a region *)
Lemma ent_fold_steps (F : Z -> Z -> Z) (sl : Z -> Z) st a sz t j :
  0 < st -> 0 <= sz -> a mod st = 0 -> sz mod st = 0 ->
  (forall x, a <= x < a + sz -> x mod st = 0 -> sl x = x / st) ->
  ent (foldl (fun t x => upd (F x) (sl x) t) t (steps a sz st)) j
  = if (a <=? j * st) && (j * st <? a + sz) then F (j * st) (ent t j) else ent t j.
Proof.
  intros Hst Hsz Ha Hs Hsl.
  assert (Hin : forall x, x ∈ steps a sz st <-> exists k, 0 <= k < sz / st /\ x = a + k * st)
    by (intros x; by apply elem_of_steps).
  assert (Hk : forall k, 0 <= k < sz / st -> sl (a + k * st) = a / st + k /\ a <= a + k * st < a + sz).
  { intros k Hk. assert (a <= a + k * st < a + sz).
    { pose proof (Z.div_mod sz st ltac:(lia)). nia. }
    split; [|done]. rewrite Hsl; [rewrite Z.div_add by lia; done|done|].
    rewrite Z.mod_add by lia. done. }
  destruct (ent_foldl_upd F sl (steps a sz st) t j) as [H1 H2].
  { apply steps_slots_nodup; [done|done|]. intros k k' Hk1 Hk2.
    assert (E : (sz + st - 1) / st = sz / st).
    { symmetry. apply Z.div_unique with (st - 1); [lia|]. pose proof (Z.div_mod sz st). lia. }
    rewrite E in *. destruct (Hk k Hk1) as [-> _], (Hk k' Hk2) as [-> _]. lia. }
  pose proof (Z.div_mod a st ltac:(lia)). pose proof (Z.div_mod sz st ltac:(lia)).
  assert (Hout : ~ (a <= j * st < a + sz) -> j ∉ sl <$> steps a sz st).
  { intros Hj (x & Hx1 & Hx)%list_elem_of_fmap. apply Hin in Hx as (k & Hk1 & ->).
    destruct (Hk k Hk1) as [Hsk ?]. rewrite Hsk in Hx1. nia. }
  destruct (Z.leb_spec a (j * st)), (Z.ltb_spec (j * st) (a + sz)); cbn [andb];
    [|apply H2, Hout; lia..].
  assert (Hx : j * st = a + (j - a / st) * st) by lia.
  apply H1; [apply Hin; exists (j - a / st); split; [nia|done]|].
  rewrite Hsl; [by apply Z.div_mul; lia|lia|by apply Z.mod_mul; lia].
Qed.

(** ** Shape of the regions *)
Section Shape.
  Context (m : machine) (w : Z) (St : mem_static m w).

Lemma pow_mod_le k n : 0 <= n <= k -> 2 ^ k mod 2 ^ n = 0.
Proof.
  intros H. replace k with ((k - n) + n) by lia. rewrite Z.pow_add_r by lia. apply Z.mod_mul. lia.
Qed.

(** A region lies in the first GiB, or in the last, or consists of whole GiBs
    between them. *)
Lemma region_shape i :
  1 <= i < m.(last_mem_idx) ->
  let b := memreg_base m i in let s := memreg_size m i in
  b mod 2 ^ 21 = 0 /\ s mod 2 ^ 21 = 0 /\ 2 ^ 21 <= b /\ 2 ^ 21 <= s
  /\ memreg_top m i = b + s
  /\ (s < 2 ^ 30 /\ (b + s <= 2 ^ 30 \/ 2 ^ w - 2 ^ 30 <= b)
      \/ 2 ^ 30 <= s /\ b mod 2 ^ 30 = 0 /\ s mod 2 ^ 30 = 0 /\ 2 ^ 30 <= b /\ b + s <= 2 ^ w - 2 ^ 30).
Proof.
  intros Hi b s. pose proof (static_geom m w St) as G. pose proof G as (Hw & _ & _ & Hmid & Hlast).
  assert (Hs : s = memreg_top m i - b) by (apply (memreg_size_eq m w G); lia).
  assert (H31 : 2 ^ 31 <= 2 ^ w) by (apply Z.pow_le_mono_r; lia).
  destruct (Z_le_gt_dec i (w - 22)) as [Hlo|Hhi].
  - unfold b in *. rewrite (memreg_base_low m w G), (memreg_top_low m w G) in * by lia.
    assert (Hd : 2 ^ (21 + i) = 2 * 2 ^ (20 + i)) by (rewrite <- Z.pow_succ_r by lia; f_equal; lia).
    assert (Es : s = 2 ^ (20 + i)) by lia. rewrite Es.
    assert (2 ^ 21 <= 2 ^ (20 + i)) by (apply Z.pow_le_mono_r; lia).
    split_and!; [apply pow_mod_le; lia|apply pow_mod_le; lia|lia|lia|lia|].
    destruct (Z_lt_le_dec i 10).
    + left. assert (2 ^ (21 + i) <= 2 ^ 30) by (apply Z.pow_le_mono_r; lia). lia.
    + right. assert (2 ^ 30 <= 2 ^ (20 + i)) by (apply Z.pow_le_mono_r; lia).
      assert (2 ^ (21 + i) <= 2 ^ (w - 1)) by (apply Z.pow_le_mono_r; lia).
      assert (2 ^ w = 2 * 2 ^ (w - 1)) by (rewrite <- Z.pow_succ_r by lia; f_equal; lia).
      assert (2 ^ 30 <= 2 ^ (w - 1)) by (apply Z.pow_le_mono_r; lia).
      split_and!; [lia|apply pow_mod_le; lia|apply pow_mod_le; lia|lia|lia].
  - set (k := 2 * (w - 22) + 1 - i) in *.
    unfold b in *. rewrite (memreg_base_high m w G), (memreg_top_high m w G) in * by lia. fold k in Hs |- *.
    assert (Hk : 1 <= k <= w - 22) by lia.
    assert (Hd : 2 ^ (21 + k) = 2 * 2 ^ (20 + k)) by (rewrite <- Z.pow_succ_r by lia; f_equal; lia).
    assert (Es : s = 2 ^ (20 + k)) by lia. rewrite Es.
    assert (2 ^ 21 <= 2 ^ (20 + k)) by (apply Z.pow_le_mono_r; lia).
    assert (Hk2 : 2 ^ (21 + k) <= 2 ^ (w - 1)) by (apply Z.pow_le_mono_r; lia).
    assert (H2w : 2 ^ w = 2 * 2 ^ (w - 1)) by (rewrite <- Z.pow_succ_r by lia; f_equal; lia).
    assert (2 ^ 30 <= 2 ^ (w - 1)) by (apply Z.pow_le_mono_r; lia).
    assert (Hm : forall n, 0 <= n <= 21 + k -> (2 ^ w - 2 ^ (21 + k)) mod 2 ^ n = 0).
    { intros n Hn. rewrite Zminus_mod, !pow_mod_le by lia. done. }
    split_and!; [apply Hm; lia|apply pow_mod_le; lia|lia|lia|lia|].
    destruct (Z_lt_le_dec k 10).
    + left. assert (2 ^ (21 + k) <= 2 ^ 30) by (apply Z.pow_le_mono_r; lia).
      split; [|lia]. assert (2 ^ (20 + k) <= 2 ^ 29) by (apply Z.pow_le_mono_r; lia). lia.
    + right. assert (2 ^ 30 <= 2 ^ (20 + k)) by (apply Z.pow_le_mono_r; lia).
      split_and!; [lia|apply Hm; lia|apply pow_mod_le; lia|lia|lia].
Qed.

(** *** What plugging and unplugging do to the entries *)

Definition within (b s x : Z) : bool := (b <=? x) && (x <? b + s).

(** Entries of the bottom zone, updated over the region. *)
Definition low_ents (b s : Z) (F2 F1 : Z -> Z -> Z) (p p' : page_tables) : Prop :=
  p'.(pml4) = p.(pml4)
  /\ (forall i, 0 <= i <= 511 -> ent p'.(pd0) i
       = if within b s (i * 2 ^ 21) then F2 (i * 2 ^ 21) (ent p.(pd0) i) else ent p.(pd0) i)
  /\ (forall j, 0 <= j <= 511 -> ent p'.(pdpt0) j
       = if within b s (j * 2 ^ 30) then F1 (j * 2 ^ 30) (ent p.(pdpt0) j) else ent p.(pdpt0) j).

(** The same seen from the top zone: only entries of whole GiBs change. *)
Definition top_ents (b s o : Z) (F1 : Z -> Z -> Z) (p p' : page_tables) : Prop :=
  p'.(pml4) = p.(pml4) /\ p'.(pd0) = p.(pd0)
  /\ (forall j, 0 <= j <= 511 -> ent p'.(pdpt0) j = ent p.(pdpt0) j
       \/ 1 <= j <= 510 /\ within (b + o) s (j * 2 ^ 30) = true
          /\ ent p'.(pdpt0) j = F1 (j * 2 ^ 30 - o) (ent p.(pdpt0) j)).

Section Entries.
  Context (i : Z) (r : kvm_mem_reg) (Hi : 1 <= i < m.(last_mem_idx)) (HF : reg_full m i r).
Abbreviation b := (memreg_base m i).
Abbreviation s := (memreg_size m i).

Lemma region_1g_slots x : 2 ^ 30 <= s -> b <= x < b + s -> PDPTE_SLOT x = x / 2 ^ 30.
Proof.
  intros Hs Hx. pose proof (static_geom m w St) as G. pose proof (pow_w_bounds m w G).
  destruct (region_shape i Hi) as (_ & _ & Hb & _ & _ & [Hc|Hc]); [lia|]. apply PDPTE_SLOT_div. lia.
Qed.

Lemma plug_low_ents p p' :
  b < 2 ^ w - 2 ^ 30 -> set_pml4_hierarchy m r false p = Some p' -> low_ents b s pde_2mb_set pdpte_1g_set p p'.
Proof.
  intros Hlow. destruct HF as (Hs & Hb & _ & _). unfold set_pml4_hierarchy. rewrite Hs, Hb, PDPTE_REGION_eq, PDE_REGION_eq.
  destruct (region_shape i Hi) as (Hb1 & Hs1 & Hb2 & Hs2 & _ & [[Hc Hd]|(Hc & Hd & He & Hf & Hg)]).
  - destruct (Z.ltb_spec s (2 ^ 30)); [|lia]. intros [= <-]. split_and!; [done| |]; intros k Hk; cbn.
    + apply (ent_fold_steps pde_2mb_set); [lia|lia|done|done|].
      intros x Hx _. rewrite PDE_SLOT_div by lia. rewrite Z.mod_small by dlia. done.
    + unfold within. zb; try done; lia.
  - destruct (Z.ltb_spec s (2 ^ 30)); [lia|]. rewrite (pdpe1g_needed m w St i) by lia. cbn. intros [= <-].
    split_and!; [done| |]; intros k Hk; cbn.
    + unfold within. zb; try done; lia.
    + rewrite (ent_fold_steps (fun x => pdpte_1g_set (b + (x - b)))); [|lia|lia|done|done|].
      * unfold within. destruct (_ && _); [|done]. f_equal. lia.
      * intros x Hx _. by apply region_1g_slots.
Qed.

Lemma unplug_low_ents p p' :
  b < 2 ^ w - 2 ^ 30 -> clear_pml4_hierarchy m r false p = Some p' ->
  low_ents b s (fun _ _ => 0) (fun _ _ => 0) p p'.
Proof.
  intros Hlow. destruct HF as (Hs & Hb & _ & _). unfold clear_pml4_hierarchy. rewrite Hs, Hb, PDPTE_REGION_eq, PDE_REGION_eq.
  destruct (region_shape i Hi) as (Hb1 & Hs1 & Hb2 & Hs2 & _ & [[Hc Hd]|(Hc & Hd & He & Hf & Hg)]).
  - destruct (Z.ltb_spec s (2 ^ 30)); [|lia]. intros [= <-]. split_and!; [done| |]; intros k Hk; cbn.
    + apply (ent_fold_steps (fun _ _ => 0)); [lia|lia|done|done|].
      intros x Hx _. rewrite PDE_SLOT_div by lia. rewrite Z.mod_small by dlia. done.
    + unfold within. zb; try done; lia.
  - destruct (Z.ltb_spec s (2 ^ 30)); [lia|]. rewrite (pdpe1g_needed m w St i) by lia. cbn. intros [= <-].
    split_and!; [done| |]; intros k Hk; cbn.
    + unfold within. zb; try done; lia.
    + apply (ent_fold_steps (fun _ _ => 0)); [lia|lia|done|done|].
      intros x Hx _. by apply region_1g_slots.
Qed.

(** The region in the top zone, at its offset. *)
Lemma upper_region :
  2 ^ 30 <= s ->
  gpa_to_upper_gva m b = Some (b + (2 ^ 39 - 2 ^ w)) /\ (b + (2 ^ 39 - 2 ^ w)) mod 2 ^ 30 = 0
  /\ 2 ^ 30 <= b + (2 ^ 39 - 2 ^ w) /\ b + (2 ^ 39 - 2 ^ w) + s <= 2 ^ 39 - 2 ^ 30
  /\ s mod 2 ^ 30 = 0.
Proof.
  intros Hs. pose proof (static_geom m w St) as G. pose proof (pow_w_bounds m w G). pose proof G as (Hw & _).
  destruct (region_shape i Hi) as (_ & _ & _ & _ & _ & [Hc|(Hc & Hd & He & Hf & Hg)]); [lia|].
  split_and!; [|rewrite Z.add_mod, Zminus_mod, (pow_mod_le w), Hd by lia; done|lia|lia|done].
  apply (gpa_to_upper_gva_eq m w G). change GUEST_MEM_START_VA with (2 ^ 21). lia.
Qed.

Lemma fold_top_ents (F F1 : Z -> Z -> Z) t k :
  2 ^ 30 <= s -> 0 <= k <= 511 ->
  (forall x, F x = F1 (x - (2 ^ 39 - 2 ^ w))) ->
  let t' := foldl (fun t x => upd (F x) (PDPTE_SLOT x) t) t (steps (b + (2 ^ 39 - 2 ^ w)) s (2 ^ 30)) in
  ent t' k = ent t k
  \/ 1 <= k <= 510 /\ within (b + (2 ^ 39 - 2 ^ w)) s (k * 2 ^ 30) = true
     /\ ent t' k = F1 (k * 2 ^ 30 - (2 ^ 39 - 2 ^ w)) (ent t k).
Proof.
  intros Hs Hk HFF t'. destruct (upper_region Hs) as (_ & U1 & U2 & U3 & U4).
  unfold t'. rewrite ent_fold_steps; [|lia|lia|done|done|intros x Hx _; apply PDPTE_SLOT_div; lia].
  unfold within. zb; auto. right. split_and!; [lia|lia|done|by rewrite HFF].
Qed.

Lemma plug_top_ents p p' :
  set_pml4_hierarchy m r true p = Some p' -> top_ents b s (2 ^ 39 - 2 ^ w) pdpte_1g_set p p'.
Proof.
  destruct HF as (Hs & Hb & _ & _). unfold set_pml4_hierarchy. rewrite Hs, Hb, PDPTE_REGION_eq.
  destruct (Z.ltb_spec s (2 ^ 30)); [intros [= <-]; split_and!; auto|].
  rewrite (pdpe1g_needed m w St i) by lia. destruct upper_region as (-> & _); [done|]. cbn. intros [= <-].
  split_and!; [done|done|]. intros k Hk. cbn. apply fold_top_ents; [done|done|]. intros x. f_equal. lia.
Qed.

Lemma unplug_top_ents p p' :
  clear_pml4_hierarchy m r true p = Some p' -> top_ents b s (2 ^ 39 - 2 ^ w) (fun _ _ => 0) p p'.
Proof.
  destruct HF as (Hs & Hb & _ & _). unfold clear_pml4_hierarchy. rewrite Hs, Hb, PDPTE_REGION_eq.
  destruct (Z.ltb_spec s (2 ^ 30)); [intros [= <-]; split_and!; auto|].
  rewrite (pdpe1g_needed m w St i) by lia. destruct upper_region as (-> & _); [done|]. cbn. intros [= <-].
  split_and!; [done|done|]. intros k Hk. cbn. by apply (fold_top_ents (fun _ _ => 0) (fun _ _ => 0)).
Qed.

End Entries.
End Shape.

(** ** The invariant, slot by slot *)

(** [P2] of the 2 MiB slots of the first GiB and [P1] of the 1 GiB slots below [lim],
    each with the first address of the slot. *)
Definition slots (P2 P1 : Z -> Z -> Prop) (lim : Z) (p : page_tables) : Prop :=
  (forall k, 1 <= k <= 511 -> P2 (k * 2 ^ 21) (ent p.(pd0) k))
  /\ (forall j, 1 <= j < lim -> P1 (j * 2 ^ 30) (ent p.(pdpt0) j)).

(** The first GiB behind the bottom zone with the top break at [t], and behind any
    bottom zone. *)
Definition blim (w t : Z) : Z := Z.min (2 ^ (w - 30)) (t / 2 ^ 30).
Definition flim (w : Z) : Z := Z.min (2 ^ (w - 30)) 511.

(** A slot below [f] has its frame; below [l] it is present exactly when it is
    below [b]. *)
Definition slot_ok (maps : Z -> Z -> Prop) (f l b x e : Z) : Prop :=
  (x < f -> maps e x) /\ (x < l * 2 ^ 30 -> f_p e = if x <? b then 1 else 0).

(** Tables for the breaks [b] and [t]: the frames reach to the end of the region that
    holds the bottom break. *)
Definition bottom_ok (m : machine) (w b t : Z) (p : page_tables) : Prop :=
  let f := memreg_top m (idx_brk m b) in
  tables_ok p /\ slots (slot_ok maps_2m f (blim w t) b) (slot_ok maps_1g f (blim w t) b) (flim w) p.

Lemma slots_mono (P2 P1 P2' P1' : Z -> Z -> Prop) lim p p' :
  slots P2 P1 lim p ->
  (forall k e, 1 <= k <= 511 -> ent p.(pd0) k = e -> P2 (k * 2 ^ 21) e -> P2' (k * 2 ^ 21) (ent p'.(pd0) k)) ->
  (forall j e, 1 <= j < lim -> ent p.(pdpt0) j = e -> P1 (j * 2 ^ 30) e -> P1' (j * 2 ^ 30) (ent p'.(pdpt0) j)) ->
  slots P2' P1' lim p'.
Proof. intros [A B] H2 H1. split; eauto. Qed.

Lemma tables_ok_upd p p' :
  tables_ok p -> p'.(pml4) = p.(pml4) ->
  (forall j, j = 0 \/ j = 511 -> ent p'.(pdpt0) j = ent p.(pdpt0) j \/ ent p'.(pdpt0) j = set_p 1 (ent p.(pdpt0) j)) ->
  tables_ok p'.
Proof.
  intros (A & B & C) Hm Hj.
  assert (Hs : forall e pa, points_to e pa -> points_to (set_p 1 e) pa).
  { intros e pa [H1 H2]. unfold points_to. rewrite f_p_set_p by lia. unfold set_p. by rewrite bf_get_set_other by lia. }
  assert (Hps : forall e, f_ps (set_p 1 e) = f_ps e).
  { intros e. unfold f_ps, set_p. by rewrite bf_get_set_other by lia. }
  unfold tables_ok. rewrite Hm. destruct (Hj 0 (or_introl eq_refl)) as [E0|E0], (Hj 511 (or_intror eq_refl)) as [E1|E1];
    rewrite E0, E1, ?Hps; intuition.
Qed.

(** The bottom zone as bottom_walk wants it. *)
Lemma bottom_ok_walk m w b t p :
  1 <= blim w t <= 511 -> b <= blim w t * 2 ^ 30 -> b <= memreg_top m (idx_brk m b) -> bottom_ok m w b t p ->
  tables_ok p /\ bottom_present p (blim w t) b /\ bottom_frames p b.
Proof.
  intros Hl Hb Hf (T & S2 & S1). split; [done|].
  assert (Hlf : blim w t <= flim w) by (unfold blim, flim in *; lia). split; split.
  - intros i Hi. apply (S2 i Hi). lia.
  - intros j Hj. apply (S1 j); lia.
  - change GUEST_MEM_START_VA with (2 ^ 21). change GIB with (2 ^ 30). intros a Ha Hg.
    assert (E : PDE_SLOT a = a / 2 ^ 21) by (rewrite PDE_SLOT_div by lia; apply Z.mod_small; dlia).
    destruct (S2 (a / 2 ^ 21)) as [Hm _]; [dlia|]. rewrite E. unfold maps_2m in *.
    destruct Hm as (-> & -> & -> & ->); [dlia|]. by rewrite Z.div_mul by lia.
  - change GIB with (2 ^ 30). intros a Ha.
    assert (E : PDPTE_SLOT a = a / 2 ^ 30) by (apply PDPTE_SLOT_div; lia).
    destruct (S1 (a / 2 ^ 30)) as [Hm _]; [dlia|]. rewrite E. unfold maps_1g in *.
    destruct Hm as (-> & -> & -> & ->); [dlia|]. by rewrite Z.div_mul by lia.
Qed.

(** ** km_mem_brk *)
Section Brk.
  Context `{Host} (m : machine) (w : Z) (I : mem_inv m w) (Hkvm : is_kvm m = true).
Abbreviation L := (blim w m.(tbrk)).
Let St := mi_static m w I.
Let G := static_geom m w St.

Lemma blim_facts b t :
  2 ^ 21 <= b -> 2 ^ 39 - 2 ^ w + 2 ^ 21 <= t <= GUEST_MEM_TOP_VA ->
  rounddown b PDPTE_REGION < rounddown (t - (2 ^ 39 - 2 ^ w)) PDPTE_REGION ->
  1 <= blim w t <= 511 /\ b <= blim w t * 2 ^ 30 /\ blim w t * 2 ^ 30 <= 2 ^ w
  /\ 2 ^ 30 <= t - (2 ^ 39 - 2 ^ w)
  /\ (w = 39 /\ blim w t = t / 2 ^ 30 \/ w < 39 /\ blim w t = 2 ^ (w - 30) /\ 2 ^ w <= 2 ^ 39 - 2 ^ w).
Proof.
  intros Hb Ht Hap. pose proof G as (Hw & _). rewrite PDPTE_REGION_eq in Hap. unfold rounddown in Hap.
  change GUEST_MEM_TOP_VA with (2 ^ 39 - 2 ^ 21) in Ht.
  assert (Hp : 2 ^ w = 2 ^ (w - 30) * 2 ^ 30) by (rewrite <- Z.pow_add_r by lia; f_equal; lia).
  unfold blim. destruct (Z.eq_dec w 39) as [->|Hne].
  - change (2 ^ (39 - 30)) with 512 in *. change (2 ^ 39 - 2 ^ 39) with 0 in *. rewrite Z.sub_0_r in *.
    rewrite Z.min_r by dlia. split_and!; dlia.
  - assert (2 ^ w <= 2 ^ 38) by (apply Z.pow_le_mono_r; lia). assert (2 ^ 31 <= 2 ^ w) by (apply Z.pow_le_mono_r; lia).
    set (x := 2 ^ (w - 30)) in *. rewrite Hp in *. clearbody x.
    rewrite Z.min_l by dlia. split_and!; dlia.
Qed.

Lemma lim_now :
  1 <= L <= 511 /\ m.(brk) <= L * 2 ^ 30 /\ L * 2 ^ 30 <= 2 ^ w /\ 2 ^ 30 <= m.(tbrk) - (2 ^ 39 - 2 ^ w)
  /\ (w = 39 /\ L = m.(tbrk) / 2 ^ 30 \/ w < 39 /\ L = 2 ^ (w - 30) /\ 2 ^ w <= 2 ^ 39 - 2 ^ w).
Proof. destruct (mi_brk m w I) as [B1 B2 B3]. by apply blim_facts. Qed.

(** Through the growing loop the present bits stay and the frames reach the top of
    the last region done. *)
Definition grown (maps : Z -> Z -> Prop) (i x e : Z) : Prop :=
  (x < memreg_top m i -> maps e x) /\ (x < L * 2 ^ 30 -> f_p e = if x <? m.(brk) then 1 else 0).
Definition grow_inv (i : Z) (p : page_tables) : Prop :=
  tables_ok p /\ slots (grown maps_2m i) (grown maps_1g i) (flim w) p.

(** Through the shrinking loop regions behind the last one may be gone. *)
Definition shrunk (maps : Z -> Z -> Prop) (i x e : Z) : Prop :=
  (x < memreg_top m i -> maps e x)
  /\ (x < L * 2 ^ 30 -> f_p e = (if x <? m.(brk) then 1 else 0) \/ memreg_top m i <= x /\ f_p e = 0).
Definition shrink_inv (i : Z) (p : page_tables) : Prop :=
  tables_ok p /\ slots (shrunk maps_2m i) (shrunk maps_1g i) (flim w) p
  /\ (i = 0 -> f_p (ent p.(pd0) 1) = 0).

Lemma low_ents_tables i F2 F1 p p' :
  1 <= i < m.(last_mem_idx) -> memreg_base m i < 2 ^ w - 2 ^ 30 ->
  low_ents (memreg_base m i) (memreg_size m i) F2 F1 p p' -> tables_ok p -> tables_ok p'.
Proof.
  intros Hi Hb (Hm & _ & Hg) T. apply (tables_ok_upd p p' T Hm). intros j Hj. left.
  pose proof (pow_w_bounds m w G).
  destruct (region_shape m w St i Hi) as (_ & _ & Hb1 & _ & _ & Hc). rewrite Hg by lia.
  unfold within. zb; try done; lia.
Qed.

Lemma slot_frame_2m x e : 0 <= x < 2 ^ 52 -> maps_2m (pde_2mb_set x e) x /\ f_p (pde_2mb_set x e) = f_p e.
Proof. apply pde_2mb_set_maps. Qed.

Lemma grow_plug i p p' :
  idx_brk m m.(brk) <= i -> i + 1 < m.(last_mem_idx) -> memreg_top m i < 2 ^ w - 2 ^ 30 ->
  grow_inv i p -> plug_pt m false (i + 1) p p' -> grow_inv (i + 1) p'.
Proof.
  intros Hi0 Hi1 Ht (T & S). unfold plug_pt. rewrite Hkvm. intros (r & HF & Hset).
  pose proof G as (_ & _ & _ & _ & Hlast). destruct (inv_idx_order m w I) as (_ & Hi00 & _).
  assert (Hir : 1 <= i + 1 < m.(last_mem_idx)) by lia.
  assert (Hadj : memreg_base m (i + 1) = memreg_top m i) by (symmetry; apply (memreg_adjacent m w G); lia).
  pose proof (plug_low_ents m w St (i + 1) r Hir HF p p' ltac:(lia) Hset) as E.
  split; [eapply low_ents_tables; eauto; lia|]. destruct E as (_ & E2 & E1).
  destruct (region_shape m w St (i + 1) Hir) as (_ & _ & _ & _ & Htop & _). rewrite Hadj in *.
  pose proof (pow_w_bounds m w G). pose proof lim_now. assert (Hfl : flim w <= 511) by (unfold flim; lia).
  eapply slots_mono; [exact S|..].
  - intros k e Hk <- [Hm Hp]. rewrite E2 by lia. destruct (within _ _ _) eqn:Ew.
    + destruct (pde_2mb_set_maps (k * 2 ^ 21) (ent (pd0 p) k)) as [A B]; [lia|]. split; [done|by rewrite B].
    + split; [|done]. intros Hx. apply Hm. unfold within in Ew. lia.
  - intros k e Hk <- [Hm Hp]. rewrite E1 by lia. destruct (within _ _ _) eqn:Ew.
    + destruct (pdpte_1g_set_maps (k * 2 ^ 30) (ent (pdpt0 p) k)) as [A B]; [lia|]. split; [done|by rewrite B].
    + split; [|done]. intros Hx. apply Hm. unfold within in Ew. lia.
Qed.

Lemma shrink_unplug i p p' :
  0 < i < m.(last_mem_idx) -> memreg_base m i < 2 ^ w - 2 ^ 30 -> shrink_inv i p ->
  (if i <? idx_tbrk m m.(tbrk) then unplug_pt m false i p p' else p' = p) -> shrink_inv (i - 1) p'.
Proof.
  intros Hi Hb (T & S & S0). pose proof G as (Hw & _ & _ & _ & Hlast).
  assert (Hadj : memreg_top m (i - 1) = memreg_base m i).
  { rewrite (memreg_adjacent m w G) by lia. f_equal. lia. }
  destruct (region_shape m w St i ltac:(lia)) as (_ & _ & _ & _ & Htop & _).
  pose proof (memreg_base_lt_top m w G i ltac:(lia)) as Hlt. pose proof (pow_w_bounds m w G). pose proof lim_now.
  assert (Hweak : forall maps x e, shrunk maps i x e -> shrunk maps (i - 1) x e).
  { intros maps x e [A B]. split; [intros Hx; apply A; lia|]. intros Hx. destruct (B Hx) as [|[]]; [by left|right; split; [lia|done]]. }
  assert (Hfl : flim w <= 511) by (unfold flim; lia).
  destruct (Z.ltb_spec i (idx_tbrk m m.(tbrk))) as [Hit|Hit].
  - unfold unplug_pt. rewrite Hkvm. intros (r & HF & Hclr).
    pose proof (unplug_low_ents m w St i r ltac:(lia) HF p p' Hb Hclr) as E.
    split; [eapply low_ents_tables; eauto; lia|]. destruct E as (_ & E2 & E1). split.
    + eapply slots_mono; [exact S|..]; intros k e Hk <- Hs; rewrite ?E2, ?E1 by lia; destruct (within _ _ _) eqn:Ew;
        try (by apply Hweak); unfold within in Ew; (split; [intros ?; lia|intros _; right; split; [lia|done]]).
    + intros Hi1. assert (i = 1) as -> by lia. rewrite E2 by lia.
      rewrite (memreg_base_low m w G) in * by lia. change (2 ^ (20 + 1)) with (2 ^ 21) in *.
      unfold within. zb; try done; lia.
  - intros ->. split; [done|]. split.
    + eapply slots_mono; [exact S|..]; intros k e Hk <- Hs; by apply Hweak.
    + intros Hi1. exfalso. destruct (mi_brk m w I) as [B1 B2 B3]. destruct lim_now as (_ & _ & _ & Hfar & _).
      destruct (idx_tbrk_spec m w St m.(tbrk)) as (t & _ & Et & Ht1 & Ht2). { done. }
      rewrite Et in Hit. assert (E1 : t = 1) by lia. rewrite E1 in Ht2.
      rewrite (memreg_top_low m w G) in Ht2 by lia. change (2 ^ (21 + 1)) with (2 ^ 22) in Ht2. lia.
Qed.

(** The tail: the present bits of the new break. *)
Lemma shrink_fixup b p :
  2 ^ 21 <= b -> rounddown b PDPTE_REGION < rounddown (m.(tbrk) - (2 ^ 39 - 2 ^ w)) PDPTE_REGION ->
  shrink_inv (idx_brk m b) p -> bottom_ok m w b m.(tbrk) (fixup_bottom_page_tables m.(brk) b p).
Proof.
  intros Hb Hap (T & [S2 S1] & S0). destruct (mi_brk m w I) as [B1 B2 B3].
  destruct (blim_facts b m.(tbrk) Hb B2 Hap) as (L1 & L2 & L3 & _). destruct lim_now as (_ & L4 & _).
  pose proof (apart_bounds m w I b m.(tbrk) Hb ltac:(lia) Hap) as (Hbw & _).
  destruct (idx_brk_spec m w St b ltac:(lia)) as (i & _ & Ei & Hi & Hib). rewrite Ei in *.
  destruct (fixup_bottom_bits p L m.(brk) b) as [F2 F1]; try done; try lia.
  assert (Hi0 : b = 2 ^ 21 -> i = 0).
  { intros ->. destruct (Z.eq_dec i 0); [done|]. pose proof (memreg_base_range m w St i ltac:(lia)). lia. }
  set (p' := fixup_bottom_page_tables m.(brk) b p) in *.
  assert (Hent : (forall k, ent p'.(pd0) k = ent p.(pd0) k \/ exists v, ent p'.(pd0) k = set_p v (ent p.(pd0) k))
    /\ (forall j, ent p'.(pdpt0) j = ent p.(pdpt0) j
         \/ 1 <= j /\ j * 2 ^ 30 < Z.max b m.(brk) /\ exists v, ent p'.(pdpt0) j = set_p v (ent p.(pdpt0) j))
    /\ p'.(pml4) = p.(pml4)).
  { change GUEST_MEM_START_VA with (2 ^ 21) in *.
    unfold p', fixup_bottom_page_tables. rewrite !(PDPTE_SLOT_div (_ - 1)) by lia.
    split_and!; [intros k|intros j|].
    - zb; rewrite ?ent_upd_range; zb; eauto.
    - zb; rewrite ?ent_upd_range; zb; eauto; right; (split_and!; [dlia|dlia|eauto]).
    - zb; done. }
  destruct Hent as (H2 & H1 & Hm).
  assert (Hfr2 : forall k, 1 <= k <= 511 -> k * 2 ^ 21 < memreg_top m i -> maps_2m (ent p'.(pd0) k) (k * 2 ^ 21)).
  { intros k Hk Hx. destruct (S2 k Hk) as [Hmp _]. destruct (H2 k) as [->|[v ->]]; rewrite ?set_p_maps_2m; apply Hmp; lia. }
  assert (Hfr1 : forall j, 1 <= j < flim w -> j * 2 ^ 30 < memreg_top m i -> maps_1g (ent p'.(pdpt0) j) (j * 2 ^ 30)).
  { intros j Hj Hx. destruct (S1 j Hj) as [Hmp _]. destruct (H1 j) as [->|(_ & _ & [v ->])]; rewrite ?set_p_maps_1g; apply Hmp; lia. }
  unfold bottom_ok. rewrite Ei. split; [|split].
  - apply (tables_ok_upd p p' T Hm). intros j Hj. left. destruct (H1 j) as [|(?&?&_)]; [done|lia].
  - intros k Hk. split; [by apply Hfr2|]. intros Hx. rewrite F2 by lia. destruct (S2 k Hk) as [_ Hbit]. specialize (Hbit Hx).
    change GUEST_MEM_START_VA with (2 ^ 21). unfold fixed_bit.
    destruct (Z.eqb_spec k 1) as [->|]; [destruct (Z.eqb_spec b (2 ^ 21)) as [Eb|]|]; cbn [andb].
    + rewrite S0 by auto. zb; [lia|done].
    + zb; try done; try lia; destruct Hbit as [->|[? ->]]; zb; try done; lia.
    + zb; try done; try lia; destruct Hbit as [->|[? ->]]; zb; try done; lia.
  - intros j Hj. split; [by apply Hfr1|]. intros Hx. rewrite F1 by lia. destruct (S1 j Hj) as [_ Hbit]. specialize (Hbit Hx). unfold fixed_bit.
    zb; try done; try lia; destruct Hbit as [->|[? ->]]; zb; try done; lia.
Qed.

Lemma km_mem_brk_tables new :
  new = 0 \/ GUEST_MEM_START_VA <= new -> bottom_ok m w m.(brk) m.(tbrk) m.(pt) ->
  wp (~ host_coop) (km_mem_brk new)
    (fun r s => brk_post m w new r s /\ bottom_ok m w s.(brk) m.(tbrk) s.(pt)) m.
Proof.
  intros Hn (T & S). destruct (mi_brk m w I) as [B1 B2 B3]. change GUEST_MEM_START_VA with (2 ^ 21) in B1.
  pose proof (apart_bounds m w I m.(brk) m.(tbrk) B1 ltac:(lia) B3) as (Hbw & _).
  destruct (idx_brk_spec m w St m.(brk) ltac:(lia)) as (i0 & _ & Ei & Hi & Hib).
  assert (Hlow : forall i, 0 < i < m.(last_mem_idx) -> memreg_base m (i - 1) < memreg_base m i).
  { intros i Hr. pose proof G as (_ & _ & _ & _ & Hlast). pose proof (memreg_adjacent m w G (i - 1) ltac:(lia)) as Ha.
    replace (i - 1 + 1) with i in Ha by lia. pose proof (memreg_base_lt_top m w G (i - 1) ltac:(lia)). lia. }
  apply (km_mem_brk_gen m w I (fun i p => memreg_base m i < 2 ^ w - 2 ^ 30 /\ grow_inv i p)
    (fun i p => memreg_base m i < 2 ^ w - 2 ^ 30 /\ shrink_inv i p)
    (fun b p => bottom_ok m w b m.(tbrk) p) new); [by split|..|exact Hn].
  - rewrite Ei in *. split; [lia|]. split; [done|]. exact S.
  - intros i p p' Hi0 Hi1 Hnew Hn2 [_ Hg] Hp. pose proof G as (_ & _ & _ & _ & Hlast).
    split; [rewrite <- (memreg_adjacent m w G) by lia; lia|]. apply (grow_plug i p p'); auto; lia.
  - intros i p Hi0 [Hr (Tg & [S2 S1])]. split; [done|]. split; [done|]. split.
    + split; [intros k Hk; destruct (S2 k Hk)|intros j Hj; destruct (S1 j Hj)]; split; auto.
    + intros ->. destruct (S2 1 ltac:(lia)) as [_ ->]; [|pose proof lim_now; lia]. rewrite Ei in Hi0. assert (E0 : i0 = 0) by lia. rewrite E0 in Hib.
      pose proof G as (Hw & _). rewrite (memreg_top_low m w G) in Hib by lia. change (2 ^ (21 + 0)) with (2 ^ 21) in Hib.
      zb; [lia|done].
  - intros i p p' Hr [Hbi Hs] Hu. split; [specialize (Hlow i Hr); lia|]. by apply (shrink_unplug i p).
  - intros b p Hb Hap [_ Hs]. rewrite Hkvm. by apply shrink_fixup.
Qed.

(** ** km_mem_tbrk *)

Lemma top_ents_tables b s F1 p p' : top_ents b s (2 ^ 39 - 2 ^ w) F1 p p' -> tables_ok p -> tables_ok p'.
Proof.
  intros (Hm & _ & Hg) T. apply (tables_ok_upd p p' T Hm). intros j Hj. left.
  destruct (Hg j ltac:(lia)) as [|(?&_)]; [done|lia].
Qed.

(** An entry of the bottom zone is touched from the top only where the zones
    coincide. *)
Lemma touched_512 b j s : 2 ^ 21 <= b -> 1 <= j < flim w -> within (b + (2 ^ 39 - 2 ^ w)) s (j * 2 ^ 30) = true ->
  w = 39 /\ b <= j * 2 ^ 30.
Proof.
  intros Hb Hj Hw. unfold within in Hw. destruct lim_now as (_ & _ & _ & _ & [[-> _]|(H1 & _ & H2)]); [lia|].
  assert (Hp : 2 ^ w = 2 ^ (w - 30) * 2 ^ 30) by (pose proof G as (? & _); rewrite <- Z.pow_add_r by lia; f_equal; lia).
  unfold flim in Hj. lia.
Qed.

Lemma bottom_plug_top i p p' :
  1 <= i < m.(last_mem_idx) -> bottom_ok m w m.(brk) m.(tbrk) p -> plug_pt m true i p p' ->
  bottom_ok m w m.(brk) m.(tbrk) p'.
Proof.
  intros Hi (T & S). unfold plug_pt. rewrite Hkvm. intros (r & HF & Hset).
  pose proof (plug_top_ents m w St i r Hi HF p p' Hset) as E.
  split; [by eapply top_ents_tables|]. destruct E as (_ & E2 & E1).
  destruct (region_shape m w St i Hi) as (_ & _ & Hb & _). pose proof G as (Hw & _).
  eapply slots_mono; [exact S|intros k e Hk <- Hs; by rewrite E2|]. intros j e Hj <- [Hm Hp].
  assert (Hfl : flim w <= 511) by (unfold flim; lia).
  destruct (E1 j ltac:(lia)) as [->|(_ & Hin & ->)]; [done|].
  destruct (touched_512 _ j _ Hb Hj Hin) as [Ew _]. replace (j * 2 ^ 30 - (2 ^ 39 - 2 ^ w)) with (j * 2 ^ 30) by (rewrite Ew; lia).
  destruct (pdpte_1g_set_maps (j * 2 ^ 30) (ent (pdpt0 p) j)) as [A B]; [lia|].
  split; [done|by rewrite B].
Qed.

Lemma bottom_unplug_top i p p' :
  1 <= i < m.(last_mem_idx) -> idx_brk m m.(brk) < i -> bottom_ok m w m.(brk) m.(tbrk) p ->
  unplug_pt m true i p p' -> bottom_ok m w m.(brk) m.(tbrk) p'.
Proof.
  intros Hi Hib (T & S). unfold unplug_pt. rewrite Hkvm. intros (r & HF & Hclr).
  pose proof (unplug_top_ents m w St i r Hi HF p p' Hclr) as E.
  split; [by eapply top_ents_tables|]. destruct E as (_ & E2 & E1).
  destruct (region_shape m w St i Hi) as (_ & _ & Hb & _). pose proof G as (Hw & _ & _ & _ & Hlast).
  destruct (inv_idx_order m w I) as (_ & Hi0 & _).
  pose proof (memreg_top_le_base m w G (idx_brk m m.(brk)) i ltac:(lia) Hib ltac:(lia)) as Hle.
  destruct (mi_brk m w I) as [B1 B2 B3]. change GUEST_MEM_START_VA with (2 ^ 21) in *.
  pose proof (apart_bounds m w I m.(brk) m.(tbrk) B1 ltac:(lia) B3) as (Hbw & _).
  destruct (idx_brk_spec m w St m.(brk) ltac:(lia)) as (i0 & _ & Ei & _ & Hbt). rewrite Ei in *.
  eapply slots_mono; [exact S|intros k e Hk <- Hs; by rewrite E2|]. intros j e Hj <- [Hm Hp].
  assert (Hfl : flim w <= 511) by (unfold flim; lia).
  destruct (E1 j ltac:(lia)) as [->|(_ & Hin & ->)]; [done|].
  destruct (touched_512 _ j _ Hb Hj Hin) as [_ Hbj]. split; [intros ?; lia|]. intros _. zb; [lia|done].
Qed.

Lemma bottom_fixup_top t p :
  2 ^ 39 - 2 ^ w + 2 ^ 21 <= t <= GUEST_MEM_TOP_VA ->
  rounddown m.(brk) PDPTE_REGION < rounddown (t - (2 ^ 39 - 2 ^ w)) PDPTE_REGION ->
  bottom_ok m w m.(brk) m.(tbrk) p -> bottom_ok m w m.(brk) t (fixup_top_page_tables m.(tbrk) t p).
Proof.
  intros Ht Hap (T & S2 & S1). destruct (mi_brk m w I) as [B1 B2 B3]. change GUEST_MEM_START_VA with (2 ^ 21) in *.
  destruct (blim_facts m.(brk) t B1 Ht Hap) as (N1 & N2 & N3 & N4 & N5). destruct lim_now as (O1 & O2 & O3 & O4 & O5).
  change GUEST_MEM_TOP_VA with (511 * 2 ^ 30 + 511 * 2 ^ 21) in *. pose proof (pow_w_bounds m w G) as Hpw.
  set (p' := fixup_top_page_tables m.(tbrk) t p).
  set (lo := Z.min (m.(tbrk) / 2 ^ 30) (t / 2 ^ 30)).
  assert (Hent : p'.(pml4) = p.(pml4) /\ p'.(pd0) = p.(pd0) /\ forall j, j <= 511 ->
     ent p'.(pdpt0) j = ent p.(pdpt0) j /\ ~ (m.(tbrk) / 2 ^ 30 <= j < t / 2 ^ 30)
     \/ lo <= j /\ (ent p'.(pdpt0) j = set_p 1 (ent p.(pdpt0) j) /\ t / 2 ^ 30 <= j
                   \/ j <= 510 /\ ent p'.(pdpt0) j = set_p 0 (ent p.(pdpt0) j) /\ m.(tbrk) / 2 ^ 30 <= j)).
  { unfold p', fixup_top_page_tables. rewrite !PDPTE_SLOT_div by lia. change MAX_PDPTE_SLOT with 511.
    split_and!; [zb; done|zb; done|]. intros j Hj. unfold lo.
    zb; rewrite ?ent_upd_range; zb;
      first [left; split; [done|dlia] | right; split; [lia|]; first [left; split; [done|lia] | right; split_and!; [dlia|done|lia]]]. }
  destruct Hent as (Em & E2 & E1).
  assert (Hlo : 1 <= lo) by (unfold lo; dlia).
  split; [|split].
  - apply (tables_ok_upd p p' T Em). intros j Hj. destruct (E1 j ltac:(lia)) as [[? _]|(?&[[? _]|(?&_)])]; auto; lia.
  - intros k Hk. rewrite E2. destruct (S2 k Hk) as [Hm Hp]. split; [done|]. intros _. apply Hp. lia.
  - intros j Hj. destruct (S1 j Hj) as [Hm Hp]. assert (Hfl : flim w <= 511) by (unfold flim; lia).
    assert (Hlow : w < 39 -> j < lo).
    { intros Hw. destruct O5 as [[? _]|(_ & _ & O6)]; [lia|].
      assert (Hp2 : 2 ^ w = 2 ^ (w - 30) * 2 ^ 30) by (pose proof G as (? & _); rewrite <- Z.pow_add_r by lia; f_equal; lia).
      assert (2 ^ (w - 30) <= lo); [|unfold flim in Hj; lia].
      unfold lo. set (x := 2 ^ (w - 30)) in *. rewrite Hp2 in *. clearbody x. dlia. }
    assert (HL : j * 2 ^ 30 < blim w t * 2 ^ 30 -> j * 2 ^ 30 < L * 2 ^ 30 \/ w = 39 /\ m.(tbrk) / 2 ^ 30 <= j < t / 2 ^ 30).
    { intros Hx. destruct N5 as [[-> E5]|(? & E5 & _)]; [|destruct O5 as [[? _]|(_ & E6 & _)]; [lia|left; lia]].
      destruct O5 as [[_ E6]|[? _]]; [|lia]. rewrite E5 in Hx. rewrite E6. lia. }
    destruct (E1 j ltac:(lia)) as [[Ee Hno]|(Hge & [[Ee Hj2]|(_ & Ee & Hj2)])]; rewrite Ee.
    + split; [done|]. intros Hx. destruct (HL Hx) as [|[_ Hr]]; [auto|lia].
    + split; [rewrite set_p_maps_1g; done|]. intros Hx. exfalso.
      destruct N5 as [[-> E5]|(Hw & _)]; [rewrite E5 in Hx; lia|specialize (Hlow Hw); lia].
    + split; [rewrite set_p_maps_1g; done|]. intros Hx. rewrite f_p_set_p by lia.
      destruct N5 as [[-> E5]|(Hw & _)]; [|specialize (Hlow Hw); lia].
      destruct O5 as [[_ E6]|[? _]]; [|lia]. zb; [|done]. rewrite E6 in O2. lia.
Qed.

End Brk.

(** ** The reachable machines *)
Lemma init_pml4_slots m p :
  init_pml4 m = Some p ->
  tables_ok p /\ (forall k, ent p.(pd0) k = 0) /\ (forall j, 1 <= j <= 510 -> ent p.(pdpt0) j = 0).
Proof.
  unfold init_pml4. destruct (_ && _); [|done]. intros [= <-]. split_and!.
  - vm_compute. split_and!; reflexivity.
  - done.
  - intros j Hj. cbn [pdpt0 with_pdpt0 with_pd1 with_pdpt1 with_pml4]. rewrite !ent_upd.
    change (PDE_SLOT GUEST_MEM_TOP_VA) with 511. rewrite !decide_False by lia. reflexivity.
Qed.

(** A KVM machine whose tables fit its breaks. *)
Definition walk_inv (w : Z) (s : machine) : Prop :=
  mem_inv s w /\ is_kvm s = true /\ bottom_ok s w s.(brk) s.(tbrk) s.(pt).

Lemma init_walk_inv w s :
  init_post VM_TYPE_KVM w s -> walk_inv w s.
Proof.
  intros (I & Hty & Hb & Hpt). destruct (init_pml4_slots s s.(pt) (Hpt eq_refl)) as (T & H2 & H1).
  split; [done|]. split; [unfold is_kvm; by rewrite Hty|]. rewrite Hb. change GUEST_MEM_START_VA with (2 ^ 21).
  pose proof (mi_static s w I) as St. pose proof (static_geom s w St) as G. pose proof G as (Hw & _).
  assert (2 ^ 31 <= 2 ^ w) by (apply Z.pow_le_mono_r; lia).
  destruct (idx_brk_spec s w St (2 ^ 21) ltac:(lia)) as (i & _ & Ei & Hi & Hib).
  assert (E0 : i = 0).
  { destruct (Z.eq_dec i 0); [done|]. pose proof (memreg_base_range s w St i ltac:(lia)). lia. }
  unfold bottom_ok. rewrite Ei, E0, (memreg_top_low s w G) by lia. change (2 ^ (21 + 0)) with (2 ^ 21).
  split; [done|]. split.
  - intros k Hk. rewrite H2. split; [lia|]. intros _. zb; [lia|done].
  - intros j Hj. unfold flim in Hj. rewrite H1 by lia. split; [lia|]. intros _. zb; [lia|done].
Qed.

Lemma walk_inv_step `{Host} w m s : walk_inv w m -> mem_step m s -> walk_inv w s.
Proof.
  intros (I & Hk & B) Hstep. split; [by eapply mem_step_inv|]. destruct Hstep as [m new r s Hn Heq|m new r s Hn Heq].
  - pose proof (km_mem_brk_tables m w I Hk new (brk_returns_high m w new r s I Hn Heq) B) as Hp.
    unfold wp in Hp. rewrite Heq in Hp. destruct Hp as ((_ & (regs & p & tr & Hs & _) & _) & Bs). rewrite Hs in Bs |- *. done.
  - pose proof (km_mem_tbrk_gen m w I (fun p => bottom_ok m w m.(brk) m.(tbrk) p) (fun t p => bottom_ok m w m.(brk) t p) new
      B B (bottom_plug_top m w I Hk) (bottom_unplug_top m w I Hk)) as Hp.
    lapply Hp; [clear Hp; intros Hp|intros t p Ht Hap Bp; rewrite Hk; by apply bottom_fixup_top].
    specialize (Hp Hn). unfold wp in Hp. rewrite Heq in Hp.
    destruct Hp as ((_ & (regs & p & tr & Hs & _) & _) & Bs). rewrite Hs in Bs |- *. done.
Qed.

(** C9. In every KVM machine reached from the one km_mem_init leaves (2^31 to 2^39 bytes
    of physical memory, with 1 GiB pages when it is more than 2 GiB) by brk and tbrk
    requests that return (but for the two of mem_step: a break below 2 MiB on a
    machine of 512 GiB, and a top break at the offset between the zones), whatever
    the host answers, the processor walks the page tables so that every address of
    the bottom zone below the break is translated to itself, and every address
    whose page (2 MiB in the first GiB, 1 GiB behind it) lies at or above the break
    faults.  The bottom zone is what lies below the size of physical memory and
    below the GiB of the top break; of the top zone nothing is said. *)
Theorem bottom_translation `{Host} w p1g oc s0 s a :
  31 <= w <= 39 -> w = 31 \/ p1g = true ->
  km_mem_init oc (machine_static VM_TYPE_KVM w p1g) = Ret (tt, s0) -> rtc mem_step s0 s ->
  GUEST_MEM_START_VA <= a < s.(guest_max_physmem) -> rounddown a GIB < rounddown s.(tbrk) GIB ->
  (a < s.(brk) -> mmu_walk s.(pt) a = Some a)
  /\ (s.(brk) <= rounddown a (if a <? GIB then PDE_REGION else PDPTE_REGION) -> mmu_walk s.(pt) a = None).
Proof.
  intros Hw H1 Hi Hr Ha Hz. pose proof (km_mem_init_spec VM_TYPE_KVM w p1g oc Hw H1) as Hp.
  unfold wp in Hp. rewrite Hi in Hp.
  assert (W : walk_inv w s).
  { apply init_walk_inv in Hp. clear Hi Ha Hz.
    induction Hr as [|m m' s Hstep _ IH]; [done|]. by apply IH, (walk_inv_step w m m'). }
  destruct W as (I & _ & B). pose proof (static_geom s w (mi_static s w I)) as (_ & Hmax & _).
  destruct (mi_brk s w I) as [B1 B2 B3]. change GUEST_MEM_START_VA with (2 ^ 21) in *. change GIB with (2 ^ 30) in *.
  pose proof (apart_bounds s w I s.(brk) s.(tbrk) B1 ltac:(lia) B3) as (Hbw & _).
  destruct (blim_facts s w I s.(brk) s.(tbrk) B1 B2 B3) as (L1 & L2 & L3 & _).
  destruct (idx_brk_spec s w (mi_static s w I) s.(brk) ltac:(lia)) as (i & _ & Ei & _ & Hib).
  destruct (bottom_ok_walk s w s.(brk) s.(tbrk) s.(pt)) as (T & P & F); [done|done|rewrite Ei; lia|done|].
  apply (bottom_walk s.(pt) (blim w s.(tbrk)) s.(brk) a T P F); change GIB with (2 ^ 30); [done|lia|].
  change GUEST_MEM_START_VA with (2 ^ 21). split; [lia|]. unfold blim. rewrite Hmax in Ha.
  assert (Hpw : 2 ^ w = 2 ^ (w - 30) * 2 ^ 30) by (rewrite <- Z.pow_add_r by lia; f_equal; lia).
  unfold rounddown in Hz. set (x := 2 ^ (w - 30)) in *. rewrite Hpw in *. clearbody x. dlia.
Qed.

Lemma bottom_translation_witness : exists s,
  @km_mem_brk host_grants (6 * MIB) (default (boot_machine VM_TYPE_KVM 32)
    (match @km_mem_init host_grants false (machine_static VM_TYPE_KVM 32 true) with Ret (_, s0) => Some s0 | _ => None end))
  = Ret (6 * MIB, s)
  /\ mmu_walk s.(pt) (3 * MIB) = Some (3 * MIB) /\ mmu_walk s.(pt) (7 * MIB) = None.
Proof.
  destruct (@km_mem_init host_grants false (machine_static VM_TYPE_KVM 32 true)) as [[[] s0]| |] eqn:E0;
    [|vm_compute in E0; discriminate..].
  cbn [default].
  destruct (@km_mem_brk host_grants (6 * MIB) s0) as [[r s]| |] eqn:E;
    [|vm_compute in E0; injection E0 as <-; vm_compute in E; discriminate..].
  assert (Hs : rtc (@mem_step host_grants) s0 s).
  { apply rtc_once. eapply step_brk; [|exact E]. right. right. vm_compute. discriminate. }
  assert (Hf : r = 6 * MIB /\ s.(brk) = 6 * MIB /\ s.(tbrk) = GUEST_MEM_TOP_VA /\ s.(guest_max_physmem) = 2 ^ 32).
  { vm_compute in E0. injection E0 as <-. vm_compute in E. injection E as <- <-. split_and!; reflexivity. }
  destruct Hf as (-> & Hb & Ht & Hm). exists s. split; [done|].
  assert (W : forall a, GUEST_MEM_START_VA <= a < 2 ^ 32 -> rounddown a GIB < rounddown GUEST_MEM_TOP_VA GIB ->
    (a < 6 * MIB -> mmu_walk s.(pt) a = Some a)
    /\ (6 * MIB <= rounddown a (if a <? GIB then PDE_REGION else PDPTE_REGION) -> mmu_walk s.(pt) a = None)).
  { intros a H1 H2. pose proof (@bottom_translation host_grants 32 true false s0 s a) as B. rewrite Hb, Ht, Hm in B.
    apply B; [lia|by right|exact E0|exact Hs|exact H1|exact H2]. }
  split; apply W; vm_compute; (reflexivity || discriminate || (split; [discriminate|reflexivity])).
Defined.
