(* ===== verification/MmapRegion.v ===== *)
(** * Lists of guest memory regions (km_mmap.c, list level)

    [machine.mmaps] keeps two TAILQs ordered by address: the regions in use
    (busy) and the address ranges that can be handed out again (free).  A TAILQ is
    a list; a pointer to one of its elements is a cursor: the elements before it
    (nearest first), the element, and the elements after it.  Locking brackets
    each operation and is not represented. *)
From S2P Require Import Prelude Machine MemGeom TopBreak.

Definition cursor : Type := list km_mmap_reg * km_mmap_reg * list km_mmap_reg.
Definition of_cursor (c : cursor) : list km_mmap_reg :=
  let '(l, r, t) := c in rev l ++ r :: t.

(** ** Field updates *)
Definition with_start v (r : km_mmap_reg) := mk_reg v r.(size) r.(flags) r.(protection) r.(km_flags) r.(filename) r.(offset).
Definition with_size v (r : km_mmap_reg) := mk_reg r.(start) v r.(flags) r.(protection) r.(km_flags) r.(filename) r.(offset).
Definition with_flags v (r : km_mmap_reg) := mk_reg r.(start) r.(size) v r.(protection) r.(km_flags) r.(filename) r.(offset).
Definition with_prot v (r : km_mmap_reg) := mk_reg r.(start) r.(size) r.(flags) v r.(km_flags) r.(filename) r.(offset).
Definition with_km_flags v (r : km_mmap_reg) := mk_reg r.(start) r.(size) r.(flags) r.(protection) v r.(filename) r.(offset).
Definition with_filename v (r : km_mmap_reg) := mk_reg r.(start) r.(size) r.(flags) r.(protection) r.(km_flags) v r.(offset).
Definition with_offset v (r : km_mmap_reg) := mk_reg r.(start) r.(size) r.(flags) r.(protection) r.(km_flags) r.(filename) v.
Definition with_clean (v : bool) (r : km_mmap_reg) :=
  with_km_flags (mk_km_flags r.(km_flags).(km_mmap_monitor) v r.(km_flags).(km_mmap_part_of_monitor)) r.

Definition rend (r : km_mmap_reg) : Z := r.(start) +u r.(size).
Definition is_monitor (r : km_mmap_reg) : bool :=
  r.(km_flags).(km_mmap_monitor) || r.(km_flags).(km_mmap_part_of_monitor).

(** A designated initializer: the fields it does not name are zero. *)
Definition reg0 (st sz prot : Z) (clean : bool) : km_mmap_reg :=
  mk_reg st sz 0 prot (mk_km_flags false clean false) None 0.

(** ** Parameter checks *)
Definition mmap_check_params (addr sz prot flags fd off : Z) : Z :=
  if negb (Z.land flags MAP_FIXED_NOREPLACE =? 0) then - EINVAL
  else if negb (Z.land flags MAP_FIXED =? 0) && (addr =? 0) then - EPERM
  else if (Z.land flags MAP_ANONYMOUS =? 0) && (fd <? 0) then - EBADF
  else 0.

Definition mumap_check_params (addr sz : Z) : Z :=
  if negb (addr =? roundup addr KM_PAGE_SIZE) || (sz =? 0) then - EINVAL else 0.

(** ** Searching *)

(** TAILQ_FOREACH with a test; the result is a cursor at the first match. *)
Fixpoint find_cursor (p : km_mmap_reg -> bool) (lrev l : list km_mmap_reg) : option cursor :=
  match l with
  | [] => None
  | r :: t => if p r then Some (lrev, r, t) else find_cursor p (r :: lrev) t
  end.

Definition km_mmap_find_free (sz : Z) (free : list km_mmap_reg) : option cursor :=
  find_cursor (fun ptr => sz <=? ptr.(size)) [] free.

Fixpoint find_address_from (lrev l : list km_mmap_reg) (address : Z) : option cursor :=
  match l with
  | [] => None
  | ptr :: t =>
      if rend ptr <=? address then find_address_from (ptr :: lrev) t address
      else if address <? ptr.(start) then None
      else Some (lrev, ptr, t)
  end.
Definition km_mmap_find_address (l : list km_mmap_reg) (address : Z) : option cursor :=
  find_address_from [] l address.

Definition km_find_reg_nolock (busy : list km_mmap_reg) (gva : Z) : option cursor :=
  find_cursor (fun r => (r.(start) <=? gva) && (gva <? rend r)) [] busy.

(** ** Joining neighbours *)
Definition same_filename (l r : option string) : bool :=
  match l, r with
  | Some a, Some b => String.eqb a b
  | None, None => true
  | _, _ => false
  end.

Definition ok_to_concat (recovery : bool) (lft rgt : km_mmap_reg) : bool :=
  if recovery then false
  else if negb (same_filename lft.(filename) rgt.(filename)) then false
  else (rend lft =? rgt.(start)) && (lft.(protection) =? rgt.(protection))
       && (lft.(flags) =? rgt.(flags)) && (data32 lft.(km_flags) =? data32 rgt.(km_flags)).

(** The element under the cursor survives and absorbs its neighbours.  Its
    neighbours are distinct list elements, which is what the assertion on the
    pointers checks. *)
Definition km_mmap_concat (recovery : bool) (c : cursor) : cursor :=
  let '(l, reg, t) := c in
  let '(l, reg) :=
    match l with
    | lft :: l' =>
        if ok_to_concat recovery lft reg
        then (l', with_size (reg.(size) +u lft.(size)) (with_start lft.(start) reg))
        else (l, reg)
    | [] => (l, reg)
    end in
  match t with
  | rgt :: t' =>
      if ok_to_concat recovery reg rgt
      then (l, with_size (reg.(size) +u rgt.(size)) reg, t')
      else (l, reg, t)
  | [] => (l, reg, t)
  end.

Section Ops.
  Context `{Host}.

(** ** Protection *)
Definition km_reg_make_clean (reg : km_mmap_reg) : M machine km_mmap_reg :=
  if negb (reg.(protection) =? PROT_NONE) && negb reg.(km_flags).(km_mmap_clean)
     && (match reg.(filename) with None => true | Some _ => false end)
  then
    let* m := get in
    let* _ := hcall (H_madvise (km_gva_to_kma_nocheck m reg.(start)) reg.(size) MADV_DONTNEED) in
    ret (with_clean true reg)
  else ret reg.

Definition km_mmap_mprotect_region (reg : km_mmap_reg) : M machine km_mmap_reg :=
  (if negb reg.(km_flags).(km_mmap_part_of_monitor) then
     let* m := get in
     let* _ := hcall (H_mprotect (km_gva_to_kma_nocheck m reg.(start)) reg.(size)
                        (protection_adjust reg.(protection))) in
     ret tt
   else ret tt) ;;;
  km_reg_make_clean reg.

(** ** Insertion *)

(** Position of [reg] in a list ordered by start; [None] when an overlap
    assertion fails. *)
Fixpoint insert_position (reg : km_mmap_reg) (lrev l : list km_mmap_reg)
    : option (list km_mmap_reg * list km_mmap_reg) :=
  match l with
  | [] => Some (lrev, [])
  | ptr :: t =>
      if reg.(start) <? ptr.(start)
      then if rend reg <=? ptr.(start) then Some (lrev, l) else None
      else if (ptr.(start) <? reg.(start)) && (rend ptr <=? reg.(start))
           then insert_position reg (ptr :: lrev) t else None
  end.

Definition km_mmap_insert (reg : km_mmap_reg) (l : list km_mmap_reg) : M machine cursor :=
  let* (lrev, t) := lift (insert_position reg [] l) in
  let* reg := km_mmap_mprotect_region reg in
  ret (lrev, reg, t).

Definition km_mmap_insert_busy (reg : km_mmap_reg) : M machine unit :=
  let* m := get in
  let* c := km_mmap_insert reg m.(mmaps_busy) in
  modify (set_mmaps_busy (of_cursor (km_mmap_concat m.(recovery_mode) c))).

Context `{!TopBreak}.

Definition km_mmap_insert_free (reg : km_mmap_reg) : M machine unit :=
  let reg := with_filename None (with_flags 0 (with_prot PROT_NONE reg)) in
  let reg := with_clean false (with_offset 0 reg) in
  let* m := get in
  let* c := km_mmap_insert reg m.(mmaps_free) in
  let '(l, reg, t) := km_mmap_concat m.(recovery_mode) c in
  modify (set_mmaps_free (of_cursor (l, reg, t))) ;;;
  let* tb := km_mem_tbrk_op 0 in
  if reg.(start) =? tb then
    let* _ := km_mem_tbrk_op (rend reg) in
    modify (set_mmaps_free (rev l ++ t))
  else ret tt.

(** ** Actions on a region of the busy list *)
Inductive km_mmap_action := act_mprotect | act_move_to_free | act_region_clean_concat.

(** The region has been taken out of the busy list by the caller's cursor. *)
Definition km_mmap_move_to_free (reg : km_mmap_reg) : M machine unit :=
  let* reg :=
    (if negb (Z.land reg.(flags) MAP_SHARED =? 0)
        || (match reg.(filename) with Some _ => true | None => false end)
     then
       let* m := get in
       let start_kma := default 0 (km_gva_to_kma m reg.(start)) in
       let new_flags := Z.lor (Z.lor (Z.land reg.(flags) (Z.lnot MAP_SHARED)) MAP_PRIVATE) MAP_ANONYMOUS in
       let* tmp := hcall (H_mmap start_kma reg.(size) reg.(protection) (Z.lor new_flags MAP_FIXED) (-1) 0) in
       if negb (tmp =? start_kma) then ret reg else ret (with_flags new_flags reg)
     else ret reg) in
  km_mmap_insert_free reg.

Definition km_mmap_mprotect (c : cursor) : M machine cursor :=
  let '(l, reg, t) := c in
  let* m := get in
  let* reg := km_mmap_mprotect_region reg in
  ret (km_mmap_concat m.(recovery_mode) (l, reg, t)).

Definition km_mmap_region_clean_concat (c : cursor) (mreg : km_mmap_reg) : M machine cursor :=
  let '(l, reg, t) := c in
  let* m := get in
  let reg := with_flags (-1) reg in
  let* reg := (if mreg.(km_flags).(km_mmap_clean) then km_reg_make_clean reg else ret reg) in
  let reg := with_filename None (with_offset 0 reg) in
  ret (km_mmap_concat m.(recovery_mode) (l, reg, t)).

(** [extra], the right part of [reg] cut at [at]. *)
Definition split_left (reg : km_mmap_reg) (cut : Z) : km_mmap_reg := with_size (cut -u reg.(start)) reg.
Definition split_right (reg : km_mmap_reg) (cut : Z) : km_mmap_reg :=
  let lsize := cut -u reg.(start) in
  let extra := with_size (reg.(size) -u lsize) (with_start cut reg) in
  match reg.(filename) with
  | Some _ => with_offset (reg.(offset) + lsize) extra
  | None => extra
  end.

(** The loop of km_mmap_busy_range_apply; [lrev] and [rest] are the busy list
    around the loop's position.  The result is the return code and the list. *)
Fixpoint busy_range_loop (fuel : nat) (mreg : km_mmap_reg) (action : km_mmap_action)
    (lrev rest : list km_mmap_reg) : M machine (Z * list km_mmap_reg) :=
  match fuel with
  | O => fun _ => NoFuel
  | S fuel' =>
      let addr := mreg.(start) in
      let top := addr +u mreg.(size) in
      match rest with
      | [] => ret (0, rev lrev)
      | reg :: tl =>
          if rend reg <=? addr then busy_range_loop fuel' mreg action (reg :: lrev) tl
          else if top <=? reg.(start) then ret (0, rev lrev ++ rest)
          else if is_monitor reg then busy_range_loop fuel' mreg action (reg :: lrev) tl
          else if reg.(start) <? addr then
            let* p := hcall H_calloc in
            if p =? 0 then ret (- ENOMEM, rev lrev ++ rest)
            else busy_range_loop fuel' mreg action
                   (split_left reg addr :: lrev) (split_right reg addr :: tl)
          else
            let process (reg : km_mmap_reg) (rgt : list km_mmap_reg) (stop : bool) :=
              km_assert ((addr <=? reg.(start)) && (rend reg <=? top)) ;;;
              let reg := with_prot mreg.(protection) reg in
              match action with
              | act_move_to_free =>
                  km_mmap_move_to_free reg ;;;
                  if stop then ret (0, rev lrev ++ rgt)
                  else busy_range_loop fuel' mreg action lrev rgt
              | _ =>
                  let* (l', reg', r') :=
                    (match action with
                     | act_mprotect => km_mmap_mprotect (lrev, reg, rgt)
                     | _ => km_mmap_region_clean_concat (lrev, reg, rgt) mreg
                     end) in
                  if stop then ret (0, of_cursor (l', reg', r'))
                  else busy_range_loop fuel' mreg action (reg' :: l') r'
              end in
            if top <? rend reg then
              let* p := hcall H_calloc in
              if p =? 0 then ret (- ENOMEM, rev lrev ++ rest)
              else process (split_left reg top) (split_right reg top :: tl) true
            else process reg tl false
      end
  end.

Definition km_mmap_busy_range_apply (mreg : km_mmap_reg) (action : km_mmap_action) : M machine Z :=
  let* m := get in
  let* (rc, busy) := busy_range_loop (S (S (2 * length m.(mmaps_busy)))) mreg action [] m.(mmaps_busy) in
  modify (set_mmaps_busy busy) ;;;
  ret rc.

End Ops.

(** ** Contiguity *)
Fixpoint check_contiguous_from (l : list km_mmap_reg) (addr sz last_end : Z) : Z :=
  match l with
  | [] => if last_end =? 0 then -1 else 0
  | reg :: t =>
      if rend reg <? addr then check_contiguous_from t addr sz last_end
      else if addr +u sz <=? reg.(start) then
        if addr +u sz <=? last_end then 0 else -1
      else if (negb (last_end =? 0) && negb (last_end =? reg.(start)))
              || ((last_end =? 0) && (addr <? reg.(start)))
              || reg.(km_flags).(km_mmap_monitor) || reg.(km_flags).(km_mmap_part_of_monitor)
      then -1
      else check_contiguous_from t addr sz (rend reg)
  end.
Definition km_mmap_busy_check_contiguous (busy : list km_mmap_reg) (addr sz : Z) : Z :=
  check_contiguous_from busy addr sz 0.
