(* ===== verification/MmapGuest.v ===== *)
(** * Guest mmap, munmap, mprotect, mremap and friends (km_mmap.c, guest level)

    The operations the hypercalls of the guest and the monitor itself use, on top
    of the region lists.  Each public operation holds the mmaps mutex around its
    [_nolock] body, so an operation is one step. *)
From S2P Require Import Prelude Machine MemGeom TopBreak MmapRegion.

(** The file descriptor component as the mmap code sees it: km_fs_g2h_fd (the
    host descriptor, and whether the file is one km implements itself),
    km_guestfd_name, and realpath(3) of the C library. *)
Class GuestFiles := {
  km_fs_g2h_fd : Z -> Z * bool;
  km_guestfd_name : Z -> option string;
  realpath : string -> option string;
}.

(** The vcpu fields munmap works with. *)
Record km_vcpu_map := mk_vcpu_map { stack_top : Z; mapself_base : Z; mapself_size : Z }.

Inductive mmap_allocation_type_e := MMAP_ALLOC_GUEST | MMAP_ALLOC_MONITOR.

Section Guest.
  Context `{Host} `{!TopBreak}.

Definition km_guest_mmap_init : M machine unit :=
  modify (fun m => set_mmaps_busy [] (set_mmaps_free [] m)).

(** km_clean_list empties and frees a list. *)
Definition km_guest_mmap_fini : M machine unit :=
  modify (fun m => set_mmaps_free [] (set_mmaps_busy [] m)).

(** ** Protection, advice, sync *)
Definition km_guest_mprotect_nolock (addr sz prot : Z) : M machine Z :=
  let* m := get in
  if (addr +u sz <=? m.(brk)) && (GUEST_MEM_START_VA <=? addr) then
    let* rc := hcall (H_mprotect (km_gva_to_kma_nocheck m addr) sz (protection_adjust prot)) in
    ret (if rc <? 0 then rc else 0)
  else if negb (km_mmap_busy_check_contiguous m.(mmaps_busy) addr sz =? 0) then ret (- ENOMEM)
  else
    let* rc := km_mmap_busy_range_apply (reg0 addr sz prot false) act_mprotect in
    ret (if negb (rc =? 0) then - ENOMEM else 0).

Definition km_guest_madvise_nolock (addr sz advise : Z) : M machine Z :=
  km_assert ((advise =? MADV_DONTNEED) || (advise =? MADV_HUGEPAGE) || (advise =? MADV_WILLNEED)) ;;;
  let* m := get in
  if negb (km_mmap_busy_check_contiguous m.(mmaps_busy) addr sz =? 0) then ret (- ENOMEM)
  else
    let* rc := hcall (H_madvise (km_gva_to_kma_nocheck m addr) sz advise) in
    ret (if negb (rc =? 0) then rc else 0).

Definition km_guest_msync_nolock (addr sz flag : Z) : M machine Z :=
  let* m := get in
  if negb (km_mmap_busy_check_contiguous m.(mmaps_busy) addr sz =? 0) then ret (- ENOMEM)
  else
    let* rc := hcall (H_msync (km_gva_to_kma_nocheck m addr) sz flag) in
    ret (if negb (rc =? 0) then rc else 0).

Definition km_guest_munmap_nolock (addr sz : Z) : M machine Z :=
  km_mmap_busy_range_apply (reg0 addr sz PROT_NONE false) act_move_to_free.

(** ** New regions *)
Definition sharing : Z := Z.lor MAP_PRIVATE MAP_SHARED.

(** The result is the return code and the updated region. *)
Definition km_mmap_change_region_sharing (reg : km_mmap_reg) (existing_flags desired_flags hostfd : Z)
    : M machine (Z * km_mmap_reg) :=
  if negb (Z.land existing_flags sharing =? Z.land desired_flags sharing) then
    let* m := get in
    let start_kma := default 0 (km_gva_to_kma m reg.(start)) in
    let* tmp := hcall (H_mmap start_kma reg.(size) reg.(protection) (Z.lor MAP_FIXED desired_flags) hostfd 0) in
    if negb (tmp =? start_kma) then ret (tmp, reg)
    else ret (0, with_flags (Z.lor (Z.land reg.(flags) (Z.lnot sharing)) (Z.land desired_flags sharing)) reg)
  else ret (0, reg).

(** Tail of km_mmap_add_region once the address range is found. *)
Definition add_region_finish (reg : km_mmap_reg) (existing_flags prot flags hostfd : Z)
    (at_ : mmap_allocation_type_e) : M machine Z :=
  let mon := match at_ with MMAP_ALLOC_MONITOR => true | MMAP_ALLOC_GUEST => false end in
  let reg := mk_reg reg.(start) reg.(size) flags prot (mk_km_flags mon false false) None 0 in
  let* (rc, reg) := km_mmap_change_region_sharing reg existing_flags flags hostfd in
  if rc <? 0 then km_mmap_insert_free reg ;;; ret (u64 rc)
  else km_mmap_insert_busy reg ;;; ret reg.(start).

Definition km_mmap_add_region (sz prot mflags hostfd : Z) (at_ : mmap_allocation_type_e) : M machine Z :=
  let* m := get in
  match km_mmap_find_free sz m.(mmaps_free) with
  | Some (l, reg, t) =>
      km_assert (sz <=? reg.(size)) ;;;
      if sz <? reg.(size) then
        let* p := hcall H_calloc in
        if p =? 0 then ret (neg_errno ENOMEM)
        else
          let busy := with_size sz reg in
          let reg' := with_size (reg.(size) -u sz) (with_start (reg.(start) +u sz) reg) in
          modify (set_mmaps_free (of_cursor (l, reg', t))) ;;;
          add_region_finish busy reg.(flags) prot mflags hostfd at_
      else
        km_assert (reg.(size) =? sz) ;;;
        modify (set_mmaps_free (rev l ++ t)) ;;;
        add_region_finish reg reg.(flags) prot mflags hostfd at_
  | None =>
      let* p := hcall H_calloc in
      if p =? 0 then ret (neg_errno ENOMEM)
      else
        let want := m.(tbrk) -u sz in
        let* r := km_mem_tbrk_op want in
        if negb (r =? want) then ret r
        else add_region_finish (reg0 r sz 0 false) (Z.lor MAP_ANONYMOUS MAP_PRIVATE) prot mflags hostfd at_
  end.

Context `{!GuestFiles}.

(** Tail of km_guest_mmap_nolock: the host maps the file or the fresh memory over
    the range, and the regions under it become one. *)
Definition mmap_install (gva sz prot flags fd hostfd off : Z) : M machine Z :=
  let* m := get in
  let* kma := lift (km_gva_to_kma m gva) in
  let* r := hcall (H_mmap kma sz prot (Z.lor flags MAP_FIXED) hostfd off) in
  if negb (r =? kma) then ret (u64 r)
  else
    let* rc := km_mmap_busy_range_apply (reg0 gva sz prot (hostfd <? 0)) act_region_clean_concat in
    if negb (rc =? 0) then ret (u64 rc)
    else
      let* m := get in
      let* (l, reg, t) := lift (km_find_reg_nolock m.(mmaps_busy) gva) in
      km_assert ((reg.(start) =? gva) && (reg.(size) =? sz)) ;;;
      let reg := with_filename None (with_prot prot (with_flags (Z.land flags (Z.lnot MAP_FIXED)) reg)) in
      let reg := match km_guestfd_name fd with
                 | Some name => with_offset off (with_filename (realpath name) reg)
                 | None => reg
                 end in
      modify (set_mmaps_busy (of_cursor (km_mmap_concat m.(recovery_mode) (l, reg, t)))) ;;;
      ret gva.

Definition km_guest_mmap_nolock (gva sz prot flags fd off : Z) (type : mmap_allocation_type_e) : M machine Z :=
  let fd := if (Z.land flags MAP_ANONYMOUS =? MAP_ANONYMOUS) && negb (fd =? -1) then -1 else fd in
  let (h, ops) := if 0 <=? fd then km_fs_g2h_fd fd else (-1, false) in
  if (0 <=? fd) && ((h <? 0) || ops) then ret (neg_errno EBADF)
  else
    let hostfd := if 0 <=? fd then h else -1 in
    let fixed := Z.land flags MAP_FIXED =? MAP_FIXED in
    let* m := get in
    if fixed && negb (km_mmap_busy_check_contiguous m.(mmaps_busy) gva sz =? 0) then ret (neg_errno EINVAL)
    else
      let* gva := (if fixed then ret gva else km_mmap_add_region sz prot flags hostfd type) in
      if negb fixed && (km_syscall_ok gva <? 0) then ret gva
      else if negb fixed && (fd <? 0) then ret gva
      else
        km_assert (match type with MMAP_ALLOC_GUEST => true | MMAP_ALLOC_MONITOR => false end) ;;;
        mmap_install gva sz prot flags fd hostfd off.

Definition km_guest_mmap_impl (gva sz prot flags fd off : Z) (type : mmap_allocation_type_e) : M machine Z :=
  let rc := mmap_check_params gva sz prot flags fd off in
  if negb (rc =? 0) then ret (u64 rc)
  else km_guest_mmap_nolock gva (roundup sz KM_PAGE_SIZE) prot flags fd off type.

Definition km_guest_mmap (gva sz prot flags fd off : Z) : M machine Z :=
  km_guest_mmap_impl gva sz prot flags fd off MMAP_ALLOC_GUEST.

Definition km_guest_mmap_simple_monitor (sz : Z) : M machine Z :=
  let* r := km_guest_mmap_impl 0 sz (Z.lor PROT_READ PROT_WRITE) (Z.lor MAP_PRIVATE MAP_ANONYMOUS) (-1) 0
              MMAP_ALLOC_MONITOR in
  ret (u64 (km_syscall_ok r)).

Definition km_guest_mmap_simple (sz : Z) : M machine Z :=
  let* r := km_guest_mmap_impl 0 sz (Z.lor PROT_READ PROT_WRITE) (Z.lor MAP_PRIVATE MAP_ANONYMOUS) (-1) 0
              MMAP_ALLOC_GUEST in
  ret (u64 (km_syscall_ok r)).

(** [tag] is the name shown for the pages; running out of memory is ENOMEM. *)
Definition km_monitor_pages_in_guest (gva sz prot : Z) (tag : option string) : M machine Z :=
  let* p := hcall H_calloc in
  if p =? 0 then ret ENOMEM
  else
    km_mmap_insert_busy (mk_reg gva sz 0 prot (mk_km_flags false false true) tag 0) ;;;
    ret 0.

(** ** Unmapping *)
Definition km_guest_munmap (vcpu : km_vcpu_map) (addr sz : Z) : M machine (Z * km_vcpu_map) :=
  let sz := roundup sz KM_PAGE_SIZE in
  let rc := mumap_check_params addr sz in
  if negb (rc =? 0) then ret (rc, vcpu)
  else if (addr <=? vcpu.(stack_top)) && (vcpu.(stack_top) <? addr +u sz) then
    km_assert ((vcpu.(mapself_base) =? 0) && (vcpu.(mapself_size) =? 0)) ;;;
    ret (0, mk_vcpu_map vcpu.(stack_top) addr sz)
  else
    let* rc := km_guest_munmap_nolock addr sz in
    ret (rc, vcpu).

Definition km_delayed_munmap (vcpu : km_vcpu_map) : M machine km_vcpu_map :=
  if 0 <? vcpu.(mapself_size) then
    let* rc := km_guest_munmap_nolock vcpu.(mapself_base) vcpu.(mapself_size) in
    km_assert (rc =? 0) ;;;
    ret (mk_vcpu_map vcpu.(stack_top) 0 0)
  else ret vcpu.

Definition prot_bits : Z :=
  Z.lor (Z.lor (Z.lor (Z.lor PROT_READ PROT_WRITE) PROT_EXEC) PROT_GROWSDOWN) PROT_GROWSUP.

Definition km_guest_mprotect (addr sz prot : Z) : M machine Z :=
  if negb (Z.land prot (Z.lnot prot_bits) =? 0) then ret (- EINVAL)
  else
    let sz' := roundup sz KM_PAGE_SIZE in
    if negb (addr =? rounddown addr KM_PAGE_SIZE) || (sz' =? 0) then ret (- EINVAL)
    else km_guest_mprotect_nolock addr sz' prot.

Definition km_guest_madvise (addr sz advise : Z) : M machine Z :=
  if negb (advise =? MADV_DONTNEED) && negb (advise =? MADV_HUGEPAGE) && negb (advise =? MADV_WILLNEED)
  then ret (- EINVAL)
  else
    let sz' := roundup sz KM_PAGE_SIZE in
    if negb (addr =? rounddown addr KM_PAGE_SIZE) || (sz' =? 0) then ret (- EINVAL)
    else km_guest_madvise_nolock addr sz' advise.

Definition km_guest_msync (addr sz flag : Z) : M machine Z :=
  if negb (addr =? rounddown addr KM_PAGE_SIZE) then ret (- EINVAL)
  else km_guest_msync_nolock addr sz flag.

(** ** Remapping *)

(** The cursor is [ptr] in the busy list. *)
Definition km_mremap_grow (c : cursor) (old_addr old_size sz : Z) (may_move : bool) : M machine Z :=
  let '(l, ptr, t) := c in
  let needed := sz -u old_size in
  km_assert (negb ptr.(km_flags).(km_mmap_monitor) && negb ptr.(km_flags).(km_mmap_part_of_monitor)) ;;;
  km_assert ((ptr.(start) <=? old_addr) && (old_addr <? rend ptr)
             && (old_addr +u old_size <=? rend ptr) && (old_size <? sz)) ;;;
  let* m := get in
  let in_place := (rend ptr =? old_addr +u old_size)
                  && match t with next :: _ => needed <=? next.(start) -u rend ptr | [] => false end in
  if in_place then
    let* (fl, donor, ft) := lift (km_mmap_find_address m.(mmaps_free) (rend ptr)) in
    km_assert (needed <=? donor.(size)) ;;;
    let ptr := with_size (ptr.(size) +u needed) ptr in
    (if ptr.(km_flags).(km_mmap_clean) then
       let* _ := km_reg_make_clean (reg0 donor.(start) needed PROT_WRITE false) in ret tt
     else ret tt) ;;;
    let* ptr := km_mmap_mprotect_region ptr in
    (if donor.(size) =? needed then modify (set_mmaps_free (rev fl ++ ft))
     else
       let donor := with_size (donor.(size) -u needed) (with_start (donor.(start) +u needed) donor) in
       modify (set_mmaps_free (of_cursor (fl, donor, ft)))) ;;;
    modify (set_mmaps_busy (of_cursor (km_mmap_concat m.(recovery_mode) (l, ptr, t)))) ;;;
    ret old_addr
  else if negb may_move then ret (neg_errno ENOMEM)
  else
    let* r := km_guest_mmap_nolock 0 sz ptr.(protection) ptr.(flags) (-1) 0 MMAP_ALLOC_GUEST in
    if km_syscall_ok r <? 0 then ret (neg_errno ENOMEM)
    else
      let* m := get in
      let* from := lift (km_gva_to_kma m old_addr) in
      let* _ := hcall (H_memcpy (default 0 (km_gva_to_kma m r)) from old_size) in
      let* rc := km_guest_munmap_nolock old_addr old_size in
      if rc <? 0 then abort else ret r.

Definition km_mremap_shrink (c : cursor) (old_addr old_size sz : Z) : M machine Z :=
  let '(_, ptr, _) := c in
  km_assert ((ptr.(start) <=? old_addr) && (old_addr <? rend ptr) && (old_addr +u old_size <=? rend ptr)) ;;;
  let* rc := km_guest_munmap_nolock (old_addr +u sz) (old_size -u sz) in
  if rc <? 0 then ret (neg_errno EFAULT) else ret old_addr.

Definition km_guest_mremap_nolock (old_addr old_size sz flags : Z) : M machine Z :=
  let* m := get in
  match km_mmap_find_address m.(mmaps_busy) old_addr with
  | None => ret (neg_errno EFAULT)
  | Some (l, ptr, t) =>
      if rend ptr <? old_addr +u old_size then ret (neg_errno EFAULT)
      else if ptr.(km_flags).(km_mmap_monitor) || ptr.(km_flags).(km_mmap_part_of_monitor)
      then ret (neg_errno EFAULT)
      else if old_size <? sz
      then km_mremap_grow (l, ptr, t) old_addr old_size sz (negb (Z.land flags MREMAP_MAYMOVE =? 0))
      else km_mremap_shrink (l, ptr, t) old_addr old_size sz
  end.

Definition km_guest_mremap (old_addr old_size sz flags : Z) : M machine Z :=
  if negb (old_addr mod KM_PAGE_SIZE =? 0) || (old_size =? 0) || (sz =? 0)
     || negb (Z.land flags (Z.lnot MREMAP_MAYMOVE) =? 0)
  then ret (neg_errno EINVAL)
  else
    let old_size := roundup old_size KM_PAGE_SIZE in
    let sz := roundup sz KM_PAGE_SIZE in
    if old_size =? sz then ret old_addr
    else km_guest_mremap_nolock old_addr old_size sz flags.

(** ** Accessibility *)
Record Elf64_Phdr := mk_phdr { p_vaddr : Z; p_memsz : Z; p_flags : Z }.
Record km_payload := mk_payload { km_phdr : list Elf64_Phdr; km_load_adjust : Z }.
Definition PF_X : Z := 1.
Definition PF_W : Z := 2.
Definition PF_R : Z := 4.

Definition phdr_prot (ph : Elf64_Phdr) : Z :=
  let rprot := if negb (Z.land ph.(p_flags) PF_R =? 0) then PROT_READ else 0 in
  let rprot := if negb (Z.land ph.(p_flags) PF_W =? 0) then Z.lor rprot PROT_WRITE else rprot in
  if negb (Z.land ph.(p_flags) PF_X =? 0) then Z.lor rprot PROT_EXEC else rprot.

Fixpoint phdrs_accessable (phs : list Elf64_Phdr) (adjust gva sz prot : Z) : bool :=
  match phs with
  | [] => false
  | ph :: rest =>
      if (gva <? ph.(p_vaddr) +u adjust) || (u64 (ph.(p_vaddr) + adjust + ph.(p_memsz)) <? gva +u sz)
      then phdrs_accessable rest adjust gva sz prot
      else negb ((phdr_prot ph =? 0) || negb (Z.land prot (phdr_prot ph) =? prot))
  end.
Definition km_is_payload_gva_accessable (payload : km_payload) (gva sz prot : Z) : bool :=
  phdrs_accessable payload.(km_phdr) payload.(km_load_adjust) gva sz prot.

Definition km_is_gva_accessable (guest dynlinker : km_payload) (gva sz prot : Z) : M machine Z :=
  let* m := get in
  match km_gva_to_kma m gva with
  | None => ret 0
  | Some _ =>
      if gva <? m.(brk) then
        ret (if km_is_payload_gva_accessable guest gva sz prot then 1
             else if km_is_payload_gva_accessable dynlinker gva sz prot then 1 else 0)
      else
        match km_find_reg_nolock m.(mmaps_busy) gva with
        | None => ret 0
        | Some (_, reg, _) =>
            if rend reg <? gva +u sz then abort
            else ret (if negb (Z.land reg.(protection) prot =? prot) then 0 else 1)
        end
  end.

(** ** Snapshot recovery *)
Definition km_mmap_set_recovery_mode (mode : bool) : M machine unit := modify (set_recovery_mode mode).

Definition km_mmap_set_filename (base limit : Z) (name : string) : M machine unit :=
  let* m := get in
  if base <? m.(tbrk) then ret tt
  else
    let* (l, reg, t) := lift (km_find_reg_nolock m.(mmaps_busy) base) in
    match reg.(filename) with
    | None => modify (set_mmaps_busy (of_cursor (l, with_filename (Some name) reg, t)))
    | Some _ => ret tt
    end.

End Guest.
