(* ===== verification/MmapList.v ===== *)
(** * Ordered region lists and what they mean

    A region list is read as a map from addresses to attributes ([view]).  This
    file defines the order invariant of the lists and shows that joining
    neighbours never changes the map, that insertion adds exactly one region, and
    that the contiguity test of km_mmap.c is exact on well-formed busy lists. *)
From S2P Require Import Prelude Machine MemGeom TopBreak MmapRegion.

(** ** Meaning of a list *)
Record attr := mk_attr { at_prot : Z; at_flags : Z; at_mon : bool; at_part : bool; at_file : option string }.

Definition attr_of (r : km_mmap_reg) : attr :=
  mk_attr r.(protection) r.(flags) r.(km_flags).(km_mmap_monitor)
    r.(km_flags).(km_mmap_part_of_monitor) r.(filename).

Definition covers (r : km_mmap_reg) (a : Z) : bool := (r.(start) <=? a) && (a <? r.(start) + r.(size)).

Fixpoint view (l : list km_mmap_reg) (a : Z) : option attr :=
  match l with
  | [] => None
  | r :: t => if covers r a then Some (attr_of r) else view t a
  end.

(** Ordered by address, disjoint, nonempty, inside [lo, hi). *)
Fixpoint ordered (lo : Z) (l : list km_mmap_reg) (hi : Z) : Prop :=
  match l with
  | [] => lo <= hi
  | r :: t => lo <= r.(start) /\ 0 < r.(size) /\ ordered (r.(start) + r.(size)) t hi
  end.

(** No two neighbours touch. *)
Fixpoint gapped (l : list km_mmap_reg) : Prop :=
  match l with
  | r :: ((r' :: _) as t) => r.(start) + r.(size) < r'.(start) /\ gapped t
  | _ => True
  end.

Definition guests (l : list km_mmap_reg) : Prop := Forall (fun r => is_monitor r = false) l.
Definition monitors (l : list km_mmap_reg) : Prop := Forall (fun r => is_monitor r = true) l.

(** Addresses stay far below the wrap-around. *)
Definition addr_limit : Z := 2 ^ 62.

(** ** Generic facts *)
Lemma view_app l1 l2 a : view (l1 ++ l2) a = view l1 a ∪ view l2 a.
Proof.
  induction l1 as [|r l1 IH]; cbn; [by destruct (view l2 a)|].
  destruct (covers r a); [by destruct (view l2 a)|done].
Qed.

Lemma ordered_le lo l hi : ordered lo l hi -> lo <= hi.
Proof. revert lo. induction l as [|r l IH]; cbn; intros lo; [done|]. intros (?&?&?%IH). lia. Qed.

Lemma ordered_weaken lo lo' l hi hi' : ordered lo l hi -> lo' <= lo -> hi <= hi' -> ordered lo' l hi'.
Proof.
  revert lo lo'. induction l as [|r l IH]; cbn; intros lo lo' Ho Hl Hh; [lia|].
  destruct Ho as (?&?&?). split_and!; [lia|done|]. eapply IH; eauto. lia.
Qed.

Lemma ordered_app lo l1 l2 hi :
  ordered lo (l1 ++ l2) hi <-> exists mid, ordered lo l1 mid /\ ordered mid l2 hi.
Proof.
  revert lo. induction l1 as [|r l1 IH]; cbn; intros lo.
  - split; [intros Ho; exists lo; split; [lia|done]|].
    intros (mid & Hm & Ho). eapply ordered_weaken; eauto. lia.
  - rewrite IH. split.
    + intros (?&?&mid&?&?). exists mid. auto.
    + intros (mid & (?&?&?) & ?). split_and!; auto. exists mid. auto.
Qed.

Lemma view_outside lo l hi a : ordered lo l hi -> a < lo \/ hi <= a -> view l a = None.
Proof.
  revert lo. induction l as [|r l IH]; cbn; intros lo Ho Ha; [done|].
  destruct Ho as (?&?&Ho). pose proof (ordered_le _ _ _ Ho). unfold covers.
  destruct (Z.leb_spec r.(start) a), (Z.ltb_spec a (r.(start) + r.(size))); cbn; try lia;
    (eapply IH; [exact Ho|lia]).
Qed.

Lemma view_some_elem l a x : view l a = Some x -> exists r, r ∈ l /\ covers r a = true /\ attr_of r = x.
Proof.
  induction l as [|r l IH]; cbn; [done|]. destruct (covers r a) eqn:E.
  - intros [= <-]. exists r. split_and!; [apply elem_of_cons; by left|done|done].
  - intros (r' & Hin & ?)%IH. exists r'. split; [apply elem_of_cons; by right|done].
Qed.

Lemma covers_iff r a : covers r a = true <-> r.(start) <= a < r.(start) + r.(size).
Proof. unfold covers. rewrite andb_true_iff, Z.leb_le, Z.ltb_lt. done. Qed.

Lemma covers_false r a : covers r a = false <-> ~ (r.(start) <= a < r.(start) + r.(size)).
Proof. rewrite <- covers_iff. destruct (covers r a); split; try done; intros; by exfalso. Qed.

Lemma ordered_elem lo l hi r :
  ordered lo l hi -> r ∈ l -> lo <= r.(start) /\ 0 < r.(size) /\ r.(start) + r.(size) <= hi.
Proof.
  revert lo. induction l as [|x l IH]; cbn; intros lo Ho Hin; [by apply not_elem_of_nil in Hin|].
  destruct Ho as (?&?&Ho). pose proof (ordered_le _ _ _ Ho).
  apply elem_of_cons in Hin as [->|Hin]; [lia|]. pose proof (IH _ Ho Hin). lia.
Qed.

Lemma rend_small r hi : 0 <= r.(start) -> 0 < r.(size) -> r.(start) + r.(size) <= hi -> hi <= addr_limit ->
  rend r = r.(start) + r.(size).
Proof. intros. unfold rend. apply u64_small. unfold is_u64, two64, addr_limit in *. lia. Qed.

Lemma ordered_rend lo l hi r :
  0 <= lo -> hi <= addr_limit -> ordered lo l hi -> r ∈ l -> rend r = r.(start) + r.(size).
Proof.
  intros ?? Ho Hin. pose proof (ordered_elem _ _ _ _ Ho Hin). eapply (rend_small r hi); lia.
Qed.

Lemma ordered_rev_mid lo l r t hi :
  ordered lo (rev l ++ r :: t) hi ->
  ordered lo (rev l) r.(start) /\ 0 < r.(size) /\ ordered (r.(start) + r.(size)) t hi.
Proof.
  rewrite ordered_app. intros (mid & H1 & (?&?&?)). split_and!; auto. eapply ordered_weaken; eauto; lia.
Qed.

Lemma ordered_mid lo l r t hi :
  ordered lo (rev l) r.(start) -> 0 < r.(size) -> ordered (r.(start) + r.(size)) t hi ->
  ordered lo (rev l ++ r :: t) hi.
Proof. intros. apply ordered_app. exists r.(start). split; [done|]. cbn. split_and!; auto. lia. Qed.

Lemma guests_app l1 l2 : guests (l1 ++ l2) <-> guests l1 /\ guests l2.
Proof. apply Forall_app. Qed.

Lemma guests_rev l : guests (rev l) <-> guests l.
Proof. unfold guests. rewrite !List.Forall_forall. by setoid_rewrite <- in_rev. Qed.

Lemma is_monitor_attr r : is_monitor r = at_mon (attr_of r) || at_part (attr_of r).
Proof. done. Qed.

Lemma same_filename_eq a b : same_filename a b = true -> a = b.
Proof. destruct a, b; cbn; try done. intros ->%String.eqb_eq. done. Qed.

Lemma data32_inj f g : data32 f = data32 g -> f = g.
Proof. destruct f as [[] [] []], g as [[] [] []]; cbn; done. Qed.

Lemma ok_to_concat_true rec a b :
  ok_to_concat rec a b = true -> rec = false /\ rend a = b.(start) /\ attr_of a = attr_of b
    /\ a.(km_flags) = b.(km_flags).
Proof.
  unfold ok_to_concat. destruct rec; [done|].
  destruct (same_filename a.(filename) b.(filename)) eqn:E; [|done]. cbn [negb].
  rewrite !andb_true_iff, !Z.eqb_eq. intros [[[H1 H2] H3] H4].
  apply data32_inj in H4. apply same_filename_eq in E. unfold attr_of. rewrite H2, H3, H4, E. auto.
Qed.

Lemma ok_to_concat_mon rec a b : is_monitor a <> is_monitor b -> ok_to_concat rec a b = false.
Proof.
  intros Hne. destruct (ok_to_concat rec a b) eqn:E; [|done].
  apply ok_to_concat_true in E as (_ & _ & Ha & _). exfalso. apply Hne.
  rewrite !is_monitor_attr. by rewrite Ha.
Qed.

(** ** Joining neighbours *)
Lemma view_join x y z a :
  0 < x.(size) -> 0 < y.(size) -> x.(start) + x.(size) = y.(start) -> attr_of x = attr_of y ->
  z.(start) = x.(start) -> z.(size) = x.(size) + y.(size) -> attr_of z = attr_of y ->
  view [z] a = view [x; y] a.
Proof.
  intros Hx Hy Hxy Ha H1 H2 H3. cbn. unfold covers. rewrite H1, H2, H3, Ha, <- Hxy.
  destruct (Z.leb_spec x.(start) a), (Z.leb_spec (x.(start) + x.(size)) a),
    (Z.ltb_spec a (x.(start) + (x.(size) + y.(size)))), (Z.ltb_spec a (x.(start) + x.(size))),
    (Z.ltb_spec a (x.(start) + x.(size) + y.(size))); cbn; try done; lia.
Qed.

(** What a concat does to a list of guest regions in front of monitor regions. *)
Record joined (lo hi : Z) (l : list km_mmap_reg) (r : km_mmap_reg) (t : list km_mmap_reg)
    (l' : list km_mmap_reg) (r' : km_mmap_reg) (t' : list km_mmap_reg) : Prop := {
  j_ordered : ordered lo (rev l' ++ r' :: t') hi;
  j_view : forall a, view (rev l' ++ r' :: t') a = view (rev l ++ r :: t) a;
  j_attr : attr_of r' = attr_of r;
  j_flags : r'.(km_flags) = r.(km_flags);
  j_left : l' = l \/ exists x, l = x :: l' /\ attr_of x = attr_of r;
  j_right : t' = t \/ exists x, t = x :: t' /\ attr_of x = attr_of r;
  j_start : r'.(start) <= r.(start);
  j_end : r.(start) + r.(size) <= r'.(start) + r'.(size);
}.

Lemma joined_id lo hi l r t : ordered lo (rev l ++ r :: t) hi -> joined lo hi l r t l r t.
Proof. intros. split; auto; lia. Qed.

Lemma concat_left_joined lo hi l x r t r' :
  ordered lo (rev (x :: l) ++ r :: t) hi -> x.(start) + x.(size) = r.(start) -> attr_of x = attr_of r ->
  r'.(start) = x.(start) -> r'.(size) = x.(size) + r.(size) -> attr_of r' = attr_of r ->
  r'.(km_flags) = r.(km_flags) -> joined lo hi (x :: l) r t l r' t.
Proof.
  intros Ho Hxr Ha H1 H2 H3 H4.
  apply ordered_rev_mid in Ho as (Hl & Hr & Ht). cbn in Hl.
  apply ordered_app in Hl as (mid & Hl & (Hm & Hx & Hxm)).
  split; auto; try lia; [| |right; eauto].
  - apply ordered_mid; [eapply ordered_weaken; eauto; lia|lia|]. by replace (_ + _) with (r.(start) + r.(size)) by lia.
  - intros a. cbn. rewrite <- app_assoc. cbn [app].
    change (r' :: t) with ([r'] ++ t). change (x :: r :: t) with ([x; r] ++ t).
    rewrite !view_app. do 2 f_equal. by apply view_join.
Qed.

Lemma concat_right_joined lo hi l r x t r' :
  ordered lo (rev l ++ r :: x :: t) hi -> r.(start) + r.(size) = x.(start) -> attr_of r = attr_of x ->
  r'.(start) = r.(start) -> r'.(size) = r.(size) + x.(size) -> attr_of r' = attr_of r ->
  r'.(km_flags) = r.(km_flags) -> joined lo hi l r (x :: t) l r' t.
Proof.
  intros Ho Hrx Ha H1 H2 H3 H4.
  apply ordered_rev_mid in Ho as (Hl & Hr & (Hx1 & Hx2 & Ht)).
  split; auto; try lia; [| |right; exists x; auto].
  - apply ordered_mid; [by rewrite H1|lia|]. by replace (_ + _) with (x.(start) + x.(size)) by lia.
  - intros a. change (r' :: t) with ([r'] ++ t). change (r :: x :: t) with ([r; x] ++ t).
    rewrite !view_app. do 2 f_equal. apply view_join; auto. congruence.
Qed.

Lemma joined_trans lo hi l r t l1 r1 t2 r2 :
  joined lo hi l r t l1 r1 t -> joined lo hi l1 r1 t l1 r2 t2 -> joined lo hi l r t l1 r2 t2.
Proof.
  intros [A1 A2 A3 A4 A5 A6 A7 A8] [B1 B2 B3 B4 B5 B6 B7 B8].
  split; try congruence; try lia; auto.
  - destruct B6 as [|(x & -> & Hx)]; [by left|]. right. exists x. split; [done|congruence].
Qed.

Lemma elem_mid (r : km_mmap_reg) l t : r ∈ l ++ r :: t.
Proof. apply elem_of_app. right. apply elem_of_cons. by left. Qed.

Lemma km_mmap_concat_spec rec lo hi l r t :
  0 <= lo -> hi <= addr_limit -> ordered lo (rev l ++ r :: t) hi ->
  exists l' r' t', km_mmap_concat rec (l, r, t) = (l', r', t') /\ joined lo hi l r t l' r' t'.
Proof.
  intros Hlo Hhi Ho.
  assert (HL : exists l1 r1,
     (match l with
      | lft :: l' => if ok_to_concat rec lft r
                     then (l', with_size (r.(size) +u lft.(size)) (with_start lft.(start) r)) else (l, r)
      | [] => (l, r) end) = (l1, r1) /\ joined lo hi l r t l1 r1 t).
  { destruct l as [|x l]; [eauto using joined_id|].
    destruct (ok_to_concat rec x r) eqn:E; [|eauto using joined_id].
    apply ok_to_concat_true in E as (_ & E1 & E2 & E3).
    assert (Hx : x ∈ rev (x :: l) ++ r :: t) by (cbn; rewrite <- app_assoc; apply elem_mid).
    pose proof (ordered_elem _ _ _ _ Ho Hx). pose proof (ordered_elem _ _ _ _ Ho (elem_mid r _ t)).
    rewrite (ordered_rend lo _ hi x) in E1 by eauto.
    do 2 eexists. split; [reflexivity|].
    apply concat_left_joined; cbn; auto. rewrite u64_small; [lia|]. unfold is_u64, two64, addr_limit in *. lia. }
  destruct HL as (l1 & r1 & HL & J1). unfold km_mmap_concat. rewrite HL.
  destruct t as [|x t]; [eauto 10|].
  destruct (ok_to_concat rec r1 x) eqn:E; [|eauto 10].
  apply ok_to_concat_true in E as (_ & E1 & E2 & E3).
  pose proof (j_ordered _ _ _ _ _ _ _ _ J1) as Ho1.
  assert (Hxin : x ∈ rev l1 ++ r1 :: x :: t).
  { apply elem_of_app. right. apply elem_of_cons. right. apply elem_of_cons. by left. }
  pose proof (ordered_elem _ _ _ _ Ho1 (elem_mid r1 _ _)). pose proof (ordered_elem _ _ _ _ Ho1 Hxin).
  rewrite (ordered_rend lo _ hi r1) in E1 by eauto using elem_mid.
  do 3 eexists. split; [reflexivity|]. eapply joined_trans; [exact J1|].
  apply concat_right_joined; cbn; auto. apply u64_small. unfold is_u64, two64, addr_limit in *. lia.
Qed.

(** ** The contiguity test *)
Definition mapped (l : list km_mmap_reg) (a : Z) : Prop := is_Some (view l a).

Lemma mapped_cons r l a : mapped (r :: l) a <-> (r.(start) <= a < r.(start) + r.(size)) \/ mapped l a.
Proof.
  unfold mapped. cbn. destruct (covers r a) eqn:E.
  - apply covers_iff in E. split; [by left|eauto].
  - apply covers_false in E. split; [by right|]. intros [|]; [tauto|done].
Qed.

Lemma not_mapped_below lo l hi a : ordered lo l hi -> a < lo -> ~ mapped l a.
Proof. intros Ho Ha [x Hx]. rewrite (view_outside _ _ _ _ Ho) in Hx by lia. done. Qed.

Section Contiguous.
  Context (ms : list km_mmap_reg) (G HI addr sz : Z).
  Context (Hms : monitors ms) (Hne : ms <> []) (HG : ordered G ms HI) (Hlim : HI <= addr_limit).
  Context (Haddr : 0 <= addr) (Hsz : 0 < sz) (Htop : addr + sz <= addr_limit).

Lemma top_small : addr +u sz = addr + sz.
Proof. apply u64_small. unfold is_u64, two64, addr_limit in *. lia. Qed.

(** Nothing guest-mapped was seen and only monitor regions remain. *)
Lemma check_monitors_zero l : monitors l -> check_contiguous_from l addr sz 0 = -1.
Proof.
  intros Hl. induction Hl as [|r l Hr Hl IH]; cbn; [done|].
  rewrite top_small. destruct (rend r <? addr); [done|].
  destruct (addr + sz <=? r.(start)); [by destruct (Z.leb_spec (addr + sz) 0); [lia|]|].
  unfold is_monitor in Hr. by rewrite <- orb_assoc, Hr, orb_true_r.
Qed.

Lemma check_from_spec g L last_end :
  0 <= L -> ordered L g G -> guests g ->
  last_end = 0 \/ (addr <= last_end /\ last_end = L /\ 0 < last_end) ->
  (check_contiguous_from (g ++ ms) addr sz last_end = 0
     <-> forall a, Z.max addr last_end <= a < addr + sz -> mapped g a)
  /\ (check_contiguous_from (g ++ ms) addr sz last_end = 0
      \/ check_contiguous_from (g ++ ms) addr sz last_end = -1).
Proof.
  revert L last_end. induction g as [|r g IH]; intros L last_end HL Ho Hg Hlast.
  - destruct ms as [|y ms'] eqn:Ems; [done|]. inversion Hms as [|? ? Hy Hms']; subst.
    cbn in Ho. cbn in HG. destruct HG as (Hy1 & Hy2 & Hy3). pose proof (ordered_le _ _ _ Hy3).
    cbn [app check_contiguous_from]. rewrite top_small, (rend_small y HI) by lia.
    destruct (Z.ltb_spec (y.(start) + y.(size)) addr).
    { destruct Hlast as [->|]; [|lia]. rewrite (check_monitors_zero ms') by done.
      split; [|by right]. split; [done|]. intros Hall. by destruct (Hall addr ltac:(lia)). }
    destruct (Z.leb_spec (addr + sz) y.(start)).
    { destruct (Z.leb_spec (addr + sz) last_end); (split; [|auto]); split; try done.
      - intros; lia.
      - intros Hall. by destruct (Hall (Z.max addr last_end) ltac:(lia)). }
    unfold is_monitor in Hy. rewrite <- orb_assoc, Hy, orb_true_r. split; [|by right]. split; [done|].
    intros Hall. by destruct (Hall (Z.max addr last_end) ltac:(lia)).
  - inversion Hg as [|? ? Hr Hg']; subst. cbn in Ho. destruct Ho as (Hr1 & Hr2 & Ho).
    pose proof (ordered_le _ _ _ Ho). pose proof (ordered_le _ _ _ HG).
    cbn [app check_contiguous_from]. rewrite top_small, (rend_small r HI) by lia.
    destruct (Z.ltb_spec (r.(start) + r.(size)) addr).
    { destruct Hlast as [->|]; [|lia]. destruct (IH (r.(start) + r.(size)) 0 ltac:(lia) Ho Hg' ltac:(auto)) as [IH1 IH2].
      split; [|done]. rewrite IH1. split; intros Hall a Ha; specialize (Hall a Ha); rewrite mapped_cons in *; [auto|].
      destruct Hall; [lia|done]. }
    assert (Hgap : forall a, a < r.(start) -> ~ mapped (r :: g) a).
    { intros a Ha. rewrite mapped_cons. intros [|]; [lia|]. eapply not_mapped_below; [exact Ho| |done]. lia. }
    destruct (Z.leb_spec (addr + sz) r.(start)).
    { destruct (Z.leb_spec (addr + sz) last_end); (split; [|auto]); split; try done.
      - intros; lia.
      - intros Hall. destruct (Hgap (Z.max addr last_end) ltac:(lia)). apply Hall. lia. }
    assert (Hm : r.(km_flags).(km_mmap_monitor) || r.(km_flags).(km_mmap_part_of_monitor) = false) by apply Hr.
    rewrite <- orb_assoc, Hm, orb_false_r.
    match goal with |- context [if ?b then -1 else _] => destruct b eqn:E end.
    { split; [|by right]. split; [done|]. intros Hall.
      destruct (Hgap (Z.max addr last_end)); [|apply Hall]; destruct (Z.eqb_spec last_end 0),
        (Z.eqb_spec last_end r.(start)), (Z.ltb_spec addr r.(start)); cbn in E; try done; lia. }
    assert (Hcov : Z.max addr last_end >= r.(start) \/ last_end = r.(start)).
    { destruct (Z.eqb_spec last_end 0), (Z.eqb_spec last_end r.(start)), (Z.ltb_spec addr r.(start)); cbn in E; try done; lia. }
    destruct (IH (r.(start) + r.(size)) (r.(start) + r.(size)) ltac:(lia) Ho Hg' ltac:(lia)) as [H1' H2'].
    split; [|done]. rewrite H1'. split; intros Hall a Ha.
    + rewrite mapped_cons. destruct (Z.lt_ge_cases a (r.(start) + r.(size))); [left; lia|right; apply Hall; lia].
    + specialize (Hall a ltac:(lia)). rewrite mapped_cons in Hall. destruct Hall; [lia|done].
Qed.

End Contiguous.

(** The contiguity test that guards mprotect, madvise, msync and a fixed
    mmap accepts a range exactly when every address in it belongs to a region of
    the guest; it needs the monitor's regions above the guest's, which the
    initialization of the machine puts there. *)
Theorem km_mmap_busy_check_contiguous_exact g ms lo G HI addr sz :
  0 <= lo -> ordered lo g G -> guests g -> ordered G ms HI -> HI <= addr_limit -> monitors ms -> ms <> [] ->
  0 <= addr -> 0 < sz -> addr + sz <= addr_limit ->
  (km_mmap_busy_check_contiguous (g ++ ms) addr sz = 0 <-> forall a, addr <= a < addr + sz -> mapped g a)
  /\ (km_mmap_busy_check_contiguous (g ++ ms) addr sz = 0 \/ km_mmap_busy_check_contiguous (g ++ ms) addr sz = -1).
Proof.
  intros ? Ho Hg HG Hlim Hms Hne ???. unfold km_mmap_busy_check_contiguous.
  destruct (check_from_spec ms G HI addr sz Hms Hne HG Hlim ltac:(lia) ltac:(lia) ltac:(lia) g lo 0) as [C1 C2];
    auto. split; [|done]. rewrite C1. by replace (Z.max addr 0) with addr by lia.
Qed.

(** When a mapping of a file is joined to the one before it, the joined region
    keeps the file offset of its right part: it starts at the left part's address
    with an offset that is too large by the left part's size. *)
Theorem km_mmap_concat_offset l lft reg t :
  ok_to_concat false lft reg = true -> reg.(offset) = lft.(offset) + lft.(size) -> 0 < lft.(size) ->
  exists l' r t', km_mmap_concat false (lft :: l, reg, t) = (l', r, t')
    /\ r.(start) = lft.(start) /\ r.(offset) = lft.(offset) + lft.(size) /\ r.(offset) <> lft.(offset).
Proof.
  intros Hok Ho Hs. unfold km_mmap_concat. rewrite Hok.
  destruct t as [|x t]; [|match goal with |- context [ok_to_concat false ?a x] => destruct (ok_to_concat false a x) end]; (do 3 eexists; split; [reflexivity|]); cbn; lia.
Qed.

Lemma km_mmap_concat_offset_witness :
  let file := mk_reg 0x10000 0x1000 MAP_PRIVATE PROT_READ km_flags_0 (Some "/lib/libc.so"%string) in
  exists l' r t', km_mmap_concat false ([file 0], mk_reg 0x11000 0x1000 MAP_PRIVATE PROT_READ km_flags_0 (Some "/lib/libc.so"%string) 0x1000, [])
    = (l', r, t') /\ r.(start) = 0x10000 /\ r.(offset) <> 0.
Proof.
  intros file. destruct (km_mmap_concat_offset [] (file 0)
    (mk_reg 0x11000 0x1000 MAP_PRIVATE PROT_READ km_flags_0 (Some "/lib/libc.so"%string) 0x1000) [])
    as (l' & r & t' & E & E1 & E2 & E3); [reflexivity|reflexivity|cbn; lia|].
  exists l', r, t'. auto.
Defined.

Lemma km_mmap_busy_check_contiguous_exact_witness :
  let g := [reg0 0x10000 0x2000 3 false; reg0 0x12000 0x1000 1 false] in
  let ms := [mk_reg 0x20000 0x1000 0 3 (mk_km_flags true false false) None 0] in
  km_mmap_busy_check_contiguous (g ++ ms) 0x11000 0x2000 = 0 <-> forall a, 0x11000 <= a < 0x13000 -> mapped g a.
Proof.
  intros g ms. apply (km_mmap_busy_check_contiguous_exact g ms 0x10000 0x13000 0x21000 0x11000 0x2000);
    try (cbn; lia); try (repeat constructor; cbn; lia); done.
Defined.
