(* ===== verification/MmapRange.v ===== *)
(** * Applying an action to a range of the busy list

    km_mmap_busy_range_apply walks the busy list, splits the regions that straddle
    an end of the range and applies an action to every region inside it.  Here the
    walk is shown to terminate and to act as a pointwise update of the address map
    for the two actions that keep the regions in the list. *)
From S2P Require Import Prelude Machine MemGeom TopBreak MmapRegion MmapList.

(** The allocator failed once. *)
Definition calloc_fails `{Host} : Prop := exists tr, host_answer tr H_calloc = 0.

(** Only requests to the host happened. *)
Definition traced (m s : machine) : Prop := s = set_trace s.(trace) m.

Lemma traced_refl m : traced m m.
Proof. by destruct m. Qed.

Lemma traced_trans m1 m2 m3 : traced m1 m2 -> traced m2 m3 -> traced m1 m3.
Proof. unfold traced. intros -> H. rewrite H. by destruct m1, m3. Qed.

Lemma traced_hcall m tr : traced m (set_trace tr m).
Proof. done. Qed.

#[export] Hint Resolve traced_refl traced_hcall : km.

(** [r'] occupies the addresses of [r] and has attribute [x]. *)
Record recast (x : attr) (r r' : km_mmap_reg) : Prop := {
  rc_start : r'.(start) = r.(start);
  rc_size : r'.(size) = r.(size);
  rc_attr : attr_of r' = x;
}.

Lemma recast_clean b r : recast (attr_of r) r (with_clean b r).
Proof. done. Qed.

(** ** Generic list facts *)
Definition in_range (lo hi a : Z) : bool := (lo <=? a) && (a <? hi).

(** The map after [f] was applied to the guest's addresses in [lo, hi). *)
Definition update (f : attr -> attr) (lo hi : Z) (v : Z -> option attr) (a : Z) : option attr :=
  match v a with
  | Some x => if in_range lo hi a && negb (at_mon x || at_part x) then Some (f x) else Some x
  | None => None
  end.

Lemma view_mid lo l r t hi a :
  ordered lo (rev l ++ r :: t) hi -> covers r a = true -> view (rev l ++ r :: t) a = Some (attr_of r).
Proof.
  intros Ho Hc. apply ordered_rev_mid in Ho as (Hl & _ & _).
  apply covers_iff in Hc as Hc'. rewrite view_app, (view_outside _ _ _ _ Hl) by lia. cbn. by rewrite Hc.
Qed.

Lemma view_replace l r r' t a :
  r'.(start) = r.(start) -> r'.(size) = r.(size) -> covers r a = false ->
  view (rev l ++ r' :: t) a = view (rev l ++ r :: t) a.
Proof. intros H1 H2 Hc. rewrite !view_app. cbn. unfold covers in *. by rewrite H1, H2, Hc. Qed.

Lemma ordered_replace lo l r r' t hi :
  r'.(start) = r.(start) -> r'.(size) = r.(size) ->
  ordered lo (rev l ++ r :: t) hi -> ordered lo (rev l ++ r' :: t) hi.
Proof.
  intros H1 H2 Ho. apply ordered_rev_mid in Ho as (?&?&?). apply ordered_mid; rewrite ?H1, ?H2; auto.
Qed.

Lemma ordered_starts lo l hi r : ordered lo l hi -> r ∈ l -> lo <= r.(start).
Proof. intros Ho Hr. apply (ordered_elem _ _ _ _ Ho Hr). Qed.

(** ** Splitting a region *)
Section Split.
  Context (lo hi cut : Z) (l t : list km_mmap_reg) (r : km_mmap_reg).
  Context (Hlo : 0 <= lo) (Hhi : hi <= addr_limit) (Ho : ordered lo (rev l ++ r :: t) hi).
  Context (Hcut : r.(start) < cut < r.(start) + r.(size)).

Lemma split_bounds : 0 <= r.(start) /\ r.(start) + r.(size) <= addr_limit.
Proof. pose proof (ordered_elem _ _ _ _ Ho (elem_mid r _ t)). lia. Qed.

Lemma split_sizes :
  (split_left r cut).(start) = r.(start) /\ (split_left r cut).(size) = cut - r.(start)
  /\ (split_right r cut).(start) = cut /\ (split_right r cut).(size) = r.(start) + r.(size) - cut
  /\ attr_of (split_left r cut) = attr_of r /\ attr_of (split_right r cut) = attr_of r
  /\ is_monitor (split_left r cut) = is_monitor r /\ is_monitor (split_right r cut) = is_monitor r.
Proof.
  pose proof split_bounds. unfold split_left, split_right.
  assert (Hl : cut -u r.(start) = cut - r.(start)) by (apply u64_small; unfold is_u64, two64, addr_limit in *; lia).
  assert (Hr : r.(size) -u (cut - r.(start)) = r.(start) + r.(size) - cut).
  { rewrite u64_small; [lia|]. unfold is_u64, two64, addr_limit in *. lia. }
  rewrite Hl, Hr. destruct r.(filename) eqn:E; cbn; unfold attr_of; cbn; rewrite ?E; auto 10.
Qed.

Lemma split_ordered : ordered lo (rev l ++ split_left r cut :: split_right r cut :: t) hi.
Proof.
  destruct split_sizes as (H1 & H2 & H3 & H4 & _).
  apply ordered_rev_mid in Ho as (?&?&?). apply ordered_mid; cbn [ordered]; rewrite ?H1, ?H2, ?H3, ?H4; auto; try lia.
  split_and!; try lia. by replace (_ + _) with (r.(start) + r.(size)) by lia.
Qed.

Lemma split_view a : view (rev l ++ split_left r cut :: split_right r cut :: t) a = view (rev l ++ r :: t) a.
Proof.
  destruct split_sizes as (H1 & H2 & H3 & H4 & H5 & H6 & _).
  change (r :: t) with ([r] ++ t). change (_ :: _ :: t) with ([split_left r cut; split_right r cut] ++ t).
  rewrite !view_app. do 2 f_equal. symmetry. apply view_join; rewrite ?H1, ?H2, ?H3, ?H4; try lia; congruence.
Qed.

End Split.

Section Range.
  Context `{Host} `{!TopBreak} (ab : Prop).

Lemma make_clean_spec r m :
  wp ab (km_reg_make_clean r) (fun r' s => recast (attr_of r) r r' /\ traced m s) m.
Proof.
  unfold km_reg_make_clean. destruct (_ && _); [|by split; auto with km].
  wp_steps. apply wp_hcall. wp_steps. split; [apply recast_clean|auto with km].
Qed.

Lemma mprotect_region_spec r m :
  wp ab (km_mmap_mprotect_region r) (fun r' s => recast (attr_of r) r r' /\ traced m s) m.
Proof.
  unfold km_mmap_mprotect_region. apply wp_bind.
  assert (K : forall s, traced m s ->
    wp ab (km_reg_make_clean r) (fun r' s' => recast (attr_of r) r r' /\ traced m s') s).
  { intros s Hs. eapply wp_mono; [apply make_clean_spec|]. intros r' s' [? ?]. split; [done|].
    eapply traced_trans; eauto. }
  destruct (negb _); wp_steps; [|auto with km]. apply wp_hcall. wp_steps. auto with km.
Qed.

(** ** The two actions that keep the region *)
Definition action_attr (action : km_mmap_action) (mreg : km_mmap_reg) (x : attr) : attr :=
  match action with
  | act_region_clean_concat => mk_attr mreg.(protection) (-1) x.(at_mon) x.(at_part) None
  | _ => mk_attr mreg.(protection) x.(at_flags) x.(at_mon) x.(at_part) x.(at_file)
  end.

Definition keep_action (action : km_mmap_action) (mreg : km_mmap_reg) (c : cursor) : M machine cursor :=
  match action with
  | act_mprotect => km_mmap_mprotect c
  | _ => km_mmap_region_clean_concat c mreg
  end.

Lemma keep_action_spec action mreg l r t m :
  action <> act_move_to_free ->
  wp ab (keep_action action mreg (l, with_prot mreg.(protection) r, t))
    (fun c s => exists r', c = km_mmap_concat m.(recovery_mode) (l, r', t)
       /\ recast (action_attr action mreg (attr_of r)) r r' /\ traced m s) m.
Proof.
  intros Ha. destruct action; cbn [keep_action]; [|done|].
  - unfold km_mmap_mprotect. wp_steps. eapply wp_mono; [apply mprotect_region_spec|].
    intros r' s [[H1 H2 H3] Hs]. wp_steps. exists r'. split_and!; auto. split; auto.
  - unfold km_mmap_region_clean_concat. wp_steps.
    set (r1 := with_flags (-1) (with_prot mreg.(protection) r)).
    assert (K : wp ab (if mreg.(km_flags).(km_mmap_clean) then km_reg_make_clean r1 else ret r1)
      (fun r' s => recast (attr_of r1) r1 r' /\ traced m s) m).
    { destruct (km_mmap_clean _); [apply make_clean_spec|]. apply wp_ret. split; auto with km. done. }
    eapply wp_mono; [exact K|]. intros r' s [[H1 H2 H3] Hs]. wp_steps.
    exists (with_filename None (with_offset 0 r')). split_and!; auto. split; cbn; auto.
    unfold attr_of in *. cbn in *. injection H3 as -> -> -> ->. done.
Qed.

(** ** The walk *)
Section Walk.
  Context (mreg : km_mmap_reg) (action : km_mmap_action) (lo hi : Z).
  Context (Hact : action <> act_move_to_free) (Hlo : 0 <= lo) (Hhi : hi <= addr_limit).
  Context (Haddr : 0 <= mreg.(start)) (Hsz : 0 <= mreg.(size)) (Hlim : mreg.(start) + mreg.(size) <= addr_limit).

#[local] Abbreviation addr := mreg.(start).
#[local] Abbreviation top := (mreg.(start) + mreg.(size)).
#[local] Abbreviation f := (action_attr action mreg).

(** The action has nothing to do on these regions. *)
Definition settled (l : list km_mmap_reg) : Prop :=
  forall x, x ∈ l -> is_monitor x = false ->
    x.(start) + x.(size) <= addr \/ top <= x.(start) \/ f (attr_of x) = attr_of x.

Lemma settled_app l1 l2 : settled l1 -> settled l2 -> settled (l1 ++ l2).
Proof. intros H1 H2 x [Hx|Hx]%elem_of_app Hm; auto. Qed.

Lemma settled_cons r l :
  (is_monitor r = false -> r.(start) + r.(size) <= addr \/ top <= r.(start) \/ f (attr_of r) = attr_of r) ->
  settled l -> settled (r :: l).
Proof. intros Hr Hl x [->|Hx]%elem_of_cons Hm; auto. Qed.

Lemma settled_rev l : settled l -> settled (rev l).
Proof. intros Hl x Hx. apply Hl. by apply list_elem_of_In, in_rev, list_elem_of_In. Qed.

Lemma settled_above t : ordered top t hi -> settled t.
Proof. intros Ho x Hx _. right. left. eapply ordered_starts; eauto. Qed.

Lemma settled_update l a : settled l -> update f addr top (view l) a = view l a.
Proof.
  intros Hl. unfold update. destruct (view l a) as [x|] eqn:E; [|done].
  apply view_some_elem in E as (r & Hr & Hc%covers_iff & <-). unfold in_range.
  destruct (Z.leb_spec addr a), (Z.ltb_spec a top); cbn [andb]; try done.
  destruct (_ || _) eqn:Em; [done|]. cbn. destruct (Hl r Hr Em) as [|[| ->]]; [lia|lia|done].
Qed.

Lemma action_attr_idem x : f (f x) = f x.
Proof. by destruct action. Qed.

Definition walk_post (m : machine) (cur : list km_mmap_reg) (res : Z * list km_mmap_reg) (s : machine) : Prop :=
  traced m s /\ ordered lo res.2 hi /\ (res.1 = 0 \/ (res.1 = - ENOMEM /\ calloc_fails))
  /\ forall a, view res.2 a = update f addr top (view cur) a \/ (res.1 = - ENOMEM /\ view res.2 a = view cur a).

(** A step that changes [cur] only where the action applies keeps the claim. *)
Lemma walk_post_step m m' cur cur' res s :
  walk_post m' cur' res s -> traced m m' ->
  (forall a, view cur' a = view cur a \/ (view cur' a = update f addr top (view cur) a)) -> walk_post m cur res s.
Proof.
  intros (H1 & H2 & H3 & H4) Hm Hc. split_and!; auto; [eapply traced_trans; eauto|].
  intros a. destruct (Hc a) as [E|E].
  - destruct (H4 a) as [Hu|[? Hu]]; rewrite Hu; unfold update; rewrite E; auto.
  - left. destruct (H4 a) as [Hu|[_ Hu]]; rewrite Hu; [|done]. unfold update. rewrite E. unfold update.
    destruct (view cur a) as [x|]; [|done].
    destruct (in_range addr top a && negb (at_mon x || at_part x)) eqn:Eb; [|by rewrite Eb].
    rewrite action_attr_idem.
    assert (Hmp : at_mon (f x) = at_mon x /\ at_part (f x) = at_part x) by (by destruct action).
    destruct Hmp as [-> ->]. by rewrite Eb.
Qed.

Lemma walk_post_done m cur l' s :
  traced m s -> ordered lo l' hi -> settled l' ->
  (forall a, view l' a = view cur a \/ view l' a = update f addr top (view cur) a) ->
  walk_post m cur (0, l') s.
Proof.
  intros H1 H2 H3 H4. eapply (walk_post_step m s cur l'); auto. split_and!; auto with km.
  intros a. left. symmetry. by apply settled_update.
Qed.

Lemma walk_post_nomem m cur l' s :
  traced m s -> ordered lo l' hi -> calloc_fails -> (forall a, view l' a = view cur a) -> walk_post m cur (- ENOMEM, l') s.
Proof. intros. split_and!; auto. Qed.

(** One region inside the range is processed. *)
Lemma process_spec l r t m :
  ordered lo (rev l ++ r :: t) hi -> settled l -> is_monitor r = false ->
  addr <= r.(start) -> r.(start) + r.(size) <= top ->
  wp ab (keep_action action mreg (l, with_prot mreg.(protection) r, t))
    (fun c s => exists l' r' t', c = (l', r', t') /\ traced m s /\ ordered lo (rev l' ++ r' :: t') hi
       /\ settled (r' :: l') /\ (length t' <= length t)%nat /\ (forall x, x ∈ t' -> x ∈ t)
       /\ forall a, view (rev l' ++ r' :: t') a = view (rev l ++ r :: t) a
                 \/ view (rev l' ++ r' :: t') a = update f addr top (view (rev l ++ r :: t)) a) m.
Proof.
  intros Ho Hs Hr Ha Ht. eapply wp_mono; [by apply keep_action_spec|].
  intros c s (r1 & -> & [R1 R2 R3] & Htr).
  pose proof (ordered_replace _ _ _ r1 _ _ R1 R2 Ho) as Ho1.
  destruct (km_mmap_concat_spec m.(recovery_mode) lo hi l r1 t) as (l' & r' & t' & -> & [J1 J2 J3 J4 J5 J6 J7 J8]); auto.
  exists l', r', t'. split_and!; auto.
  - apply settled_cons.
    + intros _. right. right. rewrite J3, R3. apply action_attr_idem.
    + destruct J5 as [->|(x & -> & _)]; [done|]. intros y Hy. apply Hs. apply elem_of_cons. by right.
  - destruct J6 as [->|(x & -> & _)]; cbn; lia.
  - destruct J6 as [->|(x & -> & _)]; [done|]. intros y Hy. apply elem_of_cons. by right.
  - intros a. rewrite J2. destruct (covers r a) eqn:E; [|left; by apply view_replace].
    right. rewrite (view_mid _ _ _ _ _ _ Ho1) by (unfold covers in *; by rewrite R1, R2).
    unfold update. rewrite (view_mid _ _ _ _ _ _ Ho E). apply covers_iff in E. unfold in_range.
    unfold is_monitor in Hr. unfold attr_of at 2 3; cbn [at_mon at_part]. rewrite Hr.
    destruct (Z.leb_spec addr a), (Z.ltb_spec a top); try lia. cbn. by rewrite R3.
Qed.

Lemma ordered_tail l r t : ordered lo (rev l ++ r :: t) hi -> ordered (r.(start) + r.(size)) t hi.
Proof. by intros (_ & _ & ?)%ordered_rev_mid. Qed.

(** What the walk promises at a given fuel. *)
Definition walk_ok (fuel : nat) : Prop :=
  forall l rest m,
  ordered lo (rev l ++ rest) hi -> settled l ->
  (length rest < fuel)%nat -> ((S (length rest) < fuel)%nat \/ forall x, x ∈ rest -> addr <= x.(start)) ->
  wp ab (busy_range_loop fuel mreg action l rest) (walk_post m (rev l ++ rest)) m.

(** Processing a region and going on, or stopping at the end of the range. *)
Lemma walk_process fuel l cur reg rgt (stop : bool) m m' :
  walk_ok fuel -> settled l -> traced m m' ->
  ordered lo (rev l ++ reg :: rgt) hi -> is_monitor reg = false -> addr <= reg.(start) ->
  reg.(start) + reg.(size) <= top -> (if stop then reg.(start) + reg.(size) = top else (length rgt < fuel)%nat) ->
  (forall a, view (rev l ++ reg :: rgt) a = view cur a) ->
  wp ab (km_assert ((addr <=? reg.(start)) && (rend reg <=? top)) ;;;
         let* (l', reg', r') := keep_action action mreg (l, with_prot mreg.(protection) reg, rgt) in
         if stop then ret (0, of_cursor (l', reg', r')) else busy_range_loop fuel mreg action (reg' :: l') r')
    (walk_post m cur) m'.
Proof.
  intros IH Hs Hm Ho' Em' Ha1 Ha2 Hstop Hv.
  pose proof (ordered_elem _ _ _ _ Ho' (elem_mid reg _ rgt)) as Hreg. rewrite (rend_small reg hi) by lia.
  apply wp_bind, wp_assert; [rewrite andb_true_iff, !Z.leb_le; lia|].
  apply wp_bind. eapply wp_mono; [by apply process_spec|].
  intros c s (l' & r' & t' & -> & Htr & Ho2 & Hs2 & Hlen & Hsub & Hv2).
  assert (Hv3 : forall a, view (rev l' ++ r' :: t') a = view cur a
              \/ view (rev l' ++ r' :: t') a = update f addr top (view cur) a).
  { intros a. destruct (Hv2 a) as [E|E]; rewrite E; [left; apply Hv|right; unfold update; by rewrite Hv]. }
  assert (Hge : forall x, x ∈ t' -> reg.(start) + reg.(size) <= x.(start)).
  { intros x Hx. apply ordered_tail in Ho'. eapply ordered_starts; eauto. }
  destruct stop.
  - apply wp_ret, walk_post_done; auto; [eapply traced_trans; eauto|].
    cbn [of_cursor]. replace (rev l' ++ r' :: t') with (rev (r' :: l') ++ t') by (cbn; by rewrite <- app_assoc).
    apply settled_app; [by apply settled_rev|]. intros x Hx _. right. left. pose proof (Hge x Hx). lia.
  - replace (rev l' ++ r' :: t') with (rev (r' :: l') ++ t') in * by (cbn; by rewrite <- app_assoc).
    eapply wp_mono; [apply IH; auto; [lia|]|].
    + right. intros x Hx. pose proof (Hge x Hx). lia.
    + intros res s' Hres. eapply walk_post_step; [exact Hres|eapply traced_trans; eauto|done].
Qed.

Lemma walk_spec fuel : walk_ok fuel.
Proof.
  induction fuel as [|fuel IH]; intros l rest m Ho Hs Hf Hf'; [lia|].
  cbn [busy_range_loop]. replace (addr +u mreg.(size)) with top
    by (symmetry; apply u64_small; unfold is_u64, two64, addr_limit in *; lia).
  destruct rest as [|r tl]; cbn [length] in Hf, Hf'.
  { rewrite app_nil_r in *. apply wp_ret, walk_post_done; auto with km. by apply settled_rev. }
  pose proof (ordered_elem _ _ _ _ Ho (elem_mid r _ tl)) as Hr.
  rewrite (rend_small r hi) by lia.
  assert (Hskip : (is_monitor r = false -> r.(start) + r.(size) <= addr \/ top <= r.(start)) ->
    wp ab (busy_range_loop fuel mreg action (r :: l) tl) (walk_post m (rev l ++ r :: tl)) m).
  { intros Hd. replace (rev l ++ r :: tl) with (rev (r :: l) ++ tl) in * by (cbn; by rewrite <- app_assoc).
    apply IH; auto; [|lia|].
    - apply settled_cons; [|done]. intros Hm. destruct (Hd Hm); auto.
    - destruct Hf' as [?|Hall]; [left; lia|right]. intros x Hx. apply Hall. apply elem_of_cons. by right. }
  destruct (Z.leb_spec (r.(start) + r.(size)) addr); [apply Hskip; lia|].
  destruct (Z.leb_spec top r.(start)).
  { apply wp_ret, walk_post_done; auto with km. apply settled_app; [by apply settled_rev|].
    apply settled_above. apply ordered_tail in Ho. cbn. split_and!; [lia|lia|done]. }
  destruct (is_monitor r) eqn:Em; [by apply Hskip|].
  destruct (Z.ltb_spec r.(start) addr).
  { wp_steps. apply wp_hcall.
    destruct (Z.eqb_spec (host_answer m.(trace) H_calloc) 0); [apply wp_ret, walk_post_nomem; auto with km; by eexists|].
    assert (Hcut : r.(start) < addr < r.(start) + r.(size)) by lia.
    destruct (split_sizes lo hi addr l tl r Hlo Hhi Ho Hcut) as (S1 & S2 & S3 & S4 & _).
    pose proof (split_ordered lo hi addr l tl r Hlo Hhi Ho Hcut) as Ho'.
    eapply wp_mono; [apply IH|].
    - cbn. by rewrite <- app_assoc.
    - apply settled_cons; [|done]. intros _. left. rewrite S1, S2. lia.
    - cbn. destruct Hf' as [?|Hall]; [lia|]. pose proof (Hall r (elem_mid r [] tl)). lia.
    - right. intros x Hx. change (rev l ++ split_left r addr :: ?y) with (rev l ++ [split_left r addr] ++ y) in Ho'.
      pose proof (ordered_tail _ _ _ Ho') as Ht. rewrite S1, S2 in Ht. pose proof (ordered_starts _ _ _ _ Ht Hx). lia.
    - intros res s Hres. eapply walk_post_step; [exact Hres|auto with km|]. intros a. left.
      cbn. rewrite <- app_assoc. apply (split_view lo hi addr l tl r Hlo Hhi Ho Hcut). }
  destruct (Z.ltb_spec top (r.(start) + r.(size))).
  { wp_steps. apply wp_hcall.
    destruct (Z.eqb_spec (host_answer m.(trace) H_calloc) 0); [apply wp_ret, walk_post_nomem; auto with km; by eexists|].
    assert (Hcut : r.(start) < top < r.(start) + r.(size)) by lia.
    destruct (split_sizes lo hi top l tl r Hlo Hhi Ho Hcut) as (S1 & S2 & S3 & S4 & _ & _ & S5 & _).
    assert (Hcutm : wp ab _ _ _) by (apply (walk_process fuel l (rev l ++ r :: tl) (split_left r top) (split_right r top :: tl) true m
      (set_trace (H_calloc :: m.(trace)) m)); [done|done|auto with km|by apply split_ordered|congruence|rewrite ?S1, ?S2; lia..
      |by apply split_view with lo hi]).
    by destruct action. }
  assert (Hin : wp ab _ _ _) by (apply (walk_process fuel l (rev l ++ r :: tl) r tl false m m); auto with km; lia).
  rewrite (rend_small r hi) in Hin by lia. by destruct action.
Qed.

(** The whole operation on the machine's busy list. *)
Lemma busy_range_update m :
  ordered lo m.(mmaps_busy) hi ->
  wp ab (km_mmap_busy_range_apply mreg action)
    (fun rc s => exists busy', s = set_mmaps_busy busy' (set_trace s.(trace) m) /\ ordered lo busy' hi
       /\ (rc = 0 \/ (rc = - ENOMEM /\ calloc_fails))
       /\ forall a, view busy' a = update f addr top (view m.(mmaps_busy)) a
                 \/ (rc = - ENOMEM /\ view busy' a = view m.(mmaps_busy) a)) m.
Proof.
  intros Ho. unfold km_mmap_busy_range_apply. wp_steps.
  eapply wp_mono; [apply (walk_spec _ [] m.(mmaps_busy)); auto; cbn; [by intros ? ?%elem_of_nil|lia|left; lia]|].
  intros [rc busy'] s (Htr & Hor & Hrc & Hv). wp_steps. exists busy'. split_and!; auto.
  cbn [trace set_mmaps_busy]. by rewrite Htr.
Qed.

End Walk.
End Range.
