(* ===== verification/MmapFree.v ===== *)
(** * The busy and the free list tile the mmap area

    Every address between the top break and the top of guest memory is either in
    use or can be handed out, never both.  Here: insertion into either list,
    returning a region to the free list (which gives it back to the memory
    component when it touches the top break), and the walk of munmap. *)
From S2P Require Import Prelude Machine MemGeom TopBreak MmapRegion MmapList MmapRange.

#[local] Abbreviation TOP := GUEST_MEM_TOP_VA.

Lemma top_limit : TOP <= addr_limit.
Proof. vm_compute. congruence. Qed.

(** ** Insertion *)
Definition vacant (l : list km_mmap_reg) (r : km_mmap_reg) : Prop :=
  forall a, covers r a = true -> ~ mapped l a.

Lemma mapped_app l1 l2 a : mapped (l1 ++ l2) a <-> mapped l1 a \/ mapped l2 a.
Proof.
  unfold mapped. rewrite view_app. apply union_is_Some.
Qed.

Lemma mapped_elem l r a : r ∈ l -> covers r a = true -> mapped l a.
Proof.
  intros Hr Hc. apply covers_iff in Hc. induction l as [|x l IH]; [by apply not_elem_of_nil in Hr|].
  rewrite mapped_cons. apply elem_of_cons in Hr as [->|Hr]; auto.
Qed.

Lemma covers_start r : 0 < r.(size) -> covers r r.(start) = true.
Proof. intros. apply covers_iff. lia. Qed.

Lemma insert_position_from lo hi reg acc l :
  0 <= lo -> hi <= addr_limit -> lo <= reg.(start) -> 0 < reg.(size) -> reg.(start) + reg.(size) <= hi ->
  ordered lo (rev acc ++ l) hi -> ordered lo (rev acc) reg.(start) -> vacant l reg ->
  exists lrev t, insert_position reg acc l = Some (lrev, t) /\ rev acc ++ l = rev lrev ++ t
    /\ ordered lo (rev lrev ++ reg :: t) hi.
Proof.
  intros Hlo Hhi Hs Hz He. revert acc. induction l as [|p t IH]; intros acc Ho Hacc Hv; cbn.
  - exists acc, []. split_and!; auto. by apply ordered_mid.
  - pose proof (ordered_elem _ _ _ _ Ho (elem_mid p _ t)) as Hp.
    apply ordered_rev_mid in Ho as Ho'. destruct Ho' as (_ & _ & Hpt).
    rewrite (rend_small reg hi), (rend_small p hi) by lia.
    destruct (Z.ltb_spec reg.(start) p.(start)).
    + destruct (Z.leb_spec (reg.(start) + reg.(size)) p.(start)).
      * exists acc, (p :: t). split_and!; auto. apply ordered_mid; auto. cbn. auto with lia.
      * exfalso. apply (Hv p.(start)); [apply covers_iff; lia|]. rewrite mapped_cons. lia.
    + destruct (Z.leb_spec (p.(start) + p.(size)) reg.(start)).
      * destruct (Z.ltb_spec p.(start) reg.(start)); [cbn|lia].
        destruct (IH (p :: acc)) as (lrev & t' & P1 & P2 & P3); cbn; rewrite <- ?app_assoc; auto.
        -- apply ordered_app. apply ordered_rev_mid in Ho as (?&?&?). exists p.(start). cbn. auto with lia.
        -- intros a Ha Hm. apply (Hv a Ha). rewrite mapped_cons. by right.
        -- exists lrev, t'. split_and!; auto.  cbn in P2. by rewrite <- app_assoc in P2.
      * exfalso. apply (Hv reg.(start)); [by apply covers_start|]. rewrite mapped_cons. lia.
Qed.

Lemma insert_view l reg t a :
  vacant (rev l ++ t) reg ->
  view (rev l ++ reg :: t) a = if covers reg a then Some (attr_of reg) else view (rev l ++ t) a.
Proof.
  intros Hv. rewrite !view_app. cbn. destruct (covers reg a) eqn:E; [|done].
  specialize (Hv a E). rewrite mapped_app in Hv. unfold mapped in Hv.
  destruct (view (rev l) a) as [x|]; [exfalso; apply Hv; left; eauto|done].
Qed.

Section Insert.
  Context `{Host} (ab : Prop).

Lemma km_mmap_insert_spec reg l m lo hi :
  0 <= lo -> hi <= addr_limit -> ordered lo l hi -> lo <= reg.(start) -> 0 < reg.(size) ->
  reg.(start) + reg.(size) <= hi -> vacant l reg ->
  wp ab (km_mmap_insert reg l)
    (fun c s => traced m s /\ exists l' r' t', c = (l', r', t') /\ ordered lo (rev l' ++ r' :: t') hi
       /\ attr_of r' = attr_of reg
       /\ forall a, view (rev l' ++ r' :: t') a = if covers reg a then Some (attr_of reg) else view l a) m.
Proof.
  intros Hlo Hhi Ho Hs Hz He Hv. unfold km_mmap_insert.
  destruct (insert_position_from lo hi reg [] l) as (l' & t' & H1 & H2 & H3); auto.
  cbn in H2. subst l. apply wp_bind. eapply wp_lift; [exact H1|]. apply wp_bind.
  eapply wp_mono; [apply mprotect_region_spec|]. intros r' s [[R1 R2 R3] Htr]. wp_steps.
  split; [done|]. exists l', r', t'. split_and!; auto; [by eapply ordered_replace|].
  intros a. assert (Hc : covers r' a = covers reg a) by (unfold covers; by rewrite R1, R2).
  rewrite insert_view, Hc, R3; [done|]. intros b Hb. apply Hv. unfold covers in *. by rewrite <- R1, <- R2.
Qed.

Lemma insert_busy_spec reg m lo hi :
  0 <= lo -> hi <= addr_limit -> ordered lo m.(mmaps_busy) hi -> lo <= reg.(start) -> 0 < reg.(size) ->
  reg.(start) + reg.(size) <= hi -> vacant m.(mmaps_busy) reg ->
  wp ab (km_mmap_insert_busy reg)
    (fun _ s => exists b', s = set_mmaps_busy b' (set_trace s.(trace) m) /\ ordered lo b' hi
       /\ forall a, view b' a = if covers reg a then Some (attr_of reg) else view m.(mmaps_busy) a) m.
Proof.
  intros Hlo Hhi Ho Hs Hz He Hv. unfold km_mmap_insert_busy. wp_steps.
  eapply wp_mono; [by apply (km_mmap_insert_spec reg _ m lo hi)|].
  intros c s (Htr & l' & r' & t' & -> & Ho' & Ha & Hv'). wp_steps.
  destruct (km_mmap_concat_spec m.(recovery_mode) lo hi l' r' t') as (l2 & r2 & t2 & -> & [J1 J2 _ _ _ _ _ _]); auto.
  exists (rev l2 ++ r2 :: t2). split_and!; auto.
  - cbn [trace set_mmaps_busy of_cursor]. by rewrite Htr.
  - intros a. by rewrite J2, Hv'.
Qed.

End Insert.

(** ** The tiling invariant *)

(** What the mmap operations do not touch. *)
Record mm_frame (m s : machine) : Prop := {
  mf_recovery : s.(recovery_mode) = m.(recovery_mode);
  mf_brk : s.(brk) = m.(brk);
  mf_max : s.(guest_max_physmem) = m.(guest_max_physmem);
}.

Lemma mm_frame_refl m : mm_frame m m.
Proof. by split. Qed.
Lemma mm_frame_trans m1 m2 m3 : mm_frame m1 m2 -> mm_frame m2 m3 -> mm_frame m1 m3.
Proof. intros [] []. split; congruence. Qed.
Lemma mm_frame_trace m tr : mm_frame m (set_trace tr m).
Proof. by split. Qed.
#[export] Hint Resolve mm_frame_refl mm_frame_trace : km.

Section Tiling.
  Context `{Host} `{!TopBreak}.

(** [B] is the busy list: during a walk the one under the walk's cursor. *)
Record tiling (B : list km_mmap_reg) (m : machine) : Prop := {
  ti_tb : tb_inv m;
  ti_busy : ordered m.(tbrk) B addr_limit;
  ti_free : ordered m.(tbrk) m.(mmaps_free) TOP;
  ti_tile : forall a, m.(tbrk) <= a < TOP -> (mapped B a <-> ~ mapped m.(mmaps_free) a);
  ti_top : forall a x, view B a = Some x -> a < TOP \/ at_mon x || at_part x = true;
}.

Definition mmap_inv (m : machine) : Prop := tiling m.(mmaps_busy) m.

Lemma tiling_bounds B m : tiling B m -> 0 < m.(tbrk) <= TOP /\ GUEST_VA_OFFSET m < m.(tbrk).
Proof. intros T. pose proof (tb_bounds m (ti_tb _ _ T)). unfold GUEST_MEM_START_VA, MIB in *. lia. Qed.

Lemma tiling_view B B' m :
  tiling B m -> ordered m.(tbrk) B' addr_limit -> (forall a, view B' a = view B a) -> tiling B' m.
Proof.
  intros [T1 T2 T3 T4 T5] Ho Hv. split; auto; unfold mapped in *.
  - intros a Ha. by rewrite Hv, T4.
  - intros a x. rewrite Hv. apply T5.
Qed.

Lemma tiling_trace B m tr : tiling B m -> tiling B (set_trace tr m).
Proof. intros [T1 T2 T3 T4 T5]. split; auto. by apply tb_inv_trace. Qed.

Lemma tiling_set_busy B m b : tiling B m -> tiling B (set_mmaps_busy b m).
Proof. intros [T1 T2 T3 T4 T5]. split; auto. by apply tb_inv_busy. Qed.

Lemma traced_tiling B m s : traced m s -> tiling B m -> tiling B s.
Proof. intros ->. apply tiling_trace. Qed.

Lemma traced_mm_frame m s : traced m s -> mm_frame m s.
Proof. intros ->. done. Qed.

Lemma ordered_raise lo lo' l hi :
  ordered lo l hi -> lo' <= hi -> (forall x, x ∈ l -> lo' <= x.(start)) -> ordered lo' l hi.
Proof.
  destruct l as [|r l]; cbn; [done|]. intros (?&?&?) ? Hx. split_and!; auto. apply Hx, elem_of_cons. by left.
Qed.

Lemma ordered_none lo l : ordered lo (rev l) lo -> l = [].
Proof.
  destruct l as [|x l]; [done|]. cbn. intros (mid & H1%ordered_le & (?&?&H2%ordered_le))%ordered_app. lia.
Qed.

(** A guest region lies below the top of guest memory. *)
Lemma guest_below_top l r t m :
  tiling (rev l ++ r :: t) m -> is_monitor r = false -> r.(start) + r.(size) <= TOP.
Proof.
  intros T Hr. pose proof (ordered_elem _ _ _ _ (ti_busy _ _ T) (elem_mid r _ t)) as (?&?&?).
  destruct (ti_top _ _ T (r.(start) + r.(size) - 1) (attr_of r)) as [|Hm]; [|lia|].
  - eapply view_mid; [apply T|]. apply covers_iff. lia.
  - unfold is_monitor in Hr. cbn in Hm. congruence.
Qed.

(** ** Giving a region back *)
Record released (reg : km_mmap_reg) (m s : machine) : Prop := {
  re_tb : tb_inv s;
  re_frame : mm_frame m s;
  re_busy : s.(mmaps_busy) = m.(mmaps_busy);
  re_up : m.(tbrk) <= s.(tbrk) <= TOP;
  re_order : ordered s.(tbrk) s.(mmaps_free) TOP;
  re_above : forall a, s.(tbrk) <= a -> (mapped s.(mmaps_free) a <-> mapped m.(mmaps_free) a \/ covers reg a = true);
  re_below : forall a, m.(tbrk) <= a < s.(tbrk) -> mapped m.(mmaps_free) a \/ covers reg a = true;
}.

Lemma insert_free_spec reg m :
  tb_inv m -> ordered m.(tbrk) m.(mmaps_free) TOP -> m.(tbrk) <= reg.(start) -> 0 < reg.(size) ->
  reg.(start) + reg.(size) <= TOP -> vacant m.(mmaps_free) reg ->
  wp tb_exit (km_mmap_insert_free reg) (fun _ s => released reg m s) m.
Proof.
  intros Htb Ho Hs Hz He Hv. pose proof (tb_bounds m Htb) as Hb. unfold km_mmap_insert_free.
  set (reg1 := with_clean _ _). wp_steps.
  pose proof top_limit as Hlim.
  eapply wp_mono; [apply (km_mmap_insert_spec _ reg1 _ m m.(tbrk) TOP); auto; unfold GUEST_MEM_START_VA, MIB in *; lia|].
  intros c s1 (Htr & l1 & r1 & t1 & -> & Ho1 & _ & Hv1).
  destruct (km_mmap_concat_spec m.(recovery_mode) m.(tbrk) TOP l1 r1 t1) as (l & r & t & -> & [J1 J2 _ _ _ _ _ _]); auto.
  { unfold GUEST_MEM_START_VA, MIB in *. lia. }
  assert (Hmap : forall a, mapped (rev l ++ r :: t) a <-> mapped m.(mmaps_free) a \/ covers reg a = true).
  { intros a. unfold mapped. rewrite J2, Hv1. change (covers reg1 a) with (covers reg a).
    destruct (covers reg a); unfold is_Some; split; eauto; intros [|]; done || eauto. }
  wp_steps. cbn [of_cursor]. set (s2 := set_mmaps_free _ s1).
  assert (Hs2 : tbrk s2 = m.(tbrk)) by (unfold s2; by rewrite Htr).
  assert (Htb2 : tb_inv s2) by (unfold s2; rewrite Htr; by apply tb_inv_free, tb_inv_trace).
  unfold wp at 1. rewrite tb_query, Hs2. cbv beta iota.
  destruct (Z.eqb_spec r.(start) m.(tbrk)) as [Heq|Hne].
  - apply ordered_rev_mid in J1 as (Hl & Hr & Ht). pose proof (ordered_le _ _ _ Ht).
    assert (l = []) as -> by (apply (ordered_none m.(tbrk)); by rewrite Heq in Hl).
    rewrite (rend_small r TOP) by (unfold GUEST_MEM_START_VA, MIB in *; lia).
    apply wp_bind. eapply wp_mono; [apply tb_move; auto|].
    + unfold GUEST_MEM_START_VA, MIB in *. lia.
    + change (GUEST_VA_OFFSET s2) with (GUEST_VA_OFFSET s1). rewrite Htr. change (GUEST_VA_OFFSET (set_trace _ m)) with (GUEST_VA_OFFSET m).
      unfold GUEST_MEM_START_VA, MIB in *. lia.
    + intros res s3 (Htb3 & [F1 F2 F3 F4 F5] & Hres). wp_steps.
      destruct Hres as [[_ Hn]|(_ & _ & Hn)]; [|destruct Hn; lia].
      cbn [rev app] in *.
      split; cbn [tbrk mmaps_free mmaps_busy set_mmaps_free]; rewrite ?Hn; try (by apply tb_inv_free); auto; try lia.
      * unfold s2 in *. rewrite Htr in F3, F4, F5. by split.
      * rewrite F2. unfold s2. by rewrite Htr.
      * intros a Ha. rewrite <- Hmap, mapped_cons. split; [by right|]. intros [|]; [lia|done].
      * intros a Ha. rewrite <- Hmap, mapped_cons. left. lia.
  - wp_steps. split; rewrite ?Hs2; auto; try lia.
    + unfold s2. by rewrite Htr.
    + unfold s2. by rewrite Htr.
Qed.

(** The tiling with a hole: [reg] is in neither list. *)
Record holed (B : list km_mmap_reg) (reg : km_mmap_reg) (m : machine) : Prop := {
  ho_tb : tb_inv m;
  ho_busy : ordered m.(tbrk) B addr_limit;
  ho_free : ordered m.(tbrk) m.(mmaps_free) TOP;
  ho_in : m.(tbrk) <= reg.(start) /\ 0 < reg.(size) /\ reg.(start) + reg.(size) <= TOP;
  ho_vb : vacant B reg;
  ho_vf : vacant m.(mmaps_free) reg;
  ho_tile : forall a, m.(tbrk) <= a < TOP -> covers reg a = false -> (mapped B a <-> ~ mapped m.(mmaps_free) a);
  ho_top : forall a x, view B a = Some x -> a < TOP \/ at_mon x || at_part x = true;
}.

(** Taking a guest region out of the busy list leaves a hole. *)
Lemma tiling_hole l r t m : tiling (rev l ++ r :: t) m -> is_monitor r = false -> holed (rev l ++ t) r m.
Proof.
  intros T Hr. pose proof (guest_below_top _ _ _ _ T Hr) as Htop. pose proof T as [T1 T2 T3 T4 T5].
  pose proof (ordered_elem _ _ _ _ T2 (elem_mid r _ t)) as Hb.
  pose proof (ordered_rev_mid _ _ _ _ _ T2) as (Hl & Hz & Ht).
  assert (Hvac : vacant (rev l ++ t) r).
  { intros a Hc%covers_iff. rewrite mapped_app. intros [[x Hx]|Hm].
    - rewrite (view_outside _ _ _ _ Hl) in Hx by lia. done.
    - eapply not_mapped_below; [exact Ht| |exact Hm]. lia. }
  split; auto; try lia.
  - apply ordered_app. exists r.(start). split; [done|]. eapply ordered_weaken; eauto; lia.
  - intros a Hc Hf. apply covers_iff in Hc as Ha. apply (T4 a); [lia| |done].
    exists (attr_of r). by eapply view_mid.
  - intros a Ha Hc. rewrite <- T4, !mapped_app, mapped_cons, <- covers_iff by done. rewrite Hc.
    split; [tauto|]. by intros [|[|]]; auto.
  - intros a x Hx. apply (T5 a). destruct (covers r a) eqn:Hc; [destruct (Hvac a Hc); by exists x|].
    rewrite <- Hx, !view_app. cbn. by rewrite Hc.
Qed.

(** Releasing the hole closes it. *)
Lemma released_tiling B r m s : holed B r m -> released r m s -> tiling B s.
Proof.
  intros [T1 T2 T3 (?&?&?) Hvb Hvf T4 T5] [R1 R2 R3 R4 R5 R6 R7]. split; auto.
  - eapply ordered_raise; [exact T2|pose proof top_limit; lia|].
    intros x Hx. destruct (Z.le_gt_cases s.(tbrk) x.(start)); [done|]. exfalso.
    pose proof (ordered_elem _ _ _ _ T2 Hx) as (?&?&?).
    assert (Hm : mapped B x.(start)) by (eapply mapped_elem; eauto using covers_start).
    destruct (covers r x.(start)) eqn:Hc; [by apply (Hvb x.(start))|].
    destruct (R7 x.(start)) as [Hf|]; [lia| |congruence]. apply T4 in Hm; [done|lia|done].
  - intros a Ha. rewrite R6 by lia. destruct (covers r a) eqn:Hc.
    + split; [intros Hm; by destruct (Hvb a Hc)|tauto].
    + rewrite T4 by (done || lia). split; [intros Hn [|]; done|tauto].
Qed.

Lemma released_traced reg m m' s : traced m m' -> released reg m' s -> released reg m s.
Proof. intros ->. intros [R1 [] R3 R4 R5 R6 R7]. split; auto. by split. Qed.

Lemma released_extent reg reg' m s :
  reg'.(start) = reg.(start) -> reg'.(size) = reg.(size) -> released reg' m s -> released reg m s.
Proof.
  intros E1 E2 [R1 R2 R3 R4 R5 R6 R7].
  assert (E : forall a, covers reg' a = covers reg a) by (intros; unfold covers; by rewrite E1, E2).
  split; auto; intros a Ha; rewrite <- E; auto.
Qed.

Lemma move_to_free_spec reg m :
  tb_inv m -> ordered m.(tbrk) m.(mmaps_free) TOP -> m.(tbrk) <= reg.(start) -> 0 < reg.(size) ->
  reg.(start) + reg.(size) <= TOP -> vacant m.(mmaps_free) reg ->
  wp tb_exit (km_mmap_move_to_free reg) (fun _ s => released reg m s) m.
Proof.
  intros Htb Ho Hs Hz He Hv. unfold km_mmap_move_to_free. apply wp_bind.
  assert (K : forall fl tr, wp tb_exit (km_mmap_insert_free (with_flags fl reg)) (fun _ s => released reg m s) (set_trace tr m)).
  { intros fl tr. eapply wp_mono; [apply insert_free_spec; auto; by apply tb_inv_trace|].
    intros u s Hr. eapply released_traced; [apply traced_hcall|].
    apply (released_extent reg (with_flags fl reg)); [done|done|exact Hr]. }
  assert (Kr : with_flags reg.(flags) reg = reg) by (by destruct reg).
  assert (Km : set_trace m.(trace) m = m) by (by destruct m).
  assert (K0 : forall tr, wp tb_exit (km_mmap_insert_free reg) (fun _ s => released reg m s) (set_trace tr m)).
  { intros tr. specialize (K reg.(flags) tr). by rewrite Kr in K. }
  destruct (_ || _); wp_steps; [|specialize (K0 m.(trace)); by rewrite Km in K0].
  apply wp_hcall. destruct (negb _); wp_steps; auto.
Qed.

(** ** The walk of munmap *)
Definition erase (lo hi : Z) (v : Z -> option attr) (a : Z) : option attr :=
  match v a with
  | Some x => if in_range lo hi a && negb (at_mon x || at_part x) then None else Some x
  | None => None
  end.

Section Unmap.
  Context (mreg : km_mmap_reg).
  Context (Haddr : 0 <= mreg.(start)) (Hsz : 0 <= mreg.(size)) (Hlim : mreg.(start) + mreg.(size) <= addr_limit).

#[local] Abbreviation addr := mreg.(start).
#[local] Abbreviation top := (mreg.(start) + mreg.(size)).

(** Nothing in these regions is to be unmapped. *)
Definition spared (l : list km_mmap_reg) : Prop :=
  forall x, x ∈ l -> is_monitor x = false -> x.(start) + x.(size) <= addr \/ top <= x.(start).

Lemma spared_app l1 l2 : spared l1 -> spared l2 -> spared (l1 ++ l2).
Proof. intros H1 H2 x [Hx|Hx]%elem_of_app Hm; auto. Qed.

Lemma spared_cons r l :
  (is_monitor r = false -> r.(start) + r.(size) <= addr \/ top <= r.(start)) -> spared l -> spared (r :: l).
Proof. intros Hr Hl x [->|Hx]%elem_of_cons Hm; auto. Qed.

Lemma spared_rev l : spared l -> spared (rev l).
Proof. intros Hl x Hx. apply Hl. by apply list_elem_of_In, in_rev, list_elem_of_In. Qed.

Lemma spared_above t hi : ordered top t hi -> spared t.
Proof. intros Ho x Hx _. right. eapply ordered_starts; eauto. Qed.

Lemma spared_erase l a : spared l -> erase addr top (view l) a = view l a.
Proof.
  intros Hl. unfold erase. destruct (view l a) as [x|] eqn:E; [|done].
  apply view_some_elem in E as (r & Hr & Hc%covers_iff & <-). unfold in_range.
  destruct (Z.leb_spec addr a), (Z.ltb_spec a top); cbn [andb]; try done.
  destruct (_ || _) eqn:Em; [done|]. destruct (Hl r Hr Em); lia.
Qed.

Definition unmap_post (m : machine) (cur : list km_mmap_reg) (res : Z * list km_mmap_reg) (s : machine) : Prop :=
  tiling res.2 s /\ mm_frame m s /\ (res.1 = 0 \/ (res.1 = - ENOMEM /\ calloc_fails))
  /\ forall a, view res.2 a = erase addr top (view cur) a \/ (res.1 = - ENOMEM /\ view res.2 a = view cur a).

Lemma unmap_post_step m m' cur cur' res s :
  unmap_post m' cur' res s -> mm_frame m m' ->
  (forall a, view cur' a = view cur a \/ view cur' a = erase addr top (view cur) a) -> unmap_post m cur res s.
Proof.
  intros (H1 & H2 & H3 & H4) Hm Hc. split_and!; auto; [eapply mm_frame_trans; eauto|].
  intros a. destruct (Hc a) as [E|E].
  - destruct (H4 a) as [Hu|[? Hu]]; rewrite Hu; unfold erase; rewrite E; auto.
  - left. destruct (H4 a) as [Hu|[_ Hu]]; rewrite Hu; [|done]. unfold erase. rewrite E. unfold erase.
    destruct (view cur a) as [x|]; [|done]. by destruct (_ && _) eqn:Eb; [|rewrite Eb].
Qed.

Lemma unmap_post_done m s cur l' :
  tiling l' s -> mm_frame m s -> spared l' ->
  (forall a, view l' a = view cur a \/ view l' a = erase addr top (view cur) a) -> unmap_post m cur (0, l') s.
Proof.
  intros T F S H1. eapply (unmap_post_step m s cur l'); auto. split_and!; auto with km.
  intros a. left. symmetry. by apply spared_erase.
Qed.

Lemma unmap_post_nomem m s cur l' :
  tiling l' s -> mm_frame m s -> calloc_fails -> (forall a, view l' a = view cur a) -> unmap_post m cur (- ENOMEM, l') s.
Proof. intros. split_and!; auto. Qed.

Definition unmap_ok (fuel : nat) : Prop :=
  forall l rest m, tiling (rev l ++ rest) m -> spared l ->
  (length rest < fuel)%nat -> ((S (length rest) < fuel)%nat \/ forall x, x ∈ rest -> addr <= x.(start)) ->
  wp tb_exit (busy_range_loop fuel mreg act_move_to_free l rest) (unmap_post m (rev l ++ rest)) m.

Lemma unmap_process fuel l cur reg rgt (stop : bool) m m' :
  unmap_ok fuel -> spared l -> mm_frame m m' -> tiling (rev l ++ reg :: rgt) m' -> is_monitor reg = false ->
  addr <= reg.(start) -> reg.(start) + reg.(size) <= top ->
  (if stop then reg.(start) + reg.(size) = top else (length rgt < fuel)%nat) ->
  (forall a, view (rev l ++ reg :: rgt) a = view cur a) ->
  wp tb_exit (km_assert ((addr <=? reg.(start)) && (rend reg <=? top)) ;;;
         km_mmap_move_to_free (with_prot mreg.(protection) reg) ;;;
         if stop then ret (0, rev l ++ rgt) else busy_range_loop fuel mreg act_move_to_free l rgt)
    (unmap_post m cur) m'.
Proof.
  intros IH Hs Hm T Em Ha1 Ha2 Hstop Hv.
  pose proof (ordered_elem _ _ _ _ (ti_busy _ _ T) (elem_mid reg _ rgt)) as (Hr1 & Hr2 & Hr3).
  pose proof (tiling_bounds _ _ T). rewrite (rend_small reg addr_limit) by lia.
  apply wp_bind, wp_assert; [rewrite andb_true_iff, !Z.leb_le; lia|]. apply wp_bind.
  pose proof (tiling_hole _ _ _ _ T Em) as Hh.
  eapply wp_mono; [apply move_to_free_spec; auto; apply Hh|].
  intros u s Hrel. apply (released_extent reg) in Hrel; [|done|done].
  pose proof (released_tiling _ _ _ _ Hh Hrel) as T'.
  assert (F : mm_frame m s) by (eapply mm_frame_trans; [exact Hm|apply Hrel]).
  pose proof (ordered_tail _ _ _ _ _ (ti_busy _ _ T)) as Ht.
  assert (Hv' : forall a, view (rev l ++ rgt) a = view cur a \/ view (rev l ++ rgt) a = erase addr top (view cur) a).
  { intros a. unfold erase. rewrite <- Hv. destruct (covers reg a) eqn:E.
    - right. rewrite (view_mid _ _ _ _ _ _ (ti_busy _ _ T) E). unfold is_monitor in Em. cbn. rewrite Em.
      apply covers_iff in E. unfold in_range. destruct (Z.leb_spec addr a), (Z.ltb_spec a top); try lia. cbn.
      pose proof (ti_busy _ _ T) as (Hl & _ & _)%ordered_rev_mid.
      rewrite view_app, (view_outside _ _ _ _ Hl), (view_outside _ _ _ _ Ht) by lia. done.
    - left. rewrite !view_app. cbn. by rewrite E. }
  destruct stop.
  - apply wp_ret, unmap_post_done; auto. apply spared_app; [by apply spared_rev|].
    rewrite Hstop in Ht. eapply spared_above; eauto.
  - eapply wp_mono; [apply IH; auto|].
    + right. intros x Hx. pose proof (ordered_starts _ _ _ _ Ht Hx). lia.
    + intros res s' Hres. eapply unmap_post_step; eauto.
Qed.

Lemma unmap_spec fuel : unmap_ok fuel.
Proof.
  induction fuel as [|fuel IH]; intros l rest m T Hs Hf Hf'; [lia|].
  pose proof (tiling_bounds _ _ T) as Hb. pose proof (ti_busy _ _ T) as Ho.
  assert (Hlo : 0 <= m.(tbrk)) by lia. pose proof (Z.le_refl addr_limit) as Hhi.
  cbn [busy_range_loop]. replace (addr +u mreg.(size)) with top
    by (symmetry; apply u64_small; unfold is_u64, two64, addr_limit in *; lia).
  destruct rest as [|r tl]; cbn [length] in Hf, Hf'.
  { rewrite app_nil_r in *. apply wp_ret, unmap_post_done; auto with km. by apply spared_rev. }
  pose proof (ordered_elem _ _ _ _ Ho (elem_mid r _ tl)) as Hr.
  rewrite (rend_small r addr_limit) by lia.
  assert (Hskip : (is_monitor r = false -> r.(start) + r.(size) <= addr \/ top <= r.(start)) ->
    wp tb_exit (busy_range_loop fuel mreg act_move_to_free (r :: l) tl) (unmap_post m (rev l ++ r :: tl)) m).
  { intros Hd. replace (rev l ++ r :: tl) with (rev (r :: l) ++ tl) in * by (cbn; by rewrite <- app_assoc).
    apply IH; auto; [by apply spared_cons|lia|].
    destruct Hf' as [?|Hall]; [left; lia|right]. intros x Hx. apply Hall. apply elem_of_cons. by right. }
  destruct (Z.leb_spec (r.(start) + r.(size)) addr); [apply Hskip; lia|].
  destruct (Z.leb_spec top r.(start)).
  { apply wp_ret, unmap_post_done; auto with km. apply spared_app; [by apply spared_rev|].
    eapply (spared_above _ addr_limit). apply ordered_tail in Ho. cbn. split_and!; [lia|lia|done]. }
  destruct (is_monitor r) eqn:Em; [by apply Hskip|].
  assert (Tt : forall B, tiling B m -> tiling B (set_trace (H_calloc :: m.(trace)) m)) by (intros; by apply tiling_trace).
  destruct (Z.ltb_spec r.(start) addr).
  { wp_steps. apply wp_hcall.
    destruct (Z.eqb_spec (host_answer m.(trace) H_calloc) 0); [apply wp_ret, unmap_post_nomem; auto with km; by eexists|].
    assert (Hcut : r.(start) < addr < r.(start) + r.(size)) by lia.
    destruct (split_sizes m.(tbrk) addr_limit addr l tl r Hlo Hhi Ho Hcut) as (S1 & S2 & S3 & S4 & _).
    pose proof (split_ordered m.(tbrk) addr_limit addr l tl r Hlo Hhi Ho Hcut) as Ho'.
    assert (Hsv : forall a, view (rev (split_left r addr :: l) ++ split_right r addr :: tl) a = view (rev l ++ r :: tl) a).
    { intros a. cbn. rewrite <- app_assoc. apply (split_view m.(tbrk) addr_limit addr l tl r Hlo Hhi Ho Hcut). }
    eapply wp_mono; [apply IH|].
    - apply Tt. eapply tiling_view; [exact T| |exact Hsv]. cbn. by rewrite <- app_assoc.
    - apply spared_cons; [|done]. intros _. left. rewrite S1, S2. lia.
    - cbn. destruct Hf' as [?|Hall]; [lia|]. pose proof (Hall r (elem_mid r [] tl)). lia.
    - right. intros x Hx. pose proof (ordered_tail _ _ _ _ _ Ho') as Ht. rewrite S1, S2 in Ht.
      pose proof (ordered_starts _ _ _ _ Ht Hx). lia.
    - intros res s Hres. eapply unmap_post_step; [exact Hres|by split|]. intros a. left. apply Hsv. }
  destruct (Z.ltb_spec top (r.(start) + r.(size))).
  { wp_steps. apply wp_hcall.
    destruct (Z.eqb_spec (host_answer m.(trace) H_calloc) 0); [apply wp_ret, unmap_post_nomem; auto with km; by eexists|].
    assert (Hcut : r.(start) < top < r.(start) + r.(size)) by lia.
    destruct (split_sizes m.(tbrk) addr_limit top l tl r Hlo Hhi Ho Hcut) as (S1 & S2 & S3 & S4 & _ & _ & S5 & _).
    apply (unmap_process fuel l (rev l ++ r :: tl) (split_left r top) (split_right r top :: tl) true m);
      [done|done|by split| |congruence|rewrite ?S1, ?S2; lia..|by apply split_view with m.(tbrk) addr_limit].
    apply Tt. eapply tiling_view; [exact T|by apply split_ordered|]. by apply split_view with m.(tbrk) addr_limit. }
  rewrite <- (rend_small r addr_limit) by lia.
  apply (unmap_process fuel l (rev l ++ r :: tl) r tl false m m); auto with km; lia.
Qed.

(** Unmapping on the machine. *)
Lemma busy_range_unmap m :
  mmap_inv m ->
  wp tb_exit (km_mmap_busy_range_apply mreg act_move_to_free)
    (fun rc s => mmap_inv s /\ mm_frame m s /\ (rc = 0 \/ (rc = - ENOMEM /\ calloc_fails))
       /\ forall a, view s.(mmaps_busy) a = erase addr top (view m.(mmaps_busy)) a
                 \/ (rc = - ENOMEM /\ view s.(mmaps_busy) a = view m.(mmaps_busy) a)) m.
Proof.
  intros T. unfold km_mmap_busy_range_apply. wp_steps.
  eapply wp_mono; [apply (unmap_spec _ [] m.(mmaps_busy)); auto; cbn; [by intros ? ?%elem_of_nil|lia|left; lia]|].
  intros [rc busy'] s (T' & F & Hrc & Hv). wp_steps. split_and!; auto.
  - by apply tiling_set_busy.
  - destruct F. by split.
Qed.

End Unmap.
End Tiling.
