(* ===== verification/MmapCorrect.v ===== *)
(** * Guest mmap operations against their abstract specification

    The abstract state of guest memory is the address map [view busy]: what the
    guest sees at each address.  For mprotect, munmap (at once or delayed) and mmap
    the outcomes the operation may have are stated on that map, and the operation
    is shown to always end in one of them with the tiling invariant intact. *)
From S2P Require Import Prelude Machine MemGeom TopBreak MmapRegion MmapGuest MmapList MmapRange MmapFree.

#[local] Abbreviation TOP := GUEST_MEM_TOP_VA.

(** The busy list is the guest's regions followed by the monitor's. *)
Record layout (m : machine) (g ms : list km_mmap_reg) : Prop := {
  la_busy : m.(mmaps_busy) = g ++ ms;
  la_guests : guests g;
  la_monitors : monitors ms;
  la_some : ms <> [];
}.

(** ** Specifications *)
Section Specs.
  Context `{Host} `{!TopBreak}.

Definition set_prot_attr (prot : Z) (x : attr) : attr :=
  mk_attr prot x.(at_flags) x.(at_mon) x.(at_part) x.(at_file).

(** Outcomes of mprotect(addr, sz, prot), [sz] in whole pages. *)
Inductive mprotect_outcome (m : machine) (g : list km_mmap_reg) (addr sz prot : Z) : Z -> machine -> Prop :=
| mp_heap rc s :
    GUEST_MEM_START_VA <= addr -> addr + sz <= m.(brk) -> rc <= 0 -> traced m s ->
    mprotect_outcome m g addr sz prot rc s
| mp_unmapped a :
    addr <= a < addr + sz -> ~ mapped g a -> mprotect_outcome m g addr sz prot (- ENOMEM) m
| mp_done s :
    (forall a, addr <= a < addr + sz -> mapped g a) ->
    (forall a, view s.(mmaps_busy) a = update (set_prot_attr prot) addr (addr + sz) (view m.(mmaps_busy)) a) ->
    mprotect_outcome m g addr sz prot 0 s
| mp_nomem s :
    calloc_fails ->
    (forall a, view s.(mmaps_busy) a = view m.(mmaps_busy) a
       \/ view s.(mmaps_busy) a = update (set_prot_attr prot) addr (addr + sz) (view m.(mmaps_busy)) a) ->
    mprotect_outcome m g addr sz prot (- ENOMEM) s.

(** Outcomes of unmapping a range. *)
Inductive munmap_outcome (m : machine) (addr sz : Z) : Z -> machine -> Prop :=
| mu_done s :
    (forall a, view s.(mmaps_busy) a = erase addr (addr + sz) (view m.(mmaps_busy)) a) ->
    munmap_outcome m addr sz 0 s
| mu_nomem s :
    calloc_fails ->
    (forall a, view s.(mmaps_busy) a = view m.(mmaps_busy) a
            \/ view s.(mmaps_busy) a = erase addr (addr + sz) (view m.(mmaps_busy)) a) ->
    munmap_outcome m addr sz (- ENOMEM) s.

(** Outcomes of a mapping at an address of the monitor's choice. *)
Inductive mmap_outcome (m : machine) (sz : Z) (x : attr) : Z -> machine -> Prop :=
| mm_done gva s :
    s.(tbrk) <= gva -> gva + sz <= TOP ->
    (forall a, gva <= a < gva + sz -> ~ mapped m.(mmaps_busy) a) ->
    (forall a, view s.(mmaps_busy) a = if in_range gva (gva + sz) a then Some x else view m.(mmaps_busy) a) ->
    mmap_outcome m sz x gva s
| mm_error e s :
    0 < e < 4096 -> (forall a, view s.(mmaps_busy) a = view m.(mmaps_busy) a) ->
    mmap_outcome m sz x (neg_errno e) s.

(** ** Helpers *)
Lemma tiling_same_domain B B' m :
  tiling B m -> ordered m.(tbrk) B' addr_limit ->
  (forall a, match view B a, view B' a with
             | Some x, Some y => at_mon x = at_mon y /\ at_part x = at_part y
             | None, None => True
             | _, _ => False end) ->
  tiling B' m.
Proof.
  intros [T1 T2 T3 T4 T5] Ho Hv. split; auto.
  - intros a Ha. rewrite <- T4 by done. unfold mapped, is_Some. specialize (Hv a).
    destruct (view B a), (view B' a); try done; split; eauto; by intros [? [=]].
  - intros a y Hy. specialize (Hv a). rewrite Hy in Hv. destruct (view B a) as [x|] eqn:E; [|done].
    destruct Hv as [<- <-]. eauto.
Qed.

Lemma update_domain f lo hi v a :
  (forall x, at_mon (f x) = at_mon x /\ at_part (f x) = at_part x) ->
  match v a, update f lo hi v a with
  | Some x, Some y => at_mon x = at_mon y /\ at_part x = at_part y
  | None, None => True
  | _, _ => False end.
Proof. intros Hf. unfold update. destruct (v a) as [x|]; [|done]. destruct (_ && _); [destruct (Hf x)|]; auto. Qed.

Lemma layout_contiguous m g ms addr sz :
  mmap_inv m -> layout m g ms -> 0 <= addr -> 0 < sz -> addr + sz <= addr_limit ->
  km_mmap_busy_check_contiguous m.(mmaps_busy) addr sz = 0 <-> forall a, addr <= a < addr + sz -> mapped g a.
Proof.
  intros T [L1 L2 L3 L4] ???. pose proof (ti_busy _ _ T) as Ho. pose proof (tiling_bounds _ _ T).
  rewrite L1 in *. apply ordered_app in Ho as (mid & Hg & Hms).
  destruct (check_from_spec ms mid addr_limit addr sz L3 L4 Hms (Z.le_refl _) ltac:(lia) ltac:(lia) ltac:(lia)
    g m.(tbrk) 0 ltac:(lia) Hg L2 ltac:(auto)) as [C _].
  unfold km_mmap_busy_check_contiguous. rewrite C. by replace (Z.max addr 0) with addr by lia.
Qed.

Lemma mapped_dec l a : mapped l a \/ ~ mapped l a.
Proof. unfold mapped. destruct (view l a); [left; eauto|right; by intros [? [=]]]. Qed.

(** Some address of a range that is not all mapped. *)
Lemma unmapped_witness l n addr :
  (forall a, addr <= a < addr + Z.of_nat n -> mapped l a)
  \/ exists a, addr <= a < addr + Z.of_nat n /\ ~ mapped l a.
Proof.
  induction n as [|n IH]; [left; intros; lia|]. destruct IH as [Hall|(a & Ha & Hn)]; [|right; exists a; split; [lia|done]].
  destruct (mapped_dec l (addr + Z.of_nat n)) as [Hm|Hm]; [|right; eexists; split; [|exact Hm]; lia].
  left. intros a Ha. destruct (Z.eq_dec a (addr + Z.of_nat n)) as [->|]; [done|]. apply Hall. lia.
Qed.

Lemma roundup_page_nonneg sz : 0 <= roundup sz KM_PAGE_SIZE.
Proof.
  unfold roundup. pose proof (u64_range (sz + (KM_PAGE_SIZE - 1))) as [? _].
  assert (0 <= u64 (sz + (KM_PAGE_SIZE - 1)) / KM_PAGE_SIZE) by (apply Z.div_pos; [done|vm_compute; reflexivity]).
  apply Z.mul_nonneg_nonneg; [done|vm_compute; congruence].
Qed.

(** ** mprotect *)
Lemma mprotect_nolock_spec m g ms addr sz prot :
  mmap_inv m -> layout m g ms -> 0 <= addr -> 0 < sz -> addr + sz <= addr_limit ->
  wp False (km_guest_mprotect_nolock addr sz prot)
    (fun rc s => mmap_inv s /\ mprotect_outcome m g addr sz prot rc s
       /\ mm_frame m s /\ s.(mmaps_free) = m.(mmaps_free) /\ s.(tbrk) = m.(tbrk)) m.
Proof.
  intros T L Ha Hs Hlim. unfold km_guest_mprotect_nolock. wp_steps.
  rewrite u64_small by (unfold is_u64, two64, addr_limit in *; lia).
  destruct ((addr + sz <=? m.(brk)) && (GUEST_MEM_START_VA <=? addr)) eqn:E.
  { apply andb_true_iff in E as [E1%Z.leb_le E2%Z.leb_le]. wp_steps. apply wp_hcall. wp_steps.
    split_and!; auto with km; [by apply tiling_trace|].
    apply mp_heap; auto with km. destruct (Z.ltb_spec (host_answer m.(trace)
      (H_mprotect (km_gva_to_kma_nocheck m addr) sz (protection_adjust prot))) 0); lia. }
  pose proof (layout_contiguous m g ms addr sz T L Ha Hs Hlim) as Hc.
  destruct (Z.eqb_spec (km_mmap_busy_check_contiguous m.(mmaps_busy) addr sz) 0) as [E0|E0]; cbn [negb].
  - apply wp_bind. eapply wp_mono.
    + apply (busy_range_update False (reg0 addr sz prot false) act_mprotect m.(tbrk) addr_limit); cbn; auto;
        try done; try lia; [pose proof (tiling_bounds _ _ T); lia|apply T].
    + intros rc s (busy' & -> & Ho & Hrc & Hv). wp_steps. cbn [start size reg0] in Hv.
      assert (Hmi : mmap_inv (set_mmaps_busy busy' (set_trace s.(trace) m))).
      { unfold mmap_inv. cbn [mmaps_busy set_mmaps_busy]. apply tiling_set_busy, tiling_trace. eapply tiling_same_domain; [exact T|done|].
        intros a. destruct (Hv a) as [->|[_ ->]]; [by apply update_domain|by destruct (view _ a)]. }
      split_and!; auto; [|by split]. destruct Hrc as [->|[-> Hn]]; cbn.
      * apply mp_done; [by apply Hc|]. intros a. cbn [mmaps_busy set_mmaps_busy]. destruct (Hv a) as [->|[? _]]; [done|discriminate].
      * apply mp_nomem; [done|]. intros a. cbn [mmaps_busy set_mmaps_busy]. destruct (Hv a) as [->|[_ ->]]; auto.
  - wp_steps. split_and!; auto with km.
    destruct (unmapped_witness g (Z.to_nat sz) addr) as [Hall|(a & Hr & Hn)]; rewrite Z2Nat.id in * by lia.
    + destruct E0. by apply Hc.
    + by eapply mp_unmapped.
Qed.


(** ** munmap *)
Lemma munmap_nolock_spec m addr sz :
  mmap_inv m -> 0 <= addr -> 0 <= sz -> addr + sz <= addr_limit ->
  wp tb_exit (km_guest_munmap_nolock addr sz)
    (fun rc s => mmap_inv s /\ mm_frame m s /\ munmap_outcome m addr sz rc s) m.
Proof.
  intros T Ha Hs Hlim. unfold km_guest_munmap_nolock.
  eapply wp_mono; [by apply busy_range_unmap|]. cbn [start size reg0].
  intros rc s (T' & F & Hrc & Hv). split_and!; auto. destruct Hrc as [->|[-> Hn]].
  - apply mu_done. intros a. destruct (Hv a) as [->|[? _]]; [done|discriminate].
  - apply mu_nomem; [done|]. intros a. destruct (Hv a) as [->|[_ ->]]; auto.
Qed.

Lemma roundup_page_aligned addr :
  0 <= addr <= addr_limit -> (addr =? roundup addr KM_PAGE_SIZE) = (addr mod KM_PAGE_SIZE =? 0).
Proof.
  intros Ha. unfold roundup. rewrite u64_small by (unfold is_u64, two64, addr_limit, KM_PAGE_SIZE in *; lia).
  unfold KM_PAGE_SIZE. pose proof (Z.div_mod addr 4096). pose proof (Z.mod_pos_bound addr 4096).
  pose proof (Z.div_mod (addr + (4096 - 1)) 4096). pose proof (Z.mod_pos_bound (addr + (4096 - 1)) 4096).
  destruct (Z.eqb_spec addr ((addr + (4096 - 1)) / 4096 * 4096)), (Z.eqb_spec (addr mod 4096) 0); try done; lia.
Qed.

(** C7. munmap of any range below 2^62 refines the removal of the range from the
    guest's address map: bad arguments are EINVAL and change nothing; a range that
    holds the thread's own stack is only recorded, for km_delayed_munmap, unless a
    range is recorded already, when the assertion on the record ends the monitor;
    otherwise every guest address in the range disappears (the monitor's own pages
    stay), or, when the allocator fails, each address is as before or gone; the free
    list and the top break take the addresses over (the tiling invariant), and no
    assertion of the list code fails, provided the host places anonymous memory
    where it is asked to and lets slots be unplugged. *)
Theorem km_guest_munmap_correct m vcpu addr sz :
  mmap_inv m -> 0 <= addr -> 0 <= roundup sz KM_PAGE_SIZE -> addr + roundup sz KM_PAGE_SIZE <= addr_limit ->
  let rsz := roundup sz KM_PAGE_SIZE in
  let bad := negb (addr mod KM_PAGE_SIZE =? 0) || (rsz =? 0) in
  let own_stack := in_range addr (addr + rsz) vcpu.(stack_top) in
  let recorded := negb ((vcpu.(mapself_base) =? 0) && (vcpu.(mapself_size) =? 0)) in
  if negb bad && own_stack && recorded then km_guest_munmap vcpu addr sz m = Abort
  else
  wp tb_exit (km_guest_munmap vcpu addr sz)
    (fun res s => mmap_inv s /\ mm_frame m s
       /\ if bad then res = (- EINVAL, vcpu) /\ s = m
          else if own_stack then res = (0, mk_vcpu_map vcpu.(stack_top) addr rsz) /\ s = m
          else munmap_outcome m addr rsz res.1 s /\ res.2 = vcpu) m.
Proof.
  intros T Ha Hs Hlim rsz bad own_stack recorded. unfold km_guest_munmap, mumap_check_params.
  rewrite roundup_page_aligned by lia. fold rsz. fold bad.
  destruct bad; cbn [negb andb Z.eqb]; [apply wp_ret; split_and!; auto with km|].
  rewrite u64_small by (unfold is_u64, two64, addr_limit in *; lia).
  fold (in_range addr (addr + rsz) vcpu.(stack_top)). fold own_stack. cbn.
  destruct own_stack; cbn [andb].
  - unfold recorded. destruct (_ && _) eqn:E; cbn [negb]; [|reflexivity].
    wp_steps. apply wp_assert; [done|]. wp_steps. split_and!; auto with km.
  - wp_steps. eapply wp_mono; [by apply munmap_nolock_spec|]. intros rc s (?&?&?). wp_steps. auto.
Qed.

(** The delayed munmap of a thread that exits unmaps exactly the recorded
    range and clears the record. *)
Theorem km_delayed_munmap_correct m vcpu :
  mmap_inv m -> ~ calloc_fails -> 0 <= vcpu.(mapself_base) -> 0 <= vcpu.(mapself_size) ->
  vcpu.(mapself_base) + vcpu.(mapself_size) <= addr_limit ->
  wp tb_exit (km_delayed_munmap vcpu)
    (fun v s => mmap_inv s /\ mm_frame m s /\ v.(mapself_size) = 0 /\ v.(stack_top) = vcpu.(stack_top)
       /\ forall a, view s.(mmaps_busy) a
            = erase vcpu.(mapself_base) (vcpu.(mapself_base) + vcpu.(mapself_size)) (view m.(mmaps_busy)) a) m.
Proof.
  intros T Hn Hb Hs Hlim. unfold km_delayed_munmap.
  destruct (Z.ltb_spec 0 vcpu.(mapself_size)).
  - apply wp_bind. eapply wp_mono; [by apply munmap_nolock_spec|]. intros rc s (?&?&Hout).
    destruct Hout as [s Hv|]; [|done]. wp_steps. apply wp_assert; [done|]. wp_steps. auto.
  - wp_steps. split_and!; auto with km; [lia|]. intros a. unfold erase, in_range.
    replace (vcpu.(mapself_size)) with 0 by lia. rewrite Z.add_0_r.
    destruct (view m.(mmaps_busy) a); [|done].
    destruct (Z.leb_spec vcpu.(mapself_base) a), (Z.ltb_spec a vcpu.(mapself_base)); cbn; done || lia.
Qed.

(** ** mmap *)

(** mmap(2) with MAP_FIXED returns the address asked for or an errno. *)
Definition host_mmap_fixed : Prop :=
  forall tr a s p f fd off, host_answer tr (H_mmap a s p f fd off) = a
    \/ - 4096 < host_answer tr (H_mmap a s p f fd off) < 0.

Lemma flags_split f s : Z.lor (Z.land f (Z.lnot s)) (Z.land f s) = f.
Proof.
  apply Z.bits_inj'. intros n Hn. rewrite Z.lor_spec, !Z.land_spec, Z.lnot_spec by done.
  by destruct (Z.testbit f n), (Z.testbit s n).
Qed.

Lemma change_sharing_spec reg ef df fd m :
  host_mmap_fixed -> reg.(flags) = df ->
  wp False (km_mmap_change_region_sharing reg ef df fd)
    (fun res s => traced m s /\ (res = (0, reg) \/ (- 4096 < res.1 < 0 /\ res.2 = reg))) m.
Proof.
  intros Hh Hf. unfold km_mmap_change_region_sharing. destruct (negb _); [|wp_steps; auto with km].
  wp_steps. apply wp_hcall. set (kma := default _ _). set (tmp := host_answer _ _).
  destruct (Z.eqb_spec tmp kma); cbn [negb]; wp_steps; (split; [auto with km|]).
  - left. f_equal. unfold with_flags. rewrite Hf, flags_split, <- Hf. by destruct reg.
  - right. cbn. split; [|done]. destruct (Hh m.(trace) kma reg.(size) reg.(protection) (Z.lor MAP_FIXED df) fd 0); [done|done].
Qed.

(** Filling the hole. *)
Lemma holed_insert reg m b' :
  holed m.(mmaps_busy) reg m -> ordered m.(tbrk) b' addr_limit ->
  (forall a, view b' a = if covers reg a then Some (attr_of reg) else view m.(mmaps_busy) a) ->
  forall tr, mmap_inv (set_mmaps_busy b' (set_trace tr m)).
Proof.
  intros [T1 T2 T3 (?&?&?) Hvb Hvf T4 T5] Ho Hv tr. apply tiling_set_busy, tiling_trace. split; auto.
  - intros a Ha. unfold mapped at 1. cbn [mmaps_busy set_mmaps_busy]. rewrite Hv. destruct (covers reg a) eqn:Hc.
    + split; [intros _; by apply Hvf|eauto].
    + by apply T4.
  - intros a x. cbn [mmaps_busy set_mmaps_busy]. rewrite Hv. destruct (covers reg a) eqn:Hc; [|eauto].
    intros _. left. apply covers_iff in Hc. lia.
Qed.

Lemma holed_extent B reg reg' m :
  reg'.(start) = reg.(start) -> reg'.(size) = reg.(size) -> holed B reg m -> holed B reg' m.
Proof.
  intros E1 E2 [T1 T2 T3 T4 T5 T6 T7 T8].
  assert (E : forall a, covers reg' a = covers reg a) by (intros; unfold covers; by rewrite E1, E2).
  split; auto; unfold vacant in *; try (intros a; rewrite E; auto); rewrite E1, E2; auto.
Qed.

Lemma holed_trace B reg m tr : holed B reg m -> holed B reg (set_trace tr m).
Proof. intros [T1 T2 T3 T4 T5 T6 T7 T8]. split; auto. by apply tb_inv_trace. Qed.

Definition new_attr (prot flags : Z) (at_ : mmap_allocation_type_e) : attr :=
  mk_attr prot flags (match at_ with MMAP_ALLOC_MONITOR => true | MMAP_ALLOC_GUEST => false end) false None.

Lemma add_region_finish_spec reg ef prot flags fd at_ m m0 :
  host_mmap_fixed -> holed m.(mmaps_busy) reg m -> mm_frame m0 m -> m.(mmaps_busy) = m0.(mmaps_busy) ->
  wp tb_exit (add_region_finish reg ef prot flags fd at_)
    (fun r s => mmap_inv s /\ mm_frame m0 s /\ mmap_outcome m0 reg.(size) (new_attr prot flags at_) r s) m.
Proof.
  intros Hh Hho F Hbusy. unfold add_region_finish. set (reg1 := mk_reg _ _ flags prot _ None 0).
  assert (H1 : holed m.(mmaps_busy) reg1 m) by (by apply (holed_extent _ reg)).
  apply wp_bind. unfold wp at 1.
  pose proof (change_sharing_spec reg1 ef flags fd m Hh eq_refl) as Hsh. unfold wp in Hsh.
  destruct (km_mmap_change_region_sharing reg1 ef flags fd m) as [[[rc reg2] s1]| |]; [|done|done].
  destruct Hsh as [-> Hsh]. set (m1 := set_trace _ m).
  assert (H2 : holed m.(mmaps_busy) reg1 m1) by (by apply holed_trace).
  destruct Hsh as [[= -> ->]|[Hrc Heq]]; cbn in *.
  - apply wp_bind. eapply wp_mono.
    + apply (insert_busy_spec tb_exit reg1 m1 m.(tbrk) addr_limit); try apply H2; try lia.
      * pose proof (tb_bounds m (ho_tb _ _ _ H1)). unfold GUEST_MEM_START_VA, MIB in *. lia.
      * pose proof (ho_in _ _ _ H2). pose proof top_limit. lia.
    + intros u s (b' & -> & Ho & Hv). wp_steps. destruct F. split_and!; [by eapply (holed_insert reg1 m1)|by split|].
      apply mm_done; cbn -[view]; try apply H2.
      * intros a Ha. rewrite <- Hbusy. apply H1. apply covers_iff. cbn. lia.
      * intros a. rewrite Hv. by rewrite <- Hbusy.
  - subst reg2. destruct (Z.ltb_spec rc 0); [|lia]. apply wp_bind. eapply wp_mono.
    + apply insert_free_spec; try apply H2.
    + intros u s Hrel. wp_steps. pose proof (released_tiling _ _ _ _ H2 Hrel) as T.
      pose proof (re_busy _ _ _ Hrel) as Eb. cbn in Eb. split_and!.
      * unfold mmap_inv. by rewrite Eb.
      * eapply mm_frame_trans; [exact F|]. eapply mm_frame_trans; [|apply Hrel]. by split.
      * replace (u64 rc) with (neg_errno (- rc)) by (unfold neg_errno; f_equal; lia).
        apply mm_error; [lia|]. intros a. by rewrite Eb, Hbusy.
Qed.

Lemma find_cursor_spec p acc l l' r t :
  find_cursor p acc l = Some (l', r, t) -> rev acc ++ l = rev l' ++ r :: t /\ p r = true.
Proof.
  revert acc. induction l as [|x l IH]; intros acc; cbn; [done|].
  destruct (p x) eqn:E; [by intros [= -> -> ->]|]. intros [IH1 IH2]%IH. cbn in IH1. by rewrite <- app_assoc in IH1.
Qed.

(** Taking a piece of a free region leaves a hole. *)
Lemma holed_take m free' rb :
  mmap_inv m -> m.(tbrk) <= rb.(start) -> 0 < rb.(size) -> rb.(start) + rb.(size) <= TOP ->
  ordered m.(tbrk) free' TOP -> (forall a, covers rb a = true -> mapped m.(mmaps_free) a) ->
  (forall a, mapped free' a <-> mapped m.(mmaps_free) a /\ covers rb a = false) ->
  holed m.(mmaps_busy) rb (set_mmaps_free free' m).
Proof.
  intros [T1 T2 T3 T4 T5] Hs Hz He Ho Hin Hm. split; auto; cbn [tbrk mmaps_free set_mmaps_free].
  - by apply tb_inv_free.
  - intros a Hc Hb. apply (T4 a); [apply covers_iff in Hc; lia|done|by apply Hin].
  - intros a Hc [_ Hn]%Hm. congruence.
  - intros a Ha Hc. rewrite Hm, Hc, T4 by done. tauto.
Qed.

Lemma take_part m l reg t sz :
  mmap_inv m -> m.(mmaps_free) = rev l ++ reg :: t -> 0 < sz < reg.(size) ->
  holed m.(mmaps_busy) (with_size sz reg)
    (set_mmaps_free (rev l ++ with_size (reg.(size) -u sz) (with_start (reg.(start) +u sz) reg) :: t) m).
Proof.
  intros T Hf Hsz. pose proof (ti_free _ _ T) as Ho. rewrite Hf in Ho.
  pose proof (ordered_elem _ _ _ _ Ho (elem_mid reg _ t)) as (?&?&?). pose proof (tiling_bounds _ _ T).
  pose proof (ordered_rev_mid _ _ _ _ _ Ho) as (Hl & _ & Ht). pose proof top_limit.
  assert (E1 : reg.(start) +u sz = reg.(start) + sz) by (apply u64_small; unfold is_u64, two64, addr_limit in *; lia).
  assert (E2 : reg.(size) -u sz = reg.(size) - sz) by (apply u64_small; unfold is_u64, two64, addr_limit in *; lia).
  rewrite E1, E2. apply holed_take; cbn [start size with_size]; auto; try lia.
  - apply ordered_app. exists reg.(start). cbn. split_and!; auto; try lia.
    by replace (_ + _ + _) with (reg.(start) + reg.(size)) by lia.
  - intros a Hc%covers_iff. rewrite Hf, mapped_app, mapped_cons. cbn in *. lia.
  - intros a. rewrite Hf, !mapped_app, !mapped_cons, covers_false. cbn [start size with_size with_start].
    assert (Hla : mapped (rev l) a -> a < reg.(start)).
    { intros [x Hx]. destruct (Z.lt_ge_cases a reg.(start)); [done|]. by rewrite (view_outside _ _ _ _ Hl) in Hx by lia. }
    assert (Hta : mapped t a -> reg.(start) + reg.(size) <= a).
    { intros Hx. destruct (Z.lt_ge_cases a (reg.(start) + reg.(size))); [|lia]. by apply (not_mapped_below _ _ _ _ Ht) in Hx. }
    split; [intros [|[|]]; (split; [|intros ?]); auto; try (right; left); try lia; intuition lia|].
    intros [[|[|]] ?]; auto. right. left. lia.
Qed.

Lemma take_all m l reg t :
  mmap_inv m -> m.(mmaps_free) = rev l ++ reg :: t ->
  holed m.(mmaps_busy) reg (set_mmaps_free (rev l ++ t) m).
Proof.
  intros T Hf. pose proof (ti_free _ _ T) as Ho. rewrite Hf in Ho.
  pose proof (ordered_elem _ _ _ _ Ho (elem_mid reg _ t)) as (?&?&?).
  pose proof (ordered_rev_mid _ _ _ _ _ Ho) as (Hl & _ & Ht).
  apply holed_take; auto.
  - apply ordered_app. exists reg.(start). split; [done|]. eapply ordered_weaken; eauto; lia.
  - intros a Hc%covers_iff. rewrite Hf, mapped_app, mapped_cons. lia.
  - intros a. rewrite Hf, !mapped_app, mapped_cons, covers_false. split.
    + intros Hm. split; [tauto|]. intros Hc. destruct Hm as [[x Hx]|Hx].
      * by rewrite (view_outside _ _ _ _ Hl) in Hx by lia.
      * apply (not_mapped_below _ _ _ a Ht) in Hx; [done|lia].
    + intros [[|[|]] ?]; auto. lia.
Qed.

(** Fresh address space below the old top break. *)
Lemma take_fresh m s sz :
  mmap_inv m -> tb_inv s -> tb_frame m s -> 0 < sz -> s.(tbrk) = m.(tbrk) - sz ->
  holed s.(mmaps_busy) (reg0 s.(tbrk) sz 0 false) s.
Proof.
  intros T Htb [F1 F2 _ _ _] Hsz Et. pose proof T as [T1 T2 T3 T4 T5]. pose proof (tiling_bounds _ _ T).
  assert (Hlow : forall l hi a, ordered m.(tbrk) l hi -> s.(tbrk) <= a < s.(tbrk) + sz -> ~ mapped l a).
  { intros l hi a Hl Ha. eapply not_mapped_below; [exact Hl|lia]. }
  split; auto; rewrite ?F1, ?F2; auto; cbn [start size reg0].
  - eapply ordered_weaken; eauto; lia.
  - eapply ordered_weaken; eauto; lia.
  - lia.
  - intros a Hc%covers_iff. eauto.
  - intros a Hc%covers_iff. eauto.
  - intros a Ha Hc%covers_false. apply T4. cbn in Hc. lia.
Qed.

(** A request that did not wrap around. *)
Lemma want_in_range tb sz :
  0 <= tb <= TOP -> 0 < sz <= 2 ^ 63 -> tb -u sz <= TOP -> tb -u sz = tb - sz.
Proof.
  intros Ht Hs Hw. assert (TOP < 2 ^ 40) by (vm_compute; reflexivity). unfold u64 in *.
  destruct (Z.le_gt_cases sz tb); [apply Z.mod_small; unfold two64; lia|].
  rewrite <- (Z_mod_plus_full _ 1), Z.mod_small in Hw by (unfold two64; lia). unfold two64 in Hw. lia.
Qed.

Lemma add_region_spec m sz prot flags fd at_ :
  mmap_inv m -> host_mmap_fixed -> 0 < sz <= 2 ^ 63 -> m.(tbrk) -u sz <> 0 -> m.(tbrk) -u sz <> GUEST_VA_OFFSET m ->
  m.(tbrk) -u sz <> neg_errno ENOMEM ->
  wp tb_exit (km_mmap_add_region sz prot flags fd at_)
    (fun r s => mmap_inv s /\ mm_frame m s /\ mmap_outcome m sz (new_attr prot flags at_) r s) m.
Proof.
  intros T Hh Hsz Hn0 Hnv Hne. unfold km_mmap_add_region. wp_steps. pose proof (tiling_bounds _ _ T) as Hb.
  assert (Hnomem : forall tr, mmap_inv (set_trace tr m) /\ mm_frame m (set_trace tr m)
    /\ mmap_outcome m sz (new_attr prot flags at_) (neg_errno ENOMEM) (set_trace tr m)).
  { intros tr. split_and!; [by apply tiling_trace|by split|]. apply mm_error; [vm_compute; split; reflexivity|done]. }
  unfold km_mmap_find_free. destruct (find_cursor _ [] m.(mmaps_free)) as [[[l reg] t]|] eqn:Ef.
  - apply find_cursor_spec in Ef as [Ef Hle%Z.leb_le]. cbn in Ef.
    apply wp_bind, wp_assert; [by apply Z.leb_le|].
    destruct (Z.ltb_spec sz reg.(size)).
    + wp_steps. apply wp_hcall. destruct (_ =? 0); wp_steps; [apply Hnomem|].
      apply (add_region_finish_spec (with_size sz reg)); auto; [|by split].
      apply (take_part (set_trace (H_calloc :: m.(trace)) m)); [by apply tiling_trace|done|lia].
    + assert (Hsame : reg.(size) = sz) by lia.
      apply wp_bind, wp_assert; [by apply Z.eqb_eq|]. wp_steps. rewrite <- Hsame.
      apply add_region_finish_spec; auto; [|by split]. exact (take_all m l reg t T Ef).
  - wp_steps. apply wp_hcall. destruct (_ =? 0); wp_steps; [apply Hnomem|].
    eapply wp_mono; [apply tb_move; auto; by apply tb_inv_trace, T|].
    intros r s (Htb & F & Hres). cbn [tbrk set_trace] in Hres.
    assert (Fm : tb_frame m s) by (destruct F; by split).
    assert (FF : mm_frame m s) by (destruct F; by split).
    destruct Hres as [[-> Ht]|(-> & Ht & Hno)].
    + rewrite Z.eqb_refl. cbn [negb].
      assert (Hwant : m.(tbrk) -u sz = m.(tbrk) - sz).
      { pose proof (tb_bounds s Htb) as Hbs. rewrite Ht in Hbs. apply want_in_range; lia. }
      rewrite Hwant in *. rewrite <- Ht. change sz with (size (reg0 s.(tbrk) sz 0 false)) at 2.
      apply add_region_finish_spec; auto; [apply (take_fresh m); auto; lia|apply Fm].
    + destruct (Z.eqb_spec (neg_errno ENOMEM) (m.(tbrk) -u sz)); [congruence|]. cbn [negb]. wp_steps.
      destruct F as [F1 F2 F3 F4 F5], T as [T1 T2 T3 T4 T5]. split_and!; auto.
      * split; rewrite ?Ht, ?F1, ?F2; auto.
      * apply mm_error; [vm_compute; split; reflexivity|]. intros a. by rewrite F2.
Qed.

Context `{!GuestFiles}.

Lemma mmap_anon_nolock gva sz prot flags fd off type m :
  Z.land flags MAP_ANONYMOUS = MAP_ANONYMOUS -> Z.land flags MAP_FIXED = 0 ->
  km_guest_mmap_nolock gva sz prot flags fd off type m = km_mmap_add_region sz prot flags (-1) type m.
Proof.
  intros Ha Hf. unfold km_guest_mmap_nolock. rewrite Ha, Hf, Z.eqb_refl.
  replace (if true && negb (fd =? -1) then -1 else fd) with (-1) by (by destruct (Z.eqb_spec fd (-1))).
  change (0 =? MAP_FIXED) with false. change (0 <=? -1) with false. cbn [andb negb]. unfold bind, get, ret.
  destruct (km_mmap_add_region _ _ _ _ _ m) as [[r s]| |]; [|done|done]. by destruct (_ <? 0).
Qed.

Lemma mmap_anon_spec m gva sz prot flags fd off :
  mmap_inv m -> host_mmap_fixed ->
  Z.land flags MAP_ANONYMOUS = MAP_ANONYMOUS -> Z.land flags MAP_FIXED = 0 -> Z.land flags MAP_FIXED_NOREPLACE = 0 ->
  0 < sz < 2 ^ 62 -> roundup sz KM_PAGE_SIZE <> m.(tbrk) ->
  roundup sz KM_PAGE_SIZE <> m.(tbrk) - GUEST_VA_OFFSET m -> roundup sz KM_PAGE_SIZE <> m.(tbrk) + ENOMEM ->
  wp tb_exit (km_guest_mmap gva sz prot flags fd off)
    (fun r s => mmap_inv s /\ mm_frame m s
       /\ mmap_outcome m (roundup sz KM_PAGE_SIZE) (mk_attr prot flags false false None) r s) m.
Proof.
  intros T Hh Ha Hf Hnr Hsz Hn1 Hn2 Hn3. unfold km_guest_mmap, km_guest_mmap_impl, mmap_check_params.
  rewrite Hnr, Hf, Ha. cbn [negb Z.eqb andb]. change (MAP_ANONYMOUS =? 0) with false. cbn [negb andb].
  destruct (roundup_bounds sz KM_PAGE_SIZE) as [Hr Hrm]; try (unfold two64, KM_PAGE_SIZE; lia).
  set (sz' := roundup sz KM_PAGE_SIZE) in *. unfold wp. rewrite Z.eqb_refl. cbn [negb]. rewrite mmap_anon_nolock by done.
  pose proof (tiling_bounds _ _ T) as Hb. pose proof (tb_bounds m (ti_tb _ _ T)) as [_ Hv].
  assert (HT : TOP < 2 ^ 40) by (vm_compute; reflexivity).
  assert (Hw : exists k, m.(tbrk) -u sz' = m.(tbrk) - sz' + k * two64 /\ (k = 0 \/ k = 1)).
  { destruct (Z.le_gt_cases sz' m.(tbrk)).
    - exists 0. split; [|auto]. rewrite Z.add_0_r. apply u64_small. unfold is_u64, two64. lia.
    - exists 1. split; [|auto]. unfold u64. rewrite <- (Z_mod_plus_full _ 1), Z.mod_small; unfold two64, KM_PAGE_SIZE in *; lia. }
  destruct Hw as (k & Hw & Hk).
  apply (add_region_spec m sz' prot flags (-1) MMAP_ALLOC_GUEST); auto; rewrite ?Hw.
  - unfold KM_PAGE_SIZE in *. lia.
  - unfold two64, KM_PAGE_SIZE in *. lia.
  - unfold two64, KM_PAGE_SIZE in *. destruct Hk; subst k; lia.
  - change (neg_errno ENOMEM) with (two64 - ENOMEM). unfold two64, KM_PAGE_SIZE, ENOMEM in *. lia.
Qed.

(** C6. An anonymous mmap at an address of the monitor's choice refines the
    addition of one range to the guest's address map: on success the range lies
    between the top break and the top of guest memory, no address of it was mapped
    before, all of it has the protection and flags asked for, and nothing else
    changes; on failure the result is an errno and the map is as before.  The
    tiling invariant is kept, and the monitor does not abort while the host places
    memory where it is asked to and lets slots be unplugged.  The request is neither
    MAP_FIXED nor MAP_FIXED_NOREPLACE, its length is not 0 (the monitor aborts then)
    and below 2^62, and, rounded to pages, not exactly the address of the top break
    (mmap reports success with nothing mapped then, km_guest_mmap_whole_below) nor
    its distance from the offset between the zones; the top break is page aligned. *)
Theorem km_guest_mmap_anon_correct m gva sz prot flags fd off :
  mmap_inv m -> host_mmap_fixed -> m.(tbrk) mod KM_PAGE_SIZE = 0 ->
  Z.land flags MAP_ANONYMOUS = MAP_ANONYMOUS -> Z.land flags MAP_FIXED = 0 -> Z.land flags MAP_FIXED_NOREPLACE = 0 ->
  0 < sz < 2 ^ 62 -> roundup sz KM_PAGE_SIZE <> m.(tbrk) ->
  roundup sz KM_PAGE_SIZE <> m.(tbrk) - GUEST_VA_OFFSET m ->
  wp tb_exit (km_guest_mmap gva sz prot flags fd off)
    (fun r s => mmap_inv s /\ mm_frame m s
       /\ mmap_outcome m (roundup sz KM_PAGE_SIZE) (mk_attr prot flags false false None) r s) m.
Proof.
  intros T Hh Hal Ha Hf Hnr Hsz Hn1 Hn2. apply mmap_anon_spec; auto.
  destruct (roundup_bounds sz KM_PAGE_SIZE) as [Hr Hrm]; try (unfold two64, KM_PAGE_SIZE; lia).
  unfold KM_PAGE_SIZE, ENOMEM in *. pose proof (Z.div_mod m.(tbrk) 4096). pose proof (Z.div_mod (roundup sz 4096) 4096). lia.
Qed.

(** A guest's mmap of length 0 is not refused: with nothing on the free
    list and at least one mapping, the monitor aborts. *)
Theorem km_guest_mmap_zero_aborts m gva prot fd off :
  mmap_inv m -> m.(mmaps_free) = [] -> m.(tbrk) < TOP -> (forall tr, host_answer tr H_calloc <> 0) ->
  km_guest_mmap gva 0 prot (Z.lor MAP_PRIVATE MAP_ANONYMOUS) fd off m = Abort.
Proof.
  intros T Hfree Ht Hc. unfold km_guest_mmap, km_guest_mmap_impl, mmap_check_params.
  change (roundup 0 KM_PAGE_SIZE) with 0. set (fl := Z.lor MAP_PRIVATE MAP_ANONYMOUS).
  change (Z.land fl MAP_FIXED_NOREPLACE =? 0) with true. change (Z.land fl MAP_FIXED =? 0) with true.
  change (Z.land fl MAP_ANONYMOUS =? 0) with false. cbn [negb andb Z.eqb].
  rewrite mmap_anon_nolock by done. unfold km_mmap_add_region, bind, get, hcall. rewrite Hfree. cbn -[km_mem_tbrk_op].
  destruct (Z.eqb_spec (host_answer m.(trace) H_calloc) 0) as [E|_]; [by apply Hc in E|].
  pose proof (tiling_bounds _ _ T) as Hb. pose proof T as [T1 T2 T3 T4 T5].
  assert (Hw : m.(tbrk) -u 0 = m.(tbrk)).
  { rewrite Z.sub_0_r. apply u64_small. assert (TOP < 2 ^ 40) by (vm_compute; reflexivity). unfold is_u64, two64. lia. }
  rewrite Hw. set (m1 := set_trace _ m).
  pose proof (tb_move m1 m.(tbrk) (tb_inv_trace _ _ T1) ltac:(lia) ltac:(change (GUEST_VA_OFFSET m1) with (GUEST_VA_OFFSET m); lia)) as Hmv.
  unfold wp in Hmv. destruct (km_mem_tbrk_op m.(tbrk) m1) as [[r s]| |]; [|done|done].
  destruct Hmv as (_ & [F1 F2 F3 F4 F5] & [[-> Hs]|(_ & _ & [])]); [|cbn; lia].
  rewrite Z.eqb_refl. cbn [negb].
  unfold add_region_finish, km_mmap_change_region_sharing. change (Z.land _ sharing =? Z.land _ sharing) with true.
  cbn -[km_mmap_insert_busy]. unfold km_mmap_insert_busy, km_mmap_insert, bind, get, lift. rewrite F2. cbn -[insert_position].
  destruct m.(mmaps_busy) as [|p t] eqn:Eb.
  { destruct (T4 m.(tbrk) ltac:(lia)) as [_ Hm]. rewrite Hfree in Hm. destruct Hm as [x Hx]; [by intros [? [=]]|done]. }
  assert (Hp : p.(start) = m.(tbrk)).
  { destruct (T4 m.(tbrk) ltac:(lia)) as [_ Hm]. rewrite Hfree in Hm. destruct Hm as [x Hx]; [by intros [? [=]]|].
    cbn in T2. destruct T2 as (?&?&Ho). destruct (Z.eq_dec p.(start) m.(tbrk)); [done|].
    assert (Hn : ~ mapped (p :: t) m.(tbrk)); [|destruct Hn; by exists x].
    rewrite mapped_cons. intros [|Hm]; [lia|]. eapply not_mapped_below; [exact Ho| |exact Hm]. lia. }
  cbn. by rewrite Hp, Z.ltb_irrefl.
Qed.

Lemma find_cursor_none p acc l : (forall x, x ∈ l -> p x = false) -> find_cursor p acc l = None.
Proof.
  revert acc. induction l as [|x l IH]; intros acc Hp; cbn; [done|].
  rewrite Hp by (apply elem_of_cons; by left). apply IH. intros y Hy. apply Hp, elem_of_cons. by right.
Qed.

(** A guest's mmap of a length equal to the top break reports success at
    the top break without mapping anything: the new break it asks for is 0, which
    km_mem_tbrk takes for a query. *)
Theorem km_guest_mmap_whole_below m gva prot fd off :
  mmap_inv m -> m.(tbrk) mod KM_PAGE_SIZE = 0 -> TOP < 2 * m.(tbrk) -> (forall tr, host_answer tr H_calloc <> 0) ->
  exists s, km_guest_mmap gva m.(tbrk) prot (Z.lor MAP_PRIVATE MAP_ANONYMOUS) fd off m = Ret (m.(tbrk), s)
    /\ traced m s.
Proof.
  intros T Hal Ht Hc. pose proof (tiling_bounds _ _ T) as Hb. pose proof top_limit.
  unfold km_guest_mmap, km_guest_mmap_impl, mmap_check_params.
  assert (Hr : roundup m.(tbrk) KM_PAGE_SIZE = m.(tbrk)).
  { symmetry. apply Z.eqb_eq. rewrite roundup_page_aligned by lia. by rewrite Hal. }
  rewrite Hr. set (fl := Z.lor MAP_PRIVATE MAP_ANONYMOUS).
  change (Z.land fl MAP_FIXED_NOREPLACE =? 0) with true. change (Z.land fl MAP_FIXED =? 0) with true.
  change (Z.land fl MAP_ANONYMOUS =? 0) with false. cbn [negb andb Z.eqb].
  rewrite mmap_anon_nolock by done. unfold km_mmap_add_region, km_mmap_find_free, bind, get, hcall.
  rewrite find_cursor_none.
  - destruct (Z.eqb_spec (host_answer m.(trace) H_calloc) 0) as [E|_]; [by apply Hc in E|].
    rewrite Z.sub_diag. change (u64 0) with 0. rewrite tb_query. cbn [tbrk set_trace].
    destruct (Z.eqb_spec m.(tbrk) 0); [lia|]. cbn. eexists. split; [reflexivity|auto with km].
  - intros x Hx. pose proof (ordered_elem _ _ _ _ (ti_free _ _ T) Hx). apply Z.leb_gt. lia.
Qed.

End Specs.
