(* ===== verification/MmapSystem.v ===== *)
(** * The memory system put together

    The mmap component on top of the memory component that MemBrk.v proves: every
    sequence of guest calls keeps the invariants and none of them makes the monitor
    abort.  A concrete booted machine shows that the hypotheses of the theorems
    hold, and is where the defects of km_guest_mmap_nolock and km_mmap_concat are
    exhibited. *)
From S2P Require Import Prelude Machine MemGeom TopBreak PageTable MemBrk MmapRegion MmapGuest MmapList MmapRange MmapFree MmapCorrect.

#[local] Abbreviation TOP := GUEST_MEM_TOP_VA.

(** ** Sequences of guest calls *)
Definition monitor_attr (x : attr) : bool := at_mon x || at_part x.

(** The monitor's regions are exactly those at [G] and above, without a gap below
    the top of guest memory. *)
Record sealed (G : Z) (m : machine) : Prop := {
  se_low : G < TOP;
  se_split : forall a x, view m.(mmaps_busy) a = Some x -> (monitor_attr x = true <-> G <= a);
  se_full : forall a, G <= a < TOP -> mapped m.(mmaps_busy) a;
}.

Lemma split_list G l lo hi :
  ordered lo l hi -> (forall a x, view l a = Some x -> (monitor_attr x = true <-> G <= a)) ->
  exists g ms, l = g ++ ms /\ guests g /\ monitors ms.
Proof.
  revert lo. induction l as [|r t IH]; intros lo Ho Hs; [exists [], []; split_and!; [done|constructor|constructor]|].
  pose proof Ho as (H1 & H2 & Ht).
  assert (Hr : is_monitor r = true <-> G <= r.(start)).
  { apply (Hs r.(start) (attr_of r)). cbn. by rewrite covers_start. }
  assert (Hsub : forall a x, view t a = Some x -> view (r :: t) a = Some x).
  { intros a x Hx. cbn. destruct (covers r a) eqn:Hc; [|done].
    apply covers_iff in Hc. rewrite (view_outside _ _ _ _ Ht) in Hx by lia. done. }
  destruct (is_monitor r) eqn:Em.
  - exists [], (r :: t). split_and!; [done|by apply Forall_nil|]. apply Forall_cons. split; [done|].
    apply Forall_forall. intros x Hx. pose proof (ordered_elem _ _ _ _ Ht Hx) as (?&?&?).
    assert (Hv : view (rev [] ++ t) x.(start) = Some (attr_of x)).
    { apply list_elem_of_split in Hx as (l1 & l2 & ->). cbn.
      pose proof (view_mid (r.(start) + r.(size)) (rev l1) x l2 hi x.(start)) as Hm.
      rewrite rev_involutive in Hm. apply Hm; [done|]. apply covers_iff. lia. }
    apply (Hs x.(start) (attr_of x)); [by apply Hsub|]. pose proof (proj1 Hr eq_refl). lia.
  - destruct (IH _ Ht) as (g & ms & -> & Hg & Hms); [intros a x Hx; apply Hs; auto|].
    exists (r :: g), ms. split_and!; [done|by apply Forall_cons|done].
Qed.

Section System.
  Context `{Host} `{!GuestFiles}.

Lemma sealed_layout G m : mmap_inv m -> sealed G m -> exists g ms, layout m g ms.
Proof.
  intros T [S1 S2 S3]. destruct (split_list G m.(mmaps_busy) m.(tbrk) addr_limit) as (g & ms & E & Hg & Hms); auto; [apply T|].
  exists g, ms. split; auto. intros ->. rewrite app_nil_r in E.
  destruct (S3 G ltac:(lia)) as [x Hx]. pose proof (proj2 (S2 _ _ Hx) (Z.le_refl _)) as Hm.
  apply view_some_elem in Hx as (r & Hr & _ & <-). rewrite E in Hr.
  apply (proj1 (Forall_forall _ _) Hg) in Hr. unfold monitor_attr in Hm. unfold is_monitor in Hr. cbn in Hm. congruence.
Qed.

(** A call that changes the guest's addresses only keeps the seal. *)
Lemma sealed_change G m s :
  mmap_inv m -> sealed G m ->
  (forall a, match view m.(mmaps_busy) a with
             | Some x => if monitor_attr x then view s.(mmaps_busy) a = Some x
                         else forall y, view s.(mmaps_busy) a = Some y -> monitor_attr y = false
             | None => forall y, view s.(mmaps_busy) a = Some y -> a < TOP /\ monitor_attr y = false
             end) ->
  sealed G s.
Proof.
  intros T [S1 S2 S3] Hv. split; auto.
  - intros a y Hy. specialize (Hv a). destruct (view m.(mmaps_busy) a) as [x|] eqn:E.
    + specialize (S2 a x E). destruct (monitor_attr x) eqn:Em.
      * rewrite Hv in Hy. injection Hy as <-. by rewrite Em.
      * rewrite (Hv y Hy). intuition congruence.
    + destruct (Hv y Hy) as [Ha ->]. split; [done|]. intros Hg.
      destruct (S3 a ltac:(lia)) as [z Hz]. congruence.
  - intros a Ha. destruct (S3 a Ha) as [x Hx]. specialize (Hv a). rewrite Hx in Hv.
    rewrite (proj2 (S2 a x Hx) (proj1 Ha)) in Hv. by exists x.
Qed.

Inductive guest_op :=
| Op_mmap (gva sz prot flags fd off : Z)
| Op_munmap (vcpu : km_vcpu_map) (addr sz : Z)
| Op_mprotect (addr sz prot : Z).

Definition run_op (op : guest_op) : M machine unit :=
  match op with
  | Op_mmap gva sz prot flags fd off => km_guest_mmap gva sz prot flags fd off ;;; ret tt
  | Op_munmap vcpu addr sz => km_guest_munmap vcpu addr sz ;;; ret tt
  | Op_mprotect addr sz prot => km_guest_mprotect addr sz prot ;;; ret tt
  end.

(** Arguments that avoid the lengths with the defects shown below. *)
Definition op_ok (m : machine) (op : guest_op) : Prop :=
  match op with
  | Op_mmap _ sz _ flags _ _ =>
      0 < sz < 2 ^ 62 /\ roundup sz KM_PAGE_SIZE < m.(tbrk) - GUEST_VA_OFFSET m
      /\ Z.land flags MAP_ANONYMOUS = MAP_ANONYMOUS /\ Z.land flags MAP_FIXED = 0
      /\ Z.land flags MAP_FIXED_NOREPLACE = 0
  | Op_munmap vcpu addr sz =>
      0 <= addr /\ 0 <= roundup sz KM_PAGE_SIZE /\ addr + roundup sz KM_PAGE_SIZE <= addr_limit
      /\ vcpu.(mapself_base) = 0 /\ vcpu.(mapself_size) = 0
  | Op_mprotect addr sz _ =>
      0 <= addr /\ 0 <= sz /\ addr + roundup sz KM_PAGE_SIZE <= addr_limit
  end.

Lemma sealed_update G m s f lo hi :
  mmap_inv m -> sealed G m -> (forall x, monitor_attr (f x) = monitor_attr x) ->
  (forall a, view s.(mmaps_busy) a = view m.(mmaps_busy) a
          \/ view s.(mmaps_busy) a = update f lo hi (view m.(mmaps_busy)) a) -> sealed G s.
Proof.
  intros T S Hf Hv. eapply sealed_change; [exact T|exact S|]. intros a. destruct (Hv a) as [-> | ->]; unfold update;
    destruct (view m.(mmaps_busy) a) as [x|]; try done; unfold monitor_attr in *.
  - destruct (_ || _) eqn:E; [done|]. by intros y [= <-].
  - destruct (at_mon x || at_part x) eqn:E; [by rewrite andb_false_r|].
    destruct (_ && _); intros y [= <-]; [by rewrite Hf|done].
Qed.

Lemma sealed_erase G m s lo hi :
  mmap_inv m -> sealed G m ->
  (forall a, view s.(mmaps_busy) a = view m.(mmaps_busy) a
          \/ view s.(mmaps_busy) a = erase lo hi (view m.(mmaps_busy)) a) -> sealed G s.
Proof.
  intros T S Hv. eapply sealed_change; [exact T|exact S|]. intros a. destruct (Hv a) as [-> | ->]; unfold erase;
    destruct (view m.(mmaps_busy) a) as [x|]; try done; unfold monitor_attr in *.
  - destruct (_ || _) eqn:E; [done|]. by intros y [= <-].
  - destruct (at_mon x || at_part x) eqn:E; [by rewrite andb_false_r|].
    by destruct (_ && _); intros y [= <-].
Qed.

Lemma run_op_ok G m op :
  mmap_inv m -> sealed G m -> host_mmap_fixed -> op_ok m op ->
  wp tb_exit (run_op op) (fun _ s => mmap_inv s /\ sealed G s) m.
Proof.
  intros T S Hh Hop. destruct op as [hint sz prot flags fd off|vcpu addr sz|addr sz prot]; cbn [run_op op_ok] in *; apply wp_bind.
  - destruct Hop as (?&?&?&?&?). pose proof (tb_bounds m (ti_tb _ _ T)).
    eapply wp_mono; [apply mmap_anon_spec; auto; unfold ENOMEM; lia|].
    intros r s (Ts & _ & Hout). wp_steps. split; [done|].
    eapply sealed_change; [exact T|exact S|]. intros a. unfold monitor_attr.
    destruct Hout as [gva s _ Hhi Hnew ->|e s _ ->].
    + destruct (in_range _ _ a) eqn:E.
      * unfold in_range in E. apply andb_true_iff in E as [E1%Z.leb_le E2%Z.ltb_lt].
        destruct (view m.(mmaps_busy) a) as [x|] eqn:Ev; [destruct (Hnew a ltac:(lia)); by exists x|].
        intros y [= <-]. split; [lia|done].
      * destruct (view m.(mmaps_busy) a) as [x|]; [|done]. by destruct (_ || _) eqn:?; [|intros y [= <-]].
    + destruct (view m.(mmaps_busy) a) as [x|]; [|done]. by destruct (_ || _) eqn:?; [|intros y [= <-]].
  - destruct Hop as (Ha & Hs & Hlim & Hb0 & Hs0). unfold km_guest_munmap. destruct (negb (_ =? 0)); [wp_steps; auto|].
    destruct (_ && _); [apply wp_bind, wp_assert; [by rewrite Hb0, Hs0|]; wp_steps; auto|].
    apply wp_bind. eapply wp_mono; [by apply munmap_nolock_spec|]. intros rc s (Ts & _ & Hout). wp_steps.
    split; [done|]. eapply sealed_erase; [exact T|exact S|]. destruct Hout as [s Hv|s _ Hv]; intros a; auto.
  - destruct Hop as (Ha & Hs & Hlim). destruct (sealed_layout G m T S) as (g & ms & L). unfold km_guest_mprotect.
    destruct (negb _); [wp_steps; auto|]. destruct (_ || _) eqn:E; [wp_steps; auto|].
    apply orb_false_iff in E as [_ E%Z.eqb_neq]. pose proof (roundup_page_nonneg sz).
    eapply wp_mono; [apply wp_safe, (mprotect_nolock_spec m g ms); auto; lia|]. intros rc s (Ts & Hout & _). wp_steps. split; [done|].
    apply (sealed_update G m s (set_prot_attr prot) addr (addr + roundup sz KM_PAGE_SIZE)); auto.
    destruct Hout as [rc s _ _ _ ->| |s _ Hv|s _ Hv]; auto.
Qed.

Inductive guest_steps (m : machine) : machine -> Prop :=
| gs_refl : guest_steps m m
| gs_step s op s' : guest_steps m s -> op_ok s op -> run_op op s = Ret (tt, s') -> guest_steps m s'.

(** C3. A sequence of guest mmap, munmap and mprotect calls keeps the busy and free
    lists a tiling of the mmap area with the monitor's regions on top, and after it
    every further such call completes: none of the assertions in the list and memory
    code can fail while the host places memory where it is asked to and lets slots be
    unplugged.  The calls are those of op_ok: anonymous mmap at an address of the
    monitor's choice, of a length that is not 0 and, rounded to pages, smaller than
    the room below the top break (mmap of length 0 and MAP_FIXED with PROT_NONE do
    abort: km_guest_mmap_zero_aborts, km_guest_mmap_fixed_none_aborts); munmap below
    2^62 by a thread that has no unmapping of its own stack pending (a second one
    aborts, see km_guest_munmap_correct); mprotect below 2^62. *)
Theorem guest_steps_safe G m s :
  mmap_inv m -> sealed G m -> host_mmap_fixed -> host_coop -> guest_steps m s ->
  mmap_inv s /\ sealed G s /\ forall op, op_ok s op -> exists s', run_op op s = Ret (tt, s').
Proof.
  intros T S Hh Hc Hst. assert (HI : mmap_inv s /\ sealed G s).
  { induction Hst as [|s op s' _ [IT IS] Hop Hrun]; [done|].
    pose proof (run_op_ok G s op IT IS Hh Hop) as W. unfold wp in W. by rewrite Hrun in W. }
  destruct HI as [Ts Ss]. split_and!; auto. intros op Hop.
  pose proof (run_op_ok G s op Ts Ss Hh Hop) as W. unfold wp in W.
  destruct (run_op op s) as [[[] s']| |]; [by exists s'|done|done].
Qed.

End System.

(** ** Booting *)
Section Boot.
  Context `{Host} `{!GuestFiles}.

(** The monitor's own pages above the guest's memory keep the tiling. *)
Lemma monitor_pages_spec m gva sz prot tag :
  mmap_inv m -> TOP <= gva -> 0 < sz -> gva + sz <= addr_limit -> vacant m.(mmaps_busy) (reg0 gva sz prot false) ->
  wp False (km_monitor_pages_in_guest gva sz prot tag)
    (fun _ s => mmap_inv s /\ s.(tbrk) = m.(tbrk) /\ s.(guest_max_physmem) = m.(guest_max_physmem)
       /\ forall a, mapped s.(mmaps_busy) a -> mapped m.(mmaps_busy) a \/ gva <= a < gva + sz) m.
Proof.
  intros T Hg Hs Hlim Hv. pose proof (tiling_bounds _ _ T) as Hb. unfold km_monitor_pages_in_guest.
  wp_steps. apply wp_hcall. destruct (_ =? 0); [wp_steps; split_and!; auto; by apply tiling_trace|]. apply wp_bind.
  set (m1 := set_trace _ m). set (reg := mk_reg gva sz 0 prot _ tag 0).
  eapply wp_mono; [apply (insert_busy_spec False reg m1 m1.(tbrk) addr_limit); auto; cbn; try lia; apply T|].
  intros u s (b' & -> & Ho & Hview). wp_steps. split_and!; auto.
  - destruct T as [T1 T2 T3 T4 T5]. unfold mmap_inv. cbn [mmaps_busy set_mmaps_busy].
    apply tiling_set_busy, tiling_trace. split; auto.
    + by apply tb_inv_trace.
    + intros a Ha. unfold mapped at 1. rewrite Hview. destruct (covers reg a) eqn:Hc; [|by apply T4].
      apply covers_iff in Hc. cbn in Hc, Ha. lia.
    + intros a x. rewrite Hview. destruct (covers reg a) eqn:Hc; [|apply T5]. intros [= <-]. by right.
  - intros a. unfold mapped at 1. cbn [mmaps_busy set_mmaps_busy]. rewrite Hview.
    destruct (covers reg a) eqn:Hc; [|by left]. apply covers_iff in Hc. by right.
Qed.

Lemma simple_monitor_spec m sz :
  mmap_inv m -> host_mmap_fixed -> 0 < sz < 2 ^ 62 -> roundup sz KM_PAGE_SIZE < m.(tbrk) - GUEST_VA_OFFSET m ->
  wp tb_exit (km_guest_mmap_simple_monitor sz) (fun _ s => mmap_inv s) m.
Proof.
  intros T Hh Hs Hfit. unfold km_guest_mmap_simple_monitor, km_guest_mmap_impl, mmap_check_params.
  set (fl := Z.lor MAP_PRIVATE MAP_ANONYMOUS).
  change (Z.land fl MAP_FIXED_NOREPLACE =? 0) with true. change (Z.land fl MAP_FIXED =? 0) with true.
  change (Z.land fl MAP_ANONYMOUS =? 0) with false. cbn [negb andb Z.eqb]. apply wp_bind.
  destruct (roundup_bounds sz KM_PAGE_SIZE) as [Hr Hrm]; try (unfold two64, KM_PAGE_SIZE; lia).
  pose proof (tb_bounds m (ti_tb _ _ T)) as [Hb Hv]. assert (HT : TOP < 2 ^ 40) by (vm_compute; reflexivity).
  assert (Hw : m.(tbrk) -u roundup sz KM_PAGE_SIZE = m.(tbrk) - roundup sz KM_PAGE_SIZE).
  { apply u64_small. unfold is_u64, two64. lia. }
  assert (W : wp tb_exit (km_mmap_add_region (roundup sz KM_PAGE_SIZE) (Z.lor PROT_READ PROT_WRITE) fl (-1) MMAP_ALLOC_MONITOR)
    (fun _ s => mmap_inv s) m).
  { eapply wp_mono; [apply add_region_spec; auto; rewrite ?Hw; unfold KM_PAGE_SIZE in *; try lia|by intros r s (?&_)].
    change (neg_errno ENOMEM) with (2 ^ 64 - 12). lia. }
  unfold wp at 1. rewrite mmap_anon_nolock by done. unfold wp in W. by destruct (km_mmap_add_region _ _ _ _ _ m) as [[r s]| |].
Qed.

End Boot.

(** What km_mem_init and the descriptor tables put into the lists: vvar/vdso and
    the monitor's guest code above guest memory, then two pages for the GDT and the
    IDT at the top of it. *)
Section Booted.
  Context `{Host} `{!GuestFiles}.

Definition boot_regions : M machine unit :=
  km_guest_mmap_init ;;;
  km_monitor_pages_in_guest GUEST_VVAR_VDSO_BASE_VA 0x4000 PROT_READ None ;;;
  km_monitor_pages_in_guest GUEST_KMGUESTMEM_BASE_VA 0x2000 PROT_EXEC None ;;;
  km_guest_mmap_simple_monitor 8192 ;;;
  ret tt.

End Booted.

Definition no_files : GuestFiles :=
  {| km_fs_g2h_fd := fun _ => (-1, false); km_guestfd_name := fun _ => None; realpath := fun _ => None |}.

#[local] Existing Instance host_grants.
#[local] Existing Instance no_files.

Definition after {A} (c : M machine A) (m : machine) : machine :=
  match c m with Ret (_, s) => s | _ => m end.

Definition returned {A} (o : outcome (A * machine)) : option A :=
  match o with Ret (a, _) => Some a | _ => None end.

Definition booted : machine := after boot_regions (boot_machine VM_TYPE_KKM 39).

Lemma after_wp {A} (c : M machine A) (Q : machine -> Prop) m : wp False c (fun _ s => Q s) m -> Q (after c m).
Proof. unfold wp, after. by destruct (c m) as [[a s]| |]. Qed.

Lemma host_grants_mmap : host_mmap_fixed.
Proof. intros tr a s p f fd off. by left. Qed.

Lemma boot_machine_mmap_inv ty w l : 31 <= w <= 39 -> mmap_inv (set_mmaps_busy [] (set_mmaps_free [] (set_trace l (boot_machine ty w)))).
Proof.
  intros Hw. apply tiling_set_busy. split; cbn [mmaps_busy set_mmaps_busy set_mmaps_free mmaps_free tbrk set_trace boot_machine]; try done.
  - apply tb_inv_free, tb_inv_trace. exists w. by apply boot_machine_inv.
  - intros a Ha. lia.
Qed.

Lemma boot_regions_spec ty w : 31 <= w <= 39 -> wp False boot_regions (fun _ s => mmap_inv s) (boot_machine ty w).
Proof.
  intros Hw. unfold boot_regions. apply wp_bind, wp_modify. set (m0 := set_mmaps_busy _ _).
  assert (T0 : mmap_inv m0) by (by apply (boot_machine_mmap_inv ty w [])).
  assert (Hempty : forall a, ~ mapped m0.(mmaps_busy) a) by (intros a [x Hx]; done).
  assert (Hmax : m0.(guest_max_physmem) = 2 ^ w) by done. assert (Ht : m0.(tbrk) = TOP) by done. clearbody m0.
  assert (C : TOP = 2 ^ 39 - 2 ^ 21 /\ GUEST_VVAR_VDSO_BASE_VA = 2 ^ 39 /\ GUEST_KMGUESTMEM_BASE_VA = 2 ^ 39 + 0x8000
    /\ addr_limit = 2 ^ 62) by (by vm_compute). destruct C as (C1 & C2 & C3 & C4).
  apply wp_bind. eapply wp_mono; [apply (monitor_pages_spec m0); [done|lia|lia|lia|]|].
  { intros a _ Hm. by apply Hempty in Hm. }
  intros rc1 m1 (T1 & Et1 & Eg1 & Hm1). apply wp_bind.
  eapply wp_mono; [apply (monitor_pages_spec m1); [done|lia|lia|lia|]|].
  { intros a Hc%covers_iff [Hm|Hr]%Hm1; [by apply Hempty in Hm|]. cbn [start size reg0] in Hc. lia. }
  intros rc2 m2 (T2 & Et2 & Eg2 & Hm2). apply wp_bind.
  assert (Hx : ~ tb_exit) by (intros Hn; exact (Hn host_grants_coop)).
  assert (2 ^ 31 <= 2 ^ w) by (apply Z.pow_le_mono_r; lia).
  assert (Hr : roundup 8192 KM_PAGE_SIZE = 8192) by (by vm_compute).
  assert (Ho : GUEST_VA_OFFSET m2 = 2 ^ 39 - 2 ^ w).
  { unfold GUEST_VA_OFFSET, GUEST_MEM_ZONE_SIZE_VA. rewrite Eg2, Eg1, Hmax. change GUEST_MEM_START_VA with (2 ^ 21). lia. }
  eapply wp_excuse; [exact Hx|].
  eapply wp_mono; [apply (simple_monitor_spec m2); [done|apply host_grants_mmap|lia|rewrite Hr, Et2, Et1, Ht, Ho; lia]|].
  intros r s Ts. by apply wp_ret.
Qed.

Lemma booted_inv : mmap_inv booted.
Proof. apply (after_wp boot_regions (fun s => mmap_inv s)), boot_regions_spec. lia. Qed.

Lemma booted_busy : exists f1 f2 f3,
  booted.(mmaps_busy) = [mk_reg (2 ^ 39 - 2 ^ 21 - 8192) 8192 34 3 f1 None 0;
     mk_reg (2 ^ 39) 0x4000 0 1 f2 None 0; mk_reg (2 ^ 39 + 0x8000) 0x2000 0 4 f3 None 0]
  /\ f1.(km_mmap_monitor) = true /\ f2.(km_mmap_part_of_monitor) = true /\ f3.(km_mmap_part_of_monitor) = true
  /\ booted.(mmaps_free) = [] /\ booted.(tbrk) = 2 ^ 39 - 2 ^ 21 - 8192.
Proof. do 3 eexists. split; [vm_compute; reflexivity|]. by vm_compute. Qed.

#[local] Opaque booted.

Lemma booted_sealed : sealed (2 ^ 39 - 2 ^ 21 - 8192) booted.
Proof.
  destruct booted_busy as (f1 & f2 & f3 & E & E1 & E2 & E3 & _). assert (HT : TOP = 2 ^ 39 - 2 ^ 21) by (by vm_compute).
  split; rewrite ?E.
  - lia.
  - intros a x (r & Hr & Hc%covers_iff & <-)%view_some_elem.
    rewrite !elem_of_cons in Hr. unfold monitor_attr. destruct Hr as [->|[->|[->|Hr%not_elem_of_nil]]]; [..|done];
      cbn [start size attr_of at_mon at_part km_flags] in *; rewrite ?E1, ?E2, ?E3, ?orb_true_r; (split; [intros _; lia|intros _; reflexivity]).
  - intros a Ha. rewrite mapped_cons. left. cbn [start size]. lia.
Qed.

Lemma booted_layout : layout booted [] booted.(mmaps_busy).
Proof.
  destruct booted_busy as (f1 & f2 & f3 & E & E1 & E2 & E3 & _). split; [exact (eq_sym (app_nil_l _))|apply Forall_nil; exact I| |rewrite E; discriminate].
  rewrite E. unfold monitors, is_monitor. repeat constructor; cbn; by rewrite ?E1, ?E2, ?E3, ?orb_true_r.
Qed.

(** ** Concrete inputs *)
Definition RW : Z := Z.lor PROT_READ PROT_WRITE.
Definition ANON : Z := Z.lor MAP_PRIVATE MAP_ANONYMOUS.

Lemma booted_facts : booted.(tbrk) = 549753708544 /\ booted.(mmaps_free) = [] /\ booted.(guest_max_physmem) = 2 ^ 39
  /\ booted.(brk) = 2 ^ 21 /\ GUEST_VA_OFFSET booted = 0.
Proof. by vm_compute. Qed.

Lemma km_guest_mmap_anon_correct_witness : exists r s,
  km_guest_mmap 0 8000 RW ANON (-1) 0 booted = Ret (r, s) /\ mmap_inv s
  /\ mmap_outcome booted 8192 (mk_attr RW ANON false false None) r s.
Proof.
  destruct booted_facts as (F1 & F2 & F3 & F4 & F5).
  pose proof (km_guest_mmap_anon_correct booted 0 8000 RW ANON (-1) 0 booted_inv host_grants_mmap) as W.
  rewrite F1, F5 in W. specialize (W eq_refl eq_refl eq_refl eq_refl ltac:(lia)).
  specialize (W ltac:(vm_compute; discriminate) ltac:(vm_compute; discriminate)).
  apply wp_excuse in W; [|intros Hn; exact (Hn host_grants_coop)]. unfold wp in W.
  destruct (km_guest_mmap 0 8000 RW ANON (-1) 0 booted) as [[r s]| |]; [|destruct W|destruct W].
  exists r, s. destruct W as (?&_&?). auto.
Defined.

(** Two pages mapped by the guest. *)
Definition one_region : machine := after (km_guest_mmap 0 8192 RW ANON (-1) 0) booted.

Lemma one_region_inv : mmap_inv one_region.
Proof.
  apply (after_wp (km_guest_mmap 0 8192 RW ANON (-1) 0) (fun s => mmap_inv s)).
  destruct booted_facts as (F1 & F2 & F3 & F4 & F5).
  eapply wp_excuse; [intros Hn; exact (Hn host_grants_coop)|].
  eapply wp_mono; [apply (mmap_anon_spec booted 0 8192 RW ANON (-1) 0 booted_inv host_grants_mmap eq_refl eq_refl eq_refl ltac:(lia));
    rewrite ?F1, ?F5; vm_compute; discriminate|]. by intros r s (?&_).
Qed.

Lemma monitors_b l : forallb is_monitor l = true -> monitors l.
Proof. intros Hl. apply List.Forall_forall. by apply forallb_forall. Qed.

Lemma one_region_layout : exists r ms, layout one_region [r] ms /\ r.(start) = 549753700352 /\ r.(size) = 8192.
Proof.
  exists (nth 0 one_region.(mmaps_busy) (reg0 0 0 0 false)), (drop 1 one_region.(mmaps_busy)).
  split; [|by vm_compute]. split; [by vm_compute|..|by vm_compute].
  - unfold guests. apply Forall_cons. split; [by vm_compute|apply Forall_nil; exact I].
  - apply monitors_b. by vm_compute.
Qed.

#[local] Opaque one_region.


Lemma km_guest_munmap_correct_witness : exists rc s,
  km_guest_munmap (mk_vcpu_map 0 0 0) 549753700352 4096 one_region = Ret (rc, s) /\ mmap_inv s.
Proof.
  pose proof (km_guest_munmap_correct one_region (mk_vcpu_map 0 0 0) 549753700352 4096 one_region_inv
    ltac:(lia) ltac:(vm_compute; discriminate) ltac:(vm_compute; discriminate)) as W.
  cbv zeta in W. cbn [mapself_base mapself_size Z.eqb andb negb] in W. rewrite andb_false_r in W. apply wp_excuse in W; [|intros Hn; exact (Hn host_grants_coop)]. unfold wp in W.
  destruct (km_guest_munmap (mk_vcpu_map 0 0 0) 549753700352 4096 one_region) as [[rc s]| |]; [|destruct W|destruct W].
  exists rc, s. destruct W as (?&_). auto.
Defined.

Lemma host_grants_calloc tr : host_answer tr H_calloc <> 0.
Proof. by vm_compute. Qed.

Lemma km_delayed_munmap_correct_witness : exists v s,
  km_delayed_munmap (mk_vcpu_map 549753704447 549753700352 4096) one_region = Ret (v, s) /\ mmap_inv s /\ v.(mapself_size) = 0.
Proof.
  pose proof (km_delayed_munmap_correct one_region (mk_vcpu_map 549753704447 549753700352 4096) one_region_inv
    ltac:(intros [tr E]; by apply host_grants_calloc in E) ltac:(cbn; lia) ltac:(cbn; lia) ltac:(vm_compute; discriminate)) as W.
  apply wp_excuse in W; [|intros Hn; exact (Hn host_grants_coop)]. unfold wp in W.
  destruct (km_delayed_munmap (mk_vcpu_map 549753704447 549753700352 4096) one_region) as [[v s]| |]; [|destruct W|destruct W].
  exists v, s. destruct W as (?&_&?&_). auto.
Defined.

Lemma guest_steps_safe_witness : exists s, guest_steps booted s /\ s <> booted /\ mmap_inv s.
Proof.
  destruct booted_facts as (F1 & F2 & F3 & F4 & F5).
  assert (Hop : op_ok booted (Op_mmap 0 8192 RW ANON (-1) 0)).
  { cbn [op_ok]. rewrite F1, F5. split_and!; [lia|lia|vm_compute; reflexivity..]. }
  destruct (guest_steps_safe _ booted booted booted_inv booted_sealed host_grants_mmap host_grants_coop (gs_refl _)) as (_ & _ & Hrun).
  destruct (Hrun _ Hop) as (s & Hs). exists s. assert (Hst : guest_steps booted s) by (eapply gs_step; [apply gs_refl|exact Hop|exact Hs]).
  split_and!; [done| |].
  - intros E. apply (f_equal (fun o => match o with Ret (_, x) => x.(tbrk) | _ => 0 end)) in Hs. rewrite E in Hs. vm_compute in Hs. discriminate.
  - by apply (guest_steps_safe _ booted s booted_inv booted_sealed host_grants_mmap host_grants_coop Hst).
Defined.

Lemma km_guest_mmap_zero_aborts_witness : km_guest_mmap 0 0 RW ANON (-1) 0 booted = Abort.
Proof.
  destruct booted_facts as (F1 & F2 & _).
  apply (km_guest_mmap_zero_aborts booted 0 RW (-1) 0 booted_inv F2); [by rewrite F1|apply host_grants_calloc].
Defined.

Lemma km_guest_mmap_whole_below_witness : exists s,
  km_guest_mmap 0 549753708544 RW ANON (-1) 0 booted = Ret (549753708544, s) /\ traced booted s.
Proof.
  destruct booted_facts as (F1 & F2 & _).
  pose proof (km_guest_mmap_whole_below booted 0 RW (-1) 0 booted_inv) as W. rewrite F1 in W.
  apply W; [by vm_compute|by vm_compute|apply host_grants_calloc].
Defined.

(** A guest that reserves two pages with PROT_NONE, makes the first
    writable and then maps PROT_NONE over both with MAP_FIXED, which is a legal
    sequence, makes the monitor abort: the regions under the range differ in their
    clean bit, are not merged, and the assertion on the size of the merged region
    fails. *)
Theorem km_guest_mmap_fixed_none_aborts :
  let reserve :=
    let* gva := km_guest_mmap 0 8192 PROT_NONE ANON (-1) 0 in
    let* rc := km_guest_mprotect gva 4096 RW in
    ret (gva, rc) in
  returned (reserve booted) = Some (549753700352, 0)
  /\ (let* (gva, _) := reserve in km_guest_mmap gva 8192 PROT_NONE (Z.lor ANON MAP_FIXED) (-1) 0) booted = Abort.
Proof. split; vm_compute; reflexivity. Qed.
