(* ===== verification/Signal.v ===== *)
(** * Guest signals (km_signal.c, km_signal.h)

    Signals are kept in three kinds of lists: free entries (a pool of NSIGENTRY),
    signals pending for the process and signals pending for one vcpu.  An entry of
    the pool has no contents of its own, so the free list is its length.  The two
    queues hold vcpus that wait in sigsuspend or sigtimedwait, and vcpus that sleep
    in an interruptible hypercall; they share one link field, whose [tqe_prev] the
    code tests.  The signal mutex brackets each operation; a wait on a condition
    variable ends a step, and the code after it is a step of its own. *)
From S2P Require Import Prelude.

(** ** Numbers of signal.h *)
Definition NSIG : Z := 65.
Definition SIGILL : Z := 4.
Definition SIGTRAP : Z := 5.
Definition SIGABRT : Z := 6.
Definition SIGIOT : Z := 6.
Definition SIGBUS : Z := 7.
Definition SIGFPE : Z := 8.
Definition SIGKILL : Z := 9.
Definition SIGSEGV : Z := 11.
Definition SIGQUIT : Z := 3.
Definition SIGCHLD : Z := 17.
Definition SIGSTOP : Z := 19.
Definition SIGTTOU : Z := 22.
Definition SIGURG : Z := 23.
Definition SIGWINCH : Z := 28.
Definition SIGSYS : Z := 31.
Definition SIGRTMIN : Z := 34.
Definition SIG_DFL : Z := 0.
Definition SIG_IGN : Z := 1.
Definition SIG_BLOCK : Z := 0.
Definition SIG_UNBLOCK : Z := 1.
Definition SIG_SETMASK : Z := 2.
Definition SI_KERNEL : Z := 0x80.
Definition SI_USER : Z := 0.
Definition SI_TKILL : Z := -6.
Definition SA_SIGINFO : Z := 4.
Definition SA_ONSTACK : Z := 0x08000000.
Definition SA_RESETHAND : Z := 0x80000000.
Definition SA_RESTORER : Z := 0x4000000.
Definition SS_ONSTACK : Z := 1.
Definition SS_DISABLE : Z := 2.
Definition NSIGENTRY : nat := 8.
Definition sizeof_sigset : Z := 8.
Definition KVM_MAX_VCPUS : Z := 288.
Definition EINTR : Z := 4.
Definition EAGAIN : Z := 11.

(** ** Signal sets: 64 bit words *)
Definition km_sigindex (signo : Z) : Z := signo - 1.
Definition sigbit (signo : Z) : Z := Z.shiftl 1 (km_sigindex signo).

Definition km_sigemptyset : Z := 0.
Definition km_sigfillset : Z := u64 (Z.lnot 0).
Definition km_sigaddset (set signo : Z) : Z :=
  if (1 <=? signo) && (signo <? NSIG) then Z.lor set (sigbit signo) else set.
Definition km_sigdelset (set signo : Z) : Z :=
  if (1 <=? signo) && (signo <? NSIG) then Z.land set (Z.lnot (sigbit signo)) else set.
Definition km_sigismember (set signo : Z) : bool :=
  if (signo <? 1) && (NSIG <=? signo) then false
  else negb (Z.land set (sigbit signo) =? 0).

(** The sets km_signal_init fills. *)
Definition sigset_of (l : list Z) : Z := fold_left km_sigaddset l km_sigemptyset.
Definition perror_signals : Z :=
  sigset_of [SIGFPE; SIGILL; SIGSEGV; SIGBUS; SIGABRT; SIGIOT; SIGTRAP; SIGSYS].
Definition ign_block_signals : Z := sigset_of [SIGBUS; SIGFPE; SIGILL; SIGSEGV].
Definition no_catch_signals : Z := sigset_of [SIGKILL; SIGSTOP].
Definition def_ign_signals : Z := sigset_of [SIGCHLD; SIGURG; SIGWINCH].

(** ** Data *)
Record siginfo_t := mk_siginfo { si_signo : Z; si_code : Z; si_pid : Z }.
#[export] Instance siginfo_eq_dec : EqDecision siginfo_t.
Proof. solve_decision. Defined.

Record km_sigaction_t := mk_sigaction { handler : Z; sa_flags : Z; restorer : Z; sa_mask : Z }.
Definition sigaction_zero : km_sigaction_t := mk_sigaction 0 0 0 0.
#[export] Instance sigaction_eq_dec : EqDecision km_sigaction_t.
Proof. solve_decision. Defined.

Record km_stack_t := mk_stack { ss_sp : Z; ss_flags : Z; ss_size : Z }.

Record kvm_regs_t := mk_regs {
  rax : Z; rbx : Z; rcx : Z; rdx : Z; rsi : Z; rdi : Z; rsp : Z; rbp : Z;
  r8 : Z; r9 : Z; r10 : Z; r11 : Z; r12 : Z; r13 : Z; r14 : Z; r15 : Z; rip : Z; rflags : Z
}.

Inductive km_vcpu_state_t := PARKED_IDLE | STARTING | HYPERCALL | HCALL_INT | IN_GUEST | PAUSED.

(** The fields of km_vcpu_t the signal code works with.  [signal_linked] is
    [signal_link.tqe_prev != NULL]; [hc_args] is the vcpu's slot of km_hcargs;
    [fpstate] is the processor's floating point state. *)
Record km_vcpu_t := mk_vcpu {
  vcpu_id : Z;
  state : km_vcpu_state_t;
  sigmask : Z;
  saved_sigmask : Z;
  in_sigsuspend : bool;
  sigpending : list siginfo_t;
  signal_linked : bool;
  regs : kvm_regs_t;
  sigaltstack : km_stack_t;
  hypercall_returns_signal : Z;
  hc_args : Z;
  fpstate : Z
}.

(** Signal frame on the guest's stack; the [gregs] are the words of
    uc_mcontext.gregs by index, [fp_frame] what follows the frame. *)
Record km_signal_frame := mk_frame {
  return_addr : Z; gregs : gmap Z Z; uc_sigmask : Z; frame_info : siginfo_t;
  frame_rflags : Z; hc_argsp : Z; fp_frame : Z
}.
Definition frame_zero : km_signal_frame := mk_frame 0 ∅ 0 (mk_siginfo 0 0 0) 0 0 0.

(** What the signal code makes other threads and the host see. *)
Inductive sig_event :=
| E_vcpu_signal (vcpu : Z)   (* KM_SIGVCPUSTOP sent to the vcpu's thread *)
| E_cond_signal (vcpu : Z)   (* signal_wait_cv of the vcpu *)
| E_hc_ret (args signo : Z)   (* a hypercall's return value was written *)
| E_host_kill (pid signo : Z).

Record sig_machine := mk_sm {
  sigfree : nat;
  vm_sigpending : list siginfo_t;
  sigactions : gmap Z km_sigaction_t;   (* indexed by km_sigindex *)
  vm_vcpus : gmap Z km_vcpu_t;
  km_signal_wait_queue : list Z;
  km_signal_sleep_queue : list Z;
  frames : gmap Z km_signal_frame;   (* guest stack memory, by guest address *)
  pid : Z;
  events : list sig_event
}.

(** ** Updates *)
Definition set_sigfree v s := mk_sm v s.(vm_sigpending) s.(sigactions) s.(vm_vcpus) s.(km_signal_wait_queue) s.(km_signal_sleep_queue) s.(frames) s.(pid) s.(events).
Definition set_vm_sigpending v s := mk_sm s.(sigfree) v s.(sigactions) s.(vm_vcpus) s.(km_signal_wait_queue) s.(km_signal_sleep_queue) s.(frames) s.(pid) s.(events).
Definition set_sigactions v s := mk_sm s.(sigfree) s.(vm_sigpending) v s.(vm_vcpus) s.(km_signal_wait_queue) s.(km_signal_sleep_queue) s.(frames) s.(pid) s.(events).
Definition set_vm_vcpus v s := mk_sm s.(sigfree) s.(vm_sigpending) s.(sigactions) v s.(km_signal_wait_queue) s.(km_signal_sleep_queue) s.(frames) s.(pid) s.(events).
Definition set_wait_queue v s := mk_sm s.(sigfree) s.(vm_sigpending) s.(sigactions) s.(vm_vcpus) v s.(km_signal_sleep_queue) s.(frames) s.(pid) s.(events).
Definition set_sleep_queue v s := mk_sm s.(sigfree) s.(vm_sigpending) s.(sigactions) s.(vm_vcpus) s.(km_signal_wait_queue) v s.(frames) s.(pid) s.(events).
Definition set_frames v s := mk_sm s.(sigfree) s.(vm_sigpending) s.(sigactions) s.(vm_vcpus) s.(km_signal_wait_queue) s.(km_signal_sleep_queue) v s.(pid) s.(events).
Definition set_events v s := mk_sm s.(sigfree) s.(vm_sigpending) s.(sigactions) s.(vm_vcpus) s.(km_signal_wait_queue) s.(km_signal_sleep_queue) s.(frames) s.(pid) v.

Definition v_sigmask x v := mk_vcpu v.(vcpu_id) v.(state) x v.(saved_sigmask) v.(in_sigsuspend) v.(sigpending) v.(signal_linked) v.(regs) v.(sigaltstack) v.(hypercall_returns_signal) v.(hc_args) v.(fpstate).
Definition v_suspend b saved v := mk_vcpu v.(vcpu_id) v.(state) v.(sigmask) saved b v.(sigpending) v.(signal_linked) v.(regs) v.(sigaltstack) v.(hypercall_returns_signal) v.(hc_args) v.(fpstate).
Definition v_sigpending x v := mk_vcpu v.(vcpu_id) v.(state) v.(sigmask) v.(saved_sigmask) v.(in_sigsuspend) x v.(signal_linked) v.(regs) v.(sigaltstack) v.(hypercall_returns_signal) v.(hc_args) v.(fpstate).
Definition v_linked x v := mk_vcpu v.(vcpu_id) v.(state) v.(sigmask) v.(saved_sigmask) v.(in_sigsuspend) v.(sigpending) x v.(regs) v.(sigaltstack) v.(hypercall_returns_signal) v.(hc_args) v.(fpstate).
Definition v_regs x v := mk_vcpu v.(vcpu_id) v.(state) v.(sigmask) v.(saved_sigmask) v.(in_sigsuspend) v.(sigpending) v.(signal_linked) x v.(sigaltstack) v.(hypercall_returns_signal) v.(hc_args) v.(fpstate).
Definition v_altstack x v := mk_vcpu v.(vcpu_id) v.(state) v.(sigmask) v.(saved_sigmask) v.(in_sigsuspend) v.(sigpending) v.(signal_linked) v.(regs) x v.(hypercall_returns_signal) v.(hc_args) v.(fpstate).
Definition v_hc_signal x v := mk_vcpu v.(vcpu_id) v.(state) v.(sigmask) v.(saved_sigmask) v.(in_sigsuspend) v.(sigpending) v.(signal_linked) v.(regs) v.(sigaltstack) x v.(hc_args) v.(fpstate).
Definition v_hc_args x v := mk_vcpu v.(vcpu_id) v.(state) v.(sigmask) v.(saved_sigmask) v.(in_sigsuspend) v.(sigpending) v.(signal_linked) v.(regs) v.(sigaltstack) v.(hypercall_returns_signal) x v.(fpstate).
Definition v_fpstate x v := mk_vcpu v.(vcpu_id) v.(state) v.(sigmask) v.(saved_sigmask) v.(in_sigsuspend) v.(sigpending) v.(signal_linked) v.(regs) v.(sigaltstack) v.(hypercall_returns_signal) v.(hc_args) x.

(** A vcpu pointer is its id; a dangling one is a crash. *)
Definition vcpu_get (id : Z) : M sig_machine km_vcpu_t :=
  fun s => match s.(vm_vcpus) !! id with Some v => Ret (v, s) | None => Abort end.
Definition vcpu_put (id : Z) (v : km_vcpu_t) : M sig_machine unit :=
  modify (fun s => set_vm_vcpus (<[id := v]> s.(vm_vcpus)) s).
Definition vcpu_upd (id : Z) (f : km_vcpu_t -> km_vcpu_t) : M sig_machine unit :=
  let* v := vcpu_get id in vcpu_put id (f v).
Definition emit (e : sig_event) : M sig_machine unit :=
  modify (fun s => set_events (e :: s.(events)) s).

(** TAILQ_REMOVE of an element that is not in the queue corrupts it. *)
Definition tailq_remove (id : Z) (q : list Z) : option (list Z) :=
  if decide (id ∈ q) then Some (filter (fun x => x <> id) q) else None.

(** ** Queues *)

(** A km_signal_list_t: the process's, or a vcpu's. *)
Definition slist := option Z.

Definition slist_get (l : slist) : M sig_machine (list siginfo_t) :=
  match l with
  | None => gets vm_sigpending
  | Some id => let* v := vcpu_get id in ret v.(sigpending)
  end.
Definition slist_put (l : slist) (x : list siginfo_t) : M sig_machine unit :=
  match l with
  | None => modify (set_vm_sigpending x)
  | Some id => vcpu_upd id (v_sigpending x)
  end.

Definition km_signal_init : M sig_machine unit :=
  modify (fun s => set_sleep_queue [] (set_wait_queue [] (set_sigfree (s.(sigfree) + NSIGENTRY)%nat s))).

Definition enqueue_signal_nolock (l : slist) (info : siginfo_t) : M sig_machine unit :=
  let* s := get in
  match s.(sigfree) with
  | O => abort
  | S n =>
      modify (set_sigfree n) ;;;
      let* q := slist_get l in
      slist_put l (q ++ [info])
  end.

Definition enqueue_signal (l : slist) (info : siginfo_t) : M sig_machine unit := enqueue_signal_nolock l info.

Definition sigpri (signo : Z) : Z := if km_sigismember perror_signals signo then 0 else - signo.

Definition is_blocked (blocked : Z) (info : siginfo_t) : bool :=
  km_sigismember blocked info.(si_signo)
  && (negb (km_sigismember ign_block_signals info.(si_signo)) || negb (info.(si_code) =? SI_KERNEL)).

(** The loop of dequeue_signal: the entries before and after the best one so far. *)
Definition chosen := option (list siginfo_t * siginfo_t * list siginfo_t).
Fixpoint choose_signal (blocked : Z) (seen : list siginfo_t) (best : chosen) (l : list siginfo_t) : chosen :=
  match l with
  | [] => best
  | sig :: t =>
      let seen' := seen ++ [sig] in
      let keep := match best with Some (b, c, a) => Some (b, c, a ++ [sig]) | None => None end in
      if is_blocked blocked sig then choose_signal blocked seen' keep t
      else
        let better := match best with
                      | None => true
                      | Some (_, c, _) => sigpri c.(si_signo) <? sigpri sig.(si_signo)
                      end in
        choose_signal blocked seen' (if better then Some (seen, sig, []) else keep) t
  end.

Definition dequeue_signal (l : slist) (blocked : Z) : M sig_machine (option siginfo_t) :=
  let* q := slist_get l in
  match choose_signal blocked [] None q with
  | Some (b, c, a) =>
      slist_put l (b ++ a) ;;;
      modify (fun s => set_sigfree (S s.(sigfree)) s) ;;;
      ret (Some c)
  | None => ret None
  end.

Definition get_pending_signals (id : Z) : M sig_machine Z :=
  let* v := vcpu_get id in
  let* s := get in
  ret (fold_left (fun set i => km_sigaddset set i.(si_signo)) s.(vm_sigpending)
         (fold_left (fun set i => km_sigaddset set i.(si_signo)) v.(sigpending) km_sigemptyset)).

Definition km_dequeue_signal_nolock (id : Z) : M sig_machine (option siginfo_t) :=
  let* v := vcpu_get id in
  let* r := dequeue_signal (Some id) v.(sigmask) in
  match r with
  | Some info => ret (Some info)
  | None => dequeue_signal None v.(sigmask)
  end.
Definition km_dequeue_signal (id : Z) : M sig_machine (option siginfo_t) := km_dequeue_signal_nolock id.

(** The first unblocked entry, with the list without it. *)
Fixpoint first_unblocked (blocked : Z) (seen l : list siginfo_t) : option (siginfo_t * list siginfo_t) :=
  match l with
  | [] => None
  | sig :: t => if is_blocked blocked sig then first_unblocked blocked (seen ++ [sig]) t
                else Some (sig, seen ++ t)
  end.

Definition km_signal_ready_nolock (id : Z) : M sig_machine Z :=
  let* v := vcpu_get id in
  match first_unblocked v.(sigmask) [] v.(sigpending) with
  | Some (sig, _) => ret sig.(si_signo)
  | None =>
      let* s := get in
      match first_unblocked v.(sigmask) [] s.(vm_sigpending) with
      | Some (sig, rest) =>
          modify (set_vm_sigpending rest) ;;;
          vcpu_upd id (v_sigpending (v.(sigpending) ++ [sig])) ;;;
          ret sig.(si_signo)
      | None => ret 0
      end
  end.
Definition km_signal_ready (id : Z) : M sig_machine Z := km_signal_ready_nolock id.

Definition pending_in (info : siginfo_t) (l : list siginfo_t) : bool :=
  existsb (fun sig => sig.(si_signo) =? info.(si_signo)) l.

Definition signal_pending (vcpu : option Z) (info : siginfo_t) : M sig_machine bool :=
  let* s := get in
  let* own := (match vcpu with
               | Some id => let* v := vcpu_get id in ret (pending_in info v.(sigpending))
               | None => ret false
               end) in
  ret (own || pending_in info s.(vm_sigpending)).

(** First waiter whose mask lets the signal through. *)
Fixpoint find_waiter (signo : Z) (vs : gmap Z km_vcpu_t) (q : list Z) : option Z :=
  match q with
  | [] => None
  | id :: t =>
      match vs !! id with
      | Some v => if km_sigismember v.(sigmask) signo then find_waiter signo vs t else Some id
      | None => find_waiter signo vs t
      end
  end.

Definition remove_from_queue (get_q : sig_machine -> list Z) (set_q : list Z -> sig_machine -> sig_machine) (id : Z)
    : M sig_machine unit :=
  let* s := get in
  match tailq_remove id (get_q s) with
  | Some q => modify (set_q q)
  | None => abort
  end.

Definition km_wakeup_suspended_thread (info : siginfo_t) : M sig_machine Z :=
  let* s := get in
  match find_waiter info.(si_signo) s.(vm_vcpus) s.(km_signal_wait_queue) with
  | Some id =>
      remove_from_queue km_signal_wait_queue set_wait_queue id ;;;
      enqueue_signal_nolock (Some id) info ;;;
      emit (E_cond_signal id) ;;;
      ret 1
  | None => ret 0
  end.

Definition km_signal_vcpu_signal (id : Z) : M sig_machine unit := emit (E_vcpu_signal id).

Definition km_queue_sig_sleep (id : Z) : M sig_machine unit :=
  modify (fun s => set_sleep_queue (s.(km_signal_sleep_queue) ++ [id]) s) ;;;
  vcpu_upd id (v_linked true).

Definition km_dequeue_sig_sleep (id : Z) : M sig_machine unit :=
  let* v := vcpu_get id in
  if v.(signal_linked) then remove_from_queue km_signal_sleep_queue set_sleep_queue id else ret tt.

Definition km_interrupt_thread (signo : Z) : M sig_machine unit :=
  if 0 <=? signo then
    let* s := get in
    match s.(km_signal_sleep_queue) with
    | id :: _ =>
        let* v := vcpu_get id in
        if negb (km_sigismember v.(sigmask) signo) then
          remove_from_queue km_signal_sleep_queue set_sleep_queue id ;;;
          vcpu_upd id (v_linked false) ;;;
          km_signal_vcpu_signal id
        else ret tt
    | [] => ret tt
    end
  else ret tt.

(** One step here; the code releases the lock of the pending signals between queueing the
    signal and waking a thread for it. *)
Definition km_post_signal (vcpu : option Z) (info : siginfo_t) : M sig_machine unit :=
  let* pending := (if info.(si_signo) <? SIGRTMIN then signal_pending vcpu info else ret false) in
  if pending then ret tt
  else
    let* woken := km_wakeup_suspended_thread info in
    if 0 <? woken then ret tt
    else match vcpu with
         | None =>
             enqueue_signal None info ;;;
             km_interrupt_thread info.(si_signo)
         | Some id =>
             enqueue_signal (Some id) info ;;;
             let* v := vcpu_get id in
             if negb (km_sigismember v.(sigmask) info.(si_signo)) then km_signal_vcpu_signal id else ret tt
         end.

(** ** Delivery *)

(** What the code takes from elsewhere: the layout of the C structures of the
    system headers, the VM driver's floating point area and stack adjustment, the
    core dump, and the host's kill and sigaction. *)
Class SignalEnv := {
  sizeof_frame : Z;
  off_info : Z;
  off_ucontext : Z;
  fpstate_size : Z;
  stack_adjustment : km_vcpu_t -> Z;
  km_sigreturn_gva : Z;
  dump_core_ok : Z -> bool;
  guest_gva_ok : Z -> bool;
  host_kill : Z -> Z -> Z;
  host_sigaction : Z -> Z;
  fp_save_ok : bool;
  fp_restore_ok : bool;
}.

Definition RED_ZONE : Z := 128.

(** Indices of the general registers in uc_mcontext. *)
Definition REG_R8 := 0.
Definition REG_R9 := 1.
Definition REG_R10 := 2.
Definition REG_R11 := 3.
Definition REG_R12 := 4.
Definition REG_R13 := 5.
Definition REG_R14 := 6.
Definition REG_R15 := 7.
Definition REG_RDI := 8.
Definition REG_RSI := 9.
Definition REG_RBP := 10.
Definition REG_RBX := 11.
Definition REG_RDX := 12.
Definition REG_RAX := 13.
Definition REG_RCX := 14.
Definition REG_RSP := 15.
Definition REG_RIP := 16.

Definition greg (g : gmap Z Z) (i : Z) : Z := default 0 (g !! i).

Definition km_on_altstack (v : km_vcpu_t) (sp : Z) : bool :=
  (v.(sigaltstack).(ss_sp) <=? sp) && (sp <? v.(sigaltstack).(ss_sp) +u v.(sigaltstack).(ss_size)).

Section Deliver.
  Context `{SignalEnv}.

Definition save_gregs (r : kvm_regs_t) (g : gmap Z Z) : gmap Z Z :=
  let g := <[REG_RAX := r.(rax)]> g in
  let g := <[REG_RBX := r.(rbx)]> g in
  let g := <[REG_RCX := r.(rcx)]> g in
  let g := <[REG_RDX := r.(rdx)]> g in
  let g := <[REG_RSI := r.(rsi)]> g in
  let g := <[REG_RDI := r.(rdi)]> g in
  let g := <[REG_RBP := r.(rbp)]> g in
  let g := <[REG_RSP := r.(rsp)]> g in
  let g := <[REG_R8 := r.(r8)]> g in
  let g := <[REG_R9 := r.(r9)]> g in
  let g := <[REG_R10 := r.(r10)]> g in
  let g := <[REG_R11 := r.(r11)]> g in
  let g := <[REG_R12 := r.(r12)]> g in
  let g := <[REG_R13 := r.(r13)]> g in
  let g := <[REG_R14 := r.(r14)]> g in
  let g := <[REG_R15 := r.(r15)]> g in
  <[REG_RIP := r.(rip)]> g.

Definition save_signal_context (v : km_vcpu_t) (f : km_signal_frame) : km_signal_frame :=
  mk_frame f.(return_addr) (save_gregs v.(regs) f.(gregs)) v.(sigmask) f.(frame_info)
    v.(regs).(rflags) v.(hc_args) (if fp_save_ok then v.(fpstate) else f.(fp_frame)).

Definition restore_gregs (g : gmap Z Z) (fl : Z) : kvm_regs_t :=
  mk_regs (greg g REG_RAX) (greg g REG_RBX) (greg g REG_RCX) (greg g REG_RDX) (greg g REG_RSI) (greg g REG_RDI)
    (greg g REG_RSP) (greg g REG_RBP) (greg g REG_R8) (greg g REG_R9) (greg g REG_R10) (greg g REG_R11)
    (greg g REG_R12) (greg g REG_R13) (greg g REG_R14) (greg g REG_R15) (greg g REG_RIP) fl.

Definition restore_signal_context (v : km_vcpu_t) (f : km_signal_frame) : km_vcpu_t :=
  let v := v_regs (restore_gregs f.(gregs) f.(frame_rflags)) v in
  let v := v_hc_args f.(hc_argsp) (v_sigmask f.(uc_sigmask) v) in
  if fp_restore_ok then v_fpstate f.(fp_frame) v else v.

Definition with_return_addr x (f : km_signal_frame) :=
  mk_frame x f.(gregs) f.(uc_sigmask) f.(frame_info) f.(frame_rflags) f.(hc_argsp) f.(fp_frame).
Definition with_info x (f : km_signal_frame) :=
  mk_frame f.(return_addr) f.(gregs) f.(uc_sigmask) x f.(frame_rflags) f.(hc_argsp) f.(fp_frame).

(** Guest address of the frame for [act]. *)
Definition sframe_gva (v : km_vcpu_t) (act : km_sigaction_t) : Z :=
  let top :=
    if (Z.land act.(sa_flags) SA_ONSTACK =? SA_ONSTACK) && negb (v.(sigaltstack).(ss_size) =? 0)
       && negb (km_on_altstack v v.(regs).(rsp))
    then v.(sigaltstack).(ss_sp) +u v.(sigaltstack).(ss_size)
    else v.(regs).(rsp) -u RED_ZONE in
  rounddown (top -u (sizeof_frame + fpstate_size)) 16 -u 8.

Definition do_guest_handler (id : Z) (info : siginfo_t) (act : km_sigaction_t) : M sig_machine unit :=
  let* v := vcpu_get id in
  let gva := sframe_gva v act in
  let* s := get in
  let frame := with_info info (default frame_zero (s.(frames) !! gva)) in
  let frame := save_signal_context v frame in
  let frame := with_return_addr
    (if negb (Z.land act.(sa_flags) SA_RESTORER =? 0) then act.(restorer) else km_sigreturn_gva) frame in
  modify (set_frames (<[gva := frame]> s.(frames))) ;;;
  let mask := if negb (Z.land act.(sa_flags) SA_SIGINFO =? 0) then Z.lor v.(sigmask) act.(sa_mask) else v.(sigmask) in
  let r := v.(regs) in
  let r := mk_regs r.(rax) r.(rbx) r.(rcx) (gva +u off_ucontext) (gva +u off_info) info.(si_signo) gva r.(rbp)
             r.(r8) r.(r9) r.(r10) r.(r11) r.(r12) r.(r13) r.(r14) r.(r15) act.(handler) r.(rflags) in
  vcpu_put id (v_regs r (v_sigmask (km_sigaddset mask info.(si_signo)) v)).

(** How a delivery ends; [Terminated] does not return to the guest. *)
Inductive delivery := Ignored | Handled | Terminated (signo : Z) (core : bool).

Definition km_deliver_signal (id : Z) (info : siginfo_t) : M sig_machine delivery :=
  let* s := get in
  let act := default sigaction_zero (s.(sigactions) !! km_sigindex info.(si_signo)) in
  if act.(handler) =? SIG_IGN then ret Ignored
  else if act.(handler) =? SIG_DFL then
    if km_sigismember def_ign_signals info.(si_signo) then ret Ignored
    else
      km_assert (negb (info.(si_signo) =? SIGCHLD)) ;;;
      let core := if km_sigismember perror_signals info.(si_signo) || (info.(si_signo) =? SIGQUIT)
                  then dump_core_ok id else false in
      ret (Terminated info.(si_signo) core)
  else
    do_guest_handler id info act ;;;
    (if negb (Z.land act.(sa_flags) SA_RESETHAND =? 0) then
       let act := mk_sigaction SIG_DFL (Z.land act.(sa_flags) (Z.lnot SA_RESETHAND)) act.(restorer) act.(sa_mask) in
       modify (fun s => set_sigactions (<[km_sigindex info.(si_signo) := act]> s.(sigactions)) s)
     else ret tt) ;;;
    ret Handled.

Definition km_deliver_signal_from_gdb (id : Z) (info : siginfo_t) : M sig_machine delivery :=
  let* v := vcpu_get id in
  if negb (v.(hypercall_returns_signal) =? 0) then
    (if guest_gva_ok v.(hc_args) then emit (E_hc_ret v.(hc_args) info.(si_signo)) else abort) ;;;
    vcpu_put id (v_hc_signal 0 v) ;;;
    ret Ignored
  else km_deliver_signal id info.

Definition km_rt_sigreturn (id : Z) : M sig_machine unit :=
  let* v := vcpu_get id in
  let* s := get in
  let gva := u64 (v.(regs).(rsp) + stack_adjustment v - 8) in
  let frame := default frame_zero (s.(frames) !! gva) in
  let v := if km_on_altstack v v.(regs).(rsp) && negb (km_on_altstack v (greg frame.(gregs) REG_RSP))
           then v_altstack (mk_stack v.(sigaltstack).(ss_sp) 0 v.(sigaltstack).(ss_size)) v else v in
  vcpu_put id (restore_signal_context v frame).

(** The tail of the vcpu's run loop, without a debugger. *)
Definition km_rt_sigsuspend_revert (id : Z) : M sig_machine unit :=
  let* v := vcpu_get id in
  if v.(in_sigsuspend)
  then vcpu_put id (v_suspend false v.(saved_sigmask) (v_sigmask v.(saved_sigmask) v))
  else ret tt.

Definition vcpu_run_signals (id : Z) : M sig_machine (option delivery) :=
  let* v := vcpu_get id in
  if negb (v.(hypercall_returns_signal) =? 0) then vcpu_put id (v_hc_signal 0 v) ;;; ret None
  else
    let* r := km_dequeue_signal id in
    match r with
    | Some info =>
        let* d := km_deliver_signal id info in
        match d with
        | Terminated _ _ => ret (Some d)
        | _ => km_rt_sigsuspend_revert id ;;; ret (Some d)
        end
    | None => ret None
    end.

(** ** System calls *)

(** The loop over all signals of SIG_BLOCK and SIG_UNBLOCK. *)
Definition for_signals (f : Z -> Z -> Z) (set mask : Z) : Z :=
  fold_left (fun m signo => if km_sigismember set signo then f m signo else m) (seqZ 1 (NSIG - 1)) mask.

(** The result is the return value and the old mask, if asked for. *)
Definition km_rt_sigprocmask (id how : Z) (set : option Z) (want_old : bool) (sigsetsize : Z)
    : M sig_machine (Z * option Z) :=
  if negb (sigsetsize =? sizeof_sigset) then ret (neg_errno EINVAL, None)
  else
    let* v := vcpu_get id in
    let old := if want_old then Some v.(sigmask) else None in
    match set with
    | None => ret (0, old)
    | Some set =>
        if how =? SIG_BLOCK then vcpu_put id (v_sigmask (for_signals km_sigaddset set v.(sigmask)) v) ;;; ret (0, old)
        else if how =? SIG_UNBLOCK then vcpu_put id (v_sigmask (for_signals km_sigdelset set v.(sigmask)) v) ;;; ret (0, old)
        else if how =? SIG_SETMASK then vcpu_put id (v_sigmask set v) ;;; ret (0, old)
        else ret (neg_errno EINVAL, old)
    end.

Definition km_rt_sigaction (signo : Z) (act : option km_sigaction_t) (want_old : bool) (sigsetsize : Z)
    : M sig_machine (Z * option km_sigaction_t) :=
  if negb (sigsetsize =? sizeof_sigset) then ret (neg_errno EINVAL, None)
  else if (signo <? 1) || (NSIG <=? signo) then ret (neg_errno EINVAL, None)
  else if km_sigismember no_catch_signals signo then ret (neg_errno EINVAL, None)
  else
    let tty := match act with
               | Some a => if signo =? SIGTTOU then host_sigaction a.(handler) else 0
               | None => 0
               end in
    if tty <? 0 then ret (u64 tty, None)
    else
      let* s := get in
      let old := if want_old then Some (default sigaction_zero (s.(sigactions) !! km_sigindex signo)) else None in
      match act with
      | Some a => modify (set_sigactions (<[km_sigindex signo := a]> s.(sigactions))) ;;; ret (0, old)
      | None => ret (0, old)
      end.

Definition km_sigaltstack (id : Z) (new : option km_stack_t) (want_old : bool) : M sig_machine (Z * option km_stack_t) :=
  let* v := vcpu_get id in
  let cur := v.(sigaltstack) in
  let old := if want_old
             then Some (mk_stack cur.(ss_sp) (if cur.(ss_size) =? 0 then SS_DISABLE else cur.(ss_flags)) cur.(ss_size))
             else None in
  match new with
  | None => ret (0, old)
  | Some n =>
      if negb (n.(ss_flags) =? SS_DISABLE) && negb (n.(ss_flags) =? SS_ONSTACK) && negb (n.(ss_flags) =? 0)
      then ret (neg_errno EINVAL, old)
      else if km_on_altstack v v.(regs).(rsp) then ret (neg_errno EPERM, old)
      else if n.(ss_flags) =? SS_DISABLE then vcpu_put id (v_altstack (mk_stack 0 cur.(ss_flags) 0) v) ;;; ret (0, old)
      else if negb (guest_gva_ok n.(ss_sp)) then ret (neg_errno EFAULT, old)
      else vcpu_put id (v_altstack (mk_stack n.(ss_sp) 0 n.(ss_size)) v) ;;; ret (0, old)
  end.

Definition km_kill (tpid signo : Z) : M sig_machine Z :=
  if (signo <? 1) || (NSIG <=? signo) then ret (neg_errno EINVAL)
  else
    let* s := get in
    if (tpid =? 0) || (tpid =? s.(pid)) then km_post_signal None (mk_siginfo signo SI_USER 0) ;;; ret 0
    else
      emit (E_host_kill tpid signo) ;;;
      ret (if host_kill tpid signo <? 0 then u64 (host_kill tpid signo) else 0).

Definition km_vcpu_fetch_by_tid (tid : Z) (s : sig_machine) : option Z :=
  if (0 <? tid) && (tid <? KVM_MAX_VCPUS) then
    match s.(vm_vcpus) !! (tid - 1) with
    | Some v => match v.(state) with PARKED_IDLE => None | _ => Some (tid - 1) end
    | None => None
    end
  else None.

Definition km_tkill (tid signo : Z) : M sig_machine Z :=
  let* s := get in
  match km_vcpu_fetch_by_tid tid s with
  | None => ret (neg_errno EINVAL)
  | Some target =>
      if (signo <? 1) || (NSIG <=? signo) then ret (neg_errno EINVAL)
      else km_post_signal (Some target) (mk_siginfo signo SI_TKILL s.(pid)) ;;; ret 0
  end.

Definition km_rt_sigpending (id sigsetsize : Z) : M sig_machine (Z * option Z) :=
  if negb (sigsetsize =? sizeof_sigset) then ret (neg_errno EINVAL, None)
  else let* set := get_pending_signals id in ret (0, Some set).

(** sigsuspend up to its loop, and one round of the loop: the return value, or
    [None] when the thread waits on its condition variable. *)
Definition km_rt_sigsuspend_loop (id : Z) : M sig_machine (option Z) :=
  let* signo := km_signal_ready_nolock id in
  ret (if signo =? 0 then None else Some (neg_errno EINTR)).

Definition km_rt_sigsuspend (id mask masksize : Z) : M sig_machine (option Z) :=
  if negb (masksize =? sizeof_sigset) then ret (Some (neg_errno EINVAL))
  else
    vcpu_upd id (fun v => v_sigmask mask (v_suspend true v.(sigmask) v)) ;;;
    modify (fun s => set_wait_queue (s.(km_signal_wait_queue) ++ [id]) s) ;;;
    vcpu_upd id (v_linked true) ;;;
    km_rt_sigsuspend_loop id.

Definition NSEC_PER_SECOND : Z := 1000000000.
Record timespec := mk_timespec { tv_sec : Z; tv_nsec : Z }.

Definition deltatime_to_abstime (now deltat : timespec) : timespec :=
  let ns := now.(tv_nsec) + deltat.(tv_nsec) in
  if NSEC_PER_SECOND <=? ns
  then mk_timespec (now.(tv_sec) + 1 + deltat.(tv_sec)) (ns - NSEC_PER_SECOND)
  else mk_timespec (now.(tv_sec) + deltat.(tv_sec)) ns.

(** sigtimedwait: either it returns, or it waits with the vcpu's own mask kept
    aside; [sigtimedwait_finish] is the code after the wait. *)
Inductive timedwait := TW_done (rv : Z) (info : option siginfo_t) | TW_wait (deadline : option timespec) (origmask : Z).

Definition timedwait_return (id origmask rv : Z) : M sig_machine unit :=
  vcpu_upd id (v_sigmask origmask) ;;;
  if 0 <? rv then vcpu_upd id (v_hc_signal rv) else ret tt.

Definition km_rt_sigtimedwait (id set : Z) (timeout : option timespec) (now : timespec) (setlen : Z)
    : M sig_machine timedwait :=
  if (match timeout with
      | Some t => (t.(tv_sec) <? 0) || (NSEC_PER_SECOND <=? t.(tv_nsec))
      | None => false
      end) || negb (setlen =? sizeof_sigset)
  then ret (TW_done (neg_errno EINVAL) None)
  else
    let blockthese := km_sigaddset (km_sigaddset (u64 (Z.lnot set)) SIGKILL) SIGSTOP in
    let* v := vcpu_get id in
    let origmask := v.(sigmask) in
    vcpu_put id (v_sigmask blockthese v) ;;;
    let wait d :=
      modify (fun s => set_wait_queue (s.(km_signal_wait_queue) ++ [id]) s) ;;;
      vcpu_upd id (v_linked true) ;;;
      ret (TW_wait d origmask) in
    let* r := km_dequeue_signal_nolock id in
    match r with
    | Some info => timedwait_return id origmask info.(si_signo) ;;; ret (TW_done info.(si_signo) (Some info))
    | None =>
        match timeout with
        | Some t =>
            if negb (t.(tv_sec) =? 0) || negb (t.(tv_nsec) =? 0)
            then wait (Some (deltatime_to_abstime now t))
            else timedwait_return id origmask (- EAGAIN) ;;; ret (TW_done (neg_errno EAGAIN) None)
        | None => wait None
        end
    end.

(** [stale] is what the caller's siginfo held before. *)
Definition sigtimedwait_finish (id origmask : Z) (timedout : bool) (stale : siginfo_t)
    : M sig_machine (Z * option siginfo_t) :=
  if timedout then
    remove_from_queue km_signal_wait_queue set_wait_queue id ;;;
    timedwait_return id origmask (- EAGAIN) ;;;
    ret (neg_errno EAGAIN, None)
  else
    let* r := km_dequeue_signal_nolock id in
    let info := default stale r in
    timedwait_return id origmask info.(si_signo) ;;;
    ret (info.(si_signo), Some info).

End Deliver.

(** ** Notes in a core file or snapshot *)
Record km_nt_sighand_t := mk_sighand { nt_size : Z; nt_signo : Z; nt_handler : Z; nt_mask : Z; nt_flags : Z; nt_restorer : Z }.
Definition sizeof_nt_sighand : Z := 32.

(** The note's mask and flags are 32 bit words. *)
Definition u32 (x : Z) : Z := x mod 2 ^ 32.
Definition note_of (signo : Z) (sa : km_sigaction_t) : km_nt_sighand_t :=
  mk_sighand sizeof_nt_sighand signo sa.(handler) (u32 sa.(sa_mask)) (u32 sa.(sa_flags)) sa.(restorer).

Definition sig_note (acts : gmap Z km_sigaction_t) (i : Z) : list km_nt_sighand_t :=
  let sa := default sigaction_zero (acts !! km_sigindex i) in
  if sa.(handler) =? SIG_DFL then [] else [note_of i sa].
Definition km_sig_core_notes_write (acts : gmap Z km_sigaction_t) : list km_nt_sighand_t :=
  flat_map (sig_note acts) (seqZ 1 NSIG).

Definition km_sig_core_notes_length (header_size : Z) (acts : gmap Z km_sigaction_t) : Z :=
  fold_left (fun len i => let sa := default sigaction_zero (acts !! km_sigindex i) in
                          if sa.(handler) =? SIG_DFL then len else len + (header_size + sizeof_nt_sighand)) (seqZ 1 NSIG) 0.

Definition km_sig_snapshot_recover (n : km_nt_sighand_t) (acts : gmap Z km_sigaction_t)
    : option (gmap Z km_sigaction_t) :=
  if negb (n.(nt_size) =? sizeof_nt_sighand) then None
  else Some (<[km_sigindex n.(nt_signo) := mk_sigaction n.(nt_handler) n.(nt_flags) n.(nt_restorer) n.(nt_mask)]> acts).
