(* ===== verification/SignalProps.v ===== *)
(** * Properties of the signal component *)
From S2P Require Import Prelude Signal.

(** ** Signal sets *)
Lemma sigbit_testbit signo n : 1 <= signo -> 0 <= n -> Z.testbit (sigbit signo) n = (n =? signo - 1).
Proof.
  intros H1 Hn. unfold sigbit, km_sigindex. rewrite Z.shiftl_1_l, Z.pow2_bits_eqb by lia. apply Z.eqb_sym.
Qed.

Lemma km_sigismember_spec set signo : 1 <= signo < NSIG -> km_sigismember set signo = Z.testbit set (signo - 1).
Proof.
  intros Hs. unfold km_sigismember. destruct (Z.ltb_spec signo 1); [lia|]. cbn [andb].
  destruct (Z.eqb_spec (Z.land set (sigbit signo)) 0) as [E|E]; cbn [negb].
  - apply (f_equal (fun x => Z.testbit x (signo - 1))) in E.
    rewrite Z.land_spec, sigbit_testbit, Z.eqb_refl, andb_true_r, Z.bits_0 in E by lia. done.
  - destruct (Z.testbit set (signo - 1)) eqn:Et; [done|]. destruct E. apply Z.bits_inj'. intros n Hn.
    rewrite Z.land_spec, sigbit_testbit, Z.bits_0 by lia. destruct (Z.eqb_spec n (signo - 1)); [subst|]; by rewrite ?Et, ?andb_false_r.
Qed.

Lemma km_sigaddset_spec set signo n :
  1 <= signo < NSIG -> 0 <= n -> Z.testbit (km_sigaddset set signo) n = Z.testbit set n || (n =? signo - 1).
Proof.
  intros Hs Hn. unfold km_sigaddset. destruct (Z.leb_spec 1 signo), (Z.ltb_spec signo NSIG); try lia. cbn [andb].
  by rewrite Z.lor_spec, sigbit_testbit by lia.
Qed.

Lemma km_sigdelset_spec set signo n :
  1 <= signo < NSIG -> 0 <= n -> Z.testbit (km_sigdelset set signo) n = Z.testbit set n && negb (n =? signo - 1).
Proof.
  intros Hs Hn. unfold km_sigdelset. destruct (Z.leb_spec 1 signo), (Z.ltb_spec signo NSIG); try lia. cbn [andb].
  by rewrite Z.land_spec, Z.lnot_spec, sigbit_testbit by lia.
Qed.

(** ** Choosing a signal *)
Section Choose.
  Context (blocked : Z).

Definition eligible (sig : siginfo_t) : Prop := is_blocked blocked sig = false.

(** [c] is the first of the eligible entries of the highest priority. *)
Record best_of (b : list siginfo_t) (c : siginfo_t) (a : list siginfo_t) : Prop := {
  bo_ok : eligible c;
  bo_before : forall x, x ∈ b -> eligible x -> sigpri x.(si_signo) < sigpri c.(si_signo);
  bo_after : forall x, x ∈ a -> eligible x -> sigpri x.(si_signo) <= sigpri c.(si_signo);
}.

Definition choice_ok (q : list siginfo_t) (best : chosen) : Prop :=
  match best with
  | None => forall x, x ∈ q -> is_blocked blocked x = true
  | Some (b, c, a) => q = b ++ c :: a /\ best_of b c a
  end.

Lemma choice_skip q sig best :
  choice_ok q best ->
  (is_blocked blocked sig = true
   \/ exists b c a, best = Some (b, c, a) /\ sigpri sig.(si_signo) <= sigpri c.(si_signo)) ->
  choice_ok (q ++ [sig]) (match best with Some (b, c, a) => Some (b, c, a ++ [sig]) | None => None end).
Proof.
  intros Hq Hs. destruct best as [[[b c] a]|]; cbn in *.
  - destruct Hq as [-> [B1 B2 B3]]. split; [by rewrite <- app_assoc|]. split; auto.
    intros x [Hx|Hx]%elem_of_app He; [auto|]. apply list_elem_of_singleton in Hx as ->.
    destruct Hs as [Hs|(b' & c' & a' & [= <- <- <-] & ?)]; [unfold eligible in He; congruence|done].
  - intros x [Hx|Hx]%elem_of_app; [auto|]. apply list_elem_of_singleton in Hx as ->.
    destruct Hs as [|(? & ? & ? & [=] & _)]; done.
Qed.

Lemma choice_take q sig best :
  choice_ok q best -> eligible sig ->
  (match best with None => True | Some (_, c, _) => sigpri c.(si_signo) < sigpri sig.(si_signo) end) ->
  choice_ok (q ++ [sig]) (Some (q, sig, [])).
Proof.
  intros Hq He Hb. cbn. split; [done|]. split; [done| |by intros x ?%elem_of_nil].
  intros x Hx Hex. destruct best as [[[b c] a]|]; cbn in Hq.
  - destruct Hq as [-> [B1 B2 B3]]. apply elem_of_app in Hx as [Hx|Hx]; [specialize (B2 x Hx Hex); lia|].
    apply elem_of_cons in Hx as [->|Hx]; [done|]. specialize (B3 x Hx Hex). lia.
  - specialize (Hq x Hx). unfold eligible in Hex. congruence.
Qed.

Lemma choose_signal_ok l seen best :
  choice_ok seen best -> choice_ok (seen ++ l) (choose_signal blocked seen best l).
Proof.
  revert seen best. induction l as [|sig t IH]; intros seen best Hc; [by rewrite app_nil_r|].
  cbn. replace (seen ++ sig :: t) with ((seen ++ [sig]) ++ t) by (by rewrite <- app_assoc).
  destruct (is_blocked blocked sig) eqn:Eb; apply IH; [apply choice_skip; auto|].
  destruct best as [[[b c] a]|]; [|apply (choice_take seen sig None); [exact Hc|exact Eb|exact I]].
  destruct (Z.ltb_spec (sigpri c.(si_signo)) (sigpri sig.(si_signo))).
  - apply (choice_take seen sig (Some (b, c, a))); [exact Hc|exact Eb|done].
  - apply (choice_skip seen sig (Some (b, c, a))); [exact Hc|]. right. exists b, c, a. split; [done|lia].
Qed.

End Choose.

(** ** States *)

(** Entries in use. *)
Definition pending_total (vs : gmap Z km_vcpu_t) : nat :=
  map_fold (fun _ v n => (length v.(sigpending) + n)%nat) 0%nat vs.

Definition pool (s : sig_machine) : nat :=
  (s.(sigfree) + length s.(vm_sigpending) + pending_total s.(vm_vcpus))%nat.

Lemma pending_total_insert vs id v v' :
  vs !! id = Some v ->
  (pending_total (<[id := v']> vs) + length v.(sigpending) = pending_total vs + length v'.(sigpending))%nat.
Proof.
  intros Hv. unfold pending_total.
  assert (Hcomm : forall v v' (n : nat), (length (sigpending v) + (length (sigpending v') + n)
     = length (sigpending v') + (length (sigpending v) + n))%nat) by (intros; lia).
  rewrite (map_fold_delete_L _ _ id v vs) by auto.
  rewrite (map_fold_delete_L _ _ id v' (<[id := v']> vs)), delete_insert_eq by (auto; apply lookup_insert_eq). lia.
Qed.

Lemma wp_vcpu_get ab id (Q : km_vcpu_t -> sig_machine -> Prop) s v :
  s.(vm_vcpus) !! id = Some v -> Q v s -> wp ab (vcpu_get id) Q s.
Proof. intros Hv HQ. unfold wp, vcpu_get. by rewrite Hv. Qed.

Lemma wp_vcpu_put ab id v (Q : unit -> sig_machine -> Prop) s :
  Q tt (set_vm_vcpus (<[id := v]> s.(vm_vcpus)) s) -> wp ab (vcpu_put id v) Q s.
Proof. done. Qed.

Lemma wp_vcpu_upd ab id f (Q : unit -> sig_machine -> Prop) s v :
  s.(vm_vcpus) !! id = Some v -> Q tt (set_vm_vcpus (<[id := f v]> s.(vm_vcpus)) s) -> wp ab (vcpu_upd id f) Q s.
Proof. intros Hv HQ. unfold vcpu_upd. apply wp_bind. eapply wp_vcpu_get; eauto. Qed.

(** [only f s s']: nothing but the pending queue of one list and the pool changed. *)
Definition queue_of (l : slist) (s : sig_machine) : option (list siginfo_t) :=
  match l with
  | None => Some s.(vm_sigpending)
  | Some id => sigpending <$> s.(vm_vcpus) !! id
  end.

Definition put_queue (l : slist) (q : list siginfo_t) (s : sig_machine) : sig_machine :=
  match l with
  | None => set_vm_sigpending q s
  | Some id =>
      match s.(vm_vcpus) !! id with
      | Some v => set_vm_vcpus (<[id := v_sigpending q v]> s.(vm_vcpus)) s
      | None => s
      end
  end.

Lemma wp_slist_get ab l q s (Q : list siginfo_t -> sig_machine -> Prop) :
  queue_of l s = Some q -> Q q s -> wp ab (slist_get l) Q s.
Proof.
  intros Hq HQ. destruct l as [id|]; cbn in *; [|by injection Hq as ->].
  destruct (s.(vm_vcpus) !! id) as [v|] eqn:Ev; [|done]. injection Hq as <-. apply wp_bind. by eapply wp_vcpu_get.
Qed.

Lemma wp_slist_put ab l q q' s (Q : unit -> sig_machine -> Prop) :
  queue_of l s = Some q -> Q tt (put_queue l q' s) -> wp ab (slist_put l q') Q s.
Proof.
  intros Hq HQ. destruct l as [id|]; cbn in *; [|done].
  destruct (s.(vm_vcpus) !! id) as [v|] eqn:Ev; [|done]. by eapply wp_vcpu_upd.
Qed.

(** ** The pool of entries is conserved *)
Record conserves (s s' : sig_machine) : Prop := {
  co_pool : pool s' = pool s;
  co_dom : forall id, is_Some (s'.(vm_vcpus) !! id) <-> is_Some (s.(vm_vcpus) !! id);
  co_nocatch : forall i, i = km_sigindex SIGKILL \/ i = km_sigindex SIGSTOP -> s'.(sigactions) !! i = s.(sigactions) !! i;
}.

Lemma conserves_refl s : conserves s s.
Proof. split; intros; reflexivity. Qed.
Lemma conserves_trans s1 s2 s3 : conserves s1 s2 -> conserves s2 s3 -> conserves s1 s3.
Proof.
  intros [A1 A2 A3] [B1 B2 B3]. split; [congruence| |].
  - intros id. by rewrite B2, A2.
  - intros i Hi. by rewrite B3, A3.
Qed.
#[local] Hint Resolve conserves_refl : km.

Definition keeps {A} (c : M sig_machine A) : Prop := forall s, wp True c (fun _ s' => conserves s s') s.

Lemma keeps_bind {A B} (c : M sig_machine A) (k : A -> M sig_machine B) :
  keeps c -> (forall a, keeps (k a)) -> keeps (bind c k).
Proof.
  intros Hc Hk s. apply wp_bind. eapply wp_mono; [apply Hc|]. intros a s1 H1. eapply wp_mono; [apply Hk|].
  intros b s2 H2. exact (conserves_trans _ _ _ H1 H2).
Qed.
Lemma keeps_ret {A} (a : A) : keeps (ret a).
Proof. intros s. apply wp_ret, conserves_refl. Qed.
Lemma keeps_abort {A} : keeps (@abort sig_machine A).
Proof. done. Qed.
Lemma keeps_get : keeps get.
Proof. intros s. apply wp_get, conserves_refl. Qed.
Lemma keeps_assert b : keeps (km_assert b).
Proof. destruct b; [apply keeps_ret|apply keeps_abort]. Qed.
Lemma keeps_modify f : (forall s, conserves s (f s)) -> keeps (modify f).
Proof. intros Hf s. apply Hf. Qed.
Lemma keeps_vcpu_get id : keeps (vcpu_get id).
Proof. intros s. unfold wp, vcpu_get. destruct (_ !! id); [apply conserves_refl|done]. Qed.
Lemma keeps_emit e : keeps (emit e).
Proof. apply keeps_modify. intros s. split; intros; reflexivity. Qed.

(** Changing a vcpu without changing the number of its pending signals. *)
Lemma conserves_put s id v v' :
  s.(vm_vcpus) !! id = Some v -> length v'.(sigpending) = length v.(sigpending) ->
  conserves s (set_vm_vcpus (<[id := v']> s.(vm_vcpus)) s).
Proof.
  intros Hv Hl. split; cbn; [| |done].
  - unfold pool. cbn. pose proof (pending_total_insert _ _ _ v' Hv). lia.
  - intros i. destruct (decide (id = i)) as [->|]; [rewrite lookup_insert_eq, Hv|rewrite lookup_insert_ne by done]; done.
Qed.

Lemma keeps_vcpu_upd id f : (forall v, (f v).(sigpending) = v.(sigpending)) -> keeps (vcpu_upd id f).
Proof.
  intros Hf s. unfold vcpu_upd, wp, bind, vcpu_get. destruct (s.(vm_vcpus) !! id) as [v|] eqn:E; [|done].
  apply (conserves_put s id v); [done|by rewrite Hf].
Qed.

(** A read followed by code that may write the vcpu back. *)
Lemma keeps_with_vcpu {A} id (k : km_vcpu_t -> M sig_machine A) :
  (forall v s, s.(vm_vcpus) !! id = Some v -> wp True (k v) (fun _ s' => conserves s s') s) ->
  keeps (let* v := vcpu_get id in k v).
Proof.
  intros Hk s. unfold wp, bind, vcpu_get. destruct (s.(vm_vcpus) !! id) as [v|] eqn:E; [|done]. by apply Hk.
Qed.

Lemma keeps_put_back {A} id v v' (k : M sig_machine A) s :
  s.(vm_vcpus) !! id = Some v -> v'.(sigpending) = v.(sigpending) -> keeps k ->
  wp True (vcpu_put id v' ;;; k) (fun _ s' => conserves s s') s.
Proof.
  intros Hv Hp Hk. apply wp_bind, wp_vcpu_put. eapply wp_mono; [apply Hk|]. intros a s'.
  apply conserves_trans. apply (conserves_put s id v); [done|by rewrite Hp].
Qed.

(** ** Queue operations *)
Lemma queue_put_pool l q q' s :
  queue_of l s = Some q -> (pool (put_queue l q' s) + length q = pool s + length q')%nat.
Proof.
  intros Hq. unfold pool. destruct l as [id|]; cbn in *.
  - destruct (s.(vm_vcpus) !! id) as [v|] eqn:E; [|done]. injection Hq as <-. cbn.
    pose proof (pending_total_insert _ _ _ (v_sigpending q' v) E). cbn in *. lia.
  - injection Hq as <-. lia.
Qed.

Lemma put_queue_frame l q s :
  (put_queue l q s).(sigfree) = s.(sigfree) /\ (put_queue l q s).(sigactions) = s.(sigactions)
  /\ forall id, is_Some ((put_queue l q s).(vm_vcpus) !! id) <-> is_Some (s.(vm_vcpus) !! id).
Proof.
  destruct l as [i|]; cbn; [|done]. destruct (s.(vm_vcpus) !! i) as [v|] eqn:E; [|done]. cbn. split_and!; auto.
  intros id. destruct (decide (i = id)) as [->|]; [rewrite lookup_insert_eq, E|rewrite lookup_insert_ne by done]; done.
Qed.

Lemma queue_of_sigfree l n s : queue_of l (set_sigfree n s) = queue_of l s.
Proof. by destruct l. Qed.

(** Enqueueing takes one entry; it fails exactly when the pool is empty. *)
Lemma enqueue_spec l info q s :
  queue_of l s = Some q ->
  wp (s.(sigfree) = 0%nat) (enqueue_signal_nolock l info)
    (fun _ s' => exists n, s.(sigfree) = S n /\ s' = put_queue l (q ++ [info]) (set_sigfree n s) /\ conserves s s') s.
Proof.
  intros Hq. unfold enqueue_signal_nolock. wp_steps. destruct s.(sigfree) as [|n] eqn:Ef; [done|]. wp_steps.
  eapply wp_slist_get; [by rewrite queue_of_sigfree|]. cbv beta.
  eapply wp_slist_put; [by rewrite queue_of_sigfree|]. exists n. split_and!; auto.
  destruct (put_queue_frame l (q ++ [info]) (set_sigfree n s)) as (F1 & F2 & F3).
  pose proof (queue_put_pool l q (q ++ [info]) (set_sigfree n s)) as Hp. rewrite queue_of_sigfree in Hp. specialize (Hp Hq).
  split; auto.
  - rewrite length_app in Hp. unfold pool in *. cbn [length sigfree set_sigfree vm_sigpending vm_vcpus] in *. lia.
  - intros i _. by rewrite F2.
Qed.

Lemma keeps_enqueue l info : keeps (enqueue_signal_nolock l info).
Proof.
  intros s. destruct (queue_of l s) as [q|] eqn:E.
  - pose proof (enqueue_spec l info q s E) as W. unfold wp in *.
    destruct (enqueue_signal_nolock l info s) as [[a s']| |]; try done. by destruct W as (n & _ & _ & ?).
  - destruct l as [id|]; [|done]. unfold wp, enqueue_signal_nolock, bind, get. destruct s.(sigfree); [done|].
    cbn in *. unfold bind, vcpu_get. cbn. by destruct (s.(vm_vcpus) !! id).
Qed.

(** Dequeueing: the chosen entry leaves the list, which keeps its order, and goes
    back to the pool. *)
Lemma dequeue_spec l blocked q s :
  queue_of l s = Some q ->
  wp False (dequeue_signal l blocked)
    (fun r s' => conserves s s' /\
       match r with
       | None => s' = s /\ forall x, x ∈ q -> is_blocked blocked x = true
       | Some c => exists b a, q = b ++ c :: a /\ best_of blocked b c a
                     /\ s' = set_sigfree (S s.(sigfree)) (put_queue l (b ++ a) s)
       end) s.
Proof.
  intros Hq. unfold dequeue_signal. apply wp_bind. eapply wp_slist_get; [exact Hq|].
  pose proof (choose_signal_ok blocked q [] None ltac:(by intros x ?%elem_of_nil)) as Hc. cbn [app] in Hc.
  destruct (choose_signal blocked [] None q) as [[[b c] a]|]; cbn in Hc.
  - destruct Hc as [-> Hbest]. apply wp_bind. eapply wp_slist_put; [exact Hq|]. wp_steps.
    destruct (put_queue_frame l (b ++ a) s) as (F1 & F2 & F3). rewrite F1. split; [|by exists b, a].
    pose proof (queue_put_pool l _ (b ++ a) s Hq) as Hp. rewrite !length_app in Hp. cbn in Hp.
    split; [| exact F3|intros i _; cbn; by rewrite F2].
    unfold pool in *. cbn. rewrite F1 in Hp. lia.
  - wp_steps. auto with km.
Qed.

Lemma keeps_dequeue l blocked : keeps (dequeue_signal l blocked).
Proof.
  intros s. destruct (queue_of l s) as [q|] eqn:E.
  - eapply wp_mono; [apply wp_safe, (dequeue_spec l blocked q s E)|]. by intros r s' [? _].
  - destruct l as [id|]; [|done]. unfold wp, dequeue_signal, bind. cbn in *. unfold bind, vcpu_get.
    by destruct (s.(vm_vcpus) !! id).
Qed.

Lemma keeps_if {A} (b : bool) (c d : M sig_machine A) : keeps c -> keeps d -> keeps (if b then c else d).
Proof. by destruct b. Qed.
Lemma keeps_gets {A} (f : sig_machine -> A) : keeps (gets f).
Proof. intros s. apply wp_gets, conserves_refl. Qed.

Create HintDb keeps.
#[local] Hint Resolve keeps_ret keeps_get keeps_gets keeps_abort keeps_assert keeps_vcpu_get keeps_emit keeps_enqueue
  keeps_dequeue : keeps.
#[local] Hint Extern 2 (keeps (vcpu_upd _ _)) => apply keeps_vcpu_upd; by intros [] : keeps.
#[local] Hint Extern 2 (keeps (modify _)) => apply keeps_modify; intros; split; intros; reflexivity : keeps.

(** Walks through monadic code. *)
Ltac keeps_tac :=
  repeat first
    [ progress eauto with keeps
    | apply keeps_bind; [|intros ?]
    | apply keeps_if
    | match goal with
      | |- keeps (match ?x with _ => _ end) => destruct x
      end ].

Lemma keeps_remove gq sq id : (forall q s, conserves s (sq q s)) -> keeps (remove_from_queue gq sq id).
Proof.
  intros Hs. unfold remove_from_queue. keeps_tac. by apply keeps_modify.
Qed.
#[local] Hint Extern 2 (keeps (remove_from_queue _ _ _)) => apply keeps_remove; intros; split; intros; reflexivity : keeps.

Lemma keeps_dequeue_nolock id : keeps (km_dequeue_signal_nolock id).
Proof. unfold km_dequeue_signal_nolock. keeps_tac. Qed.

Lemma keeps_wakeup info : keeps (km_wakeup_suspended_thread info).
Proof. unfold km_wakeup_suspended_thread. keeps_tac. Qed.

Lemma keeps_pending vcpu info : keeps (signal_pending vcpu info).
Proof. unfold signal_pending. keeps_tac. Qed.

Lemma keeps_interrupt signo : keeps (km_interrupt_thread signo).
Proof. unfold km_interrupt_thread, km_signal_vcpu_signal. keeps_tac. Qed.
#[local] Hint Resolve keeps_dequeue_nolock keeps_wakeup keeps_pending keeps_interrupt : keeps.

Lemma keeps_post vcpu info : keeps (km_post_signal vcpu info).
Proof. unfold km_post_signal, enqueue_signal, km_signal_vcpu_signal. keeps_tac. Qed.

Lemma first_unblocked_split blocked seen l sig rest :
  first_unblocked blocked seen l = Some (sig, rest) ->
  exists b a, seen ++ l = b ++ sig :: a /\ rest = b ++ a /\ is_blocked blocked sig = false.
Proof.
  revert seen. induction l as [|x t IH]; intros seen; cbn; [done|].
  destruct (is_blocked blocked x) eqn:E.
  - intros (b & a & H1 & H2 & H3)%IH. exists b, a. rewrite <- app_assoc in H1. auto.
  - intros [= -> <-]. by exists seen, t.
Qed.

(** Claiming a process-wide signal moves one entry. *)
Lemma keeps_ready id : keeps (km_signal_ready_nolock id).
Proof.
  unfold km_signal_ready_nolock. apply keeps_with_vcpu. intros v s Hv.
  destruct (first_unblocked v.(sigmask) [] v.(sigpending)) as [[sig rest]|]; [apply keeps_ret|].
  apply wp_bind, wp_get.
  destruct (first_unblocked v.(sigmask) [] s.(vm_sigpending)) as [[sig rest]|] eqn:E; [|apply keeps_ret].
  apply first_unblocked_split in E as (b & a & E1 & -> & _). cbn in E1.
  apply wp_bind, wp_modify, wp_bind. eapply wp_vcpu_upd; [exact Hv|]. apply wp_ret. split; cbn; [| |done].
  - unfold pool. cbn. pose proof (pending_total_insert _ _ _ (v_sigpending (v.(sigpending) ++ [sig]) v) Hv) as Hp.
    cbn in Hp. rewrite length_app in Hp. rewrite E1, !length_app. cbn in *. lia.
  - intros i. destruct (decide (id = i)) as [->|]; [rewrite lookup_insert_eq, Hv|rewrite lookup_insert_ne by done]; done.
Qed.
#[local] Hint Resolve keeps_post keeps_ready : keeps.

Section Keeps.
  Context `{SignalEnv}.

Lemma keeps_put_ret {A} id v v' (x : A) s :
  s.(vm_vcpus) !! id = Some v -> v'.(sigpending) = v.(sigpending) ->
  wp True (vcpu_put id v' ;;; ret x) (fun _ s' => conserves s s') s.
Proof. intros. apply (keeps_put_back id v); auto with keeps. Qed.

Lemma keeps_put_only id v v' s :
  s.(vm_vcpus) !! id = Some v -> v'.(sigpending) = v.(sigpending) ->
  wp True (vcpu_put id v') (fun _ s' => conserves s s') s.
Proof. intros Hv Hp. apply wp_vcpu_put, (conserves_put s id v); [done|by rewrite Hp]. Qed.

Lemma keeps_handler id info act : keeps (do_guest_handler id info act).
Proof.
  unfold do_guest_handler. apply keeps_with_vcpu. intros v s Hv. apply wp_bind, wp_get, wp_bind, wp_modify.
  eapply wp_mono; [apply (keeps_put_only id v); [exact Hv|done]|]. intros u s'. apply conserves_trans.
  split; intros; reflexivity.
Qed.
#[local] Hint Resolve keeps_handler : keeps.

(** Only the two uncatchable signals keep their action, so the index is needed. *)
Definition catchable (signo : Z) : Prop := signo <> SIGKILL /\ signo <> SIGSTOP.

Lemma sigactions_insert_conserves signo act s :
  catchable signo -> conserves s (set_sigactions (<[km_sigindex signo := act]> s.(sigactions)) s).
Proof.
  intros [H1 H2]. split; try (intros; reflexivity). intros i Hi. cbn. rewrite lookup_insert_ne; [done|].
  unfold km_sigindex in *. lia.
Qed.

Lemma no_catch_signals_spec signo : 1 <= signo < NSIG -> km_sigismember no_catch_signals signo = false -> catchable signo.
Proof. intros Hs Hm. split; intros ->; vm_compute in Hm; discriminate. Qed.

Lemma keeps_deliver id info : catchable info.(si_signo) -> keeps (km_deliver_signal id info).
Proof.
  intros Hc. unfold km_deliver_signal. keeps_tac. apply keeps_modify. intros s. by apply sigactions_insert_conserves.
Qed.

Lemma keeps_sigreturn id : keeps (km_rt_sigreturn id).
Proof.
  unfold km_rt_sigreturn. apply keeps_with_vcpu. intros v s Hv. apply wp_bind, wp_get. cbv zeta.
  apply (keeps_put_only id v); [exact Hv|]. unfold restore_signal_context. by destruct (_ && _), fp_restore_ok.
Qed.

Lemma keeps_revert id : keeps (km_rt_sigsuspend_revert id).
Proof.
  unfold km_rt_sigsuspend_revert. apply keeps_with_vcpu. intros v s Hv.
  destruct v.(in_sigsuspend); [by apply (keeps_put_only id v)|apply keeps_ret].
Qed.

Lemma keeps_procmask id how set old sz : keeps (km_rt_sigprocmask id how set old sz).
Proof.
  unfold km_rt_sigprocmask. apply keeps_if; [apply keeps_ret|]. apply keeps_with_vcpu. intros v s Hv.
  destruct set as [set|]; [|apply keeps_ret].
  repeat match goal with |- wp _ (if ?b then _ else _) _ _ => destruct b end;
    first [by apply (keeps_put_ret id v) | apply keeps_ret].
Qed.

Lemma keeps_sigaction signo act old sz : keeps (km_rt_sigaction signo act old sz).
Proof.
  unfold km_rt_sigaction. apply keeps_if; [apply keeps_ret|].
  destruct ((signo <? 1) || (NSIG <=? signo)) eqn:E1; [apply keeps_ret|].
  destruct (km_sigismember no_catch_signals signo) eqn:E2; [apply keeps_ret|]. apply keeps_if; [apply keeps_ret|].
  intros s. apply wp_bind, wp_get. destruct act as [a|]; [|apply keeps_ret]. apply wp_bind, wp_modify, wp_ret.
  apply orb_false_iff in E1 as [E3%Z.ltb_ge E4%Z.leb_gt].
  apply sigactions_insert_conserves, no_catch_signals_spec; [lia|done].
Qed.

Lemma keeps_altstack id new old : keeps (km_sigaltstack id new old).
Proof.
  unfold km_sigaltstack. apply keeps_with_vcpu. intros v s Hv. destruct new as [n|]; [|apply keeps_ret].
  repeat match goal with |- wp _ (if ?b then _ else _) _ _ => destruct b end;
    first [by apply (keeps_put_ret id v) | apply keeps_ret].
Qed.

Lemma keeps_suspend id mask sz : keeps (km_rt_sigsuspend id mask sz).
Proof. unfold km_rt_sigsuspend, km_rt_sigsuspend_loop. keeps_tac. Qed.

Lemma keeps_timedwait_return id m rv : keeps (timedwait_return id m rv).
Proof. unfold timedwait_return. keeps_tac. Qed.
#[local] Hint Resolve keeps_timedwait_return : keeps.

Lemma keeps_timedwait id set t now sz : keeps (km_rt_sigtimedwait id set t now sz).
Proof.
  unfold km_rt_sigtimedwait. apply keeps_if; [apply keeps_ret|]. cbv zeta. apply keeps_with_vcpu. intros v s Hv.
  apply (keeps_put_back id v); [done|done|]. keeps_tac.
Qed.

Lemma keeps_timedwait_finish id m b stale : keeps (sigtimedwait_finish id m b stale).
Proof. unfold sigtimedwait_finish. keeps_tac. Qed.

(** ** Everything that can happen to the signal state *)
Inductive sig_op :=
| Op_post (vcpu : option Z) (info : siginfo_t)
| Op_run (id : Z)
| Op_ready (id : Z)
| Op_queue_sleep (id : Z)
| Op_dequeue_sleep (id : Z)
| Op_sigreturn (id : Z)
| Op_procmask (id how : Z) (set : option Z) (old : bool) (sz : Z)
| Op_sigaction (signo : Z) (act : option km_sigaction_t) (old : bool) (sz : Z)
| Op_altstack (id : Z) (new : option km_stack_t) (old : bool)
| Op_kill (tpid signo : Z)
| Op_tkill (tid signo : Z)
| Op_suspend (id mask sz : Z)
| Op_suspend_loop (id : Z)
| Op_timedwait (id set : Z) (t : option timespec) (now : timespec) (sz : Z)
| Op_timedwait_finish (id m : Z) (timedout : bool) (stale : siginfo_t).

Definition run_sig_op (op : sig_op) : M sig_machine unit :=
  match op with
  | Op_post vcpu info => km_post_signal vcpu info
  | Op_run id => vcpu_run_signals id ;;; ret tt
  | Op_ready id => km_signal_ready id ;;; ret tt
  | Op_queue_sleep id => km_queue_sig_sleep id
  | Op_dequeue_sleep id => km_dequeue_sig_sleep id
  | Op_sigreturn id => km_rt_sigreturn id
  | Op_procmask id how set old sz => km_rt_sigprocmask id how set old sz ;;; ret tt
  | Op_sigaction signo act old sz => km_rt_sigaction signo act old sz ;;; ret tt
  | Op_altstack id new old => km_sigaltstack id new old ;;; ret tt
  | Op_kill tpid signo => km_kill tpid signo ;;; ret tt
  | Op_tkill tid signo => km_tkill tid signo ;;; ret tt
  | Op_suspend id mask sz => km_rt_sigsuspend id mask sz ;;; ret tt
  | Op_suspend_loop id => km_rt_sigsuspend_loop id ;;; ret tt
  | Op_timedwait id set t now sz => km_rt_sigtimedwait id set t now sz ;;; ret tt
  | Op_timedwait_finish id m b stale => sigtimedwait_finish id m b stale ;;; ret tt
  end.

(** SIGKILL and SIGSTOP have their default action. *)
Definition uncaught (s : sig_machine) : Prop :=
  s.(sigactions) !! km_sigindex SIGKILL = None /\ s.(sigactions) !! km_sigindex SIGSTOP = None.

Lemma conserves_uncaught s s' : conserves s s' -> uncaught s -> uncaught s'.
Proof. intros [_ _ C] [U1 U2]. split; by rewrite C by auto. Qed.

Lemma deliver_conserves id info s :
  uncaught s -> wp True (km_deliver_signal id info) (fun _ s' => conserves s s') s.
Proof.
  intros [U1 U2]. destruct (decide (info.(si_signo) = SIGKILL)) as [E|N1]; [|destruct (decide (info.(si_signo) = SIGSTOP)) as [E|N2]].
  - unfold km_deliver_signal. apply wp_bind, wp_get. rewrite E, U1. apply keeps_bind; intros; [apply keeps_assert|apply keeps_ret].
  - unfold km_deliver_signal. apply wp_bind, wp_get. rewrite E, U2. apply keeps_bind; intros; [apply keeps_assert|apply keeps_ret].
  - by apply keeps_deliver.
Qed.

Lemma run_signals_conserves id s :
  uncaught s -> wp True (vcpu_run_signals id) (fun _ s' => conserves s s') s.
Proof.
  intros U. unfold vcpu_run_signals.
  destruct (s.(vm_vcpus) !! id) as [v|] eqn:Ev; [|unfold wp, bind, vcpu_get; rewrite Ev; exact I].
  apply wp_bind. eapply wp_vcpu_get; [exact Ev|]. destruct (negb _); [by apply (keeps_put_ret id v)|]. apply wp_bind.
  eapply wp_mono; [apply keeps_dequeue_nolock|]. intros [info|] s1 H1; [|by apply wp_ret].
  apply wp_bind. eapply wp_mono; [apply deliver_conserves; by eapply conserves_uncaught|]. intros d s2 H2.
  assert (K : keeps (match d with Terminated _ _ => ret (Some d) | _ => km_rt_sigsuspend_revert id ;;; ret (Some d) end)).
  { destruct d; [apply keeps_bind|apply keeps_bind|]; intros; try apply keeps_revert; apply keeps_ret. }
  eapply wp_mono; [apply K|]. intros r s3 H3.
  exact (conserves_trans _ _ _ H1 (conserves_trans _ _ _ H2 H3)).
Qed.

Lemma run_sig_op_conserves op s : uncaught s -> wp True (run_sig_op op) (fun _ s' => conserves s s') s.
Proof.
  intros U. destruct op; cbn [run_sig_op]; 
    try lazymatch goal with
        | |- context [vcpu_run_signals] => fail
        | |- context [bind ?c (fun _ => ret tt)] => apply keeps_bind; intros; [|apply keeps_ret]
        end.
  - apply keeps_post.
  - apply wp_bind. eapply wp_mono; [by apply run_signals_conserves|]. intros r s' Hs. by apply wp_ret.
  - apply keeps_ready.
  - unfold km_queue_sig_sleep. keeps_tac.
  - unfold km_dequeue_sig_sleep. keeps_tac.
  - apply keeps_sigreturn.
  - apply keeps_procmask.
  - apply keeps_sigaction.
  - apply keeps_altstack.
  - unfold km_kill. keeps_tac.
  - unfold km_tkill. keeps_tac.
  - apply keeps_suspend.
  - unfold km_rt_sigsuspend_loop. keeps_tac.
  - apply keeps_timedwait.
  - apply keeps_timedwait_finish.
Qed.

Inductive sig_steps (s : sig_machine) : sig_machine -> Prop :=
| ss_refl : sig_steps s s
| ss_step s1 op s2 : sig_steps s s1 -> run_sig_op op s1 = Ret (tt, s2) -> sig_steps s s2.

(** C11. Over any sequence of posts, deliveries, waits and signal system calls
    the entries are conserved: the free ones and those on the process's and the
    vcpus' queues always add up to the pool, so no entry is lost, used twice or
    freed twice, and SIGKILL and SIGSTOP never get a handler. *)
Theorem signal_entries_conserved s s' :
  pool s = NSIGENTRY -> uncaught s -> sig_steps s s' ->
  pool s' = NSIGENTRY /\ uncaught s'
  /\ (s'.(sigfree) + length s'.(vm_sigpending) <= NSIGENTRY)%nat
  /\ forall id, is_Some (s'.(vm_vcpus) !! id) <-> is_Some (s.(vm_vcpus) !! id).
Proof.
  intros Hp U Hst. assert (HI : conserves s s').
  { induction Hst as [|s1 op s2 _ IH Hrun]; [apply conserves_refl|].
    pose proof (run_sig_op_conserves op s1 (conserves_uncaught _ _ IH U)) as W. unfold wp in W. rewrite Hrun in W.
    exact (conserves_trans _ _ _ IH W). }
  pose proof HI as [C1 C2 _]. rewrite Hp in C1. split_and!; auto; [by eapply conserves_uncaught|].
  unfold pool in C1. lia.
Qed.

End Keeps.

(** C12. Dequeueing for a vcpu takes, from the vcpu's own queue if it holds a
    signal the mask lets through and otherwise from the process's queue, the first
    signal of the highest priority (program errors before all others, then the
    lowest number), removes only it, and returns its entry to the pool; nothing
    happens when every pending signal is blocked. *)
Theorem km_dequeue_signal_spec id v s :
  s.(vm_vcpus) !! id = Some v ->
  exists r s', km_dequeue_signal id s = Ret (r, s') /\
    match r with
    | Some c =>
        (exists b a, v.(sigpending) = b ++ c :: a /\ best_of v.(sigmask) b c a
           /\ s' = set_sigfree (S s.(sigfree)) (put_queue (Some id) (b ++ a) s))
        \/ ((forall x, x ∈ v.(sigpending) -> is_blocked v.(sigmask) x = true)
            /\ exists b a, s.(vm_sigpending) = b ++ c :: a /\ best_of v.(sigmask) b c a
                 /\ s' = set_sigfree (S s.(sigfree)) (set_vm_sigpending (b ++ a) s))
    | None => s' = s /\ forall x, x ∈ v.(sigpending) ++ s.(vm_sigpending) -> is_blocked v.(sigmask) x = true
    end.
Proof.
  intros Hv. assert (W : wp False (km_dequeue_signal id) (fun r s' => match r with
    | Some c =>
        (exists b a, v.(sigpending) = b ++ c :: a /\ best_of v.(sigmask) b c a
           /\ s' = set_sigfree (S s.(sigfree)) (put_queue (Some id) (b ++ a) s))
        \/ ((forall x, x ∈ v.(sigpending) -> is_blocked v.(sigmask) x = true)
            /\ exists b a, s.(vm_sigpending) = b ++ c :: a /\ best_of v.(sigmask) b c a
                 /\ s' = set_sigfree (S s.(sigfree)) (set_vm_sigpending (b ++ a) s))
    | None => s' = s /\ forall x, x ∈ v.(sigpending) ++ s.(vm_sigpending) -> is_blocked v.(sigmask) x = true
    end) s).
  { unfold km_dequeue_signal, km_dequeue_signal_nolock. apply wp_bind. eapply wp_vcpu_get; [exact Hv|]. apply wp_bind.
    eapply wp_mono; [apply (dequeue_spec (Some id) v.(sigmask) v.(sigpending)); cbn; by rewrite Hv|].
    intros [c|] s1 [_ H1]; [by apply wp_ret; left|]. destruct H1 as [-> Hb].
    eapply wp_mono; [by apply (dequeue_spec None)|]. intros [c|] s2 [_ H2]; [by right|].
    destruct H2 as [-> Hb']. split; [done|]. intros x [|]%elem_of_app; auto. }
  unfold wp in W. destruct (km_dequeue_signal id s) as [[r s']| |]; [|done|done]. by exists r, s'.
Qed.
