(* ===== verification/SignalSpec.v ===== *)
(** * Signal system calls, delivery and return *)
From S2P Require Import Prelude Signal SignalProps.

(** ** sigprocmask *)
Lemma for_signals_bits (f : Z -> Z -> Z) (op : bool -> bool -> bool) set l m n :
  (forall x signo k, 1 <= signo < NSIG -> 0 <= k -> Z.testbit (f x signo) k = op (Z.testbit x k) (k =? signo - 1)) ->
  (forall b, op b false = b) -> (forall b, op (op b true) true = op b true) ->
  (forall x, x ∈ l -> 1 <= x < NSIG) -> 0 <= n ->
  Z.testbit (fold_left (fun m signo => if km_sigismember set signo then f m signo else m) l m) n
  = if Z.testbit set n && bool_decide (n + 1 ∈ l) then op (Z.testbit m n) true else Z.testbit m n.
Proof.
  intros Hf Hop Hidem Hl Hn. revert m. induction l as [|x l IH]; intros m.
  { cbn. by rewrite andb_false_r. }
  cbn [fold_left]. rewrite IH by (intros; apply Hl, elem_of_cons; by right).
  assert (Hx : 1 <= x < NSIG) by (apply Hl, elem_of_cons; by left).
  rewrite (km_sigismember_spec set x Hx).
  assert (Hdec : bool_decide (n + 1 ∈ x :: l) = (n =? x - 1) || bool_decide (n + 1 ∈ l)).
  { apply eq_bool_prop_intro. rewrite orb_True, !bool_decide_spec, elem_of_cons. 
    destruct (Z.eqb_spec n (x - 1)); cbn; split; intros [|]; auto; try lia; try done; left; lia. }
  rewrite Hdec. destruct (Z.testbit set (x - 1)) eqn:Ex.
  - rewrite Hf by lia. destruct (Z.eqb_spec n (x - 1)) as [->|]; cbn [orb].
    + rewrite Ex. cbn [andb]. by destruct (bool_decide _); rewrite ?Hidem.
    + by rewrite Hop.
  - destruct (Z.eqb_spec n (x - 1)) as [->|]; cbn [orb]; [by rewrite Ex|done].
Qed.

Lemma bits_above x n : is_u64 x -> 64 <= n -> Z.testbit x n = false.
Proof.
  intros [H0 H1] Hn. destruct (Z.eq_dec x 0) as [->|]; [apply Z.bits_0|].
  apply Z.bits_above_log2; [done|]. apply Z.lt_le_trans with 64; [|done]. apply Z.log2_lt_pow2; [lia|].
  unfold two64 in *. lia.
Qed.

Lemma signals_range x : x ∈ seqZ 1 (NSIG - 1) -> 1 <= x < NSIG.
Proof. rewrite elem_of_seqZ. unfold NSIG. lia. Qed.

Lemma for_signals_block set mask : is_u64 set -> for_signals km_sigaddset set mask = Z.lor mask set.
Proof.
  intros Hs. apply Z.bits_inj'. intros n Hn. unfold for_signals.
  rewrite (for_signals_bits km_sigaddset orb);
    [|apply km_sigaddset_spec|by intros []|by intros []|apply signals_range|done].
  rewrite Z.lor_spec. destruct (Z.lt_ge_cases n 64).
  - rewrite bool_decide_true by (rewrite elem_of_seqZ; unfold NSIG; lia). rewrite andb_true_r.
    by destruct (Z.testbit set n); rewrite ?orb_true_r, ?orb_false_r.
  - by rewrite (bits_above set n Hs), orb_false_r by lia.
Qed.

Lemma for_signals_unblock set mask : is_u64 set -> for_signals km_sigdelset set mask = Z.ldiff mask set.
Proof.
  intros Hs. apply Z.bits_inj'. intros n Hn. unfold for_signals.
  rewrite (for_signals_bits km_sigdelset (fun a b => a && negb b));
    [|apply km_sigdelset_spec|by intros []|by intros []|apply signals_range|done].
  rewrite Z.ldiff_spec. destruct (Z.lt_ge_cases n 64).
  - rewrite bool_decide_true by (rewrite elem_of_seqZ; unfold NSIG; lia). rewrite andb_true_r.
    by destruct (Z.testbit set n); rewrite ?andb_false_r, ?andb_true_r.
  - by rewrite (bits_above set n Hs), andb_true_r by lia.
Qed.

(** The mask sigprocmask is specified to set. *)
Definition sigprocmask_mask (how set mask : Z) : option Z :=
  if how =? SIG_BLOCK then Some (Z.lor mask set)
  else if how =? SIG_UNBLOCK then Some (Z.ldiff mask set)
  else if how =? SIG_SETMASK then Some set else None.

(** Sigprocmask is total: it rejects a set size other than 8 and an unknown
    [how] with EINVAL and an unchanged mask, returns the old mask, and otherwise
    its loops over the signals compute the union, the difference or the
    replacement of the two 64 bit words. *)
Theorem km_rt_sigprocmask_spec id how set old sz v s :
  s.(vm_vcpus) !! id = Some v -> is_u64 set ->
  km_rt_sigprocmask id how (Some set) old sz s =
    if sz =? sizeof_sigset then
      let oldv := if old then Some v.(sigmask) else None in
      match sigprocmask_mask how set v.(sigmask) with
      | Some mask => Ret ((0, oldv), set_vm_vcpus (<[id := v_sigmask mask v]> s.(vm_vcpus)) s)
      | None => Ret ((neg_errno EINVAL, oldv), s)
      end
    else Ret ((neg_errno EINVAL, None), s).
Proof.
  intros Hv Hs. unfold km_rt_sigprocmask, sigprocmask_mask. destruct (sz =? sizeof_sigset); [|done]. cbn [negb].
  unfold bind, vcpu_get. rewrite Hv, for_signals_block, for_signals_unblock by done.
  by destruct (how =? SIG_BLOCK), (how =? SIG_UNBLOCK), (how =? SIG_SETMASK).
Qed.

(** ** Delivery *)
Section Deliver.
  Context `{SignalEnv}.

Lemma greg_saved r g :
  restore_gregs (save_gregs r g) r.(rflags) = r.
Proof. destruct r. unfold restore_gregs, greg, save_gregs. cbn -[lookup insert]. 
  repeat (rewrite lookup_insert_eq || rewrite lookup_insert_ne by done). done.
Qed.

(** The state in which the handler's return reaches the monitor: the guest may have
    changed every register and the mask; the stack pointer is where the restorer
    left it and the frame is intact. *)
Record at_sigreturn (id gva : Z) (frame : option km_signal_frame) (s : sig_machine) (v : km_vcpu_t) : Prop := {
  ar_vcpu : s.(vm_vcpus) !! id = Some v;
  ar_rsp : v.(regs).(rsp) = u64 (gva + 8 - stack_adjustment v);
  ar_frame : s.(frames) !! gva = frame;
}.

(** C13. A signal handler is transparent: after its frame was set up by
    do_guest_handler, sigreturn puts back all registers, the signal mask, the
    hypercall arguments and the floating point state as they were when the signal
    was delivered, whatever the handler did to them. *)
Theorem handler_sigreturn_roundtrip id info act v s s1 s2 v2 :
  s.(vm_vcpus) !! id = Some v -> do_guest_handler id info act s = Ret (tt, s1) ->
  at_sigreturn id (sframe_gva v act) (s1.(frames) !! sframe_gva v act) s2 v2 ->
  fp_save_ok = true -> fp_restore_ok = true ->
  exists s3 v3, km_rt_sigreturn id s2 = Ret (tt, s3) /\ s3.(vm_vcpus) !! id = Some v3
    /\ v3.(regs) = v.(regs) /\ v3.(sigmask) = v.(sigmask) /\ v3.(hc_args) = v.(hc_args) /\ v3.(fpstate) = v.(fpstate)
    /\ v3.(sigpending) = v2.(sigpending).
Proof.
  intros Hv Hdo [A1 A2 A3] Hfs Hfr. unfold do_guest_handler, bind, vcpu_get, get, modify, vcpu_put in Hdo.
  rewrite Hv in Hdo. injection Hdo as <-. cbn [frames set_frames set_vm_vcpus] in A3. rewrite lookup_insert_eq in A3.
  unfold km_rt_sigreturn, bind, vcpu_get, get, vcpu_put, modify. rewrite A1.
  assert (Hg : u64 (v2.(regs).(rsp) + stack_adjustment v2 - 8) = sframe_gva v act).
  { rewrite A2. unfold u64.
    replace ((sframe_gva v act + 8 - stack_adjustment v2) mod two64 + stack_adjustment v2 - 8)
      with ((sframe_gva v act + 8 - stack_adjustment v2) mod two64 + (stack_adjustment v2 - 8)) by lia.
    rewrite Zplus_mod_idemp_l. replace (_ + _) with (sframe_gva v act) by lia.
    apply Z.mod_small. unfold sframe_gva. apply u64_range. }
  rewrite Hg, A3. cbn [default]. match goal with |- context [restore_signal_context _ ?f] => set (fr := f) end.
  assert (Hfr1 : restore_gregs fr.(gregs) fr.(frame_rflags) = v.(regs)) by apply greg_saved.
  assert (Hfr2 : fr.(uc_sigmask) = v.(sigmask) /\ fr.(hc_argsp) = v.(hc_args) /\ fr.(fp_frame) = v.(fpstate)).
  { split_and!; [done|done|]. unfold fr, save_signal_context. cbn. by rewrite Hfs. }
  destruct Hfr2 as (F1 & F2 & F3). clearbody fr. do 2 eexists. split; [reflexivity|].
  split; [apply lookup_insert_eq|]. unfold restore_signal_context. rewrite Hfr. by destruct (_ && _).
Qed.

(** The signal frame is where the ABI wants it: the stack is aligned so
    that the handler sees its return address at 8 modulo 16, the frame with the
    floating point state ends below the red zone of the interrupted code, or inside
    the alternate stack when that is asked for and not in use, and it does not wrap
    around. *)
Theorem sframe_placement v act :
  let size := sizeof_frame + fpstate_size in
  let alt := v.(sigaltstack) in
  let use_alt := (Z.land act.(sa_flags) SA_ONSTACK =? SA_ONSTACK) && negb (alt.(ss_size) =? 0)
                 && negb (km_on_altstack v v.(regs).(rsp)) in
  0 <= size ->
  (use_alt = false -> RED_ZONE + size + 24 <= v.(regs).(rsp) < two64) ->
  (use_alt = true -> 0 <= alt.(ss_sp) /\ size + 24 <= alt.(ss_size) /\ alt.(ss_sp) + alt.(ss_size) < two64) ->
  (sframe_gva v act + 8) mod 16 = 0
  /\ (use_alt = false -> 0 <= sframe_gva v act /\ sframe_gva v act + 8 + size <= v.(regs).(rsp) - RED_ZONE)
  /\ (use_alt = true -> alt.(ss_sp) <= sframe_gva v act /\ sframe_gva v act + 8 + size <= alt.(ss_sp) + alt.(ss_size)).
Proof.
  intros size alt use_alt Hsz Hno Hyes.
  assert (E : sframe_gva v act = rounddown ((if use_alt then alt.(ss_sp) +u alt.(ss_size)
                                             else v.(regs).(rsp) -u RED_ZONE) -u size) 16 -u 8) by reflexivity.
  rewrite E. clear E. clearbody use_alt.
  assert (K : forall top, size + 24 <= top < two64 ->
    let g := rounddown (top -u size) 16 -u 8 in (g + 8) mod 16 = 0 /\ 0 <= g /\ top - size - 24 <= g /\ g + 8 + size <= top).
  { intros top Ht. rewrite (u64_small (top - size)) by (unfold is_u64; lia). cbv zeta.
    pose proof (rounddown_le (top - size) 16 ltac:(lia)) as Hr. pose proof (rounddown_mod (top - size) 16 ltac:(lia)) as Hm.
    rewrite u64_small by (unfold is_u64; lia). replace (_ - 8 + 8) with (rounddown (top - size) 16) by lia. split_and!; auto; lia. }
  destruct use_alt.
  - destruct (Hyes eq_refl) as (?&?&?). rewrite (u64_small (_ + _)) by (unfold is_u64; lia).
    destruct (K (alt.(ss_sp) + alt.(ss_size)) ltac:(lia)) as (?&?&?&?). split_and!; auto; intros; try done; lia.
  - specialize (Hno eq_refl). rewrite (u64_small (_ - RED_ZONE)) by (unfold is_u64, RED_ZONE in *; lia).
    destruct (K (v.(regs).(rsp) - RED_ZONE)) as (?&?&?&?); [unfold RED_ZONE in *; lia|]. split_and!; auto; intros; try done; lia.
Qed.

End Deliver.

(** ** Posting *)
Lemma queue_put_same l q q0 s : queue_of l s = Some q0 -> queue_of l (put_queue l q s) = Some q.
Proof.
  destruct l as [id|]; cbn; [|done]. destruct (s.(vm_vcpus) !! id) as [v|] eqn:E; [|done]. intros _. cbn.
  by rewrite lookup_insert_eq.
Qed.

Lemma queue_put_other l l' q s : l <> l' -> queue_of l' (put_queue l q s) = queue_of l' s.
Proof.
  intros Hne. destruct l as [id|], l' as [id'|]; cbn; try done.
  - destruct (s.(vm_vcpus) !! id) as [v|]; [|done]. cbn. rewrite lookup_insert_ne by congruence. done.
  - by destruct (s.(vm_vcpus) !! id).
Qed.

Lemma tailq_remove_head id q : tailq_remove id (id :: q) = Some (filter (fun x => x <> id) q).
Proof.
  unfold tailq_remove. rewrite decide_True by (apply elem_of_cons; by left).
  by rewrite filter_cons_False by (intros Hn; by apply Hn).
Qed.

(** The wakeup with a waiter at the head of the queue. *)
Lemma wakeup_head id q v info s n :
  s.(km_signal_wait_queue) = id :: q -> s.(vm_vcpus) !! id = Some v ->
  km_sigismember v.(sigmask) info.(si_signo) = false -> s.(sigfree) = S n ->
  exists s', km_wakeup_suspended_thread info s = Ret (1, s')
    /\ queue_of (Some id) s' = Some (v.(sigpending) ++ [info])
    /\ (forall l, l <> Some id -> queue_of l s' = queue_of l s)
    /\ s'.(events) = E_cond_signal id :: s.(events) /\ s'.(km_signal_wait_queue) = filter (fun x => x <> id) q.
Proof.
  intros Hq Hv Hm Hf. unfold km_wakeup_suspended_thread, bind, get. rewrite Hq. cbn [find_waiter]. rewrite Hv, Hm.
  unfold remove_from_queue, bind, get. rewrite Hq, tailq_remove_head. unfold modify at 1.
  set (s1 := set_wait_queue _ s).
  assert (Hq1 : queue_of (Some id) s1 = Some v.(sigpending)) by (cbn; by rewrite Hv).
  pose proof (enqueue_spec (Some id) info v.(sigpending) s1 Hq1) as W. unfold wp in W.
  destruct (enqueue_signal_nolock (Some id) info s1) as [[u s2]| |]; [|cbn in W; congruence|done].
  destruct W as (k & Hk & -> & _). eexists. split; [reflexivity|].
  split; [exact (queue_put_same (Some id) _ v.(sigpending) (set_sigfree k s1) Hq1)|]. split.
  - intros l Hl. destruct l as [j|]; [exact (queue_put_other (Some id) (Some j) _ (set_sigfree k s1) ltac:(congruence))|].
    exact (queue_put_other (Some id) None _ (set_sigfree k s1) ltac:(discriminate)).
  - cbn. by rewrite Hv.
Qed.

(** A signal sent to one thread can be taken by another: when some thread
    waits in sigsuspend or sigtimedwait with the signal unblocked, a post to a
    different thread queues it for the waiter and wakes that, and the thread it was
    sent to gets nothing. *)
Theorem km_post_signal_diverted j id q v vj info s n :
  id <> j -> s.(km_signal_wait_queue) = id :: q -> s.(vm_vcpus) !! id = Some v -> s.(vm_vcpus) !! j = Some vj ->
  km_sigismember v.(sigmask) info.(si_signo) = false -> s.(sigfree) = S n ->
  pending_in info vj.(sigpending) = false -> pending_in info s.(vm_sigpending) = false ->
  exists s', km_post_signal (Some j) info s = Ret (tt, s')
    /\ queue_of (Some id) s' = Some (v.(sigpending) ++ [info])
    /\ queue_of (Some j) s' = Some vj.(sigpending)
    /\ s'.(events) = E_cond_signal id :: s.(events).
Proof.
  intros Hne Hq Hv Hj Hm Hf Hp1 Hp2.
  destruct (wakeup_head id q v info s n Hq Hv Hm Hf) as (s' & Hw & Q1 & Q2 & Q3 & _).
  exists s'. split_and!; auto.
  - unfold km_post_signal, signal_pending, bind, get, ret, vcpu_get.
    destruct (info.(si_signo) <? SIGRTMIN); [rewrite Hj, Hp1, Hp2|]; cbn [orb]; by rewrite Hw.
  - rewrite Q2 by congruence. cbn. by rewrite Hj.
Qed.

(** With no entry left in the pool of eight, posting a signal that is not
    merged with a pending one aborts the monitor: a guest that blocks and raises
    nine real-time signals ends the process. *)
Theorem km_post_signal_exhausted vcpu info s :
  s.(sigfree) = 0%nat -> SIGRTMIN <= info.(si_signo) ->
  (forall id, vcpu = Some id -> is_Some (s.(vm_vcpus) !! id)) ->
  km_post_signal vcpu info s = Abort.
Proof.
  intros Hf Hs Hv. unfold km_post_signal. destruct (Z.ltb_spec info.(si_signo) SIGRTMIN); [lia|].
  unfold bind at 1, ret at 1. unfold bind at 1, km_wakeup_suspended_thread, bind at 1, get at 1.
  destruct (find_waiter _ _ _) as [w|].
  - unfold bind at 1, remove_from_queue, bind at 1, get at 1.
    destruct (tailq_remove _ _); [|done]. cbn. unfold bind, enqueue_signal_nolock, bind, get. cbn. by rewrite Hf.
  - cbn. destruct vcpu as [id|]; unfold enqueue_signal, enqueue_signal_nolock, bind, get; by rewrite Hf.
Qed.

(** Sigsuspend that finds a signal already pending returns at once with the
    thread still on the queue of waiting threads, where later signals are diverted
    to it although it runs. *)
Theorem km_rt_sigsuspend_stays_queued id mask v s sig rest :
  s.(vm_vcpus) !! id = Some v -> first_unblocked mask [] v.(sigpending) = Some (sig, rest) -> sig.(si_signo) <> 0 ->
  exists s', km_rt_sigsuspend id mask sizeof_sigset s = Ret (Some (neg_errno EINTR), s')
    /\ id ∈ s'.(km_signal_wait_queue).
Proof.
  intros Hv Hf Hs. unfold km_rt_sigsuspend, km_rt_sigsuspend_loop, km_signal_ready_nolock. rewrite Z.eqb_refl. cbn [negb].
  unfold vcpu_upd, vcpu_get, vcpu_put, bind, modify, ret, get. rewrite Hv. cbn -[lookup insert].
  rewrite !lookup_insert_eq. cbn -[lookup insert]. rewrite !lookup_insert_eq. cbn -[lookup insert]. rewrite Hf.
  destruct (Z.eqb_spec sig.(si_signo) 0); [done|]. eexists. split; [reflexivity|]. cbn.
  apply elem_of_app. right. by apply list_elem_of_singleton.
Qed.

(** ** Actions *)
Section Actions.
  Context `{SignalEnv}.

(** Sigaction is total; a bad size, a number out of range and the two
    signals that cannot be caught are EINVAL without effect; otherwise it returns
    the previous action and installs the new one, and no other signal's action
    changes. *)
Theorem km_rt_sigaction_spec signo act old sz s :
  host_sigaction act.(handler) >= 0 ->
  km_rt_sigaction signo (Some act) old sz s =
    if (sz =? sizeof_sigset) && (1 <=? signo) && (signo <? NSIG) && negb (signo =? SIGKILL) && negb (signo =? SIGSTOP)
    then Ret ((0, if old then Some (default sigaction_zero (s.(sigactions) !! km_sigindex signo)) else None),
              set_sigactions (<[km_sigindex signo := act]> s.(sigactions)) s)
    else Ret ((neg_errno EINVAL, None), s).
Proof.
  intros Hh. unfold km_rt_sigaction. destruct (sz =? sizeof_sigset); [|done]. cbn [negb andb].
  destruct (Z.ltb_spec signo 1), (Z.leb_spec 1 signo); try lia; [done|]. cbn [orb andb].
  destruct (Z.leb_spec NSIG signo), (Z.ltb_spec signo NSIG); try lia; [done|]. cbn [andb].
  assert (Hnc : km_sigismember no_catch_signals signo = negb (negb (signo =? SIGKILL) && negb (signo =? SIGSTOP))).
  { rewrite km_sigismember_spec by lia. change no_catch_signals with (2 ^ 8 + 2 ^ 18).
    assert (Hb : forall n, 0 <= n -> Z.testbit (2 ^ 8 + 2 ^ 18) n = (n =? 8) || (n =? 18)).
    { intros n Hn. change (2 ^ 8 + 2 ^ 18) with (Z.lor (2 ^ 8) (2 ^ 18)). rewrite Z.lor_spec, !Z.pow2_bits_eqb by lia.
      by rewrite (Z.eqb_sym 8), (Z.eqb_sym 18). }
    rewrite Hb by lia. unfold SIGKILL, SIGSTOP.
    destruct (Z.eqb_spec (signo - 1) 8), (Z.eqb_spec signo 9); try lia;
    destruct (Z.eqb_spec (signo - 1) 18), (Z.eqb_spec signo 19); try lia; done. }
  rewrite Hnc. destruct (negb (signo =? SIGKILL) && negb (signo =? SIGSTOP)); cbn [negb]; [|done].
  - assert (Ht : ((if signo =? SIGTTOU then host_sigaction act.(handler) else 0) <? 0) = false)
      by (destruct (_ =? _); apply Z.ltb_ge; lia).
    rewrite Ht. by destruct old.
Qed.

(** A handler installed without SA_SIGINFO runs with only its own signal
    added to the mask: the signals of its sa_mask stay deliverable. *)
Theorem sa_mask_needs_siginfo id info act v s x :
  s.(vm_vcpus) !! id = Some v -> Z.land act.(sa_flags) SA_SIGINFO = 0 ->
  1 <= info.(si_signo) < NSIG -> 1 <= x < NSIG -> x <> info.(si_signo) ->
  km_sigismember act.(sa_mask) x = true -> km_sigismember v.(sigmask) x = false ->
  exists s' v', do_guest_handler id info act s = Ret (tt, s') /\ s'.(vm_vcpus) !! id = Some v'
    /\ km_sigismember v'.(sigmask) x = false /\ km_sigismember v'.(sigmask) info.(si_signo) = true.
Proof.
  intros Hv Hf Hi Hx Hne _ Hm. unfold do_guest_handler, bind, vcpu_get, get, modify, vcpu_put. rewrite Hv.
  do 2 eexists. split; [reflexivity|]. cbn [vm_vcpus set_vm_vcpus set_frames].
  split; [apply lookup_insert_eq|]. rewrite Hf. cbn [Z.eqb negb sigmask v_regs v_sigmask].
  rewrite km_sigismember_spec in Hm by done. rewrite !km_sigismember_spec, !km_sigaddset_spec by lia.
  rewrite Hm, Z.eqb_refl, orb_true_r. split; [|done]. cbn. apply Z.eqb_neq. lia.
Qed.

End Actions.

(** ** Snapshot notes *)
Definition recover_all (notes : list km_nt_sighand_t) (acts : gmap Z km_sigaction_t) : option (gmap Z km_sigaction_t) :=
  foldl (fun o n => a ← o; km_sig_snapshot_recover n a) (Some acts) notes.

Lemma recover_all_app n1 n2 acts : recover_all (n1 ++ n2) acts = a ← recover_all n1 acts; recover_all n2 a.
Proof.
  unfold recover_all. rewrite foldl_app. destruct (foldl _ (Some acts) n1) as [a|]; [done|]. cbn.
  induction n2 as [|n n2 IH]; [done|]. cbn. done.
Qed.

(** What is left of an action after a trip through a note. *)
Definition noted (a : km_sigaction_t) : km_sigaction_t :=
  mk_sigaction a.(handler) (u32 a.(sa_flags)) a.(restorer) (u32 a.(sa_mask)).

Definition act_at (acts : gmap Z km_sigaction_t) (signo : Z) : km_sigaction_t :=
  default sigaction_zero (acts !! km_sigindex signo).

Lemma notes_of_range acts acts0 l :
  NoDup l ->
  exists acts', recover_all (flat_map (sig_note acts) l) acts0 = Some acts'
    /\ forall i, act_at acts' i = if bool_decide (i ∈ l) && negb ((act_at acts i).(handler) =? SIG_DFL)
                                  then noted (act_at acts i) else act_at acts0 i.
Proof.
  revert acts0. induction l as [|x l IH]; intros acts0 Hnd.
  { exists acts0. split; [done|]. intros i. by rewrite bool_decide_false by apply not_elem_of_nil. }
  apply NoDup_cons in Hnd as [Hx Hnd]. cbn [flat_map]. rewrite recover_all_app.
  assert (Hstep : exists a1, recover_all (sig_note acts x) acts0 = Some a1
    /\ forall i, act_at a1 i = if (i =? x) && negb ((act_at acts x).(handler) =? SIG_DFL) then noted (act_at acts x) else act_at acts0 i).
  { unfold sig_note. fold (act_at acts x). destruct ((act_at acts x).(handler) =? SIG_DFL) eqn:E.
    - exists acts0. split; [done|]. intros i. by rewrite andb_false_r.
    - eexists. split; [reflexivity|]. intros i. rewrite andb_true_r. unfold act_at at 1, km_sigindex, note_of. cbn [nt_signo].
      destruct (Z.eqb_spec i x) as [->|]; [by rewrite lookup_insert_eq|]. by rewrite lookup_insert_ne by lia. }
  destruct Hstep as (a1 & -> & Ha1). cbn [mbind option_bind]. destruct (IH a1 Hnd) as (a2 & -> & Ha2). exists a2. split; [done|].
  intros i. rewrite Ha2, Ha1. destruct (Z.eqb_spec i x) as [->|Hne].
  - rewrite bool_decide_false, bool_decide_true by (done || (apply elem_of_cons; by left)). done.
  - assert (bool_decide (i ∈ x :: l) = bool_decide (i ∈ l)) as ->; [|done].
    apply bool_decide_ext. rewrite elem_of_cons. split; [intros [|]; done|auto].
Qed.

(** Writing the signal actions as notes and recovering them on a fresh
    machine gives back, for every signal, the handler and restorer, but only the
    low 32 bits of the mask: the note's mask field is too narrow, so a recovered
    handler no longer masks the signals above 32. *)
Theorem sig_notes_roundtrip acts : exists acts',
  recover_all (km_sig_core_notes_write acts) ∅ = Some acts'
  /\ forall signo, 1 <= signo <= NSIG ->
       act_at acts' signo = if (act_at acts signo).(handler) =? SIG_DFL then sigaction_zero else noted (act_at acts signo).
Proof.
  destruct (notes_of_range acts ∅ (seqZ 1 NSIG) (NoDup_seqZ _ _)) as (acts' & H1 & H2). exists acts'.
  split; [exact H1|]. intros i Hi. rewrite H2, bool_decide_true by (rewrite elem_of_seqZ; lia). cbn [andb].
  by destruct (_ =? SIG_DFL).
Qed.
