(* ===== verification/SignalWitness.v ===== *)
(** * Signals: a concrete machine

    Two vcpus, one of which waits for signals, in an environment with the frame
    layout of x86-64 Linux.  The hypotheses of the signal theorems hold here, and
    the whole life of a sigsuspend is run through. *)
From S2P Require Import Prelude Signal SignalProps SignalSpec.

Definition linux_env : SignalEnv := {|
  sizeof_frame := 1136;
  off_info := 976;
  off_ucontext := 8;
  fpstate_size := 832;
  stack_adjustment := fun _ => 0;
  km_sigreturn_gva := 0x7fffffc000;
  dump_core_ok := fun _ => true;
  guest_gva_ok := fun a => 0x200000 <=? a;
  host_kill := fun _ _ => 0;
  host_sigaction := fun _ => 0;
  fp_save_ok := true;
  fp_restore_ok := true;
|}.
#[local] Existing Instance linux_env.

Definition SIGUSR1 : Z := 10.
Definition SIGUSR2 : Z := 12.
Definition info_of (signo : Z) : siginfo_t := mk_siginfo signo SI_USER 0.
Definition act_usr1 : km_sigaction_t := mk_sigaction 0x401000 SA_RESTORER 0x402000 (sigbit SIGUSR2).

Definition vcpu_at (id mask : Z) (pending : list siginfo_t) : km_vcpu_t :=
  mk_vcpu id HYPERCALL mask 0 false pending false
    (mk_regs 1 2 3 4 5 6 0x7fffff0000 8 9 10 11 12 13 14 15 16 0x400100 2) (mk_stack 0 0 0) 0 77 99.

(** [free] entries, [pending] for vcpu 0, vcpu 1 waiting when [waits]. *)
Definition two_vcpus (free : nat) (mask : Z) (pending : list siginfo_t) (waits : bool) : sig_machine :=
  mk_sm free [] {[km_sigindex SIGUSR1 := act_usr1]} {[0 := vcpu_at 0 mask pending; 1 := vcpu_at 1 0 []]}
    (if waits then [1] else []) [] ∅ 42 [].

Lemma signal_entries_conserved_witness :
  let s := two_vcpus 8 0 [] false in
  exists s', sig_steps s s' /\ length s'.(vm_sigpending) = 1%nat /\ pool s' = NSIGENTRY.
Proof.
  set (s := two_vcpus 8 0 [] false). cbv zeta.
  assert (Hst : exists s', run_sig_op (Op_kill 0 SIGUSR1) s = Ret (tt, s') /\ length s'.(vm_sigpending) = 1%nat)
    by (eexists; split; vm_compute; reflexivity).
  destruct Hst as (s' & Hst & Hl). exists s'.
  assert (Hss : sig_steps s s') by (eapply ss_step; [apply ss_refl|exact Hst]).
  split; [exact Hss|]. split; [exact Hl|].
  refine (proj1 (signal_entries_conserved s s' _ _ Hss)); [vm_compute; reflexivity|split; vm_compute; reflexivity].
Defined.

Lemma km_dequeue_signal_spec_witness :
  let s := two_vcpus 6 (sigbit SIGUSR2) [info_of SIGUSR2; info_of SIGUSR1] false in
  km_dequeue_signal 0 s = Ret (Some (info_of SIGUSR1), set_sigfree 7 (put_queue (Some 0) [info_of SIGUSR2] s))
  /\ exists r s', km_dequeue_signal 0 s = Ret (r, s') /\ r <> None.
Proof.
  intros s. assert (E : km_dequeue_signal 0 s = Ret (Some (info_of SIGUSR1), set_sigfree 7 (put_queue (Some 0) [info_of SIGUSR2] s)))
    by (vm_compute; reflexivity).
  split; [exact E|]. destruct (km_dequeue_signal_spec 0 (vcpu_at 0 (sigbit SIGUSR2) [info_of SIGUSR2; info_of SIGUSR1]) s eq_refl)
    as (r & s' & H1 & _). exists r, s'. split; [exact H1|]. rewrite E in H1. congruence.
Defined.

Lemma km_rt_sigprocmask_spec_witness :
  let s := two_vcpus 8 5 [] false in
  is_u64 6 /\ km_rt_sigprocmask 0 SIG_BLOCK (Some 6) true 8 s
  = Ret ((0, Some 5), set_vm_vcpus (<[0 := v_sigmask 7 (vcpu_at 0 5 [])]> s.(vm_vcpus)) s).
Proof.
  intros s. assert (H6 : is_u64 6) by (unfold is_u64, two64; lia). split; [exact H6|].
  exact (km_rt_sigprocmask_spec 0 SIG_BLOCK 6 true 8 (vcpu_at 0 5 []) s eq_refl H6).
Defined.

(** The machine while the handler of SIGUSR1 runs, and the vcpu at its return. *)
Definition in_handler : sig_machine :=
  match do_guest_handler 0 (info_of SIGUSR1) act_usr1 (two_vcpus 8 0 [] false) with
  | Ret (_, s) => s
  | _ => two_vcpus 8 0 [] false
  end.
Definition handler_gva : Z := sframe_gva (vcpu_at 0 0 []) act_usr1.
Definition at_return : km_vcpu_t :=
  v_regs (mk_regs 0 0 0 0 0 0 (handler_gva + 8) 0 0 0 0 0 0 0 0 0 0x402000 0) (vcpu_at 0 (sigbit SIGUSR1) []).
Definition returning : sig_machine := set_vm_vcpus (<[0 := at_return]> in_handler.(vm_vcpus)) in_handler.

Lemma handler_sigreturn_roundtrip_witness :
  exists s3 v3, km_rt_sigreturn 0 returning = Ret (tt, s3) /\ s3.(vm_vcpus) !! 0 = Some v3
    /\ v3.(regs) = (vcpu_at 0 0 []).(regs) /\ v3.(sigmask) = 0.
Proof.
  destruct (handler_sigreturn_roundtrip 0 (info_of SIGUSR1) act_usr1 (vcpu_at 0 0 []) (two_vcpus 8 0 [] false)
              in_handler returning at_return) as (s3 & v3 & H1 & H2 & H3 & H4 & _).
  - reflexivity.
  - vm_compute. reflexivity.
  - split; vm_compute; reflexivity.
  - reflexivity.
  - reflexivity.
  - exact (ex_intro _ s3 (ex_intro _ v3 (conj H1 (conj H2 (conj H3 H4))))).
Defined.

Lemma sframe_placement_witness :
  (sframe_gva (vcpu_at 0 0 []) act_usr1 + 8) mod 16 = 0.
Proof.
  apply (sframe_placement (vcpu_at 0 0 []) act_usr1).
  - vm_compute. discriminate.
  - intros _. split; vm_compute; [discriminate|reflexivity].
  - intros Hb. vm_compute in Hb. discriminate.
Defined.

Lemma km_post_signal_diverted_witness :
  exists s', km_post_signal (Some 0) (info_of SIGUSR1) (two_vcpus 8 0 [] true) = Ret (tt, s')
    /\ queue_of (Some 1) s' = Some [info_of SIGUSR1] /\ queue_of (Some 0) s' = Some [].
Proof.
  destruct (km_post_signal_diverted 0 1 [] (vcpu_at 1 0 []) (vcpu_at 0 0 []) (info_of SIGUSR1) (two_vcpus 8 0 [] true) 7)
    as (s' & H1 & H2 & H3 & _); try reflexivity; [discriminate|].
  exact (ex_intro _ s' (conj H1 (conj H2 H3))).
Defined.

Lemma km_post_signal_exhausted_witness :
  km_post_signal (Some 0) (info_of 34) (two_vcpus 0 (sigbit 34) (replicate 8 (info_of 34)) false) = Abort.
Proof.
  apply (km_post_signal_exhausted (Some 0) (info_of 34)).
  - reflexivity.
  - vm_compute. discriminate.
  - intros id [= <-]. exact (ex_intro _ _ eq_refl).
Defined.

Lemma km_rt_sigsuspend_stays_queued_witness :
  exists s', km_rt_sigsuspend 0 0 8 (two_vcpus 7 (sigbit SIGUSR1) [info_of SIGUSR1] false) = Ret (Some (neg_errno EINTR), s')
    /\ 0 ∈ s'.(km_signal_wait_queue).
Proof.
  apply (km_rt_sigsuspend_stays_queued 0 0 (vcpu_at 0 (sigbit SIGUSR1) [info_of SIGUSR1])
           (two_vcpus 7 (sigbit SIGUSR1) [info_of SIGUSR1] false) (info_of SIGUSR1) []);
    [reflexivity|reflexivity|discriminate].
Defined.

Lemma km_rt_sigaction_spec_witness :
  km_rt_sigaction SIGUSR1 (Some sigaction_zero) true 8 (two_vcpus 8 0 [] false)
  = Ret ((0, Some act_usr1), set_sigactions (<[9 := sigaction_zero]> {[9 := act_usr1]}) (two_vcpus 8 0 [] false)).
Proof.
  refine (km_rt_sigaction_spec SIGUSR1 sigaction_zero true 8 (two_vcpus 8 0 [] false) _).
  vm_compute. discriminate.
Defined.

Lemma sa_mask_needs_siginfo_witness :
  exists s' v', do_guest_handler 0 (info_of SIGUSR1) act_usr1 (two_vcpus 8 0 [] false) = Ret (tt, s')
    /\ s'.(vm_vcpus) !! 0 = Some v' /\ km_sigismember v'.(sigmask) SIGUSR2 = false.
Proof.
  destruct (sa_mask_needs_siginfo 0 (info_of SIGUSR1) act_usr1 (vcpu_at 0 0 []) (two_vcpus 8 0 [] false) SIGUSR2)
    as (s' & v' & H1 & H2 & H3 & _); try reflexivity; try (unfold NSIG, SIGUSR1, SIGUSR2, info_of; cbn; lia).
  exact (ex_intro _ s' (ex_intro _ v' (conj H1 (conj H2 H3)))).
Defined.

(** ** A sigsuspend from its call to the return of the handler *)

(** The guest's handler runs with the whole machine in its hands; all it does here
    is to return to the restorer, which makes the sigreturn call. *)
Definition handler_returns (id : Z) : M sig_machine unit :=
  vcpu_upd id (fun v =>
    let r := v.(regs) in
    v_regs (mk_regs r.(rax) r.(rbx) r.(rcx) r.(rdx) r.(rsi) r.(rdi) (r.(rsp) +u 8) r.(rbp) r.(r8) r.(r9) r.(r10)
              r.(r11) r.(r12) r.(r13) r.(r14) r.(r15) act_usr1.(restorer) r.(rflags)) v).

(** Vcpu 0 blocks SIGUSR1 and calls sigsuspend with the empty mask; SIGUSR1 arrives
    and its handler runs and returns. *)
Definition sigsuspend_run : M sig_machine (Z * Z) :=
  let* r := km_rt_sigsuspend 0 km_sigemptyset sizeof_sigset in
  km_assert (match r with None => true | Some _ => false end) ;;;
  km_post_signal None (info_of SIGUSR1) ;;;
  let* r := km_rt_sigsuspend_loop 0 in
  km_assert (match r with Some _ => true | None => false end) ;;;
  let* d := vcpu_run_signals 0 in
  let* v1 := vcpu_get 0 in
  handler_returns 0 ;;;
  km_rt_sigreturn 0 ;;;
  let* v2 := vcpu_get 0 in
  ret (v1.(sigmask), v2.(sigmask)).

(** Sigsuspend does not give the thread its mask back: the mask is reverted
    when the handler is entered, so that the handler runs without its own signal
    added by the delivery but with what the caller had blocked, and the handler's
    return then installs the temporary mask of the sigsuspend, which was live when
    the frame was built. *)
Theorem sigsuspend_mask_not_restored :
  exists s, sigsuspend_run (two_vcpus 8 (sigbit SIGUSR1) [] false) = Ret ((sigbit SIGUSR1, km_sigemptyset), s).
Proof. eexists. vm_compute. reflexivity. Qed.
