(* ===== verification/Decode.v ===== *)
(** * Decoding the instruction that faulted (km_decode.c)

    When the hypervisor refuses an access to guest memory it does not say which
    address was touched; the monitor decodes the instruction at the guest's program
    counter and computes the address for the siginfo of the SIGSEGV.  The decoder
    works on one x86_instruction_t, threaded here through the state monad; reading
    an instruction byte goes through km_gva_to_kma, a byte that cannot be read is
    reported as the failing address itself.  Dereferencing NULL is [abort]. *)
From S2P Require Import Prelude Machine MemGeom MmapRegion MmapGuest Signal.

Record x86_instruction := mk_ins {
  failed_addr : Z;
  curip : Z;
  curbyte : Z;
  ins_prefix : Z;
  rex_present : Z;
  rex_w : Z;
  rex_r : Z;
  rex_x : Z;
  rex_b : Z;
  opcode_present : Z;
  opcode : Z;
  modrm_present : Z;
  modrm_mode : Z;
  modrm_reg : Z;
  modrm_rm : Z;
  sib_present : Z;
  sib_scale : Z;
  sib_index : Z;
  sib_base : Z;
  disp : Z
}.

Definition set_failed_addr (x : Z) (i : x86_instruction) : x86_instruction :=
  mk_ins x i.(curip) i.(curbyte) i.(ins_prefix) i.(rex_present) i.(rex_w) i.(rex_r) i.(rex_x) i.(rex_b) i.(opcode_present) i.(opcode) i.(modrm_present) i.(modrm_mode) i.(modrm_reg) i.(modrm_rm) i.(sib_present) i.(sib_scale) i.(sib_index) i.(sib_base) i.(disp).
Definition set_curip (x : Z) (i : x86_instruction) : x86_instruction :=
  mk_ins i.(failed_addr) x i.(curbyte) i.(ins_prefix) i.(rex_present) i.(rex_w) i.(rex_r) i.(rex_x) i.(rex_b) i.(opcode_present) i.(opcode) i.(modrm_present) i.(modrm_mode) i.(modrm_reg) i.(modrm_rm) i.(sib_present) i.(sib_scale) i.(sib_index) i.(sib_base) i.(disp).
Definition set_curbyte (x : Z) (i : x86_instruction) : x86_instruction :=
  mk_ins i.(failed_addr) i.(curip) x i.(ins_prefix) i.(rex_present) i.(rex_w) i.(rex_r) i.(rex_x) i.(rex_b) i.(opcode_present) i.(opcode) i.(modrm_present) i.(modrm_mode) i.(modrm_reg) i.(modrm_rm) i.(sib_present) i.(sib_scale) i.(sib_index) i.(sib_base) i.(disp).
Definition set_ins_prefix (x : Z) (i : x86_instruction) : x86_instruction :=
  mk_ins i.(failed_addr) i.(curip) i.(curbyte) x i.(rex_present) i.(rex_w) i.(rex_r) i.(rex_x) i.(rex_b) i.(opcode_present) i.(opcode) i.(modrm_present) i.(modrm_mode) i.(modrm_reg) i.(modrm_rm) i.(sib_present) i.(sib_scale) i.(sib_index) i.(sib_base) i.(disp).
Definition set_rex_w (x : Z) (i : x86_instruction) : x86_instruction :=
  mk_ins i.(failed_addr) i.(curip) i.(curbyte) i.(ins_prefix) i.(rex_present) x i.(rex_r) i.(rex_x) i.(rex_b) i.(opcode_present) i.(opcode) i.(modrm_present) i.(modrm_mode) i.(modrm_reg) i.(modrm_rm) i.(sib_present) i.(sib_scale) i.(sib_index) i.(sib_base) i.(disp).
Definition set_rex_r (x : Z) (i : x86_instruction) : x86_instruction :=
  mk_ins i.(failed_addr) i.(curip) i.(curbyte) i.(ins_prefix) i.(rex_present) i.(rex_w) x i.(rex_x) i.(rex_b) i.(opcode_present) i.(opcode) i.(modrm_present) i.(modrm_mode) i.(modrm_reg) i.(modrm_rm) i.(sib_present) i.(sib_scale) i.(sib_index) i.(sib_base) i.(disp).
Definition set_rex_x (x : Z) (i : x86_instruction) : x86_instruction :=
  mk_ins i.(failed_addr) i.(curip) i.(curbyte) i.(ins_prefix) i.(rex_present) i.(rex_w) i.(rex_r) x i.(rex_b) i.(opcode_present) i.(opcode) i.(modrm_present) i.(modrm_mode) i.(modrm_reg) i.(modrm_rm) i.(sib_present) i.(sib_scale) i.(sib_index) i.(sib_base) i.(disp).
Definition set_rex_b (x : Z) (i : x86_instruction) : x86_instruction :=
  mk_ins i.(failed_addr) i.(curip) i.(curbyte) i.(ins_prefix) i.(rex_present) i.(rex_w) i.(rex_r) i.(rex_x) x i.(opcode_present) i.(opcode) i.(modrm_present) i.(modrm_mode) i.(modrm_reg) i.(modrm_rm) i.(sib_present) i.(sib_scale) i.(sib_index) i.(sib_base) i.(disp).
Definition set_opcode_present (x : Z) (i : x86_instruction) : x86_instruction :=
  mk_ins i.(failed_addr) i.(curip) i.(curbyte) i.(ins_prefix) i.(rex_present) i.(rex_w) i.(rex_r) i.(rex_x) i.(rex_b) x i.(opcode) i.(modrm_present) i.(modrm_mode) i.(modrm_reg) i.(modrm_rm) i.(sib_present) i.(sib_scale) i.(sib_index) i.(sib_base) i.(disp).
Definition set_opcode (x : Z) (i : x86_instruction) : x86_instruction :=
  mk_ins i.(failed_addr) i.(curip) i.(curbyte) i.(ins_prefix) i.(rex_present) i.(rex_w) i.(rex_r) i.(rex_x) i.(rex_b) i.(opcode_present) x i.(modrm_present) i.(modrm_mode) i.(modrm_reg) i.(modrm_rm) i.(sib_present) i.(sib_scale) i.(sib_index) i.(sib_base) i.(disp).
Definition set_modrm_present (x : Z) (i : x86_instruction) : x86_instruction :=
  mk_ins i.(failed_addr) i.(curip) i.(curbyte) i.(ins_prefix) i.(rex_present) i.(rex_w) i.(rex_r) i.(rex_x) i.(rex_b) i.(opcode_present) i.(opcode) x i.(modrm_mode) i.(modrm_reg) i.(modrm_rm) i.(sib_present) i.(sib_scale) i.(sib_index) i.(sib_base) i.(disp).
Definition set_modrm_mode (x : Z) (i : x86_instruction) : x86_instruction :=
  mk_ins i.(failed_addr) i.(curip) i.(curbyte) i.(ins_prefix) i.(rex_present) i.(rex_w) i.(rex_r) i.(rex_x) i.(rex_b) i.(opcode_present) i.(opcode) i.(modrm_present) x i.(modrm_reg) i.(modrm_rm) i.(sib_present) i.(sib_scale) i.(sib_index) i.(sib_base) i.(disp).
Definition set_modrm_reg (x : Z) (i : x86_instruction) : x86_instruction :=
  mk_ins i.(failed_addr) i.(curip) i.(curbyte) i.(ins_prefix) i.(rex_present) i.(rex_w) i.(rex_r) i.(rex_x) i.(rex_b) i.(opcode_present) i.(opcode) i.(modrm_present) i.(modrm_mode) x i.(modrm_rm) i.(sib_present) i.(sib_scale) i.(sib_index) i.(sib_base) i.(disp).
Definition set_modrm_rm (x : Z) (i : x86_instruction) : x86_instruction :=
  mk_ins i.(failed_addr) i.(curip) i.(curbyte) i.(ins_prefix) i.(rex_present) i.(rex_w) i.(rex_r) i.(rex_x) i.(rex_b) i.(opcode_present) i.(opcode) i.(modrm_present) i.(modrm_mode) i.(modrm_reg) x i.(sib_present) i.(sib_scale) i.(sib_index) i.(sib_base) i.(disp).
Definition set_sib_present (x : Z) (i : x86_instruction) : x86_instruction :=
  mk_ins i.(failed_addr) i.(curip) i.(curbyte) i.(ins_prefix) i.(rex_present) i.(rex_w) i.(rex_r) i.(rex_x) i.(rex_b) i.(opcode_present) i.(opcode) i.(modrm_present) i.(modrm_mode) i.(modrm_reg) i.(modrm_rm) x i.(sib_scale) i.(sib_index) i.(sib_base) i.(disp).
Definition set_sib_scale (x : Z) (i : x86_instruction) : x86_instruction :=
  mk_ins i.(failed_addr) i.(curip) i.(curbyte) i.(ins_prefix) i.(rex_present) i.(rex_w) i.(rex_r) i.(rex_x) i.(rex_b) i.(opcode_present) i.(opcode) i.(modrm_present) i.(modrm_mode) i.(modrm_reg) i.(modrm_rm) i.(sib_present) x i.(sib_index) i.(sib_base) i.(disp).
Definition set_sib_index (x : Z) (i : x86_instruction) : x86_instruction :=
  mk_ins i.(failed_addr) i.(curip) i.(curbyte) i.(ins_prefix) i.(rex_present) i.(rex_w) i.(rex_r) i.(rex_x) i.(rex_b) i.(opcode_present) i.(opcode) i.(modrm_present) i.(modrm_mode) i.(modrm_reg) i.(modrm_rm) i.(sib_present) i.(sib_scale) x i.(sib_base) i.(disp).
Definition set_sib_base (x : Z) (i : x86_instruction) : x86_instruction :=
  mk_ins i.(failed_addr) i.(curip) i.(curbyte) i.(ins_prefix) i.(rex_present) i.(rex_w) i.(rex_r) i.(rex_x) i.(rex_b) i.(opcode_present) i.(opcode) i.(modrm_present) i.(modrm_mode) i.(modrm_reg) i.(modrm_rm) i.(sib_present) i.(sib_scale) i.(sib_index) x i.(disp).
Definition set_disp (x : Z) (i : x86_instruction) : x86_instruction :=
  mk_ins i.(failed_addr) i.(curip) i.(curbyte) i.(ins_prefix) i.(rex_present) i.(rex_w) i.(rex_r) i.(rex_x) i.(rex_b) i.(opcode_present) i.(opcode) i.(modrm_present) i.(modrm_mode) i.(modrm_reg) i.(modrm_rm) i.(sib_present) i.(sib_scale) i.(sib_index) i.(sib_base) x.

(** ** Opcode tables, each with its end marker *)
Definition x86_3byte_0_38_w : list Z :=
  [0xc8; 0xc9; 0xca; 0xcb; 0xcc; 0xcd; 0].

Definition x86_3byte_0_3a_w : list Z :=
  [0xcc; 0].

Definition x86_3byte_66_38_w : list Z :=
  [0x01; 0x02; 0x03; 0x04; 0x05; 0x06; 0x07; 0x08; 0x09; 0x0a; 0x0b; 0x0c; 0x0d; 0x0e; 0x0f; 0x10; 0x13;
   0x14; 0x15; 0x16; 0x17; 0x28; 0x29; 0x2b; 0x36; 0x37; 0x38; 0x39; 0x3a; 0x3b; 0x3c; 0x3d; 0x3e; 0x3f;
   0x40; 0x41; 0x45; 0x46; 0x47; 0x58; 0x59; 0x5a; 0x78; 0x79; 0x90; 0x91; 0x92; 0x93; 0x96; 0x97; 0x98;
   0x99; 0x9a; 0x9b; 0x9c; 0x9d; 0x9e; 0x9f; 0xa6; 0xa7; 0xa8; 0xa9; 0xaa; 0xab; 0xac; 0xad; 0xae; 0xaf;
   0xb6; 0xb7; 0xb8; 0xb9; 0xba; 0xbb; 0xbc; 0xbd; 0xbe; 0xbf; 0xdb; 0xdc; 0xdd; 0xde; 0xdf; 0].

Definition x86_3byte_66_3a_w : list Z :=
  [0x01; 0x02; 0x04; 0x05; 0x06; 0x08; 0x09; 0x0a; 0x0b; 0x0c; 0x0d; 0x0e; 0x0f; 0x18; 0x19; 0x1d; 0x38;
   0x39; 0x40; 0x41; 0x42; 0x44; 0x46; 0x4a; 0x4b; 0x4c; 0x60; 0x61; 0x62; 0x63; 0xdf; 0].

Definition x86_2byte_0_w : list Z :=
  [0x14; 0x15; 0x28; 0x29; 0x2c; 0x2d; 0x2e; 0x2f; 0x51; 0x52; 0x53; 0x54; 0x55; 0x56; 0x57; 0x58; 0x59;
   0x5a; 0x5b; 0x5c; 0x5d; 0x5e; 0x5f; 0xc2; 0xc6; 0].

Definition x86_2byte_66_w : list Z :=
  [0x10; 0x11; 0x14; 0x28; 0x29; 0x2c; 0x2d; 0x2e; 0x2f; 0x15; 0x51; 0x54; 0x55; 0x56; 0x57; 0x58; 0x59;
   0x5a; 0x5b; 0x5c; 0x5d; 0x5e; 0x5f; 0x60; 0x61; 0x62; 0x63; 0x64; 0x65; 0x66; 0x67; 0x68; 0x69; 0x6a;
   0x6b; 0x6c; 0x6d; 0x6e; 0x6f; 0x70; 0x74; 0x75; 0x77; 0x7c; 0x7d; 0x7f; 0xc2; 0xc6; 0xd0; 0xd1; 0xd2;
   0xd3; 0xd4; 0xd5; 0xd6; 0xd7; 0xd8; 0xd9; 0xda; 0xdb; 0xdc; 0xdd; 0xde; 0xdf; 0xe0; 0xe1; 0xe2; 0xe3;
   0xe4; 0xe5; 0xe6; 0xe7; 0xe8; 0xe9; 0xea; 0xeb; 0xec; 0xed; 0xee; 0xef; 0xf1; 0xf2; 0xf3; 0xf4; 0xf5;
   0xf6; 0xf8; 0xf9; 0xfa; 0xfb; 0xfc; 0xfd; 0xfe; 0].

Definition x86_2byte_f2_w : list Z :=
  [0x10; 0x11; 0x12; 0x2c; 0x2d; 0x51; 0x58; 0x59; 0x5a; 0x5c; 0x5d; 0x5e; 0x5f; 0x70; 0x7c; 0x7d; 0xd0;
   0xe6; 0].

Definition x86_2byte_f3_w : list Z :=
  [0x10; 0x11; 0x12; 0x16; 0x2c; 0x2d; 0x51; 0x52; 0x53; 0x58; 0x59; 0x5a; 0x5b; 0x5c; 0x5d; 0x5e; 0x5f;
   0x6f; 0x70; 0x7e; 0x7f; 0xe6; 0].

Definition x86_rsi_addressed : list Z :=
  [0xac; 0xad; 0].

Definition x86_rdi_addressed : list Z :=
  [0xaa; 0xab; 0xae; 0xaf; 0].

Definition x86_rsi_rdi_addressed : list Z :=
  [0xa4; 0xa5; 0xa6; 0xa7; 0].

Definition x86_rmmod_addressed : list Z :=
  [0x01; 0x02; 0x03; 0x08; 0x09; 0x0a; 0x0b; 0x10; 0x11; 0x12; 0x13; 0x18; 0x19; 0x1a; 0x1b; 0x20; 0x21;
   0x22; 0x23; 0x28; 0x29; 0x2a; 0x2b; 0x30; 0x31; 0x32; 0x33; 0x38; 0x39; 0x3a; 0x3b; 0x63; 0x69; 0x6b;
   0x84; 0x85; 0x86; 0x87; 0x88; 0x89; 0x8a; 0x8b; 0x8c; 0x8e; 0].

Definition OPCODE_MASK : Z := 0x00ff.
Definition OPCODE_GROUP_MASK : Z := 0x1f00.
Definition OPCODE_GROUP_FLAG : Z := 0x2000.
Definition OPCODE_GROUP_0 : Z := Z.lor OPCODE_GROUP_FLAG (Z.shiftl 0 8).
Definition OPCODE_GROUP_15 : Z := Z.lor OPCODE_GROUP_FLAG (Z.shiftl 15 8).
Definition OPCODE_GROUP_31 : Z := Z.lor OPCODE_GROUP_FLAG (Z.shiftl 31 8).
Definition OPCODE_MAP_END : Z := 0xffff.
Definition VEXGROUP_END : Z := 0x80.
Definition VEX_2BYTE_PREFIX : Z := 0xc5.
Definition VEX_3BYTE_PREFIX : Z := 0xc4.
Definition XOP_PREFIX : Z := 0x8f.

Definition vexgroup_15 : list Z :=
  [0x02; 0x03; VEXGROUP_END].

Definition vex_map1 : list Z :=
  [0x10; 0x11; 0x12; 0x13; 0x14; 0x15; 0x16; 0x17; 0x28; 0x29; 0x2a; 0x2b; 0x2c; 0x2d; 0x2e; 0x2f; 0x51;
   0x52; 0x53; 0x54; 0x55; 0x56; 0x57; 0x58; 0x59; 0x5a; 0x5b; 0x5c; 0x5d; 0x5e; 0x5f; 0x60; 0x61; 0x62;
   0x63; 0x64; 0x65; 0x66; 0x67; 0x68; 0x69; 0x6a; 0x6b; 0x6c; 0x6d; 0x6e; 0x6f; 0x70; 0x74; 0x75; 0x76;
   0x7c; 0x7d; 0x7e; 0x7f; Z.lor OPCODE_GROUP_15 0xae; 0xc2; 0xc4; 0xc6; 0xd0; 0xd1; 0xd2; 0xd3; 0xd4;
   0xd5; 0xd8; 0xd9; 0xda; 0xdb; 0xdc; 0xdd; 0xde; 0xdf; 0xe0; 0xe1; 0xe2; 0xe3; 0xe4; 0xe5; 0xe6; 0xe8;
   0xe9; 0xea; 0xeb; 0xec; 0xed; 0xee; 0xef; 0xf0; 0xf1; 0xf2; 0xf3; 0xf4; 0xf5; 0xf6; 0xf7; 0xf8; 0xf9;
   0xfa; 0xfb; 0xfc; 0xfd; 0xfe; OPCODE_MAP_END].

Definition vex_map2 : list Z :=
  [0x00; 0x01; 0x02; 0x03; 0x04; 0x05; 0x06; 0x07; 0x08; 0x09; 0x0a; 0x0b; 0x0c; 0x0d; 0x0e; 0x0f; 0x13;
   0x16; 0x17; 0x18; 0x19; 0x1a; 0x1c; 0x1d; 0x1e; 0x20; 0x21; 0x22; 0x23; 0x24; 0x25; 0x28; 0x29; 0x2a;
   0x2b; 0x2c; 0x2d; 0x2e; 0x2f; 0x30; 0x31; 0x32; 0x33; 0x34; 0x35; 0x37; 0x38; 0x39; 0x3a; 0x3b; 0x3c;
   0x3d; 0x3e; 0x3f; 0x40; 0x41; 0x58; 0x59; 0x5a; 0x78; 0x79; 0x7a; 0x8c; 0x8e; 0x90; 0x91; 0x92; 0x93;
   0x96; 0x97; 0x98; 0x99; 0x9a; 0x9b; 0x9c; 0x9d; 0x9e; 0x9f; 0xa6; 0xa7; 0xa8; 0xa9; 0xaa; 0xab; 0xac;
   0xad; 0xae; 0xaf; 0xb6; 0xb7; 0xb8; 0xb9; 0xba; 0xbb; 0xbc; 0xbd; 0xbe; 0xbf; 0xdb; 0xdc; 0xdd; 0xde;
   0xdf; 0xf2; 0xf5; 0xf6; 0xf7; OPCODE_MAP_END].

Definition vex_map3 : list Z :=
  [0x00; 0x01; 0x02; 0x04; 0x05; 0x06; 0x08; 0x09; 0x0a; 0x0b; 0x0c; 0x0d; 0x0e; 0x0f; 0x14; 0x15; 0x16;
   0x17; 0x18; 0x19; 0x1d; 0x20; 0x21; 0x22; 0x38; 0x39; 0x40; 0x41; 0x42; 0x44; 0x46; 0x48; 0x49; 0x4a;
   0x4b; 0x4c; 0x5c; 0x5d; 0x5e; 0x5f; 0x60; 0x61; 0x62; 0x63; 0x78; 0x79; 0x7a; 0x7b; 0x7c; 0x7d; 0x7e;
   0x7f; 0xdf; 0xf0; OPCODE_MAP_END].

(** The 32 maps and groups; [None] is a null pointer. *)
Definition vex_maps (i : Z) : option (list Z) :=
  if i =? 1 then Some vex_map1 else if i =? 2 then Some vex_map2 else if i =? 3 then Some vex_map3 else None.
Definition xop_maps (i : Z) : option (list Z) := None.
Definition vex_groups (i : Z) : option (list Z) := if i =? 15 then Some vexgroup_15 else None.
Definition xop_groups (i : Z) : option (list Z) := None.

Fixpoint decode_in_list (opcode : Z) (oplist : list Z) : bool :=
  match oplist with
  | [] => false
  | b :: rest => if b =? 0 then false else if opcode =? b then true else decode_in_list opcode rest
  end.

Fixpoint find_opcode_in_map (map : list Z) (opcode : Z) : Z :=
  match map with
  | [] => OPCODE_MAP_END
  | p :: rest => if p =? OPCODE_MAP_END then p
                 else if Z.land p 0xff =? opcode then p else find_opcode_in_map rest opcode
  end.

(** ** The decoder

    [mem] is the monitor's memory by address, [r] the registers read from the
    vcpu, [guest] and [dynlinker] the loaded programs, and [past_group] the bytes
    that happen to follow the array vexgroup_15 in the monitor's image. *)
Section Decode.
  Context (m : machine) (mem : Z -> Z) (guest dynlinker : km_payload) (past_group : list Z) (r : kvm_regs_t).

Definition D := M x86_instruction.

Definition decode_get_byte : D unit :=
  let* ins := get in
  match km_gva_to_kma m ins.(curip) with
  | None => modify (set_failed_addr ins.(curip))
  | Some pc => modify (set_curbyte (mem pc))
  end.

Definition decode_consume_byte : D unit :=
  modify (fun ins => set_curip (ins.(curip) +u 1) ins) ;;;
  decode_get_byte.

(** [if (ins->failed_addr != 0) return] before [k]. *)
Definition unless_failed (k : D unit) : D unit :=
  let* ins := get in if ins.(failed_addr) =? 0 then k else ret tt.

(** The value of the register pointed to; [None] is the NULL result. *)
Definition km_reg_ptr (b reg : Z) : option Z :=
  if b =? 0 then
    if reg =? 0 then Some r.(rax) else if reg =? 1 then Some r.(rcx)
    else if reg =? 2 then Some r.(rdx) else if reg =? 3 then Some r.(rbx)
    else if reg =? 4 then Some r.(rsp) else if reg =? 5 then Some r.(rbp)
    else if reg =? 6 then Some r.(rsi) else if reg =? 7 then Some r.(rdi) else None
  else if b =? 1 then
    if reg =? 0 then Some r.(r8) else if reg =? 1 then Some r.(r9)
    else if reg =? 2 then Some r.(r10) else if reg =? 3 then Some r.(r11)
    else if reg =? 4 then Some r.(r12) else if reg =? 5 then Some r.(r13)
    else if reg =? 6 then Some r.(r14) else if reg =? 7 then Some r.(r15) else None
  else None.

Definition deref {A} (p : option A) : D A := match p with Some x => ret x | None => abort end.

(** The bytes the switch takes for prefixes. *)
Definition legacy_prefix (b : Z) : bool :=
  existsb (Z.eqb b)
    [0x26; 0x2e; 0x36; 0x3e; 0x66; 0x67; 0x80; 0x81; 0x82; 0x83; 0x8f; 0xc0; 0xc1; 0xc6; 0xc7;
     0xd0; 0xd1; 0xd2; 0xd3; 0xf0; 0xf2; 0xf3; 0xf6; 0xf7; 0xfe; 0xff].

Fixpoint decode_legacy_prefixes (fuel : nat) : D unit :=
  match fuel with
  | O => fun _ => NoFuel
  | S fuel' =>
      let* ins := get in
      if legacy_prefix ins.(curbyte) then
        modify (set_ins_prefix ins.(curbyte)) ;;;
        decode_consume_byte ;;;
        unless_failed (decode_legacy_prefixes fuel')
      else ret tt
  end.

Definition decode_rex_prefix : D unit :=
  let* ins := get in
  if negb (Z.land ins.(curbyte) 0xf0 =? 0x40) then ret tt
  else
    (if negb (Z.land ins.(curbyte) 0x08 =? 0) then modify (set_rex_w 1) else ret tt) ;;;
    (if negb (Z.land ins.(curbyte) 0x04 =? 0) then modify (set_rex_r 1) else ret tt) ;;;
    (if negb (Z.land ins.(curbyte) 0x02 =? 0) then modify (set_rex_x 1) else ret tt) ;;;
    (if negb (Z.land ins.(curbyte) 0x01 =? 0) then modify (set_rex_b 1) else ret tt) ;;;
    decode_consume_byte.

Definition decode_modrm : D unit :=
  let* ins := get in
  modify (set_modrm_present 1) ;;;
  modify (set_modrm_mode (Z.land (Z.shiftr ins.(curbyte) 6) 0x03)) ;;;
  modify (set_modrm_reg (Z.land (Z.shiftr ins.(curbyte) 3) 0x07)) ;;;
  modify (set_modrm_rm (Z.land ins.(curbyte) 0x07)).

Definition decode_sib : D unit :=
  let* ins := get in
  modify (set_sib_present 1) ;;;
  modify (set_sib_scale (Z.land (Z.shiftr ins.(curbyte) 6) 0x03)) ;;;
  modify (set_sib_index (Z.land (Z.shiftr ins.(curbyte) 3) 0x07)) ;;;
  modify (set_sib_base (Z.land ins.(curbyte) 0x07)).

(** Conversions to char and int32_t. *)
Definition s8 (x : Z) : Z := if x <? 128 then x else x - 256.
Definition s32 (x : Z) : Z := if x <? 2 ^ 31 then x else x - 2 ^ 32.

(** Four bytes in memory order read as a uint32_t. *)
Definition le_value (bytes : list Z) : Z := foldr (fun b v => b + 256 * v) 0 bytes.

(** The loop over the bytes of disp32; [None] when a byte cannot be read. *)
Fixpoint read_disp (n : nat) (acc : list Z) : D (option (list Z)) :=
  match n with
  | O => ret (Some acc)
  | S n' =>
      let* ins := get in
      decode_consume_byte ;;;
      let* ins' := get in
      if ins'.(failed_addr) =? 0 then read_disp n' (acc ++ [ins.(curbyte)]) else ret None
  end.

(** The part of find_modrm_fault after the displacement. *)
Definition modrm_address : D unit :=
  let* ins := get in
  if ins.(sib_present) =? 0 then
    let* reg := deref (km_reg_ptr ins.(rex_b) ins.(modrm_rm)) in
    modify (set_failed_addr (reg +u ins.(disp)))
  else
    let basep := km_reg_ptr ins.(rex_b) ins.(sib_base) in
    if (ins.(rex_x) =? 0) && (ins.(sib_index) =? 4) then
      let* base := deref basep in
      modify (set_failed_addr (base +u ins.(disp)))
    else
      let scale := Z.shiftl 1 ins.(sib_scale) in
      let* base := deref basep in
      let* index := deref (km_reg_ptr ins.(rex_x) ins.(sib_index)) in
      modify (set_failed_addr (u64 (base + index * scale + ins.(disp)))).

Definition find_modrm_fault : D unit :=
  unless_failed (
    let* ins := get in
    if ins.(modrm_mode) =? 0x03 then ret tt
    else
      (if ins.(modrm_rm) =? 0x04 then decode_sib ;;; decode_consume_byte else ret tt) ;;;
      unless_failed (
        let* ins := get in
        if ins.(modrm_mode) =? 0 then modify (set_disp 0) ;;; modrm_address
        else if ins.(modrm_mode) =? 1 then
          modify (set_disp (s8 ins.(curbyte))) ;;;
          decode_consume_byte ;;;
          unless_failed modrm_address
        else if ins.(modrm_mode) =? 2 then
          let* bytes := read_disp 4 [] in
          match bytes with
          | Some bytes => modify (set_disp (s32 (le_value bytes))) ;;; modrm_address
          | None => ret tt
          end
        else ret tt)).

Definition decode_3byte_opcode (prevop : Z) : D unit :=
  let* ins := get in
  let op := ins.(curbyte) in
  modify (set_opcode_present 1) ;;;
  modify (set_opcode op) ;;;
  decode_consume_byte ;;;
  if (ins.(ins_prefix) =? 0x66) && (op =? 0) then find_modrm_fault
  else
    let oplist :=
      if ins.(ins_prefix) =? 0 then Some (if prevop =? 0x38 then x86_3byte_0_38_w else x86_3byte_0_3a_w)
      else if ins.(ins_prefix) =? 0x66 then Some (if prevop =? 0x38 then x86_3byte_66_38_w else x86_3byte_66_3a_w)
      else None in
    match oplist with
    | None => ret tt
    | Some l => if decode_in_list op l then find_modrm_fault else ret tt
    end.

Definition decode_multibyte_opcode : D unit :=
  let* ins := get in
  let op := ins.(curbyte) in
  modify (set_opcode_present 1) ;;;
  modify (set_opcode op) ;;;
  decode_consume_byte ;;;
  if (op =? 0x38) || (op =? 0x3a) then decode_3byte_opcode op
  else
    let oplist :=
      if ins.(ins_prefix) =? 0 then Some x86_2byte_0_w
      else if ins.(ins_prefix) =? 0x66 then Some x86_2byte_66_w
      else if ins.(ins_prefix) =? 0xf2 then Some x86_2byte_f2_w
      else if ins.(ins_prefix) =? 0xf3 then Some x86_2byte_f3_w
      else None in
    match oplist with
    | None => ret tt
    | Some l => if decode_in_list op l then find_modrm_fault else ret tt
    end.

(** km_is_gva_accessable leaves the machine alone. *)
Definition accessable (gva sz prot : Z) : D bool :=
  match km_is_gva_accessable guest dynlinker gva sz prot m with
  | Ret (v, _) => ret (negb (v =? 0))
  | Abort => abort
  | NoFuel => fun _ => NoFuel
  end.

(** The warning prints the six bytes at the program counter, without a check. *)
Fixpoint warn_bytes (pcs : list Z) : D unit :=
  match pcs with
  | [] => ret tt
  | pc :: rest => deref (km_gva_to_kma m pc) ;;; warn_bytes rest
  end.

Definition decode_opcode : D unit :=
  unless_failed (
    let* ins := get in
    let op := ins.(curbyte) in
    modify (set_opcode_present 1) ;;;
    modify (set_opcode op) ;;;
    decode_consume_byte ;;;
    unless_failed (
      if op =? 0x0f then decode_multibyte_opcode
      else if (op =? 0x00) || decode_in_list op x86_rmmod_addressed then
        decode_modrm ;;; decode_consume_byte ;;; find_modrm_fault
      else if decode_in_list op x86_rsi_addressed then modify (set_failed_addr r.(rsi))
      else if decode_in_list op x86_rdi_addressed then modify (set_failed_addr r.(rdi))
      else if decode_in_list op x86_rsi_rdi_addressed then
        let* ok := accessable r.(rsi) 8 PROT_READ in
        if ok then modify (set_failed_addr r.(rdi)) else modify (set_failed_addr r.(rsi))
      else warn_bytes (map (fun i => r.(rip) +u i) [0; 1; 2; 3; 4; 5]))).

(** The search in a group runs until a zero byte. *)
Fixpoint group_search (reg : Z) (p : list Z) : D bool :=
  match p with
  | [] => abort
  | b :: rest => if b =? 0 then ret false else if reg =? b then ret true else group_search reg rest
  end.

(** Bit [n] of the current byte, complemented. *)
Definition vex_bit (n : Z) (ins : x86_instruction) : Z := Z.lxor (Z.land (Z.shiftr ins.(curbyte) n) 1) 1.

(** From the opcode byte on, with the map chosen by the prefix. *)
Definition vex_opcode (vexprefix : Z) (opcodemap : list Z) : D unit :=
  decode_consume_byte ;;;
  unless_failed (
    modify (fun ins => set_opcode ins.(curbyte) ins) ;;;
    decode_consume_byte ;;;
    unless_failed (
      let* ins := get in
      let map_entry := find_opcode_in_map opcodemap ins.(opcode) in
      if map_entry =? OPCODE_MAP_END then ret tt
      else
        let high := Z.land map_entry (Z.lnot OPCODE_MASK) in
        let* found :=
          (if (OPCODE_GROUP_0 <=? high) && (high <=? OPCODE_GROUP_31) then
             let i := Z.shiftr (Z.land map_entry OPCODE_GROUP_MASK) 8 in
             let* group := deref (if vexprefix =? XOP_PREFIX then xop_groups i else vex_groups i) in
             group_search (Z.land (Z.shiftr ins.(curbyte) 3) 0x07) (group ++ past_group)
           else ret true) in
        if found then decode_modrm ;;; decode_consume_byte ;;; find_modrm_fault else ret tt)).

(** decode_vex_opcodes with the prefix byte read. *)
Definition vex_prefixed (vexprefix : Z) : D unit :=
  decode_consume_byte ;;;
  unless_failed (
    if (vexprefix =? VEX_3BYTE_PREFIX) || (vexprefix =? XOP_PREFIX) then
      modify (fun ins => set_rex_r (vex_bit 7 ins) ins) ;;;
      modify (fun ins => set_rex_x (vex_bit 6 ins) ins) ;;;
      modify (fun ins => set_rex_b (vex_bit 5 ins) ins) ;;;
      let* ins := get in
      let map_select := Z.land ins.(curbyte) 0x1f in
      let opcodemap := if vexprefix =? VEX_3BYTE_PREFIX then vex_maps map_select else xop_maps map_select in
      decode_consume_byte ;;;
      unless_failed (
        modify (fun ins => set_rex_w (vex_bit 7 ins) ins) ;;;
        match opcodemap with
        | None => ret tt
        | Some map => vex_opcode vexprefix map
        end)
    else if vexprefix =? VEX_2BYTE_PREFIX then
      modify (set_rex_x 0) ;;;
      modify (set_rex_b 0) ;;;
      modify (set_rex_w 1) ;;;
      modify (fun ins => set_rex_r (vex_bit 7 ins) ins) ;;;
      match vex_maps 1 with
      | None => ret tt
      | Some map => vex_opcode vexprefix map
      end
    else abort).

Definition decode_vex_opcodes : D unit := let* ins := get in vex_prefixed ins.(curbyte).

Definition ins_at (rip : Z) : x86_instruction :=
  mk_ins 0 rip 0 0 0 0 0 0 0 0 0 0 0 0 0 0 0 0 0 0.

Definition decode_instruction (fuel : nat) : D unit :=
  decode_get_byte ;;;
  unless_failed (
    decode_legacy_prefixes fuel ;;;
    unless_failed (
      decode_rex_prefix ;;;
      unless_failed (
        let* ins := get in
        if (ins.(curbyte) =? VEX_3BYTE_PREFIX) || (ins.(curbyte) =? XOP_PREFIX) || (ins.(curbyte) =? VEX_2BYTE_PREFIX)
        then decode_vex_opcodes
        else decode_opcode))).

Definition fault_result (o : outcome (unit * x86_instruction)) : outcome Z :=
  match o with
  | Ret (_, ins) => Ret ins.(failed_addr)
  | Abort => Abort
  | NoFuel => NoFuel
  end.

Definition km_x86_decode_fault (fuel : nat) (rip : Z) : outcome Z :=
  fault_result (decode_instruction fuel (ins_at rip)).

Definition km_find_faulting_address (fuel : nat) : outcome Z := km_x86_decode_fault fuel r.(rip).

End Decode.
