(* ===== verification/DecodeSpec.v ===== *)
(** * The decoder against the instruction set manual

    The reference is the manual's table of operand encodings: the bytes of an
    operand from its fields, and the address those fields stand for.  The decoder
    is shown to compute that address for every instruction of its tables with a
    ModR/M operand, in the one byte and the VEX encodings, to find the implicit
    operands of the string instructions, and to stop. *)
From S2P Require Import Prelude Machine MemGeom MmapRegion MmapGuest Signal Decode.

(** ** Operands *)

(** The fields of a ModR/M operand: mode, reg and r/m of the ModR/M byte, scale,
    index and base of the SIB byte (used when r/m is 4), and the displacement. *)
Record x86_operand := mk_operand {
  o_mode : Z; o_reg : Z; o_rm : Z; o_scale : Z; o_index : Z; o_base : Z; o_disp : Z
}.

Definition modrm_byte (o : x86_operand) : Z := o.(o_mode) * 64 + o.(o_reg) * 8 + o.(o_rm).
Definition sib_byte (o : x86_operand) : Z := o.(o_scale) * 64 + o.(o_index) * 8 + o.(o_base).
Definition le_bytes32 (d : Z) : list Z := [d mod 256; d / 256 mod 256; d / 65536 mod 256; d / 16777216 mod 256].
Definition operand_tail (o : x86_operand) : list Z :=
  (if o.(o_rm) =? 4 then [sib_byte o] else [])
  ++ (if o.(o_mode) =? 1 then [o.(o_disp) mod 256] else if o.(o_mode) =? 2 then le_bytes32 o.(o_disp) else []).

(** A memory operand, without the two encodings that have a disp32 and no base. *)
Definition operand_ok (o : x86_operand) : Prop :=
  0 <= o.(o_mode) <= 2 /\ 0 <= o.(o_reg) < 8 /\ 0 <= o.(o_rm) < 8
  /\ 0 <= o.(o_scale) < 4 /\ 0 <= o.(o_index) < 8 /\ 0 <= o.(o_base) < 8
  /\ (o.(o_mode) = 0 -> o.(o_disp) = 0 /\ o.(o_rm) <> 5 /\ (o.(o_rm) = 4 -> o.(o_base) <> 5))
  /\ (o.(o_mode) = 1 -> -128 <= o.(o_disp) < 128)
  /\ (o.(o_mode) = 2 -> - 2 ^ 31 <= o.(o_disp) < 2 ^ 31).

(** General registers by number. *)
Definition gpr (r : kvm_regs_t) (n : Z) : Z :=
  nth (Z.to_nat n) [r.(rax); r.(rcx); r.(rdx); r.(rbx); r.(rsp); r.(rbp); r.(rsi); r.(rdi);
                    r.(r8); r.(r9); r.(r10); r.(r11); r.(r12); r.(r13); r.(r14); r.(r15)] 0.

(** [x] and [b] extend the index and the base; index 4 without [x] is none. *)
Definition effective_address (r : kvm_regs_t) (x b : Z) (o : x86_operand) : Z :=
  let base := gpr r (8 * b + (if o.(o_rm) =? 4 then o.(o_base) else o.(o_rm))) in
  let index := if (o.(o_rm) =? 4) && negb (8 * x + o.(o_index) =? 4)
               then gpr r (8 * x + o.(o_index)) * 2 ^ o.(o_scale) else 0 in
  (base + index + o.(o_disp)) mod 2 ^ 64.

(** ** Fields of a byte *)
Lemma byte_fields a b c :
  0 <= a < 4 -> 0 <= b < 8 -> 0 <= c < 8 ->
  let x := a * 64 + b * 8 + c in
  Z.land (Z.shiftr x 6) 3 = a /\ Z.land (Z.shiftr x 3) 7 = b /\ Z.land x 7 = c.
Proof.
  intros Ha Hb Hc x. change 3 with (Z.ones 2) at 1. change 7 with (Z.ones 3).
  rewrite !Z.land_ones, !Z.shiftr_div_pow2 by lia. change (2 ^ 6) with 64. change (2 ^ 3) with 8. change (2 ^ 2) with 4.
  subst x. split_and!; dlia.
Qed.

Lemma s8_mod d : -128 <= d < 128 -> s8 (d mod 256) = d.
Proof. intros. unfold s8. destruct (Z.ltb_spec (d mod 256) 128); dlia. Qed.

Lemma le_value_bytes d : le_value (le_bytes32 d) = d mod 2 ^ 32.
Proof. cbn. change (2 ^ 32) with 4294967296. dlia. Qed.

Lemma s32_mod d : - 2 ^ 31 <= d < 2 ^ 31 -> s32 (d mod 2 ^ 32) = d.
Proof.
  change (2 ^ 31) with 2147483648. change (2 ^ 32) with 4294967296. intros. unfold s32.
  change (2 ^ 31) with 2147483648. change (2 ^ 32) with 4294967296.
  destruct (Z.ltb_spec (d mod 4294967296) 2147483648); dlia.
Qed.

Lemma km_reg_ptr_gpr r b n : 0 <= b <= 1 -> 0 <= n < 8 -> km_reg_ptr r b n = Some (gpr r (8 * b + n)).
Proof.
  intros Hb Hn. assert (b = 0 \/ b = 1) as [-> | ->] by lia;
    assert (n = 0 \/ n = 1 \/ n = 2 \/ n = 3 \/ n = 4 \/ n = 5 \/ n = 6 \/ n = 7) as Hc by lia;
    repeat (destruct Hc as [-> | Hc]; [reflexivity|]); subst; reflexivity.
Qed.

Section Spec.
  Context (m : machine) (mem : Z -> Z) (guest dynlinker : km_payload) (past_group : list Z) (r : kvm_regs_t).

(** ** Instruction bytes in guest memory *)
Definition fetch (a : Z) : option Z :=
  match km_gva_to_kma m a with Some pc => Some (mem pc) | None => None end.

Lemma fetch_bounds a b : fetch a = Some b -> GUEST_MEM_START_VA <= a < GUEST_MEM_TOP_VA.
Proof.
  unfold fetch, km_gva_to_kma. destruct (_ || _ || _) eqn:E; [done|]. intros _.
  apply orb_false_iff in E as [E _]. apply orb_false_iff in E as [E1%Z.ltb_ge E2%Z.leb_gt]. lia.
Qed.

Definition code_at (a : Z) (bytes : list Z) : Prop :=
  forall i b, bytes !! i = Some b -> fetch (a + Z.of_nat i) = Some b.

Lemma code_at_cons a b rest : code_at a (b :: rest) <-> fetch a = Some b /\ code_at (a + 1) rest.
Proof.
  split.
  - intros H. split; [rewrite <- (Z.add_0_r a); by apply (H 0%nat)|]. intros i c Hi.
    replace (a + 1 + Z.of_nat i) with (a + Z.of_nat (S i)) by lia. by apply H.
  - intros [H1 H2] [|i] c Hi; cbn in Hi.
    + injection Hi as <-. by rewrite Z.add_0_r.
    + replace (a + Z.of_nat (S i)) with (a + 1 + Z.of_nat i) by lia. by apply H2.
Qed.

Definition advance (b : Z) (ins : x86_instruction) : x86_instruction :=
  set_curbyte b (set_curip (ins.(curip) + 1) ins).

Lemma consume_ok ins b rest :
  code_at (ins.(curip) + 1) (b :: rest) -> decode_consume_byte m mem ins = Ret (tt, advance b ins).
Proof.
  intros [Hf _]%code_at_cons. pose proof (fetch_bounds _ _ Hf) as Hb.
  unfold decode_consume_byte, decode_get_byte, bind, modify, get. cbn [curip set_curip].
  rewrite u64_small by (unfold is_u64, two64, GUEST_MEM_TOP_VA, GUEST_MEM_START_VA, MIB, GIB in *; lia).
  unfold fetch in Hf. destruct (km_gva_to_kma m _) as [pc|]; [|done]. injection Hf as <-. done.
Qed.

Lemma wp_consume ins b rest (Q : unit -> x86_instruction -> Prop) :
  code_at (ins.(curip) + 1) (b :: rest) -> Q tt (advance b ins) -> wp False (decode_consume_byte m mem) Q ins.
Proof. intros H HQ. unfold wp. by rewrite (consume_ok _ _ _ H). Qed.

Lemma wp_unless (k : D unit) (Q : unit -> x86_instruction -> Prop) ins :
  ins.(failed_addr) = 0 -> wp False k Q ins -> wp False (unless_failed k) Q ins.
Proof. intros H0 H. unfold unless_failed. apply wp_bind, wp_get. by rewrite H0. Qed.

(** ** The operand *)
Lemma modrm_address_ok ins o x b :
  operand_ok o -> 0 <= x <= 1 -> 0 <= b <= 1 ->
  ins.(rex_x) = x -> ins.(rex_b) = b -> ins.(modrm_rm) = o.(o_rm) -> ins.(disp) = o.(o_disp) ->
  ins.(sib_present) = (if o.(o_rm) =? 4 then 1 else 0) ->
  (o.(o_rm) = 4 -> ins.(sib_scale) = o.(o_scale) /\ ins.(sib_index) = o.(o_index) /\ ins.(sib_base) = o.(o_base)) ->
  wp False (modrm_address r) (fun _ ins' => ins'.(failed_addr) = effective_address r x b o) ins.
Proof.
  intros (Hm & _ & Hrm & Hs & Hi & Hb & _) Hx1 Hb1 Ex Eb Erm Ed Es Hsib.
  unfold modrm_address, effective_address. apply wp_bind, wp_get. rewrite Es, Ex, Eb, Erm, Ed.
  destruct (Z.eqb_spec o.(o_rm) 4) as [E4|N4]; cbn [Z.eqb andb].
  - destruct (Hsib E4) as (-> & -> & ->). rewrite km_reg_ptr_gpr by lia.
    destruct (Z.eqb_spec x 0) as [->|Nx]; cbn [andb].
    + destruct (Z.eqb_spec o.(o_index) 4) as [->|N].
      * unfold wp. cbn -[gpr]. by rewrite Z.add_0_r.
      * rewrite km_reg_ptr_gpr by lia. destruct (Z.eqb_spec (8 * 0 + o.(o_index)) 4); [lia|].
        unfold wp. cbn -[gpr Z.shiftl Z.mul]. by rewrite Z.shiftl_1_l.
    + rewrite km_reg_ptr_gpr by lia. destruct (Z.eqb_spec (8 * x + o.(o_index)) 4); [lia|].
      unfold wp. cbn -[gpr Z.shiftl Z.mul]. by rewrite Z.shiftl_1_l.
  - rewrite km_reg_ptr_gpr by lia. unfold wp. cbn -[gpr]. by rewrite Z.add_0_r.
Qed.

Definition disp_bytes (o : x86_operand) : list Z :=
  if o.(o_mode) =? 1 then [o.(o_disp) mod 256] else if o.(o_mode) =? 2 then le_bytes32 o.(o_disp) else [].

(** The instruction holds the fields of [o] read so far, and its current byte is the
    first of [bytes], which are in memory at its address. *)
Record reading (o : x86_operand) (x b : Z) (sib : bool) (bytes : list Z) (ins : x86_instruction) : Prop := {
  rd_failed : ins.(failed_addr) = 0;
  rd_mode : ins.(modrm_mode) = o.(o_mode);
  rd_rm : ins.(modrm_rm) = o.(o_rm);
  rd_x : ins.(rex_x) = x;
  rd_b : ins.(rex_b) = b;
  rd_sib : ins.(sib_present) = Z.b2z sib;
  rd_fields : sib = true -> ins.(sib_scale) = o.(o_scale) /\ ins.(sib_index) = o.(o_index) /\ ins.(sib_base) = o.(o_base);
  rd_byte : bytes !! 0%nat = Some ins.(curbyte);
  rd_code : code_at ins.(curip) bytes;
}.

Lemma reading_advance o x b sib c c' bytes ins :
  reading o x b sib (c :: c' :: bytes) ins ->
  decode_consume_byte m mem ins = Ret (tt, advance c' ins) /\ reading o x b sib (c' :: bytes) (advance c' ins).
Proof.
  intros [H1 H2 H3 H4 H5 H6 H7 H8 H9]. apply code_at_cons in H9 as [_ H9].
  split; [by eapply consume_ok|]. by constructor.
Qed.

Lemma read_disp_ok o x b sib bytes c rest acc ins :
  reading o x b sib (bytes ++ c :: rest) ins ->
  exists ins', read_disp m mem (length bytes) acc ins = Ret (Some (acc ++ bytes), ins') /\ reading o x b sib (c :: rest) ins'.
Proof.
  revert acc ins. induction bytes as [|d bytes IH]; intros acc ins Hr; cbn [read_disp length app] in *.
  { exists ins. by rewrite app_nil_r. }
  assert (Hd : ins.(curbyte) = d) by (destruct Hr as [_ _ _ _ _ _ _ [=] _]; done).
  destruct (bytes ++ c :: rest) as [|c' l] eqn:E; [by destruct bytes|].
  destruct (reading_advance _ _ _ _ _ _ _ _ Hr) as [Hc Hr'].
  unfold bind at 1, get at 1. unfold bind at 1. rewrite Hc. unfold bind at 1, get at 1.
  rewrite (rd_failed _ _ _ _ _ _ Hr'). cbn [Z.eqb]. rewrite Hd.
  destruct (IH (acc ++ [d]) _ Hr') as (ins' & Hi & Hr2). exists ins'. by rewrite Hi, <- app_assoc.
Qed.

Lemma reading_address o x b sib bytes ins :
  operand_ok o -> 0 <= x <= 1 -> 0 <= b <= 1 -> sib = (o.(o_rm) =? 4) -> reading o x b sib bytes ins ->
  wp False (modrm_address r) (fun _ ins' => ins'.(failed_addr) = effective_address r x b o) (set_disp o.(o_disp) ins).
Proof.
  intros Hok Hx Hb -> [H1 H2 H3 H4 H5 H6 H7 H8 H9]. apply modrm_address_ok; try done.
  intros E. apply H7. by apply Z.eqb_eq.
Qed.

Lemma find_modrm_fault_ok o x b next ins :
  operand_ok o -> 0 <= x <= 1 -> 0 <= b <= 1 -> reading o x b false (operand_tail o ++ [next]) ins ->
  wp False (find_modrm_fault m mem r) (fun _ ins' => ins'.(failed_addr) = effective_address r x b o) ins.
Proof.
  intros Hok Hx Hb Hr. pose proof Hok as (Hm & _ & Hrm & Hs & Hi & Hba & Hm0 & Hm1 & Hm2). unfold find_modrm_fault.
  apply wp_unless; [apply Hr|]. apply wp_bind, wp_get. rewrite (rd_mode _ _ _ _ _ _ Hr).
  destruct (Z.eqb_spec o.(o_mode) 3); [lia|]. rewrite (rd_rm _ _ _ _ _ _ Hr).
  apply wp_bind. fold (disp_bytes o) in Hr. unfold operand_tail in Hr. fold (disp_bytes o) in Hr.
  (* the SIB byte *)
  assert (Hsib : wp False (if o.(o_rm) =? 4 then decode_sib ;;; decode_consume_byte m mem else ret tt)
            (fun _ ins' => reading o x b (o.(o_rm) =? 4) (disp_bytes o ++ [next]) ins') ins).
  { destruct (o.(o_rm) =? 4); [|exact Hr]. rewrite <- app_assoc in Hr. cbn [app] in Hr.
    destruct (disp_bytes o ++ [next]) as [|c l] eqn:E; [by destruct (disp_bytes o)|].
    pose proof Hr as [H1 H2 H3 H4 H5 H6 H7 H8 H9]. cbn in H8. injection H8 as H8. apply code_at_cons in H9 as [_ H9].
    apply wp_bind. unfold decode_sib. apply wp_bind, wp_get. wp_steps. eapply wp_consume; [exact H9|].
    destruct (byte_fields o.(o_scale) o.(o_index) o.(o_base)) as (F1 & F2 & F3); [lia..|].
    constructor; cbn; try done. rewrite <- H8. auto. }
  eapply wp_mono; [exact Hsib|]. clear Hsib Hr. intros [] ins1 Hr. apply wp_unless; [apply Hr|].
  apply wp_bind, wp_get. rewrite (rd_mode _ _ _ _ _ _ Hr). unfold disp_bytes in Hr.
  assert (o.(o_mode) = 0 \/ o.(o_mode) = 1 \/ o.(o_mode) = 2) as [E|[E|E]] by lia; rewrite E in *; cbn [Z.eqb Pos.eqb] in *.
  - apply wp_bind, wp_modify. destruct (Hm0 eq_refl) as [E0 _]. rewrite <- E0. by eapply reading_address.
  - apply wp_bind, wp_modify, wp_bind. cbn [app] in Hr. destruct (reading_advance _ _ _ _ _ _ _ _ Hr) as [Hc Hr'].
    pose proof Hr as [_ _ _ _ _ _ _ H8 H9]. cbn in H8. injection H8 as H8. apply code_at_cons in H9 as [_ H9].
    eapply wp_consume; [exact H9|]. apply wp_unless; [apply Hr|]. rewrite <- H8, s8_mod by auto.
    change (advance next (set_disp o.(o_disp) ins1)) with (set_disp o.(o_disp) (advance next ins1)). by eapply reading_address.
  - apply wp_bind. destruct (read_disp_ok o x b _ (le_bytes32 o.(o_disp)) next [] [] ins1 Hr) as (ins2 & Hi2 & Hr2).
    change (length (le_bytes32 o.(o_disp))) with 4%nat in Hi2. unfold wp at 1. rewrite Hi2. apply wp_bind, wp_modify. rewrite app_nil_l, le_value_bytes, s32_mod by auto.
    by eapply reading_address.
Qed.

(** ** Prefixes *)

(** The state before the opcode: only the prefix and the REX bits are set. *)
Definition started (ip c p w rr x b : Z) : x86_instruction :=
  mk_ins 0 ip c p 0 w rr x b 0 0 0 0 0 0 0 0 0 0 0.

Lemma started_advance ip c p w rr x b c' rest :
  code_at (ip + 1) (c' :: rest) ->
  decode_consume_byte m mem (started ip c p w rr x b) = Ret (tt, started (ip + 1) c' p w rr x b).
Proof. intros H. exact (consume_ok (started ip c p w rr x b) c' rest H). Qed.

Definition last_prefix (p : Z) (ps : list Z) : Z := default p (last ps).

Lemma legacy_prefixes_ok ps fuel ip p c rest :
  Forall (fun q => legacy_prefix q = true) ps -> legacy_prefix c = false -> (length ps < fuel)%nat ->
  code_at ip (ps ++ c :: rest) ->
  decode_legacy_prefixes m mem fuel (started ip (hd c ps) p 0 0 0 0)
  = Ret (tt, started (ip + Z.of_nat (length ps)) c (last_prefix p ps) 0 0 0 0).
Proof.
  intros Hps Hc. revert fuel ip p. induction Hps as [|q ps Hq Hps IH]; intros fuel ip p Hf Hcode.
  - destruct fuel; [cbn in Hf; lia|]. cbn -[legacy_prefix]. unfold bind, get. cbn -[legacy_prefix]. rewrite Hc. by rewrite Z.add_0_r.
  - destruct fuel as [|fuel]; [cbn in Hf; lia|]. cbn [hd decode_legacy_prefixes]. unfold bind at 1, get at 1.
    cbn [curbyte started]. rewrite Hq. unfold bind at 1, modify at 1. unfold bind at 1.
    change (set_ins_prefix q (started ip q p 0 0 0 0)) with (started ip q q 0 0 0 0).
    cbn [app] in Hcode. apply code_at_cons in Hcode as [_ Hcode].
    assert (Hn : exists l, ps ++ c :: rest = hd c ps :: l) by (destruct ps; eexists; reflexivity). destruct Hn as [l Hn].
    pose proof Hcode as Hcode'. rewrite Hn in Hcode'. rewrite (started_advance _ _ _ _ _ _ _ _ _ Hcode').
    unfold unless_failed, bind at 1, get at 1. cbn [failed_addr started Z.eqb]. rewrite IH by (cbn in Hf; auto with lia).
    cbn [length]. f_equal. f_equal. unfold last_prefix. rewrite last_cons.
    replace (ip + 1 + Z.of_nat (length ps)) with (ip + Z.of_nat (S (length ps))) by lia. by destruct (last ps).
Qed.

Definition rex_bytes (rex : option Z) : list Z := match rex with Some x => [0x40 + x] | None => [] end.
Definition rex_bit (n : Z) (rex : option Z) : Z := match rex with Some x => Z.b2z (Z.testbit x n) | None => 0 end.

Lemma rex_bit_range n rex : 0 <= rex_bit n rex <= 1.
Proof. destruct rex as [x|]; cbn; [|lia]. destruct (Z.testbit x n); cbn; lia. Qed.

Lemma nibble_cases (P : Z -> Prop) x : 0 <= x < 16 -> Forall P (seqZ 0 16) -> P x.
Proof. intros Hx HP. rewrite Forall_forall in HP. apply HP, elem_of_seqZ. lia. Qed.

Lemma rex_prefix_ok rex ip p c rest :
  (forall x, rex = Some x -> 0 <= x < 16) -> Z.land c 0xf0 <> 0x40 -> code_at ip (rex_bytes rex ++ c :: rest) ->
  decode_rex_prefix m mem (started ip (hd c (rex_bytes rex)) p 0 0 0 0)
  = Ret (tt, started (ip + Z.of_nat (length (rex_bytes rex))) c p (rex_bit 3 rex) (rex_bit 2 rex) (rex_bit 1 rex) (rex_bit 0 rex)).
Proof.
  intros Hx Hc Hcode. destruct rex as [x|]; cbn [rex_bytes hd app length] in *.
  - specialize (Hx x eq_refl). apply code_at_cons in Hcode as [_ Hcode]. revert Hcode. pattern x.
    apply nibble_cases; [done|].
    repeat (apply Forall_cons; split; [intros Hcode;
      unfold decode_rex_prefix; cbn -[decode_consume_byte Z.add]; unfold bind, get, modify, ret;
      cbn -[decode_consume_byte Z.add]; exact (started_advance ip _ p _ _ _ _ c rest Hcode)|]).
    apply Forall_nil. done.
  - unfold decode_rex_prefix, bind, get. cbn [curbyte started]. destruct (Z.eqb_spec (Z.land c 0xf0) 0x40); [done|]. cbn [negb].
    by rewrite Z.add_0_r.
Qed.

(** After the prefixes: the opcode byte [c] and what follows. *)
Definition decode_rest : D unit :=
  let* ins := get in
  if (ins.(curbyte) =? VEX_3BYTE_PREFIX) || (ins.(curbyte) =? XOP_PREFIX) || (ins.(curbyte) =? VEX_2BYTE_PREFIX)
  then decode_vex_opcodes m mem past_group r
  else decode_opcode m mem guest dynlinker r.

Definition opcode_byte (c : Z) : bool := negb (legacy_prefix c) && negb (Z.land c 0xf0 =? 0x40).

Lemma code_at_app a l1 l2 : code_at a (l1 ++ l2) -> code_at (a + Z.of_nat (length l1)) l2.
Proof.
  revert a. induction l1 as [|c l1 IH]; intros a; cbn [app length].
  - by rewrite Z.add_0_r.
  - intros [_ H]%code_at_cons. apply IH in H. by replace (a + Z.of_nat (S (length l1))) with (a + 1 + Z.of_nat (length l1)) by lia.
Qed.

(** Legacy prefixes, then an optional REX prefix. *)
Record prefixes_ok (ps : list Z) (rex : option Z) : Prop := {
  po_legacy : Forall (fun q => legacy_prefix q = true) ps;
  po_rex : forall x, rex = Some x -> 0 <= x < 16;
}.

Lemma decode_prefixes ps rex c rest fuel rip :
  prefixes_ok ps rex -> opcode_byte c = true -> (length ps < fuel)%nat -> code_at rip (ps ++ rex_bytes rex ++ c :: rest) ->
  exists ip, code_at ip (c :: rest)
    /\ decode_instruction m mem guest dynlinker past_group r fuel (ins_at rip)
       = decode_rest (started ip c (last_prefix 0 ps) (rex_bit 3 rex) (rex_bit 2 rex) (rex_bit 1 rex) (rex_bit 0 rex)).
Proof.
  intros [Hps Hrex] [Hl Hr]%andb_true_iff Hf Hcode. apply negb_true_iff in Hl, Hr. apply Z.eqb_neq in Hr.
  exists (rip + Z.of_nat (length ps) + Z.of_nat (length (rex_bytes rex))).
  pose proof (code_at_app _ _ _ Hcode) as Hc1. pose proof (code_at_app _ _ _ Hc1) as Hc2. split; [exact Hc2|].
  set (c1 := hd c (rex_bytes rex)).
  assert (Hn : exists l, rex_bytes rex ++ c :: rest = c1 :: l) by (destruct rex; eexists; reflexivity). destruct Hn as [l Hn].
  assert (Hl1 : legacy_prefix c1 = false).
  { subst c1. destruct rex as [x|]; [|exact Hl]. specialize (Hrex x eq_refl). cbn [hd rex_bytes].
    pattern x. apply nibble_cases; [done|]. repeat (apply Forall_cons; split; [reflexivity|]). apply Forall_nil. done. }
  assert (Hfst : fetch rip = Some (hd c1 ps)).
  { rewrite Hn in Hcode. destruct ps; cbn in Hcode; apply code_at_cons in Hcode; apply Hcode. }
  unfold decode_instruction. unfold bind at 1. unfold decode_get_byte, bind at 1, get at 1. cbn [curip ins_at].
  unfold fetch in Hfst. destruct (km_gva_to_kma m rip) as [pc|]; [|done]. injection Hfst as ->. unfold modify at 1.
  change (set_curbyte (hd c1 ps) (ins_at rip)) with (started rip (hd c1 ps) 0 0 0 0 0).
  unfold unless_failed at 1, bind at 1, get at 1. cbn [failed_addr started Z.eqb]. unfold bind at 1.
  rewrite Hn in Hcode. rewrite (legacy_prefixes_ok ps fuel rip 0 c1 l Hps Hl1 Hf Hcode).
  unfold unless_failed at 1, bind at 1, get at 1. cbn [failed_addr started Z.eqb]. unfold bind at 1.
  rewrite (rex_prefix_ok rex _ _ c rest Hrex Hr Hc1). reflexivity.
Qed.

(** ** One byte opcodes *)

(** A property checked on a table holds of every opcode found in it. *)
Lemma in_list_check (P : Z -> bool) l op :
  forallb (fun c => (c =? 0) || P c) l = true -> decode_in_list op l = true -> P op = true.
Proof.
  induction l as [|c l IH]; cbn; [done|]. intros [H1 H2]%andb_true_iff. destruct (Z.eqb_spec c 0); [done|]. cbn in H1.
  destruct (Z.eqb_spec op c) as [->|]; [by rewrite H1|auto].
Qed.

Definition rmmod_opcode (op : Z) : bool := (op =? 0) || decode_in_list op x86_rmmod_addressed.

(** Opcodes that reach decode_opcode and are not multi-byte. *)
Definition plain_opcode (op : Z) : bool :=
  opcode_byte op && negb ((op =? VEX_3BYTE_PREFIX) || (op =? XOP_PREFIX) || (op =? VEX_2BYTE_PREFIX)) && negb (op =? 0x0f).

Lemma rmmod_plain op : rmmod_opcode op = true -> plain_opcode op = true.
Proof.
  intros [->%Z.eqb_eq|H]%orb_true_iff; [reflexivity|]. revert H. apply in_list_check. reflexivity.
Qed.

Lemma decode_rest_plain op next rest ip p w rr x b :
  plain_opcode op = true -> code_at ip (op :: next :: rest) ->
  decode_rest (started ip op p w rr x b)
  = (if rmmod_opcode op then
       decode_modrm ;;; decode_consume_byte m mem ;;; find_modrm_fault m mem r
     else if decode_in_list op x86_rsi_addressed then modify (set_failed_addr r.(rsi))
     else if decode_in_list op x86_rdi_addressed then modify (set_failed_addr r.(rdi))
     else if decode_in_list op x86_rsi_rdi_addressed then
       let* ok := accessable m guest dynlinker r.(rsi) 8 PROT_READ in
       if ok then modify (set_failed_addr r.(rdi)) else modify (set_failed_addr r.(rsi))
     else warn_bytes m (map (fun i => r.(rip) +u i) [0; 1; 2; 3; 4; 5]))
    (set_opcode op (set_opcode_present 1 (started (ip + 1) next p w rr x b))).
Proof.
  intros [[_ Hv]%andb_true_iff Hm]%andb_true_iff [_ Hc]%code_at_cons. apply negb_true_iff in Hv, Hm.
  unfold decode_rest. unfold bind at 1, get at 1. cbn [curbyte started]. rewrite Hv.
  unfold decode_opcode, unless_failed at 1. unfold bind at 1, get at 1. cbn [failed_addr started Z.eqb].
  unfold bind at 1, get at 1. cbn [curbyte started]. unfold bind at 1, modify at 1. unfold bind at 1, modify at 1. unfold bind at 1.
  set (s0 := set_opcode op _). rewrite (consume_ok s0 next rest Hc).
  change (advance next s0) with (set_opcode op (set_opcode_present 1 (started (ip + 1) next p w rr x b))). clear s0.
  unfold unless_failed, bind at 1, get at 1. cbn [failed_addr set_opcode set_opcode_present started Z.eqb]. rewrite Hm. reflexivity.
Qed.

Lemma wp_fault_result (c : D unit) ins a :
  wp False c (fun _ ins' => ins'.(failed_addr) = a) ins -> fault_result (c ins) = Ret a.
Proof. unfold wp, fault_result. destruct (c ins) as [[u ins']| |]; [|done|done]. by intros ->. Qed.

(** The operand after its ModR/M byte was made current. *)
Lemma modrm_operand_ok o x b next (s : x86_instruction) :
  operand_ok o -> 0 <= x <= 1 -> 0 <= b <= 1 ->
  s.(failed_addr) = 0 -> s.(sib_present) = 0 -> s.(rex_x) = x -> s.(rex_b) = b -> s.(curbyte) = modrm_byte o ->
  code_at s.(curip) (modrm_byte o :: operand_tail o ++ [next]) ->
  wp False (decode_modrm ;;; decode_consume_byte m mem ;;; find_modrm_fault m mem r)
    (fun _ ins' => ins'.(failed_addr) = effective_address r x b o) s.
Proof.
  intros Hok Hx Hb F1 F2 F3 F4 F5 [_ Hc]%code_at_cons. pose proof Hok as (Hm & Hrg & Hrm & _).
  destruct (byte_fields o.(o_mode) o.(o_reg) o.(o_rm)) as (B1 & B2 & B3); [lia..|]. fold (modrm_byte o) in B1, B2, B3.
  apply wp_bind. unfold decode_modrm. apply wp_bind, wp_get. wp_steps. rewrite F5, B1, B2, B3.
  assert (Hn : exists c l, operand_tail o ++ [next] = c :: l) by (destruct (operand_tail o); eexists; eexists; reflexivity).
  destruct Hn as (c & l & Hn). pose proof Hc as Hc'. rewrite Hn in Hc'.
  eapply wp_consume; [exact Hc'|]. eapply find_modrm_fault_ok; [done..|].
  constructor; try done. by rewrite Hn.
Qed.

(** The legacy prefixes of the manual that leave the effective address alone: operand
    size, the segments whose base is 0 in 64 bit mode, LOCK and REP.  Not the address
    size prefix 0x67, nor FS and GS. *)
Definition manual_prefix (b : Z) : bool := existsb (Z.eqb b) [0x26; 0x2e; 0x36; 0x3e; 0x66; 0xf0; 0xf2; 0xf3].
(** In front of a VEX prefix only the segment overrides may stand. *)
Definition segment_prefix (b : Z) : bool := existsb (Z.eqb b) [0x26; 0x2e; 0x36; 0x3e].

Lemma prefixes_legacy (P : Z -> bool) l ps :
  forallb legacy_prefix l = true -> (forall q, P q = true -> existsb (Z.eqb q) l = true) ->
  Forall (fun q => P q = true) ps -> Forall (fun q => legacy_prefix q = true) ps.
Proof.
  intros Hl HP Hps. eapply Forall_impl; [exact Hps|]. cbn. intros q Hq. apply HP in Hq. apply existsb_exists in Hq as (x & Hx & ->%Z.eqb_eq).
  rewrite forallb_forall in Hl. by apply Hl.
Qed.

(** C14. For every one byte opcode of the decoder's table of instructions with a ModR/M
    operand, behind any of the manual's prefixes that leave the effective address alone
    (operand size, the CS, DS, ES and SS overrides, LOCK, REP) and an optional REX
    prefix, the decoder computes the effective address the manual gives for the
    operand: base, scaled index and sign-extended displacement modulo 2^64.  The byte
    after the instruction must be readable.  Not covered, and decoded wrongly
    (decode_wrong_addresses): the two operand forms with a 32 bit displacement and no
    base (RIP relative, and SIB with base 5 in mode 0), the address size prefix, and
    the opcodes 0x80 to 0x83, 0x8f, 0xc0, 0xc1, 0xc6, 0xc7, 0xd0 to 0xd3, 0xf6, 0xf7,
    0xfe and 0xff, which the decoder takes for prefixes and which are not in its table;
    FS and GS overrides are not recognised. *)
Theorem decode_modrm_operand ps rex op o next fuel rip :
  Forall (fun q => manual_prefix q = true) ps -> (forall x, rex = Some x -> 0 <= x < 16) ->
  rmmod_opcode op = true -> operand_ok o -> (length ps < fuel)%nat ->
  code_at rip (ps ++ rex_bytes rex ++ op :: modrm_byte o :: operand_tail o ++ [next]) ->
  km_x86_decode_fault m mem guest dynlinker past_group r fuel rip
  = Ret (effective_address r (rex_bit 1 rex) (rex_bit 0 rex) o).
Proof.
  intros Hps Hrex Hop Hok Hf Hcode. pose proof (rmmod_plain _ Hop) as Hpl.
  assert (Hp : prefixes_ok ps rex) by (split; [refine (prefixes_legacy manual_prefix _ ps _ (fun q Hq => Hq) Hps); reflexivity|done]).
  assert (Hob : opcode_byte op = true) by (by apply andb_true_iff in Hpl as [[? _]%andb_true_iff _]).
  destruct (decode_prefixes _ _ _ _ _ _ Hp Hob Hf Hcode) as (ip & Hc & Hd).
  unfold km_x86_decode_fault. rewrite Hd, (decode_rest_plain _ _ _ _ _ _ _ _ _ Hpl Hc), Hop.
  apply wp_fault_result. apply code_at_cons in Hc as [_ Hc].
  eapply modrm_operand_ok; [done|apply rex_bit_range|apply rex_bit_range|done..|exact Hc].
Qed.

(** The string instructions without a ModR/M byte are attributed to the
    register they use: RSI for loads, RDI for stores and scans, and for moves and
    compares to RSI if the source cannot be read and to RDI otherwise. *)
Theorem decode_string_operand ps rex op next fuel rip a :
  prefixes_ok ps rex -> (length ps < fuel)%nat -> code_at rip (ps ++ rex_bytes rex ++ [op; next]) ->
  (op = 0xac \/ op = 0xad) /\ a = r.(rsi)
  \/ (op = 0xaa \/ op = 0xab \/ op = 0xae \/ op = 0xaf) /\ a = r.(rdi)
  \/ (op = 0xa4 \/ op = 0xa5 \/ op = 0xa6 \/ op = 0xa7)
     /\ (exists v, km_is_gva_accessable guest dynlinker r.(rsi) 8 PROT_READ m = Ret (v, m)
                   /\ a = if v =? 0 then r.(rsi) else r.(rdi)) ->
  km_x86_decode_fault m mem guest dynlinker past_group r fuel rip = Ret a.
Proof.
  intros Hp Hf Hcode Ha.
  assert (Hpl : plain_opcode op = true) by (destruct Ha as [[H _]|[[H _]|[H _]]]; repeat destruct H as [H|H]; subst op; reflexivity).
  assert (Hob : opcode_byte op = true) by (by apply andb_true_iff in Hpl as [[? _]%andb_true_iff _]).
  destruct (decode_prefixes _ _ _ _ _ _ Hp Hob Hf Hcode) as (ip & Hc & Hd).
  unfold km_x86_decode_fault. rewrite Hd, (decode_rest_plain _ _ _ _ _ _ _ _ _ Hpl Hc).
  destruct Ha as [[H ->]|[[H ->]|[H (v & Hv & ->)]]]; repeat destruct H as [H|H]; subst op; try reflexivity;
    cbn -[accessable]; unfold accessable, bind; rewrite Hv; by destruct (v =? 0).
Qed.

(** ** VEX encodings *)
Inductive vex_form := Vex2 (c1 : Z) | Vex3 (c1 c2 : Z).
Definition vex_bytes (v : vex_form) : list Z := match v with Vex2 c1 => [0xc5; c1] | Vex3 c1 c2 => [0xc4; c1; c2] end.
Definition vex_map (v : vex_form) : option (list Z) :=
  match v with Vex2 _ => Some vex_map1 | Vex3 c1 _ => vex_maps (Z.land c1 0x1f) end.
Definition not_bit (c n : Z) : Z := Z.b2z (negb (Z.testbit c n)).
Definition vex_x (v : vex_form) : Z := match v with Vex2 _ => 0 | Vex3 c1 _ => not_bit c1 6 end.
Definition vex_b (v : vex_form) : Z := match v with Vex2 _ => 0 | Vex3 c1 _ => not_bit c1 5 end.

Lemma not_bit_range c n : 0 <= not_bit c n <= 1.
Proof. unfold not_bit. destruct (Z.testbit c n); cbn; lia. Qed.

Lemma vex_bit_eq n ins : 0 <= n -> vex_bit n ins = not_bit ins.(curbyte) n.
Proof.
  intros Hn. unfold vex_bit, not_bit. change 1 with (Z.ones 1) at 1. rewrite Z.land_ones by lia. change (2 ^ 1) with 2.
  rewrite <- Z.bit0_mod, Z.shiftr_spec, Z.add_0_l by lia. by destruct (Z.testbit _ n).
Qed.

Lemma vex_maps_entries i map op :
  vex_maps i = Some map -> op ∈ map -> op < 256 -> find_opcode_in_map map op = op.
Proof.
  intros Hm Hop Hlt.
  assert (Hall : forallb (fun e => (256 <=? e) || (find_opcode_in_map map e =? e)) map = true).
  { unfold vex_maps in Hm. destruct (i =? 1); [|destruct (i =? 2); [|destruct (i =? 3); [|done]]];
      injection Hm as <-; vm_compute; reflexivity. }
  rewrite forallb_forall in Hall. specialize (Hall op (proj1 (list_elem_of_In _ _) Hop)).
  apply orb_true_iff in Hall as [H|H]; [apply Z.leb_le in H; lia|by apply Z.eqb_eq].
Qed.

(** The instruction of [op] and the operand's reg field has a memory operand: a plain
    entry of the map, or one of the two members of group 15. *)
Definition vex_memory_op (map : list Z) (op reg : Z) : Prop :=
  0 <= op < 256 /\ op ∈ map \/ op = 0xae /\ map = vex_map1 /\ (reg = 2 \/ reg = 3).

Lemma vex_opcode_ok vp map i o op x b next (s : x86_instruction) :
  vp <> XOP_PREFIX -> vex_maps i = Some map -> vex_memory_op map op o.(o_reg) ->
  operand_ok o -> 0 <= x <= 1 -> 0 <= b <= 1 ->
  s.(failed_addr) = 0 -> s.(sib_present) = 0 -> s.(rex_x) = x -> s.(rex_b) = b ->
  code_at (s.(curip) + 1) (op :: modrm_byte o :: operand_tail o ++ [next]) ->
  wp False (vex_opcode m mem past_group r vp map) (fun _ ins' => ins'.(failed_addr) = effective_address r x b o) s.
Proof.
  intros Hvp Hmap Hop Hok Hx Hb F1 F2 F3 F4 Hc. unfold vex_opcode. apply wp_bind. eapply wp_consume; [exact Hc|].
  apply wp_unless; [done|]. apply wp_bind, wp_modify, wp_bind. pose proof Hc as [_ Hc2]%code_at_cons.
  eapply wp_consume; [exact Hc2|]. apply wp_unless; [done|]. apply wp_bind, wp_get.
  cbn [opcode advance set_curbyte set_curip set_opcode curbyte].
  assert (Hk : wp False (decode_modrm ;;; decode_consume_byte m mem ;;; find_modrm_fault m mem r)
    (fun _ ins' => ins'.(failed_addr) = effective_address r x b o)
    (advance (modrm_byte o) (set_opcode op (advance op s)))) by (by eapply modrm_operand_ok).
  destruct Hop as [[Hr Hin]|(-> & -> & Hreg)].
  - rewrite (vex_maps_entries _ _ _ Hmap Hin) by lia. unfold OPCODE_MAP_END. destruct (Z.eqb_spec op 0xffff); [lia|].
    assert (Hhi : Z.land op (Z.lnot OPCODE_MASK) = 0).
    { change OPCODE_MASK with (Z.ones 8). rewrite <- Z.ldiff_land, Z.ldiff_ones_r, Z.shiftr_div_pow2 by lia.
      rewrite (Z.div_small op) by lia. reflexivity. }
    rewrite Hhi. exact Hk.
  - destruct (byte_fields o.(o_mode) o.(o_reg) o.(o_rm)) as (_ & B2 & _); [destruct Hok; lia..|].
    fold (modrm_byte o) in B2. 
    change (find_opcode_in_map vex_map1 0xae) with 0x2fae. cbn [Z.eqb Pos.eqb OPCODE_MAP_END].
    apply wp_bind. change (_ && _) with true. cbv iota. destruct (Z.eqb_spec vp XOP_PREFIX); [done|].
    rewrite B2. unfold wp at 1. destruct Hreg as [-> | ->]; exact Hk.
Qed.

(** The gathers of the second map, whose operand has a vector register as index. *)
Definition gather (map : list Z) (op : Z) : Prop := map = vex_map2 /\ 0x90 <= op <= 0x93.

(** C15. The same for the VEX encodings: with a two or three byte VEX prefix, behind CS,
    DS, ES and SS overrides, the operand of every entry of the opcode map the prefix
    selects, and of the two members of group 15 that access memory, gets the manual's
    effective address, with the complemented extension bits of the prefix.  Not covered
    are the gathers (0x90 to 0x93 of the second map), whose index is a vector register,
    and the operand forms and prefixes left out for the one byte opcodes. *)
Theorem decode_vex_operand ps v map op o next fuel rip :
  Forall (fun q => segment_prefix q = true) ps -> vex_map v = Some map -> vex_memory_op map op o.(o_reg) ->
  ~ gather map op -> operand_ok o -> (length ps < fuel)%nat ->
  code_at rip (ps ++ vex_bytes v ++ op :: modrm_byte o :: operand_tail o ++ [next]) ->
  km_x86_decode_fault m mem guest dynlinker past_group r fuel rip
  = Ret (effective_address r (vex_x v) (vex_b v) o).
Proof.
  intros Hps Hmap Hop _ Hok Hf Hcode.
  assert (Hp : prefixes_ok ps None) by (split; [refine (prefixes_legacy segment_prefix _ ps _ (fun q Hq => Hq) Hps); reflexivity|done]).
  unfold km_x86_decode_fault. destruct v as [c1|c1 c2]; cbn [vex_bytes app vex_x vex_b] in *.
  - destruct (decode_prefixes ps None 0xc5 _ fuel rip Hp eq_refl Hf Hcode) as (ip & Hc & Hd). rewrite Hd. clear Hd.
    apply code_at_cons in Hc as [_ Hc]. pose proof Hc as [_ Hc2]%code_at_cons. apply wp_fault_result.
    unfold decode_rest. apply wp_bind, wp_get. cbn [curbyte started Z.eqb Pos.eqb orb].
    change (wp False (decode_vex_opcodes m mem past_group r)
      (fun _ ins' => ins'.(failed_addr) = effective_address r 0 0 o) (started ip 0xc5 (last_prefix 0 ps) 0 0 0 0)).
    unfold decode_vex_opcodes, vex_prefixed. apply wp_bind, wp_get, wp_bind. eapply wp_consume; [exact Hc|]. apply wp_unless; [done|].
    cbn [curbyte started orb Z.eqb Pos.eqb VEX_3BYTE_PREFIX XOP_PREFIX VEX_2BYTE_PREFIX]. wp_steps.
    injection Hmap as <-. eapply (vex_opcode_ok 0xc5 vex_map1 1); try done; lia.
  - destruct (decode_prefixes ps None 0xc4 _ fuel rip Hp eq_refl Hf Hcode) as (ip & Hc & Hd). rewrite Hd. clear Hd.
    apply code_at_cons in Hc as [_ Hc]. pose proof Hc as [_ Hc2]%code_at_cons. pose proof Hc2 as [_ Hc3]%code_at_cons.
    apply wp_fault_result. unfold decode_rest. apply wp_bind, wp_get. cbn [curbyte started Z.eqb Pos.eqb orb].
    change (wp False (decode_vex_opcodes m mem past_group r)
      (fun _ ins' => ins'.(failed_addr) = effective_address r (not_bit c1 6) (not_bit c1 5) o)
      (started ip 0xc4 (last_prefix 0 ps) 0 0 0 0)).
    unfold decode_vex_opcodes, vex_prefixed. apply wp_bind, wp_get, wp_bind. eapply wp_consume; [exact Hc|]. apply wp_unless; [done|].
    cbn [curbyte started orb Z.eqb Pos.eqb VEX_3BYTE_PREFIX XOP_PREFIX VEX_2BYTE_PREFIX]. wp_steps.
    eapply wp_consume; [exact Hc2|]. apply wp_unless; [done|]. wp_steps.
    match goal with |- wp _ (match ?e with _ => _ end) _ _ => change e with (vex_maps (Z.land c1 0x1f)) end.
    cbn [vex_map] in Hmap. rewrite Hmap.
    eapply (vex_opcode_ok 0xc4 map (Z.land c1 0x1f)); try done; try apply not_bit_range; cbn; by apply vex_bit_eq.
Qed.

End Spec.
