(* ===== verification/DecodeProps.v ===== *)
(** * The decoder as a whole: it stops, and where it goes wrong

    Decoding always ends with an address as long as the bytes it prints in its
    warning are readable.  The rest of the file shows, on any program or on a
    concrete one, the instructions for which the address is not the one accessed. *)
From S2P Require Import Prelude Machine MemGeom MmapRegion MmapGuest Signal Decode DecodeSpec.

(** ** Ranges of the decoded fields *)
Record ins_ok (s : x86_instruction) : Prop := {
  io_x : 0 <= s.(rex_x) <= 1;
  io_b : 0 <= s.(rex_b) <= 1;
  io_rm : 0 <= s.(modrm_rm) < 8;
  io_base : 0 <= s.(sib_base) < 8;
  io_index : 0 <= s.(sib_index) < 8;
}.

(** Code that returns with the fields in range when it starts so. *)
Definition safe {A} (c : D A) : Prop := forall s, ins_ok s -> wp False c (fun _ s' => ins_ok s') s.

Lemma safe_bind {A B} (c : D A) (k : A -> D B) : safe c -> (forall a, safe (k a)) -> safe (bind c k).
Proof. intros Hc Hk s Hs. apply wp_bind. eapply wp_mono; [by apply Hc|]. intros a s' H. by apply Hk. Qed.

Lemma safe_ret {A} (a : A) : safe (ret a).
Proof. intros s Hs. by apply wp_ret. Qed.

Lemma safe_modify (f : x86_instruction -> x86_instruction) : (forall s, ins_ok s -> ins_ok (f s)) -> safe (modify f).
Proof. intros Hf s Hs. apply wp_modify. by apply Hf. Qed.

Lemma safe_with (k : x86_instruction -> D unit) :
  (forall s, ins_ok s -> wp False (k s) (fun _ s' => ins_ok s') s) -> safe (let* ins := get in k ins).
Proof. intros Hk s Hs. apply wp_bind, wp_get. by apply Hk. Qed.

Lemma safe_get {A} (k : x86_instruction -> D A) : (forall s, safe (k s)) -> safe (let* ins := get in k ins).
Proof. intros Hk s Hs. apply wp_bind, wp_get. by apply Hk. Qed.

Lemma safe_unless (k : D unit) : safe k -> safe (unless_failed k).
Proof. intros Hk. apply safe_get. intros s. destruct (_ =? 0); [done|apply safe_ret]. Qed.

Lemma safe_if {A} (b : bool) (c d : D A) : safe c -> safe d -> safe (if b then c else d).
Proof. by destruct b. Qed.

Ltac ranges := let H := fresh in intros ? H; destruct H; constructor; cbn; auto; try apply rex_bit_range.

Create HintDb safe.

Ltac safe_tac :=
  repeat lazymatch goal with
  | |- safe (bind get _) => apply safe_get; intros ?
  | |- safe (bind _ _) => apply safe_bind; [|intros ?]
  | |- safe (unless_failed _) => apply safe_unless
  | |- safe (ret _) => apply safe_ret
  | |- safe (modify _) => apply safe_modify; ranges
  | |- safe (if _ then _ else _) => apply safe_if
  | |- safe (match ?x with _ => _ end) => destruct x
  | |- safe (let _ := _ in _) => cbv zeta
  | |- safe _ => solve [auto with safe nocore]
  end.

Lemma land7_range x : 0 <= Z.land x 7 < 8.
Proof. change 7 with (Z.ones 3). rewrite Z.land_ones by lia. apply Z.mod_pos_bound. lia. Qed.

Section Total.
  Context (m : machine) (mem : Z -> Z) (guest dynlinker : km_payload) (past_group : list Z) (r : kvm_regs_t).

Lemma safe_get_byte : safe (decode_get_byte m mem).
Proof. unfold decode_get_byte. safe_tac. Qed.
#[local] Hint Resolve safe_get_byte : safe.

Lemma safe_consume : safe (decode_consume_byte m mem).
Proof. unfold decode_consume_byte. safe_tac. Qed.
#[local] Hint Resolve safe_consume : safe.

Lemma safe_modrm : safe decode_modrm.
Proof.
  unfold decode_modrm. safe_tac; apply land7_range.
Qed.

Lemma safe_sib : safe decode_sib.
Proof.
  unfold decode_sib. safe_tac; apply land7_range.
Qed.

Lemma safe_read_disp n acc : safe (read_disp m mem n acc).
Proof. revert acc. induction n as [|n IH]; intros acc; cbn [read_disp]; safe_tac. Qed.

Lemma safe_address : safe (modrm_address r).
Proof.
  unfold modrm_address. apply safe_with. intros s Hs. pose proof Hs as [H1 H2 H3 H4 H5].
  rewrite !km_reg_ptr_gpr by lia.
  assert (K : forall v, safe (modify (set_failed_addr v))) by (intros; apply safe_modify; ranges).
  destruct (_ =? 0); [|destruct (_ && _)]; cbn [deref]; repeat (apply wp_bind, wp_ret); by apply K.
Qed.
#[local] Hint Resolve safe_modrm safe_sib safe_read_disp safe_address : safe.

Lemma safe_fault : safe (find_modrm_fault m mem r).
Proof. unfold find_modrm_fault. safe_tac. Qed.
#[local] Hint Resolve safe_fault : safe.

Lemma safe_3byte op : safe (decode_3byte_opcode m mem r op).
Proof. unfold decode_3byte_opcode. safe_tac. Qed.
#[local] Hint Resolve safe_3byte : safe.

Lemma safe_multibyte : safe (decode_multibyte_opcode m mem r).
Proof. unfold decode_multibyte_opcode. safe_tac. Qed.
#[local] Hint Resolve safe_multibyte : safe.

Lemma safe_rex : safe (decode_rex_prefix m mem).
Proof.
  unfold decode_rex_prefix. safe_tac; lia.
Qed.

(** The conditions under which decoding cannot crash: the bytes the warning prints
    are readable, the test of the source operand does not fail, and a zero byte
    follows the group table. *)
Record can_decode : Prop := {
  cd_bytes : forall i, 0 <= i <= 5 -> is_Some (km_gva_to_kma m (r.(rip) +u i));
  cd_source : exists v, km_is_gva_accessable guest dynlinker r.(rsi) 8 PROT_READ m = Ret (v, m);
  cd_group : 0 ∈ past_group;
}.
Context (Hcan : can_decode).

Lemma safe_warn : safe (warn_bytes m (map (fun i => r.(rip) +u i) [0; 1; 2; 3; 4; 5])).
Proof.
  cbn [map warn_bytes].
  assert (K : forall i (k : D unit), 0 <= i <= 5 -> safe k -> safe (deref (km_gva_to_kma m (r.(rip) +u i)) ;;; k)).
  { intros i k Hi Hk. destruct (cd_bytes Hcan i Hi) as [pc Hpc]. rewrite Hpc. apply safe_bind; [apply safe_ret|done]. }
  repeat (apply K; [lia|]). apply safe_ret.
Qed.

Lemma safe_accessable : safe (accessable m guest dynlinker r.(rsi) 8 PROT_READ).
Proof. unfold accessable. destruct (cd_source Hcan) as [v Hv]. rewrite Hv. apply safe_ret. Qed.
#[local] Hint Resolve safe_warn safe_accessable : safe.

Lemma safe_opcode : safe (decode_opcode m mem guest dynlinker r).
Proof. unfold decode_opcode. safe_tac. Qed.

Lemma safe_group_search reg l : 0 ∈ l -> safe (group_search reg l).
Proof.
  induction l as [|c l IH]; intros Hl; [by apply not_elem_of_nil in Hl|]. cbn [group_search].
  destruct (Z.eqb_spec c 0); [apply safe_ret|]. apply safe_if; [apply safe_ret|]. apply IH.
  apply elem_of_cons in Hl as [|]; [congruence|done].
Qed.

(** The only group entry of the maps is group 15. *)
Lemma group_entries i map op :
  vex_maps i = Some map ->
  let e := find_opcode_in_map map op in
  e <> OPCODE_MAP_END -> OPCODE_GROUP_0 <= Z.land e (Z.lnot OPCODE_MASK) -> Z.shiftr (Z.land e OPCODE_GROUP_MASK) 8 = 15.
Proof.
  intros Hm e He Hg.
  assert (Hin : forall l, find_opcode_in_map l op <> OPCODE_MAP_END -> find_opcode_in_map l op ∈ l).
  { induction l as [|x l IH]; cbn; [done|]. destruct (x =? OPCODE_MAP_END) eqn:E; [apply Z.eqb_eq in E; congruence|].
    destruct (_ =? op); intros; apply elem_of_cons; auto. }
  assert (Hall : forallb (fun e => (Z.land e (Z.lnot OPCODE_MASK) <? OPCODE_GROUP_0) || (e =? OPCODE_MAP_END)
                            || (Z.shiftr (Z.land e OPCODE_GROUP_MASK) 8 =? 15)) map = true).
  { unfold vex_maps in Hm. destruct (i =? 1); [|destruct (i =? 2); [|destruct (i =? 3); [|done]]];
      injection Hm as <-; vm_compute; reflexivity. }
  rewrite forallb_forall in Hall. specialize (Hall e (proj1 (list_elem_of_In _ _) (Hin map He))).
  apply orb_true_iff in Hall as [[H%Z.ltb_lt|H%Z.eqb_eq]%orb_true_iff|H%Z.eqb_eq]; [lia|done|done].
Qed.

Lemma safe_vex_opcode vp i map : vp <> XOP_PREFIX -> vex_maps i = Some map -> safe (vex_opcode m mem past_group r vp map).
Proof.
  intros Hvp Hm. unfold vex_opcode. apply safe_bind; [apply safe_consume|intros _]. apply safe_unless.
  apply safe_bind; [apply safe_modify; ranges|intros _]. apply safe_bind; [apply safe_consume|intros _]. apply safe_unless.
  apply safe_get. intros s. cbv zeta. destruct (Z.eqb_spec (find_opcode_in_map map s.(opcode)) OPCODE_MAP_END); [apply safe_ret|].
  apply safe_bind; [|intros []; safe_tac].
  destruct (Z.leb_spec OPCODE_GROUP_0 (Z.land (find_opcode_in_map map s.(opcode)) (Z.lnot OPCODE_MASK))); [|apply safe_ret].
  destruct (_ <=? _); cbn [andb]; [|apply safe_ret]. rewrite (group_entries i map) by done.
  destruct (Z.eqb_spec vp XOP_PREFIX); [done|]. cbn [vex_groups Z.eqb Pos.eqb deref].
  intros s' Hs'. apply wp_bind, wp_ret. apply safe_group_search; [|done]. apply elem_of_app. right. apply Hcan.
Qed.

Lemma vex_bit_range n s : 0 <= n -> 0 <= vex_bit n s <= 1.
Proof. intros. rewrite vex_bit_eq by done. apply not_bit_range. Qed.

Lemma safe_vex_prefixed vp :
  (vp =? VEX_3BYTE_PREFIX) || (vp =? XOP_PREFIX) || (vp =? VEX_2BYTE_PREFIX) = true ->
  safe (vex_prefixed m mem past_group r vp).
Proof.
  intros Hb. unfold vex_prefixed. apply safe_bind; [apply safe_consume|intros _]. apply safe_unless.
  destruct ((vp =? VEX_3BYTE_PREFIX) || (vp =? XOP_PREFIX)) eqn:E.
  - do 3 (apply safe_bind; [apply safe_modify; intros s []; constructor; cbn; auto; by apply vex_bit_range|intros _]).
    apply safe_get. intros s. cbv zeta. apply safe_bind; [apply safe_consume|intros _]. apply safe_unless.
    apply safe_bind; [apply safe_modify; ranges|intros _].
    destruct (Z.eqb_spec vp VEX_3BYTE_PREFIX) as [Ev|]; [|apply safe_ret].
    destruct (vex_maps _) as [map|] eqn:Em; [|apply safe_ret]. eapply safe_vex_opcode; [by rewrite Ev|exact Em].
  - cbn [orb] in Hb. rewrite Hb. apply Z.eqb_eq in Hb.
    do 4 (apply safe_bind; [apply safe_modify; intros s []; constructor; cbn; auto; lia|intros _]).
    apply (safe_vex_opcode _ 1); [by rewrite Hb|done].
Qed.

(** ** Termination *)
Lemma legacy_total fuel s :
  ins_ok s -> 0 <= s.(curip) < GUEST_MEM_TOP_VA -> GUEST_MEM_TOP_VA - s.(curip) < Z.of_nat fuel ->
  wp False (decode_legacy_prefixes m mem fuel) (fun _ s' => ins_ok s') s.
Proof.
  revert s. induction fuel as [|fuel IH]; intros s Hs Hip Hf; [lia|]. cbn [decode_legacy_prefixes].
  apply wp_bind, wp_get. destruct (legacy_prefix _); [|by apply wp_ret]. apply wp_bind, wp_modify, wp_bind.
  set (s1 := set_ins_prefix _ s). assert (Hs1 : ins_ok s1) by (by destruct Hs).
  assert (Htop : GUEST_MEM_TOP_VA < two64) by reflexivity.
  unfold decode_consume_byte. apply wp_bind, wp_modify. unfold decode_get_byte. apply wp_bind, wp_get.
  cbn [curip set_curip]. change (curip s1) with (curip s). rewrite u64_small by (unfold is_u64; lia).
  destruct (km_gva_to_kma m (s.(curip) + 1)) as [pc|] eqn:Epc; apply wp_modify.
  - unfold unless_failed. apply wp_bind, wp_get. destruct (_ =? 0); [|by apply wp_ret; destruct Hs].
    assert (Hb : fetch m mem (s.(curip) + 1) = Some (mem pc)) by (unfold fetch; by rewrite Epc).
    apply fetch_bounds in Hb. apply IH; [by destruct Hs|cbn; unfold GUEST_MEM_START_VA, MIB in *; lia|cbn; lia].
  - unfold unless_failed. apply wp_bind, wp_get. cbn [failed_addr set_failed_addr].
    destruct (Z.eqb_spec (s.(curip) + 1) 0); [lia|]. apply wp_ret. by destruct Hs.
Qed.

(** C16. Decoding returns an address: the loop over prefixes ends because guest memory
    does, no register number is out of range, and no null pointer is followed.  Three
    conditions are needed (can_decode): the six bytes at the program counter are
    readable, since the warning about an unknown instruction prints them unchecked
    (decode_warning_crash); the access check of the source operand of a string
    instruction does not fail an assertion; and a zero byte follows the table of group
    15 in the monitor's own memory, since the search of km_decode.c:1304 reads past the
    end of the array for members other than 2 and 3 and stops at a zero byte only. *)
Theorem decode_returns fuel :
  0 <= r.(rip) -> GUEST_MEM_TOP_VA < Z.of_nat fuel ->
  exists a, km_find_faulting_address m mem guest dynlinker past_group r fuel = Ret a.
Proof.
  intros Hrip Hf. set (rip0 := r.(rip)).
  assert (W : wp False (decode_instruction m mem guest dynlinker past_group r fuel) (fun _ s' => ins_ok s') (ins_at rip0)).
  { assert (H0 : ins_ok (ins_at rip0)) by (constructor; cbn; lia).
    unfold decode_instruction. apply wp_bind. unfold decode_get_byte. apply wp_bind, wp_get. cbn [curip ins_at].
    destruct (cd_bytes Hcan 0 ltac:(lia)) as [pc0 Hpc0].
    destruct (km_gva_to_kma m rip0) as [pc|] eqn:Epc; apply wp_modify.
    - assert (Hb : fetch m mem rip0 = Some (mem pc)) by (unfold fetch; by rewrite Epc). apply fetch_bounds in Hb.
      unfold GUEST_MEM_START_VA, MIB in Hb.
      apply wp_unless; [done|]. apply wp_bind. eapply wp_mono; [apply legacy_total; [by destruct H0|cbn; lia|cbn; lia]|].
      intros [] s1 Hs1. revert s1 Hs1. change (safe (unless_failed (decode_rex_prefix m mem ;;; unless_failed (
        decode_rest m mem guest dynlinker past_group r)))).
      apply safe_unless, safe_bind; [apply safe_rex|intros _]. apply safe_unless. unfold decode_rest. apply safe_with.
      intros s Hs. destruct (_ || _) eqn:E; [|by apply safe_opcode].
      unfold decode_vex_opcodes. apply wp_bind, wp_get. by apply safe_vex_prefixed.
    - unfold unless_failed at 1. apply wp_bind, wp_get. cbn [failed_addr set_failed_addr].
      destruct (Z.eqb_spec rip0 0) as [E|]; [|apply wp_ret; by destruct H0]. exfalso.
      subst rip0. rewrite E in Hpc0, Epc. change (u64 (0 + 0)) with 0 in Hpc0. congruence. }
  unfold km_find_faulting_address, km_x86_decode_fault. fold rip0. unfold wp in W.
  destruct (decode_instruction _ _ _ _ _ _ _ _) as [[u s']| |]; [by eexists|done|done].
Qed.

End Total.

(** ** Instructions with a wrong address *)
Section Wrong.
  Context (m : machine) (mem : Z -> Z) (guest dynlinker : km_payload) (past_group : list Z) (r : kvm_regs_t).

(** The table of two byte opcodes for a prefix. *)
Definition two_byte_table (p : Z) : list Z :=
  if p =? 0 then x86_2byte_0_w else if p =? 0x66 then x86_2byte_66_w
  else if p =? 0xf2 then x86_2byte_f2_w else if p =? 0xf3 then x86_2byte_f3_w else [].

Lemma two_byte_not_3byte p op : decode_in_list op (two_byte_table p) = true -> (op =? 0x38) || (op =? 0x3a) = false.
Proof.
  intros H. apply negb_true_iff. revert H. apply (in_list_check (fun op => negb ((op =? 0x38) || (op =? 0x3a)))).
  unfold two_byte_table. destruct (p =? 0), (p =? 0x66), (p =? 0xf2), (p =? 0xf3); reflexivity.
Qed.

Lemma multibyte_start p w rr x b op mb ip rest :
  decode_in_list op (two_byte_table p) = true -> code_at m mem ip (0x0f :: op :: mb :: rest) ->
  decode_rest m mem guest dynlinker past_group r (started ip 0x0f p w rr x b)
  = find_modrm_fault m mem r (set_opcode op (set_opcode_present 1 (advance mb (set_opcode 0x0f (set_opcode_present 1 (started (ip + 1) op p w rr x b)))))).
Proof.
  intros Hop [_ Hc]%code_at_cons. pose proof Hc as [_ Hc2]%code_at_cons.
  unfold decode_rest. unfold bind at 1, get at 1. change ((_ || _) || _) with false. cbv iota.
  unfold decode_opcode, unless_failed at 1, bind at 1, get at 1. cbn [failed_addr started Z.eqb].
  unfold bind at 1, get at 1. cbn [curbyte started]. unfold bind at 1, modify at 1. unfold bind at 1, modify at 1. unfold bind at 1.
  set (s0 := set_opcode 0x0f _). rewrite (consume_ok m mem s0 op (mb :: rest) Hc).
  unfold unless_failed at 1, bind at 1, get at 1. cbn [failed_addr advance set_curbyte set_curip s0 set_opcode set_opcode_present started Z.eqb].
  cbn [Pos.eqb]. unfold decode_multibyte_opcode. unfold bind at 1, get at 1.
  cbn [curbyte advance set_curbyte]. unfold bind at 1, modify at 1. unfold bind at 1, modify at 1. unfold bind at 1.
  match goal with |- context [decode_consume_byte m mem ?s] => rewrite (consume_ok m mem s mb rest Hc2) end.
  change (curbyte (advance op s0)) with op. change (ins_prefix (advance op s0)) with p.
  rewrite (two_byte_not_3byte p op Hop).
  unfold two_byte_table in Hop. destruct (p =? 0); [by rewrite Hop|]. destruct (p =? 0x66); [by rewrite Hop|].
  destruct (p =? 0xf2); [by rewrite Hop|]. destruct (p =? 0xf3); [by rewrite Hop|done].
Qed.

(** For the two byte opcodes the ModR/M byte is never decoded: whatever the
    operand [mb], the address reported is the contents of RAX, or of R8 with
    REX.B. *)
Theorem decode_two_byte_ignores_operand ps rex op mb fuel rip :
  prefixes_ok ps rex -> decode_in_list op (two_byte_table (last_prefix 0 ps)) = true -> (length ps < fuel)%nat ->
  code_at m mem rip (ps ++ rex_bytes rex ++ [0x0f; op; mb]) ->
  km_x86_decode_fault m mem guest dynlinker past_group r fuel rip = Ret (u64 (gpr r (8 * rex_bit 0 rex))).
Proof.
  intros Hp Hop Hf Hcode.
  destruct (decode_prefixes m mem guest dynlinker past_group r ps rex 0x0f _ fuel rip Hp eq_refl Hf Hcode) as (ip & Hc & Hd).
  unfold km_x86_decode_fault. rewrite Hd, (multibyte_start _ _ _ _ _ op mb ip [] Hop Hc). apply wp_fault_result.
  unfold find_modrm_fault. apply wp_unless; [done|]. apply wp_bind, wp_get.
  change (wp False (ret tt ;;; unless_failed (let* ins := get in
            if ins.(modrm_mode) =? 0 then modify (set_disp 0) ;;; modrm_address r
            else if ins.(modrm_mode) =? 1 then modify (set_disp (s8 ins.(curbyte))) ;;; decode_consume_byte m mem ;;; unless_failed (modrm_address r)
            else if ins.(modrm_mode) =? 2 then let* bytes := read_disp m mem 4 [] in
              match bytes with Some bytes => modify (set_disp (s32 (le_value bytes))) ;;; modrm_address r | None => ret tt end
            else ret tt)) (fun _ ins' => ins'.(failed_addr) = u64 (gpr r (8 * rex_bit 0 rex)))
          (set_opcode op (set_opcode_present 1 (advance mb (set_opcode 0x0f (set_opcode_present 1
            (started (ip + 1) op (last_prefix 0 ps) (rex_bit 3 rex) (rex_bit 2 rex) (rex_bit 1 rex) (rex_bit 0 rex)))))))).
  apply wp_bind, wp_ret, wp_unless; [done|]. apply wp_bind, wp_get. cbn [modrm_mode set_opcode set_opcode_present advance set_curbyte set_curip started Z.eqb].
  apply wp_bind, wp_modify. unfold modrm_address. apply wp_bind, wp_get.
  cbn [sib_present rex_b modrm_rm disp set_disp set_opcode set_opcode_present advance set_curbyte set_curip started Z.eqb].
  rewrite km_reg_ptr_gpr by (pose proof (rex_bit_range 0 rex); lia). apply wp_bind, wp_ret, wp_modify. cbn [failed_addr set_failed_addr].
  by rewrite !Z.add_0_r.
Qed.

(** An instruction outside all tables that faults within the last five bytes
    of readable memory crashes the monitor: the warning reads the six bytes at the
    program counter through a null pointer. *)
Theorem decode_warning_crash ps rex op next fuel i :
  prefixes_ok ps rex -> plain_opcode op = true ->
  existsb (decode_in_list op) [x86_rmmod_addressed; x86_rsi_addressed; x86_rdi_addressed; x86_rsi_rdi_addressed] = false -> op <> 0 ->
  (length ps < fuel)%nat -> code_at m mem r.(rip) (ps ++ rex_bytes rex ++ [op; next]) ->
  0 <= i <= 5 -> km_gva_to_kma m (r.(rip) +u i) = None ->
  km_find_faulting_address m mem guest dynlinker past_group r fuel = Abort.
Proof.
  intros Hp Hpl Hno H0 Hf Hcode Hi Hnull.
  assert (Hob : opcode_byte op = true) by (by apply andb_true_iff in Hpl as [[? _]%andb_true_iff _]).
  destruct (decode_prefixes m mem guest dynlinker past_group r _ _ _ _ _ _ Hp Hob Hf Hcode) as (ip & Hc & Hd).
  unfold km_find_faulting_address, km_x86_decode_fault.
  rewrite Hd, (decode_rest_plain m mem guest dynlinker past_group r _ _ _ _ _ _ _ _ _ Hpl Hc).
  cbn [existsb] in Hno. apply orb_false_iff in Hno as [N1 Hno]. apply orb_false_iff in Hno as [N2 Hno].
  apply orb_false_iff in Hno as [N3 Hno]. apply orb_false_iff in Hno as [N4 _].
  unfold rmmod_opcode. destruct (Z.eqb_spec op 0); [done|]. rewrite N1, N2, N3, N4. cbn [orb].
  assert (K : forall l s, i ∈ l -> warn_bytes m (map (fun j => r.(rip) +u j) l) s = Abort).
  { induction l as [|j l IH]; intros s Hin; [by apply not_elem_of_nil in Hin|]. cbn [map warn_bytes]. unfold bind.
    destruct (km_gva_to_kma m (r.(rip) +u j)) eqn:E; cbn [deref]; [|done].
    apply elem_of_cons in Hin as [->|Hin]; [congruence|by apply IH]. }
  rewrite K; [done|]. apply (elem_of_seqZ 0 6 i). lia.
Qed.

End Wrong.

(** ** Concrete programs *)

(** One page of program at the start of guest memory. *)
Definition prog_base : Z := GUEST_MEM_START_VA.
Definition prog_machine : machine := set_brk (prog_base + 4096) (boot_machine VM_TYPE_KVM 32).
Definition prog_mem (code : list Z) (pc : Z) : Z := nth (Z.to_nat (pc - prog_base)) code 0.
Definition prog_regs (ip : Z) : kvm_regs_t :=
  mk_regs 0xa000 0xb000 0xc000 0xd000 0x51000 0xd1000 0x5b000 0xb9000 0x8000 0x9000 0x10000 0x11000 0x12000 0x13000 0x14000 0x15000 ip 2.
Definition no_payload : km_payload := mk_payload [] 0.
Definition decode_prog (past code : list Z) : outcome Z :=
  km_find_faulting_address prog_machine (prog_mem code) no_payload no_payload past (prog_regs prog_base) 16.

Lemma prog_code code :
  (length code <= 4096)%nat -> code_at prog_machine (prog_mem code) prog_base code.
Proof.
  intros Hl i b Hb. pose proof (lookup_lt_Some _ _ _ Hb) as Hi. unfold fetch.
  assert (Hk : km_gva_to_kma prog_machine (prog_base + Z.of_nat i) = Some (prog_base + Z.of_nat i)).
  { assert (prog_base <= prog_base + Z.of_nat i < prog_base + 4096) as [Ha1 Ha2] by lia.
    generalize dependent (prog_base + Z.of_nat i). intros a Ha1 Ha2. unfold prog_base, GUEST_MEM_START_VA, MIB in Ha1, Ha2.
    unfold km_gva_to_kma. change (roundup (brk prog_machine) KM_PAGE_SIZE) with 0x201000.
    unfold GUEST_MEM_TOP_VA, GUEST_MEM_START_VA, MIB, GIB.
    destruct (Z.ltb_spec a (2 * 0x100000)); [lia|]. destruct (Z.leb_spec (512 * 0x40000000 - 2 * 0x100000) a); [lia|].
    destruct (Z.leb_spec 0x201000 a); [lia|]. cbn [orb andb]. f_equal. unfold km_gva_to_kma_nocheck, km_vdso_gva, km_guestmem_gva.
    unfold GUEST_VVAR_VDSO_BASE_VA, GUEST_KMGUESTMEM_BASE_VA, GUEST_PRIVATE_MEM_START_VA, GIB, KIB.
    destruct (Z.leb_spec (512 * 0x40000000) a); [lia|]. destruct (Z.leb_spec (512 * 0x40000000 + 32 * 1024) a); [lia|]. cbn [andb].
    unfold gva_to_gpa_nocheck. change (GUEST_VA_OFFSET prog_machine) with 0x7f00000000.
    destruct (Z.ltb_spec 0x7f00000000 a); [lia|]. reflexivity. }
  rewrite Hk. f_equal. unfold prog_mem. replace (prog_base + Z.of_nat i - prog_base) with (Z.of_nat i) by lia.
  rewrite Nat2Z.id. rewrite nth_lookup, Hb. reflexivity.
Qed.

(** [mov [rbx + 8 * rcx - 16], eax] behind a REX prefix. *)
Definition sib_operand : x86_operand := mk_operand 1 0 4 3 1 3 (-16).

Lemma decode_modrm_operand_witness :
  decode_prog [0] ([0x48; 0x89] ++ [modrm_byte sib_operand] ++ operand_tail sib_operand ++ [0x90])
  = Ret (0xb000 + 8 * 0xc000 - 16).
Proof.
  refine (decode_modrm_operand prog_machine _ no_payload no_payload [0] (prog_regs prog_base) [] (Some 8) 0x89 sib_operand 0x90
            16 prog_base _ _ eq_refl _ _ _).
  - apply Forall_nil. exact I.
  - intros x [= <-]. lia.
  - unfold operand_ok, sib_operand. cbn. lia.
  - cbn. lia.
  - refine (prog_code ([0x48; 0x89] ++ [modrm_byte sib_operand] ++ operand_tail sib_operand ++ [0x90]) _). cbn. lia.
Defined.

Lemma decode_vex_operand_witness :
  decode_prog [0] (0xc5 :: 0xf8 :: 0x28 :: modrm_byte sib_operand :: operand_tail sib_operand ++ [0x90])
  = Ret (0xb000 + 8 * 0xc000 - 16).
Proof.
  refine (decode_vex_operand prog_machine _ no_payload no_payload [0] (prog_regs prog_base) [] (Vex2 0xf8) vex_map1 0x28 sib_operand
            0x90 16 prog_base _ eq_refl _ _ _ _ _).
  - apply Forall_nil. exact I.
  - left. split; [lia|]. apply list_elem_of_In. cbn. tauto.
  - intros [Hm _]. discriminate Hm.
  - unfold operand_ok, sib_operand. cbn. lia.
  - cbn. lia.
  - refine (prog_code (0xc5 :: 0xf8 :: 0x28 :: modrm_byte sib_operand :: operand_tail sib_operand ++ [0x90]) _). cbn. lia.
Defined.

Lemma decode_string_operand_witness : decode_prog [0] [0xf3; 0x48; 0xab; 0x90] = Ret 0xd1000.
Proof.
  refine (decode_string_operand prog_machine _ no_payload no_payload [0] (prog_regs prog_base) [0xf3] (Some 8) 0xab 0x90 16
    prog_base 0xd1000 _ _ _ _).
  - split; [apply Forall_cons; split; [reflexivity|apply Forall_nil; exact I]|]. intros x [= <-]. lia.
  - cbn. lia.
  - refine (prog_code [0xf3; 0x48; 0xab; 0x90] _). cbn. lia.
  - right. left. split; [tauto|reflexivity].
Defined.

Lemma decode_returns_witness : exists a,
  km_find_faulting_address prog_machine (prog_mem [0x90]) no_payload no_payload [0] (prog_regs prog_base)
    (Z.to_nat (GUEST_MEM_TOP_VA + 1)) = Ret a.
Proof.
  apply (decode_returns prog_machine (prog_mem [0x90]) no_payload no_payload [0] (prog_regs prog_base)).
  - split.
    + intros i Hi. assert (i = 0 \/ i = 1 \/ i = 2 \/ i = 3 \/ i = 4 \/ i = 5) as Hc by lia.
      repeat (destruct Hc as [-> | Hc]; [eexists; vm_compute; reflexivity|]). subst. eexists. vm_compute. reflexivity.
    + exists 0. vm_compute. reflexivity.
    + apply list_elem_of_singleton. reflexivity.
  - vm_compute. discriminate.
  - rewrite Z2Nat.id by (vm_compute; discriminate). lia.
Defined.

(** [movaps [rbx], xmm0] is 0f 29 03. *)
Lemma decode_two_byte_ignores_operand_witness : decode_prog [0] [0x0f; 0x29; 0x03] = Ret 0xa000.
Proof.
  refine (decode_two_byte_ignores_operand prog_machine _ no_payload no_payload [0] (prog_regs prog_base) [] None 0x29 0x03 16
            prog_base _ eq_refl _ _).
  - split; [apply Forall_nil; exact I|]. intros x [=].
  - cbn. lia.
  - refine (prog_code [0x0f; 0x29; 0x03] _). cbn. lia.
Defined.

(** [push rax] two bytes before the end of the program. *)
Lemma decode_warning_crash_witness :
  km_find_faulting_address prog_machine (fun _ => 0x50) no_payload no_payload [0] (prog_regs (prog_base + 4094)) 16 = Abort.
Proof.
  refine (decode_warning_crash prog_machine (fun _ => 0x50) no_payload no_payload [0] (prog_regs (prog_base + 4094)) [] None 0x50 0x50
            16 2 _ eq_refl eq_refl _ _ _ _ eq_refl).
  - split; [apply Forall_nil; exact I|]. intros x [=].
  - discriminate.
  - cbn. lia.
  - apply code_at_cons. split; [vm_compute; reflexivity|]. apply code_at_cons. split; [vm_compute; reflexivity|].
    intros i b Hb. rewrite lookup_nil in Hb. discriminate.
  - lia.
Defined.

(** Instructions whose address the decoder gets wrong: an immediate store
    [mov dword [rbx], 42], whose opcode is taken for a prefix, is attributed to RDX;
    a load relative to the instruction pointer to RBP; the VEX group instruction
    VLDMXCSR's neighbour [c5 f8 ae /1] to nothing or to RBX, depending on the byte
    that follows the group table in the monitor's image; and a jump to address 0 to
    address 1. *)
Theorem decode_wrong_addresses :
  decode_prog [0] [0xc7; 0x03; 0x2a; 0; 0; 0; 0x90] = Ret 0xd000
  /\ decode_prog [0] [0x8b; 0x05; 0; 1; 0; 0; 0x90] = Ret 0xb9000
  /\ decode_prog [0] [0xc5; 0xf8; 0xae; 0x0b; 0x90] = Ret 0
  /\ decode_prog [1; 0] [0xc5; 0xf8; 0xae; 0x0b; 0x90] = Ret 0xb000
  /\ km_find_faulting_address prog_machine (prog_mem []) no_payload no_payload [0] (prog_regs 0) 16 = Ret 1.
Proof. vm_compute. split_and!; reflexivity. Qed.
