(* ===== verification/FdTable.v ===== *)
(** * Guest file descriptors (km_filesys.c)

    A guest file descriptor is the host descriptor of the same number; the monitor
    keeps for each one in use how it came to be, its name, the socket's parameters,
    the epoll set and the other end of a pipe, and groups the descriptors that are
    dups of each other.  The table is what a snapshot is made from.  Each hypercall
    is one step; the host kernel is an oracle that answers each system call from the
    history of the earlier ones. *)
From S2P Require Import Prelude.

(** ** Numbers of fcntl.h, socket.h, epoll.h and errno.h *)
Definition O_RDONLY : Z := 0.
Definition O_WRONLY : Z := 1.
Definition O_CLOEXEC : Z := 0x80000.
Definition F_DUPFD : Z := 0.
Definition F_GETLK : Z := 5.
Definition F_SETLK : Z := 6.
Definition F_SETLKW : Z := 7.
Definition F_DUPFD_CLOEXEC : Z := 1030.
Definition EPOLL_CTL_ADD : Z := 1.
Definition EPOLL_CTL_DEL : Z := 2.
Definition EPOLL_CTL_MOD : Z := 3.
Definition AT_FDCWD : Z := -100.
Definition ECONNRESET : Z := 104.
Definition SEEK_SET : Z := 0.
Definition SYS_read : Z := 0.
Definition SYS_fstat : Z := 5.
Definition SYS_lseek : Z := 8.
Definition SYS_ioctl : Z := 16.
Definition SYS_pread64 : Z := 17.
Definition SYS_sendfile : Z := 40.
Definition SYS_connect : Z := 42.
Definition SYS_sendmsg : Z := 46.
Definition SYS_recvmsg : Z := 47.
Definition SYS_shutdown : Z := 48.
Definition SYS_bind : Z := 49.
Definition SYS_listen : Z := 50.
Definition SYS_setsockopt : Z := 54.
Definition SYS_getsockopt : Z := 55.
Definition SYS_fcntl : Z := 72.
Definition SYS_flock : Z := 73.
Definition SYS_fsync : Z := 74.
Definition SYS_fdatasync : Z := 75.
Definition SYS_ftruncate : Z := 77.
Definition SYS_fchdir : Z := 81.
Definition SYS_fchmod : Z := 91.
Definition SYS_getpeername : Z := 52.
Definition F_GETFL : Z := 3.
Definition F_SETFL : Z := 4.
Definition SOCK_NONBLOCK : Z := 0x800.
Definition SOCK_CLOEXEC : Z := 0x80000.
Definition SYS_fchown : Z := 93.
Definition SYS_fstatfs : Z := 138.
Definition SYS_copy_file_range : Z := 326.

(** KVM_MAX_VCPUS is 288. *)
Definition MAX_OPEN_FILES : Z := 1024.
Definition MAX_KM_FILES : Z := 288 + 2 + 2 + 2 + 2 + 1.

(** ** Data *)
Inductive km_sock_state_t :=
| KM_SOCK_STATE_OPEN | KM_SOCK_STATE_BIND | KM_SOCK_STATE_LISTEN | KM_SOCK_STATE_ACCEPT | KM_SOCK_STATE_CONNECT.

Inductive km_file_how_t :=
| KM_FILE_HOW_OPEN | KM_FILE_HOW_PIPE_0 | KM_FILE_HOW_PIPE_1 | KM_FILE_HOW_EPOLLFD | KM_FILE_HOW_SOCKET
| KM_FILE_HOW_ACCEPT | KM_FILE_HOW_SOCKETPAIR0 | KM_FILE_HOW_SOCKETPAIR1 | KM_FILE_HOW_RECVMSG
| KM_FILE_HOW_EVENTFD | KM_FILE_HOW_TIMERFD.
#[export] Instance km_file_how_eq_dec : EqDecision km_file_how_t.
Proof. solve_decision. Defined.

(** [addr] stands for the address bytes passed to bind. *)
Record km_fd_socket := mk_socket {
  sock_state : km_sock_state_t; backlog : Z; domain : Z; type_ : Z; protocol : Z; addrlen : Z; addr : list Z
}.
Definition with_state st (s : km_fd_socket) := mk_socket st s.(backlog) s.(domain) s.(type_) s.(protocol) s.(addrlen) s.(addr).

(** The events of interest and the user data of an epoll_event. *)
Record epoll_event := mk_event { ev_events : Z; ev_data : Z }.
Record km_fs_event := mk_fs_event { ev_fd : Z; ev_event : epoll_event }.

(** Calls to the host kernel that create, change or close descriptors; all others
    are [F_sys] with number and arguments. *)
Inductive fdcall :=
| F_open (path : string) (flags mode : Z)
| F_openat (dirfd : Z) (path : string) (flags mode : Z)
| F_close (fd : Z)
| F_dup (fd : Z)
| F_dup3 (fd newfd flags : Z)
| F_fcntl_dup (fd cmd arg : Z)
| F_pipe2 (flags : Z)
| F_eventfd (initval flags : Z)
| F_socket (domain type_ protocol : Z)
| F_socketpair (domain type_ protocol : Z)
| F_accept4 (fd flags : Z)
| F_recvmsg (fd flags : Z)
| F_epoll_create (flags : Z)
| F_epoll_ctl (epfd op fd : Z) (ev : epoll_event)
| F_timerfd (clockid flags : Z)
| F_sys (nr : Z) (args : list Z).

(** One entry of guest_files.  [ops] is the line of km_filename_table the name
    matched; NULL and unset pointers are [None]. *)
Record km_file := mk_file {
  inuse : bool;
  how : km_file_how_t;
  fflags : Z;
  ferror : Z;
  ops : option Z;
  ofd : Z;
  fname : option string;
  sockinfo : option km_fd_socket;
  fevents : list km_fs_event
}.
Definition set_inuse (x : bool) (s : km_file) : km_file :=
  mk_file x s.(how) s.(fflags) s.(ferror) s.(ops) s.(ofd) s.(fname) s.(sockinfo) s.(fevents).
Definition set_how (x : km_file_how_t) (s : km_file) : km_file :=
  mk_file s.(inuse) x s.(fflags) s.(ferror) s.(ops) s.(ofd) s.(fname) s.(sockinfo) s.(fevents).
Definition set_fflags (x : Z) (s : km_file) : km_file :=
  mk_file s.(inuse) s.(how) x s.(ferror) s.(ops) s.(ofd) s.(fname) s.(sockinfo) s.(fevents).
Definition set_ferror (x : Z) (s : km_file) : km_file :=
  mk_file s.(inuse) s.(how) s.(fflags) x s.(ops) s.(ofd) s.(fname) s.(sockinfo) s.(fevents).
Definition set_ops (x : option Z) (s : km_file) : km_file :=
  mk_file s.(inuse) s.(how) s.(fflags) s.(ferror) x s.(ofd) s.(fname) s.(sockinfo) s.(fevents).
Definition set_ofd (x : Z) (s : km_file) : km_file :=
  mk_file s.(inuse) s.(how) s.(fflags) s.(ferror) s.(ops) x s.(fname) s.(sockinfo) s.(fevents).
Definition set_fname (x : option string) (s : km_file) : km_file :=
  mk_file s.(inuse) s.(how) s.(fflags) s.(ferror) s.(ops) s.(ofd) x s.(sockinfo) s.(fevents).
Definition set_sockinfo (x : option km_fd_socket) (s : km_file) : km_file :=
  mk_file s.(inuse) s.(how) s.(fflags) s.(ferror) s.(ops) s.(ofd) s.(fname) x s.(fevents).
Definition set_fevents (x : list km_fs_event) (s : km_file) : km_file :=
  mk_file s.(inuse) s.(how) s.(fflags) s.(ferror) s.(ops) s.(ofd) s.(fname) s.(sockinfo) x.

(** A zeroed entry of the calloc'ed array. *)
Definition file_zero : km_file := mk_file false KM_FILE_HOW_OPEN 0 0 None 0 None None [].

(** [snap_listeners] are the pairs listen_fd, accept_fd of km_snap_listening_state_p;
    [machine_fini] is set by km_signal_machine_fini; [syscalls] are the calls made,
    latest first, with their results. *)
Record km_filesys := mk_fs {
  nfdmap : Z;
  guest_files : gmap Z km_file;
  dup_data : list (list Z);
  fs_recovery : bool;
  light_snap_accept_timeout : Z;
  accept_cnt : Z;
  snap_listeners : list (Z * Z);
  machine_fini : bool;
  syscalls : list (fdcall * Z)
}.
Definition set_nfdmap (x : Z) (s : km_filesys) : km_filesys :=
  mk_fs x s.(guest_files) s.(dup_data) s.(fs_recovery) s.(light_snap_accept_timeout) s.(accept_cnt) s.(snap_listeners) s.(machine_fini) s.(syscalls).
Definition set_guest_files (x : gmap Z km_file) (s : km_filesys) : km_filesys :=
  mk_fs s.(nfdmap) x s.(dup_data) s.(fs_recovery) s.(light_snap_accept_timeout) s.(accept_cnt) s.(snap_listeners) s.(machine_fini) s.(syscalls).
Definition set_dup_data (x : list (list Z)) (s : km_filesys) : km_filesys :=
  mk_fs s.(nfdmap) s.(guest_files) x s.(fs_recovery) s.(light_snap_accept_timeout) s.(accept_cnt) s.(snap_listeners) s.(machine_fini) s.(syscalls).
Definition set_fs_recovery (x : bool) (s : km_filesys) : km_filesys :=
  mk_fs s.(nfdmap) s.(guest_files) s.(dup_data) x s.(light_snap_accept_timeout) s.(accept_cnt) s.(snap_listeners) s.(machine_fini) s.(syscalls).
Definition set_light_snap_accept_timeout (x : Z) (s : km_filesys) : km_filesys :=
  mk_fs s.(nfdmap) s.(guest_files) s.(dup_data) s.(fs_recovery) x s.(accept_cnt) s.(snap_listeners) s.(machine_fini) s.(syscalls).
Definition set_accept_cnt (x : Z) (s : km_filesys) : km_filesys :=
  mk_fs s.(nfdmap) s.(guest_files) s.(dup_data) s.(fs_recovery) s.(light_snap_accept_timeout) x s.(snap_listeners) s.(machine_fini) s.(syscalls).
Definition set_snap_listeners (x : list (Z * Z)) (s : km_filesys) : km_filesys :=
  mk_fs s.(nfdmap) s.(guest_files) s.(dup_data) s.(fs_recovery) s.(light_snap_accept_timeout) s.(accept_cnt) x s.(machine_fini) s.(syscalls).
Definition set_machine_fini (x : bool) (s : km_filesys) : km_filesys :=
  mk_fs s.(nfdmap) s.(guest_files) s.(dup_data) s.(fs_recovery) s.(light_snap_accept_timeout) s.(accept_cnt) s.(snap_listeners) x s.(syscalls).
Definition set_syscalls (x : list (fdcall * Z)) (s : km_filesys) : km_filesys :=
  mk_fs s.(nfdmap) s.(guest_files) s.(dup_data) s.(fs_recovery) s.(light_snap_accept_timeout) s.(accept_cnt) s.(snap_listeners) s.(machine_fini) x.

(** ** The host *)

(** Results of system calls; the descriptors a pipe, a socketpair or a recvmsg
    stores through its argument; /proc/self/fd links; regexec on the patterns of
    km_filename_table; sscanf of a descriptor number; the monitor's translation of a
    guest address. *)
Class FdHost := {
  fd_sys : list (fdcall * Z) -> fdcall -> Z;
  fd_pair : list (fdcall * Z) -> fdcall -> Z * Z;
  fd_list : list (fdcall * Z) -> fdcall -> list Z;
  fd_link : list (fdcall * Z) -> Z -> option string;
  regexec : Z -> string -> bool;
  sscanf_fd : string -> option Z;
  gva_to_kma : Z -> Z;
  read_op : list (fdcall * Z) -> Z -> Z -> Z;
  km_filename : string;
  proc_pid_length : nat;
}.

Section FdTable.
  Context `{FdHost}.

Definition sys (c : fdcall) : M km_filesys Z :=
  fun s => let r := fd_sys s.(syscalls) c in Ret (r, set_syscalls ((c, r) :: s.(syscalls)) s).

Definition file_at (s : km_filesys) (fd : Z) : km_file := default file_zero (s.(guest_files) !! fd).
Definition file_upd (fd : Z) (f : km_file -> km_file) : M km_filesys unit :=
  modify (fun s => set_guest_files (<[fd := f (file_at s fd)]> s.(guest_files)) s).

(** An index outside of guest_files reads and writes memory that is not the table's. *)
Definition in_bounds (fd : Z) : M km_filesys unit :=
  let* s := get in if (0 <=? fd) && (fd <? s.(nfdmap)) then ret tt else abort.

Definition km_is_file_used (f : km_file) : bool := f.(inuse).

(** ** Groups of dups *)
Definition in_group (fd : Z) (g : list Z) : bool := existsb (Z.eqb fd) g.

Fixpoint check_for_dups (fd : Z) (used : Z -> bool) (groups : list (list Z)) : Z :=
  match groups with
  | [] => -1
  | g :: rest =>
      if in_group fd g then
        match filter (fun ofd => ofd <> fd /\ used ofd = true) g with
        | ofd :: _ => ofd
        | [] => -2
        end
      else check_for_dups fd used rest
  end.
Definition km_fs_check_for_dups_nolock (s : km_filesys) (fd : Z) : Z :=
  check_for_dups fd (fun ofd => km_is_file_used (file_at s ofd)) s.(dup_data).

Definition km_fs_add_fd_to_dup_group (fd : Z) (g : list Z) : list Z := g ++ [fd].

Fixpoint add_to_groups (new_fd old_fd : Z) (groups : list (list Z)) : list (list Z) :=
  match groups with
  | [] => [[old_fd; new_fd]]
  | g :: rest => if in_group old_fd g then km_fs_add_fd_to_dup_group new_fd g :: rest
                 else g :: add_to_groups new_fd old_fd rest
  end.
Definition km_fs_add_to_dup_data (new_fd old_fd : Z) : M km_filesys unit :=
  modify (fun s => if s.(fs_recovery) then s else set_dup_data (add_to_groups new_fd old_fd s.(dup_data)) s).

(** The memmove over the first occurrence. *)
Fixpoint remove_first (fd : Z) (g : list Z) : list Z :=
  match g with
  | [] => []
  | x :: rest => if fd =? x then rest else x :: remove_first fd rest
  end.
Fixpoint close_dup (fd : Z) (groups : list (list Z)) : list (list Z) :=
  match groups with
  | [] => []
  | g :: rest => if in_group fd g
                 then if (2 <? length g)%nat then remove_first fd g :: rest else rest
                 else g :: close_dup fd rest
  end.
Definition km_fd_close_dup (fd : Z) : M km_filesys unit :=
  modify (fun s => set_dup_data (close_dup fd s.(dup_data)) s).

(** ** Entries *)
Definition km_get_nonfile_name (hostfd : Z) : M km_filesys (option string) :=
  gets (fun s => fd_link s.(syscalls) hostfd).

Definition km_add_guest_fd_internal (host_fd : Z) (name : option string) (flags : Z) (h : km_file_how_t) (o : option Z)
    : M km_filesys Z :=
  let* s := get in
  km_assert ((0 <=? host_fd) && (host_fd <? s.(nfdmap))) ;;;
  if (file_at s host_fd).(inuse) then abort
  else
    let* nm := (match name with None => km_get_nonfile_name host_fd | Some n => ret (Some n) end) in
    file_upd host_fd (fun file => mk_file true h flags file.(ferror) o (-1) nm None []) ;;;
    ret host_fd.

Definition km_add_guest_fd (host_fd : Z) (name : option string) (flags : Z) (o : option Z) : M km_filesys Z :=
  km_add_guest_fd_internal host_fd name flags KM_FILE_HOW_OPEN o.

Definition km_connect_files (guestfd : Z * Z) : M km_filesys unit :=
  file_upd guestfd.1 (set_ofd guestfd.2) ;;;
  file_upd guestfd.2 (set_ofd guestfd.1).

Definition km_add_socket_fd (hostfd : Z) (name : option string) (flags dom ty proto : Z) (h : km_file_how_t)
    : M km_filesys Z :=
  let* r := km_add_guest_fd_internal hostfd name flags h None in
  file_upd r (set_sockinfo (Some (mk_socket KM_SOCK_STATE_OPEN 0 dom ty proto 0 []))) ;;;
  ret r.

Definition km_dup_socket_fd (hostfd : Z) (name : option string) (flags : Z) (si : km_fd_socket) (h : km_file_how_t)
    : M km_filesys Z :=
  let* r := km_add_guest_fd_internal hostfd name flags h None in
  file_upd r (set_sockinfo (Some si)) ;;;
  ret r.

Definition km_set_active_accept : M km_filesys unit :=
  modify (fun s => if negb (s.(light_snap_accept_timeout) =? 0) then set_accept_cnt (s.(accept_cnt) + 1) s else s).

Definition km_set_inactive_accept : M km_filesys unit :=
  let* s := get in
  if negb (s.(light_snap_accept_timeout) =? 0) then
    let cnt := s.(accept_cnt) - 1 in
    modify (set_accept_cnt cnt) ;;;
    km_assert (0 <=? cnt) ;;;
    if (s.(light_snap_accept_timeout) <? 0) && (cnt =? 0) then modify (set_machine_fini true) else ret tt
  else ret tt.

Definition del_guest_fd (fd : Z) : M km_filesys unit :=
  let* s := get in
  km_assert ((0 <=? fd) && (fd <? s.(nfdmap))) ;;;
  let file := file_at s fd in
  km_assert (km_is_file_used file) ;;;
  (if negb (s.(light_snap_accept_timeout) =? 0) && bool_decide (file.(how) = KM_FILE_HOW_ACCEPT) && (file.(ferror) =? 0)
   then km_set_inactive_accept else ret tt) ;;;
  file_upd fd (fun f => mk_file false f.(how) f.(fflags) f.(ferror) None f.(ofd) None None []) ;;;
  km_fd_close_dup fd ;;;
  if negb (file.(ofd) =? -1) then
    file_upd fd (set_ofd (-1)) ;;;
    in_bounds file.(ofd) ;;;
    file_upd file.(ofd) (fun other => if other.(ofd) =? fd then set_ofd (-1) other else other)
  else ret tt.

Definition km_guestfd_error (s : km_filesys) (fd : Z) : Z := (file_at s fd).(ferror).
Definition km_guestfd_name (s : km_filesys) (fd : Z) : option string :=
  if (fd <? 0) || (s.(nfdmap) <=? fd) then None else (file_at s fd).(fname).

Definition km_fs_h2g_fd (s : km_filesys) (hostfd : Z) : Z :=
  if (hostfd <? 0) || (s.(nfdmap) <=? hostfd) then - ENOENT
  else if (file_at s hostfd).(inuse) then hostfd else - ENOENT.

(** The host descriptor and the ops of the file; [None] is the negative result. *)
Definition km_fs_g2h_fd (s : km_filesys) (fd : Z) : option (Z * option Z) :=
  if (fd <? 0) || (s.(nfdmap) <=? fd) then None
  else if (file_at s fd).(inuse) then Some (fd, (file_at s fd).(ops)) else None.

(** The first lines of a call on a descriptor: EBADF, or the error of a socket that
    did not survive a snapshot, or the call itself. *)
Definition on_fd (fd : Z) (k : Z -> option Z -> M km_filesys Z) : M km_filesys Z :=
  let* s := get in
  match km_fs_g2h_fd s fd with
  | None => ret (- EBADF)
  | Some (host_fd, o) => if km_guestfd_error s fd =? 0 then k host_fd o else ret (km_guestfd_error s fd)
  end.

(** ** File names *)

(** The ops of km_filename_table by line: names translated on open, reads and
    directory listings replaced. *)
Inductive name_op := NO_fd_name | NO_exe_name | NO_self_name.
Record filename_line := mk_line { open_g2h : option name_op; read_g2h : bool; getdents_g2h : bool }.
Definition km_filename_table : list filename_line :=
  [ mk_line (Some NO_fd_name) false false;
    mk_line (Some NO_exe_name) false false;
    mk_line None false true;
    mk_line None true false;
    mk_line None true false;
    mk_line (Some NO_fd_name) false false;
    mk_line (Some NO_exe_name) false false;
    mk_line None false true;
    mk_line (Some NO_self_name) true false;
    mk_line (Some NO_self_name) false false ].
Definition table_line (i : Z) : filename_line := nth (Z.to_nat i) km_filename_table (mk_line None false false).
Definition ops_read (o : option Z) : bool := match o with Some i => (table_line i).(read_g2h) | None => false end.
Definition ops_getdents (o : option Z) : bool := match o with Some i => (table_line i).(getdents_g2h) | None => false end.

Definition PATH_MAX : nat := 4096.
Definition km_filename_prefix : string := "/proc".

Definition proc_self_fd_name (s : km_filesys) (name : string) : Z :=
  match sscanf_fd name with
  | None => - ENOENT
  | Some fd => if s.(nfdmap) <=? fd then - ENOENT else 0
  end.

(** The result and the translated name (used when the result is positive). *)
Definition apply_name_op (s : km_filesys) (o : name_op) (name : string) : Z * string :=
  match o with
  | NO_fd_name => (proc_self_fd_name s name, name)
  | NO_exe_name => (Z.of_nat (Nat.min (String.length km_filename) PATH_MAX), String.substring 0 PATH_MAX km_filename)
  | NO_self_name =>
      let n := ("/proc/self" ++ String.substring proc_pid_length (String.length name - proc_pid_length) name)%string in
      (Z.of_nat (String.length n), String.substring 0 (PATH_MAX - 1) n)
  end.

Fixpoint match_table (s : km_filesys) (name : string) (i : Z) (t : list filename_line) : Z * string * option Z :=
  match t with
  | [] => (0, name, None)
  | l :: rest =>
      if regexec i name then
        match l.(open_g2h) with
        | Some o => let (r, n) := apply_name_op s o name in (r, n, Some i)
        | None => (1, name, Some i)
        end
      else match_table s name (i + 1) rest
  end.

Definition km_fs_g2h_filename (s : km_filesys) (name : string) : Z * string * option Z :=
  if negb (String.prefix km_filename_prefix name) then (0, name, None)
  else match_table s name 0 km_filename_table.

(** The tail of open and openat. *)
Definition opened (call : string -> fdcall) (pathname : string) (flags : Z) : M km_filesys Z :=
  let* s := get in
  let '(r, buf, o) := km_fs_g2h_filename s pathname in
  if r <? 0 then ret r
  else
    let pathname := if 0 <? r then buf else pathname in
    let* hostfd := sys (call pathname) in
    if 0 <=? hostfd then km_add_guest_fd_internal hostfd (Some pathname) flags KM_FILE_HOW_OPEN o
    else ret hostfd.

Definition km_fs_open (pathname : string) (flags mode : Z) : M km_filesys Z :=
  opened (fun p => F_open p flags mode) pathname flags.

Definition km_fs_at (s : km_filesys) (dirfd : Z) (pathname : string) : Z :=
  if negb (dirfd =? AT_FDCWD) && negb (String.prefix "/" pathname) then
    match km_fs_g2h_fd s dirfd with
    | None => - EBADF
    | Some (_, o) => if ops_getdents o then - EINVAL else 0
    end
  else 0.

Definition km_fs_openat (dirfd : Z) (pathname : string) (flags mode : Z) : M km_filesys Z :=
  let* s := get in
  let r := km_fs_at s dirfd pathname in
  if r <? 0 then ret r else opened (fun p => F_openat dirfd p flags mode) pathname flags.

(** ** Descriptors: close and dup *)
Definition km_fs_close (fd : Z) : M km_filesys Z :=
  let* s := get in
  match km_fs_g2h_fd s fd with
  | None => ret (- EBADF)
  | Some _ =>
      let r := km_guestfd_error s fd in
      del_guest_fd fd ;;;
      if negb (r =? 0) then ret r else sys (F_close fd)
  end.

(** Entering a dup of [fd] at [hostfd]; [h] and [o] are used for what is no socket. *)
Definition enter_dup (hostfd fd flags : Z) (name : option string) (h : km_file_how_t) (o : option Z) : M km_filesys Z :=
  let* s := get in
  let file := file_at s fd in
  let* r := (match file.(sockinfo) with
             | Some si => km_dup_socket_fd hostfd name flags si file.(how)
             | None => km_add_guest_fd_internal hostfd name flags h o
             end) in
  km_fs_add_to_dup_data r fd ;;;
  ret r.

Definition km_fs_fcntl (fd cmd arg : Z) : M km_filesys Z :=
  on_fd fd (fun host_fd o =>
    let farg := if (cmd =? F_SETLK) || (cmd =? F_SETLKW) || (cmd =? F_GETLK) then gva_to_kma arg else arg in
    if (cmd =? F_DUPFD) || (cmd =? F_DUPFD_CLOEXEC) then
      let* r := sys (F_fcntl_dup host_fd cmd farg) in
      if 0 <=? r then
        let* s := get in
        enter_dup r fd (if cmd =? F_DUPFD then 0 else O_CLOEXEC) (km_guestfd_name s fd) (file_at s fd).(how) o
      else ret r
    else sys (F_sys SYS_fcntl [host_fd; cmd; farg])).

Definition km_fs_dup (fd : Z) : M km_filesys Z :=
  on_fd fd (fun host_fd o =>
    let* s := get in
    let name := km_guestfd_name s fd in
    km_assert (match name with Some _ => true | None => false end) ;;;
    let* r := sys (F_dup host_fd) in
    if 0 <=? r then enter_dup r host_fd 0 name (file_at s host_fd).(how) o else ret r).

Definition km_fs_dup3 (fd newfd flags : Z) : M km_filesys Z :=
  if fd =? newfd then ret (- EINVAL)
  else if negb (Z.land flags (Z.lnot O_CLOEXEC) =? 0) then ret (- EINVAL)
  else
    let* s := get in
    if (newfd <? 0) || (s.(nfdmap) <=? newfd) then ret (- EBADF)
    else on_fd fd (fun host_fd o =>
      let name := km_guestfd_name s fd in
      km_assert (match name with Some _ => true | None => false end) ;;;
      let* r := sys (F_dup3 host_fd newfd flags) in
      if 0 <=? r then
        let* s := get in
        (if km_is_file_used (file_at s r) then del_guest_fd r else ret tt) ;;;
        enter_dup r host_fd flags name KM_FILE_HOW_OPEN o
      else ret r).

Definition km_fs_dup2 (fd newfd : Z) : M km_filesys Z :=
  if fd =? newfd then ret fd else km_fs_dup3 fd newfd 0.

(** ** New descriptors *)
Definition pipe_fds (call : fdcall) (flags : Z) : M km_filesys (Z * (Z * Z)) :=
  let* s := get in
  let host_pipefd := fd_pair s.(syscalls) call in
  let* r := sys call in
  if r =? 0 then
    let* a := km_add_guest_fd_internal host_pipefd.1 None (Z.lor flags O_RDONLY) KM_FILE_HOW_PIPE_0 None in
    let* b := km_add_guest_fd_internal host_pipefd.2 None (Z.lor flags O_WRONLY) KM_FILE_HOW_PIPE_1 None in
    km_connect_files (a, b) ;;;
    ret (r, (a, b))
  else ret (r, (0, 0)).
Definition km_fs_pipe : M km_filesys (Z * (Z * Z)) := pipe_fds (F_pipe2 0) 0.
Definition km_fs_pipe2 (flags : Z) : M km_filesys (Z * (Z * Z)) := pipe_fds (F_pipe2 flags) flags.

Definition km_fs_eventfd2 (initval flags : Z) : M km_filesys Z :=
  let* r := sys (F_eventfd initval flags) in
  if 0 <=? r then km_add_guest_fd_internal r None 0 KM_FILE_HOW_EVENTFD None else ret r.

Definition km_fs_timerfd_create (clockid flags : Z) : M km_filesys Z :=
  let* r := sys (F_timerfd clockid flags) in
  if 0 <=? r then km_add_guest_fd_internal r None flags KM_FILE_HOW_TIMERFD None else ret r.

Definition km_fs_socket (dom ty proto : Z) : M km_filesys Z :=
  let* r := sys (F_socket dom ty proto) in
  if 0 <=? r then km_add_socket_fd r None 0 dom ty proto KM_FILE_HOW_SOCKET else ret r.

Definition km_fs_socketpair (dom ty proto : Z) : M km_filesys (Z * (Z * Z)) :=
  let* s := get in
  let host_sv := fd_pair s.(syscalls) (F_socketpair dom ty proto) in
  let* r := sys (F_socketpair dom ty proto) in
  if r =? 0 then
    let* a := km_add_socket_fd host_sv.1 None 0 dom ty proto KM_FILE_HOW_SOCKETPAIR0 in
    let* b := km_add_socket_fd host_sv.2 None 0 dom ty proto KM_FILE_HOW_SOCKETPAIR1 in
    km_connect_files (a, b) ;;;
    ret (r, (a, b))
  else ret (r, (0, 0)).

(** ** Sockets *)

(** [sock->f = ...] through a sockinfo that may be NULL. *)
Definition sock_upd (fd : Z) (f : km_fd_socket -> km_fd_socket) : M km_filesys unit :=
  let* s := get in
  match (file_at s fd).(sockinfo) with
  | Some si => file_upd fd (set_sockinfo (Some (f si)))
  | None => abort
  end.

Definition km_fs_bind (sockfd : Z) (a : list Z) (alen : Z) : M km_filesys Z :=
  on_fd sockfd (fun host _ =>
    let* r := sys (F_sys SYS_bind [host; alen]) in
    (if r =? 0
     then sock_upd sockfd (fun s => mk_socket KM_SOCK_STATE_BIND s.(backlog) s.(domain) s.(type_) s.(protocol) alen a)
     else ret tt) ;;;
    ret r).

Definition km_fs_listen (sockfd bl : Z) : M km_filesys Z :=
  on_fd sockfd (fun host _ =>
    let* r := sys (F_sys SYS_listen [host; bl]) in
    (if r =? 0
     then sock_upd sockfd (fun s => mk_socket KM_SOCK_STATE_LISTEN bl s.(domain) s.(type_) s.(protocol) s.(addrlen) s.(addr))
     else ret tt) ;;;
    ret r).

Definition km_fs_connect (sockfd alen : Z) : M km_filesys Z :=
  on_fd sockfd (fun host _ =>
    let* r := sys (F_sys SYS_connect [host; alen]) in
    (if 0 <=? r then sock_upd sockfd (with_state KM_SOCK_STATE_CONNECT) else ret tt) ;;;
    ret r).

(** The connection accepted before the snapshot was restored, if there is one. *)
Definition km_snap_find_accepted (listenfd : Z) : M km_filesys (option Z) :=
  let* s := get in
  match filter (fun p => p.1 = listenfd) s.(snap_listeners) with
  | (_, accept_fd) :: _ =>
      if 0 <=? accept_fd then modify (set_snap_listeners []) ;;; ret (Some accept_fd) else ret None
  | [] => ret None
  end.

(** Entering the accepted connection [hostfd] of the listening [sockfd]. *)
Definition enter_accepted (sockfd hostfd : Z) : M km_filesys Z :=
  if hostfd <? 0 then ret hostfd
  else
    let* s := get in
    match (file_at s sockfd).(sockinfo) with
    | None => abort
    | Some lsock =>
        let* guestfd := km_add_socket_fd hostfd None 0 lsock.(domain) lsock.(type_) lsock.(protocol) KM_FILE_HOW_ACCEPT in
        sock_upd guestfd (with_state KM_SOCK_STATE_ACCEPT) ;;;
        km_set_active_accept ;;;
        ret guestfd
    end.

(** [want_addr]: the guest passed buffers for the peer's address. *)
Definition km_fs_accept4 (sockfd : Z) (want_addr : bool) (fl : Z) : M km_filesys Z :=
  on_fd sockfd (fun host _ =>
    let* accepted := km_snap_find_accepted sockfd in
    match accepted with
    | Some accept_fd =>
        let* hostfd := sys (F_dup accept_fd) in
        let* _ := sys (F_close accept_fd) in
        let* r := (if want_addr then sys (F_sys SYS_getpeername [hostfd]) else ret 0) in
        if r <? 0 then ret r
        else
          (if negb (fl =? 0) then
             let* tmp := sys (F_sys SYS_fcntl [hostfd; F_GETFL]) in
             let* _ := sys (F_sys SYS_fcntl [hostfd; F_SETFL; Z.lor tmp (Z.land fl (Z.lor SOCK_NONBLOCK SOCK_CLOEXEC))]) in
             ret tt
           else ret tt) ;;;
          enter_accepted sockfd hostfd
    | None =>
        let* hostfd := sys (F_accept4 host fl) in
        if hostfd <? 0 then ret hostfd else enter_accepted sockfd hostfd
    end).

Definition km_fs_accept (sockfd : Z) (want_addr : bool) : M km_filesys Z := km_fs_accept4 sockfd want_addr 0.

(** sendmsg and recvmsg with the descriptors of their SCM_RIGHTS messages: the ones
    sent are translated, the ones received are entered.  The result has the
    descriptors as the host (sendmsg) or the guest (recvmsg) gets to see them. *)
Fixpoint add_received (flag : Z) (fds : list Z) : M km_filesys (list Z) :=
  match fds with
  | [] => ret []
  | fd :: rest =>
      let* g := km_add_guest_fd_internal fd None flag KM_FILE_HOW_RECVMSG None in
      let* gs := add_received flag rest in
      ret (g :: gs)
  end.

Definition km_fs_sendmsg (sockfd flag : Z) (fds : list Z) : M km_filesys (Z * list Z) :=
  let* s := get in
  match km_fs_g2h_fd s sockfd with
  | None => ret (- EBADF, [])
  | Some (host, _) =>
      if km_guestfd_error s sockfd =? 0 then
        let hostfds := map (fun fd => match km_fs_g2h_fd s fd with Some (h, _) => h | None => -1 end) fds in
        let* r := sys (F_sys SYS_sendmsg (host :: flag :: hostfds)) in
        ret (r, hostfds)
      else ret (km_guestfd_error s sockfd, [])
  end.

Definition km_fs_recvmsg (sockfd flag : Z) : M km_filesys (Z * list Z) :=
  let* s := get in
  match km_fs_g2h_fd s sockfd with
  | None => ret (- EBADF, [])
  | Some (host, _) =>
      if km_guestfd_error s sockfd =? 0 then
        let fds := fd_list s.(syscalls) (F_recvmsg host flag) in
        let* r := sys (F_recvmsg host flag) in
        if 0 <=? r then let* gs := add_received flag fds in ret (r, gs) else ret (r, [])
      else ret (km_guestfd_error s sockfd, [])
  end.

(** ** Calls passed on *)
Definition km_fs_flock (fd op : Z) : M km_filesys Z := on_fd fd (fun h _ => sys (F_sys SYS_flock [h; op])).
Definition km_fs_shutdown (fd how : Z) : M km_filesys Z := on_fd fd (fun h _ => sys (F_sys SYS_shutdown [h; how])).
Definition km_fs_ioctl (fd request arg : Z) : M km_filesys Z := on_fd fd (fun h _ => sys (F_sys SYS_ioctl [h; request; arg])).
Definition km_fs_ftruncate (fd len : Z) : M km_filesys Z := on_fd fd (fun h _ => sys (F_sys SYS_ftruncate [h; len])).
Definition km_fs_fsync (fd : Z) : M km_filesys Z := on_fd fd (fun h _ => sys (F_sys SYS_fsync [h])).
Definition km_fs_fdatasync (fd : Z) : M km_filesys Z := on_fd fd (fun h _ => sys (F_sys SYS_fdatasync [h])).
Definition km_fs_fchmod (fd mode : Z) : M km_filesys Z := on_fd fd (fun h _ => sys (F_sys SYS_fchmod [h; mode])).
Definition km_fs_fstat (fd buf : Z) : M km_filesys Z := on_fd fd (fun h _ => sys (F_sys SYS_fstat [h; buf])).
Definition km_fs_fstatfs (fd buf : Z) : M km_filesys Z := on_fd fd (fun h _ => sys (F_sys SYS_fstatfs [h; buf])).
Definition km_fs_getsockopt (fd level opt val len : Z) : M km_filesys Z :=
  on_fd fd (fun h _ => sys (F_sys SYS_getsockopt [h; level; opt; val; len])).
Definition km_fs_setsockopt (fd level opt val len : Z) : M km_filesys Z :=
  on_fd fd (fun h _ => sys (F_sys SYS_setsockopt [h; level; opt; val; len])).

(** fchown does not look at the error of the file. *)
Definition km_fs_fchown (fd uid gid : Z) : M km_filesys Z :=
  let* s := get in
  match km_fs_g2h_fd s fd with
  | None => ret (- EBADF)
  | Some (h, _) => sys (F_sys SYS_fchown [h; uid; gid])
  end.

Definition km_fs_fchdir (fd : Z) : M km_filesys Z :=
  on_fd fd (fun h o => match o with Some _ => ret (- EINVAL) | None => sys (F_sys SYS_fchdir [h]) end).

(** [read_op] is the replaced read of a file under /proc. *)
Definition km_fs_prw (scall fd buf count off : Z) : M km_filesys Z :=
  on_fd fd (fun h o =>
    if ops_read o && ((scall =? SYS_read) || (scall =? SYS_pread64)) then
      if (scall =? SYS_pread64) && negb (off =? 0) then ret (- EINVAL)
      else let* s := get in ret (read_op s.(syscalls) h count)
    else sys (F_sys scall [h; buf; count; off])).

Definition km_fs_lseek (fd off whence : Z) : M km_filesys Z :=
  on_fd fd (fun h o =>
    if ops_read o && negb (whence =? SEEK_SET) && negb (off =? 0) then ret (- EINVAL)
    else sys (F_sys SYS_lseek [h; off; whence])).

Definition km_fs_sendfile (out_fd in_fd off count : Z) : M km_filesys Z :=
  on_fd out_fd (fun ho _ => on_fd in_fd (fun hi o =>
    if ops_read o then ret (- EINVAL) else sys (F_sys SYS_sendfile [ho; hi; off; count]))).

(** The second error test is of the output file again. *)
Definition km_fs_copy_file_range (fd_in off_in fd_out off_out len flags : Z) : M km_filesys Z :=
  on_fd fd_out (fun ho _ =>
    let* s := get in
    match km_fs_g2h_fd s fd_in with
    | None => ret (- EBADF)
    | Some (hi, o) =>
        if negb (km_guestfd_error s fd_out =? 0) then ret (km_guestfd_error s fd_out)
        else if ops_read o then ret (- EINVAL)
        else sys (F_sys SYS_copy_file_range [hi; off_in; ho; off_out; len; flags])
    end).

(** ** Epoll sets *)
Definition km_fs_event_find (f : km_file) (fd : Z) : option km_fs_event := find (fun e => e.(ev_fd) =? fd) f.(fevents).

Definition km_fs_event_add (epfd guestfd : Z) (ev : epoll_event) : M km_filesys unit :=
  let* s := get in
  km_assert (match km_fs_event_find (file_at s epfd) guestfd with None => true | Some _ => false end) ;;;
  file_upd epfd (fun f => set_fevents (f.(fevents) ++ [mk_fs_event guestfd ev]) f).

Fixpoint event_replace (fd : Z) (ev : epoll_event) (l : list km_fs_event) : list km_fs_event :=
  match l with
  | [] => []
  | e :: rest => if e.(ev_fd) =? fd then mk_fs_event fd ev :: rest else e :: event_replace fd ev rest
  end.
Definition km_fs_event_mod (epfd guestfd : Z) (ev : epoll_event) : M km_filesys unit :=
  let* s := get in
  km_assert (match km_fs_event_find (file_at s epfd) guestfd with None => false | Some _ => true end) ;;;
  file_upd epfd (fun f => set_fevents (event_replace guestfd ev f.(fevents)) f).

Fixpoint event_remove (fd : Z) (l : list km_fs_event) : list km_fs_event :=
  match l with
  | [] => []
  | e :: rest => if e.(ev_fd) =? fd then rest else e :: event_remove fd rest
  end.
Definition km_fs_event_del (epfd guestfd : Z) : M km_filesys unit :=
  let* s := get in
  km_assert (match km_fs_event_find (file_at s epfd) guestfd with None => false | Some _ => true end) ;;;
  file_upd epfd (fun f => set_fevents (event_remove guestfd f.(fevents)) f).

Definition km_fs_epoll_create1 (flags : Z) : M km_filesys Z :=
  let* hostfd := sys (F_epoll_create flags) in
  if 0 <=? hostfd then km_add_guest_fd_internal hostfd None 0 KM_FILE_HOW_EPOLLFD None else ret (-1).

Definition km_fs_epoll_ctl (epfd op fd : Z) (ev : epoll_event) : M km_filesys Z :=
  let* s := get in
  match km_fs_g2h_fd s epfd, km_fs_g2h_fd s fd with
  | Some (hep, _), Some (h, _) =>
      let* r := sys (F_epoll_ctl hep op h ev) in
      (if r =? 0 then
         if op =? EPOLL_CTL_ADD then km_fs_event_add epfd fd ev
         else if op =? EPOLL_CTL_MOD then km_fs_event_mod epfd fd ev
         else if op =? EPOLL_CTL_DEL then km_fs_event_del epfd fd
         else ret tt
       else ret tt) ;;;
      ret r
  | _, _ => ret (- EBADF)
  end.

(** ** Start of the monitor *)

(** The standard streams of km_fs_init; on a terminal they get names of their own. *)
Definition std_name (i : Z) (own : string) : option string :=
  match fd_link [] i with
  | Some n => Some (if String.prefix "/dev/pts/" n then own else n)
  | None => None
  end.
Definition std_file (flags : Z) (name : option string) : km_file := mk_file true KM_FILE_HOW_OPEN flags 0 None (-1) name None [].
Definition stdin_name : string := "[stdin]".
Definition stdout_name : string := "[stdout]".
Definition stderr_name : string := "[stderr]".

(** The table of a monitor that was not started by its own exec. *)
Definition km_fs_init : km_filesys :=
  mk_fs (MAX_OPEN_FILES - MAX_KM_FILES)
    (<[0 := std_file O_RDONLY (std_name 0 stdin_name)]> (<[1 := std_file O_WRONLY (std_name 1 stdout_name)]>
      (<[2 := std_file O_WRONLY (std_name 2 stderr_name)]> ∅)))
    [] false 0 0 [] false [].

End FdTable.

(** ** Dup groups in a snapshot: words of the note *)
Definition km_fs_core_dup_write (groups : list (list Z)) : list Z :=
  Z.of_nat (length groups) :: flat_map (fun g => Z.of_nat (length g) :: g) groups.

(** [None]: the note is shorter than its counts say. *)
Fixpoint read_groups (n : nat) (words : list Z) : option (list (list Z)) :=
  match n with
  | O => Some []
  | S n' =>
      match words with
      | [] => None
      | sz :: rest =>
          if (length rest <? Z.to_nat sz)%nat then None
          else gs ← read_groups n' (drop (Z.to_nat sz) rest); Some (take (Z.to_nat sz) rest :: gs)
      end
  end.
Definition km_fs_recover_dup_data (words : list Z) : option (list (list Z)) :=
  match words with
  | [] => None
  | n :: rest => read_groups (Z.to_nat n) rest
  end.
