(* ===== verification/FdGroups.v ===== *)
(** * Descriptors that are dups of each other

    The monitor records which guest descriptors are dups of each other, because a
    snapshot must restore them as such.  This file treats the groups as a relation
    on descriptors and shows what the two operations on them do to it. *)
From S2P Require Import Prelude FdTable.

(** ** The groups as a relation *)
Definition together (G : list (list Z)) (a b : Z) : Prop := exists g, g ∈ G /\ a ∈ g /\ b ∈ g.

Lemma in_group_spec fd g : in_group fd g = true <-> fd ∈ g.
Proof.
  unfold in_group. rewrite existsb_exists, list_elem_of_In. split.
  - intros (x & Hx & ->%Z.eqb_eq). done.
  - intros Hx. exists fd. by rewrite Z.eqb_refl.
Qed.

Lemma in_group_false fd g : in_group fd g = false <-> fd ∉ g.
Proof. rewrite <- not_true_iff_false, in_group_spec. done. Qed.

Lemma elem_of_concat fd (G : list (list Z)) : fd ∈ concat G <-> exists g, g ∈ G /\ fd ∈ g.
Proof.
  rewrite list_elem_of_In, in_concat. split; intros (g & H1 & H2); exists g; by rewrite ?list_elem_of_In in *.
Qed.

Lemma together_cons g G a b : together (g :: G) a b <-> (a ∈ g /\ b ∈ g) \/ together G a b.
Proof.
  unfold together. split.
  - intros (h & [->|Hh]%elem_of_cons & Ha & Hb); [by left|right; by exists h].
  - intros [[Ha Hb]|(h & Hh & Ha & Hb)]; [exists g|exists h]; rewrite elem_of_cons; auto.
Qed.

Lemma together_sym G a b : together G a b -> together G b a.
Proof. intros (g & H1 & H2 & H3). by exists g. Qed.

(** Adding a dup joins it to the group of the original, or starts one. *)
Lemma add_to_groups_together n o G a b :
  NoDup (concat G) -> n ∉ concat G -> a <> b ->
  together (add_to_groups n o G) a b <->
  together G a b \/ (a = n /\ (b = o \/ together G o b)) \/ (b = n /\ (a = o \/ together G o a)).
Proof.
  intros Hnd Hn Hab. induction G as [|g G IH]; cbn [add_to_groups].
  - rewrite together_cons, !elem_of_cons. unfold together. 
    assert (Hnil : forall x y, ~ (exists g : list Z, g ∈ [] /\ x ∈ g /\ y ∈ g)) by (intros x y (g & Hg & _); by apply not_elem_of_nil in Hg).
    split.
    + intros [[[->|[->|Ha]] [->|[->|Hb]]]|H]; try (by apply not_elem_of_nil in Ha); try (by apply not_elem_of_nil in Hb); auto;
        try done; by apply Hnil in H.
    + intros [H|[[-> [->|H]]|[-> [->|H]]]]; try (by apply Hnil in H); auto.
  - cbn [concat] in *. apply NoDup_app in Hnd as (Hg & Hdisj & Hnd). rewrite elem_of_app in Hn.
    assert (Hng : n ∉ g) by tauto. assert (HnG : n ∉ concat G) by tauto. clear Hn. specialize (IH Hnd HnG).
    destruct (in_group o g) eqn:E.
    + apply in_group_spec in E. rewrite !together_cons. unfold km_fs_add_fd_to_dup_group.
      rewrite !elem_of_app, !list_elem_of_singleton.
      assert (Ho : forall x, ~ together G o x).
      { intros x (h & Hh & Ho & _). apply (Hdisj o E). apply elem_of_concat. by exists h. }
      assert (Hto : forall x, together G o x <-> False) by (intros; split; [apply Ho|done]). rewrite !Hto.
      split; intros H; repeat match goal with H : _ \/ _ |- _ => destruct H | H : _ /\ _ |- _ => destruct H end; subst; auto; try done; tauto.
    + apply in_group_false in E. rewrite !together_cons, IH.
      split; intros H; repeat match goal with H : _ \/ _ |- _ => destruct H | H : _ /\ _ |- _ => destruct H end; subst; auto; try done; tauto.
Qed.

Lemma add_to_groups_concat n o G :
  n ∉ concat G -> n <> o -> NoDup (concat G) ->
  NoDup (concat (add_to_groups n o G)) /\ (forall x, x ∈ concat (add_to_groups n o G) <-> x = n \/ x = o \/ x ∈ concat G).
Proof.
  intros Hn Hno Hnd. induction G as [|g G IH]; cbn [add_to_groups concat app] in *.
  - split; [|intros x; rewrite !elem_of_cons; tauto]. apply NoDup_cons. split; [rewrite list_elem_of_singleton; congruence|apply NoDup_singleton].
  - rewrite elem_of_app in Hn. apply NoDup_app in Hnd as (Hg & Hdisj & Hnd).
    assert (Hng : n ∉ g) by tauto. assert (HnG : n ∉ concat G) by tauto. destruct (IH HnG Hnd) as [IH1 IH2].
    destruct (in_group o g) eqn:E; cbn [concat]; unfold km_fs_add_fd_to_dup_group.
    + apply in_group_spec in E. split.
      * rewrite <- app_assoc. apply NoDup_app. split_and!; [done| |].
        -- intros x Hx [->|Hx2]%elem_of_cons; [done|]. by apply (Hdisj x).
        -- by apply NoDup_cons.
      * intros x. rewrite !elem_of_app, list_elem_of_singleton. split; [tauto|]. intros [->|[->|[|]]]; tauto.
    + apply in_group_false in E. split.
      * apply NoDup_app. split_and!; [done| |done]. intros x Hx. rewrite IH2. intros [->|[->|Hx2]]; [done|done|]. by apply (Hdisj x).
      * intros x. rewrite !elem_of_app, IH2. tauto.
Qed.

Lemma remove_first_spec fd g x : NoDup g -> x ∈ remove_first fd g <-> x ∈ g /\ x <> fd.
Proof.
  induction 1 as [|y g Hy Hnd IH]; cbn [remove_first].
  - split; [intros H; by apply not_elem_of_nil in H|intros [H _]; by apply not_elem_of_nil in H].
  - destruct (Z.eqb_spec fd y) as [->|Hne].
    + rewrite elem_of_cons. split; [intros H; split; [by right|intros ->; done]|intros [[->|H] Hn]; [done|done]].
    + rewrite !elem_of_cons, IH. split; [intros [->|[H1 H2]]; auto|intros [[->|H] Hn]; auto].
Qed.

Lemma remove_first_sub fd g x : x ∈ remove_first fd g -> x ∈ g.
Proof.
  induction g as [|y g IH]; cbn; [done|]. destruct (fd =? y); rewrite !elem_of_cons; tauto.
Qed.

Lemma remove_first_nodup fd g : NoDup g -> NoDup (remove_first fd g).
Proof.
  induction 1 as [|y g Hy Hnd IH]; cbn; [constructor|]. destruct (fd =? y); [done|]. apply NoDup_cons. split; [|done].
  intros Hin. by apply remove_first_sub in Hin.
Qed.

Lemma remove_first_length fd g : fd ∈ g -> length g = S (length (remove_first fd g)).
Proof.
  induction g as [|y g IH]; intros Hin; [by apply not_elem_of_nil in Hin|]. cbn.
  destruct (Z.eqb_spec fd y); [done|]. cbn. f_equal. apply IH. apply elem_of_cons in Hin as [|]; [congruence|done].
Qed.

Definition sized (G : list (list Z)) : Prop := forall g, g ∈ G -> (2 <= length g)%nat.

(** Closing takes the descriptor out of its group. *)
Lemma close_dup_together fd G a b :
  NoDup (concat G) -> sized G -> a <> b ->
  together (close_dup fd G) a b <-> together G a b /\ a <> fd /\ b <> fd.
Proof.
  intros Hnd Hsz Hab. induction G as [|g G IH]; cbn [close_dup].
  - split; [intros (g & Hg & _); by apply not_elem_of_nil in Hg|intros [(g & Hg & _) _]; by apply not_elem_of_nil in Hg].
  - cbn [concat] in Hnd. apply NoDup_app in Hnd as (Hg & Hdisj & Hnd).
    assert (HszG : sized G) by (intros h Hh; apply Hsz, elem_of_cons; by right). specialize (IH Hnd HszG).
    assert (Hlen : (2 <= length g)%nat) by (apply Hsz, elem_of_cons; by left).
    destruct (in_group fd g) eqn:E.
    + apply in_group_spec in E.
      assert (HG : forall x y, together G x y -> x <> fd /\ y <> fd).
      { intros x y (h & Hh & Hx & Hy).
        assert (Hh' : forall z, z ∈ h -> z <> fd) by (intros z Hz ->; apply (Hdisj fd E); apply elem_of_concat; by exists h).
        split; by apply Hh'. }
      destruct (Nat.ltb_spec 2 (length g)).
      * rewrite !together_cons, !remove_first_spec by done. split; [intros [|H1]; [tauto|destruct (HG _ _ H1); tauto]|tauto].
      * rewrite together_cons. split; [intros H1; destruct (HG _ _ H1); tauto|]. intros [[[Ha Hb]|H1] [Na Nb]]; [|done]. exfalso.
        destruct g as [|x [|y [|z g]]]; cbn in *; try lia. rewrite !elem_of_cons in *.
        destruct E as [->|[->|E]]; [| |by apply not_elem_of_nil in E];
          destruct Ha as [->|[->|Ha]]; try done; try (by apply not_elem_of_nil in Ha);
          destruct Hb as [->|[->|Hb]]; try done; try (by apply not_elem_of_nil in Hb).
    + apply in_group_false in E. rewrite !together_cons, IH. split; [intros [[Ha Hb]|]; [|tauto]|tauto].
      split; [by left|]. split; intros ->; done.
Qed.

Lemma close_dup_sub fd G x : x ∈ concat (close_dup fd G) -> x ∈ concat G.
Proof.
  induction G as [|g G IH]; cbn [close_dup concat]; [done|]. destruct (in_group fd g); [destruct (_ <? _)%nat|]; cbn [concat];
    rewrite ?elem_of_app; intros H; [destruct H as [H%remove_first_sub|]|..]; tauto.
Qed.

Lemma close_dup_ok fd G :
  NoDup (concat G) -> sized G ->
  NoDup (concat (close_dup fd G)) /\ sized (close_dup fd G) /\ (fd ∉ concat (close_dup fd G)).
Proof.
  intros Hnd Hsz. induction G as [|g G IH]; cbn [close_dup concat] in *; [split_and!; [constructor|done|apply not_elem_of_nil]|].
  apply NoDup_app in Hnd as (Hg & Hdisj & Hnd).
  assert (HszG : sized G) by (intros h Hh; apply Hsz, elem_of_cons; by right). destruct (IH Hnd HszG) as (I1 & I2 & I3).
  assert (Hlen : (2 <= length g)%nat) by (apply Hsz, elem_of_cons; by left).
  destruct (in_group fd g) eqn:E.
  - apply in_group_spec in E. destruct (Nat.ltb_spec 2 (length g)); cbn [concat].
    + split_and!.
      * apply NoDup_app. split_and!; [by apply remove_first_nodup| |done]. intros x Hx%remove_first_sub. by apply Hdisj.
      * intros h [->|Hh]%elem_of_cons; [|by apply HszG]. pose proof (remove_first_length fd g E). lia.
      * rewrite elem_of_app, remove_first_spec by done. intros [[_ ?]|Hx]; [done|]. by apply (Hdisj fd).
    + split_and!; [done|done|by apply Hdisj].
  - apply in_group_false in E. cbn [concat]. split_and!.
    + apply NoDup_app. split_and!; [done| |done]. intros x Hx Hx2. by apply (Hdisj x), (close_dup_sub fd).
    + intros h [->|Hh]%elem_of_cons; [done|by apply I2].
    + rewrite elem_of_app. tauto.
Qed.
