(* ===== verification/FdInv.v ===== *)
(** * The descriptor table and the host's open files

    The reference for the table of km_filesys.c is the host kernel's own table, which
    maps a descriptor to an open file description.  [fd_inv] relates the two; the
    operations on one entry preserve it. *)
From S2P Require Import Prelude FdTable FdGroups.

(** ** The host kernel's table *)

(** Descriptor to open file description; a description is numbered by the call that
    made it.  Each call has its documented effect, whatever the guest descriptors. *)
Abbreviation kernel := (gmap Z (Z * bool)).

Definition creates (c : fdcall) : bool :=
  match c with
  | F_open _ _ _ | F_openat _ _ _ _ | F_eventfd _ _ | F_socket _ _ _ | F_accept4 _ _ | F_epoll_create _ | F_timerfd _ _ => true
  | _ => false
  end.
Definition dups (c : fdcall) : option Z :=
  match c with F_dup fd => Some fd | F_fcntl_dup fd _ _ => Some fd | _ => None end.
Definition makes_pair (c : fdcall) : bool :=
  match c with F_pipe2 _ | F_socketpair _ _ _ => true | _ => false end.

(** A description is a number and whether it is a socket's. *)
Definition makes_socket (c : fdcall) : bool :=
  match c with F_socket _ _ _ | F_accept4 _ _ | F_socketpair _ _ _ => true | _ => false end.

Section Kernel.
  Context (pairs : list (fdcall * Z) -> fdcall -> Z * Z) (k0 : kernel).

Definition copy_fd (from to : Z) (k : kernel) : kernel :=
  match k !! from with Some d => <[to := d]> k | None => k end.

Definition kernel_step (c : fdcall) (r : Z) (h : list (fdcall * Z)) (k : kernel) : kernel :=
  let d := 2 * Z.of_nat (length h) in
  match c with
  | F_close fd => delete fd k
  | F_dup3 fd newfd _ => if 0 <=? r then copy_fd fd newfd k else k
  | _ =>
      if creates c then (if 0 <=? r then <[r := (d, makes_socket c)]> k else k)
      else if makes_pair c then (if r =? 0 then <[(pairs h c).2 := (d + 1, makes_socket c)]> (<[(pairs h c).1 := (d, makes_socket c)]> k) else k)
      else match dups c with
           | Some fd => if 0 <=? r then copy_fd fd r k else k
           | None => k
           end
  end.

Fixpoint kernel_of (h : list (fdcall * Z)) : kernel :=
  match h with
  | [] => k0
  | (c, r) :: h' => kernel_step c r h' (kernel_of h')
  end.

End Kernel.

(** Calls that succeed on sockets only. *)
Definition on_socket (c : fdcall) : option Z :=
  match c with
  | F_accept4 fd _ => Some fd
  | F_sys nr (fd :: _) => if (nr =? SYS_bind) || (nr =? SYS_listen) || (nr =? SYS_connect) then Some fd else None
  | _ => None
  end.

(** What is documented of the host: a new descriptor was not open before, dup needs
    an open descriptor, dup3 returns the number asked for, a call for sockets fails
    on what is none, an open descriptor has a link in /proc/self/fd; and the
    descriptors given to the guest stay below [limit].  Of the descriptors below
    [limit] the monitor starts with 0, 1 and 2, on three descriptions that are not
    sockets. *)
Class HostOk `{FdHost} (k0 : kernel) (limit : Z) : Prop := {
  ho_new : forall h c, creates c = true -> 0 <= fd_sys h c -> kernel_of fd_pair k0 h !! fd_sys h c = None /\ fd_sys h c < limit;
  ho_dup : forall h c fd, dups c = Some fd -> 0 <= fd_sys h c ->
    kernel_of fd_pair k0 h !! fd_sys h c = None /\ is_Some (kernel_of fd_pair k0 h !! fd) /\ fd_sys h c < limit;
  ho_dup3 : forall h fd newfd flags, 0 <= fd_sys h (F_dup3 fd newfd flags) ->
    fd_sys h (F_dup3 fd newfd flags) = newfd /\ is_Some (kernel_of fd_pair k0 h !! fd);
  ho_pair : forall h c, makes_pair c = true -> fd_sys h c = 0 ->
    let p := fd_pair h c in p.1 <> p.2 /\ 0 <= p.1 < limit /\ 0 <= p.2 < limit
    /\ kernel_of fd_pair k0 h !! p.1 = None /\ kernel_of fd_pair k0 h !! p.2 = None;
  ho_socket : forall h c fd, on_socket c = Some fd -> 0 <= fd_sys h c -> exists d, kernel_of fd_pair k0 h !! fd = Some (d, true);
  ho_link : forall h fd, is_Some (kernel_of fd_pair k0 h !! fd) -> is_Some (fd_link h fd);
  ho_std : exists a b c, a <> b /\ a <> c /\ b <> c
    /\ k0 !! 0 = Some (a, false) /\ k0 !! 1 = Some (b, false) /\ k0 !! 2 = Some (c, false);
  ho_start : forall fd d, k0 !! fd = Some d -> d.1 < 0 /\ (fd < limit -> fd = 0 \/ fd = 1 \/ fd = 2);
}.

(** ** The invariant *)
Definition used (s : km_filesys) (fd : Z) : Prop := (file_at s fd).(inuse) = true.

Record fd_inv (K : kernel) (s : km_filesys) : Prop := {
  fi_range : forall fd, used s fd -> 0 <= fd < s.(nfdmap);
  fi_open : forall fd, used s fd -> is_Some (K !! fd);
  fi_nodup : NoDup (concat s.(dup_data));
  fi_sized : sized s.(dup_data);
  fi_members : forall fd, fd ∈ concat s.(dup_data) -> used s fd;
  fi_same : forall a b, used s a -> used s b -> a <> b -> together s.(dup_data) a b <-> K !! a = K !! b;
  fi_sock : forall fd d, used s fd -> K !! fd = Some d -> d.2 = true <-> is_Some (file_at s fd).(sockinfo);
  fi_error : forall fd, (file_at s fd).(ferror) = 0;
  fi_ofd : forall fd, used s fd -> (file_at s fd).(ofd) = -1 \/ 0 <= (file_at s fd).(ofd) < s.(nfdmap);
  fi_name : forall fd, used s fd -> is_Some (file_at s fd).(fname);
  fi_running : s.(fs_recovery) = false /\ s.(light_snap_accept_timeout) = 0 /\ s.(snap_listeners) = [];
}.

Lemma inv_kernel K K' s : fd_inv K s -> (forall fd, used s fd -> K' !! fd = K !! fd) -> fd_inv K' s.
Proof.
  intros [H1 H2 H3 H4 H5 H6 Hs H7 H8 H9 H10] HK. split; auto.
  - intros fd Hu. rewrite HK by done. by apply H2.
  - intros a b Ha Hb Hab. rewrite !HK by done. by apply H6.
  - intros fd d Hu. rewrite HK by done. by apply Hs.
Qed.

Lemma inv_syscalls K s l : fd_inv K s -> fd_inv K (set_syscalls l s).
Proof. intros []. by split. Qed.

Lemma file_at_upd s fd f fd' :
  file_at (set_guest_files (<[fd := f]> s.(guest_files)) s) fd' = if decide (fd = fd') then f else file_at s fd'.
Proof.
  unfold file_at. cbn. destruct (decide (fd = fd')) as [->|]; [by rewrite lookup_insert_eq|by rewrite lookup_insert_ne].
Qed.

(** The state with entry [fd] replaced. *)
Definition with_file (fd : Z) (f : km_file) (s : km_filesys) : km_filesys :=
  set_guest_files (<[fd := f]> s.(guest_files)) s.

Lemma with_file_at s fd f x : file_at (with_file fd f s) x = if decide (fd = x) then f else file_at s x.
Proof. apply file_at_upd. Qed.

Lemma with_file_self s fd f : file_at (with_file fd f s) fd = f.
Proof. rewrite with_file_at. by destruct (decide (fd = fd)). Qed.

Lemma with_file_other s fd f x : x <> fd -> file_at (with_file fd f s) x = file_at s x.
Proof. intros Hx. rewrite with_file_at. by destruct (decide (fd = x)). Qed.

Lemma with_file_twice s fd f g : with_file fd g (with_file fd f s) = with_file fd g s.
Proof. unfold with_file. cbn. by rewrite insert_insert_eq. Qed.

(** An entry that may stand for the description [d]. *)
Definition entry_ok (n : Z) (d : Z * bool) (f : km_file) : Prop :=
  is_Some f.(fname) /\ (f.(ofd) = -1 \/ 0 <= f.(ofd) < n) /\ (d.2 = true <-> is_Some f.(sockinfo)).

Lemma inv_entry K s fd d : fd_inv K s -> used s fd -> K !! fd = Some d -> entry_ok s.(nfdmap) d (file_at s fd).
Proof. intros Hi Hu Hd. split_and!; [by apply (fi_name K)|by apply (fi_ofd K)|by apply (fi_sock K)]. Qed.

(** An entry replaced by another for the same description. *)
Lemma inv_change K s fd f :
  fd_inv K s -> f.(inuse) = (file_at s fd).(inuse) -> f.(ferror) = 0 ->
  (forall d, used s fd -> K !! fd = Some d -> entry_ok s.(nfdmap) d f) ->
  fd_inv K (with_file fd f s) /\ forall x, used (with_file fd f s) x <-> used s x.
Proof.
  intros [H1 H2 H3 H4 H5 H6 Hs H7 H8 H9 H10] Hi He Hok.
  assert (Hu : forall x, used (with_file fd f s) x <-> used s x).
  { intros x. unfold used. rewrite with_file_at. destruct (decide (fd = x)) as [<-|]; [|done]. by rewrite Hi. }
  split; [|done]. split; try done; intros x; rewrite ?Hu; intros; rewrite ?Hu in *; auto.
  - rewrite with_file_at. destruct (decide (fd = x)) as [<-|]; [|auto]. by apply Hok.
  - rewrite with_file_at. by destruct (decide (fd = x)).
  - rewrite with_file_at. destruct (decide (fd = x)) as [<-|]; [|auto]. destruct (H2 fd) as [d Hd]; [done|]. by apply (Hok d).
  - rewrite with_file_at. destruct (decide (fd = x)) as [<-|]; [|auto]. destruct (H2 fd) as [d Hd]; [done|]. by apply (Hok d).
Qed.

Lemma add_to_groups_sized n o G : sized G -> sized (add_to_groups n o G).
Proof.
  intros Hsz. induction G as [|g G IH]; cbn [add_to_groups].
  - intros g [->|Hg]%elem_of_cons; [cbn; lia|by apply not_elem_of_nil in Hg].
  - assert (HszG : sized G) by (intros h Hh; apply Hsz, elem_of_cons; by right).
    assert (Hlen : (2 <= length g)%nat) by (apply Hsz, elem_of_cons; by left).
    destruct (in_group o g); intros h [->|Hh]%elem_of_cons; auto.
    + unfold km_fs_add_fd_to_dup_group. rewrite length_app. cbn. lia.
    + by apply IH.
Qed.

(** A descriptor that shares its description with no other is in no group. *)
Lemma alone_not_grouped K s r :
  fd_inv K s -> (forall a, used s a -> a <> r -> K !! a <> K !! r) -> r ∉ concat s.(dup_data).
Proof.
  intros [H1 H2 H3 H4 H5 H6 Hs H7 H8 H9 H10] Halone Hr. pose proof (H5 _ Hr) as Hur. apply elem_of_concat in Hr as (g & Hg & Hr).
  assert (Hb : exists b, b ∈ g /\ b <> r).
  { pose proof (H4 g Hg) as Hlen. assert (Hnd : NoDup g).
    { apply list_elem_of_split in Hg as (l1 & l2 & E). rewrite E, concat_app in H3. cbn in H3.
      apply NoDup_app in H3 as (_ & _ & H3). by apply NoDup_app in H3 as (H3 & _). }
    destruct g as [|x [|y g]]; cbn in Hlen; try lia. apply NoDup_cons in Hnd as [Hx _].
    destruct (decide (x = r)) as [->|]; [|exists x; rewrite elem_of_cons; auto].
    exists y. rewrite !elem_of_cons. split; [auto|]. intros ->. apply Hx, elem_of_cons. by left. }
  destruct Hb as (b & Hb & Hne). assert (Hub : used s b) by (apply H5, elem_of_concat; by exists g).
  apply (Halone b Hub Hne). apply H6; [done..|]. by exists g.
Qed.

(** Recording a dup of [fd] at [r]. *)
Lemma inv_add_group K s r fd d d' :
  fd_inv K s -> used s r -> used s fd -> r <> fd -> (forall a, used s a -> a <> r -> K !! a <> K !! r) -> K !! fd = Some d ->
  K !! r = Some d' -> d'.2 = d.2 ->
  fd_inv (<[r := d]> K) (set_dup_data (add_to_groups r fd s.(dup_data)) s).
Proof.
  intros Hinv Hur Huf Hne Halone Hd Hd' Ed. pose proof (alone_not_grouped K s r Hinv Halone) as Hr.
  pose proof Hinv as [H1 H2 H3 H4 H5 H6 Hs H7 H8 H9 H10].
  destruct (add_to_groups_concat r fd s.(dup_data) Hr Hne H3) as [G1 G2].
  assert (Hlone : forall x y, together s.(dup_data) x y -> x <> r /\ y <> r).
  { intros x y (g & Hg & Hx & Hy). split; intros ->; apply Hr, elem_of_concat; by exists g. }
  split; [exact H1| |exact G1| | | | |exact H7|exact H8|exact H9|exact H10].
  - intros x Hx. destruct (decide (x = r)) as [->|]; [rewrite lookup_insert_eq; by eexists|rewrite lookup_insert_ne by done; by apply H2].
  - by apply add_to_groups_sized.
  - intros x [->|[->|Hx]]%G2; [done|done|by apply H5].
  - intros a b Ha Hb Hab. change (used s a) in Ha. change (used s b) in Hb.
    cbn [dup_data set_dup_data]. rewrite (add_to_groups_together r fd _ a b H3 Hr Hab).
    assert (Hto : forall x, used s x -> x <> r -> x = fd \/ together s.(dup_data) fd x <-> K !! x = Some d).
    { intros x Hx Hxr. destruct (decide (x = fd)) as [->|Hxf]; [tauto|]. rewrite (H6 fd x) by auto. rewrite Hd. intuition congruence. }
    destruct (decide (a = r)) as [->|Har]; [|destruct (decide (b = r)) as [->|Hbr]].
    + rewrite lookup_insert_eq, lookup_insert_ne by done. pose proof (Hto b Hb ltac:(auto)) as T.
      split; [intros [Htt|[[_ H]|[-> _]]]; [by apply Hlone in Htt as [? _]|symmetry; by apply T|done]|].
      intros E. right. left. split; [done|]. by apply T.
    + rewrite lookup_insert_eq, lookup_insert_ne by done. pose proof (Hto a Ha Har) as T.
      split; [intros [Htt|[[-> _]|[_ H]]]; [by apply Hlone in Htt as [_ ?]|done|by apply T]|].
      intros E. right. right. split; [done|]. by apply T.
    + rewrite !lookup_insert_ne by done. rewrite <- H6 by done. split; [|auto]. intros [|[[-> _]|[-> _]]]; [done|done|done].
  - intros x e Hx. change (file_at (set_dup_data _ s) x) with (file_at s x). change (used s x) in Hx.
    destruct (decide (x = r)) as [->|Hxr]; [rewrite lookup_insert_eq; intros [= <-]; rewrite <- Ed; by apply Hs|].
    rewrite lookup_insert_ne by done. by apply Hs.
Qed.

(** A new entry for a description no entry in use has. *)
Lemma inv_fresh K s r f d :
  fd_inv K s -> ~ used s r -> 0 <= r < s.(nfdmap) -> K !! r = Some d -> (forall a, used s a -> K !! a <> Some d) ->
  f.(inuse) = true -> f.(ferror) = 0 -> entry_ok s.(nfdmap) d f ->
  fd_inv K (with_file r f s) /\ forall x, used (with_file r f s) x <-> x = r \/ used s x.
Proof.
  intros [H1 H2 H3 H4 H5 H6 Hs H7 H8 H9 H10] Hr Hrg HK Hfresh Hi He (En & Eo & Es).
  assert (Hu : forall x, used (with_file r f s) x <-> x = r \/ used s x).
  { intros x. unfold used. rewrite with_file_at. destruct (decide (r = x)) as [<-|]; [rewrite Hi; tauto|].
    split; [by right|intros [->|]; done]. }
  assert (Hno : forall x g, g ∈ s.(dup_data) -> x ∈ g -> x <> r).
  { intros x g Hg Hx ->. apply Hr, H5, elem_of_concat. by exists g. }
  split; [|done]. split; try done.
  - intros x [->|Hx]%Hu; auto.
  - intros x [->|Hx]%Hu; [by eexists|auto].
  - intros x Hx. apply Hu. right. by apply H5.
  - intros a b [->|Ha]%Hu [->|Hb]%Hu Hab; [done| | |by apply H6].
    + split; [intros (g & Hg & Hx & _); by apply (Hno r g) in Hx|rewrite HK; intros E; by apply Hfresh in Hb].
    + split; [intros (g & Hg & _ & Hx); by apply (Hno r g) in Hx|rewrite HK; intros E; by apply Hfresh in Ha].
  - intros x e Hx Hd. rewrite with_file_at. destruct (decide (r = x)) as [<-|Hne]; [by simplify_eq|]. apply Hu in Hx as [Ex|Hx]; [congruence|auto].
  - intros x. rewrite with_file_at. by destruct (decide (r = x)).
  - intros x Hx. rewrite with_file_at. destruct (decide (r = x)) as [<-|]; [done|]. apply Hu in Hx as [->|Hx]; [done|by apply H8].
  - intros x Hx. rewrite with_file_at. destruct (decide (r = x)) as [<-|]; [done|]. apply Hu in Hx as [->|Hx]; [done|by apply H9].
Qed.

Lemma fresh_description (K : kernel) b : exists d, d.2 = b /\ forall a, K !! a <> Some d.
Proof.
  exists (fresh (set_map fst (map_img K : gset (Z * bool)) : gset Z), b). split; [done|].
  intros a Ha. apply (is_fresh (set_map fst (map_img K : gset (Z * bool)) : gset Z)).
  apply elem_of_map. eexists. split; [|by eapply elem_of_map_img_2]. done.
Qed.

Section Steps.
  Context `{FdHost}.

(** Adding an entry, exactly. *)
Definition new_entry (h : km_file_how_t) (flags : Z) (o : option Z) (nm : option string) (si : option km_fd_socket) : km_file :=
  mk_file true h flags 0 o (-1) nm si [].

Lemma add_internal_spec s r name flags h o :
  (file_at s r).(inuse) = false -> (file_at s r).(ferror) = 0 -> 0 <= r < s.(nfdmap) ->
  (name = None -> is_Some (fd_link s.(syscalls) r)) ->
  wp False (km_add_guest_fd_internal r name flags h o)
    (fun v s' => v = r /\ exists nm, is_Some nm /\ s' = with_file r (new_entry h flags o nm None) s) s.
Proof.
  intros Hr He Hrg Hname. unfold km_add_guest_fd_internal. apply wp_bind, wp_get, wp_bind.
  apply wp_assert; [apply andb_true_iff; split; [apply Z.leb_le|apply Z.ltb_lt]; lia|]. rewrite Hr. apply wp_bind.
  assert (Hnm : wp False (match name with None => km_get_nonfile_name r | Some n => ret (Some n) end)
            (fun nm s' => s' = s /\ is_Some nm) s).
  { destruct name as [n|]; [apply wp_ret; auto|]. unfold km_get_nonfile_name. apply wp_gets. auto. }
  eapply wp_mono; [exact Hnm|]. intros nm s' [-> Hnm']. apply wp_bind, wp_modify, wp_ret. split; [done|].
  exists nm. split; [done|]. by rewrite He.
Qed.

(** ... with the socket filled in. *)
Lemma add_with_socket s r name flags h si :
  (file_at s r).(inuse) = false -> (file_at s r).(ferror) = 0 -> 0 <= r < s.(nfdmap) ->
  (name = None -> is_Some (fd_link s.(syscalls) r)) ->
  wp False (let* x := km_add_guest_fd_internal r name flags h None in file_upd x (set_sockinfo (Some si)) ;;; ret x)
    (fun v s' => v = r /\ exists nm, is_Some nm /\ s' = with_file r (new_entry h flags None nm (Some si)) s) s.
Proof.
  intros Hr He Hrg Hname. apply wp_bind. eapply wp_mono; [by apply add_internal_spec|].
  intros v s1 (-> & nm & Hnm & ->). apply wp_bind, wp_modify, wp_ret. split; [done|]. exists nm. split; [done|].
  rewrite with_file_self. apply with_file_twice.
Qed.

Lemma not_used s fd : ~ used s fd -> (file_at s fd).(inuse) = false.
Proof. unfold used. by destruct (inuse _). Qed.

(** The effect of a new entry on the rest. *)
Definition entered (r : Z) (s s' : km_filesys) : Prop :=
  (forall x, used s' x <-> x = r \/ used s x) /\ s'.(syscalls) = s.(syscalls) /\ s'.(nfdmap) = s.(nfdmap).

Lemma enter_dup_ok K s r fd flags name h o d :
  fd_inv K s -> ~ used s r -> 0 <= r < s.(nfdmap) -> used s fd -> K !! fd = Some d -> K !! r = Some d ->
  (name = None -> is_Some (fd_link s.(syscalls) r)) ->
  wp False (enter_dup r fd flags name h o) (fun v s' => fd_inv K s' /\ entered r s s') s.
Proof.
  intros Hinv Hr Hrg Hfd Hd HKr Hname. assert (Hne : r <> fd) by (intros ->; done).
  destruct (fresh_description K d.2) as (d' & Ed & Hd'). set (K1 := <[r := d']> K).
  assert (HK1 : forall a, a <> r -> K1 !! a = K !! a) by (intros; unfold K1; by rewrite lookup_insert_ne).
  assert (HK1r : K1 !! r = Some d') by apply lookup_insert_eq.
  assert (Hinv1 : fd_inv K1 s) by (eapply inv_kernel; [exact Hinv|]; intros a Ha; apply HK1; intros ->; done).
  assert (Hfresh : forall a, used s a -> K1 !! a <> Some d') by (intros a Ha; rewrite HK1 by (intros ->; done); apply Hd').
  pose proof (fi_sock _ _ Hinv fd d Hfd Hd) as Hsock. pose proof (fi_error _ _ Hinv r) as He. apply not_used in Hr as Hr'.
  unfold enter_dup. apply wp_bind, wp_get, wp_bind.
  assert (Hent : wp False (match (file_at s fd).(sockinfo) with
             | Some si => km_dup_socket_fd r name flags si (file_at s fd).(how)
             | None => km_add_guest_fd_internal r name flags h o end)
     (fun v s' => v = r /\ exists f, s' = with_file r f s /\ f.(inuse) = true /\ f.(ferror) = 0 /\ entry_ok s.(nfdmap) d' f) s).
  { unfold entry_ok. destruct (file_at s fd).(sockinfo) as [si|];
      (eapply wp_mono; [first [by apply add_with_socket|by apply add_internal_spec]|]);
      intros v s1 (-> & nm & Hnm & ->); (split; [done|eexists; split_and!; [done..|by left|]]); by rewrite Ed. }
  eapply wp_mono; [exact Hent|]. intros v s1 (-> & f & -> & Hi & Hf & Hok).
  destruct (inv_fresh K1 s r f d' Hinv1 Hr Hrg HK1r Hfresh Hi Hf Hok) as [Hi1 Hu1].
  apply wp_bind. unfold km_fs_add_to_dup_data. apply wp_modify, wp_ret.
  destruct (fi_running _ _ Hi1) as (-> & _). split; [|split; [exact Hu1|done]].
  assert (HK : K = <[r := d]> K1) by (unfold K1; rewrite insert_insert_eq; symmetry; by apply insert_id). rewrite HK.
  apply (inv_add_group K1 _ r fd d d'); try done; [apply Hu1; by left|apply Hu1; by right| |by rewrite HK1].
  intros a Ha Har. rewrite HK1, HK1r by done. apply Hd'.
Qed.

(** The state after the entry is cleared and taken out of its group. *)
Definition cleared (fd : Z) (s : km_filesys) : km_filesys :=
  let f := file_at s fd in
  set_dup_data (close_dup fd s.(dup_data))
    (with_file fd (mk_file false f.(how) f.(fflags) f.(ferror) None f.(ofd) None None []) s).

Lemma cleared_at fd s x : x <> fd -> file_at (cleared fd s) x = file_at s x.
Proof. apply with_file_other. Qed.

Lemma cleared_self fd s :
  let f := file_at s fd in
  file_at (cleared fd s) fd = mk_file false f.(how) f.(fflags) f.(ferror) None f.(ofd) None None [].
Proof. apply with_file_self. Qed.

Lemma cleared_used fd s x : used (cleared fd s) x <-> x <> fd /\ used s x.
Proof.
  destruct (decide (x = fd)) as [->|Hx]; [|unfold used; rewrite cleared_at by done; tauto].
  unfold used. rewrite cleared_self. split; [done|by intros [? _]].
Qed.

Lemma inv_cleared K s fd : fd_inv K s -> fd_inv K (cleared fd s).
Proof.
  intros [H1 H2 H3 H4 H5 H6 Hs H7 H8 H9 H10]. destruct (close_dup_ok fd s.(dup_data) H3 H4) as (C1 & C2 & C3).
  split; try done.
  - intros x [_ Hx]%cleared_used. by apply H1.
  - intros x [_ Hx]%cleared_used. by apply H2.
  - intros x Hx. apply cleared_used. split; [intros ->; by apply C3|]. by apply H5, (close_dup_sub fd).
  - intros a b [Na Ha]%cleared_used [Nb Hb]%cleared_used Hab. cbn [dup_data cleared set_dup_data]. rewrite <- H6 by done.
    rewrite close_dup_together by done. tauto.
  - intros x d [Nx Hx]%cleared_used. rewrite cleared_at by done. by apply Hs.
  - intros x. destruct (decide (x = fd)) as [->|]; [|rewrite cleared_at by done; apply H7].
    rewrite cleared_self. apply H7.
  - intros x [Nx Hx]%cleared_used. rewrite cleared_at by done. by apply H8.
  - intros x [Nx Hx]%cleared_used. rewrite cleared_at by done. by apply H9.
Qed.

(** Unlinking the other end of a pipe. *)
Definition unlink (fd : Z) (other : km_file) : km_file := if other.(ofd) =? fd then set_ofd (-1) other else other.

(** The effect of removing an entry on the rest. *)
Definition removed (fd : Z) (s s' : km_filesys) : Prop :=
  (forall x, used s' x <-> x <> fd /\ used s x) /\ s'.(syscalls) = s.(syscalls) /\ s'.(nfdmap) = s.(nfdmap).

Lemma del_ok K s fd :
  fd_inv K s -> used s fd -> wp False (del_guest_fd fd) (fun _ s' => fd_inv K s' /\ removed fd s s') s.
Proof.
  intros Hinv Hu. pose proof (fi_range _ _ Hinv _ Hu) as Hrg. destruct (fi_running _ _ Hinv) as (R1 & R2 & R3).
  unfold del_guest_fd. apply wp_bind, wp_get, wp_bind, wp_assert;
    [apply andb_true_iff; split; [apply Z.leb_le|apply Z.ltb_lt]; lia|].
  cbv zeta. apply wp_bind, wp_assert; [exact Hu|]. rewrite R2. cbn [Z.eqb negb andb]. apply wp_bind, wp_ret, wp_bind, wp_modify, wp_bind, wp_modify.
  change (set_dup_data _ _) with (cleared fd s). set (s1 := cleared fd s). pose proof (inv_cleared K s fd Hinv) as Hinv1. fold s1 in Hinv1.
  destruct (Z.eqb_spec (file_at s fd).(ofd) (-1)) as [|No]; cbn [negb].
  { apply wp_ret. split; [done|]. split_and!; [apply cleared_used|done|done]. }
  destruct (fi_ofd _ _ Hinv _ Hu) as [|Ho]; [done|]. apply wp_bind, wp_modify.
  destruct (inv_change K s1 fd (set_ofd (-1) (file_at s1 fd)) Hinv1) as [Hinv2 Hu2]; [done|apply Hinv1|by intros d [? _]%cleared_used|].
  change (set_guest_files _ s1) with (with_file fd (set_ofd (-1) (file_at s1 fd)) s1). set (s2 := with_file _ _ s1) in *.
  apply wp_bind. unfold in_bounds. apply wp_bind, wp_get. change (nfdmap s2) with s.(nfdmap).
  destruct (Z.leb_spec 0 (file_at s fd).(ofd)); [|lia]. destruct (Z.ltb_spec (file_at s fd).(ofd) s.(nfdmap)); [|lia]. cbn [andb].
  apply wp_ret, wp_modify. set (o := (file_at s fd).(ofd)) in *.
  destruct (inv_change K s2 o (unlink fd (file_at s2 o)) Hinv2) as [Hinv3 Hu3].
  - unfold unlink. by destruct (_ =? fd).
  - unfold unlink. destruct (_ =? fd); apply Hinv2.
  - intros d Ho1 Hd. destruct (inv_entry K s2 o d Hinv2 Ho1 Hd) as (E1 & E2 & E3). unfold unlink, entry_ok.
    destruct (_ =? fd); split_and!; auto.
  - split; [exact Hinv3|]. split_and!; [|done|done]. intros x. etransitivity; [apply Hu3|]. rewrite Hu2. apply cleared_used.
Qed.
End Steps.
