(* ===== verification/FdSystem.v ===== *)
(** * Any sequence of descriptor calls

    From the start of the monitor, whatever file-descriptor hypercalls the guest
    makes and whatever the host answers, the table of km_filesys.c agrees with the
    host's. *)
From S2P Require Import Prelude FdTable FdGroups FdInv.

(** ** The calls *)
Inductive fd_op :=
| Op_open (path : string) (flags mode : Z) | Op_openat (dirfd : Z) (path : string) (flags mode : Z)
| Op_close (fd : Z) | Op_dup (fd : Z) | Op_dup2 (fd newfd : Z) | Op_dup3 (fd newfd flags : Z) | Op_fcntl (fd cmd arg : Z)
| Op_pipe | Op_pipe2 (flags : Z) | Op_eventfd2 (initval flags : Z) | Op_timerfd_create (clockid flags : Z)
| Op_socket (dom ty proto : Z) | Op_socketpair (dom ty proto : Z) | Op_bind (fd : Z) (a : list Z) (alen : Z)
| Op_listen (fd bl : Z) | Op_connect (fd alen : Z) | Op_accept (fd : Z) (want : bool) | Op_accept4 (fd : Z) (want : bool) (fl : Z)
| Op_sendmsg (fd flag : Z) (fds : list Z) | Op_epoll_create1 (flags : Z) | Op_epoll_ctl (epfd op fd : Z) (ev : epoll_event)
| Op_flock (fd op : Z) | Op_shutdown (fd h : Z) | Op_ioctl (fd req arg : Z) | Op_ftruncate (fd len : Z) | Op_fsync (fd : Z)
| Op_fdatasync (fd : Z) | Op_fchmod (fd mode : Z) | Op_fstat (fd buf : Z) | Op_fstatfs (fd buf : Z)
| Op_getsockopt (fd level opt val len : Z) | Op_setsockopt (fd level opt val len : Z) | Op_fchown (fd uid gid : Z)
| Op_fchdir (fd : Z) | Op_prw (scall fd buf count off : Z) | Op_lseek (fd off whence : Z)
| Op_sendfile (out_fd in_fd off count : Z) | Op_copy_file_range (fd_in off_in fd_out off_out len flags : Z).

Definition is_epoll_ctl (op : fd_op) : bool := match op with Op_epoll_ctl _ _ _ _ => true | _ => false end.

Section System.
  Context `{FdHost} (k0 : kernel) (limit : Z) `{!HostOk k0 limit}.

Definition drop_result {A} (m : M km_filesys A) : M km_filesys unit := m ;;; ret tt.

Definition fd_step (op : fd_op) : M km_filesys unit :=
  match op with
  | Op_open p fl m => drop_result (km_fs_open p fl m)
  | Op_openat d p fl m => drop_result (km_fs_openat d p fl m)
  | Op_close fd => drop_result (km_fs_close fd)
  | Op_dup fd => drop_result (km_fs_dup fd)
  | Op_dup2 fd n => drop_result (km_fs_dup2 fd n)
  | Op_dup3 fd n fl => drop_result (km_fs_dup3 fd n fl)
  | Op_fcntl fd c a => drop_result (km_fs_fcntl fd c a)
  | Op_pipe => drop_result km_fs_pipe
  | Op_pipe2 fl => drop_result (km_fs_pipe2 fl)
  | Op_eventfd2 i fl => drop_result (km_fs_eventfd2 i fl)
  | Op_timerfd_create c fl => drop_result (km_fs_timerfd_create c fl)
  | Op_socket d t p => drop_result (km_fs_socket d t p)
  | Op_socketpair d t p => drop_result (km_fs_socketpair d t p)
  | Op_bind fd a l => drop_result (km_fs_bind fd a l)
  | Op_listen fd b => drop_result (km_fs_listen fd b)
  | Op_connect fd l => drop_result (km_fs_connect fd l)
  | Op_accept fd w => drop_result (km_fs_accept fd w)
  | Op_accept4 fd w fl => drop_result (km_fs_accept4 fd w fl)
  | Op_sendmsg fd fl l => drop_result (km_fs_sendmsg fd fl l)
  | Op_epoll_create1 fl => drop_result (km_fs_epoll_create1 fl)
  | Op_epoll_ctl e o fd ev => drop_result (km_fs_epoll_ctl e o fd ev)
  | Op_flock fd o => drop_result (km_fs_flock fd o)
  | Op_shutdown fd h => drop_result (km_fs_shutdown fd h)
  | Op_ioctl fd r a => drop_result (km_fs_ioctl fd r a)
  | Op_ftruncate fd l => drop_result (km_fs_ftruncate fd l)
  | Op_fsync fd => drop_result (km_fs_fsync fd)
  | Op_fdatasync fd => drop_result (km_fs_fdatasync fd)
  | Op_fchmod fd m => drop_result (km_fs_fchmod fd m)
  | Op_fstat fd b => drop_result (km_fs_fstat fd b)
  | Op_fstatfs fd b => drop_result (km_fs_fstatfs fd b)
  | Op_getsockopt fd l o v n => drop_result (km_fs_getsockopt fd l o v n)
  | Op_setsockopt fd l o v n => drop_result (km_fs_setsockopt fd l o v n)
  | Op_fchown fd u g => drop_result (km_fs_fchown fd u g)
  | Op_fchdir fd => drop_result (km_fs_fchdir fd)
  | Op_prw c fd b n o => drop_result (km_fs_prw c fd b n o)
  | Op_lseek fd o w => drop_result (km_fs_lseek fd o w)
  | Op_sendfile o i f c => drop_result (km_fs_sendfile o i f c)
  | Op_copy_file_range a b c d e f => drop_result (km_fs_copy_file_range a b c d e f)
  end.

Fixpoint fd_run (ops : list fd_op) : M km_filesys unit :=
  match ops with
  | [] => ret tt
  | op :: rest => fd_step op ;;; fd_run rest
  end.

(** ** The state between and within calls *)
Definition kern (s : km_filesys) : kernel := kernel_of fd_pair k0 s.(syscalls).

(** The host has opened the descriptors of [L] and the table does not have them yet. *)
Record pending (L : list Z) (s : km_filesys) : Prop := {
  pd_inv : fd_inv (kern s) s;
  pd_limit : s.(nfdmap) = limit;
  pd_all : forall fd, is_Some (kern s !! fd) -> fd < limit -> used s fd \/ fd ∈ L;
  pd_bound : forall fd d, kern s !! fd = Some d -> d.1 < 2 * Z.of_nat (length s.(syscalls));
  pd_new : forall fd, fd ∈ L -> ~ used s fd /\ 0 <= fd < limit /\ is_Some (kern s !! fd);
}.
Definition table_ok : km_filesys -> Prop := pending [].

Definition alone (L : list Z) (s : km_filesys) : Prop :=
  forall fd a, fd ∈ L -> used s a \/ a ∈ L -> a <> fd -> kern s !! a <> kern s !! fd.

(** The state after a system call. *)
Definition after (c : fdcall) (s : km_filesys) : km_filesys :=
  set_syscalls ((c, fd_sys s.(syscalls) c) :: s.(syscalls)) s.

Lemma wp_sys ab c Q s : Q (fd_sys s.(syscalls) c) (after c s) -> wp ab (sys c) Q s.
Proof. done. Qed.

Lemma kern_after c s : kern (after c s) = kernel_step fd_pair c (fd_sys s.(syscalls) c) s.(syscalls) (kern s).
Proof. done. Qed.

(** A call that opens and closes nothing. *)
Lemma after_same c s :
  table_ok s -> kernel_step fd_pair c (fd_sys s.(syscalls) c) s.(syscalls) (kern s) = kern s -> table_ok (after c s).
Proof.
  intros [P1 P2 P3 P4 P5] E. rewrite <- kern_after in E. split; rewrite ?E; try done.
  - by apply inv_syscalls.
  - intros fd d Hd. apply P4 in Hd. cbn [after set_syscalls syscalls length]. lia.
Qed.

Lemma after_fails c s : table_ok s -> fd_sys s.(syscalls) c < 0 -> creates c = true \/ is_Some (dups c) -> table_ok (after c s).
Proof.
  intros Hs Hr Hc. apply after_same; [done|]. unfold kernel_step. apply Z.leb_gt in Hr. rewrite !Hr.
  destruct c; cbn in *; try done; destruct Hc as [|[? ?]]; done.
Qed.

(** The host has one more descriptor [r], and the table has none there. *)
Lemma pending_insert c s s' r d :
  table_ok s -> kern (after c s) = <[r := d]> (kern s) -> d.1 <= 2 * Z.of_nat (length s.(syscalls)) + 1 -> 0 <= r < limit ->
  fd_inv (kern s) s' -> s'.(nfdmap) = limit -> s'.(syscalls) = (after c s).(syscalls) ->
  (forall x, used s' x <-> x <> r /\ used s x) -> pending [r] s'.
Proof.
  intros [P1 P2 P3 P4 P5] HK Hd Hr Hi Hn Hs Hu.
  assert (HK' : kern s' = <[r := d]> (kern s)) by (unfold kern at 1; rewrite Hs; exact HK).
  split.
  - eapply inv_kernel; [exact Hi|]. intros x [Hx _]%Hu. by rewrite HK', lookup_insert_ne.
  - done.
  - intros x Hx Hxl. rewrite HK' in Hx. destruct (decide (x = r)) as [->|Hxr]; [right; by apply list_elem_of_singleton|].
    rewrite lookup_insert_ne in Hx by done. left. apply Hu. split; [done|].
    destruct (P3 x Hx Hxl) as [|Hin]; [done|by apply not_elem_of_nil in Hin].
  - intros x e. rewrite HK', Hs. cbn [after set_syscalls syscalls length]. destruct (decide (x = r)) as [->|Hxr].
    + rewrite lookup_insert_eq. intros [= <-]. lia.
    + rewrite lookup_insert_ne by done. intros He%P4. lia.
  - intros x ->%list_elem_of_singleton. rewrite HK', lookup_insert_eq. split_and!; [by intros [? _]%Hu|lia|lia|by eexists].
Qed.

Lemma closed_not_used s fd : table_ok s -> kern s !! fd = None -> ~ used s fd.
Proof. intros Hs Hn Hu. apply (fi_open _ _ (pd_inv _ _ Hs)) in Hu. rewrite Hn in Hu. by destruct Hu. Qed.

Lemma pending_insert_unused c s r d :
  table_ok s -> kern (after c s) = <[r := d]> (kern s) -> d.1 <= 2 * Z.of_nat (length s.(syscalls)) + 1 -> 0 <= r < limit ->
  ~ used s r -> pending [r] (after c s).
Proof.
  intros Hs HK Hd Hr Hnu. apply (pending_insert c s _ r d); try done; [apply inv_syscalls; apply Hs|apply Hs|].
  intros x. change (used (after c s) x) with (used s x). split; [|tauto]. intros Hx. split; [intros ->|]; done.
Qed.

(** A call that creates a descriptor. *)
Lemma after_creates c s :
  table_ok s -> creates c = true -> 0 <= fd_sys s.(syscalls) c ->
  let r := fd_sys s.(syscalls) c in
  pending [r] (after c s) /\ alone [r] (after c s) /\ exists n, kern (after c s) !! r = Some (n, makes_socket c).
Proof.
  intros Hs Hc Hr r. destruct (ho_new s.(syscalls) c Hc Hr) as [Hn Hl]. fold r in Hn, Hl, Hr.
  set (d := (2 * Z.of_nat (length s.(syscalls)), makes_socket c)).
  assert (HK : kern (after c s) = <[r := d]> (kern s)).
  { rewrite kern_after. unfold kernel_step. fold r. apply Z.leb_le in Hr. destruct c; cbn in Hc; try done; cbn [creates]; by rewrite Hr. }
  split_and!; [| |rewrite HK, lookup_insert_eq; by eexists].
  - apply (pending_insert_unused c s r d); try done; [cbn; lia|]. by apply closed_not_used.
  - intros x a ->%list_elem_of_singleton _ Har. rewrite HK, lookup_insert_eq, lookup_insert_ne by done.
    intros Hd%(pd_bound _ _ Hs). cbn in Hd. lia.
Qed.

(** A call that copies a descriptor. *)
Lemma after_dups c s fd :
  table_ok s -> dups c = Some fd -> 0 <= fd_sys s.(syscalls) c -> used s fd ->
  let r := fd_sys s.(syscalls) c in
  pending [r] (after c s) /\ kern (after c s) !! r = kern (after c s) !! fd.
Proof.
  intros Hs Hc Hr Hu r. destruct (ho_dup s.(syscalls) c fd Hc Hr) as (Hn & [d Hd] & Hl). fold r in Hn, Hl, Hr.
  change (kernel_of fd_pair k0 s.(syscalls)) with (kern s) in Hn, Hd.
  assert (HK : kern (after c s) = <[r := d]> (kern s)).
  { rewrite kern_after. unfold kernel_step. fold r. apply Z.leb_le in Hr.
    destruct c; cbn in Hc; try done; cbn [creates makes_pair dups]; rewrite Hr; unfold copy_fd; simplify_eq; by rewrite Hd. }
  assert (Hrf : r <> fd) by (intros E; rewrite E in Hn; congruence). split.
  - pose proof (pd_bound _ _ Hs _ _ Hd). apply (pending_insert_unused c s r d); try done; [lia|]. by apply closed_not_used.
  - rewrite HK, lookup_insert_eq, lookup_insert_ne by done. done.
Qed.

(** ** Entering what is pending *)
Lemma enter_fresh r L s f d :
  pending (r :: L) s -> alone (r :: L) s -> r ∉ L -> kern s !! r = Some d ->
  f.(inuse) = true -> f.(ferror) = 0 -> entry_ok s.(nfdmap) d f ->
  pending L (with_file r f s) /\ alone L (with_file r f s) /\ forall x, used (with_file r f s) x <-> x = r \/ used s x.
Proof.
  intros [P1 P2 P3 P4 P5] Ha Hr Hd Hi He Hok. destruct (P5 r) as (Hnu & Hrg & _); [by left|].
  destruct (inv_fresh (kern s) s r f d) as [Hinv Hu]; try done; [lia| |].
  { intros a Hua. rewrite <- Hd. apply (Ha r a); [by left|by left|]. intros ->. done. }
  split_and!; [| |done]; cycle 1.
  { intros x a Hx Hua Hne. apply (Ha x a); [by right| |done]. rewrite elem_of_cons. destruct Hua as [[->|]%Hu|]; auto. }
  split; try done.
  - intros x Hx Hl. rewrite Hu. destruct (P3 x Hx Hl) as [|[->|]%elem_of_cons]; auto.
  - intros x Hx. destruct (P5 x) as (Hxu & Hxr & Hxk); [by right|]. split_and!; try done; try lia.
    rewrite Hu. intros [->|]; done.
Qed.

Lemma pending_change L s fd f :
  pending L s -> f.(inuse) = (file_at s fd).(inuse) -> f.(ferror) = 0 ->
  (forall d, used s fd -> kern s !! fd = Some d -> entry_ok s.(nfdmap) d f) ->
  pending L (with_file fd f s) /\ forall x, used (with_file fd f s) x <-> used s x.
Proof.
  intros [P1 P2 P3 P4 P5] Hi He Hok. destruct (inv_change (kern s) s fd f P1 Hi He Hok) as [Hinv Hu].
  split; [|done]. split; try done; intros x; rewrite ?Hu; auto.
Qed.

Lemma pending_room r L s name :
  pending (r :: L) s ->
  (file_at s r).(inuse) = false /\ (file_at s r).(ferror) = 0 /\ 0 <= r < s.(nfdmap) /\ (name = @None string -> is_Some (fd_link s.(syscalls) r)).
Proof.
  intros Hp. destruct (pd_new _ _ Hp r) as (Hnu & Hrg & Hk); [by left|].
  split_and!; [by apply not_used|apply (fi_error _ _ (pd_inv _ _ Hp))|lia|rewrite (pd_limit _ _ Hp); lia|intros _; by apply ho_link].
Qed.

Lemma add_pending ab r L s name flags h o d :
  pending (r :: L) s -> alone (r :: L) s -> r ∉ L -> kern s !! r = Some d -> d.2 = false ->
  wp ab (km_add_guest_fd_internal r name flags h o)
    (fun v s' => v = r /\ pending L s' /\ alone L s' /\ kern s' = kern s /\ (forall x, used s' x <-> x = r \/ used s x)) s.
Proof.
  intros Hp Ha Hr Hd Hb. destruct (pending_room r L s name Hp) as (R1 & R2 & R3 & R4). apply wp_safe.
  eapply wp_mono; [by apply add_internal_spec|]. intros v s' (-> & nm & Hnm & ->). split; [done|].
  destruct (enter_fresh r L s (new_entry h flags o nm None) d) as (E1 & E2 & E3); try done.
  split_and!; [done|by left|]. rewrite Hb. split; [done|by intros [? ?]].
Qed.

Lemma add_socket_pending ab r L s name flags dom ty proto h d :
  pending (r :: L) s -> alone (r :: L) s -> r ∉ L -> kern s !! r = Some d -> d.2 = true ->
  wp ab (km_add_socket_fd r name flags dom ty proto h)
    (fun v s' => v = r /\ pending L s' /\ alone L s' /\ kern s' = kern s /\ (forall x, used s' x <-> x = r \/ used s x)) s.
Proof.
  intros Hp Ha Hr Hd Hb. destruct (pending_room r L s name Hp) as (R1 & R2 & R3 & R4). apply wp_safe. unfold km_add_socket_fd.
  eapply wp_mono; [by apply add_with_socket|]. intros v s' (-> & nm & Hnm & ->). split; [done|].
  destruct (enter_fresh r L s (new_entry h flags None nm (Some (mk_socket KM_SOCK_STATE_OPEN 0 dom ty proto 0 []))) d) as (E1 & E2 & E3); try done.
  split_and!; [done|by left|]. rewrite Hb. split; [by eexists|done].
Qed.
(** ** Each call *)
Definition stays {A} (m : M km_filesys A) : Prop := forall s, table_ok s -> wp False m (fun _ => table_ok) s.

Lemma stays_ret {A} (a : A) : stays (ret a).
Proof. intros s Hs. by apply wp_ret. Qed.

Lemma stays_sys nr args : stays (sys (F_sys nr args)).
Proof. intros s Hs. apply wp_sys. by apply after_same. Qed.

Lemma stays_if {A} (b : bool) (m n : M km_filesys A) : stays m -> stays n -> stays (if b then m else n).
Proof. by destruct b. Qed.

Lemma stays_drop {A} (m : M km_filesys A) : stays m -> stays (drop_result m).
Proof. intros Hm s Hs. apply wp_bind. eapply wp_mono; [by apply Hm|]. intros a s1 H1. by apply wp_ret. Qed.

Lemma g2h_used s fd h o : km_fs_g2h_fd s fd = Some (h, o) -> h = fd /\ used s fd.
Proof. unfold km_fs_g2h_fd, used. destruct (_ || _); [done|]. destruct (inuse _); [|done]. intros E. by simplify_eq. Qed.

Lemma on_fd_ok s fd k :
  table_ok s -> (forall o, used s fd -> wp False (k fd o) (fun _ => table_ok) s) -> wp False (on_fd fd k) (fun _ => table_ok) s.
Proof.
  intros Hs Hk. apply wp_bind, wp_get. destruct (km_fs_g2h_fd s fd) as [[h o]|] eqn:E; [|by apply wp_ret].
  apply g2h_used in E as [-> Hu]. destruct (_ =? 0); [by apply Hk|by apply wp_ret].
Qed.

Lemma stays_on_fd fd k :
  (forall s o, table_ok s -> used s fd -> wp False (k fd o) (fun _ => table_ok) s) -> stays (on_fd fd k).
Proof. intros Hk s Hs. apply on_fd_ok; [done|]. intros o. by apply Hk. Qed.

Lemma stays_pass fd k : (forall h o, stays (k h o)) -> stays (on_fd fd k).
Proof. intros Hk. apply stays_on_fd. intros s o Hs _. by apply Hk. Qed.

(** Calls that create one descriptor. *)
Lemma stays_create c (k : Z -> M km_filesys Z) (fail : Z -> Z) :
  creates c = true ->
  (forall r s d, pending [r] s -> alone [r] s -> kern s !! r = Some d -> d.2 = makes_socket c -> wp False (k r) (fun _ => table_ok) s) ->
  stays (let* r := sys c in if 0 <=? r then k r else ret (fail r)).
Proof.
  intros Hc Hk s Hs. apply wp_bind, wp_sys. destruct (Z.leb_spec 0 (fd_sys s.(syscalls) c)) as [Hr|Hr].
  - destruct (after_creates c s Hs Hc Hr) as (H1 & H2 & n & H3). by eapply Hk.
  - apply wp_ret. apply after_fails; auto.
Qed.

Lemma enter_one r s d name flags h o :
  pending [r] s -> alone [r] s -> kern s !! r = Some d -> d.2 = false ->
  wp False (km_add_guest_fd_internal r name flags h o) (fun _ => table_ok) s.
Proof.
  intros Hp Ha Hd Hb. eapply wp_mono; [eapply add_pending; try done; apply not_elem_of_nil|]. by intros v s' (_ & ? & _).
Qed.

Lemma enter_one_socket r s d name flags dom ty proto h :
  pending [r] s -> alone [r] s -> kern s !! r = Some d -> d.2 = true ->
  wp False (km_add_socket_fd r name flags dom ty proto h) (fun _ s' => table_ok s' /\ used s' r /\ kern s' = kern s) s.
Proof.
  intros Hp Ha Hd Hb. eapply wp_mono; [eapply add_socket_pending; try done; apply not_elem_of_nil|].
  intros v s' (_ & ? & _ & ? & Hu). split_and!; [done|apply Hu; by left|done].
Qed.

Lemma stays_opened call p flags :
  (forall q, creates (call q) = true /\ makes_socket (call q) = false) -> stays (opened call p flags).
Proof.
  intros Hc s Hs. unfold opened. apply wp_bind, wp_get. destruct (km_fs_g2h_filename s p) as [[r buf] o].
  destruct (r <? 0); [by apply wp_ret|]. set (q := if 0 <? r then buf else p). destruct (Hc q) as [Hc1 Hc2].
  apply (stays_create (call q) _ (fun r => r)); [done| |done]. intros r' s1 d H1 H2 H3 H4. eapply enter_one; try done. congruence.
Qed.

Lemma stays_open p fl m : stays (km_fs_open p fl m).
Proof. by apply stays_opened. Qed.

Lemma stays_openat dfd p fl m : stays (km_fs_openat dfd p fl m).
Proof. intros s Hs. apply wp_bind, wp_get. cbv zeta. destruct (km_fs_at s dfd p <? 0); [by apply wp_ret|]. by apply stays_opened. Qed.

Lemma stays_eventfd2 i fl : stays (km_fs_eventfd2 i fl).
Proof. apply (stays_create _ _ (fun r => r)); [done|]. intros r s d H1 H2 H3 H4. by eapply enter_one. Qed.

Lemma stays_timerfd_create c fl : stays (km_fs_timerfd_create c fl).
Proof. apply (stays_create _ _ (fun r => r)); [done|]. intros r s d H1 H2 H3 H4. by eapply enter_one. Qed.

Lemma stays_epoll_create1 fl : stays (km_fs_epoll_create1 fl).
Proof. apply (stays_create _ _ (fun _ => -1)); [done|]. intros r s d H1 H2 H3 H4. by eapply enter_one. Qed.

Lemma stays_socket dom ty proto : stays (km_fs_socket dom ty proto).
Proof.
  apply (stays_create _ _ (fun r => r)); [done|]. intros r s d H1 H2 H3 H4. eapply wp_mono; [by eapply enter_one_socket|].
  by intros v s' (? & _).
Qed.

(** close *)
Lemma stays_close fd : stays (km_fs_close fd).
Proof.
  intros s Hs. apply wp_bind, wp_get. destruct (km_fs_g2h_fd s fd) as [[h o]|] eqn:E; [|by apply wp_ret].
  apply g2h_used in E as [_ Hu]. cbv zeta. unfold km_guestfd_error. rewrite (fi_error _ _ (pd_inv _ _ Hs)). cbn [Z.eqb negb].
  apply wp_bind. eapply wp_mono; [apply (del_ok _ _ _ (pd_inv _ _ Hs) Hu)|]. intros [] s1 (Hi & Hr & Hsys & Hn).
  apply wp_sys. pose proof Hs as [P1 P2 P3 P4 P5].
  assert (Hk1 : kern s1 = kern s) by (unfold kern; by rewrite Hsys).
  assert (HK : kern (after (F_close fd) s1) = delete fd (kern s)) by (rewrite kern_after, Hk1; done).
  split.
  - eapply inv_kernel; [apply inv_syscalls, Hi|]. intros x [Hx _]%Hr. by rewrite HK, lookup_delete_ne.
  - cbn. congruence.
  - intros x. rewrite HK. intros Hx Hl. left. apply Hr. apply lookup_delete_is_Some in Hx as [Hne Hx].
    split; [done|]. destruct (P3 x Hx Hl) as [|Hin]; [done|by apply not_elem_of_nil in Hin].
  - intros x d. rewrite HK. intros [_ Hd]%lookup_delete_Some. apply P4 in Hd. cbn [after set_syscalls syscalls length]. rewrite Hsys. lia.
  - intros x Hx. by apply not_elem_of_nil in Hx.
Qed.

(** dup, dup2, dup3 and fcntl *)
Lemma enter_dup_pending r fd s flags name h o :
  pending [r] s -> used s fd -> kern s !! r = kern s !! fd -> wp False (enter_dup r fd flags name h o) (fun _ => table_ok) s.
Proof.
  intros Hp Hu Hk. destruct (pending_room r [] s name Hp) as (R1 & R2 & R3 & R4). pose proof Hp as [P1 P2 P3 P4 P5].
  destruct (P5 r) as (Hnu & _ & [d Hd]); [by left|]. eapply wp_mono; [eapply (enter_dup_ok _ _ _ _ _ _ _ _ d); try done; congruence|].
  intros v s' (Hi & Hux & Hsys & Hn). assert (HK : kern s' = kern s) by (unfold kern; by rewrite Hsys).
  split; rewrite ?HK, ?Hsys; [done|congruence| |done|].
  - intros x Hx Hl. left. apply Hux. destruct (P3 x Hx Hl) as [| ->%list_elem_of_singleton]; auto.
  - intros x Hx. by apply not_elem_of_nil in Hx.
Qed.

Lemma used_name s fd : table_ok s -> used s fd -> is_Some (km_guestfd_name s fd).
Proof.
  intros Hs Hu. unfold km_guestfd_name. pose proof (fi_range _ _ (pd_inv _ _ Hs) _ Hu).
  destruct (Z.ltb_spec fd 0); [lia|]. destruct (Z.leb_spec s.(nfdmap) fd); [lia|]. by apply (fi_name _ _ (pd_inv _ _ Hs)).
Qed.

Lemma stays_dup fd : stays (km_fs_dup fd).
Proof.
  apply stays_on_fd. intros s o Hs Hu. apply wp_bind, wp_get. cbv zeta. destruct (used_name s fd Hs Hu) as [nm ->].
  apply wp_bind, wp_assert; [done|]. apply wp_bind, wp_sys. destruct (Z.leb_spec 0 (fd_sys s.(syscalls) (F_dup fd))) as [Hr|Hr].
  - destruct (after_dups (F_dup fd) s fd) as [H1 H2]; try done. by apply enter_dup_pending.
  - apply wp_ret, after_fails; [done|done|right; by eexists].
Qed.

Lemma stays_fcntl fd cmd arg : stays (km_fs_fcntl fd cmd arg).
Proof.
  apply stays_on_fd. intros s o Hs Hu. cbv zeta. destruct (_ || (cmd =? F_DUPFD_CLOEXEC)); [|by apply stays_sys].
  set (c := F_fcntl_dup _ _ _). apply wp_bind, wp_sys. destruct (Z.leb_spec 0 (fd_sys s.(syscalls) c)) as [Hr|Hr].
  - destruct (after_dups c s fd) as [H1 H2]; try done. apply wp_bind, wp_get. by apply enter_dup_pending.
  - apply wp_ret, after_fails; [done|done|right; by eexists].
Qed.
(** dup3: the host has replaced what [newfd] was before the table drops its entry. *)
Lemma after_dup3 s fd newfd flags s' :
  let c := F_dup3 fd newfd flags in
  table_ok s -> used s fd -> fd <> newfd -> 0 <= newfd < limit -> 0 <= fd_sys s.(syscalls) c ->
  fd_inv (kern s) s' -> s'.(nfdmap) = limit -> s'.(syscalls) = (after c s).(syscalls) ->
  (forall x, used s' x <-> x <> newfd /\ used s x) ->
  pending [newfd] s' /\ used s' fd /\ kern s' !! newfd = kern s' !! fd.
Proof.
  intros c Hs Hu Hne Hrg Hr Hi Hn Hsys Hux. subst c. set (c := F_dup3 fd newfd flags) in *. destruct (ho_dup3 _ _ _ _ Hr) as [_ [d Hd]].
  change (kernel_of fd_pair k0 s.(syscalls)) with (kern s) in Hd.
  assert (HK : kern (after c s) = <[newfd := d]> (kern s)).
  { rewrite kern_after. apply Z.leb_le in Hr. unfold kernel_step, copy_fd. rewrite Hr. unfold c. by rewrite Hd. }
  pose proof (pd_bound _ _ Hs _ _ Hd). split_and!.
  - by apply (pending_insert c s s' newfd d); try done; [lia].
  - apply Hux. done.
  - unfold kern at 1 2. rewrite Hsys. change (kernel_of fd_pair k0 (after c s).(syscalls)) with (kern (after c s)).
    rewrite HK, lookup_insert_eq, lookup_insert_ne by done. done.
Qed.

Lemma stays_dup3 fd newfd flags : stays (km_fs_dup3 fd newfd flags).
Proof.
  unfold km_fs_dup3. destruct (Z.eqb_spec fd newfd) as [|Hne]; [apply stays_ret|]. destruct (negb _); [apply stays_ret|].
  intros s Hs. apply wp_bind, wp_get. destruct (_ || _) eqn:Erg; [by apply wp_ret|].
  apply orb_false_iff in Erg as [E1%Z.ltb_ge E2%Z.leb_gt]. rewrite (pd_limit _ _ Hs) in E2. apply on_fd_ok; [done|].
  intros o Hu. cbv zeta. destruct (used_name s fd Hs Hu) as [nm ->]. apply wp_bind, wp_assert; [done|].
  set (c := F_dup3 fd newfd flags). apply wp_bind, wp_sys. destruct (Z.leb_spec 0 (fd_sys s.(syscalls) c)) as [Hr|Hr].
  - destruct (ho_dup3 _ _ _ _ Hr) as [Er _]. fold c in Er. rewrite Er. apply wp_bind, wp_get, wp_bind.
    assert (Hrm : wp False (if km_is_file_used (file_at (after c s) newfd) then del_guest_fd newfd else ret tt)
        (fun _ s' => fd_inv (kern s) s' /\ removed newfd (after c s) s') (after c s)).
    { destruct (km_is_file_used _) eqn:Eu; [apply del_ok; [apply inv_syscalls, Hs|exact Eu]|]. apply wp_ret.
      split; [apply inv_syscalls, Hs|]. split_and!; try done. intros x. split; [|tauto]. intros Hx. split; [|done].
      intros ->. unfold used, km_is_file_used in *. congruence. }
    eapply wp_mono; [exact Hrm|]. intros [] s' (Hi & Hux & Hsys & Hn).
    destruct (after_dup3 s fd newfd flags s') as (H1 & H2 & H3); try done; [by rewrite Hn; apply Hs|]. by apply enter_dup_pending.
  - apply wp_ret. apply after_same; [done|]. apply Z.leb_gt in Hr. unfold kernel_step. by rewrite Hr.
Qed.

Lemma stays_dup2 fd newfd : stays (km_fs_dup2 fd newfd).
Proof. unfold km_fs_dup2. destruct (fd =? newfd); [apply stays_ret|apply stays_dup3]. Qed.

(** Calls that create two descriptors. *)
Lemma after_pair c s :
  table_ok s -> makes_pair c = true -> fd_sys s.(syscalls) c = 0 ->
  let p := fd_pair s.(syscalls) c in
  p.1 <> p.2 /\ pending [p.1; p.2] (after c s) /\ alone [p.1; p.2] (after c s)
  /\ (exists n m, kern (after c s) !! p.1 = Some (n, makes_socket c) /\ kern (after c s) !! p.2 = Some (m, makes_socket c)).
Proof.
  intros Hs Hc Hr p. destruct (ho_pair s.(syscalls) c Hc Hr) as (Hne & Hr1 & Hr2 & Hn1 & Hn2). fold p in Hne, Hr1, Hr2, Hn1, Hn2.
  change (kernel_of fd_pair k0 s.(syscalls)) with (kern s) in Hn1, Hn2. set (n := 2 * Z.of_nat (length s.(syscalls))).
  assert (HK : kern (after c s) = <[p.2 := (n + 1, makes_socket c)]> (<[p.1 := (n, makes_socket c)]> (kern s))).
  { rewrite kern_after. unfold kernel_step. rewrite Hr. by destruct c. }
  assert (K1 : kern (after c s) !! p.1 = Some (n, makes_socket c)) by (rewrite HK, lookup_insert_ne by done; apply lookup_insert_eq).
  assert (K2 : kern (after c s) !! p.2 = Some (n + 1, makes_socket c)) by (rewrite HK; apply lookup_insert_eq).
  assert (K3 : forall x, x <> p.1 -> x <> p.2 -> kern (after c s) !! x = kern s !! x) by (intros; rewrite HK, !lookup_insert_ne by done; done).
  pose proof (closed_not_used s _ Hs Hn1) as U1. pose proof (closed_not_used s _ Hs Hn2) as U2.
  assert (Hin : forall x, x ∈ [p.1; p.2] <-> x = p.1 \/ x = p.2) by (intros x; rewrite !elem_of_cons, elem_of_nil; tauto).
  pose proof Hs as [P1 P2 P3 P4 P5].
  split_and!; [done|split|..|by exists n, (n + 1)].
  - eapply inv_kernel; [by apply inv_syscalls|]. intros x Hx. apply K3; intros ->; done.
  - done.
  - intros x Hx Hl. rewrite Hin. destruct (decide (x = p.1)); [auto|]. destruct (decide (x = p.2)); [auto|].
    rewrite K3 in Hx by done. destruct (P3 x Hx Hl) as [|Hin']; [by left|by apply not_elem_of_nil in Hin'].
  - intros x d. cbn [after set_syscalls syscalls length]. destruct (decide (x = p.1)) as [->|]; [rewrite K1; intros [= <-]; cbn; lia|].
    destruct (decide (x = p.2)) as [->|]; [rewrite K2; intros [= <-]; cbn; lia|]. rewrite K3 by done. intros Hd%P4. lia.
  - intros x [->| ->]%Hin; split_and!; try done; try lia; by eexists.
  - intros x a Hx Ha Hax E. assert (Hold : forall z, used s z -> forall b, kern (after c s) !! z <> Some (n, b) /\ kern (after c s) !! z <> Some (n + 1, b)).
    { intros z Hz b. rewrite K3 by (intros ->; done). split; intros Hd%P4; cbn in Hd; lia. }
    rewrite Hin in Hx, Ha. destruct Hx as [->| ->], Ha as [Ha|[->| ->]]; try done; rewrite ?K1, ?K2 in E; try (injection E; lia);
      by destruct (Hold a Ha (makes_socket c)).
Qed.

Lemma connect_ok a b s : table_ok s -> used s a -> used s b -> wp False (km_connect_files (a, b)) (fun _ => table_ok) s.
Proof.
  intros Hs Ha Hb. pose proof (fi_range _ _ (pd_inv _ _ Hs)) as Hrg. apply wp_bind, wp_modify. cbn [fst snd].
  destruct (pending_change [] s a (set_ofd b (file_at s a)) Hs) as [H1 Hu1]; [done|apply (fi_error _ _ (pd_inv _ _ Hs))| |].
  { intros d _ Hd. destruct (inv_entry _ _ _ _ (pd_inv _ _ Hs) Ha Hd) as (? & ? & ?). split_and!; try done. right. by apply Hrg. }
  apply wp_modify. change (set_guest_files _ s) with (with_file a (set_ofd b (file_at s a)) s). set (s1 := with_file _ _ s) in *.
  assert (Hb1 : used s1 b) by by apply Hu1.
  apply (pending_change [] s1 b (set_ofd a (file_at s1 b)) H1); [done|apply (fi_error _ _ (pd_inv _ _ H1))|].
  intros d _ Hd. destruct (inv_entry _ _ _ _ (pd_inv _ _ H1) Hb1 Hd) as (? & ? & ?). split_and!; try done. right. by apply Hrg.
Qed.

Lemma after_pair_fails c s : table_ok s -> makes_pair c = true -> fd_sys s.(syscalls) c <> 0 -> table_ok (after c s).
Proof. intros Hs Hc Hr. apply after_same; [done|]. unfold kernel_step. apply Z.eqb_neq in Hr. rewrite Hr. by destruct c. Qed.

(** The two entries of a pair, by [add]. *)
Lemma enter_pair c s (add1 add2 : Z -> M km_filesys Z) :
  table_ok s -> makes_pair c = true -> fd_sys s.(syscalls) c = 0 ->
  (forall add, add = add1 \/ add = add2 -> forall r L s d, pending (r :: L) s -> alone (r :: L) s -> r ∉ L -> kern s !! r = Some d -> d.2 = makes_socket c ->
    wp False (add r) (fun v s' => v = r /\ pending L s' /\ alone L s' /\ kern s' = kern s /\ (forall x, used s' x <-> x = r \/ used s x)) s) ->
  let p := fd_pair s.(syscalls) c in
  wp False (let* a := add1 p.1 in let* b := add2 p.2 in km_connect_files (a, b) ;;; ret (0, (a, b))) (fun _ => table_ok) (after c s).
Proof.
  intros Hs Hc Hr Hadd p. destruct (after_pair c s Hs Hc Hr) as (Hne & Hp & Ha & n & m & K1 & K2). fold p in Hne, Hp, Ha, K1, K2.
  apply wp_bind. eapply wp_mono; [apply (Hadd add1 (or_introl eq_refl) p.1 [p.2] _ (n, makes_socket c)); try done; by rewrite list_elem_of_singleton|].
  intros v s1 (-> & Hp1 & Ha1 & HK1 & Hu1). apply wp_bind.
  eapply wp_mono; [apply (Hadd add2 (or_intror eq_refl) p.2 [] _ (m, makes_socket c)); try done; [apply not_elem_of_nil|by rewrite HK1]|].
  intros v s2 (-> & Hp2 & Ha2 & HK2 & Hu2). apply wp_bind.
  eapply wp_mono; [apply (connect_ok p.1 p.2 s2); [done|apply Hu2; right; apply Hu1; by left|apply Hu2; by left]|].
  intros [] s3 H3. by apply wp_ret.
Qed.
Lemma stays_pipe_fds c flags : makes_pair c = true -> makes_socket c = false -> stays (pipe_fds c flags).
Proof.
  intros Hc Hb s Hs. apply wp_bind, wp_get, wp_bind, wp_sys. destruct (Z.eqb_spec (fd_sys s.(syscalls) c) 0) as [E|E].
  - rewrite E. apply (enter_pair c s (fun r => km_add_guest_fd_internal r None (Z.lor flags O_RDONLY) KM_FILE_HOW_PIPE_0 None)
       (fun r => km_add_guest_fd_internal r None (Z.lor flags O_WRONLY) KM_FILE_HOW_PIPE_1 None) Hs Hc E).
    intros add [->| ->] r L s1 d H1 H2 H3 H4 H5; eapply add_pending; try done; congruence.
  - apply wp_ret. by apply after_pair_fails.
Qed.

Lemma stays_socketpair dom ty proto : stays (km_fs_socketpair dom ty proto).
Proof.
  intros s Hs. set (c := F_socketpair dom ty proto). apply wp_bind, wp_get, wp_bind, wp_sys. fold c.
  destruct (Z.eqb_spec (fd_sys s.(syscalls) c) 0) as [E|E].
  - rewrite E. apply (enter_pair c s (fun r => km_add_socket_fd r None 0 dom ty proto KM_FILE_HOW_SOCKETPAIR0)
       (fun r => km_add_socket_fd r None 0 dom ty proto KM_FILE_HOW_SOCKETPAIR1) Hs eq_refl E).
    intros add [->| ->] r L s1 d H1 H2 H3 H4 H5; by eapply add_socket_pending.
  - apply wp_ret. by apply after_pair_fails.
Qed.

(** Calls that change the entry of a socket. *)
Lemma sock_upd_ok fd f s n :
  table_ok s -> used s fd -> kern s !! fd = Some (n, true) -> wp False (sock_upd fd f) (fun _ => table_ok) s.
Proof.
  intros Hs Hu Hd. destruct (inv_entry _ _ _ _ (pd_inv _ _ Hs) Hu Hd) as (E1 & E2 & E3). apply wp_bind, wp_get.
  destruct (file_at s fd).(sockinfo) as [si|] eqn:Es; [|by destruct (proj1 E3 eq_refl)]. apply wp_modify.
  apply (pending_change [] s fd (set_sockinfo (Some (f si)) (file_at s fd)) Hs); [done|apply (fi_error _ _ (pd_inv _ _ Hs))|].
  intros d _ Hd'. split_and!; try done. replace d with (n, true) by congruence. by split.
Qed.

Lemma stays_on_socket fd nr args (b : Z -> bool) f :
  (forall r, b r = true -> 0 <= r) -> on_socket (F_sys nr (fd :: args)) = Some fd ->
  forall s, table_ok s -> used s fd ->
  wp False (let* r := sys (F_sys nr (fd :: args)) in (if b r then sock_upd fd f else ret tt) ;;; ret r) (fun _ => table_ok) s.
Proof.
  intros Hb Ho s Hs Hu. set (c := F_sys nr (fd :: args)) in *. apply wp_bind, wp_sys, wp_bind.
  assert (Hs1 : table_ok (after c s)) by by apply after_same.
  assert (Hst : wp False (if b (fd_sys s.(syscalls) c) then sock_upd fd f else ret tt) (fun _ => table_ok) (after c s)).
  { destruct (b _) eqn:E; [|by apply wp_ret]. destruct (ho_socket _ c fd Ho (Hb _ E)) as [n Hn]. by apply (sock_upd_ok _ _ _ n). }
  eapply wp_mono; [exact Hst|]. intros [] s2 H2. by apply wp_ret.
Qed.

Lemma stays_bind fd a alen : stays (km_fs_bind fd a alen).
Proof. apply stays_on_fd. intros s o Hs Hu. apply (stays_on_socket fd SYS_bind [alen] (fun r => r =? 0)); try done. intros r ->%Z.eqb_eq. done. Qed.

Lemma stays_listen fd bl : stays (km_fs_listen fd bl).
Proof. apply stays_on_fd. intros s o Hs Hu. apply (stays_on_socket fd SYS_listen [bl] (fun r => r =? 0)); try done. intros r ->%Z.eqb_eq. done. Qed.

Lemma stays_connect fd alen : stays (km_fs_connect fd alen).
Proof. apply stays_on_fd. intros s o Hs Hu. apply (stays_on_socket fd SYS_connect [alen] (fun r => 0 <=? r)); try done. by intros r ?%Z.leb_le. Qed.

Lemma stays_accept4 fd want fl : stays (km_fs_accept4 fd want fl).
Proof.
  apply stays_on_fd. intros s o Hs Hu. destruct (fi_running _ _ (pd_inv _ _ Hs)) as (_ & R2 & R3).
  apply wp_bind. unfold km_snap_find_accepted. apply wp_bind, wp_get. rewrite R3. apply wp_ret.
  set (c := F_accept4 fd fl). apply wp_bind, wp_sys. destruct (Z.ltb_spec (fd_sys s.(syscalls) c) 0) as [Hr|Hr].
  { apply wp_ret, after_fails; auto. }
  unfold enter_accepted. destruct (Z.ltb_spec (fd_sys s.(syscalls) c) 0); [lia|]. apply wp_bind, wp_get.
  destruct (ho_socket _ c fd eq_refl Hr) as [n Hn]. change (kernel_of fd_pair k0 s.(syscalls)) with (kern s) in Hn.
  destruct (inv_entry _ _ _ _ (pd_inv _ _ Hs) Hu Hn) as (_ & _ & E3). change (file_at (after c s) fd) with (file_at s fd).
  destruct (file_at s fd).(sockinfo) as [si|] eqn:Es; [|by destruct (proj1 E3 eq_refl)].
  destruct (after_creates c s Hs eq_refl Hr) as (H1 & H2 & m & H3). set (r := fd_sys s.(syscalls) c) in *.
  apply wp_bind. eapply wp_mono; [eapply add_socket_pending; try done; apply not_elem_of_nil|].
  intros v s1 (-> & Hp & _ & HK & Hu1). apply wp_bind.
  eapply wp_mono; [apply (sock_upd_ok r _ s1 m); [done|apply Hu1; by left|by rewrite HK]|]. intros [] s2 H4.
  apply wp_bind, wp_modify, wp_ret. destruct (fi_running _ _ (pd_inv _ _ H4)) as (_ & -> & _). done.
Qed.

(** Calls that open nothing. *)
Lemma stays_sendmsg fd flag fds : stays (km_fs_sendmsg fd flag fds).
Proof.
  intros s Hs. apply wp_bind, wp_get. destruct (km_fs_g2h_fd s fd) as [[h o]|]; [|by apply wp_ret].
  destruct (_ =? 0); [|by apply wp_ret]. apply wp_bind. eapply wp_mono; [by apply stays_sys|]. intros r s1 H1. by apply wp_ret.
Qed.

Lemma stays_fchown fd uid gid : stays (km_fs_fchown fd uid gid).
Proof. intros s Hs. apply wp_bind, wp_get. destruct (km_fs_g2h_fd s fd) as [[h o]|]; [by apply stays_sys|by apply wp_ret]. Qed.

Lemma stays_copy_file_range a b c d e f : stays (km_fs_copy_file_range a b c d e f).
Proof.
  apply stays_on_fd. intros s o Hs Hu. apply wp_bind, wp_get. destruct (km_fs_g2h_fd s a) as [[h o']|]; [|by apply wp_ret].
  by apply stays_if; [apply stays_ret|apply stays_if; [apply stays_ret|apply stays_sys]|].
Qed.

Lemma stays_prw c fd buf count off : stays (km_fs_prw c fd buf count off).
Proof.
  apply stays_pass. intros h o. apply stays_if; [|apply stays_sys]. apply stays_if; [apply stays_ret|].
  intros s Hs. apply wp_bind, wp_get. by apply wp_ret.
Qed.

(** epoll_ctl may end the process; it does not harm the table. *)
Lemma stays_epoll_ctl epfd op fd ev s : table_ok s -> wp True (km_fs_epoll_ctl epfd op fd ev) (fun _ => table_ok) s.
Proof.
  intros Hs. apply wp_bind, wp_get. destruct (km_fs_g2h_fd s epfd) as [[hep ?]|] eqn:E1; [|by apply wp_ret].
  destruct (km_fs_g2h_fd s fd) as [[h ?]|]; [|by apply wp_ret]. apply g2h_used in E1 as [-> Hu].
  set (c := F_epoll_ctl _ _ _ _). assert (Hs1 : table_ok (after c s)) by by apply after_same.
  assert (Hev : forall l s1, table_ok s1 -> used s1 epfd -> table_ok (with_file epfd (set_fevents l (file_at s1 epfd)) s1)).
  { intros l s1 H1 Hu1. apply (pending_change [] s1 epfd (set_fevents l (file_at s1 epfd)) H1); [done|apply (fi_error _ _ (pd_inv _ _ H1))|].
    intros d _ Hd. by apply (inv_entry _ _ _ _ (pd_inv _ _ H1) Hu1 Hd). }
  assert (Hbr : forall b l, wp True (km_assert b ;;; file_upd epfd (fun f => set_fevents (l f) f)) (fun _ => table_ok) (after c s)).
  { intros b l. destruct b; [|done]. apply wp_bind, wp_assert; [done|]. apply wp_modify. by apply Hev. }
  apply wp_bind, wp_sys, wp_bind. eapply wp_mono with (Q := fun _ => table_ok); [|intros [] s2 H2; by apply wp_ret].
  destruct (_ =? 0); [|by apply wp_ret]. destruct (_ =? EPOLL_CTL_ADD); [apply wp_bind, wp_get, Hbr|].
  destruct (_ =? EPOLL_CTL_MOD); [apply wp_bind, wp_get, Hbr|]. destruct (_ =? EPOLL_CTL_DEL); [apply wp_bind, wp_get, Hbr|by apply wp_ret].
Qed.
Lemma stays_step op : is_epoll_ctl op = false -> stays (fd_step op).
Proof.
  intros He. destruct op; try discriminate He; apply stays_drop;
    solve [ apply stays_open | apply stays_openat | apply stays_close | apply stays_dup | apply stays_dup2 | apply stays_dup3
          | apply stays_fcntl | by apply stays_pipe_fds | apply stays_eventfd2 | apply stays_timerfd_create | apply stays_socket
          | apply stays_socketpair | apply stays_bind | apply stays_listen | apply stays_connect | apply stays_accept4
          | apply stays_sendmsg | apply stays_epoll_create1 | apply stays_fchown | apply stays_prw | apply stays_copy_file_range
          | apply stays_pass; intros hfd hops; repeat first [apply stays_sys | apply stays_ret | apply stays_if | destruct hops | apply stays_pass; intros] ].
Qed.

Lemma step_ok op s : table_ok s -> wp (is_epoll_ctl op = true) (fd_step op) (fun _ => table_ok) s.
Proof.
  intros Hs. destruct (is_epoll_ctl op) eqn:E; [|by apply wp_safe, stays_step].
  destruct op; try discriminate E. pose proof (stays_epoll_ctl epfd op fd ev s Hs) as Hw.
  unfold fd_step, drop_result, wp, bind in *. by destruct (km_fs_epoll_ctl epfd op fd ev s) as [[r s1]| |].
Qed.

Lemma run_ok ops s : table_ok s -> wp (existsb is_epoll_ctl ops = true) (fd_run ops) (fun _ => table_ok) s.
Proof.
  revert s. induction ops as [|op ops IH]; intros s Hs; [by apply wp_ret|]. cbn [fd_run existsb].
  pose proof (step_ok op s Hs) as Hw. unfold wp, bind in *. destruct (fd_step op s) as [[[] s1]| |]; [|by rewrite Hw|done].
  specialize (IH s1 Hw). destruct (fd_run ops s1) as [[? s2]| |]; [done| |done]. rewrite IH. apply orb_true_r.
Qed.
End System.

(** ** The start of the monitor *)
Section Start.
  Context `{FdHost} (k0 : kernel) `{!HostOk k0 (MAX_OPEN_FILES - MAX_KM_FILES)}.

Lemma init_file fd :
  file_at km_fs_init fd = if decide (fd = 0) then std_file O_RDONLY (std_name 0 stdin_name)
    else if decide (fd = 1) then std_file O_WRONLY (std_name 1 stdout_name)
    else if decide (fd = 2) then std_file O_WRONLY (std_name 2 stderr_name) else file_zero.
Proof.
  unfold file_at, km_fs_init. cbn [guest_files].
  repeat (destruct (decide (fd = _)) as [->|]; [by rewrite ?lookup_insert_ne, lookup_insert_eq by done|rewrite lookup_insert_ne by done]).
  by rewrite lookup_empty.
Qed.

Lemma init_used fd : used km_fs_init fd <-> fd = 0 \/ fd = 1 \/ fd = 2.
Proof. unfold used. rewrite init_file. repeat destruct (decide (fd = _)); cbn; split; intros; try done; lia. Qed.

Lemma std_name_some i own : is_Some (k0 !! i) -> is_Some (std_name i own).
Proof. intros Hi. unfold std_name. destruct (ho_link [] i Hi) as [n ->]. by eexists. Qed.

Lemma init_ok : table_ok k0 (MAX_OPEN_FILES - MAX_KM_FILES) km_fs_init.
Proof.
  destruct ho_std as (a & b & c & Hab & Hac & Hbc & K0 & K1 & K2).
  assert (Hopen : forall fd, used km_fs_init fd -> exists n, k0 !! fd = Some (n, false)) by (intros fd [->|[->| ->]]%init_used; by eexists).
  assert (Hentry : forall fd, used km_fs_init fd -> is_Some (file_at km_fs_init fd).(fname) /\ (file_at km_fs_init fd).(ofd) = -1
            /\ (file_at km_fs_init fd).(sockinfo) = None).
  { intros fd Hu. destruct (Hopen fd Hu) as [n Hn]. assert (Hs : is_Some (k0 !! fd)) by by eexists.
    apply init_used in Hu as [->|[->| ->]]; rewrite init_file; cbn; split_and!; try done; by apply std_name_some. }
  split; [split|..]; cbn [nfdmap km_fs_init dup_data concat]; change (kern k0 km_fs_init) with k0; try done.
  - intros fd [->|[->| ->]]%init_used; vm_compute; split; done.
  - intros fd Hu. destruct (Hopen fd Hu) as [n ->]. by eexists.
  - constructor.
  - intros g Hg. by apply not_elem_of_nil in Hg.
  - intros fd Hin. by apply not_elem_of_nil in Hin.
  - intros x y Hx Hy Hxy. split; [intros (g & Hg & _); by apply not_elem_of_nil in Hg|]. intros E. exfalso.
    apply init_used in Hx as [->|[->| ->]], Hy as [->|[->| ->]]; congruence.
  - intros fd d Hu Hd. destruct (Hopen fd Hu) as [n Hn]. destruct (Hentry fd Hu) as (_ & _ & ->). replace d with (n, false) by congruence.
    split; [done|by intros [? ?]].
  - intros fd. rewrite init_file. by repeat destruct (decide (fd = _)).
  - intros fd Hu. left. by apply Hentry.
  - intros fd Hu. by apply Hentry.
  - intros fd [d Hd] Hl. left. apply init_used. by eapply (ho_start fd d).
  - intros fd d Hd. cbn. by apply (ho_start fd d).
  - intros fd Hin. by apply not_elem_of_nil in Hin.
Qed.

(** C17. From the start of the monitor and after any sequence of the calls of [fd_op]
    (opens, close, dup and its variants, fcntl, pipes, sockets and socket pairs, accept,
    epoll, eventfd, timerfd and the calls on an open descriptor; receiving descriptors with
    recvmsg is not among them), the table agrees with the host's: a descriptor below the
    limit is in use exactly when the host has it open, two of them are recorded as dups of
    each other exactly when they share an open file description, the groups are disjoint
    with at least two members each, and an entry has the parameters of a socket exactly when
    it is one. No call ends the monitor, epoll_ctl apart. The host may let any call fail,
    and is otherwise the kernel [HostOk] describes: a descriptor it gives out was not open
    and is below the size of the table; dup2 and dup3 answer the number asked for; calls
    that need a socket or an open descriptor succeed only on one; every open descriptor has
    a link in /proc; and at the start, of the descriptors below the limit, 0, 1 and 2 are
    open, on three different descriptions that are not sockets. *)
Theorem fd_table_refines ops :
  wp (existsb is_epoll_ctl ops = true) (fd_run ops)
    (fun _ s => let K := kernel_of fd_pair k0 s.(syscalls) in
       (forall fd, used s fd <-> 0 <= fd < s.(nfdmap) /\ is_Some (K !! fd))
       /\ (forall a b, used s a -> used s b -> a <> b -> together s.(dup_data) a b <-> K !! a = K !! b)
       /\ NoDup (concat s.(dup_data)) /\ (forall g, g ∈ s.(dup_data) -> (2 <= length g)%nat /\ forall fd, fd ∈ g -> used s fd)
       /\ (forall fd d, used s fd -> K !! fd = Some d -> d.2 = true <-> is_Some (file_at s fd).(sockinfo)))
    km_fs_init.
Proof.
  eapply wp_mono; [apply (run_ok k0 _ ops), init_ok|]. intros _ s [P1 P2 P3 P4 P5]. cbv zeta. fold (kern k0 s) in *. split_and!.
  - intros fd. split; [intros Hu; split; [by apply (fi_range _ _ P1)|by apply (fi_open _ _ P1)]|].
    intros [Hr Ho]. destruct (P3 fd Ho) as [|Hin]; [lia|done|by apply not_elem_of_nil in Hin].
  - apply P1.
  - apply P1.
  - intros g Hg. split; [by apply (fi_sized _ _ P1)|]. intros fd Hfd. apply (fi_members _ _ P1), elem_of_concat. by exists g.
  - apply P1.
Qed.
End Start.
