(* ===== verification/FdWitness.v ===== *)
(** * Descriptors: a concrete host, the snapshot's note, epoll sets

    A host that gives out the lowest free descriptors, on which the theorem about
    any sequence of calls is applied and the hazards of epoll_ctl are run; and the
    round trip of the dup groups through the note of a snapshot. *)
From S2P Require Import Prelude FdTable FdGroups FdInv FdSystem.

(** ** Lowest-free-descriptor host *)
Module LowestHost.

Definition start : kernel := <[0 := (-1, false)]> (<[1 := (-2, false)]> (<[2 := (-3, false)]> ∅)).
Definition limit : Z := MAX_OPEN_FILES - MAX_KM_FILES.

Fixpoint lowest (K : kernel) (from : Z) (n : nat) : option Z :=
  match n with
  | O => None
  | S n' => match K !! from with None => Some from | Some _ => lowest K (from + 1) n' end
  end.
Definition lowest_free (K : kernel) : option Z := lowest K 0 (Z.to_nat limit).
Definition alloc (K : kernel) : Z := default (-24) (lowest_free K).
Definition two_free (K : kernel) : Z * Z := let a := alloc K in (a, alloc (<[a := (0, false)]> K)).
Definition is_open (K : kernel) (fd : Z) : bool := match K !! fd with Some _ => true | None => false end.
Definition is_sock (K : kernel) (fd : Z) : bool := match K !! fd with Some (_, b) => b | None => false end.

Fixpoint table (h : list (fdcall * Z)) : kernel :=
  match h with
  | [] => start
  | (c, r) :: h' => let K := table h' in kernel_step (fun _ _ => two_free K) c r h' K
  end.

Definition answer (K : kernel) (c : fdcall) : Z :=
  match on_socket c with
  | Some fd => if is_sock K fd then (if creates c then alloc K else 0) else -88
  | None =>
      if creates c then alloc K
      else match dups c with
           | Some fd => if is_open K fd then alloc K else -9
           | None =>
               match c with
               | F_dup3 fd newfd _ => if is_open K fd then newfd else -9
               | _ => if makes_pair c then (if (0 <=? (two_free K).1) && (0 <=? (two_free K).2) then 0 else -24) else 0
               end
           end
  end.

Definition file_name : string := "file".
Definition no_name : string := "".
#[local] Instance host : FdHost := {|
  fd_sys h c := answer (table h) c; fd_pair h c := two_free (table h); fd_list _ _ := []; fd_link _ _ := Some file_name;
  regexec _ _ := false; sscanf_fd _ := None; gva_to_kma a := a; read_op _ _ _ := 0; km_filename := no_name; proc_pid_length := 0%nat |}.

Lemma table_kernel h : kernel_of fd_pair start h = table h.
Proof. induction h as [|[c r] h IH]; [done|]. cbn [kernel_of table]. rewrite IH. unfold kernel_step. by destruct c. Qed.

Lemma lowest_spec K from n r : lowest K from n = Some r -> K !! r = None /\ from <= r < from + Z.of_nat n.
Proof.
  revert from. induction n as [|n IH]; intros from Hl; cbn [lowest] in Hl; [done|]. destruct (K !! from) eqn:E.
  - apply IH in Hl as [? ?]. split; [done|lia].
  - simplify_eq. split; [done|lia].
Qed.

Lemma alloc_spec K : 0 <= alloc K -> K !! alloc K = None /\ 0 <= alloc K < limit.
Proof.
  unfold alloc, lowest_free. intros Ha. destruct (lowest K 0 (Z.to_nat limit)) as [r|] eqn:E; [|cbn in Ha; lia].
  apply lowest_spec in E as [E1 E2]. split; [done|]. unfold limit, MAX_OPEN_FILES, MAX_KM_FILES, default in *. cbn in *. lia.
Qed.

Lemma two_free_spec K :
  let p := two_free K in
  0 <= p.1 -> 0 <= p.2 -> p.1 <> p.2 /\ 0 <= p.1 < limit /\ 0 <= p.2 < limit /\ K !! p.1 = None /\ K !! p.2 = None.
Proof.
  unfold two_free. cbn [fst snd]. intros Ha Hp. apply alloc_spec in Hp as [[H1 H3]%lookup_insert_None H2].
  apply alloc_spec in Ha as [H4 H5]. split_and!; try lia; done.
Qed.

#[local] Instance host_ok : HostOk start limit.
Proof.
  assert (Hstart : forall fd d, start !! fd = Some d -> d.1 < 0 /\ (fd = 0 \/ fd = 1 \/ fd = 2)).
  { intros fd d. unfold start. rewrite !lookup_insert_Some, lookup_empty. intros Hd.
    destruct Hd as [[<- <-]|[_ [[<- <-]|[_ [[<- <-]|[_ Hd]]]]]]; cbn; [lia..|done]. }
  assert (Hsock : forall K fd, is_sock K fd = true -> exists d, K !! fd = Some (d, true)).
  { intros K fd. unfold is_sock. destruct (K !! fd) as [[d b]|]; [intros ->; by eexists|done]. }
  assert (Hopen : forall K fd, is_open K fd = true -> is_Some (K !! fd)).
  { intros K fd. unfold is_open. by destruct (K !! fd). }
  split; intros; rewrite ?table_kernel in *; cbn [fd_sys fd_pair fd_link host] in *.
  - unfold answer in *. rewrite H in *. destruct (on_socket c) as [fd|]; [destruct (is_sock _ fd); [|lia]|];
      apply alloc_spec in H0 as [? ?]; split; [done|lia|done|lia].
  - assert (Hcs : on_socket c = None /\ creates c = false) by (by destruct c). destruct Hcs as [E1 E2].
    unfold answer in *. rewrite E1, E2, H in *. destruct (is_open _ fd) eqn:Eo; [|lia].
    apply alloc_spec in H0 as [? ?]. split_and!; [done|by apply Hopen|lia].
  - unfold answer in *. cbn [on_socket creates dups] in *. destruct (is_open _ fd) eqn:Eo; [|lia]. split; [done|by apply Hopen].
  - assert (Hcs : on_socket c = None /\ creates c = false /\ dups c = None) by (by destruct c). destruct Hcs as (E1 & E2 & E3).
    unfold answer in H0. rewrite E1, E2, E3, H in H0. apply two_free_spec.
    + destruct c; try discriminate H; destruct (Z.leb_spec 0 (two_free (table h)).1); [done|discriminate H0|done|discriminate H0].
    + destruct c; try discriminate H; destruct (Z.leb_spec 0 (two_free (table h)).2); rewrite ?andb_false_r in H0; [done|discriminate H0|done|discriminate H0].
  - unfold answer in *. rewrite H in *. destruct (is_sock _ fd) eqn:E; [|lia]. by apply Hsock.
  - by eexists.
  - exists (-1), (-2), (-3). done.
  - apply Hstart in H as [? ?]. auto.
Qed.

(** A socket and its dups, a pipe, a dup over the standard input, closes. *)
Definition calls : list fd_op :=
  [Op_socket 2 1 0; Op_dup 3; Op_bind 3 [1; 2] 2; Op_pipe; Op_dup2 4 0; Op_close 3; Op_fcntl 5 F_DUPFD 0; Op_listen 0 5; Op_accept 4 true;
   Op_dup3 6 1 O_CLOEXEC; Op_close 17; Op_open file_name 0 0].

Lemma fd_table_refines_witness :
  match fd_run calls km_fs_init with
  | Ret (_, s) => s.(dup_data) = [[4; 0]; [5; 3]; [6; 1]]
  | _ => False
  end /\
  wp (existsb is_epoll_ctl calls = true) (fd_run calls)
    (fun _ s => let K := kernel_of fd_pair start s.(syscalls) in
       (forall fd, used s fd <-> 0 <= fd < s.(nfdmap) /\ is_Some (K !! fd))
       /\ (forall a b, used s a -> used s b -> a <> b -> together s.(dup_data) a b <-> K !! a = K !! b)
       /\ NoDup (concat s.(dup_data)) /\ (forall g, g ∈ s.(dup_data) -> (2 <= length g)%nat /\ forall fd, fd ∈ g -> used s fd)
       /\ (forall fd d, used s fd -> K !! fd = Some d -> d.2 = true <-> is_Some (file_at s fd).(sockinfo)))
    km_fs_init.
Proof. split; [vm_compute; reflexivity|apply (fd_table_refines start)]. Defined.

(** Closing a descriptor leaves it in the epoll sets it was added to, where the
    host drops it from its own: when the number is given out again and the guest
    adds it to the set, the host accepts and the monitor fails an assertion.  This
    is the one exception to the calls that never end the monitor. *)
Theorem epoll_readd_aborts ev ev' :
  let before := [Op_epoll_create1 0; Op_eventfd2 0 0; Op_epoll_ctl 3 EPOLL_CTL_ADD 4 ev; Op_close 4; Op_eventfd2 0 0] in
  fd_run (before ++ [Op_epoll_ctl 3 EPOLL_CTL_ADD 4 ev']) km_fs_init = Abort
  /\ match fd_run before km_fs_init with
     | Ret (_, s) => km_fs_event_find (file_at s 3) 4 = Some (mk_fs_event 4 ev) /\ fd_sys s.(syscalls) (F_epoll_ctl 3 EPOLL_CTL_ADD 4 ev') = 0
     | _ => False
     end.
Proof. split; [vm_compute; reflexivity|vm_compute; split; reflexivity]. Qed.

End LowestHost.

(** ** The dup groups through a snapshot *)
Lemma read_groups_write G rest :
  read_groups (length G) (flat_map (fun g => Z.of_nat (length g) :: g) G ++ rest) = Some G.
Proof.
  induction G as [|g G IH]; [done|]. cbn [length flat_map app read_groups]. rewrite Nat2Z.id, <- app_assoc.
  destruct (Nat.ltb_spec (length (g ++ flat_map (fun g => Z.of_nat (length g) :: g) G ++ rest)) (length g)) as [Hl|Hl].
  - rewrite length_app in Hl. lia.
  - rewrite drop_app_length, take_app_length, IH. done.
Qed.

(** What descriptor recovery looks for: a dup that is there already. *)
Inductive dup_found (G : list (list Z)) (used : Z -> bool) (fd : Z) : Z -> Prop :=
| found_member r : together G fd r -> r <> fd -> used r = true -> dup_found G used fd r
| found_first : fd ∈ concat G -> (forall x, together G fd x -> x <> fd -> used x = false) -> dup_found G used fd (-2)
| found_none : fd ∉ concat G -> dup_found G used fd (-1).

Lemma check_for_dups_found G used fd : NoDup (concat G) -> dup_found G used fd (check_for_dups fd used G).
Proof.
  induction G as [|g G IH]; cbn [check_for_dups]; intros Hnd; [apply found_none, not_elem_of_nil|].
  cbn [concat] in Hnd. apply NoDup_app in Hnd as (Hg & Hdisj & Hnd). destruct (in_group fd g) eqn:E.
  - apply in_group_spec in E. destruct (filter _ g) as [|r l] eqn:Ef.
    + apply found_first; [cbn; rewrite elem_of_app; by left|]. intros x [[_ Hx]|(h & Hh & Hfd & _)]%together_cons Hne.
      * destruct (used x) eqn:Eu; [|done]. assert (Hin : x ∈ filter (fun ofd => ofd <> fd /\ used ofd = true) g) by by apply list_elem_of_filter.
        rewrite Ef in Hin. by apply not_elem_of_nil in Hin.
      * exfalso. apply (Hdisj fd E). apply elem_of_concat. by exists h.
    + assert (Hin : r ∈ filter (fun ofd => ofd <> fd /\ used ofd = true) g) by (rewrite Ef; by left).
      apply list_elem_of_filter in Hin as [[Hne Hu] Hin]. apply found_member; [apply together_cons; auto|done|done].
  - apply in_group_false in E. destruct (IH Hnd) as [r Hr Hne Hu|Hf Ha|Hn].
    + apply found_member; [apply together_cons; by right|done|done].
    + apply found_first; [cbn; rewrite elem_of_app; by right|]. intros x [[Hfd _]|Hx]%together_cons Hne; [done|by apply Ha].
    + apply found_none. cbn. rewrite elem_of_app. tauto.
Qed.

(** The dup groups written to a snapshot, followed by whatever pads the note,
    are the ones read back when it is resumed; and recovery of a descriptor then
    finds another member of its group that is already in use, or -2 when it is in
    a group none of whose others is in use yet, or -1 when it is in none. *)
Theorem dup_note_roundtrip G pad used fd :
  NoDup (concat G) ->
  exists G', km_fs_recover_dup_data (km_fs_core_dup_write G ++ pad) = Some G' /\ G' = G
             /\ dup_found G used fd (check_for_dups fd used G').
Proof.
  intros Hnd. exists G. split_and!; [|done|by apply check_for_dups_found].
  unfold km_fs_core_dup_write, km_fs_recover_dup_data. cbn [app]. rewrite Nat2Z.id. apply read_groups_write.
Qed.

Lemma dup_note_roundtrip_witness :
  exists G', km_fs_recover_dup_data (km_fs_core_dup_write [[4; 0]; [5; 3; 7]] ++ [0]) = Some G' /\ G' = [[4; 0]; [5; 3; 7]]
             /\ dup_found [[4; 0]; [5; 3; 7]] (fun x => x =? 3) 7 (check_for_dups 7 (fun x => x =? 3) G').
Proof. apply dup_note_roundtrip. apply (bool_decide_unpack _). vm_compute. exact I. Defined.
