(* ===== verification/Stdio.v ===== *)
(** * Formatted text (the printf and scanf the monitor uses)

    The conversions of the C library that km_exec.c and km_exec_fd_save_recover.c
    use to pass state through the environment: %d, %x, %lx, %hhd and %s, in
    snprintf and in sscanf.  A text is a list of characters without a NUL. *)
From S2P Require Import Prelude.
From Stdlib Require Import Ascii.

Abbreviation text := (list ascii).
Definition chars (s : string) : text := String.list_ascii_of_string s.
Definition nul : ascii := Ascii.zero.

(** ** Machine integers *)
Definition u32 (x : Z) : Z := x mod 2 ^ 32.
Definition int32 (x : Z) : Z := (x + 2 ^ 31) mod 2 ^ 32 - 2 ^ 31.
Definition int8 (x : Z) : Z := (x + 128) mod 256 - 128.

Lemma int32_id x : - 2 ^ 31 <= x < 2 ^ 31 -> int32 x = x.
Proof. intros H. unfold int32. rewrite Z.mod_small; lia. Qed.

Lemma int32_u32 x : - 2 ^ 31 <= x < 2 ^ 31 -> int32 (u32 x) = x.
Proof.
  intros H. unfold int32, u32. rewrite Z.add_mod_idemp_l by lia. rewrite Z.mod_small; lia.
Qed.

(** ** Digits *)
Definition code (c : ascii) : Z := Z.of_N (N_of_ascii c).
Definition hex_digits : text := chars "0123456789abcdef".
Definition digit (d : Z) : ascii := nth (Z.to_nat d) hex_digits nul.

(** The value of a digit, or -1. *)
Definition digit_value (c : ascii) : Z :=
  let n := code c in
  if (48 <=? n) && (n <=? 57) then n - 48
  else if (97 <=? n) && (n <=? 102) then n - 97 + 10
  else if (65 <=? n) && (n <=? 70) then n - 65 + 10
  else -1.

Lemma digit_value_digit d : 0 <= d < 16 -> digit_value (digit d) = d.
Proof.
  intros Hd. assert (Hc : forallb (fun n => digit_value (digit (Z.of_nat n)) =? Z.of_nat n) (seq 0 16) = true) by reflexivity.
  rewrite forallb_forall in Hc. specialize (Hc (Z.to_nat d)). rewrite Z2Nat.id in Hc by lia. apply Z.eqb_eq, Hc, in_seq. lia.
Qed.

(** ** Conversions to text; twenty digits hold every 64 bit value *)
Fixpoint print_digits (fuel : nat) (b n : Z) (acc : text) : text :=
  match fuel with
  | O => acc
  | S fuel' => let acc := digit (n mod b) :: acc in if n <? b then acc else print_digits fuel' b (n / b) acc
  end.
Definition print_base (b n : Z) : text := print_digits 20 b n [].
Definition minus : ascii := "-"%char.
Definition print_dec (z : Z) : text := if z <? 0 then minus :: print_base 10 (- z) else print_base 10 z.

Inductive directive := Lit (c : ascii) | Dec | Hex | LHex | Char8 | Str.
Inductive arg := AInt (z : Z) | AText (t : text).

Definition percent : ascii := "%"%char.
Fixpoint parse_format (s : text) : list directive :=
  match s with
  | [] => []
  | c :: r =>
      if Ascii.eqb c percent then
        match r with
        | [] => []
        | c1 :: r1 =>
            if Ascii.eqb c1 "d" then Dec :: parse_format r1
            else if Ascii.eqb c1 "x" then Hex :: parse_format r1
            else if Ascii.eqb c1 "s" then Str :: parse_format r1
            else match r1 with
                 | [] => []
                 | _ :: r2 => if Ascii.eqb c1 "l" then LHex :: parse_format r2
                              else match r2 with _ :: r3 => Char8 :: parse_format r3 | [] => [] end
                 end
        end
      else Lit c :: parse_format r
  end.
Definition format (s : string) : list directive := parse_format (chars s).

Fixpoint print (f : list directive) (args : list arg) : text :=
  match f with
  | [] => []
  | Lit c :: f' => c :: print f' args
  | d :: f' =>
      match args with
      | [] => []
      | a :: args' =>
          (match d, a with
           | Hex, AInt z => print_base 16 (u32 z)
           | LHex, AInt z => print_base 16 (u64 z)
           | _, AInt z => print_dec z
           | _, AText t => t
           end) ++ print f' args'
      end
  end.
Definition asprintf (f : string) (args : list arg) : text := print (format f) args.

(** ** Conversions from text *)
Definition is_space (c : ascii) : bool := (code c =? 32) || ((9 <=? code c) && (code c <=? 13)).
Fixpoint skip_spaces (s : text) : text :=
  match s with
  | c :: r => if is_space c then skip_spaces r else s
  | [] => []
  end.

(** The longest run of digits; [None] when there is none. *)
Fixpoint scan_digits (b : Z) (s : text) (acc : Z) : Z * text :=
  match s with
  | c :: r => if (0 <=? digit_value c) && (digit_value c <? b) then scan_digits b r (acc * b + digit_value c) else (acc, s)
  | [] => (acc, [])
  end.
Definition is_digit (b : Z) (c : ascii) : bool := (0 <=? digit_value c) && (digit_value c <? b).
Definition scan_unsigned (b : Z) (s : text) : option (Z * text) :=
  match s with
  | c :: r => if is_digit b c then Some (scan_digits b s 0) else None
  | [] => None
  end.

(** An optional sign, for base 16 an optional 0x. *)
Definition scan_number (b : Z) (s : text) : option (Z * text) :=
  let s := skip_spaces s in
  let '(neg, s) := (match s with
                    | c :: r => if Ascii.eqb c minus then (true, r) else if Ascii.eqb c "+" then (false, r) else (false, s)
                    | [] => (false, s)
                    end) in
  let s := (match s with
            | z :: x :: r => if (b =? 16) && Ascii.eqb z "0" && (Ascii.eqb x "x" || Ascii.eqb x "X") then r else s
            | _ => s
            end) in
  match scan_unsigned b s with
  | Some (n, r) => Some (if neg then - n else n, r)
  | None => None
  end.

(** The values converted before the first mismatch.  %d goes through strtol, %x
    through strtoul, which stop at the limits of a long. *)
Definition strtol_range (z : Z) : Z := Z.max (- 2 ^ 63) (Z.min (2 ^ 63 - 1) z).
Definition strtoul_range (z : Z) : Z := if 2 ^ 64 <=? Z.abs z then 2 ^ 64 - 1 else u64 z.
Definition stored (d : directive) (z : Z) : Z :=
  match d with
  | Dec => int32 (strtol_range z)
  | Char8 => int8 (strtol_range z)
  | Hex => u32 (strtoul_range z)
  | _ => strtoul_range z
  end.
Definition base_of (d : directive) : Z := match d with Hex | LHex => 16 | _ => 10 end.

Fixpoint scan (f : list directive) (s : text) : list Z :=
  match f with
  | [] => []
  | Lit c :: f' =>
      match s with
      | x :: r => if Ascii.eqb x c then scan f' r else []
      | [] => []
      end
  | Str :: _ => []
  | d :: f' =>
      match scan_number (base_of d) s with
      | Some (z, r) => stored d z :: scan f' r
      | None => []
      end
  end.
Definition sscanf (s : text) (f : string) : list Z := scan (format f) s.

(** ** Printing and scanning back *)
Definition stops (c : ascii) : bool := negb (is_digit 16 c) && negb (Ascii.eqb c "x") && negb (Ascii.eqb c "X").
Definition stopped (s : text) : Prop := match s with c :: _ => stops c = true | [] => True end.

Lemma is_digit_digit b d : b <= 16 -> 0 <= d < b -> is_digit b (digit d) = true.
Proof. intros Hb Hd. unfold is_digit. rewrite digit_value_digit by lia. apply andb_true_iff. split; [apply Z.leb_le|apply Z.ltb_lt]; lia. Qed.

Lemma stops_not_digit b c : b <= 16 -> stops c = true -> is_digit b c = false.
Proof.
  unfold stops, is_digit. intros Hb Hs. destruct (Z.leb_spec 0 (digit_value c)); [|done]. destruct (Z.ltb_spec (digit_value c) b); [|done].
  destruct (Z.ltb_spec (digit_value c) 16); [done|lia].
Qed.

Lemma scan_digits_step b c r acc : is_digit b c = true -> scan_digits b (c :: r) acc = scan_digits b r (acc * b + digit_value c).
Proof. unfold is_digit. cbn. by intros ->. Qed.

Lemma scan_print_digits fuel b n s rest m k :
  1 < b <= 16 -> 0 <= n < b ^ Z.of_nat fuel -> 0 <= k -> (forall acc, scan_digits b (s ++ rest) acc = (acc * b ^ k + m, rest)) ->
  exists k', 0 <= k' /\ forall acc, scan_digits b (print_digits fuel b n s ++ rest) acc = (acc * b ^ k' + (n * b ^ k + m), rest).
Proof.
  revert n s m k. induction fuel as [|fuel IH]; intros n s m k Hb Hn Hk Hs.
  - cbn in Hn. exists k. split; [done|]. intros acc. cbn [print_digits]. rewrite Hs. f_equal. replace n with 0 by lia. lia.
  - rewrite Nat2Z.inj_succ, Z.pow_succ_r in Hn by lia. cbn [print_digits]. pose proof (Z.mod_pos_bound n b ltac:(lia)) as Hm.
    assert (Hs' : forall acc, scan_digits b ((digit (n mod b) :: s) ++ rest) acc = (acc * b ^ (k + 1) + (n mod b * b ^ k + m), rest)).
    { intros acc. cbn [app]. rewrite scan_digits_step by (apply is_digit_digit; lia). rewrite Hs, digit_value_digit by lia.
      f_equal. rewrite Z.pow_add_r by lia. lia. }
    destruct (Z.ltb_spec n b).
    + exists (k + 1). split; [lia|]. intros acc. rewrite Hs'. rewrite (Z.mod_small n b) by lia. done.
    + destruct (IH (n / b) (digit (n mod b) :: s) (n mod b * b ^ k + m) (k + 1)) as (k' & Hk' & E); try done; [|lia|].
      * split; [apply Z.div_pos; lia|apply Z.div_lt_upper_bound; lia].
      * exists k'. split; [done|]. intros acc. rewrite E. do 2 f_equal. rewrite Z.pow_add_r by lia.
        rewrite (Z.div_mod n b) at 3 by lia. lia.
Qed.

Lemma scan_stop b s acc : b <= 16 -> stopped s -> scan_digits b s acc = (acc, s).
Proof.
  intros Hb. destruct s as [|c r]; [done|]. cbn [stopped]. intros Hs. apply (stops_not_digit b c Hb) in Hs. unfold is_digit in Hs. cbn. by rewrite Hs.
Qed.

Lemma print_digits_head fuel b n s :
  1 < b <= 16 -> 0 <= n -> (0 < fuel)%nat -> exists d r, 0 <= d < b /\ print_digits fuel b n s = digit d :: r.
Proof.
  intros Hb. revert n s. induction fuel as [|fuel IH]; intros n s Hn Hf; [lia|]. cbn [print_digits].
  pose proof (Z.mod_pos_bound n b ltac:(lia)). destruct (Z.ltb_spec n b); [by eexists _, _|].
  destruct fuel as [|fuel]; [by eexists _, _|]. apply IH; [apply Z.div_pos; lia|lia].
Qed.

(** A digit is no space, sign or prefix. *)
Lemma digit_plain d : 0 <= d < 16 ->
  is_space (digit d) = false /\ Ascii.eqb (digit d) minus = false /\ Ascii.eqb (digit d) "+" = false
  /\ Ascii.eqb (digit d) "x" = false /\ Ascii.eqb (digit d) "X" = false.
Proof.
  intros Hd. set (ok := fun n => let c := digit (Z.of_nat n) in
    negb (is_space c) && negb (Ascii.eqb c minus) && negb (Ascii.eqb c "+") && negb (Ascii.eqb c "x") && negb (Ascii.eqb c "X")).
  assert (Hc : forallb ok (seq 0 16) = true) by reflexivity. rewrite forallb_forall in Hc.
  specialize (Hc (Z.to_nat d) ltac:(apply in_seq; lia)). unfold ok in Hc. rewrite Z2Nat.id in Hc by lia.
  repeat rewrite andb_true_iff in Hc. rewrite !negb_true_iff in Hc. tauto.
Qed.

Lemma print_digits_all (P : ascii -> Prop) fuel b n s :
  1 < b <= 16 -> (forall d, 0 <= d < 16 -> P (digit d)) -> Forall P s -> Forall P (print_digits fuel b n s).
Proof.
  intros Hb HP. revert n s. induction fuel as [|fuel IH]; intros n s Hs; [done|]. cbn [print_digits].
  pose proof (Z.mod_pos_bound n b ltac:(lia)). assert (Forall P (digit (n mod b) :: s)) by (constructor; [apply HP; lia|done]).
  destruct (n <? b); [done|by apply IH].
Qed.

Lemma skip_spaces_head c r : is_space c = false -> skip_spaces (c :: r) = c :: r.
Proof. intros E. cbn. by rewrite E. Qed.

(** No 0x in front of a printed number. *)
Definition not_x (c : ascii) : Prop := Ascii.eqb c "x" || Ascii.eqb c "X" = false.

Lemma strip_prefix_none b z x r : not_x x ->
  (if (b =? 16) && Ascii.eqb z "0" && (Ascii.eqb x "x" || Ascii.eqb x "X") then r else z :: x :: r) = z :: x :: r.
Proof. unfold not_x. intros ->. by rewrite andb_false_r. Qed.

Lemma scan_unsigned_print b n rest :
  b = 10 \/ b = 16 -> 0 <= n < 2 ^ 64 -> stopped rest -> scan_unsigned b (print_base b n ++ rest) = Some (n, rest).
Proof.
  intros Hb Hn Hr. assert (Hb' : 1 < b <= 16) by lia. destruct (print_digits_head 20 b n [] Hb') as (d & r & Hd & E); [lia|lia|].
  unfold print_base. rewrite E. cbn [app scan_unsigned]. rewrite is_digit_digit by lia. rewrite app_comm_cons, <- E.
  assert (Hpow : 2 ^ 64 <= b ^ Z.of_nat 20) by (destruct Hb as [->| ->]; apply Z.leb_le; vm_compute; reflexivity).
  assert (Hn' : 0 <= n < b ^ Z.of_nat 20) by (revert Hpow; generalize (b ^ Z.of_nat 20); lia).
  destruct (scan_print_digits 20 b n [] rest 0 0 Hb' Hn' ltac:(lia)) as (k & Hk & Es).
  { intros acc. cbn [app]. rewrite scan_stop by (done || lia). f_equal. lia. }
  rewrite Es. do 2 f_equal. lia.
Qed.

Lemma print_base_shape b n rest :
  b = 10 \/ b = 16 -> 0 <= n -> stopped rest ->
  exists d r, 0 <= d < 16 /\ print_base b n ++ rest = digit d :: r /\ match r with x :: _ => not_x x | [] => True end.
Proof.
  intros Hb Hn Hr. assert (Hb' : 1 < b <= 16) by lia. destruct (print_digits_head 20 b n [] Hb') as (d & r & Hd & E); [lia|lia|].
  exists d, (r ++ rest). unfold print_base. rewrite E. split_and!; [lia|lia|done|].
  assert (Hall : Forall not_x (digit d :: r)).
  { rewrite <- E. apply print_digits_all; [done| |constructor]. intros e He. unfold not_x. by destruct (digit_plain e He) as (_ & _ & _ & -> & ->). }
  apply Forall_cons in Hall as [_ Hall]. destruct r as [|x r]; [|by apply Forall_cons in Hall as [? _]]. cbn [app].
  destruct rest as [|x rest]; [done|]. cbn in Hr. unfold stops in Hr. unfold not_x.
  destruct (Ascii.eqb x "x"), (Ascii.eqb x "X"); rewrite ?andb_false_r in Hr; done.
Qed.

(** The part of [scan_number] after the sign. *)
Lemma scan_number_unsigned b n rest :
  b = 10 \/ b = 16 -> 0 <= n < 2 ^ 64 -> stopped rest ->
  scan_number b (print_base b n ++ rest) = Some (n, rest)
  /\ scan_number b (minus :: print_base b n ++ rest) = Some (- n, rest).
Proof.
  intros Hb Hn Hr. destruct (print_base_shape b n rest Hb) as (d & r & Hd & E & Hx); [lia|done|].
  destruct (digit_plain d Hd) as (S1 & S2 & S3 & _). pose proof (scan_unsigned_print b n rest Hb Hn Hr) as Hs. rewrite E in *.
  assert (Hpre : (match digit d :: r with
            | z :: x :: r' => if (b =? 16) && Ascii.eqb z "0" && (Ascii.eqb x "x" || Ascii.eqb x "X") then r' else digit d :: r
            | _ => digit d :: r end) = digit d :: r) by (destruct r as [|x r]; [done|by apply strip_prefix_none]).
  split; unfold scan_number.
  - rewrite skip_spaces_head by done. rewrite S2, S3, Hpre, Hs. done.
  - rewrite skip_spaces_head by done. cbn [Ascii.eqb]. change (Ascii.eqb minus minus) with true. cbv iota. rewrite Hpre, Hs. done.
Qed.

Lemma scan_number_dec z rest :
  - 2 ^ 31 <= z < 2 ^ 31 -> stopped rest -> scan_number 10 (print_dec z ++ rest) = Some (z, rest).
Proof.
  intros Hz Hr. unfold print_dec. destruct (Z.ltb_spec z 0).
  - destruct (scan_number_unsigned 10 (- z) rest) as [_ E]; [auto|lia|done|]. cbn [app]. rewrite E. do 2 f_equal. lia.
  - destruct (scan_number_unsigned 10 z rest) as [E _]; [auto|lia|done|]. done.
Qed.

(** A conversion stands before a character that ends it, or at the end. *)
Fixpoint scannable (f : list directive) (rest : text) : Prop :=
  match f with
  | [] => True
  | Lit _ :: f' => scannable f' rest
  | Str :: _ => False
  | _ :: f' => match f' with Lit c :: _ => stops c = true | [] => stopped rest | _ => False end /\ scannable f' rest
  end.

Fixpoint fits (f : list directive) (zs : list Z) : Prop :=
  match f with
  | [] => zs = []
  | Lit _ :: f' => fits f' zs
  | d :: f' =>
      match zs with
      | [] => False
      | z :: zs' => match d with Dec => - 2 ^ 31 <= z < 2 ^ 31 | Char8 => -128 <= z < 128 | _ => True end /\ fits f' zs'
      end
  end.

Fixpoint read_back (f : list directive) (zs : list Z) : list Z :=
  match f with
  | [] => []
  | Lit _ :: f' => read_back f' zs
  | d :: f' =>
      match zs with
      | [] => []
      | z :: zs' => match d with Hex => u32 z | LHex => u64 z | _ => z end :: read_back f' zs'
      end
  end.

Lemma u32_range z : 0 <= u32 z < 2 ^ 32.
Proof. apply Z.mod_pos_bound. lia. Qed.

Lemma strtoul_small z : 0 <= z < 2 ^ 64 -> strtoul_range z = z.
Proof. intros Hz. unfold strtoul_range. rewrite Z.abs_eq by lia. destruct (Z.leb_spec (2 ^ 64) z); [lia|]. by apply u64_small. Qed.

Lemma strtol_small z : - 2 ^ 63 <= z < 2 ^ 63 -> strtol_range z = z.
Proof. intros Hz. unfold strtol_range. lia. Qed.

Lemma print_stopped f zs rest :
  match f with Lit c :: _ => stops c = true | [] => stopped rest | _ => False end -> stopped (print f zs ++ rest).
Proof. by destruct f as [|[] f]. Qed.

(** sscanf reads back what printf wrote with the same format. *)
Lemma scan_print f zs rest :
  scannable f rest -> fits f zs -> scan f (print f (map AInt zs) ++ rest) = read_back f zs.
Proof.
  revert zs. induction f as [|d f IH]; intros zs Hs Hf; [done|].
  destruct d; cbn [scannable fits] in Hs, Hf; try done; [|destruct zs as [|z zs]; [done|]; destruct Hs as [H1 Hs], Hf as [H2 Hf];
    cbn [map print scan read_back base_of]; rewrite <- app_assoc; apply (print_stopped f (map AInt zs)) in H1..].
  - cbn [print app scan read_back]. rewrite Ascii.eqb_refl. by apply IH.
  - rewrite scan_number_dec by done. cbn [stored]. rewrite strtol_small, int32_id by lia. by rewrite IH.
  - pose proof (u32_range z). destruct (scan_number_unsigned 16 (u32 z) (print f (map AInt zs) ++ rest)) as [-> _]; [auto|lia|done|].
    cbn [stored]. rewrite strtoul_small by lia. unfold u32 at 1. rewrite Z.mod_small by lia. by rewrite IH.
  - pose proof (u64_range z) as Hu. unfold is_u64, two64 in Hu. destruct (scan_number_unsigned 16 (u64 z) (print f (map AInt zs) ++ rest)) as [-> _]; [auto|lia|done|].
    cbn [stored]. rewrite strtoul_small by lia. by rewrite IH.
  - rewrite scan_number_dec by (lia || done). cbn [stored]. rewrite strtol_small by lia. unfold int8. rewrite Z.mod_small by lia.
    replace (z + 128 - 128) with z by lia. by rewrite IH.
Qed.
