(* ===== verification/ExecFd.v ===== *)
(** * Guest descriptors across exec (km_exec_fd_save_recover.c, km_exec.c)

    When the guest calls execve the monitor starts a new instance of itself and
    describes every descriptor that stays open in the environment variable
    KM_EXEC_GUESTFDS; the new instance parses it and fills its own table.  A pointer
    into the text is its offset; the text ends at its length, where C has the NUL. *)
From S2P Require Import Prelude FdTable Stdio.
From Stdlib Require Import Ascii.

(** ** Binary data in hexadecimal *)
Fixpoint km_bin2hex (bin : list Z) : text :=
  match bin with
  | [] => []
  | b :: rest => digit (Z.shiftr b 4) :: digit (Z.land b 15) :: km_bin2hex rest
  end.

Definition xdigit2bin (c : ascii) : Z := digit_value c.

(** Stops at the first pair that is not two digits; the NUL is no digit. *)
Fixpoint km_hex2bin (hex : text) : list Z :=
  match hex with
  | h :: l :: rest =>
      let nh := xdigit2bin h in
      let nl := xdigit2bin l in
      if (nh <? 0) || (nl <? 0) then [] else Z.lor (Z.shiftl nh 4) nl :: km_hex2bin rest
  | _ => []
  end.

(** ** Numbers of the enumerations *)
Definition how_number (h : km_file_how_t) : Z :=
  match h with
  | KM_FILE_HOW_OPEN => 0 | KM_FILE_HOW_PIPE_0 => 1 | KM_FILE_HOW_PIPE_1 => 2 | KM_FILE_HOW_EPOLLFD => 3
  | KM_FILE_HOW_SOCKET => 4 | KM_FILE_HOW_ACCEPT => 5 | KM_FILE_HOW_SOCKETPAIR0 => 6 | KM_FILE_HOW_SOCKETPAIR1 => 7
  | KM_FILE_HOW_RECVMSG => 8 | KM_FILE_HOW_EVENTFD => 9 | KM_FILE_HOW_TIMERFD => 10
  end.
Definition hows : list km_file_how_t :=
  [KM_FILE_HOW_OPEN; KM_FILE_HOW_PIPE_0; KM_FILE_HOW_PIPE_1; KM_FILE_HOW_EPOLLFD; KM_FILE_HOW_SOCKET; KM_FILE_HOW_ACCEPT;
   KM_FILE_HOW_SOCKETPAIR0; KM_FILE_HOW_SOCKETPAIR1; KM_FILE_HOW_RECVMSG; KM_FILE_HOW_EVENTFD; KM_FILE_HOW_TIMERFD].
Definition state_number (s : km_sock_state_t) : Z :=
  match s with
  | KM_SOCK_STATE_OPEN => 0 | KM_SOCK_STATE_BIND => 1 | KM_SOCK_STATE_LISTEN => 2 | KM_SOCK_STATE_ACCEPT => 3
  | KM_SOCK_STATE_CONNECT => 4
  end.
Definition sock_states : list km_sock_state_t :=
  [KM_SOCK_STATE_OPEN; KM_SOCK_STATE_BIND; KM_SOCK_STATE_LISTEN; KM_SOCK_STATE_ACCEPT; KM_SOCK_STATE_CONNECT].

Definition KM_FDTYPE_FILE : Z := 0.
Definition KM_FDTYPE_PIPE : Z := 1.
Definition KM_FDTYPE_SOCKETPAIR : Z := 2.
Definition KM_FDTYPE_SOCKET : Z := 3.
Definition KM_FDTYPE_EVENTFD : Z := 4.

Definition FD_CLOEXEC : Z := 1.
Definition SO_TYPE : Z := 3.
Definition SO_DOMAIN : Z := 39.
Definition SO_PROTOCOL : Z := 38.

(** What the code asks the host about a descriptor: the flags of F_GETFD (negative:
    the call failed), whether it is a fifo ([None]: fstat failed), socket options,
    the link in /proc/self/fd.  The answers are the same on both sides of the exec. *)
Class ExecHost := {
  h_getfd : Z -> Z;
  h_fifo : Z -> option bool;
  h_sockopt : Z -> Z -> option Z;
  h_link : Z -> option string;
}.

Section ExecFd.
  Context `{ExecHost}.

(** ** Writing *)
Definition km_filename_table_line (o : option Z) : Z := match o with Some i => i | None => -1 end.

(** The first [addrlen] of the 128 bytes of the address. *)
Definition addr_bytes (si : km_fd_socket) : list Z := take (Z.to_nat si.(addrlen)) (si.(addr) ++ replicate 128 0).

(** Each event goes on what is there; the last one closes the entry. *)
Fixpoint save_events (more : text) (events : list km_fs_event) : text :=
  match events with
  | [] => more
  | e :: rest =>
      save_events
        (asprintf "%s,{%d,%x,%lx}%s"
           [AText more; AInt e.(ev_fd); AInt e.(ev_event).(ev_events); AInt e.(ev_event).(ev_data);
            AText (match rest with [] => chars "}" | _ => [] end)]) rest
  end.

(** The entry of descriptor [i]; [None]: fstat failed. *)
Definition save_entry (i : Z) (file : km_file) : option text :=
  if bool_decide (file.(how) = KM_FILE_HOW_EVENTFD) then
    Some (save_events (asprintf "{%x,%d,%x" [AInt KM_FDTYPE_EVENTFD; AInt i; AInt file.(fflags)]) file.(fevents))
  else
    match file.(sockinfo) with
    | None =>
        match h_fifo i with
        | None => None
        | Some true =>
            Some (asprintf "{%x,%d,%d,%x,%d}"
              [AInt KM_FDTYPE_PIPE; AInt i; AInt (how_number file.(how)); AInt file.(fflags); AInt file.(ofd)])
        | Some false =>
            Some (asprintf "{%x,%d,%d,%x,%d}"
              [AInt KM_FDTYPE_FILE; AInt i; AInt (how_number file.(how)); AInt file.(fflags);
               AInt (km_filename_table_line file.(ops))])
        end
    | Some si =>
        if bool_decide (file.(how) = KM_FILE_HOW_SOCKETPAIR0 \/ file.(how) = KM_FILE_HOW_SOCKETPAIR1) then
          Some (asprintf "{%d,%d,%d,%d}"
            [AInt KM_FDTYPE_SOCKETPAIR; AInt i; AInt (how_number file.(how)); AInt file.(ofd)])
        else
          Some (asprintf "{%x,%d,%d,%d,%d,%d,%s}"
            [AInt KM_FDTYPE_SOCKET; AInt i; AInt (how_number file.(how)); AInt (state_number si.(sock_state));
             AInt si.(backlog); AInt file.(ofd); AText (km_bin2hex (addr_bytes si))])
    end.

(** Descriptors that are not in use, unknown to the host or closed by the exec are
    left out. *)
Definition kept (s : km_filesys) (i : Z) : bool :=
  km_is_file_used (file_at s i) && (0 <=? h_getfd i) && (Z.land (h_getfd i) FD_CLOEXEC =? 0).

Fixpoint save_fds (s : km_filesys) (env_value : option text) (fds : list Z) : option (option text) :=
  match fds with
  | [] => Some env_value
  | i :: rest =>
      if kept s i then
        match save_entry i (file_at s i) with
        | None => None
        | Some more =>
            save_fds s (Some (match env_value with
                              | None => more
                              | Some v => asprintf "%s,%s" [AText v; AText more]
                              end)) rest
        end
      else save_fds s env_value rest
  end.

(** [None] is the NULL result. *)
Definition km_exec_save_fd (s : km_filesys) (varname : text) : option text :=
  match save_fds s None (seqZ 0 s.(nfdmap)) with
  | None => None
  | Some v => Some (asprintf "%s=%s" [AText varname; AText (default [] v)])
  end.

(** ** Reading *)

(** execstatep: the table the variable is parsed into. *)
Record exec_state := mk_exec { es_nfdmap : Z; guestfds : gmap Z km_file }.

Definition efile_at (s : exec_state) (fd : Z) : km_file := default file_zero (s.(guestfds) !! fd).

(** A negative number is an access in front of the array. *)
Definition km_exec_get_file_pointer (fd : Z) : M exec_state unit :=
  let* s := get in if (0 <=? fd) && (fd <? s.(es_nfdmap)) then ret tt else abort.
Definition efile_set (fd : Z) (f : km_file) : M exec_state unit :=
  modify (fun s => mk_exec s.(es_nfdmap) (<[fd := f]> s.(guestfds))).

(** An enumeration holds its own numbers only. *)
Definition of_number {A} (l : list A) (n : Z) : M exec_state A :=
  match (if n <? 0 then None else l !! Z.to_nat n) with Some a => ret a | None => abort end.

Definition km_fs_destroy_fd (fd : Z) : M exec_state unit :=
  km_exec_get_file_pointer fd ;;;
  let* s := get in
  let f := efile_at s fd in
  efile_set fd (mk_file false f.(how) f.(fflags) f.(ferror) f.(ops) f.(ofd) None None []).

(** The name of a standard stream on a terminal. *)
Definition restored_name (fd : Z) : option string :=
  match h_link fd with
  | None => None
  | Some n =>
      Some (if String.prefix "/dev/pts/" n
            then if fd =? 0 then stdin_name else if fd =? 1 then stdout_name else if fd =? 2 then stderr_name else n
            else n)
  end.

Definition km_exec_restore_file (fd : Z) (h : km_file_how_t) (flags index : Z) : M exec_state unit :=
  km_exec_get_file_pointer fd ;;;
  let* s := get in
  km_assert (negb (efile_at s fd).(inuse)) ;;;
  efile_set fd (mk_file true h flags (efile_at s fd).(ferror) (if 0 <=? index then Some index else None) (-1) (restored_name fd) None []).

Definition km_exec_restore_eventfd (fd flags : Z) : M exec_state unit :=
  km_exec_get_file_pointer fd ;;;
  let* s := get in
  km_assert (negb (efile_at s fd).(inuse)) ;;;
  efile_set fd (mk_file true KM_FILE_HOW_EVENTFD flags (efile_at s fd).(ferror) None (-1) (h_link fd) None []).

Definition km_exec_restore_pipe (fd : Z) (h : km_file_how_t) (flags o : Z) : M exec_state unit :=
  km_exec_get_file_pointer fd ;;;
  let* s := get in
  efile_set fd (mk_file true h flags (efile_at s fd).(ferror) None o (h_link fd) None []).

(** Type, domain and protocol as the host has them; [None]: a query failed. *)
Definition km_exec_socket_get_sockopts (fd : Z) : option (Z * Z * Z) :=
  match h_sockopt fd SO_TYPE with
  | None => None
  | Some ty =>
      match h_sockopt fd SO_DOMAIN with
      | None => None
      | Some dom => match h_sockopt fd SO_PROTOCOL with None => None | Some proto => Some (ty, dom, proto) end
      end
  end.

(** Result 0, or -1 with the entry destroyed. *)
Definition restore_sock (fd : Z) (h : km_file_how_t) (o : Z) (si : Z -> Z -> Z -> km_fd_socket) : M exec_state Z :=
  km_exec_get_file_pointer fd ;;;
  let* s := get in
  efile_set fd (mk_file true h 0 (efile_at s fd).(ferror) None o (h_link fd) None []) ;;;
  match h_link fd, km_exec_socket_get_sockopts fd with
  | Some n, Some (ty, dom, proto) =>
      efile_set fd (mk_file true h 0 (efile_at s fd).(ferror) None o (Some n) (Some (si ty dom proto)) []) ;;; ret 0
  | _, _ => km_fs_destroy_fd fd ;;; ret (-1)
  end.
Definition km_exec_restore_socketpair (fd : Z) (h : km_file_how_t) (o : Z) : M exec_state Z :=
  restore_sock fd h o (fun ty dom proto => mk_socket KM_SOCK_STATE_CONNECT 0 dom ty proto 0 []).
Definition km_exec_restore_socket (fd : Z) (h : km_file_how_t) (st : km_sock_state_t) (bl o : Z) (bytes : list Z) : M exec_state Z :=
  restore_sock fd h o (fun ty dom proto => mk_socket st bl dom ty proto (Z.of_nat (length bytes)) bytes).

(** ** Parsing *)
Definition char_at (s : text) (i : nat) : ascii := nth i s nul.

Fixpoint find_char (p : ascii -> bool) (s : text) (i : nat) : option nat :=
  match s with
  | [] => None
  | c :: r => if p c then Some i else find_char p r (S i)
  end.
Definition strchr (s : text) (i : nat) (c : ascii) : option nat := find_char (Ascii.eqb c) (drop i s) i.
Definition strpbrk (s : text) (i : nat) (cs : text) : option nat := find_char (fun c => existsb (Ascii.eqb c) cs) (drop i s) i.

Definition lbrace : ascii := "{"%char.
Definition rbrace : ascii := "}"%char.
Definition comma : ascii := ","%char.

(** From the closing brace back to the character after the last comma. *)
Fixpoint back_to_comma (s : text) (saveq q : nat) : nat :=
  match q with
  | O => O
  | S q' => if Ascii.eqb (char_at s q') comma then q
            else if (q' =? saveq)%nat then q' else back_to_comma s saveq q'
  end.

Definition add_event (fd efd events data : Z) : M exec_state unit :=
  let* s := get in
  let f := efile_at s fd in
  efile_set fd (set_fevents (f.(fevents) ++ [mk_fs_event efd (mk_event events data)]) f).

(** The events of the entry of [fd]: the offset after them, or [None] for -1.  The
    number parsed for an event is in the variable that held the descriptor, which
    is what a failure destroys. *)
Fixpoint restore_events (fuel : nat) (env : text) (fd last : Z) (q : nat) : M exec_state (option nat) :=
  match fuel with
  | O => fun _ => NoFuel
  | S fuel' =>
      if Ascii.eqb (char_at env q) comma then
        match sscanf (drop (S q) env) "{%d,%x,%lx}" with
        | [efd; events; data] =>
            match strchr env (S q) rbrace with
            | Some q' => add_event fd efd events data ;;; restore_events fuel' env fd efd (S q')
            | None => km_fs_destroy_fd efd ;;; ret None
            end
        | efd :: _ => km_fs_destroy_fd efd ;;; ret None
        | [] => km_fs_destroy_fd last ;;; ret None
        end
      else ret (Some q)
  end.

(** One entry at [p], its fields at [q]: where to look for its closing brace, or
    [None] for -1. *)
Definition restore_entry (env : text) (p q : nat) (tag : Z) : M exec_state (option nat) :=
  if tag =? KM_FDTYPE_FILE then
    match sscanf (drop q env) "%d,%d,%x,%d}" with
    | [fd; h; flags; index] =>
        let* h := of_number hows h in
        km_exec_restore_file fd h (int32 flags) index ;;; ret (Some p)
    | _ => ret None
    end
  else if tag =? KM_FDTYPE_PIPE then
    match sscanf (drop q env) "%d,%d,%x,%d}" with
    | [fd; h; flags; o] =>
        let* h := of_number hows h in
        km_exec_restore_pipe fd h (int32 flags) o ;;; ret (Some p)
    | _ => ret None
    end
  else if tag =? KM_FDTYPE_SOCKETPAIR then
    match sscanf (drop q env) "%d,%d,%d}" with
    | [fd; h; o] =>
        let* h := of_number hows h in
        km_exec_restore_socketpair fd h o ;;; ret (Some p)
    | _ => ret None
    end
  else if tag =? KM_FDTYPE_SOCKET then
    match sscanf (drop q env) "%d,%d,%d,%d,%d," with
    | [fd; h; st; bl; o] =>
        match strchr env q rbrace with
        | None => ret None
        | Some e =>
            let bytes := km_hex2bin (drop (back_to_comma env q e) env) in
            km_assert (length bytes <=? 128)%nat ;;;
            let* h := of_number hows h in
            let* st := of_number sock_states st in
            let* r := km_exec_restore_socket fd h st bl o bytes in
            ret (if r <? 0 then None else Some p)
        end
    | _ => ret None
    end
  else if tag =? KM_FDTYPE_EVENTFD then
    match sscanf (drop q env) "%d,%x" with
    | [fd; flags] =>
        match strpbrk env q [lbrace; rbrace] with
        | None => ret None
        | Some e =>
            km_exec_restore_eventfd fd (int32 flags) ;;;
            let e := if Ascii.eqb (char_at env e) lbrace then Nat.pred e else e in
            let* r := restore_events (S (length env)) env fd fd e in
            match r with
            | None => ret None
            | Some e' => if Ascii.eqb (char_at env e') rbrace then ret (Some e') else ret None
            end
        end
    | _ => ret None
    end
  else ret None.

Fixpoint restore_loop (fuel : nat) (env : text) (p : nat) : M exec_state Z :=
  match fuel with
  | O => fun _ => NoFuel
  | S fuel' =>
      if (length env <=? p)%nat then ret 0
      else
        match sscanf (drop p env) "{%x," with
        | [tag] =>
            match strchr env p comma with
            | None => ret (-1)
            | Some q =>
                let* r := restore_entry env p (S q) (int32 tag) in
                match r with
                | None => ret (-1)
                | Some p' =>
                    match strchr env p' rbrace with
                    | None => ret (-1)
                    | Some q =>
                        let p := S q in
                        restore_loop fuel' env (if Ascii.eqb (char_at env p) comma then S p else p)
                    end
                end
            end
        | _ => ret (-1)
        end
  end.
Definition km_exec_restore_fd (env : text) : M exec_state Z := restore_loop (S (length env)) env 0.

(** ** The table of the new instance *)
Definition km_exec_recover_guestfd (e : exec_state) (s : km_filesys) : km_filesys :=
  foldr (fun i s => if km_is_file_used (efile_at e i)
                    then set_guest_files (<[i := efile_at e i]> s.(guest_files)) s else s) s (rev (seqZ 0 e.(es_nfdmap))).

End ExecFd.
