(* ===== verification/ExecProps.v ===== *)
(** * The descriptor table survives exec

    What is written to the environment is parsed back to the same table, entry by
    entry; and the one kind of entry for which it is not. *)
From S2P Require Import Prelude FdTable Stdio ExecFd.
From Stdlib Require Import Ascii.

(** ** Characters of printed numbers *)
Definition plain (c : ascii) : bool :=
  negb (Ascii.eqb c comma) && negb (Ascii.eqb c lbrace) && negb (Ascii.eqb c rbrace).
Definition braceless (c : ascii) : bool := negb (Ascii.eqb c lbrace) && negb (Ascii.eqb c rbrace).

Lemma plain_digit d : 0 <= d < 16 -> plain (digit d) = true.
Proof.
  intros Hd. assert (Hc : forallb (fun n => plain (digit (Z.of_nat n))) (seq 0 16) = true) by reflexivity.
  rewrite forallb_forall in Hc. specialize (Hc (Z.to_nat d)). rewrite Z2Nat.id in Hc by lia. apply Hc, in_seq. lia.
Qed.

Lemma plain_braceless c : plain c = true -> braceless c = true.
Proof. unfold plain, braceless. destruct (Ascii.eqb c lbrace), (Ascii.eqb c rbrace); rewrite ?andb_false_r; done. Qed.

Lemma print_base_plain b n : b = 10 \/ b = 16 -> Forall (fun c => plain c = true) (print_base b n).
Proof. intros Hb. apply print_digits_all; [lia|apply plain_digit|constructor]. Qed.

Lemma print_dec_plain z : Forall (fun c => plain c = true) (print_dec z).
Proof. unfold print_dec. destruct (z <? 0); [constructor; [done|]|]; apply print_base_plain; auto. Qed.

Definition literals_ok (f : list directive) : bool :=
  forallb (fun d => match d with Lit c => braceless c | _ => true end) f.

Lemma print_braceless f zs : literals_ok f = true -> Forall (fun c => braceless c = true) (print f (map AInt zs)).
Proof.
  assert (Hw : forall t, Forall (fun c => plain c = true) t -> Forall (fun c => braceless c = true) t)
    by (intros t Ht; eapply Forall_impl; [exact Ht|apply plain_braceless]).
  revert zs. induction f as [|d f IH]; intros zs Hl; [constructor|]. cbn [literals_ok forallb] in Hl. apply andb_true_iff in Hl as [Hd Hl].
  destruct d; cbn [print]; [constructor; [done|by apply IH]|..];
    (destruct zs as [|z zs]; [constructor|]; cbn [map]; apply Forall_app; split; [|by apply IH]; apply Hw);
    first [apply print_dec_plain | apply print_base_plain; auto].
Qed.

(** ** Searching *)
Lemma find_char_app (P : ascii -> bool) s c r i :
  Forall (fun x => P x = false) s -> P c = true -> find_char P (s ++ c :: r) i = Some (i + length s)%nat.
Proof.
  intros Hs Hc. revert i. induction Hs as [|x s Hx Hs IH]; intros i; cbn [app find_char length].
  - rewrite Hc. f_equal. lia.
  - rewrite Hx, IH. f_equal. lia.
Qed.

Lemma find_char_none (P : ascii -> bool) s i : Forall (fun x => P x = false) s -> find_char P s i = None.
Proof. intros Hs. revert i. induction Hs as [|x s Hx Hs IH]; intros i; cbn; [done|]. by rewrite Hx. Qed.

Lemma drop_at {A} (a b : list A) n : n = length a -> drop n (a ++ b) = b.
Proof. intros ->. apply drop_app_length. Qed.

Lemma strchr_app a s c r i :
  i = length a -> Forall (fun x => Ascii.eqb c x = false) s -> strchr (a ++ s ++ c :: r) i c = Some (i + length s)%nat.
Proof. intros Hi Hs. unfold strchr. rewrite drop_at by done. apply find_char_app; [done|apply Ascii.eqb_refl]. Qed.

Lemma char_at_app a c r i : i = length a -> char_at (a ++ c :: r) i = c.
Proof. intros ->. unfold char_at. rewrite app_nth2 by lia. by rewrite Nat.sub_diag. Qed.

Lemma braceless_rbrace c : braceless c = true -> Ascii.eqb rbrace c = false.
Proof. unfold braceless. rewrite (Ascii.eqb_sym rbrace). destruct (Ascii.eqb c rbrace); [by rewrite andb_false_r|done]. Qed.

Lemma plain_comma c : plain c = true -> Ascii.eqb comma c = false.
Proof. unfold plain. rewrite (Ascii.eqb_sym comma). by destruct (Ascii.eqb c comma). Qed.

Lemma back_to_comma_spec a h b saveq :
  Forall (fun x => Ascii.eqb x comma = false) h -> (saveq <= length a)%nat ->
  back_to_comma (a ++ comma :: h ++ b) saveq (S (length a) + length h) = S (length a).
Proof.
  revert b. induction h as [|c h IH] using rev_ind; intros b Hh Hq.
  - cbn [length]. rewrite Nat.add_0_r. cbn [back_to_comma]. by rewrite char_at_app.
  - apply Forall_app in Hh as [Hh Hc]. apply Forall_cons in Hc as [Hc _]. rewrite length_app. cbn [length].
    replace (S (length a) + (length h + 1))%nat with (S (S (length a) + length h)) by lia. cbn [back_to_comma].
    replace (a ++ comma :: (h ++ [c]) ++ b) with ((a ++ comma :: h) ++ c :: b) at 1 by (rewrite <- !app_assoc; done).
    rewrite char_at_app by (rewrite length_app; cbn; lia). rewrite Hc.
    destruct (Nat.eqb_spec (S (length a) + length h) saveq); [lia|]. rewrite <- app_assoc. cbn [app]. by apply IH.
Qed.

(** ** Hexadecimal *)
Lemma byte_nibbles b : 0 <= b < 256 -> Z.lor (Z.shiftl (Z.shiftr b 4) 4) (Z.land b 15) = b /\ 0 <= Z.shiftr b 4 < 16 /\ 0 <= Z.land b 15 < 16.
Proof.
  intros Hb. set (ok := fun n => let b := Z.of_nat n in (Z.lor (Z.shiftl (Z.shiftr b 4) 4) (Z.land b 15) =? b)
     && (0 <=? Z.shiftr b 4) && (Z.shiftr b 4 <? 16) && (0 <=? Z.land b 15) && (Z.land b 15 <? 16)).
  assert (Hc : forallb ok (seq 0 256) = true) by (vm_compute; reflexivity). rewrite forallb_forall in Hc.
  specialize (Hc (Z.to_nat b) ltac:(apply in_seq; lia)). unfold ok in Hc. rewrite Z2Nat.id in Hc by lia.
  repeat rewrite andb_true_iff in Hc. destruct Hc as ((((H1%Z.eqb_eq & H2%Z.leb_le) & H3%Z.ltb_lt) & H4%Z.leb_le) & H5%Z.ltb_lt).
  split_and!; done.
Qed.

(** km_hex2bin reads back what km_bin2hex wrote, up to the character after it. *)
Lemma hex_roundtrip bytes c rest :
  Forall (fun b => 0 <= b < 256) bytes -> xdigit2bin c < 0 -> km_hex2bin (km_bin2hex bytes ++ c :: rest) = bytes.
Proof.
  intros Hb Hc. induction Hb as [|b bytes Hb _ IH]; cbn [km_bin2hex app km_hex2bin].
  - destruct rest; [done|]. destruct (Z.ltb_spec (xdigit2bin c) 0); [done|lia].
  - destruct (byte_nibbles b Hb) as (H1 & H2 & H3). unfold xdigit2bin in *. rewrite !digit_value_digit by done.
    destruct (Z.ltb_spec (Z.shiftr b 4) 0); [lia|]. destruct (Z.ltb_spec (Z.land b 15) 0); [lia|]. cbn [orb]. by rewrite H1, IH.
Qed.

Lemma bin2hex_plain bytes : Forall (fun b => 0 <= b < 256) bytes -> Forall (fun c => plain c = true) (km_bin2hex bytes).
Proof.
  induction 1 as [|b bytes Hb _ IH]; [constructor|]. destruct (byte_nibbles b Hb) as (_ & H2 & H3). cbn [km_bin2hex].
  constructor; [by apply plain_digit|]. constructor; [by apply plain_digit|done].
Qed.

(** ** One entry in the text *)
Definition tagged (tag : Z) (body : text) : text := lbrace :: digit tag :: comma :: body.

Lemma tagged_length tag body : length (tagged tag body) = (3 + length body)%nat.
Proof. done. Qed.

Lemma drop_tagged pre tag body rest : drop (length pre + 3) (pre ++ tagged tag body ++ rest) = body ++ rest.
Proof. rewrite <- drop_drop. by rewrite drop_app_length. Qed.

(** The brace that closes a flat entry is its own. *)
Lemma strchr_flat pre tag fields rest :
  0 <= tag < 16 -> Forall (fun c => braceless c = true) fields ->
  strchr (pre ++ tagged tag (fields ++ [rbrace]) ++ rest) (length pre) rbrace = Some (length pre + 3 + length fields)%nat.
Proof.
  intros Ht Hf. replace (tagged tag (fields ++ [rbrace]) ++ rest) with (tagged tag fields ++ rbrace :: rest)
    by (unfold tagged; cbn; by rewrite <- app_assoc).
  rewrite strchr_app; [rewrite tagged_length; f_equal; lia|done|]. unfold tagged.
  repeat constructor; [by apply braceless_rbrace, plain_braceless, plain_digit|]. eapply Forall_impl; [exact Hf|apply braceless_rbrace].
Qed.

Lemma tag_of_entry tag r : 0 <= tag <= 4 -> sscanf (tagged tag r) "{%x," = [tag].
Proof. intros Ht. assert (Hc : tag = 0 \/ tag = 1 \/ tag = 2 \/ tag = 3 \/ tag = 4) by lia. by destruct Hc as [->|[->|[->|[->| ->]]]]. Qed.

Lemma print_tag tag : 0 <= tag <= 4 -> print_base 16 (u32 tag) = [digit tag] /\ print_dec tag = [digit tag].
Proof. intros Ht. assert (Hc : tag = 0 \/ tag = 1 \/ tag = 2 \/ tag = 3 \/ tag = 4) by lia. by destruct Hc as [->|[->|[->|[->| ->]]]]. Qed.

Section Exec.
  Context `{ExecHost}.

(** One round of the loop. *)
Lemma loop_step fuel pre tag body rest st st' p' :
  let t := tagged tag body in
  let env := pre ++ t ++ rest in
  0 <= tag <= 4 -> restore_entry env (length pre) (length pre + 3) tag st = Ret (Some p', st') ->
  strchr env p' rbrace = Some (length pre + length t - 1)%nat ->
  restore_loop (S fuel) env (length pre) st
  = restore_loop fuel env (if Ascii.eqb (char_at env (length pre + length t)) comma then S (length pre + length t) else length pre + length t) st'.
Proof.
  intros t env Ht He Hb. cbn [restore_loop].
  assert (Hlen : length env = (length pre + length t + length rest)%nat) by (unfold env; rewrite !length_app; lia).
  assert (Htl : (3 <= length t)%nat) by (unfold t; rewrite tagged_length; lia).
  destruct (Nat.leb_spec (length env) (length pre)); [lia|]. unfold env at 1 2. rewrite drop_app_length.
  change (t ++ rest) with (tagged tag (body ++ rest)). rewrite tag_of_entry by done.
  change (tagged tag (body ++ rest)) with ([lbrace; digit tag] ++ comma :: body ++ rest).
  rewrite strchr_app; [|done|repeat constructor; apply plain_comma, plain_digit; lia]. cbn [length].
  replace (S (length pre + 2)) with (length pre + 3)%nat by lia. rewrite int32_id by lia.
  change ([lbrace; digit tag] ++ comma :: body ++ rest) with (t ++ rest). fold env.
  unfold bind at 1. rewrite He, Hb. by replace (S (length pre + length t - 1)) with (length pre + length t)%nat by lia.
Qed.

(** ** What an entry must satisfy, and what becomes of it *)
Definition is_int (z : Z) : Prop := - 2 ^ 31 <= z < 2 ^ 31.
Definition event_ok (e : km_fs_event) : Prop :=
  is_int e.(ev_fd) /\ 0 <= e.(ev_event).(ev_events) < 2 ^ 32 /\ 0 <= e.(ev_event).(ev_data) < 2 ^ 64.
Definition is_pair (h : km_file_how_t) : Prop := h = KM_FILE_HOW_SOCKETPAIR0 \/ h = KM_FILE_HOW_SOCKETPAIR1.
#[local] Instance is_pair_dec h : Decision (is_pair h).
Proof. unfold is_pair. apply _. Defined.

(** The numbers fit their C types, the host answers about the descriptor, and an
    eventfd has events (see [exec_eventfd_fails]). *)
Definition saved_ok (i : Z) (f : km_file) : Prop :=
  is_int i /\ is_int f.(fflags) /\ is_int f.(ofd)
  /\ match f.(ops) with Some n => 0 <= n < 2 ^ 31 | None => True end
  /\ if bool_decide (f.(how) = KM_FILE_HOW_EVENTFD) then f.(fevents) <> [] /\ Forall event_ok f.(fevents)
     else match f.(sockinfo) with
          | None => is_Some (h_fifo i)
          | Some si => is_int si.(backlog) /\ 0 <= si.(addrlen) <= 128 /\ Forall (fun b => 0 <= b < 256) si.(addr)
                       /\ is_Some (h_link i) /\ is_Some (km_exec_socket_get_sockopts i)
          end.

Definition restored (i : Z) (f : km_file) : km_file :=
  if bool_decide (f.(how) = KM_FILE_HOW_EVENTFD) then mk_file true KM_FILE_HOW_EVENTFD f.(fflags) 0 None (-1) (h_link i) None f.(fevents)
  else match f.(sockinfo) with
       | None =>
           if bool_decide (h_fifo i = Some true) then mk_file true f.(how) f.(fflags) 0 None f.(ofd) (h_link i) None []
           else mk_file true f.(how) f.(fflags) 0 f.(ops) (-1) (restored_name i) None []
       | Some si =>
           let '(ty, dom, proto) := default (0, 0, 0) (km_exec_socket_get_sockopts i) in
           mk_file true f.(how) 0 0 None f.(ofd) (h_link i)
             (Some (if bool_decide (is_pair f.(how)) then mk_socket KM_SOCK_STATE_CONNECT 0 dom ty proto 0 []
                    else mk_socket si.(sock_state) si.(backlog) dom ty proto si.(addrlen) (addr_bytes si))) []
       end.

Definition entry_added (i : Z) (f : km_file) (st : exec_state) : exec_state := mk_exec st.(es_nfdmap) (<[i := restored i f]> st.(guestfds)).

(** The entry of [f] at the end of [pre] is parsed into the table. *)
Definition parses (i : Z) (f : km_file) (t : text) : Prop :=
  exists tag body, t = tagged tag body /\ 0 <= tag <= 4 /\
  forall pre rest st, st.(guestfds) !! i = None -> 0 <= i < st.(es_nfdmap) ->
  exists p', restore_entry (pre ++ t ++ rest) (length pre) (length pre + 3) tag st = Ret (Some p', entry_added i f st)
             /\ strchr (pre ++ t ++ rest) p' rbrace = Some (length pre + length t - 1)%nat.

Lemma how_of_number h st : of_number hows (how_number h) st = Ret (h, st).
Proof. by destruct h. Qed.

Lemma how_int h : is_int (how_number h).
Proof. unfold is_int. by destruct h. Qed.

Lemma state_of_number x st : of_number sock_states (state_number x) st = Ret (x, st).
Proof. by destruct x. Qed.

Lemma state_int x : is_int (state_number x).
Proof. unfold is_int. by destruct x. Qed.

Lemma get_pointer_ok fd st : 0 <= fd < st.(es_nfdmap) -> km_exec_get_file_pointer fd st = Ret (tt, st).
Proof.
  intros Hf. unfold km_exec_get_file_pointer. run_step. destruct (Z.leb_spec 0 fd); [|lia]. by destruct (Z.ltb_spec fd st.(es_nfdmap)); [|lia].
Qed.

Lemma efile_fresh st i : st.(guestfds) !! i = None -> efile_at st i = file_zero.
Proof. unfold efile_at. by intros ->. Qed.

(** Entries whose fields are numbers between commas. *)
Lemma flat_entry tag fmt zs pre rest :
  0 <= tag < 16 -> literals_ok fmt = true ->
  let fields := print fmt (map AInt zs) in
  let env := pre ++ tagged tag (fields ++ [rbrace]) ++ rest in
  strchr env (length pre) rbrace = Some (length pre + length (tagged tag (fields ++ [rbrace])) - 1)%nat
  /\ drop (length pre + 3) env = fields ++ rbrace :: rest.
Proof.
  intros Ht Hl fields env. split.
  - unfold env. rewrite strchr_flat by (done || by apply print_braceless). rewrite tagged_length, length_app. cbn [length]. f_equal. lia.
  - unfold env. rewrite drop_tagged, <- app_assoc. done.
Qed.

Lemma print_lit f c zs : fits f zs -> print (f ++ [Lit c]) (map AInt zs) = print f (map AInt zs) ++ [c].
Proof.
  revert zs. induction f as [|d f IH]; intros zs Hf; [done|].
  destruct d; cbn [app print fits] in *; [by rewrite IH|..]; (destruct zs as [|z zs]; [done|]); destruct Hf as [_ Hf]; cbn [map];
    rewrite IH by done; by rewrite <- app_assoc.
Qed.

Lemma fits_lit f c zs : fits f zs -> fits (f ++ [Lit c]) zs.
Proof.
  revert zs. induction f as [|d f IH]; intros zs Hf; [done|].
  destruct d; cbn [app fits] in *; [by apply IH|..]; (destruct zs as [|z zs]; [done|]); destruct Hf; split; auto.
Qed.

Lemma read_back_lit f c zs : fits f zs -> read_back (f ++ [Lit c]) zs = read_back f zs.
Proof.
  revert zs. induction f as [|d f IH]; intros zs Hf; [done|].
  destruct d; cbn [app fits read_back] in *; [by apply IH|..]; (destruct zs as [|z zs]; [done|]); destruct Hf; by rewrite IH.
Qed.

Lemma scan_closed f c zs rest :
  fits f zs -> scannable (f ++ [Lit c]) rest -> scan (f ++ [Lit c]) (print f (map AInt zs) ++ c :: rest) = read_back f zs.
Proof.
  intros Hf Hs. rewrite <- (read_back_lit f c) by done. rewrite <- (scan_print (f ++ [Lit c]) zs rest) by (done || by apply fits_lit).
  rewrite print_lit by done. by rewrite <- app_assoc.
Qed.

(** Files and pipes. *)
Lemma scan_file_fields i h fl x rest :
  is_int i -> is_int h -> is_int x ->
  sscanf (print (format "%d,%d,%x,%d") (map AInt [i; h; fl; x]) ++ rbrace :: rest) "%d,%d,%x,%d}" = [i; h; u32 fl; x].
Proof.
  intros Hi Hh Hx. unfold sscanf. change (format "%d,%d,%x,%d}") with (format "%d,%d,%x,%d" ++ [Lit rbrace]).
  rewrite scan_closed; [done|repeat split; first [apply Hi|apply Hh|apply Hx]|by vm_compute].
Qed.

Lemma saved_fields tag i h fl x :
  0 <= tag <= 4 ->
  asprintf "{%x,%d,%d,%x,%d}" [AInt tag; AInt i; AInt h; AInt fl; AInt x]
  = tagged tag (print (format "%d,%d,%x,%d") (map AInt [i; h; fl; x]) ++ [rbrace]).
Proof.
  intros Ht. unfold asprintf.
  change (format "%d,%d,%x,%d") with [Dec; Lit comma; Dec; Lit comma; Hex; Lit comma; Dec].
  change (format "{%x,%d,%d,%x,%d}") with [Lit lbrace; Hex; Lit comma; Dec; Lit comma; Dec; Lit comma; Hex; Lit comma; Dec; Lit rbrace].
  cbn [print map]. destruct (print_tag tag Ht) as [-> _]. unfold tagged. rewrite <- !app_assoc. cbn [app]. repeat (rewrite <- app_assoc; cbn [app]). done.
Qed.

Lemma parses_file i f :
  saved_ok i f -> f.(how) <> KM_FILE_HOW_EVENTFD -> f.(sockinfo) = None -> h_fifo i = Some false ->
  parses i f (asprintf "{%x,%d,%d,%x,%d}"
    [AInt KM_FDTYPE_FILE; AInt i; AInt (how_number f.(how)); AInt f.(fflags); AInt (km_filename_table_line f.(ops))]).
Proof.
  intros (Hi & Hfl & Ho & Hop & _) Hh Hs Hff. rewrite saved_fields by done. eexists KM_FDTYPE_FILE, _. split_and!; [done..|].
  intros pre rest st Hst Hr. destruct (flat_entry KM_FDTYPE_FILE (format "%d,%d,%x,%d")
    [i; how_number f.(how); f.(fflags); km_filename_table_line f.(ops)] pre rest) as [Hb Hd]; [done|done|].
  exists (length pre). split; [|exact Hb]. unfold restore_entry. cbn [Z.eqb KM_FDTYPE_FILE]. rewrite Hd.
  rewrite scan_file_fields; [|done|apply how_int|unfold is_int; destruct f.(ops); cbn; lia].
  unfold bind at 1. rewrite how_of_number. unfold km_exec_restore_file. unfold bind at 1 2. rewrite get_pointer_ok by done. run_step.
  rewrite efile_fresh by done. cbn. unfold entry_added, restored. rewrite bool_decide_eq_false_2, Hs, bool_decide_eq_false_2 by congruence.
  rewrite int32_u32 by done. destruct f.(ops) as [n|]; cbn; [|done]. by destruct (Z.leb_spec 0 n); [|lia].
Qed.

Lemma parses_pipe i f :
  saved_ok i f -> f.(how) <> KM_FILE_HOW_EVENTFD -> f.(sockinfo) = None -> h_fifo i = Some true ->
  parses i f (asprintf "{%x,%d,%d,%x,%d}"
    [AInt KM_FDTYPE_PIPE; AInt i; AInt (how_number f.(how)); AInt f.(fflags); AInt f.(ofd)]).
Proof.
  intros (Hi & Hfl & Ho & Hop & _) Hh Hs Hff. rewrite saved_fields by done. eexists KM_FDTYPE_PIPE, _. split_and!; [done..|].
  intros pre rest st Hst Hr. destruct (flat_entry KM_FDTYPE_PIPE (format "%d,%d,%x,%d")
    [i; how_number f.(how); f.(fflags); f.(ofd)] pre rest) as [Hb Hd]; [done|done|].
  exists (length pre). split; [|exact Hb]. unfold restore_entry. cbn [Z.eqb KM_FDTYPE_FILE KM_FDTYPE_PIPE Pos.eqb]. rewrite Hd.
  rewrite scan_file_fields by (done || apply how_int).
  unfold bind at 1. rewrite how_of_number. unfold km_exec_restore_pipe. unfold bind at 1 2. rewrite get_pointer_ok by done. run_step.
  rewrite efile_fresh by done. cbn. unfold entry_added, restored. rewrite bool_decide_eq_false_2, Hs, bool_decide_eq_true_2 by congruence.
  by rewrite int32_u32.
Qed.

(** Sockets. *)
Lemma restore_sock_ok fd h o si st :
  0 <= fd < st.(es_nfdmap) -> st.(guestfds) !! fd = None -> is_Some (h_link fd) -> is_Some (km_exec_socket_get_sockopts fd) ->
  restore_sock fd h o si st =
  Ret (0, mk_exec st.(es_nfdmap) (<[fd := let '(ty, dom, proto) := default (0, 0, 0) (km_exec_socket_get_sockopts fd) in
                                        mk_file true h 0 0 None o (h_link fd) (Some (si ty dom proto)) []]> st.(guestfds))).
Proof.
  intros Hr Hst [n Hn] [[[ty dom] proto] Ho]. unfold restore_sock. unfold bind at 1. rewrite get_pointer_ok by done. run_step. cbv zeta.
  rewrite efile_fresh by done. unfold efile_set. run_step. rewrite Hn, Ho. cbn. by rewrite insert_insert_eq.
Qed.

Lemma saved_pair_fields i h o :
  asprintf "{%d,%d,%d,%d}" [AInt KM_FDTYPE_SOCKETPAIR; AInt i; AInt h; AInt o]
  = tagged KM_FDTYPE_SOCKETPAIR (print (format "%d,%d,%d") (map AInt [i; h; o]) ++ [rbrace]).
Proof.
  unfold asprintf. change (format "%d,%d,%d") with [Dec; Lit comma; Dec; Lit comma; Dec].
  change (format "{%d,%d,%d,%d}") with [Lit lbrace; Dec; Lit comma; Dec; Lit comma; Dec; Lit comma; Dec; Lit rbrace].
  cbn [print map]. destruct (print_tag KM_FDTYPE_SOCKETPAIR) as [_ ->]; [done|]. unfold tagged. cbn [app].
  repeat (rewrite <- app_assoc; cbn [app]). done.
Qed.

Lemma parses_pair i f si :
  saved_ok i f -> f.(how) <> KM_FILE_HOW_EVENTFD -> f.(sockinfo) = Some si -> is_pair f.(how) ->
  parses i f (asprintf "{%d,%d,%d,%d}" [AInt KM_FDTYPE_SOCKETPAIR; AInt i; AInt (how_number f.(how)); AInt f.(ofd)]).
Proof.
  intros (Hi & Hfl & Ho & _ & Hok) Hh Hs Hp. rewrite bool_decide_eq_false_2, Hs in Hok by done. destruct Hok as (_ & _ & _ & Hl & Hso).
  rewrite saved_pair_fields. set (zs := [i; how_number f.(how); f.(ofd)]).
  assert (Hz : fits (format "%d,%d,%d") zs) by (repeat split; first [apply Hi|apply Ho|apply how_int]).
  eexists KM_FDTYPE_SOCKETPAIR, _. split_and!; [done..|]. intros pre rest st Hst Hr.
  destruct (flat_entry KM_FDTYPE_SOCKETPAIR (format "%d,%d,%d") zs pre rest) as [Hb Hd]; [done|done|].
  exists (length pre). split; [|exact Hb]. unfold restore_entry. cbn [Z.eqb KM_FDTYPE_FILE KM_FDTYPE_PIPE KM_FDTYPE_SOCKETPAIR Pos.eqb].
  rewrite Hd. unfold sscanf. change (format "%d,%d,%d}") with (format "%d,%d,%d" ++ [Lit rbrace]).
  rewrite scan_closed by (first [done | repeat split]). change (read_back _ zs) with zs. cbv [zs].
  unfold bind at 1. rewrite how_of_number. unfold bind at 1. unfold km_exec_restore_socketpair. rewrite restore_sock_ok by done. run_step.
  unfold entry_added, restored. rewrite bool_decide_eq_false_2, Hs, bool_decide_eq_true_2 by done. done.
Qed.

Lemma addr_bytes_ok si :
  0 <= si.(addrlen) <= 128 -> Forall (fun b => 0 <= b < 256) si.(addr) ->
  Forall (fun b => 0 <= b < 256) (addr_bytes si) /\ Z.of_nat (length (addr_bytes si)) = si.(addrlen).
Proof.
  intros Hl Hb. unfold addr_bytes. split.
  - apply Forall_take, Forall_app. split; [done|]. apply Forall_replicate. lia.
  - rewrite length_take, length_app, length_replicate. lia.
Qed.

Lemma saved_socket_fields i h st bl o hex :
  asprintf "{%x,%d,%d,%d,%d,%d,%s}" [AInt KM_FDTYPE_SOCKET; AInt i; AInt h; AInt st; AInt bl; AInt o; AText hex]
  = tagged KM_FDTYPE_SOCKET ((print (format "%d,%d,%d,%d,%d") (map AInt [i; h; st; bl; o]) ++ comma :: hex) ++ [rbrace]).
Proof.
  unfold asprintf. change (format "%d,%d,%d,%d,%d") with [Dec; Lit comma; Dec; Lit comma; Dec; Lit comma; Dec; Lit comma; Dec].
  change (format "{%x,%d,%d,%d,%d,%d,%s}") with
    [Lit lbrace; Hex; Lit comma; Dec; Lit comma; Dec; Lit comma; Dec; Lit comma; Dec; Lit comma; Dec; Lit comma; Str; Lit rbrace].
  cbn [print map]. destruct (print_tag KM_FDTYPE_SOCKET) as [-> _]; [done|]. unfold tagged. cbn [app].
  repeat (rewrite <- app_assoc; cbn [app]). done.
Qed.

(** Where the pieces of a socket's entry are found. *)
Lemma socket_text zs bytes pre rest :
  fits (format "%d,%d,%d,%d,%d") zs -> Forall (fun b => 0 <= b < 256) bytes ->
  let fields := print (format "%d,%d,%d,%d,%d") (map AInt zs) in
  let t := tagged KM_FDTYPE_SOCKET ((fields ++ comma :: km_bin2hex bytes) ++ [rbrace]) in
  let env := pre ++ t ++ rest in
  let q := (length pre + 3)%nat in
  let e := (length pre + length t - 1)%nat in
  sscanf (drop q env) "%d,%d,%d,%d,%d," = zs /\ strchr env q rbrace = Some e /\ strchr env (length pre) rbrace = Some e
  /\ km_hex2bin (drop (back_to_comma env q e) env) = bytes.
Proof.
  intros Hz Hby fields t env q e. set (hex := km_bin2hex bytes) in *. pose proof (bin2hex_plain _ Hby) as Hhex. fold hex in Hhex.
  assert (Hbr : Forall (fun c => braceless c = true) (fields ++ comma :: hex)).
  { apply Forall_app. split; [by apply print_braceless|]. constructor; [done|]. eapply Forall_impl; [exact Hhex|apply plain_braceless]. }
  assert (Henv : env = (pre ++ tagged KM_FDTYPE_SOCKET fields) ++ comma :: hex ++ rbrace :: rest).
  { unfold env, t, tagged. cbn [app]. repeat (rewrite <- app_assoc; cbn [app]). done. }
  set (pre3 := pre ++ tagged KM_FDTYPE_SOCKET []).
  assert (Henv3 : env = pre3 ++ (fields ++ comma :: hex) ++ rbrace :: rest).
  { unfold env, t, pre3, tagged. cbn [app]. repeat (rewrite <- app_assoc; cbn [app]). done. }
  assert (Hq : q = length pre3) by (unfold pre3; rewrite length_app; done).
  assert (Hqe : e = (length pre3 + length (fields ++ comma :: hex))%nat).
  { unfold e, t. rewrite <- Hq, tagged_length, (length_app _ [rbrace]). cbn [length]. unfold q. lia. }
  assert (Hbe : e = (S (length (pre ++ tagged KM_FDTYPE_SOCKET fields)) + length hex)%nat).
  { rewrite Hqe, <- Hq, !length_app, tagged_length. cbn [length]. unfold q. lia. }
  split_and!.
  - rewrite Henv3, drop_at by done. rewrite <- app_assoc. unfold sscanf. cbn [app].
    change (format "%d,%d,%d,%d,%d,") with (format "%d,%d,%d,%d,%d" ++ [Lit comma]).
    unfold fields. rewrite scan_closed by (first [done | repeat split]). revert Hz. change (format "%d,%d,%d,%d,%d") with [Dec; Lit comma; Dec; Lit comma; Dec; Lit comma; Dec; Lit comma; Dec].
    destruct zs as [|z1 [|z2 [|z3 [|z4 [|z5 [|z6 zs]]]]]]; cbn; tauto || (intros (_ & _ & _ & _ & _ & E); discriminate E) || done.
  - rewrite Henv3, Hqe, <- Hq. apply strchr_app; [done|]. eapply Forall_impl; [exact Hbr|apply braceless_rbrace].
  - unfold env, t. rewrite strchr_flat by done. unfold e, t. rewrite tagged_length, (length_app _ [rbrace]). cbn [length]. f_equal. lia.
  - rewrite Henv at 1. rewrite Hbe. rewrite back_to_comma_spec.
    + rewrite Henv. replace ((pre ++ tagged KM_FDTYPE_SOCKET fields) ++ comma :: hex ++ rbrace :: rest)
        with (((pre ++ tagged KM_FDTYPE_SOCKET fields) ++ [comma]) ++ hex ++ rbrace :: rest) by (by rewrite <- app_assoc).
      rewrite drop_at by (rewrite !length_app; cbn [length]; lia). unfold hex. by apply hex_roundtrip.
    + eapply Forall_impl; [exact Hhex|]. intros c Hc%plain_comma. by rewrite Ascii.eqb_sym.
    + rewrite length_app, tagged_length. unfold q. lia.
Qed.

Lemma parses_socket i f si :
  saved_ok i f -> f.(how) <> KM_FILE_HOW_EVENTFD -> f.(sockinfo) = Some si -> ~ is_pair f.(how) ->
  parses i f (asprintf "{%x,%d,%d,%d,%d,%d,%s}"
    [AInt KM_FDTYPE_SOCKET; AInt i; AInt (how_number f.(how)); AInt (state_number si.(sock_state)); AInt si.(backlog);
     AInt f.(ofd); AText (km_bin2hex (addr_bytes si))]).
Proof.
  intros (Hi & Hfl & Ho & _ & Hok) Hh Hs Hp. rewrite bool_decide_eq_false_2, Hs in Hok by done. destruct Hok as (Hbl & Hal & Hab & Hl & Hso).
  destruct (addr_bytes_ok si Hal Hab) as [Hby Hbl2]. rewrite saved_socket_fields.
  set (zs := [i; how_number f.(how); state_number si.(sock_state); si.(backlog); f.(ofd)]).
  assert (Hz : fits (format "%d,%d,%d,%d,%d") zs) by (repeat split; first [apply Hi|apply Ho|apply Hbl|apply how_int|apply state_int]).
  eexists KM_FDTYPE_SOCKET, _. split_and!; [done..|]. intros pre rest st Hst Hr.
  destruct (socket_text zs (addr_bytes si) pre rest Hz Hby) as (E1 & E2 & E3 & E4). cbv zeta in *.
  exists (length pre). split; [|exact E3]. unfold restore_entry. cbn [Z.eqb KM_FDTYPE_FILE KM_FDTYPE_PIPE KM_FDTYPE_SOCKETPAIR KM_FDTYPE_SOCKET Pos.eqb].
  rewrite E1. cbv [zs] in *. rewrite E2. cbv zeta. rewrite E4.
  unfold bind at 1. rewrite km_assert_true by (apply Nat.leb_le; lia). unfold bind at 1. rewrite how_of_number.
  unfold bind at 1. rewrite state_of_number. unfold bind at 1. unfold km_exec_restore_socket. rewrite restore_sock_ok by done. cbn [Z.ltb].
  unfold entry_added, restored. rewrite bool_decide_eq_false_2, Hs, bool_decide_eq_false_2 by done. rewrite Hbl2. done.
Qed.

(** Events. *)
Definition event_numbers (e : km_fs_event) : list Z := [e.(ev_fd); e.(ev_event).(ev_events); e.(ev_event).(ev_data)].
Definition event_text (e : km_fs_event) : text := comma :: lbrace :: print (format "%d,%x,%lx") (map AInt (event_numbers e)) ++ [rbrace].
Definition events_text (l : list km_fs_event) : text := concat (map event_text l).

Lemma save_events_text more l :
  save_events more l = more ++ events_text l ++ (match l with [] => [] | _ => [rbrace] end).
Proof.
  revert more. induction l as [|e l IH]; intros more; [by rewrite app_nil_r|]. cbn [save_events]. rewrite IH. unfold asprintf.
  change (format "%s,{%d,%x,%lx}%s") with [Str; Lit comma; Lit lbrace; Dec; Lit comma; Hex; Lit comma; LHex; Lit rbrace; Str].
  unfold events_text. cbn [map concat]. unfold event_text at 2. change (format "%d,%x,%lx") with [Dec; Lit comma; Hex; Lit comma; LHex].
  cbn [print map event_numbers]. repeat (rewrite <- app_assoc; cbn [app]).
  destruct l as [|e' l]; cbn [map concat app]; repeat (rewrite <- app_assoc; cbn [app]); done.
Qed.

Lemma event_fits e : event_ok e -> fits (format "%d,%x,%lx") (event_numbers e).
Proof. intros (H1 & _). repeat split; apply H1. Qed.

Lemma event_scanned e rest :
  event_ok e -> sscanf (lbrace :: print (format "%d,%x,%lx") (map AInt (event_numbers e)) ++ rbrace :: rest) "{%d,%x,%lx}" = event_numbers e.
Proof.
  intros He. unfold sscanf. change (format "{%d,%x,%lx}") with (Lit lbrace :: (format "%d,%x,%lx" ++ [Lit rbrace])).
  cbn [scan]. rewrite Ascii.eqb_refl, scan_closed by (first [by apply event_fits | repeat split]). destruct He as (H1 & H2 & H3).
  change (format "%d,%x,%lx") with [Dec; Lit comma; Hex; Lit comma; LHex]. cbn [read_back event_numbers].
  unfold u32. rewrite Z.mod_small by done. by rewrite u64_small.
Qed.

(** Where the pieces of an event are found. *)
Lemma event_at e pre more :
  event_ok e ->
  let env := pre ++ event_text e ++ more in
  char_at env (length pre) = comma /\ sscanf (drop (S (length pre)) env) "{%d,%x,%lx}" = event_numbers e
  /\ strchr env (S (length pre)) rbrace = Some (Nat.pred (length pre + length (event_text e))).
Proof.
  intros He env. set (fields := print (format "%d,%x,%lx") (map AInt (event_numbers e))).
  assert (Henv : env = pre ++ comma :: (lbrace :: fields) ++ rbrace :: more).
  { unfold env, event_text. fold fields. cbn [app]. by rewrite <- app_assoc. }
  assert (Henv1 : env = (pre ++ [comma]) ++ (lbrace :: fields) ++ rbrace :: more) by (by rewrite Henv, <- app_assoc).
  assert (Hlen : S (length pre) = length (pre ++ [comma])) by (rewrite length_app; cbn; lia).
  split_and!.
  - rewrite Henv. by apply char_at_app.
  - rewrite Henv1, drop_at by done. by apply event_scanned.
  - rewrite Henv1, strchr_app; [|done|].
    + f_equal. unfold event_text. fold fields. cbn [length]. rewrite length_app. cbn [length]. lia.
    + constructor; [done|]. eapply Forall_impl; [by apply print_braceless|apply braceless_rbrace].
Qed.

Lemma restore_events_ok fuel fd last l pre rest st f :
  let env := pre ++ events_text l ++ rbrace :: rest in
  Forall event_ok l -> (length l < fuel)%nat -> st.(guestfds) !! fd = Some f ->
  restore_events fuel env fd last (length pre) st
  = Ret (Some (length pre + length (events_text l))%nat,
         mk_exec st.(es_nfdmap) (<[fd := set_fevents (f.(fevents) ++ l) f]> st.(guestfds))).
Proof.
  intros env Hl. revert fuel last pre st f env. induction Hl as [|e l He Hl IH]; intros fuel last pre st f env Hf Hst;
    (destruct fuel as [|fuel]; [cbn in Hf; lia|]); cbn [restore_events].
  - unfold env. cbn [events_text map concat app]. rewrite char_at_app by done. change (Ascii.eqb rbrace comma) with false. cbv iota.
    unfold ret. cbn [length]. rewrite Nat.add_0_r, app_nil_r. do 2 f_equal. destruct st as [n g]. cbn in *. f_equal. symmetry.
    apply insert_id. rewrite Hst. by destruct f.
  - set (pre' := pre ++ event_text e).
    assert (Henv : env = pre ++ event_text e ++ events_text l ++ rbrace :: rest) by (unfold env, events_text; cbn [map concat]; by rewrite <- app_assoc).
    assert (Henv' : env = pre' ++ events_text l ++ rbrace :: rest) by (unfold pre'; by rewrite Henv, <- app_assoc).
    destruct (event_at e pre (events_text l ++ rbrace :: rest) He) as (E1 & E2 & E3). cbv zeta in *. rewrite <- Henv in E1, E2, E3.
    rewrite E1, Ascii.eqb_refl, E2. cbv [event_numbers]. rewrite E3.
    assert (Hpre' : length pre' = S (Nat.pred (length pre + length (event_text e)))) by (unfold pre', event_text; rewrite length_app; cbn [length]; lia).
    rewrite <- Hpre'. unfold bind at 1. unfold add_event. run_step. unfold efile_set. run_step. cbn [guestfds es_nfdmap].
    set (st' := mk_exec _ _). rewrite Henv'. rewrite (IH fuel _ pre' st' (set_fevents (f.(fevents) ++ [e]) f)); [|cbn in Hf; lia|].
    + do 2 f_equal.
      * unfold events_text. cbn [map concat]. rewrite length_app. f_equal. unfold pre'. rewrite length_app. lia.
      * unfold st'. cbn [es_nfdmap guestfds]. f_equal. rewrite insert_insert_eq. f_equal. cbn. by rewrite <- app_assoc.
    + unfold st'. cbn [guestfds]. rewrite lookup_insert_eq. unfold efile_at. rewrite Hst. by destruct e as [? []].
Qed.

Lemma saved_event_fields i fl l :
  l <> [] -> save_events (asprintf "{%x,%d,%x" [AInt KM_FDTYPE_EVENTFD; AInt i; AInt fl]) l
  = tagged KM_FDTYPE_EVENTFD (print (format "%d,%x") (map AInt [i; fl]) ++ events_text l ++ [rbrace]).
Proof.
  intros Hl. rewrite save_events_text. unfold asprintf. change (format "{%x,%d,%x") with [Lit lbrace; Hex; Lit comma; Dec; Lit comma; Hex].
  change (format "%d,%x") with [Dec; Lit comma; Hex]. cbn [print map]. destruct (print_tag KM_FDTYPE_EVENTFD) as [-> _]; [done|].
  unfold tagged. cbn [app]. repeat (rewrite <- app_assoc; cbn [app]). by destruct l.
Qed.

Lemma eventfd_scanned i fl more :
  is_int i -> sscanf (print (format "%d,%x") (map AInt [i; fl]) ++ comma :: more) "%d,%x" = [i; u32 fl].
Proof.
  intros Hi. unfold sscanf. change (format "%d,%x") with [Dec; Lit comma; Hex].
  rewrite scan_print; [reflexivity|repeat split|]. cbn [fits]. split; [exact Hi|]. by split.
Qed.

Lemma parses_eventfd i f :
  saved_ok i f -> f.(how) = KM_FILE_HOW_EVENTFD ->
  parses i f (save_events (asprintf "{%x,%d,%x" [AInt KM_FDTYPE_EVENTFD; AInt i; AInt f.(fflags)]) f.(fevents)).
Proof.
  intros (Hi & Hfl & Ho & _ & Hok) Hh. rewrite bool_decide_eq_true_2 in Hok by done. destruct Hok as [Hne Hev].
  rewrite saved_event_fields by done. set (zs := [i; f.(fflags)]). set (fields := print (format "%d,%x") (map AInt zs)).
  eexists KM_FDTYPE_EVENTFD, _. split_and!; [done..|]. intros pre rest st Hst Hr.
  set (t := tagged _ _). set (env := pre ++ t ++ rest). set (pre' := pre ++ tagged KM_FDTYPE_EVENTFD fields).
  assert (Henv : env = pre' ++ events_text f.(fevents) ++ rbrace :: rest).
  { unfold env, t, pre', tagged. cbn [app]. repeat (rewrite <- app_assoc; cbn [app]). done. }
  assert (Hev1 : exists more, events_text f.(fevents) ++ rbrace :: rest = comma :: lbrace :: more).
  { destruct f.(fevents) as [|e l]; [done|]. unfold events_text. cbn [map concat]. unfold event_text at 1. cbn [app]. by eexists. }
  destruct Hev1 as [more Hmore].
  assert (Hd : drop (length pre + 3) env = fields ++ comma :: lbrace :: more).
  { unfold env, t. rewrite drop_tagged. repeat (rewrite <- app_assoc; cbn [app]). by rewrite Hmore. }
  assert (Hsc : sscanf (drop (length pre + 3) env) "%d,%x" = [i; u32 f.(fflags)]).
  { rewrite Hd. by apply eventfd_scanned. }
  assert (Hpre' : length pre' = (length pre + 3 + length fields)%nat) by (unfold pre'; rewrite length_app, tagged_length; lia).
  assert (Hpb : strpbrk env (length pre + 3) [lbrace; rbrace] = Some (S (length pre'))).
  { unfold strpbrk. rewrite Hd. change (fields ++ comma :: lbrace :: more) with (fields ++ [comma] ++ lbrace :: more). rewrite app_assoc.
    rewrite find_char_app; [rewrite length_app, Hpre'; cbn; f_equal; lia| |done]. apply Forall_app. split; [|by repeat constructor].
    eapply Forall_impl; [by apply print_braceless|]. intros c Hc. unfold braceless in Hc. cbn.
    destruct (Ascii.eqb c lbrace); [done|]. destruct (Ascii.eqb c rbrace); [done|done]. }
  assert (Hch : char_at env (S (length pre')) = lbrace).
  { rewrite Henv, Hmore, (cons_middle comma), app_assoc. apply char_at_app. rewrite length_app. cbn. lia. }
  assert (Hend : char_at env (length pre' + length (events_text f.(fevents))) = rbrace).
  { rewrite Henv, app_assoc. apply char_at_app. by rewrite length_app. }
  exists (length pre' + length (events_text f.(fevents)))%nat. split.
  - unfold restore_entry. cbn [Z.eqb KM_FDTYPE_FILE KM_FDTYPE_PIPE KM_FDTYPE_SOCKETPAIR KM_FDTYPE_SOCKET KM_FDTYPE_EVENTFD Pos.eqb].
    rewrite Hsc, Hpb. unfold bind at 1. unfold km_exec_restore_eventfd. unfold bind at 1. rewrite get_pointer_ok by done.
    run_step. rewrite efile_fresh by done. cbn [negb inuse file_zero km_assert]. unfold efile_set. run_step. cbv zeta.
    rewrite Hch, Ascii.eqb_refl. cbn [Nat.pred].
    match goal with |- context [restore_events ?n env ?a ?b ?c ?s0] => set (st1 := s0); set (fuel := n) end.
    replace (restore_events fuel env i i (length pre') st1) with (Ret (Some (length pre' + length (events_text f.(fevents)))%nat, entry_added i f st)).
    + rewrite Hend, Ascii.eqb_refl. done.
    + symmetry. rewrite Henv. unfold fuel. rewrite (restore_events_ok _ _ _ _ _ _ _ (mk_file true KM_FILE_HOW_EVENTFD (int32 (u32 f.(fflags))) 0 None (-1) (h_link i) None [])); [|done| |].
      * do 2 f_equal. unfold entry_added, restored, st1. cbn [es_nfdmap guestfds]. rewrite insert_insert_eq, bool_decide_eq_true_2 by done.
        do 2 f_equal. cbn. rewrite int32_u32 by done. done.
      * rewrite Henv, !length_app. cbn [length]. assert (Hle : (length f.(fevents) <= length (events_text f.(fevents)))%nat); [|lia].
        unfold events_text. clear. induction f.(fevents) as [|e l IH]; cbn [map concat length]; [lia|]. rewrite length_app. unfold event_text at 1. cbn [length]. lia.
      * unfold st1. cbn [guestfds]. apply lookup_insert_eq.
  - rewrite Henv, app_assoc. rewrite <- length_app. change (rbrace :: rest) with ([] ++ rbrace :: rest).
    rewrite strchr_app; [|done|constructor]. cbn [length]. f_equal.
    rewrite length_app, Hpre'. unfold t. rewrite tagged_length, !length_app. cbn [length]. lia.
Qed.

Lemma save_entry_parses i f : saved_ok i f -> exists t, save_entry i f = Some t /\ parses i f t.
Proof.
  intros Hok. pose proof Hok as (_ & _ & _ & _ & Hcase). unfold save_entry.
  destruct (decide (f.(how) = KM_FILE_HOW_EVENTFD)) as [Hh|Hh].
  - rewrite bool_decide_eq_true_2 by done. eexists. split; [done|]. by apply parses_eventfd.
  - rewrite bool_decide_eq_false_2 in Hcase |- * by done. destruct f.(sockinfo) as [si|] eqn:Hs.
    + change (f.(how) = KM_FILE_HOW_SOCKETPAIR0 \/ f.(how) = KM_FILE_HOW_SOCKETPAIR1) with (is_pair f.(how)).
      destruct (decide (is_pair f.(how))) as [Hp|Hp]; [rewrite bool_decide_eq_true_2 by done|rewrite bool_decide_eq_false_2 by done];
        eexists; (split; [done|]); [by eapply parses_pair|by apply parses_socket].
    + destruct Hcase as [[] Hb]; rewrite Hb; eexists; (split; [done|]); [by apply parses_pipe|by apply parses_file].
Qed.

(** ** The whole variable *)
Definition tails (l : list (Z * text)) : text := concat (map (fun x => comma :: x.2) l).
Definition joined (l : list (Z * text)) : text := match l with [] => [] | x :: r => x.2 ++ tails r end.

(** Parsing a list of entries; [file] gives what each was made from. *)
Fixpoint added (file : Z -> km_file) (fds : list Z) (st : exec_state) : exec_state :=
  match fds with
  | [] => st
  | i :: r => added file r (entry_added i (file i) st)
  end.

Lemma added_lookup file fds st j :
  NoDup fds -> (added file fds st).(guestfds) !! j = (if decide (j ∈ fds) then Some (restored j (file j)) else st.(guestfds) !! j)
  /\ (added file fds st).(es_nfdmap) = st.(es_nfdmap).
Proof.
  intros Hnd. revert st. induction Hnd as [|i fds Hi Hnd IH]; intros st; cbn [added].
  - split; [|done]. destruct (decide (j ∈ [])) as [Hj|]; [by apply not_elem_of_nil in Hj|done].
  - destruct (IH (entry_added i (file i) st)) as [-> ->]. split; [|done]. cbn [entry_added guestfds].
    destruct (decide (j ∈ fds)) as [Hj|Hj], (decide (j ∈ i :: fds)) as [Hj'|Hj']; rewrite elem_of_cons in Hj'; try done; try tauto.
    + destruct Hj' as [->|]; [by rewrite lookup_insert_eq|done].
    + rewrite lookup_insert_ne by (intros ->; tauto). done.
Qed.

Definition fresh_in (st : exec_state) (fds : list Z) : Prop :=
  forall i, i ∈ fds -> st.(guestfds) !! i = None /\ 0 <= i < st.(es_nfdmap).

Lemma fresh_in_added st i f fds : fresh_in st (i :: fds) -> i ∉ fds -> fresh_in (entry_added i f st) fds.
Proof. intros Hf Hi j Hj. destruct (Hf j) as [? ?]; [by right|]. cbn. rewrite lookup_insert_ne by (intros ->; done). done. Qed.

(** The entries before another one. *)
Lemma loop_prefix file l x r fuel pre st :
  Forall (fun x => parses x.1 (file x.1) x.2) l -> NoDup l.*1 -> fresh_in st l.*1 ->
  restore_loop (length l + fuel) (pre ++ joined (l ++ x :: r)) (length pre) st
  = restore_loop fuel ((pre ++ concat (map (fun x => x.2 ++ [comma]) l)) ++ joined (x :: r))
      (length (pre ++ concat (map (fun x => x.2 ++ [comma]) l))) (added file l.*1 st).
Proof.
  intros Hl. revert pre st. induction Hl as [|[i t] l Hp Hl IH]; intros pre st Hnd Hfr; [by rewrite app_nil_r|].
  cbn in Hnd, Hp. apply NoDup_cons in Hnd as [Hi Hnd]. destruct (Hfr i) as [Hst Hr]; [by left|].
  destruct Hp as (tag & body & Et & Htag & Hparse). destruct (Hparse pre (tails (l ++ x :: r)) st Hst Hr) as (p' & He & Hb).
  cbn [joined snd fst app length Nat.add]. rewrite Et in He, Hb |- *. rewrite (loop_step _ pre tag body (tails (l ++ x :: r)) st _ p' Htag He Hb).
  rewrite <- Et.
  assert (Henv : pre ++ t ++ tails (l ++ x :: r) = (pre ++ t) ++ comma :: joined (l ++ x :: r)).
  { unfold tails. destruct l as [|y l]; cbn [app map concat joined]; by rewrite <- app_assoc. }
  rewrite Henv, <- length_app, char_at_app by done. rewrite Ascii.eqb_refl.
  replace ((pre ++ t) ++ comma :: joined (l ++ x :: r)) with ((pre ++ t ++ [comma]) ++ joined (l ++ x :: r)) by (by rewrite <- !app_assoc).
  replace (S (length (pre ++ t))) with (length (pre ++ t ++ [comma])) by (rewrite !length_app; cbn; lia).
  rewrite IH; [|done|by apply fresh_in_added]. cbn [map concat snd]. by rewrite <- !app_assoc.
Qed.

(** The last entry. *)
Lemma loop_last f i t fuel pre st :
  parses i f t -> fresh_in st [i] -> restore_loop (S (S fuel)) (pre ++ t) (length pre) st = Ret (0, entry_added i f st).
Proof.
  intros (tag & body & Et & Htag & Hparse) Hfr. destruct (Hfr i) as [Hst Hr]; [by left|].
  destruct (Hparse pre [] st Hst Hr) as (p' & He & Hb). rewrite app_nil_r in He, Hb. rewrite Et in He, Hb |- *.
  pose proof (loop_step (S fuel) pre tag body [] st (entry_added i f st) p') as Hs. cbv zeta in Hs. rewrite app_nil_r in Hs. rewrite Hs by done.
  unfold char_at. rewrite nth_overflow by (rewrite length_app; lia). change (Ascii.eqb nul comma) with false. cbv iota. rewrite <- length_app.
  cbn [restore_loop]. by destruct (Nat.leb_spec (length (pre ++ tagged tag body)) (length (pre ++ tagged tag body))); [|lia].
Qed.

Lemma loop_ok file l fuel st :
  Forall (fun x => parses x.1 (file x.1) x.2) l -> NoDup l.*1 -> fresh_in st l.*1 -> (length l < fuel)%nat ->
  restore_loop fuel (joined l) 0 st = Ret (0, added file l.*1 st).
Proof.
  intros Hl Hnd Hfr Hf. destruct l as [|[i t] l _] using rev_ind.
  { destruct fuel; [lia|]. done. }
  apply Forall_app in Hl as [Hl Hp]. apply Forall_cons in Hp as [Hp _]. rewrite fmap_app in *. apply NoDup_app in Hnd as (Hnd & Hdisj & _).
  rewrite length_app in Hf. cbn [length] in Hf. replace fuel with (length l + S (S (fuel - length l - 2)))%nat by lia.
  pose proof (loop_prefix file l (i, t) [] (S (S (fuel - length l - 2))) [] st Hl Hnd) as Hpre. cbn [app length] in Hpre. rewrite Hpre.
  - unfold joined at 1. unfold tails. cbn [map concat snd]. rewrite app_nil_r.
    assert (Hin : i ∉ l.*1) by (intros Hi; apply (Hdisj i Hi); by left).
    rewrite (loop_last (file i) i t); [|done|].
    + f_equal. f_equal. clear. revert st. induction l as [|[j u] l IH]; intros st; [done|]. cbn. apply IH.
    + intros j ->%list_elem_of_singleton. destruct (added_lookup file l.*1 st i Hnd) as [-> ->].
      destruct (decide (i ∈ l.*1)); [done|]. apply Hfr. apply elem_of_app. right. by left.
  - intros j Hj. apply Hfr. apply elem_of_app. by left.
Qed.

Lemma tails_length (l : list (Z * text)) : (length l <= length (tails l))%nat.
Proof. induction l as [|x l IH]; unfold tails in *; cbn [map concat length]; [lia|]. rewrite length_app. cbn [length]. lia. Qed.

(** What [save_fds] writes. *)
Lemma save_fds_joined s fds :
  (forall i, i ∈ fds -> kept s i = true -> saved_ok i (file_at s i)) ->
  exists l, l.*1 = filter (fun i => kept s i = true) fds /\ Forall (fun x => parses x.1 (file_at s x.1) x.2) l
    /\ (forall v, save_fds s (Some v) fds = Some (Some (v ++ tails l)))
    /\ save_fds s None fds = Some (match l with [] => None | _ => Some (joined l) end).
Proof.
  induction fds as [|i fds IH]; intros Hok.
  - exists []. split_and!; [done|constructor| |done]. intros v. cbn. by rewrite app_nil_r.
  - destruct IH as (l & H1 & H2 & H3 & H4); [intros j Hj; apply Hok; by right|].
    cbn [save_fds]. destruct (kept s i) eqn:Ek.
    + destruct (save_entry_parses i (file_at s i)) as (t & Et & Hp); [apply Hok; [by left|done]|].
      exists ((i, t) :: l). rewrite Et, filter_cons_True by done. split_and!; [cbn; by rewrite H1|by constructor| |].
      * intros v. rewrite H3. unfold asprintf. change (format "%s,%s") with [Str; Lit comma; Str]. cbn [print].
        unfold tails. cbn [map concat]. rewrite app_nil_r. do 2 f_equal. rewrite <- app_assoc. done.
      * rewrite H3. done.
    + exists l. rewrite filter_cons_False by (rewrite Ek; done). done.
Qed.

Definition exec_ok (s : km_filesys) : Prop := s.(nfdmap) <= 2 ^ 31 /\ forall i, 0 <= i < s.(nfdmap) -> kept s i = true -> saved_ok i (file_at s i).

(** Every descriptor of the guest that stays open across an exec is in the table
    the new instance parses from the environment, with what it was created as, its
    flags, the other end of its pipe, the handler of its name, its socket's state,
    backlog and address and its events; nothing else is; and parsing succeeds.
    [restored] says which fields are taken from the host instead. *)
Lemma exec_fd_saved s varname :
  exec_ok s ->
  exists value st, km_exec_save_fd s varname = Some (varname ++ ("="%char :: value))
    /\ km_exec_restore_fd value (mk_exec s.(nfdmap) ∅) = Ret (0, st)
    /\ forall i, st.(guestfds) !! i = (if bool_decide (0 <= i < s.(nfdmap) /\ kept s i = true) then Some (restored i (file_at s i)) else None).
Proof.
  intros [_ Hok]. destruct (save_fds_joined s (seqZ 0 s.(nfdmap))) as (l & H1 & H2 & _ & H4).
  { intros i [k [Hk1 Hk2]%lookup_seqZ]%list_elem_of_lookup. apply Hok. lia. }
  exists (joined l), (added (file_at s) l.*1 (mk_exec s.(nfdmap) ∅)). split_and!.
  - unfold km_exec_save_fd. rewrite H4. unfold asprintf. change (format "%s=%s") with [Str; Lit "="%char; Str]. cbn [print].
    rewrite app_nil_r. by destruct l.
  - unfold km_exec_restore_fd. apply (loop_ok (file_at s) l _ _ H2).
    + rewrite H1. apply NoDup_filter, NoDup_seqZ.
    + intros i. rewrite H1. intros [_ [k [Hk1 Hk2]%lookup_seqZ]%list_elem_of_lookup]%list_elem_of_filter. cbn. split; [apply lookup_empty|lia].
    + clear -H2. destruct H2 as [|[i t] l (tag & body & Et & _) Hl]; cbn [length joined snd]; [lia|]. cbn in Et. rewrite Et, length_app, tagged_length.
      pose proof (tails_length l). lia.
  - intros i. destruct (added_lookup (file_at s) l.*1 (mk_exec s.(nfdmap) ∅) i) as [-> _]; [rewrite H1; apply NoDup_filter, NoDup_seqZ|].
    cbn [guestfds]. rewrite lookup_empty, H1.
    assert (Hin : i ∈ filter (fun i => kept s i = true) (seqZ 0 s.(nfdmap)) <-> 0 <= i < s.(nfdmap) /\ kept s i = true).
    { rewrite list_elem_of_filter, elem_of_seqZ. split; intros [? ?]; split; done || lia. }
    destruct (decide _) as [Hi|Hi]; rewrite Hin in Hi; [by rewrite bool_decide_eq_true_2|by rewrite bool_decide_eq_false_2].
Qed.

(** ** The entry that is not closed *)
Lemma save_fds_app s v a b :
  save_fds s v (a ++ b) = match save_fds s v a with Some v' => save_fds s v' b | None => None end.
Proof.
  revert v. induction a as [|i a IH]; intros v; [done|]. cbn [app save_fds]. destruct (kept s i); [|apply IH].
  destruct (save_entry i (file_at s i)); [apply IH|done].
Qed.

Lemma save_fds_none s v fds : (forall i, i ∈ fds -> kept s i = false) -> save_fds s v fds = Some v.
Proof.
  induction fds as [|i fds IH]; intros Hk; [done|]. cbn [save_fds]. rewrite Hk by (by left). apply IH. intros j Hj. apply Hk. by right.
Qed.

Lemma open_entry_fails i fl pre st fuel :
  is_int i -> restore_loop (S fuel) (pre ++ tagged KM_FDTYPE_EVENTFD (print (format "%d,%x") (map AInt [i; fl]))) (length pre) st = Ret (-1, st).
Proof.
  intros Hi. set (fields := print _ _). set (env := pre ++ _). cbn [restore_loop].
  assert (Hlen : length env = (length pre + 3 + length fields)%nat) by (unfold env; rewrite length_app, tagged_length; lia).
  destruct (Nat.leb_spec (length env) (length pre)); [lia|]. unfold env at 1. rewrite drop_app_length, tag_of_entry by done.
  assert (Hc : strchr env (length pre) comma = Some (length pre + 2)%nat).
  { unfold env. change (tagged KM_FDTYPE_EVENTFD fields) with ([lbrace; digit KM_FDTYPE_EVENTFD] ++ comma :: fields).
    apply strchr_app; [done|]. by repeat constructor. }
  rewrite Hc. replace (S (length pre + 2)) with (length pre + 3)%nat by lia.
  assert (Hd : drop (length pre + 3) env = fields).
  { pose proof (drop_tagged pre KM_FDTYPE_EVENTFD fields []) as Hd. rewrite !app_nil_r in Hd. exact Hd. }
  unfold bind, restore_entry. cbn [Z.eqb KM_FDTYPE_FILE KM_FDTYPE_PIPE KM_FDTYPE_SOCKETPAIR KM_FDTYPE_SOCKET KM_FDTYPE_EVENTFD Pos.eqb].
  rewrite int32_id by done. cbn [Z.eqb KM_FDTYPE_FILE KM_FDTYPE_PIPE KM_FDTYPE_SOCKETPAIR KM_FDTYPE_SOCKET KM_FDTYPE_EVENTFD Pos.eqb].
  assert (Hsc : sscanf fields "%d,%x" = [i; u32 fl]).
  { unfold fields, sscanf. rewrite <- (app_nil_r (print _ _)). change (format "%d,%x") with [Dec; Lit comma; Hex].
    rewrite scan_print; [reflexivity|repeat split|]. cbn [fits]. split; [exact Hi|]. by split. }
  assert (Hp : strpbrk env (length pre + 3) [lbrace; rbrace] = None).
  { unfold strpbrk. rewrite Hd. apply find_char_none. eapply Forall_impl; [by apply print_braceless|].
    intros c Hb. unfold braceless in Hb. cbn. by destruct (Ascii.eqb c lbrace), (Ascii.eqb c rbrace). }
  rewrite Hd, Hsc, Hp. done.
Qed.

(** The entry of an eventfd has no closing brace, since only an event writes it
    and an eventfd has none: when it is the last descriptor that stays open, the new
    instance refuses the variable and the exec fails. *)
Theorem exec_eventfd_fails s varname i :
  0 <= i < s.(nfdmap) -> s.(nfdmap) <= 2 ^ 31 -> kept s i = true -> (file_at s i).(how) = KM_FILE_HOW_EVENTFD -> (file_at s i).(fevents) = [] ->
  (forall j, 0 <= j < i -> kept s j = true -> saved_ok j (file_at s j)) -> (forall j, i < j < s.(nfdmap) -> kept s j = false) ->
  exists value st, km_exec_save_fd s varname = Some (varname ++ ("="%char :: value))
    /\ km_exec_restore_fd value (mk_exec s.(nfdmap) ∅) = Ret (-1, st).
Proof.
  intros Hi Hn Hk Hh He Hok Hlast. destruct (save_fds_joined s (seqZ 0 i)) as (l & H1 & H2 & H3 & H4).
  { intros j Hj%elem_of_seqZ. apply Hok. lia. }
  assert (Hsplit : seqZ 0 s.(nfdmap) = seqZ 0 i ++ i :: seqZ (i + 1) (s.(nfdmap) - i - 1)).
  { replace s.(nfdmap) with (i + (1 + (s.(nfdmap) - i - 1))) at 1 by lia. rewrite seqZ_app by lia. f_equal. rewrite Z.add_0_l.
    rewrite seqZ_cons by lia. do 2 f_equal; lia. }
  set (fl := (file_at s i).(fflags)). set (t := tagged KM_FDTYPE_EVENTFD (print (format "%d,%x") (map AInt [i; fl]))).
  assert (Ht : save_entry i (file_at s i) = Some t).
  { unfold save_entry. rewrite Hh, He, bool_decide_eq_true_2 by done. cbn [save_events]. unfold t, asprintf, tagged. fold fl.
    change (format "{%x,%d,%x") with [Lit lbrace; Hex; Lit comma; Dec; Lit comma; Hex]. change (format "%d,%x") with [Dec; Lit comma; Hex].
    cbn [print map]. by destruct (print_tag KM_FDTYPE_EVENTFD) as [-> _]. }
  assert (Hsave : save_fds s None (seqZ 0 s.(nfdmap)) = Some (Some (joined (l ++ [(i, t)])))).
  { rewrite Hsplit, save_fds_app, H4. cbn [save_fds]. rewrite Hk, Ht, save_fds_none by (intros j Hj%elem_of_seqZ; apply Hlast; lia).
    do 2 f_equal. destruct l as [|x l]; [unfold joined, tails; cbn; by rewrite app_nil_r|]. unfold asprintf. change (format "%s,%s") with [Str; Lit comma; Str].
    cbn [print joined app]. unfold tails. rewrite map_app, concat_app. cbn [map concat]. rewrite !app_nil_r, <- app_assoc. done. }
  assert (Hii : is_int i) by (unfold is_int; lia).
  exists (joined (l ++ [(i, t)])), (added (file_at s) l.*1 (mk_exec s.(nfdmap) ∅)). split.
  - unfold km_exec_save_fd. rewrite Hsave. unfold asprintf. change (format "%s=%s") with [Str; Lit "="%char; Str]. cbn [print]. by rewrite app_nil_r.
  - assert (Hlen : forall r : list (Z * text), (length r <= length (joined (r ++ [(i, t)])))%nat).
    { intros r. destruct r as [|x r]; [cbn; lia|]. cbn [joined app length]. rewrite length_app. unfold tails. rewrite map_app, concat_app, length_app.
      cbn [map concat length]. rewrite app_nil_r. cbn [length]. pose proof (tails_length r) as Hr. unfold tails in Hr. lia. }
    unfold km_exec_restore_fd. specialize (Hlen l). set (env := joined (l ++ [(i, t)])) in *.
    replace (S (length env)) with (length l + S (length env - length l))%nat by lia. unfold env at 2.
    pose proof (loop_prefix (file_at s) l (i, t) [] (S (length env - length l)) [] (mk_exec s.(nfdmap) ∅) H2) as Hpre.
    cbn [app length] in Hpre. rewrite Hpre.
    + unfold joined, tails. cbn [map concat snd]. rewrite app_nil_r. by apply open_entry_fails.
    + rewrite H1. apply NoDup_filter, NoDup_seqZ.
    + intros j. rewrite H1. intros [_ Hj%elem_of_seqZ]%list_elem_of_filter. cbn. split; [apply lookup_empty|lia].
Qed.
End Exec.
