(* ===== verification/ExecEnv.v ===== *)
(** * The monitor's own state across exec (km_exec.c)

    Beside the guest's descriptors an exec passes the size of the table, the fork
    count, the monitor's virtual machine and event descriptors, the trace setting
    and the state of the gdb stub, each in an environment variable; the new instance
    reads them back before it starts. *)
From S2P Require Import Prelude FdTable Stdio ExecFd.
From Stdlib Require Import Ascii.

Definition KM_EXEC_VERNUM : Z := 3.
Definition KVM_MAX_VCPUS : nat := 288.
Definition MAX_GDB_VFILE_OPEN_FD : nat := 32.
Definition KM_EXEC_VERS : text := chars "KM_EXEC_VERS".
Definition KM_EXEC_VMFDS : text := chars "KM_EXEC_VMFDS".
Definition KM_EXEC_EVENTFDS : text := chars "KM_EXEC_EVENTFDS".
Definition KM_EXEC_GUESTFDS : text := chars "KM_EXEC_GUESTFDS".
Definition KM_EXEC_PIDINFO : text := chars "KM_EXEC_PIDINFO".
Definition KM_EXEC_GDBINFO : text := chars "KM_EXEC_GDBINFO".

(** The fields of gdbstub that are passed, in the order they are written. *)
Record gdb_exec := mk_gdb {
  g_port : Z; g_listen_socket_fd : Z; g_sock_fd : Z; g_enabled : Z; g_wait_for_attach : Z; g_client_attached : Z;
  g_send_threadevents : Z; g_multiprocess : Z; g_xmlregisters : Z; g_qRelocInsn : Z; g_swbreak : Z; g_hwbreak : Z;
  g_forkevents : Z; g_vforkevents : Z; g_execevents : Z; g_vcontsupported : Z; g_qthreadevents : Z; g_current_fs : Z;
  g_vfile_fds : list Z
}.
Definition gdb_numbers (g : gdb_exec) : list Z :=
  [g.(g_port); g.(g_listen_socket_fd); g.(g_sock_fd); g.(g_enabled); g.(g_wait_for_attach); g.(g_client_attached);
   g.(g_send_threadevents); g.(g_multiprocess); g.(g_xmlregisters); g.(g_qRelocInsn); g.(g_swbreak); g.(g_hwbreak);
   g.(g_forkevents); g.(g_vforkevents); g.(g_execevents); g.(g_vcontsupported); g.(g_qthreadevents); g.(g_current_fs)].

(** What the variables are built from. *)
Record km_state := mk_state {
  k_fork_count : Z; k_kvm_fd : Z; k_mach_fd : Z; k_vcpu_fds : list Z; k_intr_fd : Z; k_shutdown_fd : Z; k_trace_pid : Z;
  k_gdb : gdb_exec
}.

(** ** Writing *)

(** snprintf into a buffer of [bufl] bytes; [None] when the text and its NUL do not
    fit. *)
Definition snprintf (bufl : nat) (f : string) (args : list arg) : option text :=
  let t := asprintf f args in if (bufl <? length t + 1)%nat then None else Some t.

Definition sizeof (name : text) : nat := S (length name).

Definition km_exec_vers_var (nfdmap : Z) (s : km_state) : option text :=
  snprintf (sizeof KM_EXEC_VERS + 1 + 4 + sizeof (chars ",fffff") + sizeof (chars ",fffff")) "%s=%d,%d,%d"
    [AText KM_EXEC_VERS; AInt KM_EXEC_VERNUM; AInt nfdmap; AInt (int32 s.(k_fork_count))].

Fixpoint append_fds (avail : nat) (f : string) (fds : list Z) : option text :=
  match fds with
  | [] => Some []
  | fd :: rest =>
      match snprintf avail f [AInt fd] with
      | None => None
      | Some t => match append_fds (avail - length t) f rest with Some more => Some (t ++ more) | None => None end
      end
  end.
(** A text followed by numbers, in one buffer. *)
Definition snprintf_fds (bufl : nat) (f : string) (args : list arg) (g : string) (fds : list Z) : option text :=
  match snprintf bufl f args with
  | None => None
  | Some t => match append_fds (bufl - length t) g fds with Some more => Some (t ++ more) | None => None end
  end.

Definition km_exec_vmfd_var (s : km_state) : option text :=
  snprintf_fds (sizeof KM_EXEC_VMFDS + 1 + (KVM_MAX_VCPUS + 2) * sizeof (chars "xxxxx,")) "%s=%d,%d"
    [AText KM_EXEC_VMFDS; AInt s.(k_kvm_fd); AInt s.(k_mach_fd)] ",%d" s.(k_vcpu_fds).

Definition km_exec_eventfd_var (s : km_state) : option text :=
  snprintf (sizeof KM_EXEC_EVENTFDS + 1 + sizeof (chars "xxxx,yyyy")) "%s=%d,%d"
    [AText KM_EXEC_EVENTFDS; AInt s.(k_intr_fd); AInt s.(k_shutdown_fd)].

Definition km_exec_pidinfo_var (s : km_state) : option text :=
  snprintf (sizeof KM_EXEC_PIDINFO + 1 + sizeof (chars "ttttttt")) "%s=%d" [AText KM_EXEC_PIDINFO; AInt s.(k_trace_pid)].

Definition km_exec_gdbinfo_var (s : km_state) : option text :=
  snprintf_fds (sizeof KM_EXEC_GDBINFO + 1 + 17 * length (chars "xxxx,") + length (chars "fs=xxxx,")
                + MAX_GDB_VFILE_OPEN_FD * length (chars "xxxx,"))
    "%s=%d,%d,%d,%d,%d,%d,%d,%d,%d,%d,%d,%d,%d,%d,%d,%d,%d,fs=%d,"
    (AText KM_EXEC_GDBINFO :: map AInt (gdb_numbers s.(k_gdb))) "%d," s.(k_gdb).(g_vfile_fds).

(** The six variables km_exec_build_env adds, in its order; [None] when one cannot be
    built. *)
Section Build.
  Context `{ExecHost}.
Definition exec_vars (fs : km_filesys) (s : km_state) : option (list text) :=
  vers ← km_exec_vers_var fs.(nfdmap) s;
  g2h ← km_exec_save_fd fs KM_EXEC_GUESTFDS;
  vmfd ← km_exec_vmfd_var s;
  eventfd ← km_exec_eventfd_var s;
  pidinfo ← km_exec_pidinfo_var s;
  gdbinfo ← km_exec_gdbinfo_var s;
  Some [vers; g2h; vmfd; eventfd; pidinfo; gdbinfo].
End Build.

(** ** The environment *)
Fixpoint strip_prefix (name s : text) : option text :=
  match name, s with
  | [], _ => Some s
  | a :: name', b :: s' => if Ascii.eqb a b then strip_prefix name' s' else None
  | _ :: _, [] => None
  end.
Fixpoint getenv (env : list text) (name : text) : option text :=
  match env with
  | [] => None
  | v :: rest => match strip_prefix (name ++ ["="%char]) v with Some value => Some value | None => getenv rest name end
  end.

(** Every entry of that name goes. *)
Definition unsetenv (name : text) (env : list text) : list text :=
  filter (fun v => strip_prefix (name ++ ["="%char]) v = None) env.

Definition KM_GDB_CHILD_FORK_WAIT : text := chars "KM_GDB_CHILD_FORK_WAIT".
Definition KM_VERBOSE : text := chars "KM_VERBOSE".

(** A debugging variable of the monitor itself is passed on, cut to a buffer of 256
    bytes. *)
Definition debug_var (own : list text) (name : text) : list text :=
  match getenv own name with
  | Some value => [take 255 (asprintf "%s=%s" [AText name; AText value])]
  | None => []
  end.

(** The environment of the new instance: the strings the guest's pointers [envp] name
    ([at_gva]: km_gva_to_kma, [None] outside guest memory), the six variables, then
    the debugging variables of the environment [own] of the monitor. *)
Section BuildEnv.
  Context `{ExecHost} (at_gva : Z -> option text).
Definition km_exec_build_env (own : list text) (fs : km_filesys) (s : km_state) (envp : list Z) : option (list text) :=
  user ← mapM at_gva envp;
  vars ← exec_vars fs s;
  Some (user ++ vars ++ debug_var own KM_GDB_CHILD_FORK_WAIT ++ debug_var own KM_VERBOSE).
End BuildEnv.

(** ** Reading *)

(** strtok_r with the separator ",": runs of other characters. *)
Fixpoint tokens (s cur : text) : list text :=
  match s with
  | [] => if decide (cur = []) then [] else [rev cur]
  | c :: r => if Ascii.eqb c comma then (if decide (cur = []) then tokens r [] else rev cur :: tokens r [])
              else tokens r (c :: cur)
  end.
Definition atoi (s : text) : Z := match scan_number 10 s with Some (z, _) => int32 (strtol_range z) | None => 0 end.

Record km_exec_state := mk_exec_state {
  x_nfdmap : Z; x_fork_count : Z; x_tracepid : Z; x_kvm_fd : Z; x_mach_fd : Z; x_vcpu_fds : list Z;
  x_intr_fd : Z; x_shutdown_fd : Z; x_files : exec_state; x_gdb : gdb_exec; x_send_exec_event : bool
}.

(** The descriptors of the old virtual machine, in the order they are closed. *)
Definition km_exec_vmclean (x : km_exec_state) : list Z :=
  [x.(x_intr_fd); x.(x_shutdown_fd)] ++ take KVM_MAX_VCPUS x.(x_vcpu_fds) ++ [x.(x_mach_fd); x.(x_kvm_fd)].

(** The vcpu descriptors as far as the terminating -1; a full array has no room for
    it. *)
Definition km_exec_get_vmfds (vmfds : text) : outcome (option (Z * Z * list Z)) :=
  match sscanf vmfds "%d,%d," with
  | [kvm; mach] =>
      match tokens vmfds [] with
      | _ :: _ :: rest =>
          let fds := map atoi rest in
          if forallb (fun fd => 0 <=? fd) fds && (length fds <? KVM_MAX_VCPUS)%nat then Ret (Some (kvm, mach, fds)) else Abort
      | _ => Abort
      end
  | _ => Ret None
  end.

(** The numbers of the gdb files: [n] of them, each up to the next comma. *)
Fixpoint gdb_fds (n : nat) (s : text) : option (list Z) :=
  match n with
  | O => Some []
  | S n' =>
      match find_char (Ascii.eqb comma) s 0, n' with
      | Some q, _ => match gdb_fds n' (drop (S q) s) with Some l => Some (atoi s :: l) | None => None end
      | None, O => Some [atoi s]
      | None, _ => None
      end
  end.
Fixpoint strstr_fs (s : text) : option text :=
  match s with
  | [] => None
  | c :: r => match strip_prefix (chars "fs=") s with Some _ => Some s | None => strstr_fs r end
  end.
Definition recover_gdbinfo (gdbinfo : text) : outcome (option gdb_exec) :=
  match sscanf gdbinfo "%d,%d,%d,%hhd,%d,%hhd,%d,%hhd,%hhd,%hhd,%hhd,%hhd,%hhd,%hhd,%hhd,%hhd,%hhd,fs=%d," with
  | [a; b; c; d; e; f; g; h; i; j; k; l; m; n; o; p; q; r] =>
      match strstr_fs gdbinfo with
      | None => Abort
      | Some s =>
          match find_char (Ascii.eqb comma) s 0 with
          | None => Abort
          | Some x =>
              match gdb_fds MAX_GDB_VFILE_OPEN_FD (drop (S x) s) with
              | None => Abort
              | Some fds => Ret (Some (mk_gdb a b c d e f g h i j k l m n o p q r fds))
              end
          end
      end
  | _ => Ret None
  end.

Section Recover.
  Context `{ExecHost}.

(** The variables are gone from the environment afterwards. *)
Definition exec_names : list text :=
  [KM_EXEC_VERS; KM_EXEC_VMFDS; KM_EXEC_EVENTFDS; KM_EXEC_GUESTFDS; KM_EXEC_PIDINFO; KM_EXEC_GDBINFO].
Definition unset_exec (env : list text) : list text := fold_left (fun env name => unsetenv name env) exec_names env.

(** [inl 0]: not started by an exec; [inl (-1)]: the state cannot be used; [inr]: the
    result is 1, with the state, the environment that is left and the descriptors
    that were closed. *)
Definition km_exec_recover_kmstate (env : list text) : outcome (Z + km_exec_state * list text * list Z) :=
  match getenv env KM_EXEC_VERS, getenv env KM_EXEC_VMFDS, getenv env KM_EXEC_EVENTFDS, getenv env KM_EXEC_GUESTFDS,
        getenv env KM_EXEC_PIDINFO with
  | Some vernum, Some vmfds, Some eventfds, Some guestfds, Some pidinfo =>
      match sscanf vernum "%d,%d,%d" with
      | [version; nfd; fork_count] =>
          if negb (version =? KM_EXEC_VERNUM) then Ret (inl (-1))
          else if MAX_OPEN_FILES - MAX_KM_FILES <? nfd then Ret (inl (-1))
          else
            match sscanf pidinfo "%d" with
            | [tracepid] =>
                match km_exec_get_vmfds vmfds with
                | Ret (Some (kvm, mach, vcpus)) =>
                    match sscanf eventfds "%d,%d" with
                    | [intr; shutdown] =>
                        match km_exec_restore_fd guestfds (mk_exec nfd ∅) with
                        | Ret (rc, files) =>
                            if negb (rc =? 0) then Ret (inl (-1))
                            else
                              match getenv env KM_EXEC_GDBINFO with
                              | None => Abort
                              | Some gdbinfo =>
                                  match recover_gdbinfo gdbinfo with
                                  | Ret (Some g) =>
                                      let x := mk_exec_state nfd fork_count tracepid kvm mach vcpus intr shutdown files g
                                                 (negb (g.(g_enabled) =? 0) && negb (g.(g_client_attached) =? 0)) in
                                      Ret (inr (x, unset_exec env, km_exec_vmclean x))
                                  | Ret None => Ret (inl (-1))
                                  | Abort => Abort
                                  | NoFuel => NoFuel
                                  end
                              end
                        | Abort => Abort
                        | NoFuel => NoFuel
                        end
                    | _ => Ret (inl (-1))
                    end
                | Ret None => Ret (inl (-1))
                | Abort => Abort
                | NoFuel => NoFuel
                end
            | _ => Ret (inl (-1))
            end
      | _ => Ret (inl (-1))
      end
  | None, None, None, None, None => Ret (inl 0)
  | _, _, _, _, _ => Abort
  end.
End Recover.
