(* ===== verification/ExecEnvProps.v ===== *)
(** * The monitor's state survives exec *)
From S2P Require Import Prelude FdTable Stdio ExecFd ExecProps ExecEnv.
From Stdlib Require Import Ascii.

(** ** Writing, without the buffers *)
Definition eq_char : ascii := "="%char.

Lemma snprintf_text n f args t : snprintf n f args = Some t -> t = asprintf f args.
Proof. unfold snprintf. by destruct (_ <? _)%nat; [|intros [= <-]]. Qed.

Lemma append_fds_text n f fds t : append_fds n f fds = Some t -> t = concat (map (fun fd => asprintf f [AInt fd]) fds).
Proof.
  revert n t. induction fds as [|fd fds IH]; intros n t; cbn [append_fds map concat]; [by intros [= <-]|].
  destruct (snprintf n f [AInt fd]) as [u|] eqn:E; [|done]. apply snprintf_text in E as ->.
  destruct (append_fds _ f fds) as [more|] eqn:E; [|done]. intros [= <-]. by rewrite (IH _ _ E).
Qed.

Lemma snprintf_fds_text n f args g fds t :
  snprintf_fds n f args g fds = Some t -> t = asprintf f args ++ concat (map (fun fd => asprintf g [AInt fd]) fds).
Proof.
  unfold snprintf_fds. destruct (snprintf n f args) as [u|] eqn:Eu; [|done]. apply snprintf_text in Eu as ->.
  destruct (append_fds _ g fds) as [v|] eqn:Ev; [|done]. apply append_fds_text in Ev as ->. by intros [= <-].
Qed.

(** ** Numbers separated by commas *)
Lemma scan_lit_end f c s : scan (f ++ [Lit c]) s = scan f s.
Proof.
  revert s. induction f as [|d f IH]; intros s; cbn [app scan].
  - destruct s as [|x r]; [done|]. by destruct (Ascii.eqb x c).
  - destruct d; try done; try (destruct s as [|x r]; [done|]; destruct (Ascii.eqb x c0); [apply IH|done]);
      (destruct (scan_number _ s) as [[z r]|]; [by rewrite IH|done]).
Qed.

Definition comma_numbers (fds : list Z) : text := concat (map (fun fd => comma :: print_dec fd) fds).

Lemma comma_numbers_stopped fds : stopped (comma_numbers fds).
Proof. by destruct fds. Qed.

Lemma atoi_print fd rest : is_int fd -> stopped rest -> atoi (print_dec fd ++ rest) = fd.
Proof. intros Hi Hr. unfold atoi. rewrite scan_number_dec by done. unfold is_int in Hi. rewrite strtol_small, int32_id by lia. done. Qed.

Lemma print_dec_nonempty z : print_dec z <> [].
Proof.
  unfold print_dec. destruct (Z.ltb_spec z 0); [done|]. destruct (print_digits_head 20 10 z []) as (d & r & _ & E); [lia|lia|lia|].
  unfold print_base. by rewrite E.
Qed.

Lemma tokens_word w cur rest :
  Forall (fun c => plain c = true) w -> tokens (w ++ rest) cur = tokens rest (rev w ++ cur).
Proof.
  intros Hw. revert cur. induction Hw as [|c w Hc Hw IH]; intros cur; [done|]. cbn [app tokens rev].
  apply plain_comma in Hc. rewrite Ascii.eqb_sym, Hc, IH. by rewrite <- app_assoc.
Qed.

Lemma tokens_comma_numbers fds cur :
  cur <> [] -> tokens (comma_numbers fds) cur = rev cur :: map print_dec fds.
Proof.
  revert cur. induction fds as [|fd fds IH]; intros cur Hc; unfold comma_numbers; cbn [map concat tokens app].
  - destruct (decide (cur = [])); done.
  - rewrite Ascii.eqb_refl. destruct (decide (cur = [])); [done|]. f_equal. rewrite tokens_word by apply print_dec_plain.
    rewrite app_nil_r. fold (comma_numbers fds). rewrite IH, rev_involutive; [done|].
    intros E. apply (print_dec_nonempty fd). rewrite <- (rev_involutive (print_dec fd)), E. done.
Qed.

Lemma tokens_numbers z fds : tokens (print_dec z ++ comma_numbers fds) [] = print_dec z :: map print_dec fds.
Proof.
  rewrite tokens_word by apply print_dec_plain. rewrite app_nil_r, tokens_comma_numbers, rev_involutive; [done|].
  intros E. apply (print_dec_nonempty z). rewrite <- (rev_involutive (print_dec z)), E. done.
Qed.

Lemma get_vmfds_ok kvm mach fds :
  is_int kvm -> is_int mach -> Forall (fun fd => 0 <= fd < 2 ^ 31) fds -> (length fds < KVM_MAX_VCPUS)%nat ->
  km_exec_get_vmfds (print_dec kvm ++ comma_numbers (mach :: fds)) = Ret (Some (kvm, mach, fds)).
Proof.
  intros Hk Hm Hf Hl. unfold km_exec_get_vmfds.
  assert (Hs : sscanf (print_dec kvm ++ comma_numbers (mach :: fds)) "%d,%d," = [kvm; mach]).
  { unfold sscanf. change (format "%d,%d,") with ([Dec; Lit comma; Dec] ++ [Lit comma]). rewrite scan_lit_end.
    replace (print_dec kvm ++ comma_numbers (mach :: fds)) with (print [Dec; Lit comma; Dec] (map AInt [kvm; mach]) ++ comma_numbers fds).
    - rewrite scan_print; [done|repeat split; apply comma_numbers_stopped|repeat split; apply Hk || apply Hm].
    - cbn [print map]. unfold comma_numbers. cbn [map concat]. rewrite app_nil_r, <- app_assoc. done. }
  rewrite Hs, tokens_numbers. cbn [map].
  assert (Ha : map atoi (map print_dec fds) = fds).
  { clear Hs Hl. induction Hf as [|fd fds Hfd Hf IH]; [done|]. cbn [map]. rewrite IH. f_equal.
    rewrite <- (app_nil_r (print_dec fd)). apply atoi_print; [unfold is_int; lia|done]. }
  rewrite Ha. replace (forallb (fun fd => 0 <=? fd) fds) with true.
  - by destruct (Nat.ltb_spec (length fds) KVM_MAX_VCPUS); [|lia].
  - symmetry. apply forallb_forall. intros fd Hfd. apply Z.leb_le. rewrite Forall_forall in Hf. apply Hf. by apply list_elem_of_In.
Qed.

(** ** The gdb stub *)
Definition gdb_ok (g : gdb_exec) : Prop :=
  is_int g.(g_port) /\ is_int g.(g_listen_socket_fd) /\ is_int g.(g_sock_fd) /\ is_int g.(g_wait_for_attach)
  /\ is_int g.(g_send_threadevents) /\ is_int g.(g_current_fs)
  /\ Forall (fun z => 0 <= z < 128)
       [g.(g_enabled); g.(g_client_attached); g.(g_multiprocess); g.(g_xmlregisters); g.(g_qRelocInsn); g.(g_swbreak); g.(g_hwbreak);
        g.(g_forkevents); g.(g_vforkevents); g.(g_execevents); g.(g_vcontsupported); g.(g_qthreadevents)]
  /\ Forall is_int g.(g_vfile_fds) /\ length g.(g_vfile_fds) = MAX_GDB_VFILE_OPEN_FD.

Definition numbers_comma (fds : list Z) : text := concat (map (fun fd => print_dec fd ++ [comma]) fds).

Lemma gdb_fds_ok fds : Forall is_int fds -> gdb_fds (length fds) (numbers_comma fds) = Some fds.
Proof.
  induction 1 as [|fd fds Hfd Hf IH]; [done|]. unfold numbers_comma. cbn [map concat length gdb_fds]. fold (numbers_comma fds).
  rewrite <- app_assoc. cbn [app]. rewrite find_char_app; [|eapply Forall_impl; [apply print_dec_plain|apply plain_comma]|apply Ascii.eqb_refl].
  cbn [Nat.add]. replace (drop (S (length (print_dec fd))) (print_dec fd ++ comma :: numbers_comma fds)) with (numbers_comma fds).
  - rewrite IH, atoi_print by done. done.
  - rewrite (cons_middle comma), app_assoc, drop_at; [done|]. rewrite length_app. cbn. lia.
Qed.

Definition not_f (c : ascii) : Prop := Ascii.eqb "f" c = false.

Lemma print_dec_not_f z : Forall not_f (print_dec z).
Proof.
  assert (Hd : forall fuel n s, Forall not_f s -> Forall not_f (print_digits fuel 10 n s)).
  { induction fuel as [|fuel IH]; intros n s Hs; [done|]. cbn [print_digits]. pose proof (Z.mod_pos_bound n 10 ltac:(lia)) as Hm.
    assert (Hx : not_f (digit (n mod 10))).
    { assert (Hc : forallb (fun k => negb (Ascii.eqb "f" (digit (Z.of_nat k)))) (seq 0 10) = true) by reflexivity.
      rewrite forallb_forall in Hc. specialize (Hc (Z.to_nat (n mod 10)) ltac:(apply in_seq; lia)). rewrite Z2Nat.id in Hc by lia.
      by apply negb_true_iff in Hc. }
    assert (Forall not_f (digit (n mod 10) :: s)) by by constructor. destruct (n <? 10); [done|by apply IH]. }
  unfold print_dec. destruct (z <? 0); [constructor; [done|]|]; by apply Hd.
Qed.

Lemma strstr_fs_spec a r : Forall not_f a -> strstr_fs (a ++ chars "fs=" ++ r) = Some (chars "fs=" ++ r).
Proof. induction 1 as [|c a Hc Ha IH]; [done|]. cbn [app strstr_fs]. cbn [chars String.list_ascii_of_string strip_prefix]. rewrite Hc. exact IH. Qed.

Definition gdb_format : list directive :=
  [Dec; Lit comma; Dec; Lit comma; Dec; Lit comma; Char8; Lit comma; Dec; Lit comma; Char8; Lit comma; Dec; Lit comma;
   Char8; Lit comma; Char8; Lit comma; Char8; Lit comma; Char8; Lit comma; Char8; Lit comma; Char8; Lit comma; Char8; Lit comma; Char8; Lit comma;
   Char8; Lit comma; Char8; Lit comma; Lit "f"; Lit "s"; Lit "="; Dec; Lit comma]%char.

Lemma gdb_format_eq : format "%d,%d,%d,%hhd,%d,%hhd,%d,%hhd,%hhd,%hhd,%hhd,%hhd,%hhd,%hhd,%hhd,%hhd,%hhd,fs=%d," = gdb_format.
Proof. reflexivity. Qed.

Lemma gdb_text g :
  asprintf "%s=%d,%d,%d,%d,%d,%d,%d,%d,%d,%d,%d,%d,%d,%d,%d,%d,%d,fs=%d," (AText KM_EXEC_GDBINFO :: map AInt (gdb_numbers g))
  = KM_EXEC_GDBINFO ++ eq_char :: print gdb_format (map AInt (gdb_numbers g)).
Proof.
  unfold asprintf. change (format "%s=%d,%d,%d,%d,%d,%d,%d,%d,%d,%d,%d,%d,%d,%d,%d,%d,%d,fs=%d,")
    with (Str :: Lit eq_char :: map (fun d => match d with Char8 => Dec | _ => d end) gdb_format).
  cbn [print map gdb_format gdb_numbers]. done.
Qed.

(** The text splits before "fs=". *)
Lemma gdb_split g :
  exists front, Forall not_f front
    /\ print gdb_format (map AInt (gdb_numbers g)) = front ++ chars "fs=" ++ print_dec g.(g_current_fs) ++ [comma].
Proof.
  exists (numbers_comma (take 17 (gdb_numbers g))). split.
  - unfold numbers_comma. induction (take 17 (gdb_numbers g)) as [|z zs IH]; [constructor|]. cbn [map concat].
    apply Forall_app. split; [|exact IH]. apply Forall_app. split; [apply print_dec_not_f|by repeat constructor].
  - unfold numbers_comma. cbn [gdb_numbers take map concat].
    unfold gdb_format. cbn [print]. repeat (rewrite <- app_assoc; cbn [app]). done.
Qed.

Lemma gdb_scanned g rest :
  gdb_ok g -> scan gdb_format (print gdb_format (map AInt (gdb_numbers g)) ++ rest) = gdb_numbers g.
Proof.
  intros (H1 & H2 & H3 & H4 & H5 & H6 & Hc & _). repeat (apply Forall_cons in Hc as [? Hc]). clear Hc. unfold is_int in *.
  rewrite scan_print; [by cbn|by repeat split|].
  unfold gdb_format. cbn [fits gdb_numbers]. split_and!; done || lia.
Qed.

Lemma recover_gdbinfo_ok g :
  gdb_ok g -> recover_gdbinfo (print gdb_format (map AInt (gdb_numbers g)) ++ numbers_comma g.(g_vfile_fds)) = Ret (Some g).
Proof.
  intros Hg. unfold recover_gdbinfo, sscanf. rewrite gdb_format_eq. rewrite gdb_scanned by done. cbv [gdb_numbers].
  destruct (gdb_split g) as (front & Hf & E). fold (gdb_numbers g). rewrite E. rewrite <- app_assoc. rewrite <- app_assoc.
  rewrite strstr_fs_spec by done. rewrite <- app_assoc. cbn [app].
  change (chars "fs=" ++ print_dec g.(g_current_fs) ++ comma :: numbers_comma g.(g_vfile_fds))
    with (("f"%char :: "s"%char :: eq_char :: print_dec g.(g_current_fs)) ++ comma :: numbers_comma g.(g_vfile_fds)).
  set (w := "f"%char :: "s"%char :: eq_char :: print_dec g.(g_current_fs)).
  rewrite find_char_app; [| |apply Ascii.eqb_refl].
  - cbn [Nat.add]. replace (drop (S (length w)) (w ++ comma :: numbers_comma g.(g_vfile_fds))) with (numbers_comma g.(g_vfile_fds)).
    + destruct Hg as (_ & _ & _ & _ & _ & _ & _ & Hi & Hl). rewrite <- Hl, gdb_fds_ok by done. by destruct g.
    + rewrite (cons_middle comma), app_assoc, drop_at; [done|]. rewrite length_app. cbn [length]. lia.
  - unfold w. repeat (constructor; [done|]). eapply Forall_impl; [apply print_dec_plain|apply plain_comma].
Qed.

(** ** The environment *)
Lemma getenv_app env vars name : getenv env name = None -> getenv (env ++ vars) name = getenv vars name.
Proof. induction env as [|v env IH]; cbn [app getenv]; [done|]. destruct (strip_prefix _ v); [done|exact IH]. Qed.

(** Each variable is found by its name. *)
Lemma getenv_six a b c d e f :
  let vars := [KM_EXEC_VERS ++ eq_char :: a; KM_EXEC_GUESTFDS ++ eq_char :: b; KM_EXEC_VMFDS ++ eq_char :: c;
               KM_EXEC_EVENTFDS ++ eq_char :: d; KM_EXEC_PIDINFO ++ eq_char :: e; KM_EXEC_GDBINFO ++ eq_char :: f] in
  getenv vars KM_EXEC_VERS = Some a /\ getenv vars KM_EXEC_GUESTFDS = Some b /\ getenv vars KM_EXEC_VMFDS = Some c
  /\ getenv vars KM_EXEC_EVENTFDS = Some d /\ getenv vars KM_EXEC_PIDINFO = Some e /\ getenv vars KM_EXEC_GDBINFO = Some f.
Proof. split_and!; reflexivity. Qed.

(** An environment without the six variables. *)
Definition clean_env (env : list text) : Prop := forall name, name ∈ exec_names -> getenv env name = None.

Lemma getenv_found env more name v : getenv env name = Some v -> getenv (env ++ more) name = Some v.
Proof. induction env as [|x env IH]; cbn [app getenv]; [done|]. destruct (strip_prefix _ x); [done|exact IH]. Qed.

Lemma getenv_added env a b c d e f more :
  clean_env env ->
  let vars := env ++ [KM_EXEC_VERS ++ eq_char :: a; KM_EXEC_GUESTFDS ++ eq_char :: b; KM_EXEC_VMFDS ++ eq_char :: c;
               KM_EXEC_EVENTFDS ++ eq_char :: d; KM_EXEC_PIDINFO ++ eq_char :: e; KM_EXEC_GDBINFO ++ eq_char :: f] ++ more in
  getenv vars KM_EXEC_VERS = Some a /\ getenv vars KM_EXEC_GUESTFDS = Some b /\ getenv vars KM_EXEC_VMFDS = Some c
  /\ getenv vars KM_EXEC_EVENTFDS = Some d /\ getenv vars KM_EXEC_PIDINFO = Some e /\ getenv vars KM_EXEC_GDBINFO = Some f.
Proof.
  intros Henv vars. assert (Hin : Forall (fun n => getenv env n = None) exec_names) by (apply Forall_forall; exact Henv).
  unfold exec_names in Hin. repeat (apply Forall_cons in Hin as [? Hin]). unfold vars. rewrite !(getenv_app env) by done.
  pose proof (getenv_six a b c d e f) as G. cbv zeta in G. destruct G as (? & ? & ? & ? & ? & ?).
  repeat (split; [by apply getenv_found|]). by apply getenv_found.
Qed.

Lemma unsetenv_none env name : getenv env name = None -> unsetenv name env = env.
Proof.
  unfold unsetenv. induction env as [|v env IH]; cbn [getenv]; [done|]. destruct (strip_prefix _ v) eqn:E; [done|]. intros Hn.
  rewrite filter_cons_True by done. by rewrite IH.
Qed.

Lemma unsetenv_app name a b : unsetenv name (a ++ b) = unsetenv name a ++ unsetenv name b.
Proof. apply filter_app. Qed.

Lemma unset_app names a b :
  fold_left (fun env name => unsetenv name env) names (a ++ b)
  = fold_left (fun env name => unsetenv name env) names a ++ fold_left (fun env name => unsetenv name env) names b.
Proof. revert a b. induction names as [|n names IH]; intros a b; [done|]. cbn [fold_left]. by rewrite unsetenv_app, IH. Qed.

Lemma unset_clean names env :
  (forall name, name ∈ names -> getenv env name = None) -> fold_left (fun env name => unsetenv name env) names env = env.
Proof.
  induction names as [|n names IH]; intros Hn; [done|]. cbn [fold_left]. rewrite unsetenv_none by (apply Hn; by left).
  apply IH. intros m Hm. apply Hn. by right.
Qed.

Lemma unset_six a b c d e f :
  unset_exec [KM_EXEC_VERS ++ eq_char :: a; KM_EXEC_GUESTFDS ++ eq_char :: b; KM_EXEC_VMFDS ++ eq_char :: c;
              KM_EXEC_EVENTFDS ++ eq_char :: d; KM_EXEC_PIDINFO ++ eq_char :: e; KM_EXEC_GDBINFO ++ eq_char :: f] = [].
Proof. reflexivity. Qed.

Lemma unset_added env a b c d e f more :
  clean_env env -> clean_env more ->
  unset_exec (env ++ [KM_EXEC_VERS ++ eq_char :: a; KM_EXEC_GUESTFDS ++ eq_char :: b; KM_EXEC_VMFDS ++ eq_char :: c;
               KM_EXEC_EVENTFDS ++ eq_char :: d; KM_EXEC_PIDINFO ++ eq_char :: e; KM_EXEC_GDBINFO ++ eq_char :: f] ++ more) = env ++ more.
Proof.
  intros He Hm. unfold unset_exec. rewrite !unset_app, (unset_clean _ env) by exact He. rewrite (unset_clean _ more) by exact Hm.
  pose proof (unset_six a b c d e f) as H6. unfold unset_exec in H6. by rewrite H6.
Qed.

Definition state_ok (s : km_state) : Prop :=
  0 <= s.(k_fork_count) < 2 ^ 31 /\ is_int s.(k_kvm_fd) /\ is_int s.(k_mach_fd) /\ is_int s.(k_intr_fd) /\ is_int s.(k_shutdown_fd) /\ is_int s.(k_trace_pid)
  /\ Forall (fun fd => 0 <= fd < 2 ^ 31) s.(k_vcpu_fds) /\ (length s.(k_vcpu_fds) < KVM_MAX_VCPUS)%nat /\ gdb_ok s.(k_gdb).

Lemma scan_one a : is_int a -> sscanf (print (format "%d") (map AInt [a])) "%d" = [a].
Proof.
  intros Ha. unfold sscanf. rewrite <- (app_nil_r (print _ _)). change (format "%d") with [Dec]. rewrite scan_print; [done|by repeat split|].
  by cbn [fits].
Qed.

Lemma scan_two a b : is_int a -> is_int b -> sscanf (print (format "%d,%d") (map AInt [a; b])) "%d,%d" = [a; b].
Proof.
  intros Ha Hb. unfold sscanf. rewrite <- (app_nil_r (print _ _)). change (format "%d,%d") with [Dec; Lit comma; Dec].
  rewrite scan_print; [done|by repeat split|]. by cbn [fits].
Qed.

Lemma scan_three a b c : is_int a -> is_int b -> is_int c -> sscanf (print (format "%d,%d,%d") (map AInt [a; b; c])) "%d,%d,%d" = [a; b; c].
Proof.
  intros Ha Hb Hc. unfold sscanf. rewrite <- (app_nil_r (print _ _)). change (format "%d,%d,%d") with [Dec; Lit comma; Dec; Lit comma; Dec].
  rewrite scan_print; [done|by repeat split|]. by cbn [fits].
Qed.

Section Roundtrip.
  Context `{ExecHost}.

Lemma vers_text n s t :
  km_exec_vers_var n s = Some t -> t = KM_EXEC_VERS ++ eq_char :: print (format "%d,%d,%d") (map AInt [KM_EXEC_VERNUM; n; int32 s.(k_fork_count)]).
Proof. intros ->%snprintf_text. done. Qed.

Lemma comma_numbers_text fds : concat (map (fun fd => asprintf ",%d" [AInt fd]) fds) = comma_numbers fds.
Proof.
  unfold comma_numbers. apply (f_equal (@concat ascii)), map_ext. intros fd. unfold asprintf. change (format ",%d") with [Lit comma; Dec].
  cbn [print]. by rewrite app_nil_r.
Qed.

Lemma vmfd_text s t :
  km_exec_vmfd_var s = Some t -> t = KM_EXEC_VMFDS ++ eq_char :: print_dec s.(k_kvm_fd) ++ comma_numbers (s.(k_mach_fd) :: s.(k_vcpu_fds)).
Proof.
  intros Et%snprintf_fds_text. rewrite Et, comma_numbers_text. unfold asprintf.
  change (format "%s=%d,%d") with [Str; Lit eq_char; Dec; Lit comma; Dec]. cbn [print].
  unfold comma_numbers. cbn [map concat]. rewrite app_nil_r. repeat (rewrite <- app_assoc; cbn [app]). done.
Qed.

Lemma eventfd_text s t :
  km_exec_eventfd_var s = Some t -> t = KM_EXEC_EVENTFDS ++ eq_char :: print (format "%d,%d") (map AInt [s.(k_intr_fd); s.(k_shutdown_fd)]).
Proof. intros ->%snprintf_text. done. Qed.

Lemma pidinfo_text s t :
  km_exec_pidinfo_var s = Some t -> t = KM_EXEC_PIDINFO ++ eq_char :: print (format "%d") (map AInt [s.(k_trace_pid)]).
Proof. intros ->%snprintf_text. done. Qed.

Lemma numbers_comma_text fds : concat (map (fun fd => asprintf "%d," [AInt fd]) fds) = numbers_comma fds.
Proof. unfold numbers_comma. apply (f_equal (@concat ascii)), map_ext. intros fd. unfold asprintf. by change (format "%d,") with [Dec; Lit comma]. Qed.

Lemma gdbinfo_text s t :
  km_exec_gdbinfo_var s = Some t ->
  t = KM_EXEC_GDBINFO ++ eq_char :: print gdb_format (map AInt (gdb_numbers s.(k_gdb))) ++ numbers_comma s.(k_gdb).(g_vfile_fds).
Proof.
  unfold km_exec_gdbinfo_var. intros Et%snprintf_fds_text. rewrite numbers_comma_text in Et.
  pose proof (gdb_text s.(k_gdb)) as Hg. revert Et Hg.
  generalize (asprintf "%s=%d,%d,%d,%d,%d,%d,%d,%d,%d,%d,%d,%d,%d,%d,%d,%d,%d,fs=%d," (AText KM_EXEC_GDBINFO :: map AInt (gdb_numbers s.(k_gdb)))).
  generalize (print gdb_format (map AInt (gdb_numbers s.(k_gdb)))), (numbers_comma s.(k_gdb).(g_vfile_fds)), KM_EXEC_GDBINFO.
  intros a b c d -> ->. by rewrite <- app_assoc.
Qed.

(** The program's environment [env], the six variables, and [more]. *)
Lemma recover_kmstate_ok fs s env vars more :
  exec_ok fs -> state_ok s -> 0 <= fs.(nfdmap) <= MAX_OPEN_FILES - MAX_KM_FILES -> exec_vars fs s = Some vars ->
  clean_env env -> clean_env more ->
  exists files, let x := mk_exec_state fs.(nfdmap) s.(k_fork_count) s.(k_trace_pid) s.(k_kvm_fd) s.(k_mach_fd) s.(k_vcpu_fds)
                  s.(k_intr_fd) s.(k_shutdown_fd) files s.(k_gdb)
                  (negb (s.(k_gdb).(g_enabled) =? 0) && negb (s.(k_gdb).(g_client_attached) =? 0)) in
  km_exec_recover_kmstate (env ++ vars ++ more) = Ret (inr (x, env ++ more, km_exec_vmclean x))
  /\ forall i, files.(guestfds) !! i = (if bool_decide (0 <= i < fs.(nfdmap) /\ kept fs i = true) then Some (restored i (file_at fs i)) else None).
Proof.
  intros Hfs (Hfc & Hk & Hm & Hin & Hsd & Htp & Hv & Hvl & Hg) Hn Hvars Henv Hmore.
  destruct (exec_fd_saved fs KM_EXEC_GUESTFDS Hfs) as (value & files & E1 & E2 & E3). exists files. intros x. split; [|exact E3]. unfold x. clear x.
  unfold exec_vars in Hvars. rewrite E1 in Hvars.
  destruct (km_exec_vers_var _ s) as [a|] eqn:Ea; [apply vers_text in Ea|done]. destruct (km_exec_vmfd_var s) as [b|] eqn:Eb; [apply vmfd_text in Eb|done].
  destruct (km_exec_eventfd_var s) as [c|] eqn:Ec; [apply eventfd_text in Ec|done]. destruct (km_exec_pidinfo_var s) as [d|] eqn:Ed; [apply pidinfo_text in Ed|done].
  destruct (km_exec_gdbinfo_var s) as [e|] eqn:Ee; [apply gdbinfo_text in Ee|done]. cbn [mbind option_bind] in Hvars.
  apply (f_equal (default [])) in Hvars. cbn [default from_option id] in Hvars. rewrite <- Hvars. clear Hvars.
  rewrite Ea, Eb, Ec, Ed, Ee. clear Ea Eb Ec Ed Ee.
  change (KM_EXEC_GUESTFDS ++ "="%char :: value) with (KM_EXEC_GUESTFDS ++ eq_char :: value).
  match goal with |- context [env ++ [?h1 ++ eq_char :: ?a1; _; ?h3 ++ eq_char :: ?a3; ?h4 ++ eq_char :: ?a4; ?h5 ++ eq_char :: ?a5; ?h6 ++ eq_char :: ?a6] ++ more] =>
    destruct (getenv_added env a1 value a3 a4 a5 a6 more Henv) as (G1 & G2 & G3 & G4 & G5 & G6);
    pose proof (unset_added env a1 value a3 a4 a5 a6 more Henv Hmore) as Hu end.
  cbv zeta in Hu. unfold km_exec_recover_kmstate. rewrite G1, G2, G3, G4, G5, G6, Hu. clear G1 G2 G3 G4 G5 G6 Hu.
  rewrite int32_id by lia. unfold is_int in *.
  rewrite scan_three, scan_one, scan_two by (unfold is_int, KM_EXEC_VERNUM, MAX_OPEN_FILES, MAX_KM_FILES in *; lia).
  rewrite Z.eqb_refl. cbn [negb]. destruct (Z.ltb_spec (MAX_OPEN_FILES - MAX_KM_FILES) fs.(nfdmap)); [lia|].
  rewrite get_vmfds_ok by done. rewrite E2. cbn [Z.eqb negb]. by rewrite recover_gdbinfo_ok.
Qed.
End Roundtrip.
