(* ===== verification/ExecArgs.v ===== *)
(** * The command line of an exec and the exec itself (km_exec.c, km_main.c, km_hcalls.c)

    The monitor starts itself again, so the command line it builds is its own name,
    then the guest program - or, when the file is a script, the interpreter its first
    line names - and the guest's arguments. *)
From S2P Require Import Prelude FdTable Stdio ExecFd ExecProps ExecEnv ExecEnvProps.
From Stdlib Require Import Ascii.

(** ** The first line of a script *)
Definition newline : ascii := ascii_of_nat 10.
Definition is_eol (c : ascii) : bool := Ascii.eqb c newline || Ascii.eqb c (ascii_of_nat 13).
Definition isblank (c : ascii) : bool := Ascii.eqb c " "%char || Ascii.eqb c (ascii_of_nat 9).

Definition SHEBANG : text := chars "#!".
Definition SHEBANG_LEN : nat := 2.
Definition SHEBANG_MAX_LINE_LEN : nat := 512.

(** What open and pread of the file give. *)
Inductive file_read := OpenFailed | ReadFailed | Contents (bytes : text).

(** The longest prefix on which [p] holds, and the rest. *)
Fixpoint span (p : ascii -> bool) (s : text) : text * text :=
  match s with
  | c :: r => if p c then let '(a, b) := span p r in (c :: a, b) else ([], s)
  | [] => ([], [])
  end.

(** The name of the interpreter and its argument; the end of the list is the NUL put
    after what was read.  The result of pread is compared as an unsigned number, so
    a failed read is not noticed and the NUL goes in front of the buffer. *)
Definition km_parse_shebang (file : file_read) : outcome (option (text * option text)) :=
  match file with
  | OpenFailed => Ret None
  | ReadFailed => Abort
  | Contents bytes =>
      let line_buf := take SHEBANG_MAX_LINE_LEN bytes in
      if (length line_buf <=? SHEBANG_LEN)%nat then Ret None
      else
        match strip_prefix SHEBANG line_buf with
        | None => Ret None
        | Some line =>
            let '(name, c) := span (fun x => negb (isblank x) && negb (is_eol x) && negb (Ascii.eqb x nul)) line in
            let c := match c with
                     | x :: r => if Ascii.eqb x nul then c else if is_eol x then c else (span isblank r).2
                     | [] => []
                     end in
            match c with
            | x :: _ =>
                if negb (is_eol x) && negb (Ascii.eqb x nul)
                then Ret (Some (name, Some (span (fun x => negb (Ascii.eqb x nul) && negb (is_eol x)) c).1))
                else Ret (Some (name, None))
            | [] => Ret (Some (name, None))
            end
        end
  end.

(** ** The argument vector *)

(** An array of pointers; a store outside it ends the monitor. *)
Definition calloc (n : nat) : list (option text) := replicate n None.
Definition store (i : nat) (v : option text) (a : list (option text)) : outcome (list (option text)) :=
  if (i <? length a)%nat then Ret (<[i := v]> a) else Abort.
Fixpoint store_all (i : nat) (vs : list (option text)) (a : list (option text)) : outcome (list (option text)) :=
  match vs with
  | [] => Ret a
  | v :: rest => match store i v a with Ret a => store_all (S i) rest a | Abort => Abort | NoFuel => NoFuel end
  end.
(** The arguments after the first; without a first one the size wraps around. *)
Definition memcpy_args (idx : nat) (argv : list (option text)) (a : list (option text)) : outcome (list (option text)) :=
  match argv with [] => Abort | _ :: rest => store_all idx rest a end.

Definition KM_VIRT_DEVICE : text := chars "--virt-device=".

Section Exec.
  Context `{ExecHost} (at_gva : Z -> option text) (read_file : text -> file_read) (km_get_self_name : text) (vdev_name : option text).

Definition km_exec_build_argv (filename : text) (argv : list Z) : outcome (list (option text)) :=
  let argc := length argv in
  let argv := map at_gva argv in
  match km_parse_shebang (read_file filename) with
  | Ret (Some (pl_name, extra_arg)) =>
      let (nargv, front) :=
        match extra_arg with
        | Some x => (calloc (1 + 2 + argc + 1), [Some pl_name; Some x; Some filename])
        | None => (calloc (1 + 1 + argc + 1), [Some pl_name; Some filename])
        end in
      match store_all 1 front nargv with
      | Ret nargv =>
          match memcpy_args (1 + length front) argv nargv with
          | Ret nargv => store 0 (Some km_get_self_name) nargv
          | other => other
          end
      | other => other
      end
  | Ret None =>
      let nargv := calloc (1 + argc + 1 + match vdev_name with Some _ => 1 | None => 0 end) in
      let front := Some km_get_self_name
                   :: match vdev_name with Some v => [Some (asprintf "%s%s" [AText KM_VIRT_DEVICE; AText v])] | None => [] end
                   ++ [Some filename] in
      match store_all 0 front nargv with
      | Ret nargv => memcpy_args (length front) argv nargv
      | other => other
      end
  | Abort => Abort
  | NoFuel => NoFuel
  end.

(** [inl]: the error; [inr]: the argument vector and the environment the monitor is
    started with.  [stat]: what stat of the file answers, 0 or a negative errno. *)
Definition do_exec (stat : text -> Z) (own : list text) (fs : km_filesys) (s : km_state) (filename : text) (argv envp : list Z) :
    outcome (Z + list (option text) * list text) :=
  if negb (stat filename =? 0) then Ret (inl (stat filename))
  else
    match km_exec_build_env at_gva own fs s envp with
    | None => Ret (inl (- ENOMEM))
    | Some newenv =>
        match km_exec_build_argv filename argv with
        | Ret newargv => Ret (inr (newargv, newenv))
        | Abort => Abort
        | NoFuel => NoFuel
        end
    end.

(** ** Arrays *)
Lemma store_all_spec vs i a :
  (i + length vs <= length a)%nat -> store_all i vs a = Ret (take i a ++ vs ++ drop (i + length vs) a).
Proof.
  revert i a. induction vs as [|v vs IH]; intros i a Hl; cbn [store_all length app] in *.
  - by rewrite Nat.add_0_r, take_drop.
  - unfold store. destruct (Nat.ltb_spec i (length a)); [|lia]. rewrite IH by (rewrite length_insert; lia).
    rewrite (take_S_r _ i v) by (by rewrite list_lookup_insert_eq).
    rewrite take_insert_ge, drop_insert_lt by lia. rewrite <- app_assoc. cbn [app]. by rewrite Nat.add_succ_r.
Qed.

Lemma store_all_app vs ws i a :
  store_all i (vs ++ ws) a
  = match store_all i vs a with Ret a => store_all (i + length vs) ws a | Abort => Abort | NoFuel => NoFuel end.
Proof.
  revert i a. induction vs as [|v vs IH]; intros i a; cbn [app store_all length]; [by rewrite Nat.add_0_r|].
  destruct (store i v a); [|done|done]. rewrite IH, Nat.add_succ_r. done.
Qed.

(** An array filled from its start, its last cell left NULL. *)
Lemma store_all_calloc vs n : n = S (length vs) -> store_all 0 vs (calloc n) = Ret (vs ++ [None]).
Proof.
  intros ->. rewrite store_all_spec by (unfold calloc; rewrite length_replicate; lia). unfold calloc. cbn [take app Nat.add].
  rewrite drop_replicate. by replace (S (length vs) - length vs)%nat with 1%nat by lia.
Qed.
Lemma store_first_last v vs n :
  n = S (S (length vs)) ->
  match store_all 1 vs (calloc n) with Ret a => store 0 v a | Abort => Abort | NoFuel => NoFuel end = Ret (v :: vs ++ [None]).
Proof.
  intros ->. rewrite store_all_spec by (unfold calloc; rewrite length_replicate; lia). unfold calloc. cbn [take app Nat.add replicate drop].
  change (None :: replicate (length vs) None) with (replicate (S (length vs)) (@None text)).
  rewrite drop_replicate. by replace (S (length vs) - length vs)%nat with 1%nat by lia.
Qed.

(** ** The command line *)

(** What comes before the guest's own arguments. *)
Definition command (filename : text) (script : option (text * option text)) : list text :=
  match script with
  | Some (name, extra) => [km_get_self_name; name] ++ option_list extra ++ [filename]
  | None => [km_get_self_name] ++ option_list ((fun v => KM_VIRT_DEVICE ++ v) <$> vdev_name) ++ [filename]
  end.

Lemma command_stored filename script argv argc :
  argc = length argv -> argv <> [] -> km_parse_shebang (read_file filename) = Ret script ->
  km_exec_build_argv filename argv = Ret (map Some (command filename script) ++ map at_gva (tail argv) ++ [None]).
Proof.
  intros -> Hne Hs. unfold km_exec_build_argv. rewrite Hs. destruct argv as [|a0 argv]; [done|]. cbn [map length tail memcpy_args].
  destruct script as [[name [x|]]|].
  - pose proof (store_first_last (Some km_get_self_name) ([Some name; Some x; Some filename] ++ map at_gva argv) (1 + 2 + S (length argv) + 1)) as Hst.
    rewrite store_all_app in Hst. cbn [length app] in Hst |- *. rewrite length_map in Hst. refine (eq_trans _ (Hst _)); [|lia].
    by destruct (store_all 1 _ _) as [a| |]; [destruct (store_all _ _ a)| |].
  - pose proof (store_first_last (Some km_get_self_name) ([Some name; Some filename] ++ map at_gva argv) (1 + 1 + S (length argv) + 1)) as Hst.
    rewrite store_all_app in Hst. cbn [length app] in Hst |- *. rewrite length_map in Hst. refine (eq_trans _ (Hst _)); [|lia].
    by destruct (store_all 1 _ _) as [a| |]; [destruct (store_all _ _ a)| |].
  - set (front := _ :: _ ++ _). assert (Hf : front = map Some (command filename None)).
    { unfold front, command. destruct vdev_name as [v|]; [|done]. unfold asprintf. change (format "%s%s") with [Str; Str]. cbn [print].
      rewrite app_nil_r. done. }
    pose proof (store_all_calloc (front ++ map at_gva argv) (1 + S (length argv) + 1 + match vdev_name with Some _ => 1 | None => 0 end)) as Hst.
    rewrite store_all_app, length_app, length_map, <- app_assoc in Hst. rewrite <- Hf. refine (eq_trans _ (Hst _)); [|unfold front; destruct vdev_name; cbn; lia].
    done.
Qed.

Lemma debug_clean own : clean_env (debug_var own KM_GDB_CHILD_FORK_WAIT ++ debug_var own KM_VERBOSE).
Proof.
  intros name Hin. unfold debug_var, asprintf. change (format "%s=%s") with [Str; Lit eq_char; Str]. cbn [print].
  unfold exec_names in Hin. destruct (getenv own KM_GDB_CHILD_FORK_WAIT), (getenv own KM_VERBOSE);
    repeat (apply elem_of_cons in Hin as [->|Hin]; [reflexivity|]); by apply not_elem_of_nil in Hin.
Qed.

(** C18. An exec hands the monitor's state over: the new instance is started with its own
    name, the program - or the interpreter of the script with its argument and the script -
    and the guest's remaining arguments; and what it reads from its environment is the state
    the old one had: the size of the descriptor table, the fork count, the descriptors of
    the virtual machine (which it closes), the trace setting, the gdb stub, and of the
    guest's descriptors exactly those that stay open, with the fields [restored] names; the
    events of an epoll descriptor and the groups of dups are not among them and are lost.
    What is left of the environment is the guest's own and the debugging variables.
    Conditions: no open eventfd without close-on-exec (the exec of such a guest fails,
    [exec_eventfd_fails]) and a host that answers about each descriptor that stays open
    ([exec_ok]); numbers within their C types and fewer than 288 vcpus ([state_ok]); the
    state fits the variables' buffers ([exec_vars]); the file exists and, if it is a script,
    its first line is parsed; there is an argument 0; the environment is readable and uses
    none of the reserved names. *)
Theorem exec_state_roundtrip stat own fs s filename script argv envp user vars :
  exec_ok fs -> state_ok s -> 0 <= fs.(nfdmap) <= MAX_OPEN_FILES - MAX_KM_FILES -> exec_vars fs s = Some vars ->
  stat filename = 0 -> argv <> [] -> km_parse_shebang (read_file filename) = Ret script ->
  mapM at_gva envp = Some user -> clean_env user ->
  exists newenv files,
    let x := mk_exec_state fs.(nfdmap) s.(k_fork_count) s.(k_trace_pid) s.(k_kvm_fd) s.(k_mach_fd) s.(k_vcpu_fds)
               s.(k_intr_fd) s.(k_shutdown_fd) files s.(k_gdb)
               (negb (s.(k_gdb).(g_enabled) =? 0) && negb (s.(k_gdb).(g_client_attached) =? 0)) in
    do_exec stat own fs s filename argv envp
      = Ret (inr (map Some (command filename script) ++ map at_gva (tail argv) ++ [None], newenv))
    /\ km_exec_recover_kmstate newenv
         = Ret (inr (x, user ++ debug_var own KM_GDB_CHILD_FORK_WAIT ++ debug_var own KM_VERBOSE, km_exec_vmclean x))
    /\ forall i, files.(guestfds) !! i = (if bool_decide (0 <= i < fs.(nfdmap) /\ kept fs i = true) then Some (restored i (file_at fs i)) else None).
Proof.
  intros Hfs Hs Hn Hv Hst Ha Hp Hu Hc.
  destruct (recover_kmstate_ok fs s user vars (debug_var own KM_GDB_CHILD_FORK_WAIT ++ debug_var own KM_VERBOSE)) as (files & Hr & Hf);
    [done..|apply debug_clean|].
  exists (user ++ vars ++ debug_var own KM_GDB_CHILD_FORK_WAIT ++ debug_var own KM_VERBOSE), files. cbv zeta. split_and!; [|exact Hr|exact Hf].
  unfold do_exec, km_exec_build_env. rewrite Hst, Hu, Hv. cbn [mbind option_bind Z.eqb negb]. by rewrite (command_stored filename script argv _ eq_refl Ha Hp).
Qed.
End Exec.

(** ** Scripts *)
Definition name_char (c : ascii) : bool := negb (isblank c) && negb (is_eol c) && negb (Ascii.eqb c nul).
Definition arg_char (c : ascii) : bool := negb (Ascii.eqb c nul) && negb (is_eol c).

Lemma span_app p a c r : Forall (fun x => p x = true) a -> p c = false -> span p (a ++ c :: r) = (a, c :: r).
Proof. induction 1 as [|x a Hx Ha IH]; intros Hc; cbn [app span]; [by rewrite Hc|]. by rewrite Hx, IH. Qed.

Lemma strip_prefix_app name s : strip_prefix name (name ++ s) = Some s.
Proof. induction name as [|c name IH]; [done|]. cbn [app strip_prefix]. by rewrite Ascii.eqb_refl. Qed.

Lemma isblank_not_eol c : isblank c = true -> is_eol c = false /\ Ascii.eqb c nul = false.
Proof. unfold isblank. intros [->%Ascii.eqb_eq| ->%Ascii.eqb_eq]%orb_prop; done. Qed.
Lemma is_eol_not_blank c : is_eol c = true -> isblank c = false /\ Ascii.eqb c nul = false.
Proof. unfold is_eol. intros [->%Ascii.eqb_eq| ->%Ascii.eqb_eq]%orb_prop; done. Qed.

(** The line as the buffer holds it. *)
Lemma shebang_line name blanks arg eol rest :
  Forall (fun c => name_char c = true) name -> Forall (fun c => isblank c = true) blanks -> Forall (fun c => arg_char c = true) arg ->
  (match arg with c :: _ => isblank c = false /\ blanks <> [] | [] => True end) -> is_eol eol = true ->
  (length (SHEBANG ++ name ++ blanks ++ arg) < SHEBANG_MAX_LINE_LEN)%nat ->
  km_parse_shebang (Contents (SHEBANG ++ name ++ blanks ++ arg ++ eol :: rest))
  = Ret (Some (name, match arg with [] => None | _ => Some arg end)).
Proof.
  intros Hn Hb Ha Hab He Hl. destruct (is_eol_not_blank eol He) as [He1 He2]. unfold km_parse_shebang.
  replace (SHEBANG ++ name ++ blanks ++ arg ++ eol :: rest) with ((SHEBANG ++ name ++ blanks ++ arg) ++ eol :: rest) by (by rewrite !app_assoc).
  rewrite take_app_ge by lia. set (more := take _ (eol :: rest)).
  assert (Hm : exists rest', more = eol :: rest').
  { unfold more. destruct (SHEBANG_MAX_LINE_LEN - _)%nat eqn:E; [lia|]. by eexists. }
  destruct Hm as [rest' ->]. rewrite <- !app_assoc.
  assert (Hlen : (length (SHEBANG ++ name ++ blanks ++ arg ++ eol :: rest') <=? SHEBANG_LEN)%nat = false).
  { apply Nat.leb_gt. rewrite !length_app. cbn [length]. unfold SHEBANG_LEN. change (length SHEBANG) with 2%nat. lia. }
  rewrite Hlen, strip_prefix_app. clear Hlen Hl.
  destruct blanks as [|b blanks].
  - destruct arg as [|a arg]; [|by destruct Hab]. cbn [app]. rewrite span_app; [|exact Hn|by rewrite He1, He].
    rewrite He2, He. rewrite He. done.
  - apply Forall_cons in Hb as [Hb1 Hb]. destruct (isblank_not_eol b Hb1) as [Hb2 Hb3]. cbn [app].
    rewrite span_app; [|exact Hn|by rewrite Hb1]. rewrite Hb3, Hb2. destruct arg as [|a arg]; cbn [app].
    + rewrite span_app by done. cbn [snd]. by rewrite He.
    + destruct Hab as [Hab _]. rewrite span_app by done. cbn [snd]. apply Forall_cons in Ha as [Ha1 Ha]. assert (Ha1' := Ha1).
      apply andb_true_iff in Ha1 as [Ha2 Ha3]. rewrite Ha2, Ha3. cbn [andb].
      change (a :: arg ++ eol :: rest') with ((a :: arg) ++ eol :: rest'). rewrite span_app; [done|by constructor|by rewrite He, andb_false_r].
Qed.

(** A script is run by the interpreter its first line names: the new command line
    is the monitor, the interpreter, the one argument of the line if there is one,
    the script and the guest's remaining arguments; the vector is NULL terminated
    and every store is inside it. *)
Theorem exec_script_command at_gva read_file self vdev filename argv name blanks arg eol rest :
  read_file filename = Contents (SHEBANG ++ name ++ blanks ++ arg ++ eol :: rest) ->
  Forall (fun c => name_char c = true) name -> Forall (fun c => isblank c = true) blanks -> Forall (fun c => arg_char c = true) arg ->
  (match arg with c :: _ => isblank c = false /\ blanks <> [] | [] => True end) -> is_eol eol = true ->
  (length (SHEBANG ++ name ++ blanks ++ arg) < SHEBANG_MAX_LINE_LEN)%nat -> argv <> [] ->
  km_exec_build_argv at_gva read_file self vdev filename argv
  = Ret (map Some ([self; name] ++ (match arg with [] => [] | _ => [arg] end) ++ [filename]) ++ map at_gva (tail argv) ++ [None]).
Proof.
  intros Hr Hn Hb Ha Hab He Hl Hne. rewrite (command_stored _ _ _ _ filename (Some (name, match arg with [] => None | _ => Some arg end)) argv _ eq_refl Hne).
  - by destruct arg.
  - rewrite Hr. by apply shebang_line.
Qed.
