(* ===== verification/ExecWitness.v ===== *)
(** * Instances of the exec theorems

    A table with a log file, one end of a pipe, a listening socket and an epoll-like
    descriptor with one event, carried across an exec; and one whose last
    descriptor is an eventfd. *)
From S2P Require Import Prelude FdTable Stdio ExecFd ExecProps ExecEnv ExecEnvProps ExecArgs.
From Stdlib Require Import Ascii.

(** A host on which descriptor 4 is a fifo and descriptor 6 is closed by the exec. *)
Definition host : ExecHost := {|
  h_getfd := fun fd => if fd =? 6 then FD_CLOEXEC else 0;
  h_fifo := fun fd => Some (fd =? 4);
  h_sockopt := fun _ opt => Some (if opt =? SO_TYPE then 1 else if opt =? SO_DOMAIN then 2 else 6);
  h_link := fun fd => Some (if fd =? 1 then "/dev/pts/0"%string else "/tmp/log"%string);
|}.

Definition ex_log : km_file := mk_file true KM_FILE_HOW_OPEN 1025 0 None (-1) (Some "/tmp/log"%string) None [].
Definition ex_pipe : km_file := mk_file true KM_FILE_HOW_PIPE_0 0 0 None 7 None None [].
Definition ex_socket : km_file :=
  mk_file true KM_FILE_HOW_SOCKET 0 0 None (-1) None (Some (mk_socket KM_SOCK_STATE_LISTEN 16 2 1 6 4 [2; 0; 31; 144])) [].
Definition ex_events : km_file :=
  mk_file true KM_FILE_HOW_EVENTFD 0 0 None (-1) None None [mk_fs_event 5 (mk_event 1 77)].
Definition ex_eventfd : km_file := mk_file true KM_FILE_HOW_EVENTFD 2048 0 None (-1) None None [].

Definition ex_fs (last : km_file) : km_filesys :=
  mk_fs 9 (list_to_map [(1, ex_log); (4, ex_pipe); (5, ex_socket); (6, ex_log); (8, last)]) [] false 0 0 [] false [].

Definition ex_state : km_state :=
  mk_state 2 20 21 [22; 23] 24 25 0 (mk_gdb 2159 30 31 1 0 1 0 1 1 0 1 1 0 0 0 1 0 (-1) (replicate 32 (-1))).

Lemma is_int_small z : -1 <= z <= 5000 -> is_int z.
Proof. unfold is_int. lia. Qed.

Lemma ex_log_ok i : 0 <= i <= 9 -> saved_ok (H := host) i ex_log.
Proof. intros Hi. repeat split; try (apply is_int_small; cbn; lia). by eexists. Qed.
Lemma ex_pipe_ok i : 0 <= i <= 9 -> saved_ok (H := host) i ex_pipe.
Proof. intros Hi. repeat split; try (apply is_int_small; cbn; lia). by eexists. Qed.
Lemma ex_socket_ok i : 0 <= i <= 9 -> saved_ok (H := host) i ex_socket.
Proof.
  intros Hi. repeat split; try (apply is_int_small; cbn; lia); try (by eexists).
  - cbn. lia.
  - cbn. lia.
  - repeat constructor; lia.
Qed.
Lemma ex_events_ok i : 0 <= i <= 9 -> saved_ok (H := host) i ex_events.
Proof.
  intros Hi. do 4 (split; [first [done | apply is_int_small; cbn; lia]|]). split; [done|]. constructor; [|constructor].
  split; [apply is_int_small; cbn; lia|]. cbn. lia.
Qed.

Lemma ex_fs_kept last i : 0 <= i < 8 -> kept (H := host) (ex_fs last) i = true -> saved_ok (H := host) i (file_at (ex_fs last) i).
Proof.
  intros Hi. assert (i = 0 \/ i = 1 \/ i = 2 \/ i = 3 \/ i = 4 \/ i = 5 \/ i = 6 \/ i = 7) as Hc by lia.
  destruct Hc as [->|[->|[->|[->|[->|[->|[->| ->]]]]]]]; try (by intros Hk; vm_compute in Hk).
  - intros _. change (saved_ok (H := host) 1 ex_log). by apply ex_log_ok.
  - intros _. change (saved_ok (H := host) 4 ex_pipe). by apply ex_pipe_ok.
  - intros _. change (saved_ok (H := host) 5 ex_socket). by apply ex_socket_ok.
Qed.

Lemma ex_fs_ok : exec_ok (H := host) (ex_fs ex_events).
Proof.
  split; [cbn; lia|]. intros i Hi Hk. cbn in Hi. destruct (decide (i = 8)) as [->|Hn].
  - change (saved_ok (H := host) 8 ex_events). by apply ex_events_ok.
  - apply ex_fs_kept; [lia|done].
Qed.

Lemma ex_state_ok : state_ok ex_state.
Proof.
  unfold state_ok, gdb_ok. cbn [ex_state k_fork_count k_kvm_fd k_mach_fd k_vcpu_fds k_intr_fd k_shutdown_fd k_trace_pid k_gdb].
  repeat split; try (apply is_int_small; cbn; lia); repeat constructor; cbn; try lia; try (apply is_int_small; lia).
Qed.

(** Guest memory as a table of strings: arguments from 16, environment from 32; the
    file is a script. *)
Definition ex_gva (a : Z) : option text :=
  if a =? 16 then Some (chars "run") else if a =? 17 then Some (chars "-v") else if a =? 32 then Some (chars "PATH=/bin")
  else if a =? 33 then Some (chars "KM_EXEC=1") else None.
Definition ex_script : text := chars "/bin/sh -x" ++ [newline] ++ chars "echo".
Definition ex_read (name : text) : file_read := Contents (SHEBANG ++ ex_script).
Definition ex_self : text := chars "/opt/km".
Definition ex_file : text := chars "/run.sh".
Definition ex_own : list text := [chars "KM_VERBOSE=exec"].

(** The round trip applies to this table, state, script and environment; the
    listening socket comes back with its state, backlog and address. *)
Lemma exec_state_roundtrip_witness :
  exists newargv newenv st, do_exec (H := host) ex_gva ex_read ex_self None (fun _ => 0) ex_own (ex_fs ex_events) ex_state ex_file [16; 17] [32; 33]
    = Ret (inr (newargv, newenv))
  /\ newargv = map Some [ex_self; chars "/bin/sh"; chars "-x"; ex_file; chars "-v"] ++ [None]
  /\ km_exec_recover_kmstate (H := host) newenv
     = Ret (inr (st, [chars "PATH=/bin"; chars "KM_EXEC=1"; chars "KM_VERBOSE=exec"], [24; 25; 22; 23; 21; 20]))
  /\ st.(x_files).(guestfds) !! 6 = None
  /\ (sockinfo <$> st.(x_files).(guestfds) !! 5) = Some (Some (mk_socket KM_SOCK_STATE_LISTEN 16 2 1 6 4 [2; 0; 31; 144])).
Proof.
  destruct (exec_vars (H := host) (ex_fs ex_events) ex_state) as [vars|] eqn:E; [|by vm_compute in E].
  destruct (exec_state_roundtrip (H := host) ex_gva ex_read ex_self None (fun _ => 0) ex_own (ex_fs ex_events) ex_state ex_file
              (Some (chars "/bin/sh", Some (chars "-x"))) [16; 17] [32; 33] [chars "PATH=/bin"; chars "KM_EXEC=1"] vars)
    as (newenv & files & Hd & Hr & Hf).
  - apply ex_fs_ok.
  - apply ex_state_ok.
  - by split; vm_compute.
  - exact E.
  - done.
  - done.
  - vm_compute. reflexivity.
  - reflexivity.
  - intros name Hn. unfold exec_names in Hn. repeat (apply elem_of_cons in Hn as [->|Hn]; [vm_compute; reflexivity|]). by apply not_elem_of_nil in Hn.
  - eexists _, newenv, _. split; [exact Hd|]. split; [reflexivity|]. split; [exact Hr|]. cbn [x_files]. rewrite !Hf.
    split; [rewrite bool_decide_eq_false_2; [done|by intros [_ ?]]|].
    rewrite bool_decide_eq_true_2 by (split; [cbn; lia|done]). vm_compute. reflexivity.
Defined.

Lemma exec_script_command_witness :
  km_exec_build_argv ex_gva ex_read ex_self None ex_file [16; 17]
  = Ret (map Some [ex_self; chars "/bin/sh"; chars "-x"; ex_file; chars "-v"] ++ [None]).
Proof.
  apply (exec_script_command ex_gva ex_read ex_self None ex_file [16; 17] (chars "/bin/sh") (chars " ") (chars "-x") newline (chars "echo"));
    try done; try (by repeat constructor).
Defined.

(** The usual space after the two characters makes the interpreter the argument and
    leaves its name empty. *)
Lemma shebang_space_loses_name :
  km_parse_shebang (Contents (chars "#! /bin/sh" ++ [newline])) = Ret (Some ([], Some (chars "/bin/sh"))).
Proof. reflexivity. Qed.

(** A file that opens but cannot be read, as a directory, ends the monitor; so does an
    empty argument vector. *)
Lemma exec_directory_aborts filename argv :
  km_exec_build_argv ex_gva (fun _ => ReadFailed) ex_self None filename argv = Abort.
Proof. reflexivity. Qed.
Lemma exec_no_arguments_aborts filename :
  km_exec_build_argv ex_gva ex_read ex_self None filename [] = Abort.
Proof. reflexivity. Qed.

(** With an eventfd in the last place the exec fails. *)
Lemma exec_eventfd_fails_witness :
  exists value st, km_exec_save_fd (H := host) (ex_fs ex_eventfd) KM_EXEC_GUESTFDS = Some (KM_EXEC_GUESTFDS ++ ("="%char :: value))
  /\ km_exec_restore_fd (H := host) value (mk_exec 9 ∅) = Ret (-1, st).
Proof.
  apply (exec_eventfd_fails (H := host) (ex_fs ex_eventfd) KM_EXEC_GUESTFDS 8); try done; try (cbn; lia).
  intros j Hj. by apply ex_fs_kept.
Defined.
