(* ===== verification/GdbPacket.v ===== *)
(** * The packet layer of the gdb stub (km_gdb_stub.c)

    A packet is $data#cc with a checksum of two hexadecimal digits; the receiver
    answers + or -.  Binary replies escape the characters that have a meaning.  The
    input is what the debugger has sent, up to the end of the connection; the output
    is what was sent to it. *)
From S2P Require Import Prelude Stdio.
From Stdlib Require Import Ascii.

Definition BUFMAX : Z := 16 * 1024.
Definition u8 (x : Z) : Z := x mod 256.
Definition dollar : ascii := "$"%char.
Definition hash : ascii := "#"%char.
Definition plus : ascii := "+"%char.
Definition colon : ascii := ":"%char.
Definition GDB_INTERRUPT_PKT : Z := 3.
Definition isprint (c : ascii) : bool := (32 <=? code c) && (code c <=? 126).

(** ** Hexadecimal *)
Definition hex (ch : ascii) : Z := digit_value ch.

Fixpoint mem2hex (mem : list Z) : text :=
  match mem with
  | [] => []
  | ch :: rest => digit (Z.shiftr ch 4) :: digit (ch mod 16) :: mem2hex rest
  end.

(** [count] bytes; [None] when the text is too short, which the code asserts. *)
Fixpoint hex2mem_loop (buf : text) (count : nat) {struct count} : list Z :=
  match count, buf with
  | S n, h :: l :: rest => u8 (u8 (Z.shiftl (hex h) 4) + hex l) :: hex2mem_loop rest n
  | _, _ => []
  end.
Definition hex2mem (buf : text) (count : nat) : option (list Z) :=
  if (2 * count <=? length buf)%nat then Some (hex2mem_loop buf count) else None.

(** ** The connection *)
Record conn := mk_conn {
  c_input : text;
  c_output : text;
  in_buffer : Z -> ascii;
  c_detached : bool
}.

Definition checksum (buffer : text) : Z := fold_left (fun sum c => u8 (sum + code c)) buffer 0.

Section Packets.
  (** Whether the next send succeeds, given what was sent. *)
  Context (send_ok : text -> bool).

Definition sent (t : text) (s : conn) : conn := mk_conn s.(c_input) (s.(c_output) ++ t) s.(in_buffer) s.(c_detached).
Definition buffer_set (i : Z) (c : ascii) (s : conn) : conn :=
  mk_conn s.(c_input) s.(c_output) (fun j => if j =? i then c else s.(in_buffer) j) s.(c_detached).

(** Result false: the send failed. *)
Definition send_char (ch : ascii) : M conn bool :=
  let* s := get in
  if send_ok s.(c_output) then modify (sent [ch]) ;;; ret true else ret false.
Definition send_text (t : text) : M conn unit :=
  let* s := get in
  if send_ok s.(c_output) then modify (sent t) else ret tt.

(** [None]: the connection is gone and the debugger detached. *)
Definition recv_char : M conn (option ascii) :=
  let* s := get in
  match s.(c_input) with
  | [] => modify (fun s => mk_conn [] s.(c_output) s.(in_buffer) true) ;;; ret None
  | ch :: rest =>
      modify (fun s => mk_conn rest s.(c_output) s.(in_buffer) s.(c_detached)) ;;;
      km_assert (isprint ch || (code ch =? GDB_INTERRUPT_PKT)) ;;;
      ret (Some ch)
  end.

(** Everything up to the start character is ignored; false at the end. *)
Fixpoint wait_start (fuel : nat) : M conn bool :=
  match fuel with
  | O => fun _ => NoFuel
  | S fuel' =>
      let* ch := recv_char in
      match ch with
      | None => ret false
      | Some ch => if Ascii.eqb ch dollar then ret true else wait_start fuel'
      end
  end.

(** The data into the buffer; a new start character starts again.  The result is
    the length and the checksum; the length is BUFMAX - 1 when it does not fit;
    [None] at the end of the connection. *)
Fixpoint fill (fuel : nat) (count sum : Z) : M conn (option (Z * Z)) :=
  match fuel with
  | O => fun _ => NoFuel
  | S fuel' =>
      if count <? BUFMAX - 1 then
        let* ch := recv_char in
        match ch with
        | None => ret None
        | Some ch =>
            if Ascii.eqb ch dollar then fill fuel' 0 0
            else if Ascii.eqb ch hash then ret (Some (count, sum))
            else modify (buffer_set count ch) ;;; fill fuel' (count + 1) (u8 (sum + code ch))
        end
      else ret (Some (count, sum))
  end.

(** The C string at offset [i] of the buffer. *)
Fixpoint cstring (fuel : nat) (buf : Z -> ascii) (i : Z) : text :=
  match fuel with
  | O => []
  | S fuel' => if Ascii.eqb (buf i) nul then [] else buf i :: cstring fuel' buf (i + 1)
  end.

(** [None] is the NULL result.  The digits of the checksum are not tested. *)
Fixpoint recv_packet_loop (fuel : nat) : M conn (option text) :=
  match fuel with
  | O => fun _ => NoFuel
  | S fuel' =>
      let* start := wait_start fuel in
      if negb start then ret None
      else
        let* data := fill fuel 0 0 in
        match data with
        | None => ret None
        | Some (count, sum) =>
            if count =? BUFMAX - 1 then ret None
            else
              modify (buffer_set count nul) ;;;
              let* h := recv_char in
              match h with
              | None => ret None
              | Some h =>
                  let* l := recv_char in
                  match l with
                  | None => ret None
                  | Some l =>
                      if negb (sum =? u8 (u8 (Z.shiftl (hex h) 4) + hex l)) then
                        let* ok := send_char "-"%char in
                        if ok then recv_packet_loop fuel' else ret None
                      else
                        let* ok := send_char plus in
                        km_assert ok ;;;
                        let* s := get in
                        if Ascii.eqb (s.(in_buffer) 2) colon then
                          send_char (s.(in_buffer) 0) ;;;
                          send_char (s.(in_buffer) 1) ;;;
                          ret (Some (cstring (Z.to_nat BUFMAX) s.(in_buffer) 3))
                        else ret (Some (cstring (Z.to_nat BUFMAX) s.(in_buffer) 0))
                  end
              end
        end
  end.
Definition recv_packet : M conn (option text) :=
  let* s := get in recv_packet_loop (S (length s.(c_input))).

Definition send_packet_no_ack (buffer : text) : M conn unit :=
  send_char dollar ;;;
  send_text buffer ;;;
  send_char hash ;;;
  send_char (digit (Z.shiftr (checksum buffer) 4)) ;;;
  send_char (digit (checksum buffer mod 16)) ;;;
  ret tt.

Fixpoint send_packet_loop (fuel : nat) (buffer : text) : M conn unit :=
  match fuel with
  | O => fun _ => NoFuel
  | S fuel' =>
      send_packet_no_ack buffer ;;;
      let* ch := recv_char in
      match ch with
      | None => ret tt
      | Some ch => if Ascii.eqb ch plus then ret tt else send_packet_loop fuel' buffer
      end
  end.
Definition send_packet (buffer : text) : M conn unit :=
  let* s := get in send_packet_loop (S (length s.(c_input))) buffer.

(** send_binary_packet is the same function with the length given. *)
Definition send_binary_packet (buffer : text) : M conn unit := send_packet buffer.
End Packets.

(** ** Escapes *)
Definition special (c : ascii) : bool :=
  Ascii.eqb c "}"%char || Ascii.eqb c dollar || Ascii.eqb c hash || Ascii.eqb c "*"%char.
Definition xor_20 (c : ascii) : ascii := ascii_of_N (N.lxor (N_of_ascii c) 32).

(** In place: the rest of the buffer moves up by one.  False: no room. *)
Fixpoint add_escapes_loop (fuel : nat) (i : nat) (buffer : text) (bufmax : nat) : bool * text :=
  match fuel with
  | O => (true, buffer)
  | S fuel' =>
      match buffer !! i with
      | None => (true, buffer)
      | Some c =>
          if special c then
            if (bufmax - length buffer =? 0)%nat then (false, buffer)
            else add_escapes_loop fuel' (i + 2) (take i buffer ++ "}"%char :: xor_20 c :: drop (S i) buffer) bufmax
          else add_escapes_loop fuel' (i + 1) buffer bufmax
      end
  end.
Definition gdb_add_escapes (buffer : text) (bufmax : nat) : bool * text :=
  add_escapes_loop (S (2 * length buffer)) 0 buffer bufmax.

(** Copies as much as fits: the output and the number of characters consumed. *)
Fixpoint gdb_binary_escape_add (input : text) (outputl : nat) : text * nat :=
  match input with
  | [] => ([], O)
  | c :: rest =>
      let piece := if special c then ["}"%char; xor_20 c] else [c] in
      if (outputl <? length piece)%nat then ([], O)
      else let '(out, n) := gdb_binary_escape_add rest (outputl - length piece) in (piece ++ out, S n)
  end.

(** Big endian integers of the file status reply. *)
Definition put_uint32 (value : Z) : list Z := [u8 (Z.shiftr value 24); u8 (Z.shiftr value 16); u8 (Z.shiftr value 8); u8 value].
Definition put_uint64 (value : Z) : list Z :=
  [u8 (Z.shiftr value 56); u8 (Z.shiftr value 48); u8 (Z.shiftr value 40); u8 (Z.shiftr value 32);
   u8 (Z.shiftr value 24); u8 (Z.shiftr value 16); u8 (Z.shiftr value 8); u8 value].
