(* ===== verification/GdbPacketProps.v ===== *)
(** * Packets are received as they were sent *)
From S2P Require Import Prelude Stdio GdbPacket.
From Stdlib Require Import Ascii.

(** ** Hexadecimal *)
Lemma byte_split b : 0 <= b < 256 -> u8 (u8 (Z.shiftl (Z.shiftr b 4) 4) + b mod 16) = b /\ 0 <= Z.shiftr b 4 < 16 /\ 0 <= b mod 16 < 16.
Proof.
  intros Hb. unfold u8. rewrite Z.shiftl_mul_pow2, Z.shiftr_div_pow2 by lia. change (2 ^ 4) with 16.
  pose proof (Z.mod_pos_bound b 16 ltac:(lia)). pose proof (Z.div_mod b 16 ltac:(lia)).
  assert (0 <= b / 16 < 16) by (split; [apply Z.div_pos; lia|apply Z.div_lt_upper_bound; lia]).
  rewrite (Z.mod_small (b / 16 * 16)) by lia. rewrite Z.mod_small by lia. lia.
Qed.

Lemma mem2hex_length mem : length (mem2hex mem) = (2 * length mem)%nat.
Proof. induction mem; cbn [mem2hex length]; lia. Qed.

Lemma hex2mem_mem2hex mem rest :
  Forall (fun b => 0 <= b < 256) mem -> hex2mem (mem2hex mem ++ rest) (length mem) = Some mem.
Proof.
  intros Hm. unfold hex2mem. rewrite length_app, mem2hex_length. rewrite (proj2 (Nat.leb_le _ _)) by lia.
  f_equal. induction Hm as [|b mem Hb Hm IH]; [done|]. cbn [mem2hex app length hex2mem_loop]. unfold hex.
  destruct (byte_split b Hb) as (E & H1 & H2). rewrite !digit_value_digit by done. rewrite E. by rewrite IH.
Qed.

(** ** One character at a time *)
Definition ok_char (c : ascii) : bool := isprint c || (code c =? GDB_INTERRUPT_PKT).
Definition data_char (c : ascii) : bool := ok_char c && negb (Ascii.eqb c dollar) && negb (Ascii.eqb c hash).
Definition noise_char (c : ascii) : bool := ok_char c && negb (Ascii.eqb c dollar).
Definition set_input (t : text) (s : conn) : conn := mk_conn t s.(c_output) s.(in_buffer) s.(c_detached).

Lemma recv_char_cons c r s : s.(c_input) = c :: r -> ok_char c = true -> recv_char s = Ret (Some c, set_input r s).
Proof. intros Hi Hc. unfold recv_char, bind, get, modify. rewrite Hi. unfold ok_char in Hc. by rewrite Hc. Qed.

Lemma data_char_ok c : data_char c = true -> ok_char c = true /\ Ascii.eqb c dollar = false /\ Ascii.eqb c hash = false.
Proof. unfold data_char. intros [[H1 H2%negb_true_iff]%andb_true_iff H3%negb_true_iff]%andb_true_iff. done. Qed.
Lemma noise_char_ok c : noise_char c = true -> ok_char c = true /\ Ascii.eqb c dollar = false.
Proof. unfold noise_char. intros [H1 H2%negb_true_iff]%andb_true_iff. done. Qed.

Lemma wait_start_noise noise r fuel s :
  s.(c_input) = noise ++ dollar :: r -> Forall (fun c => noise_char c = true) noise -> (length noise < fuel)%nat ->
  wait_start fuel s = Ret (true, set_input r s).
Proof.
  revert fuel s. induction noise as [|c noise IH]; intros fuel s Hi Hn Hf; (destruct fuel as [|fuel]; [cbn in Hf; lia|]); cbn [wait_start].
  - unfold bind. by rewrite (recv_char_cons dollar r) by done.
  - apply Forall_cons in Hn as [[Hc1 Hc2]%noise_char_ok Hn]. unfold bind. rewrite (recv_char_cons c (noise ++ dollar :: r)) by done. rewrite Hc2.
    rewrite IH; [done|done|done|cbn in Hf; lia].
Qed.

(** [buf] with [data] at [i]. *)
Definition written (i : Z) (data : text) (buf : Z -> ascii) (j : Z) : ascii :=
  if (i <=? j) && (j <? i + Z.of_nat (length data)) then nth (Z.to_nat (j - i)) data nul else buf j.
Definition sum_from (sum : Z) (data : text) : Z := fold_left (fun sum c => u8 (sum + code c)) data sum.

Lemma fill_data data r fuel count sum s :
  s.(c_input) = data ++ hash :: r -> Forall (fun c => data_char c = true) data -> 0 <= count ->
  count + Z.of_nat (length data) < BUFMAX - 1 -> (length data < fuel)%nat ->
  exists s', fill fuel count sum s = Ret (Some (count + Z.of_nat (length data), sum_from sum data), s')
    /\ s'.(c_input) = r /\ s'.(c_output) = s.(c_output) /\ s'.(c_detached) = s.(c_detached)
    /\ forall j, s'.(in_buffer) j = written count data s.(in_buffer) j.
Proof.
  revert fuel count sum s. induction data as [|c data IH]; intros fuel count sum s Hi Hd Hc Hl Hf; (destruct fuel as [|fuel]; [cbn in Hf; lia|]);
    cbn [fill length] in *; destruct (Z.ltb_spec count (BUFMAX - 1)); try lia; unfold bind at 1.
  - rewrite (recv_char_cons hash r) by done. cbn [Ascii.eqb Bool.eqb hash dollar]. eexists. split; [by rewrite Z.add_0_r|]. split_and!; [done..|].
    intros j. unfold written. cbn [length]. destruct (Z.leb_spec count j), (Z.ltb_spec j (count + Z.of_nat 0)); try lia; done.
  - apply Forall_cons in Hd as [(Hc1 & Hc2 & Hc3)%data_char_ok Hd]. rewrite (recv_char_cons c (data ++ hash :: r)) by done. rewrite Hc2, Hc3.
    unfold bind, modify. destruct (IH fuel (count + 1) (u8 (sum + code c)) (buffer_set count c (set_input (data ++ hash :: r) s))) as (s' & E & H1 & H2 & H3 & H4);
      [done|done|lia|lia|lia|].
    exists s'. rewrite E. split; [f_equal; do 3 f_equal; lia|]. split_and!; [done..|]. intros j. rewrite H4. unfold written. cbn [length buffer_set in_buffer set_input].
    destruct (Z.leb_spec (count + 1) j), (Z.ltb_spec j (count + 1 + Z.of_nat (length data))), (Z.leb_spec count j),
      (Z.ltb_spec j (count + Z.of_nat (S (length data)))), (Z.eqb_spec j count); try lia; cbn [andb]; try done.
    + replace (Z.to_nat (j - count)) with (S (Z.to_nat (j - (count + 1)))) by lia. done.
    + subst j. by rewrite Z.sub_diag.
Qed.

(** The string the buffer holds. *)
Lemma ok_char_not_nul c : ok_char c = true -> Ascii.eqb c nul = false.
Proof. intros Hc. destruct (Ascii.eqb_spec c nul) as [->|]; [by vm_compute in Hc|done]. Qed.

Lemma cstring_written data buf i fuel :
  Forall (fun c => data_char c = true) data -> (length data < fuel)%nat ->
  (forall k c, data !! k = Some c -> buf (i + Z.of_nat k) = c) -> buf (i + Z.of_nat (length data)) = nul ->
  cstring fuel buf i = data.
Proof.
  revert i fuel. induction data as [|c data IH]; intros i fuel Hd Hf Hb Hn; (destruct fuel as [|fuel]; [cbn in Hf; lia|]); cbn [cstring length] in *.
  - rewrite Z.add_0_r in Hn. by rewrite Hn.
  - apply Forall_cons in Hd as [(Hc & _ & _)%data_char_ok Hd]. pose proof (Hb O c eq_refl) as H0. rewrite Z.add_0_r in H0.
    rewrite H0, ok_char_not_nul by done. f_equal. apply IH; [done|lia| |].
    + intros k c' Hk. rewrite <- (Hb (S k) c' Hk). f_equal. lia.
    + rewrite <- Hn. f_equal. lia.
Qed.

(** ** Frames *)
Definition frame (data : text) : text :=
  dollar :: data ++ [hash; digit (Z.shiftr (checksum data) 4); digit (checksum data mod 16)].
(** Data a packet may hold; the third character is not the one that marks a sequence
    number. *)
Definition packet_ok (data : text) : Prop :=
  Forall (fun c => data_char c = true) data /\ Z.of_nat (length data) < BUFMAX - 1 /\ data !! 2%nat <> Some colon.

(** Something that arrives before the packet: other characters and a packet whose
    checksum is wrong. *)
Record damaged := mk_damaged { d_noise : text; d_data : text; d_high : ascii; d_low : ascii }.
Definition damaged_ok (d : damaged) : Prop :=
  Forall (fun c => noise_char c = true) d.(d_noise) /\ packet_ok d.(d_data) /\ ok_char d.(d_high) = true /\ ok_char d.(d_low) = true
  /\ checksum d.(d_data) <> u8 (u8 (Z.shiftl (hex d.(d_high)) 4) + hex d.(d_low)).
Definition wire (ds : list damaged) : text :=
  concat (map (fun d => d.(d_noise) ++ dollar :: d.(d_data) ++ [hash; d.(d_high); d.(d_low)]) ds).

Lemma checksum_range data : 0 <= checksum data < 256.
Proof.
  unfold checksum. assert (Hg : forall l z, 0 <= z < 256 -> 0 <= fold_left (fun sum c => u8 (sum + code c)) l z < 256).
  { induction l as [|c l IH]; intros z Hz; [done|]. cbn [fold_left]. apply IH. unfold u8. apply Z.mod_pos_bound. lia. }
  apply Hg. lia.
Qed.

Lemma digit_ok d : 0 <= d < 16 -> ok_char (digit d) = true.
Proof.
  intros Hd. assert (Hc : forallb (fun k => ok_char (digit (Z.of_nat k))) (seq 0 16) = true) by reflexivity.
  rewrite forallb_forall in Hc. specialize (Hc (Z.to_nat d) ltac:(apply in_seq; lia)). by rewrite Z2Nat.id in Hc by lia.
Qed.

Lemma frame_checksum data :
  let h := digit (Z.shiftr (checksum data) 4) in let l := digit (checksum data mod 16) in
  ok_char h = true /\ ok_char l = true /\ checksum data = u8 (u8 (Z.shiftl (hex h) 4) + hex l).
Proof.
  intros h l. destruct (byte_split (checksum data) (checksum_range data)) as (E & H1 & H2). unfold h, l, hex.
  rewrite !digit_value_digit by done. split; [by apply digit_ok|]. split; [by apply digit_ok|done].
Qed.

Section Connection.
  Context (send_ok : text -> bool) (Hsend : forall t, send_ok t = true).

Lemma send_char_ok c s : send_char send_ok c s = Ret (true, sent [c] s).
Proof. unfold send_char, bind, get, modify. by rewrite Hsend. Qed.

(** The buffer after a packet was read. *)
Definition holds (data : text) (s : conn) : Prop :=
  (forall k c, data !! k = Some c -> s.(in_buffer) (Z.of_nat k) = c) /\ s.(in_buffer) (Z.of_nat (length data)) = nul
  /\ s.(in_buffer) 2 <> colon.

Lemma holds_written data s s' :
  packet_ok data -> s.(in_buffer) 2 <> colon -> (forall j, s'.(in_buffer) j = written 0 data s.(in_buffer) j) ->
  holds data (buffer_set (0 + Z.of_nat (length data)) nul s').
Proof.
  intros (Hd & Hl & Hc) H2 Hw. split; [|split].
  - intros k c Hk. pose proof (lookup_lt_Some _ _ _ Hk). cbn [buffer_set in_buffer]. destruct (Z.eqb_spec (Z.of_nat k) (0 + Z.of_nat (length data))); [lia|].
    rewrite Hw. unfold written. destruct (Z.leb_spec 0 (Z.of_nat k)), (Z.ltb_spec (Z.of_nat k) (0 + Z.of_nat (length data))); try lia. cbn [andb].
    rewrite Z.sub_0_r, Nat2Z.id. by apply nth_lookup_Some.
  - cbn [buffer_set in_buffer]. by rewrite Z.add_0_l, Z.eqb_refl.
  - cbn [buffer_set in_buffer]. destruct (Z.eqb_spec 2 (0 + Z.of_nat (length data))); [done|]. rewrite Hw. unfold written.
    destruct (Z.leb_spec 0 2), (Z.ltb_spec 2 (0 + Z.of_nat (length data))); try lia; cbn [andb]; [|done].
    change (Z.to_nat (2 - 0)) with 2%nat. destruct (data !! 2%nat) as [c|] eqn:E; [|apply lookup_ge_None in E; lia].
    rewrite (nth_lookup_Some _ _ _ c) by done. by intros ->.
Qed.

(** One turn of the loop. *)
Lemma recv_turn noise data h l rest fuel s :
  s.(c_input) = noise ++ dollar :: data ++ hash :: h :: l :: rest -> Forall (fun c => noise_char c = true) noise -> packet_ok data ->
  ok_char h = true -> ok_char l = true -> s.(in_buffer) 2 <> colon -> (length s.(c_input) < S fuel)%nat ->
  exists s', holds data s' /\ s'.(c_input) = rest /\ s'.(c_output) = s.(c_output) /\ s'.(c_detached) = s.(c_detached) /\
  recv_packet_loop send_ok (S fuel) s
  = if checksum data =? u8 (u8 (Z.shiftl (hex h) 4) + hex l) then Ret (Some data, sent [plus] s') else recv_packet_loop send_ok fuel (sent ["-"%char] s').
Proof.
  intros Hi Hn Hp Hh Hl H2 Hf. assert (Hp' := Hp). destruct Hp' as (Hd & Hlen & _).
  assert (Hlen2 : (length noise + length data + 4 <= fuel)%nat) by (rewrite Hi in Hf; rewrite length_app in Hf; cbn [length] in Hf; rewrite length_app in Hf; cbn [length] in Hf; lia).
  destruct (fill_data data (h :: l :: rest) (S fuel) 0 0 (set_input (data ++ hash :: h :: l :: rest) s)) as (s1 & E1 & H1 & Ho & Hdt & Hw); [done|done|lia|lia|lia|].
  pose proof (holds_written data (set_input (data ++ hash :: h :: l :: rest) s) s1 Hp H2 Hw) as Hh1.
  set (s2 := buffer_set (0 + Z.of_nat (length data)) nul s1) in *.
  exists (set_input rest s2). split; [exact Hh1|]. split; [done|]. split; [done|]. split; [done|].
  cbn [recv_packet_loop]. unfold bind at 1. rewrite (wait_start_noise noise (data ++ hash :: h :: l :: rest)) by (done || lia). cbn [negb].
  unfold bind at 1. rewrite E1. cbv beta iota. destruct (Z.eqb_spec (0 + Z.of_nat (length data)) (BUFMAX - 1)); [lia|].
  unfold bind at 1, modify at 1. fold s2. cbv beta iota.
  unfold bind at 1. rewrite (recv_char_cons h (l :: rest)) by done. cbv beta iota. unfold bind at 1. rewrite (recv_char_cons l rest) by done. cbv beta iota.
  change (set_input rest (set_input (l :: rest) s2)) with (set_input rest s2).
  change (sum_from 0 data) with (checksum data). destruct (Z.eqb_spec (checksum data) (u8 (u8 (Z.shiftl (hex h) 4) + hex l))); cbn [negb].
  - unfold bind at 1. rewrite send_char_ok. cbn [km_assert]. unfold bind, ret, get. cbn [sent in_buffer set_input].
    destruct Hh1 as (Hb1 & Hb2 & Hb3). destruct (Ascii.eqb_spec (in_buffer s2 2) colon); [done|]. do 3 f_equal. apply cstring_written; [done| | |done].
    + apply Nat2Z.inj_lt. rewrite Z2Nat.id by (unfold BUFMAX; lia). lia.
    + intros k c Hk. by apply Hb1.
  - unfold bind at 1. rewrite send_char_ok. done.
Qed.

Lemma recv_damaged ds tail fuel s :
  s.(c_input) = wire ds ++ tail -> Forall damaged_ok ds -> s.(in_buffer) 2 <> colon -> (length s.(c_input) < fuel)%nat ->
  exists s' fuel', recv_packet_loop send_ok fuel s = recv_packet_loop send_ok fuel' s' /\ s'.(c_input) = tail
    /\ s'.(c_output) = s.(c_output) ++ replicate (length ds) "-"%char /\ s'.(c_detached) = s.(c_detached) /\ s'.(in_buffer) 2 <> colon
    /\ (length tail < fuel')%nat.
Proof.
  revert fuel s. induction ds as [|[noise data h l] ds IH]; intros fuel s Hi Hd H2 Hf.
  - exists s, fuel. cbn in *. rewrite app_nil_r, <- Hi. done.
  - apply Forall_cons in Hd as [(Hn & Hp & Hh & Hl & Hs) Hd]. cbn [d_noise d_data d_high d_low] in *.
    assert (Hi' : s.(c_input) = noise ++ dollar :: data ++ hash :: h :: l :: (wire ds ++ tail)).
    { rewrite Hi. unfold wire. cbn [map concat d_noise d_data d_high d_low]. repeat (rewrite <- app_assoc; cbn [app]). done. }
    destruct fuel as [|fuel]; [lia|]. destruct (recv_turn noise data h l (wire ds ++ tail) fuel s) as (s' & Hh' & Hin & Hout & Hdet & E); [done..|].
    destruct (Z.eqb_spec (checksum data) (u8 (u8 (Z.shiftl (hex h) 4) + hex l))); [done|].
    destruct (IH fuel (sent ["-"%char] s')) as (s2 & fuel2 & E2 & Hi2 & Ho2 & Hd2 & Hb2 & Hf2); [done|done|by destruct Hh' as (_ & _ & ?)| |].
    + cbn [sent c_input]. rewrite Hin. rewrite Hi' in Hf. rewrite length_app in Hf. cbn [length] in Hf. rewrite length_app in Hf. cbn [length] in Hf. lia.
    + exists s2, fuel2. rewrite E, E2. split_and!; [done|done| |by rewrite Hd2|done|done]. rewrite Ho2. cbn [sent c_output length replicate].
      rewrite Hout, <- app_assoc. done.
Qed.

(** C30. An intact packet is delivered behind noise and packets with a wrong checksum:
    recv_packet returns its data, has answered - to each damaged one and + to it, and the
    rest of the input is untouched. All that arrives is printable or the interrupt character
    3 (any other byte ends the monitor), noise has no $, each damaged packet is whole - #
    and two characters of a wrong checksum behind its data; one cut before its checksum
    takes characters of the next - data have no $ or # and fit the buffer, and no data have
    a colon at index 2, nor has the buffer at the start (the code takes such a packet for
    one with a sequence number). *)
Theorem recv_packet_delivers ds noise data rest s :
  s.(c_input) = wire ds ++ noise ++ frame data ++ rest -> Forall damaged_ok ds -> Forall (fun c => noise_char c = true) noise ->
  packet_ok data -> s.(in_buffer) 2 <> colon ->
  exists s', recv_packet send_ok s = Ret (Some data, s') /\ s'.(c_input) = rest
    /\ s'.(c_output) = s.(c_output) ++ replicate (length ds) "-"%char ++ [plus] /\ s'.(c_detached) = s.(c_detached) /\ s'.(in_buffer) 2 <> colon.
Proof.
  intros Hi Hds Hn Hp H2. unfold recv_packet, bind, get.
  destruct (recv_damaged ds (noise ++ frame data ++ rest) (S (length s.(c_input))) s Hi Hds H2 ltac:(lia)) as (s1 & fuel & E & Hi1 & Ho1 & Hd1 & Hb1 & Hf1).
  rewrite E. destruct fuel as [|fuel]; [lia|]. destruct (frame_checksum data) as (Fh & Fl & Fs).
  destruct (recv_turn noise data (digit (Z.shiftr (checksum data) 4)) (digit (checksum data mod 16)) rest fuel s1) as (s2 & Hh2 & Hi2 & Ho2 & Hd2 & E2); [|done..|by rewrite Hi1|].
  - rewrite Hi1. unfold frame. cbn [app]. repeat (rewrite <- app_assoc; cbn [app]). done.
  - rewrite <- Fs, Z.eqb_refl in E2. exists (sent [plus] s2). rewrite E2. split_and!; [done|done| |by cbn; congruence|by destruct Hh2 as (_ & _ & ?)].
    cbn [sent c_output]. rewrite Ho2, Ho1, <- app_assoc. done.
Qed.

Lemma send_frame buffer s : send_packet_no_ack send_ok buffer s = Ret (tt, sent (frame buffer) s).
Proof.
  unfold send_packet_no_ack, send_text, bind, get, modify, ret. rewrite !send_char_ok, Hsend. rewrite !send_char_ok. do 2 f_equal.
  unfold sent. cbn [c_input c_output in_buffer c_detached]. f_equal. unfold frame. repeat (rewrite <- app_assoc; cbn [app]). done.
Qed.

(** Send_packet repeats the packet for every answer that is not +, and stops at
    the first +; each copy is one recv_packet accepts. *)
Theorem send_packet_acknowledged buffer replies rest s :
  s.(c_input) = replies ++ plus :: rest -> Forall (fun c => ok_char c = true /\ c <> plus) replies ->
  send_packet send_ok buffer s
  = Ret (tt, mk_conn rest (s.(c_output) ++ concat (replicate (S (length replies)) (frame buffer))) s.(in_buffer) s.(c_detached)).
Proof.
  intros Hi Hr. unfold send_packet, bind at 1, get. cbv beta iota.
  assert (Hf : (length replies < S (length s.(c_input)))%nat) by (rewrite Hi, length_app; lia). revert Hf.
  generalize (S (length s.(c_input))). intros fuel. revert fuel s Hi. induction Hr as [|c replies [Hc Hne] Hr IH]; intros fuel s Hi Hf;
    (destruct fuel as [|fuel]; [cbn in Hf; lia|]); cbn [send_packet_loop]; unfold bind at 1; rewrite send_frame; cbv beta iota; unfold bind at 1.
  - rewrite (recv_char_cons plus rest) by done. cbv beta iota. rewrite Ascii.eqb_refl. cbn [length replicate concat]. rewrite app_nil_r. done.
  - rewrite (recv_char_cons c (replies ++ plus :: rest)) by done. cbv beta iota. destruct (Ascii.eqb_spec c plus); [done|].
    rewrite IH; [|done|cbn in Hf; lia]. cbn [sent set_input c_output c_input in_buffer c_detached length]. do 3 f_equal.
    rewrite <- app_assoc. done.
Qed.
End Connection.

(** ** The loops end, whatever arrives *)
Section Ends.
  Context (send_ok : text -> bool).

Definition shorter (s s' : conn) : Prop := (length s'.(c_input) < length s.(c_input))%nat.
Definition no_longer (s s' : conn) : Prop := (length s'.(c_input) <= length s.(c_input))%nat.

Lemma recv_char_ends s : wp True recv_char (fun r s' => match r with Some _ => shorter s s' | None => no_longer s s' end) s.
Proof.
  unfold recv_char. do 2 wp_step. unfold shorter, no_longer. destruct (c_input s) as [|c r] eqn:E; wp_steps.
  - cbn. lia.
  - unfold km_assert. destruct (isprint c || _); [|done]. wp_steps. cbn. lia.
Qed.

Lemma send_char_ends c s : wp True (send_char send_ok c) (fun _ s' => s'.(c_input) = s.(c_input)) s.
Proof. unfold send_char. do 2 wp_step. by destruct (send_ok _); wp_steps. Qed.

Lemma wait_start_ends fuel s :
  (length s.(c_input) < fuel)%nat -> wp True (wait_start fuel) (fun b s' => if b then shorter s s' else True) s.
Proof.
  revert s. induction fuel as [|fuel IH]; intros s Hf; [lia|]. cbn [wait_start]. apply wp_bind.
  eapply wp_mono; [apply recv_char_ends|]. intros [c|] s' Hs; [|done]. cbv beta. destruct (Ascii.eqb c dollar); [done|].
  unfold shorter in *. eapply wp_mono; [apply IH; lia|]. intros [|] s2 H2; [|done]. lia.
Qed.

Lemma fill_ends fuel count sum s :
  (length s.(c_input) < fuel)%nat -> wp True (fill fuel count sum) (fun _ s' => no_longer s s') s.
Proof.
  revert count sum s. induction fuel as [|fuel IH]; intros count sum s Hf; [lia|]. cbn [fill]. destruct (count <? BUFMAX - 1); [|by unfold no_longer; wp_steps].
  apply wp_bind. eapply wp_mono; [apply recv_char_ends|]. intros [c|] s' Hs; [|done]. unfold shorter, no_longer in *. cbv beta.
  destruct (Ascii.eqb c dollar); [eapply wp_mono; [apply IH; lia|]; cbn; lia|]. destruct (Ascii.eqb c hash); [wp_steps; lia|].
  apply wp_bind, wp_modify. eapply wp_mono; [apply IH; cbn; lia|]. cbn. lia.
Qed.

(** Recv_packet ends on every input: each turn of its loops consumes a character,
    and the end of the connection ends them.  It may end the monitor, when a
    character is not printable or the acknowledgement cannot be sent. *)
Theorem recv_packet_ends s : recv_packet send_ok s <> NoFuel.
Proof.
  cut (wp True (recv_packet send_ok) (fun _ _ => True) s); [unfold wp; by destruct (recv_packet send_ok s)|].
  unfold recv_packet. do 2 wp_step. assert (Hf : (length s.(c_input) < S (length s.(c_input)))%nat) by lia. revert Hf.
  generalize (S (length s.(c_input))). intros fuel. revert s. induction fuel as [|fuel IH]; intros s Hf; [lia|]. cbn [recv_packet_loop].
  apply wp_bind. eapply wp_mono; [by apply (wait_start_ends (S fuel))|]. intros [|] s1 H1; cbn [negb]; [|done]. unfold shorter in H1.
  apply wp_bind. eapply wp_mono; [apply (fill_ends (S fuel)); lia|]. intros [[count sum]|] s2 H2; [|done]. unfold no_longer in H2. cbv beta iota.
  destruct (count =? BUFMAX - 1); [done|]. apply wp_bind, wp_modify. apply wp_bind.
  eapply wp_mono; [apply recv_char_ends|]. intros [h|] s3 H3; [|done]. unfold shorter in H3. cbn in H3.
  apply wp_bind. eapply wp_mono; [apply recv_char_ends|]. intros [l|] s4 H4; [|done]. unfold shorter in H4.
  destruct (negb _).
  - apply wp_bind. eapply wp_mono; [apply send_char_ends|]. intros [|] s5 H5; [|done]. apply IH. rewrite H5. lia.
  - apply wp_bind. eapply wp_mono; [apply send_char_ends|]. intros ok s5 _. destruct ok; [|done]. cbn [km_assert]. wp_step. wp_step. do 2 wp_step.
    destruct (Ascii.eqb _ colon); [|done]. apply wp_bind. eapply wp_mono; [apply send_char_ends|]. intros ? ? _.
    apply wp_bind. eapply wp_mono; [apply send_char_ends|]. done.
Qed.
End Ends.

(** ** Escapes *)
Definition piece (c : ascii) : text := if special c then ["}"%char; xor_20 c] else [c].
Definition escape (t : text) : text := flat_map piece t.
Fixpoint unescape (t : text) : text :=
  match t with
  | [] => []
  | c :: r => if Ascii.eqb c "}"%char then match r with [] => [] | x :: r' => xor_20 x :: unescape r' end else c :: unescape r
  end.

Lemma special_cases c : special c = true -> c = "}"%char \/ c = dollar \/ c = hash \/ c = "*"%char.
Proof. unfold special. intros [[[H|H]%orb_prop|H]%orb_prop|H]%orb_prop; apply Ascii.eqb_eq in H; tauto. Qed.
Lemma xor_20_special c : special c = true -> xor_20 (xor_20 c) = c /\ special (xor_20 c) = false.
Proof. by intros [->|[->|[->| ->]]]%special_cases. Qed.
Lemma plain_not_brace c : special c = false -> Ascii.eqb c "}"%char = false.
Proof. unfold special. by destruct (Ascii.eqb c "}"%char). Qed.

Lemma unescape_escape t : unescape (escape t) = t.
Proof.
  induction t as [|c t IH]; [done|]. unfold escape. cbn [flat_map]. fold (escape t). unfold piece. destruct (special c) eqn:E.
  - destruct (xor_20_special c E) as [E1 _]. cbn [app unescape]. rewrite IH. cbn [Ascii.eqb]. by rewrite E1.
  - cbn [app unescape]. by rewrite (plain_not_brace c E), IH.
Qed.

(** No character of a packet's frame is left in it. *)
Lemma escape_framed t : Forall (fun c => c <> dollar /\ c <> hash /\ c <> "*"%char) (escape t).
Proof.
  assert (Hp : forall c, special c = false -> c <> dollar /\ c <> hash /\ c <> "*"%char).
  { intros c Hc. unfold special in Hc. repeat split; intros ->; by vm_compute in Hc. }
  induction t as [|c t IH]; [constructor|]. unfold escape. cbn [flat_map]. apply Forall_app. split; [|exact IH]. unfold piece. destruct (special c) eqn:E.
  - constructor; [done|]. constructor; [|constructor]. apply Hp. by apply xor_20_special.
  - constructor; [by apply Hp|constructor].
Qed.

Lemma escape_length t : (length t <= length (escape t) <= 2 * length t)%nat.
Proof. induction t as [|c t IH]; [done|]. unfold escape. cbn [flat_map length]. rewrite length_app. fold (escape t). unfold piece. destruct (special c); cbn [length]; lia. Qed.

Lemma add_escapes_loop_ok done_ t fuel bufmax :
  (length t < fuel)%nat -> (length (done_ ++ t) <= bufmax)%nat ->
  let r := add_escapes_loop fuel (length done_) (done_ ++ t) bufmax in
  if (length (done_ ++ escape t) <=? bufmax)%nat then r = (true, done_ ++ escape t) else r.1 = false.
Proof.
  revert done_ t. induction fuel as [|fuel IH]; intros done_ t Hf Hl; [lia|]. cbn zeta. cbn [add_escapes_loop]. destruct t as [|c t].
  - rewrite lookup_ge_None_2 by (rewrite app_nil_r; done). cbn [escape flat_map]. by rewrite (proj2 (Nat.leb_le _ _)).
  - rewrite list_lookup_middle by done. unfold escape. cbn [flat_map]. fold (escape t). unfold piece. destruct (special c) eqn:E.
    + destruct (Nat.eqb_spec (bufmax - length (done_ ++ c :: t)) 0) as [E0|E0].
      * pose proof (escape_length t). rewrite !length_app in *. cbn [length app] in *. rewrite (proj2 (Nat.leb_gt _ _)) by lia. done.
      * pose proof (IH (done_ ++ ["}"%char; xor_20 c]) t) as H. replace (length done_ + 2)%nat with (length (done_ ++ ["}"%char; xor_20 c])) by (rewrite length_app; done).
        rewrite take_app_length, drop_app_ge by lia. replace (S (length done_) - length done_)%nat with 1%nat by lia. cbn [drop]. rewrite drop_0.
        rewrite <- !app_assoc in H. cbn [app] in *. apply H; [cbn [length] in Hf; lia|]. rewrite !length_app in *. cbn [length] in *. lia.
    + pose proof (IH (done_ ++ [c]) t) as H. replace (length done_ + 1)%nat with (length (done_ ++ [c])) by (rewrite length_app; done).
      rewrite <- !app_assoc in H. cbn [app] in *. apply H; [cbn [length] in Hf; lia|done].
Qed.

(** The in-place routine is the escape of the whole buffer, and fails exactly when
    that does not fit. *)
Lemma gdb_add_escapes_ok t bufmax :
  (length t <= bufmax)%nat ->
  if (length (escape t) <=? bufmax)%nat then gdb_add_escapes t bufmax = (true, escape t) else (gdb_add_escapes t bufmax).1 = false.
Proof. intros Hl. apply (add_escapes_loop_ok [] t); [lia|done]. Qed.

(** The routine that copies: as much of the input as fits, escaped. *)
Lemma binary_escape_ok t outputl :
  let (out, n) := gdb_binary_escape_add t outputl in
  out = escape (take n t) /\ (n <= length t)%nat /\ (length out <= outputl)%nat /\ ((n < length t)%nat -> (outputl < length (escape (take (S n) t)))%nat).
Proof.
  revert outputl. induction t as [|c t IH]; intros outputl; cbn [gdb_binary_escape_add]; [cbn; split_and!; [done|lia..]|]. fold (piece c).
  destruct (Nat.ltb_spec outputl (length (piece c))) as [Hlt|Hge].
  - cbn [take escape flat_map length]. split_and!; [done|lia|lia|]. intros _. rewrite app_nil_r. done.
  - specialize (IH (outputl - length (piece c))%nat). destruct (gdb_binary_escape_add t _) as [out n]. destruct IH as (-> & H1 & H2 & H3).
    split_and!; [done|cbn; lia|rewrite length_app; lia|]. intros Hn. cbn [length] in Hn. change (take (S (S n)) (c :: t)) with (c :: take (S n) t).
    specialize (H3 ltac:(lia)). unfold escape in *. cbn [flat_map]. rewrite length_app. lia.
Qed.

(** Both ways of escaping a reply are undone by the debugger's unescaping and leave
    no frame character: the routine that works in place escapes the whole buffer and
    fails exactly when there is no room; the one that copies consumes as much of
    the input as fits, never more than the output holds, and reports how much. *)
Theorem escapes_correct t bufmax outputl :
  (length t <= bufmax)%nat ->
  (if (length (escape t) <=? bufmax)%nat then gdb_add_escapes t bufmax = (true, escape t) else (gdb_add_escapes t bufmax).1 = false)
  /\ (let (out, n) := gdb_binary_escape_add t outputl in
      unescape out = take n t /\ (n <= length t)%nat /\ (length out <= outputl)%nat
      /\ Forall (fun c => c <> dollar /\ c <> hash /\ c <> "*"%char) out
      /\ ((n < length t)%nat -> (outputl < length (escape (take (S n) t)))%nat)).
Proof.
  intros Hl. split; [by apply gdb_add_escapes_ok|].
  pose proof (binary_escape_ok t outputl) as Hc. destruct (gdb_binary_escape_add t outputl) as [out n]. destruct Hc as (-> & H1 & H2 & H3).
  rewrite unescape_escape. split_and!; [done|done|done|apply escape_framed|done].
Qed.
