(* ===== verification/GdbBreak.v ===== *)
(** * Breakpoints, memory and registers of the debugger (gdb_kvm_x86_64.c)

    A software breakpoint is a trap instruction written over the guest's; a hardware
    one is an entry of the debug registers of every vcpu.  Guest memory is a map from
    monitor addresses to bytes; the monitor's own page protections come from
    /proc/self/maps. *)
From S2P Require Import Prelude Machine MemGeom Stdio GdbPacket.
From Stdlib Require Import Ascii.

Definition GDB_BREAKPOINT_SW : Z := 0.
Definition GDB_BREAKPOINT_HW : Z := 1.
Definition GDB_WATCHPOINT_WRITE : Z := 2.
Definition GDB_WATCHPOINT_READ : Z := 3.
Definition GDB_WATCHPOINT_ACCESS : Z := 4.
Definition MAX_HW_BREAKPOINTS : Z := 4.
Definition int3 : Z := 0xcc.

Record breakpoint_t := mk_bp { bp_type : Z; bp_addr : Z; bp_len : Z; bp_refcount : Z; saved_insn : Z }.

Definition KVM_GUESTDBG_ENABLE : Z := 1.
Definition KVM_GUESTDBG_SINGLESTEP : Z := 2.
Definition KVM_GUESTDBG_USE_SW_BP : Z := 0x10000.
Definition KVM_GUESTDBG_USE_HW_BP : Z := 0x20000.

(** What KVM_SET_GUEST_DEBUG gets: control word, the addresses from DR0 on, DR7. *)
Record kvm_guest_debug := mk_debug { dbg_control : Z; dbg_dr : list Z; dbg_dr7 : Z }.

(** The lists, the count of hardware breakpoints, gdbstub.stepping, guest memory and
    what each vcpu in use was last given. *)
Record dbg := mk_dbg {
  sw_breakpoints : list breakpoint_t;
  hw_breakpoints : list breakpoint_t;
  nr_hw_breakpoints : Z;
  stepping : bool;
  memory : Z -> Z;
  vcpu_debug : list kvm_guest_debug
}.
Definition set_sw l (s : dbg) := mk_dbg l s.(hw_breakpoints) s.(nr_hw_breakpoints) s.(stepping) s.(memory) s.(vcpu_debug).
Definition set_hw l n (s : dbg) := mk_dbg s.(sw_breakpoints) l n s.(stepping) s.(memory) s.(vcpu_debug).
Definition set_stepping b (s : dbg) := mk_dbg s.(sw_breakpoints) s.(hw_breakpoints) s.(nr_hw_breakpoints) b s.(memory) s.(vcpu_debug).
Definition set_byte k v (s : dbg) :=
  mk_dbg s.(sw_breakpoints) s.(hw_breakpoints) s.(nr_hw_breakpoints) s.(stepping) (fun j => if j =? k then v else s.(memory) j) s.(vcpu_debug).
Definition set_debug d (s : dbg) := mk_dbg s.(sw_breakpoints) s.(hw_breakpoints) s.(nr_hw_breakpoints) s.(stepping) s.(memory) d.

Section Gdb.
  (** The machine; the lines of /proc/self/maps ([inl]: the negative errno of fopen;
      a line is start, end and protection, or cannot be scanned); whether an mprotect
      of a page succeeds; whether KVM accepts the debug settings. *)
  Context (m : machine) (maps : Z + list (option (Z * Z * text))) (mprotect_ok : Z -> Z -> bool) (debug_ok : kvm_guest_debug -> bool).

(** Result and protection; without a result of 0 the protection is not set. *)
Fixpoint find_map (lines : list (option (Z * Z * text))) (addr : Z) : Z * Z :=
  match lines with
  | [] => (-1, 0)
  | None :: rest => find_map rest addr
  | Some (start, stop, prot) :: rest =>
      if (start <=? addr) && (addr <? stop) then
        (0, Z.lor (Z.lor (if Ascii.eqb (nth 0 prot nul) "r" then PROT_READ else 0) (if Ascii.eqb (nth 1 prot nul) "w" then PROT_WRITE else 0))
                  (if Ascii.eqb (nth 2 prot nul) "x" then PROT_EXEC else 0))
      else find_map rest addr
  end.
Definition km_get_page_protection (addr : Z) : Z * Z :=
  match maps with inl e => (e, 0) | inr lines => find_map lines addr end.

Definition page_of (k : Z) : Z := rounddown k KM_PAGE_SIZE.

(** The common part of writing the first byte of an instruction: -1, or the write
    between making the page writable and protecting it again.  A result of
    km_get_page_protection other than 0 and -1 leaves the protection undefined. *)
Definition write_insn (insn : Z) (write : M dbg unit) : M dbg Z :=
  let (rc, prot) := km_get_page_protection insn in
  if rc =? -1 then ret (-1)
  else if negb (rc =? 0) then abort
  else if (Z.land prot PROT_WRITE =? 0) && negb (mprotect_ok (page_of insn) (Z.lor prot PROT_WRITE)) then ret (-1)
  else write ;;; ret 0.

(** The byte under the trap is read before the protection of its page is known; the read is
    taken to succeed. *)
Definition kvm_arch_insert_sw_breakpoint (addr : Z) : M dbg Z :=
  match km_gva_to_kma m addr with
  | None => ret (-1)
  | Some insn =>
      modify (fun s => set_sw (map (fun b => if b.(bp_addr) =? addr
                                              then mk_bp b.(bp_type) b.(bp_addr) b.(bp_len) b.(bp_refcount) (s.(memory) insn)
                                              else b) s.(sw_breakpoints)) s) ;;;
      write_insn insn (modify (set_byte insn int3))
  end.

Definition kvm_arch_remove_sw_breakpoint (bp : breakpoint_t) : M dbg Z :=
  match km_gva_to_kma m bp.(bp_addr) with
  | None => ret (-1)
  | Some insn =>
      write_insn insn (let* s := get in km_assert (s.(memory) insn =? int3) ;;; modify (set_byte insn bp.(saved_insn)))
  end.

(** ** Debug registers *)
Definition bp_condition_code : list Z := [0; 0; 1; 2; 3].
Definition mem_size_code : list Z := [0; 0; 1; 0; 3; 0; 0; 0; 2].

Fixpoint dr7_bits (n : Z) (dr7 : Z) (bps : list breakpoint_t) : option Z :=
  match bps with
  | [] => Some dr7
  | bp :: rest =>
      if n <? MAX_HW_BREAKPOINTS then
        c ← bp_condition_code !! Z.to_nat bp.(bp_type);
        l ← mem_size_code !! Z.to_nat bp.(bp_len);
        dr7_bits (n + 1)
          (Z.lor (Z.lor (Z.lor dr7 (Z.shiftl 2 (n * 2))) (Z.shiftl c (16 + n * 4))) (Z.shiftl l (18 + n * 4))) rest
      else None
  end.

(** [None]: an index outside one of the arrays. *)
Definition debug_settings (s : dbg) : option kvm_guest_debug :=
  let control := if s.(stepping) then Z.lor KVM_GUESTDBG_ENABLE KVM_GUESTDBG_SINGLESTEP else 0 in
  let control := match s.(sw_breakpoints) with [] => control | _ => Z.lor control (Z.lor KVM_GUESTDBG_ENABLE KVM_GUESTDBG_USE_SW_BP) end in
  match s.(hw_breakpoints) with
  | [] => Some (mk_debug control [] 0)
  | bps =>
      dr7 ← dr7_bits 0 (Z.lor (Z.shiftl 1 9) (Z.shiftl 1 10)) bps;
      Some (mk_debug (Z.lor control (Z.lor KVM_GUESTDBG_ENABLE KVM_GUESTDBG_USE_HW_BP)) (map bp_addr bps) dr7)
  end.

(** Which register fired, from DR6 and DR7 of the exit: its number and condition. *)
Definition km_gdb_get_hwbreak_info (dr6 dr7 : Z) : option (Z * Z) :=
  if negb (Z.land dr6 1 =? 0) && negb (Z.land dr7 0x03 =? 0) then Some (0, Z.land (Z.shiftr dr7 16) 0x03)
  else if negb (Z.land dr6 2 =? 0) && negb (Z.land dr7 0x0c =? 0) then Some (1, Z.land (Z.shiftr dr7 20) 0x03)
  else if negb (Z.land dr6 4 =? 0) && negb (Z.land dr7 0x20 =? 0) then Some (2, Z.land (Z.shiftr dr7 24) 0x03)
  else if negb (Z.land dr6 8 =? 0) && negb (Z.land dr7 0xc0 =? 0) then Some (3, Z.land (Z.shiftr dr7 28) 0x03)
  else None.

(** Of the [i]th vcpu in use. *)
Definition km_gdb_update_vcpu_debug (i : nat) : M dbg Z :=
  let* s := get in
  match debug_settings s with
  | None => abort
  | Some d => if debug_ok d then modify (set_debug (<[i := d]> s.(vcpu_debug))) ;;; ret 0 else abort
  end.

(** km_vcpu_apply_all: the sum of the results. *)
Fixpoint apply_all (f : nat -> M dbg Z) (i n : nat) : M dbg Z :=
  match n with
  | O => ret 0
  | S n' => let* rc := f i in let* total := apply_all f (S i) n' in ret (rc + total)
  end.

Definition km_gdb_update_guest_debug : M dbg Z :=
  let* s := get in
  let* count := apply_all km_gdb_update_vcpu_debug 0 (length s.(vcpu_debug)) in
  ret (if negb (count =? 0) then -1 else 0).

(** ** The lists *)
Definition is_hw (type : Z) : bool := (GDB_BREAKPOINT_HW <=? type) && (type <=? GDB_WATCHPOINT_ACCESS).
Definition find_addr (addr : Z) (l : list breakpoint_t) : option breakpoint_t :=
  snd <$> list_find (fun b => b.(bp_addr) = addr) l.

(** Hardware breakpoints are found by their address only. *)
Definition bp_list_find (type addr : Z) : M dbg (option breakpoint_t) :=
  let* s := get in
  if type =? GDB_BREAKPOINT_SW then ret (find_addr addr s.(sw_breakpoints))
  else if is_hw type then ret (find_addr addr s.(hw_breakpoints))
  else abort.

Definition bp_list_find_byaddr (s : dbg) (addr : Z) : option breakpoint_t :=
  match find_addr addr s.(sw_breakpoints) with
  | Some b => Some b
  | None => snd <$> list_find (fun b => b.(bp_addr) <= addr /\ addr < u64 (b.(bp_addr) + b.(bp_len))) s.(hw_breakpoints)
  end.

Definition count_ref (d : Z) (addr : Z) (l : list breakpoint_t) : list breakpoint_t :=
  map (fun b => if b.(bp_addr) =? addr then mk_bp b.(bp_type) b.(bp_addr) b.(bp_len) (b.(bp_refcount) + d) b.(saved_insn) else b) l.

(** False: no room among the hardware breakpoints. *)
Definition bp_list_insert (type addr len : Z) : M dbg bool :=
  let* bp := bp_list_find type addr in
  match bp with
  | Some _ =>
      modify (fun s => if type =? GDB_BREAKPOINT_SW then set_sw (count_ref 1 addr s.(sw_breakpoints)) s
                       else set_hw (count_ref 1 addr s.(hw_breakpoints)) s.(nr_hw_breakpoints) s) ;;;
      ret true
  | None =>
      let bp := mk_bp type addr len 1 0 in
      if type =? GDB_BREAKPOINT_SW then modify (fun s => set_sw (bp :: s.(sw_breakpoints)) s) ;;; ret true
      else
        let* s := get in
        if s.(nr_hw_breakpoints) =? MAX_HW_BREAKPOINTS then ret false
        else modify (fun s => set_hw (bp :: s.(hw_breakpoints)) (s.(nr_hw_breakpoints) + 1) s) ;;; ret true
  end.

Definition remove_addr (addr : Z) (l : list breakpoint_t) : list breakpoint_t := filter (fun b => b.(bp_addr) <> addr) l.

Definition bp_list_remove (type addr : Z) : M dbg Z :=
  let* bp := bp_list_find type addr in
  match bp with
  | None => ret (-1)
  | Some bp =>
      if 0 <? bp.(bp_refcount) - 1 then
        modify (fun s => if type =? GDB_BREAKPOINT_SW then set_sw (count_ref (-1) addr s.(sw_breakpoints)) s
                         else set_hw (count_ref (-1) addr s.(hw_breakpoints)) s.(nr_hw_breakpoints) s) ;;;
        ret 0
      else
        modify (fun s => if type =? GDB_BREAKPOINT_SW then set_sw (remove_addr addr s.(sw_breakpoints)) s
                         else set_hw (remove_addr addr s.(hw_breakpoints)) (s.(nr_hw_breakpoints) - 1) s) ;;;
        ret 0
  end.

(** ** The requests *)
Definition km_gdb_add_breakpoint (type addr len : Z) : M dbg Z :=
  let* bp := bp_list_find type addr in
  match bp with
  | Some _ => ret 0
  | None =>
      let* ok := bp_list_insert type addr len in
      if negb ok then ret (-1)
      else
        let* rc := (if type =? GDB_BREAKPOINT_SW then kvm_arch_insert_sw_breakpoint addr else ret 0) in
        if negb (rc =? 0) then bp_list_remove GDB_BREAKPOINT_SW addr ;;; ret (-1)
        else km_gdb_update_guest_debug
  end.

Definition km_gdb_remove_breakpoint (type addr : Z) (skip_hw_update : bool) : M dbg Z :=
  let* bp := bp_list_find type addr in
  match bp with
  | None => ret 0
  | Some bp =>
      let* rc := (if type =? GDB_BREAKPOINT_SW then kvm_arch_remove_sw_breakpoint bp else ret 0) in
      if negb (rc =? 0) then ret (-1)
      else
        let* rc := bp_list_remove type addr in
        if rc =? -1 then ret (-1)
        else if skip_hw_update then ret 0
        else km_gdb_update_guest_debug
  end.

Fixpoint remove_each (bps : list breakpoint_t) (skip : bool) (finalrc : Z) : M dbg Z :=
  match bps with
  | [] => ret finalrc
  | bp :: rest =>
      let* rc := km_gdb_remove_breakpoint bp.(bp_type) bp.(bp_addr) skip in
      remove_each rest skip (if negb (rc =? 0) then rc else finalrc)
  end.
Definition km_gdb_remove_all_breakpoints (skip_hw_update : bool) : M dbg Z :=
  let* s := get in
  let* finalrc := remove_each s.(sw_breakpoints) skip_hw_update 0 in
  let* s := get in
  remove_each s.(hw_breakpoints) skip_hw_update finalrc.

Definition km_gdb_find_breakpoint (s : dbg) (trigger_addr : Z) : option (Z * Z * Z) :=
  (fun b => (b.(bp_type), b.(bp_addr), b.(bp_len))) <$> bp_list_find_byaddr s trigger_addr.

Definition km_gdb_enable_ss : M dbg Z := modify (set_stepping true) ;;; km_gdb_update_guest_debug.
Definition km_gdb_disable_ss : M dbg Z := modify (set_stepping false) ;;; km_gdb_update_guest_debug.

(** ** Memory *)
Definition nextpage (addr : Z) : Z := rounddown (addr + KM_PAGE_SIZE) KM_PAGE_SIZE.

(** The pages from [src] to [stop]: whether each can be read. *)
Fixpoint pages_readable (fuel : nat) (src stop : Z) : bool :=
  match fuel with
  | O => false
  | S fuel' =>
      if src <? stop then
        let count := Z.min (nextpage src - src) (stop - src) in
        let (rc, prot) := km_get_page_protection src in
        if negb (rc =? 0) then false
        else if (Z.land prot PROT_READ =? 0) && negb (mprotect_ok (page_of src) (Z.lor prot PROT_READ)) then false
        else if (Z.land prot PROT_READ =? 0) && negb (mprotect_ok (page_of src) prot) then false
        else pages_readable fuel' (src + count) stop
      else true
  end.

(** What the guest has at [addr] without the traps.  [None] is the result -1; the
    output buffer of the callers has BUFMAX characters. *)
Definition km_guest_mem2hex (addr kma len : Z) : M dbg (option text) :=
  if pages_readable (S (Z.to_nat len)) kma (kma + len) then
    let* s := get in
    let byte i := match find_addr (addr + i) s.(sw_breakpoints) with Some bp => bp.(saved_insn) | None => s.(memory) (kma + i) end in
    km_assert (2 * len + 1 <=? BUFMAX) ;;;
    ret (Some (mem2hex (map byte (seqZ 0 len))))
  else ret None.

(** The local array has half the bytes that are converted into it. *)
Definition km_guest_hex2mem (buf : text) (bufcount : nat) (kma : Z) : M dbg Z :=
  match hex2mem buf bufcount with
  | None => abort
  | Some bytes => if (bufcount / 2 <? length bytes)%nat then abort else ret 0
  end.
End Gdb.

(** ** Registers *)
Record gdb_regs := mk_gdb_regs {
  gr_rax : Z; gr_rbx : Z; gr_rcx : Z; gr_rdx : Z; gr_rsi : Z; gr_rdi : Z; gr_rbp : Z; gr_rsp : Z;
  gr_r8 : Z; gr_r9 : Z; gr_r10 : Z; gr_r11 : Z; gr_r12 : Z; gr_r13 : Z; gr_r14 : Z; gr_r15 : Z;
  gr_rip : Z; gr_eflags : Z; gr_segments : list Z
}.
(** The registers of the vcpu have 64 bits each; the selectors of cs, ss, ds, es, fs
    and gs. *)
Record vcpu_regs := mk_vregs {
  vr_rax : Z; vr_rbx : Z; vr_rcx : Z; vr_rdx : Z; vr_rsi : Z; vr_rdi : Z; vr_rbp : Z; vr_rsp : Z;
  vr_r8 : Z; vr_r9 : Z; vr_r10 : Z; vr_r11 : Z; vr_r12 : Z; vr_r13 : Z; vr_r14 : Z; vr_r15 : Z;
  vr_rip : Z; vr_rflags : Z; vr_segments : list Z
}.

(** Into a buffer that holds what was there before. *)
Definition km_gdb_read_registers (v : vcpu_regs) (old : gdb_regs) : gdb_regs :=
  mk_gdb_regs v.(vr_rax) v.(vr_rbx) v.(vr_rcx) v.(vr_rdx) v.(vr_rsi) v.(vr_rdi) v.(vr_rbp) v.(vr_rsp)
    v.(vr_r8) v.(vr_r9) v.(vr_r10) v.(vr_r11) old.(gr_r12) old.(gr_r13) old.(gr_r14) old.(gr_r15)
    v.(vr_rip) (u32 v.(vr_rflags)) v.(vr_segments).

(** The segment registers cannot change. *)
Definition km_gdb_write_registers (g : gdb_regs) (v : vcpu_regs) : option vcpu_regs :=
  if decide (v.(vr_segments) = g.(gr_segments)) then
    Some (mk_vregs g.(gr_rax) g.(gr_rbx) g.(gr_rcx) g.(gr_rdx) g.(gr_rsi) g.(gr_rdi) g.(gr_rbp) g.(gr_rsp)
            g.(gr_r8) g.(gr_r9) g.(gr_r10) g.(gr_r11) g.(gr_r12) g.(gr_r13) g.(gr_r14) g.(gr_r15)
            g.(gr_rip) g.(gr_eflags) g.(gr_segments))
  else None.
