(* ===== verification/GdbBreakProps.v ===== *)
(** * Breakpoints do not show *)
From S2P Require Import Prelude Machine MemGeom TopBreak PageTable MemBrk Stdio GdbPacket GdbBreak.
From Stdlib Require Import Ascii.

(** ** Two guest addresses never share a byte *)
Lemma kma_zones m a k :
  km_gva_to_kma m a = Some k ->
  GUEST_MEM_START_VA <= a < GUEST_MEM_TOP_VA /\ (a < roundup m.(brk) KM_PAGE_SIZE \/ rounddown m.(tbrk) KM_PAGE_SIZE <= a) /\ k = gva_to_gpa_nocheck m a.
Proof.
  assert (GUEST_MEM_TOP_VA < GUEST_VVAR_VDSO_BASE_VA) by reflexivity. assert (GUEST_MEM_TOP_VA < GUEST_KMGUESTMEM_BASE_VA) by reflexivity.
  unfold km_gva_to_kma, km_gva_to_kma_nocheck, km_vdso_gva, km_guestmem_gva.
  destruct (Z.ltb_spec a GUEST_MEM_START_VA); [done|]. destruct (Z.leb_spec GUEST_MEM_TOP_VA a); [done|]. cbn [orb].
  destruct (Z.leb_spec GUEST_VVAR_VDSO_BASE_VA a); [lia|]. destruct (Z.leb_spec GUEST_KMGUESTMEM_BASE_VA a); [lia|]. cbn [andb negb].
  destruct (Z.leb_spec (roundup m.(brk) KM_PAGE_SIZE) a), (Z.ltb_spec a (rounddown m.(tbrk) KM_PAGE_SIZE)); cbn [andb]; try done; intros [= <-]; (split; [lia|]); split; lia || done.
Qed.

Lemma page_below_gib x g : 0 <= x < two64 - 2 ^ 31 -> rounddown x PDPTE_REGION < rounddown g PDPTE_REGION ->
  roundup x KM_PAGE_SIZE <= rounddown g PDPTE_REGION <= rounddown g KM_PAGE_SIZE.
Proof.
  intros Hx Hlt. pose proof (rounddown_le x PDPTE_REGION eq_refl). pose proof (rounddown_le g PDPTE_REGION eq_refl). pose proof (rounddown_le g KM_PAGE_SIZE eq_refl).
  unfold rounddown in *. change PDPTE_REGION with (262144 * KM_PAGE_SIZE) in *. unfold KM_PAGE_SIZE, two64 in *.
  unfold roundup, u64. rewrite Z.mod_small by (unfold two64; lia). split; [|]; Z.div_mod_to_equations; lia.
Qed.

Lemma kma_inj m w a b k : geom_ok m w -> brk_inv m w -> km_gva_to_kma m a = Some k -> km_gva_to_kma m b = Some k -> a = b.
Proof.
  intros G B (Ha & Hza & Eka)%kma_zones (Hb & Hzb & Ekb)%kma_zones. destruct B as [B1 B2 B3].
  pose proof (va_offset_eq m w G) as Ho. pose proof (pow_w_bounds m w G) as Hp.
  assert (HG : forall x, x = 2 ^ 39 - 2 ^ w -> rounddown (m.(tbrk) - x) KM_PAGE_SIZE = rounddown m.(tbrk) KM_PAGE_SIZE - x).
  { intros x ->. unfold rounddown, KM_PAGE_SIZE. geom G. replace (2 ^ w) with (2 ^ 12 * 2 ^ (w - 12)) by (rewrite <- Z.pow_add_r by lia; f_equal; lia).
    set (z := 2 ^ (w - 12)). change (2 ^ 39) with (2 ^ 12 * 2 ^ 27). change 0x1000 with (2 ^ 12). Z.div_mod_to_equations. lia. }
  destruct (page_below_gib m.(brk) (m.(tbrk) - (2 ^ 39 - 2 ^ w))) as [H1 H2]; [|exact B3|].
  { split; [unfold GUEST_MEM_START_VA, MIB in *; lia|]. pose proof (rounddown_le m.(brk) PDPTE_REGION eq_refl).
    pose proof (rounddown_le (m.(tbrk) - (2 ^ 39 - 2 ^ w)) PDPTE_REGION eq_refl). unfold PDPTE_REGION, GUEST_MEM_TOP_VA, GUEST_MEM_START_VA, MIB, GIB, two64 in *. lia. }
  assert (Hw : 2 ^ w = 2 ^ 39 \/ 2 ^ w <= 2 ^ 38).
  { geom G. destruct (Z.eq_dec w 39) as [->|]; [by left|right]. apply Z.pow_le_mono_r; lia. }
  pose proof (rounddown_le m.(tbrk) KM_PAGE_SIZE eq_refl). assert (KM_PAGE_SIZE < GUEST_MEM_START_VA) by reflexivity. assert (GUEST_MEM_TOP_VA < 2 ^ 39) by reflexivity.
  rewrite (HG _ eq_refl) in H2. unfold gva_to_gpa_nocheck in *. rewrite Ho in *.
  destruct (Z.ltb_spec (2 ^ 39 - 2 ^ w) a), (Z.ltb_spec (2 ^ 39 - 2 ^ w) b); lia.
Qed.

(** ** Lists with distinct addresses *)
Lemma find_addr_None addr l : find_addr addr l = None <-> addr ∉ bp_addr <$> l.
Proof.
  unfold find_addr. rewrite fmap_None, list_find_None, Forall_forall. split.
  - intros H [b [-> Hb]]%list_elem_of_fmap. by apply (H b).
  - intros H b Hb E. apply H. apply list_elem_of_fmap. by exists b.
Qed.
Lemma find_addr_Some addr l b : find_addr addr l = Some b -> b ∈ l /\ b.(bp_addr) = addr.
Proof.
  unfold find_addr. intros ([i x] & (Hl & Hp & _)%list_find_Some & E)%fmap_Some. cbn in E. subst x. split; [|done]. by apply list_elem_of_lookup_2 in Hl.
Qed.

Lemma map_other (f : breakpoint_t -> breakpoint_t) addr (l : list breakpoint_t) :
  addr ∉ bp_addr <$> l -> map (fun b => if b.(bp_addr) =? addr then f b else b) l = l.
Proof.
  induction l as [|b l IH]; [done|]. cbn [fmap list_fmap map]. rewrite not_elem_of_cons. intros [Hb Hl]. rewrite IH by done.
  by destruct (Z.eqb_spec b.(bp_addr) addr).
Qed.
Lemma remove_other addr l : addr ∉ bp_addr <$> l -> remove_addr addr l = l.
Proof.
  unfold remove_addr. induction l as [|b l IH]; [done|]. cbn [fmap list_fmap]. rewrite not_elem_of_cons. intros [Hb Hl].
  rewrite filter_cons_True by done. by rewrite IH.
Qed.
Lemma remove_elem addr l b : b ∈ remove_addr addr l <-> b ∈ l /\ b.(bp_addr) <> addr.
Proof. unfold remove_addr. rewrite list_elem_of_filter. tauto. Qed.
Lemma remove_NoDup addr l : NoDup (bp_addr <$> l) -> NoDup (bp_addr <$> remove_addr addr l) /\ addr ∉ bp_addr <$> remove_addr addr l.
Proof.
  intros Hnd. split.
  - unfold remove_addr. induction l as [|b l IH]; [done|]. cbn [fmap list_fmap] in Hnd. apply NoDup_cons in Hnd as [Hb Hl].
    rewrite filter_cons. case_decide; [|by apply IH]. cbn [fmap list_fmap]. apply NoDup_cons. split; [|by apply IH].
    intros [x [E [_ Hx]%list_elem_of_filter]]%list_elem_of_fmap. apply Hb. apply list_elem_of_fmap. by exists x.
  - intros [b [E [_ Hb]%remove_elem]]%list_elem_of_fmap. done.
Qed.
Lemma remove_length addr l b : NoDup (bp_addr <$> l) -> b ∈ l -> b.(bp_addr) = addr -> Z.of_nat (length (remove_addr addr l)) = Z.of_nat (length l) - 1.
Proof.
  intros Hnd Hb <-. unfold remove_addr. induction l as [|x l IH]; [by apply not_elem_of_nil in Hb|]. cbn [fmap list_fmap] in Hnd. apply NoDup_cons in Hnd as [Hx Hl].
  rewrite filter_cons. apply elem_of_cons in Hb as [->|Hb].
  - rewrite decide_False by (intros Hne; by apply Hne). fold (remove_addr x.(bp_addr) l). rewrite remove_other by done. cbn [length]. lia.
  - rewrite decide_True; [cbn [length]; specialize (IH Hl Hb); lia|]. intros E. apply Hx. apply list_elem_of_fmap. by exists b.
Qed.

Section Transparent.
  Context (m : machine) (lines : list (option (Z * Z * text))) (mprotect_ok : Z -> Z -> bool).
  Context (kinj : forall a b k, km_gva_to_kma m a = Some k -> km_gva_to_kma m b = Some k -> a = b).
Let maps : Z + list (option (Z * Z * text)) := inr lines.
Let debug_ok : kvm_guest_debug -> bool := fun _ => true.

(** ** What the guest has without the traps *)
Definition plain_byte (s : dbg) (k : Z) : Z :=
  match list_find (fun b => km_gva_to_kma m b.(bp_addr) = Some k) s.(sw_breakpoints) with
  | Some (_, b) => b.(saved_insn)
  | None => s.(memory) k
  end.

Lemma plain_trap s b k :
  NoDup (bp_addr <$> s.(sw_breakpoints)) -> b ∈ s.(sw_breakpoints) -> km_gva_to_kma m b.(bp_addr) = Some k -> plain_byte s k = b.(saved_insn).
Proof.
  intros Hnd Hb Hk. unfold plain_byte. destruct (list_find _ _) as [[i x]|] eqn:E.
  - apply list_find_Some in E as (Hx & Hkx & _). pose proof (kinj _ _ _ Hk Hkx) as Ea.
    apply list_elem_of_lookup in Hb as [j Hj]. assert (i = j) as ->; [|congruence].
    eapply (NoDup_lookup _ i j x.(bp_addr) Hnd); rewrite list_lookup_fmap; [by rewrite Hx|]. rewrite Hj. cbn. by rewrite Ea.
  - apply list_find_None in E. rewrite Forall_forall in E. by destruct (E b Hb).
Qed.
Lemma plain_free s k : (forall b, b ∈ s.(sw_breakpoints) -> km_gva_to_kma m b.(bp_addr) <> Some k) -> plain_byte s k = s.(memory) k.
Proof.
  intros Hf. unfold plain_byte. destruct (list_find _ _) as [[i x]|] eqn:E; [|done]. apply list_find_Some in E as (Hx & Hkx & _).
  apply list_elem_of_lookup_2 in Hx. by destruct (Hf x Hx).
Qed.
Lemma plain_cases s k :
  (exists b, b ∈ s.(sw_breakpoints) /\ km_gva_to_kma m b.(bp_addr) = Some k)
  \/ (forall b, b ∈ s.(sw_breakpoints) -> km_gva_to_kma m b.(bp_addr) <> Some k).
Proof.
  destruct (list_find (fun b => km_gva_to_kma m b.(bp_addr) = Some k) s.(sw_breakpoints)) as [[i x]|] eqn:E.
  - apply list_find_Some in E as (Hx & Hkx & _). left. exists x. by apply list_elem_of_lookup_2 in Hx.
  - apply list_find_None in E. rewrite Forall_forall in E. by right.
Qed.

(** ** The invariant *)
Definition trap_set (s : dbg) (b : breakpoint_t) : Prop :=
  b.(bp_type) = GDB_BREAKPOINT_SW /\ b.(bp_refcount) = 1 /\ exists k, km_gva_to_kma m b.(bp_addr) = Some k /\ s.(memory) k = int3.
Definition hw_entry (b : breakpoint_t) : Prop := is_hw b.(bp_type) = true /\ b.(bp_refcount) = 1 /\ 0 <= b.(bp_len) <= 8.
Record bp_inv (s : dbg) : Prop := {
  bi_sw_distinct : NoDup (bp_addr <$> s.(sw_breakpoints));
  bi_sw : Forall (trap_set s) s.(sw_breakpoints);
  bi_hw_distinct : NoDup (bp_addr <$> s.(hw_breakpoints));
  bi_hw : Forall hw_entry s.(hw_breakpoints);
  bi_hw_count : s.(nr_hw_breakpoints) = Z.of_nat (length s.(hw_breakpoints)) /\ s.(nr_hw_breakpoints) <= MAX_HW_BREAKPOINTS;
}.
(** Every vcpu has the settings of the lists. *)
Definition synced (s : dbg) : Prop := exists d, debug_settings s = Some d /\ Forall (fun x => x = d) s.(vcpu_debug).

Lemma dr7_total bps n dr7 :
  0 <= n -> n + Z.of_nat (length bps) <= MAX_HW_BREAKPOINTS -> Forall hw_entry bps -> exists r, dr7_bits n dr7 bps = Some r.
Proof.
  revert n dr7. induction bps as [|b bps IH]; intros n dr7 Hn Hl Hb; [by eexists|]. apply Forall_cons in Hb as [(Ht & _ & Hlen) Hb]. cbn [length dr7_bits] in *.
  rewrite (proj2 (Z.ltb_lt _ _)) by (unfold MAX_HW_BREAKPOINTS in *; lia).
  unfold is_hw, GDB_BREAKPOINT_HW, GDB_WATCHPOINT_ACCESS in Ht. apply andb_true_iff in Ht as [Ht1%Z.leb_le Ht2%Z.leb_le].
  destruct (lookup_lt_is_Some_2 bp_condition_code (Z.to_nat b.(bp_type))) as [c ->]; [cbn; lia|].
  destruct (lookup_lt_is_Some_2 mem_size_code (Z.to_nat b.(bp_len))) as [l ->]; [cbn; lia|]. cbn [mbind option_bind]. apply IH; [lia|lia|done].
Qed.

Lemma settings_total s : bp_inv s -> exists d, debug_settings s = Some d.
Proof.
  intros I. unfold debug_settings. destruct s.(hw_breakpoints) as [|b bps] eqn:E; [by eexists|].
  destruct (dr7_total (b :: bps) 0 (Z.lor (Z.shiftl 1 9) (Z.shiftl 1 10))) as [r ->]; [lia| | |by eexists].
  - pose proof (bi_hw_count s I). rewrite E in *. lia.
  - rewrite <- E. apply I.
Qed.

Lemma settings_frame s d : debug_settings (set_debug d s) = debug_settings s.
Proof. done. Qed.
Lemma inv_frame s d : bp_inv (set_debug d s) <-> bp_inv s.
Proof. split; intros [? ? ? ? ?]; split; done. Qed.

(** ** Updating the vcpus *)
Lemma apply_update i n s d :
  debug_settings s = Some d -> (i + n = length s.(vcpu_debug))%nat ->
  apply_all (km_gdb_update_vcpu_debug debug_ok) i n s = Ret (0, set_debug (take i s.(vcpu_debug) ++ replicate n d) s).
Proof.
  revert i s. induction n as [|n IH]; intros i s Hd Hn; cbn [apply_all].
  - unfold ret. rewrite Nat.add_0_r in Hn. rewrite take_ge by lia. cbn [replicate]. rewrite app_nil_r. by destruct s.
  - unfold bind, km_gdb_update_vcpu_debug at 1, bind, get, modify, ret. rewrite Hd. unfold debug_ok at 1. cbv beta iota.
    rewrite IH; [|done|cbn; rewrite length_insert; lia]. cbn [set_debug vcpu_debug].
    assert (E : take (S i) (<[i:=d]> s.(vcpu_debug)) ++ replicate n d = take i s.(vcpu_debug) ++ replicate (S n) d).
    { rewrite (take_S_r _ i d) by (by rewrite list_lookup_insert_eq by lia). rewrite take_insert_ge by lia. by rewrite <- app_assoc. }
    unfold set_debug. cbn [vcpu_debug sw_breakpoints hw_breakpoints nr_hw_breakpoints stepping memory]. by rewrite E.
Qed.

Lemma update_guest_debug_ok s d :
  debug_settings s = Some d -> km_gdb_update_guest_debug debug_ok s = Ret (0, set_debug (replicate (length s.(vcpu_debug)) d) s).
Proof.
  intros Hd. unfold km_gdb_update_guest_debug, bind at 1, get. unfold bind, ret. rewrite (apply_update 0 (length s.(vcpu_debug)) s d) by done. done.
Qed.

Lemma replicate_synced s n d : debug_settings s = Some d -> synced (set_debug (replicate n d) s).
Proof. intros Hd. exists d. split; [done|]. cbn. by apply Forall_replicate. Qed.

(** ** The requests *)
Lemma find_map_rc l a : (find_map l a).1 = 0 \/ (find_map l a).1 = -1.
Proof. induction l as [|[[[x y] p]|] l IH]; cbn [find_map]; [by right| |done]. destruct ((x <=? a) && (a <? y)); [by left|done]. Qed.

(** Whether the page of an instruction can be written, perhaps after a mprotect. *)
Definition can_write (k : Z) : bool :=
  let (rc, prot) := find_map lines k in (rc =? 0) && (negb (Z.land prot PROT_WRITE =? 0) || mprotect_ok (page_of k) (Z.lor prot PROT_WRITE)).
Definition all_writable : Prop := forall gva k, km_gva_to_kma m gva = Some k -> can_write k = true.

Lemma wp_write_insn insn write Q s :
  (can_write insn = false -> Q (-1) s) -> wp False write (fun _ s' => Q 0 s') s -> wp False (write_insn maps mprotect_ok insn write) Q s.
Proof.
  unfold can_write. intros Hm Hw. unfold write_insn, km_get_page_protection, maps. pose proof (find_map_rc lines insn) as Hr. destruct (find_map lines insn) as [rc prot].
  cbn in Hr. destruct (Z.eqb_spec rc (-1)) as [->|]; [by apply Hm|]. destruct Hr as [->|]; [|done]. cbn [Z.eqb negb andb] in *.
  destruct (_ =? 0), (mprotect_ok _ _); cbn [negb andb orb] in *; [|by apply Hm| |]; apply wp_bind; (eapply wp_mono; [exact Hw|done]).
Qed.

Definition list_of (type : Z) (s : dbg) : list breakpoint_t := if type =? GDB_BREAKPOINT_SW then s.(sw_breakpoints) else s.(hw_breakpoints).
Definition bp_type_ok (type : Z) : Prop := GDB_BREAKPOINT_SW <= type <= GDB_WATCHPOINT_ACCESS.

Lemma bp_list_find_ok type addr s : bp_type_ok type -> bp_list_find type addr s = Ret (find_addr addr (list_of type s), s).
Proof.
  intros Ht. unfold bp_list_find, list_of, bind, get, is_hw. destruct (type =? GDB_BREAKPOINT_SW) eqn:E; [done|]. apply Z.eqb_neq in E.
  unfold bp_type_ok, GDB_BREAKPOINT_SW, GDB_BREAKPOINT_HW, GDB_WATCHPOINT_ACCESS in *.
  by rewrite (proj2 (Z.leb_le 1 type)), (proj2 (Z.leb_le type 4)) by lia.
Qed.

(** The list with an entry for [addr] taken out again. *)
Lemma remove_new_sw addr b s :
  addr ∉ bp_addr <$> s.(sw_breakpoints) -> b.(bp_addr) = addr -> b.(bp_refcount) = 1 ->
  bp_list_remove GDB_BREAKPOINT_SW addr (set_sw (b :: s.(sw_breakpoints)) s) = Ret (0, s).
Proof.
  intros Hn Hb Hr. unfold bp_list_remove, bind at 1. rewrite bp_list_find_ok by (by split).
  assert (E : find_addr addr (list_of GDB_BREAKPOINT_SW (set_sw (b :: s.(sw_breakpoints)) s)) = Some b).
  { unfold list_of, find_addr. cbn [Z.eqb GDB_BREAKPOINT_SW set_sw sw_breakpoints list_find]. by rewrite decide_True. }
  rewrite E, Hr. cbv iota. change (0 <? 1 - 1) with false. cbv iota. unfold bind, modify, ret. cbn [Z.eqb GDB_BREAKPOINT_SW set_sw sw_breakpoints].
  unfold remove_addr. rewrite filter_cons_False by (intros Hne; by apply Hne). fold (remove_addr addr s.(sw_breakpoints)). rewrite remove_other by done.
  by destruct s.
Qed.

(** A trap written for a new entry. *)
Lemma trap_inserted addr len k s :
  let b := mk_bp GDB_BREAKPOINT_SW addr len 1 (s.(memory) k) in
  bp_inv s -> addr ∉ bp_addr <$> s.(sw_breakpoints) -> km_gva_to_kma m addr = Some k ->
  let s' := set_byte k int3 (set_sw (b :: s.(sw_breakpoints)) s) in
  bp_inv s' /\ forall j, plain_byte s' j = plain_byte s j.
Proof.
  intros b I Hn Hk s'.
  assert (Hother : forall x, x ∈ s.(sw_breakpoints) -> km_gva_to_kma m x.(bp_addr) <> Some k).
  { intros x Hx E. apply Hn. apply list_elem_of_fmap. exists x. split; [by apply (kinj _ _ k)|done]. }
  assert (I' : bp_inv s').
  { destruct I as [I1 I2 I3 I4 I5]. split; [|constructor| | |]; try done.
    - cbn. by apply NoDup_cons.
    - split_and!; [done|done|]. exists k. split; [done|]. cbn. by rewrite Z.eqb_refl.
    - cbn [s' set_byte set_sw sw_breakpoints]. rewrite Forall_forall in I2 |- *. intros x Hx. destruct (I2 x Hx) as (? & ? & j & Hj & Hm). split_and!; [done..|].
      exists j. split; [done|]. cbn. destruct (Z.eqb_spec j k) as [->|]; [|done]. by destruct (Hother x Hx). }
  split; [done|]. intros j. destruct (Z.eq_dec j k) as [->|Hne].
  - rewrite (plain_trap s' b k); [|apply I'|by left|done]. by rewrite plain_free.
  - destruct (plain_cases s j) as [(x & Hx & Hj)|Hf].
    + transitivity x.(saved_insn); [apply plain_trap; [apply I'|by right|done]|symmetry; apply plain_trap; [apply I|done|done]].
    + rewrite !plain_free; [|done|]; [cbn; by destruct (Z.eqb_spec j k)|]. intros x [->|Hx]%elem_of_cons; [cbn; congruence|by apply Hf].
Qed.

Lemma trap_removed b k s :
  bp_inv s -> b ∈ s.(sw_breakpoints) -> km_gva_to_kma m b.(bp_addr) = Some k ->
  let s' := set_sw (remove_addr b.(bp_addr) s.(sw_breakpoints)) (set_byte k b.(saved_insn) s) in
  bp_inv s' /\ forall j, plain_byte s' j = plain_byte s j.
Proof.
  intros I Hb Hk s'. pose proof (bi_sw_distinct s I) as Hnd. destruct (remove_NoDup b.(bp_addr) _ Hnd) as [Hnd' Hout].
  assert (Hother : forall x, x ∈ remove_addr b.(bp_addr) s.(sw_breakpoints) -> km_gva_to_kma m x.(bp_addr) <> Some k).
  { intros x [_ Hx]%remove_elem E. by apply Hx, (kinj _ _ k). }
  assert (I' : bp_inv s').
  { destruct I as [I1 I2 I3 I4 I5]. split; try done. cbn [s' set_byte set_sw sw_breakpoints]. rewrite Forall_forall in I2 |- *. intros x Hx.
    assert (Hx' := Hx). apply remove_elem in Hx as [Hx _]. destruct (I2 x Hx) as (? & ? & j & Hj & Hm). split_and!; [done..|].
    exists j. split; [done|]. cbn. destruct (Z.eqb_spec j k) as [->|]; [|done]. by destruct (Hother x Hx'). }
  split; [done|]. intros j. destruct (Z.eq_dec j k) as [->|Hne].
  - rewrite (plain_trap s b k) by done. rewrite plain_free by done. cbn. by rewrite Z.eqb_refl.
  - destruct (plain_cases s j) as [(x & Hx & Hj)|Hf].
    + transitivity x.(saved_insn); [|symmetry; by apply plain_trap]. apply plain_trap; [apply I'| |done].
      apply remove_elem. split; [done|]. intros E. rewrite E in Hj. congruence.
    + rewrite !plain_free; [|done|]; [cbn; by destruct (Z.eqb_spec j k)|]. intros x [Hx _]%remove_elem. by apply Hf.
Qed.

(** What a request keeps. *)
Definition kept_by (s s' : dbg) : Prop := bp_inv s' /\ (forall k, plain_byte s' k = plain_byte s k) /\ length s'.(vcpu_debug) = length s.(vcpu_debug).

Lemma kept_refl s : bp_inv s -> kept_by s s.
Proof. done. Qed.
Lemma kept_trans s s1 s2 : kept_by s s1 -> kept_by s1 s2 -> kept_by s s2.
Proof. intros (? & H1 & L1) (? & H2 & L2). split_and!; [done| |congruence]. intros k. by rewrite H2, H1. Qed.

(** The vcpus get the settings of the new lists. *)
Lemma wp_update (Q : Z -> dbg -> Prop) s :
  bp_inv s -> (forall d, debug_settings s = Some d -> Q 0 (set_debug (replicate (length s.(vcpu_debug)) d) s)) ->
  wp False (km_gdb_update_guest_debug debug_ok) Q s.
Proof. intros I HQ. destruct (settings_total s I) as [d Hd]. unfold wp. rewrite (update_guest_debug_ok s d Hd). by apply HQ. Qed.

Lemma updated_kept s0 s d : kept_by s0 s -> debug_settings s = Some d ->
  kept_by s0 (set_debug (replicate (length s.(vcpu_debug)) d) s) /\ synced (set_debug (replicate (length s.(vcpu_debug)) d) s).
Proof.
  intros (I & Hp & Hl) Hd. split; [|by apply replicate_synced]. split_and!; [by apply inv_frame|done|]. cbn. by rewrite length_replicate.
Qed.

Lemma add_breakpoint_ok type addr len s :
  bp_type_ok type -> 0 <= len <= 8 -> bp_inv s -> synced s ->
  wp False (km_gdb_add_breakpoint m maps mprotect_ok debug_ok type addr len)
    (fun rc s' => kept_by s s' /\ synced s' /\ s'.(stepping) = s.(stepping) /\ (rc = 0 /\ is_Some (find_addr addr (list_of type s')) \/ rc = -1 /\ s' = s)) s.
Proof.
  intros Ht Hlen I Hs. unfold km_gdb_add_breakpoint. apply wp_bind. unfold wp at 1. rewrite bp_list_find_ok by done.
  destruct (find_addr addr (list_of type s)) as [b|] eqn:Ef; [apply wp_ret; split_and!; [by apply kept_refl|done|done|left; by rewrite Ef]|].
  apply wp_bind. unfold bp_list_insert. apply wp_bind. unfold wp at 1. rewrite bp_list_find_ok, Ef by done. unfold list_of in *. apply find_addr_None in Ef.
  destruct (Z.eqb_spec type GDB_BREAKPOINT_SW) as [->|Hne].
  - do 2 wp_step. apply wp_ret. cbn [negb]. apply wp_bind. set (b := mk_bp GDB_BREAKPOINT_SW addr len 1 0). unfold kvm_arch_insert_sw_breakpoint.
    assert (Hback : forall b', b'.(bp_addr) = addr -> b'.(bp_refcount) = 1 -> forall Q : Z -> dbg -> Prop, Q (-1) s ->
      wp False (bp_list_remove GDB_BREAKPOINT_SW addr ;;; ret (-1)) Q (set_sw (b' :: s.(sw_breakpoints)) s)).
    { intros b' Ha Hr Q HQ. apply wp_bind. unfold wp at 1. by rewrite remove_new_sw. }
    destruct (km_gva_to_kma m addr) as [k|] eqn:Hk.
    + apply wp_bind, wp_modify. cbn [set_sw sw_breakpoints map memory]. rewrite map_other by done. cbn [b bp_addr bp_type bp_len bp_refcount]. rewrite Z.eqb_refl.
      set (b' := mk_bp GDB_BREAKPOINT_SW addr len 1 (s.(memory) k)).
      change (set_sw (b' :: s.(sw_breakpoints)) (set_sw (b :: s.(sw_breakpoints)) s)) with (set_sw (b' :: s.(sw_breakpoints)) s).
      apply wp_write_insn.
      * intros _. cbn [Z.eqb negb]. apply Hback; [done..|]. split_and!; [by apply kept_refl|done|done|by right].
      * apply wp_modify. cbn [Z.eqb negb]. destruct (trap_inserted addr len k s I Ef Hk) as [I' Hp]. fold b' in I', Hp.
        apply wp_update; [done|]. intros d Hd. destruct (updated_kept s _ d (conj I' (conj Hp eq_refl)) Hd) as [H1 H2].
        split_and!; [done|done|done|]. left. split; [done|]. cbn. unfold find_addr. cbn. rewrite decide_True by done. by eexists.
    + wp_step. cbn [Z.eqb negb]. apply Hback; [done..|]. split_and!; [by apply kept_refl|done|done|by right].
  - wp_step. wp_step. destruct (Z.eqb_spec s.(nr_hw_breakpoints) MAX_HW_BREAKPOINTS) as [Emax|Emax].
    { wp_steps. cbn [negb]. wp_steps. split_and!; [by apply kept_refl|done|done|by right]. }
    do 2 wp_step. apply wp_ret. cbn [negb]. apply wp_bind. wp_step. cbn [Z.eqb negb]. set (b := mk_bp type addr len 1 0).
    assert (I' : bp_inv (set_hw (b :: s.(hw_breakpoints)) (s.(nr_hw_breakpoints) + 1) s)).
    { destruct I as [I1 I2 I3 I4 [I5 I6]]. split; try done.
      - cbn. by apply NoDup_cons.
      - constructor; [|done]. split_and!; [|done|cbn; lia|cbn; lia]. unfold is_hw, bp_type_ok, GDB_BREAKPOINT_SW, GDB_BREAKPOINT_HW, GDB_WATCHPOINT_ACCESS in *. cbn [b bp_type].
        rewrite (proj2 (Z.leb_le 1 type)), (proj2 (Z.leb_le type 4)) by lia. done.
      - cbn. unfold MAX_HW_BREAKPOINTS in *. lia. }
    apply wp_update; [done|]. intros d Hd. assert (Hk : kept_by s (set_hw (b :: s.(hw_breakpoints)) (s.(nr_hw_breakpoints) + 1) s)) by done.
    destruct (updated_kept s _ d Hk Hd) as [H1 H2]. split_and!; [done|done|done|]. left. split; [done|]. cbn. unfold find_addr. cbn. rewrite decide_True by done. by eexists.
Qed.

Definition lists_shrink (s s' : dbg) : Prop :=
  (forall x, x ∈ s'.(sw_breakpoints) -> x ∈ s.(sw_breakpoints)) /\ (forall x, x ∈ s'.(hw_breakpoints) -> x ∈ s.(hw_breakpoints)).

Lemma hw_removed type addr b s :
  bp_inv s -> (type =? GDB_BREAKPOINT_SW) = false -> b ∈ s.(hw_breakpoints) -> b.(bp_addr) = addr ->
  bp_inv (set_hw (remove_addr addr s.(hw_breakpoints)) (s.(nr_hw_breakpoints) - 1) s).
Proof.
  intros [I1 I2 I3 I4 [I5 I6]] Ht Hb Ha. split; try done.
  - cbn. by apply remove_NoDup.
  - cbn. rewrite Forall_forall in I4 |- *. intros x [Hx _]%remove_elem. by apply I4.
  - cbn. rewrite (remove_length addr _ b) by done. lia.
Qed.

Lemma bp_list_remove_ok type addr b s :
  bp_type_ok type -> find_addr addr (list_of type s) = Some b -> b.(bp_refcount) = 1 ->
  bp_list_remove type addr s
  = Ret (0, if type =? GDB_BREAKPOINT_SW then set_sw (remove_addr addr s.(sw_breakpoints)) s
            else set_hw (remove_addr addr s.(hw_breakpoints)) (s.(nr_hw_breakpoints) - 1) s).
Proof.
  intros Ht Hf Hr. unfold bp_list_remove, bind at 1. rewrite bp_list_find_ok, Hf, Hr by done. cbv iota. change (0 <? 1 - 1) with false. cbv iota.
  unfold bind, modify, ret. done.
Qed.

Lemma remove_breakpoint_ok type addr skip s :
  bp_type_ok type -> bp_inv s ->
  wp False (km_gdb_remove_breakpoint m maps mprotect_ok debug_ok type addr skip)
    (fun rc s' => kept_by s s' /\ (skip = false -> synced s -> synced s') /\ s'.(stepping) = s.(stepping) /\ lists_shrink s s'
       /\ (rc = 0 /\ find_addr addr (list_of type s') = None \/ rc = -1 /\ s' = s /\ ~ all_writable)) s.
Proof.
  intros Ht I. unfold km_gdb_remove_breakpoint. apply wp_bind. unfold wp at 1. rewrite bp_list_find_ok by done.
  destruct (find_addr addr (list_of type s)) as [b|] eqn:Ef; [|apply wp_ret; split_and!; try done; left; by rewrite Ef].
  destruct (find_addr_Some _ _ _ Ef) as [Hb Ha].
  assert (Hfinish : forall s1, kept_by s s1 -> lists_shrink s s1 -> s1.(stepping) = s.(stepping) -> find_addr addr (list_of type s1) = None ->
    wp False (if skip then ret 0 else km_gdb_update_guest_debug debug_ok)
      (fun rc s' => kept_by s s' /\ (skip = false -> synced s -> synced s') /\ s'.(stepping) = s.(stepping) /\ lists_shrink s s'
       /\ (rc = 0 /\ find_addr addr (list_of type s') = None \/ rc = -1 /\ s' = s /\ ~ all_writable)) s1).
  { intros s1 Hk Hsh Hst Hf1. destruct skip; [apply wp_ret; split_and!; try done; by left|]. apply wp_update; [apply Hk|]. intros d Hd.
    destruct (updated_kept s s1 d Hk Hd) as [H1 H2]. split_and!; try done. by left. }
  unfold list_of in Hb. destruct (type =? GDB_BREAKPOINT_SW) eqn:Et.
  - pose proof (bi_sw s I) as Isw. rewrite Forall_forall in Isw. destruct (Isw b Hb) as (Hbt & Hbr & k & Hk & Hm). apply wp_bind.
    unfold kvm_arch_remove_sw_breakpoint. rewrite Hk. apply wp_write_insn.
    + intros Hcw. cbn [Z.eqb negb]. apply wp_ret. split_and!; try done. right. split_and!; [done|done|]. intros Hall. by rewrite (Hall _ _ Hk) in Hcw.
    + do 2 wp_step. apply wp_bind, wp_assert; [by apply Z.eqb_eq|]. apply wp_modify. cbn [Z.eqb negb]. apply wp_bind. unfold wp at 1.
      rewrite (bp_list_remove_ok type addr b (set_byte k b.(saved_insn) s) Ht) by (done || (unfold list_of; rewrite Et; unfold list_of in Ef; by rewrite Et in Ef)). rewrite Et. cbn [Z.eqb].
      destruct (trap_removed b k s I Hb Hk) as [I' Hp]. rewrite Ha in I', Hp. apply Hfinish; [done| |done|].
      * split; [|done]. cbn. by intros x [Hx _]%remove_elem.
      * unfold list_of. rewrite Et. cbn. apply find_addr_None. apply remove_NoDup, I.
  - apply wp_bind, wp_ret. cbn [Z.eqb negb]. apply wp_bind. unfold wp at 1. pose proof (bi_hw s I) as Ihw. rewrite Forall_forall in Ihw. destruct (Ihw b Hb) as (_ & Hbr & _).
    rewrite (bp_list_remove_ok type addr b s Ht) by done. rewrite Et. cbn [Z.eqb]. apply Hfinish; [|split; [done|]| |].
    + split_and!; [by eapply hw_removed|done|done].
    + cbn. by intros x [Hx _]%remove_elem.
    + done.
    + unfold list_of. rewrite Et. cbn. apply find_addr_None. apply remove_NoDup, I.
Qed.

Lemma shrink_trans s s1 s2 : lists_shrink s s1 -> lists_shrink s1 s2 -> lists_shrink s s2.
Proof. intros [A1 A2] [B1 B2]. split; auto. Qed.
Lemma list_of_shrink type s s' x : lists_shrink s s' -> x ∈ list_of type s' -> x ∈ list_of type s.
Proof. intros [A B]. unfold list_of. destruct (type =? GDB_BREAKPOINT_SW); auto. Qed.

Lemma remove_each_ok bps skip finalrc s :
  bp_inv s -> (forall b, b ∈ bps -> bp_type_ok b.(bp_type)) ->
  wp False (remove_each m maps mprotect_ok debug_ok bps skip finalrc)
    (fun rc s' => kept_by s s' /\ (skip = false -> synced s -> synced s') /\ s'.(stepping) = s.(stepping) /\ lists_shrink s s'
       /\ (rc = 0 -> finalrc = 0 /\ forall b x, b ∈ bps -> x ∈ list_of b.(bp_type) s' -> x.(bp_addr) <> b.(bp_addr))
       /\ (all_writable -> finalrc = 0 -> rc = 0)) s.
Proof.
  revert finalrc s. induction bps as [|b bps IH]; intros finalrc s I Ht; cbn [remove_each].
  - apply wp_ret. split_and!; try done. intros ->. split; [done|]. by intros b x Hb%not_elem_of_nil.
  - apply wp_bind. eapply wp_mono; [apply remove_breakpoint_ok; [apply Ht; by left|done]|]. intros rc s1 (Hk & Hsy & Hst & Hsh & Hrc). cbv beta.
    eapply wp_mono; [apply IH; [apply Hk|intros x Hx; apply Ht; by right]|]. intros rc2 s2 (Hk2 & Hsy2 & Hst2 & Hsh2 & Hrc2 & Haw2).
    split_and!; [by eapply kept_trans|auto|congruence|by eapply shrink_trans| |].
    2: { intros Haw Hf0. apply Haw2; [done|]. destruct Hrc as [[-> _]|(_ & _ & Hno)]; [done|]. by destruct Hno. }
    intros E. destruct (Hrc2 E) as [Hfin Hall].
    destruct (Z.eqb_spec rc 0); cbn [negb] in Hfin; [|done]. split; [done|]. intros x y [->|Hx]%elem_of_cons Hy; [|by eapply Hall].
    destruct Hrc as [[_ Hnone]|[? _]]; [|lia]. apply find_addr_None in Hnone. intros Ey. apply Hnone. rewrite <- Ey. apply list_elem_of_fmap. exists y. split; [done|].
    by eapply list_of_shrink.
Qed.

Lemma inv_types s : bp_inv s ->
  (forall b, b ∈ s.(sw_breakpoints) -> b.(bp_type) = GDB_BREAKPOINT_SW) /\ (forall b, b ∈ s.(hw_breakpoints) -> bp_type_ok b.(bp_type) /\ (b.(bp_type) =? GDB_BREAKPOINT_SW) = false).
Proof.
  intros I. pose proof (bi_sw s I) as Isw. pose proof (bi_hw s I) as Ihw. rewrite Forall_forall in Isw, Ihw. split; intros b Hb.
  - by destruct (Isw b Hb).
  - destruct (Ihw b Hb) as ([Ht1%Z.leb_le Ht2%Z.leb_le]%andb_true_iff & _). unfold bp_type_ok, GDB_BREAKPOINT_SW, GDB_BREAKPOINT_HW, GDB_WATCHPOINT_ACCESS in *.
    split; [lia|]. apply Z.eqb_neq. lia.
Qed.

Lemma remove_all_ok skip s :
  bp_inv s ->
  wp False (km_gdb_remove_all_breakpoints m maps mprotect_ok debug_ok skip)
    (fun rc s' => kept_by s s' /\ (skip = false -> synced s -> synced s') /\ s'.(stepping) = s.(stepping)
       /\ (rc = 0 -> s'.(sw_breakpoints) = [] /\ s'.(hw_breakpoints) = []) /\ (all_writable -> rc = 0)) s.
Proof.
  intros I. unfold km_gdb_remove_all_breakpoints. do 2 wp_step. apply wp_bind. destruct (inv_types s I) as [T1 _].
  eapply wp_mono; [apply remove_each_ok; [done|]|]. { intros b Hb. rewrite (T1 b Hb). by split. }
  intros rc1 s1 (Hk1 & Hsy1 & Hst1 & Hsh1 & Hrc1 & Haw1). do 2 wp_step. assert (I1 := proj1 Hk1). destruct (inv_types s1 I1) as [T1' T2'].
  eapply wp_mono; [apply remove_each_ok; [done|intros b Hb; by apply T2']|]. intros rc2 s2 (Hk2 & Hsy2 & Hst2 & Hsh2 & Hrc2 & Haw2).
  split_and!; [by eapply kept_trans|auto|congruence| |by intros Haw; apply Haw2, Haw1]. intros E. destruct (Hrc2 E) as [E1 Hall2]. destruct (Hrc1 E1) as [_ Hall1].
  destruct Hsh1 as [A1 A2], Hsh2 as [B1 B2]. split; apply elem_of_nil_inv; intros x Hx.
  - apply (Hall1 x x); [by apply A1, B1| |done]. unfold list_of. rewrite (T1 x) by (by apply A1, B1). cbn. by apply B1.
  - apply (Hall2 x x); [by apply B2| |done]. unfold list_of. destruct (T2' x) as [_ ->]; [by apply B2|]. done.
Qed.

Lemma set_ss_ok b s :
  bp_inv s -> wp False (modify (set_stepping b) ;;; km_gdb_update_guest_debug debug_ok) (fun rc s' => rc = 0 /\ kept_by s s' /\ synced s' /\ s'.(stepping) = b) s.
Proof.
  intros I. apply wp_bind, wp_modify. assert (I' : bp_inv (set_stepping b s)) by (by destruct I). apply wp_update; [done|]. intros d Hd.
  destruct (updated_kept s (set_stepping b s) d (conj I' (conj (fun _ => eq_refl) eq_refl)) Hd) as [H1 H2]. done.
Qed.

(** ** Any sequence of requests *)
Inductive gdb_request := AddBreakpoint (type addr len : Z) | RemoveBreakpoint (type addr : Z) | RemoveAll | SetStep (b : bool).
Definition request (r : gdb_request) : M dbg Z :=
  match r with
  | AddBreakpoint type addr len => km_gdb_add_breakpoint m maps mprotect_ok debug_ok type addr len
  | RemoveBreakpoint type addr => km_gdb_remove_breakpoint m maps mprotect_ok debug_ok type addr false
  | RemoveAll => km_gdb_remove_all_breakpoints m maps mprotect_ok debug_ok false
  | SetStep true => km_gdb_enable_ss debug_ok
  | SetStep false => km_gdb_disable_ss debug_ok
  end.
(** The types the protocol has; a debug register covers at most eight bytes. *)
Definition request_ok (r : gdb_request) : Prop :=
  match r with
  | AddBreakpoint type _ len => bp_type_ok type /\ 0 <= len <= 8
  | RemoveBreakpoint type _ => bp_type_ok type
  | _ => True
  end.
Fixpoint requests (rs : list gdb_request) : M dbg Z :=
  match rs with
  | [] => ret 0
  | r :: rest => request r ;;; requests rest
  end.

Lemma request_keeps r s : request_ok r -> bp_inv s -> synced s -> wp False (request r) (fun _ s' => kept_by s s' /\ synced s') s.
Proof.
  intros Hr I Hs. destruct r as [type addr len|type addr| |b]; cbn [request].
  - destruct Hr. eapply wp_mono; [by apply add_breakpoint_ok|]. tauto.
  - eapply wp_mono; [by apply remove_breakpoint_ok|]. tauto.
  - eapply wp_mono; [by apply remove_all_ok|]. tauto.
  - destruct b; (eapply wp_mono; [by apply set_ss_ok|tauto]).
Qed.

Lemma requests_keep rs s : Forall request_ok rs -> bp_inv s -> synced s -> wp False (requests rs) (fun _ s' => kept_by s s' /\ synced s') s.
Proof.
  intros Hrs. revert s. induction Hrs as [|r rs Hr Hrs IH]; intros s I Hs; cbn [requests]; [by apply wp_ret|].
  apply wp_bind. eapply wp_mono; [by apply request_keeps|]. intros _ s1 [Hk1 Hs1]. eapply wp_mono; [apply IH; [apply Hk1|done]|].
  intros _ s2 [Hk2 Hs2]. split; [by eapply kept_trans|done].
Qed.

(** Reading memory shows it without the traps. *)
Lemma mem2hex_plain addr k len s :
  bp_inv s -> (forall i, 0 <= i < len -> km_gva_to_kma m (addr + i) = Some (k + i)) -> 2 * len + 1 <= BUFMAX ->
  wp False (km_guest_mem2hex maps mprotect_ok addr k len)
    (fun r s' => s' = s /\ r = if pages_readable maps mprotect_ok (S (Z.to_nat len)) k (k + len) then Some (mem2hex (map (fun i => plain_byte s (k + i)) (seqZ 0 len))) else None) s.
Proof.
  intros I Hk Hl. unfold km_guest_mem2hex. destruct (pages_readable _ _ _ _ _); [|by apply wp_ret]. do 2 wp_step.
  apply wp_bind, wp_assert; [by apply Z.leb_le|]. apply wp_ret. split; [done|]. do 2 f_equal. apply map_ext_in. intros i Hi.
  apply list_elem_of_In, elem_of_seqZ in Hi. destruct (find_addr (addr + i) s.(sw_breakpoints)) as [b|] eqn:Ef.
  - apply find_addr_Some in Ef as [Hb Ha]. symmetry. apply plain_trap; [apply I|done|]. rewrite Ha. apply Hk. lia.
  - apply find_addr_None in Ef. symmetry. apply plain_free. intros b Hb E. apply Ef. apply list_elem_of_fmap. exists b. split; [|done].
    apply (kinj _ _ (k + i)); [apply Hk; lia|done].
Qed.
End Transparent.


(** ** The debug control register *)
Definition dr7_codes (codes : list (Z * Z)) : Z :=
  fold_left (fun dr7 x => Z.lor (Z.lor (Z.lor dr7 (Z.shiftl 2 (x.1 * 2))) (Z.shiftl x.2.1 (16 + x.1 * 4))) (Z.shiftl x.2.2 (18 + x.1 * 4)))
    (zip (seqZ 0 4) codes) (Z.lor (Z.shiftl 1 9) (Z.shiftl 1 10)).
Definition field_ok (r : Z) (codes : list (Z * Z)) (n : Z) : bool :=
  match codes !! Z.to_nat n with
  | Some (c, l) => Z.testbit r (2 * n + 1) && (Z.land (Z.shiftr r (16 + 4 * n)) 3 =? c) && (Z.land (Z.shiftr r (18 + 4 * n)) 3 =? l)
                   && bool_decide (km_gdb_get_hwbreak_info (2 ^ n) r = Some (n, c))
  | None => negb (Z.testbit r (2 * n)) && negb (Z.testbit r (2 * n + 1))
  end.
Fixpoint code_lists (n : nat) : list (list (Z * Z)) :=
  match n with
  | O => [[]]
  | S n' => [] :: flat_map (fun l => map (fun cl => cl :: l) (list_prod [0; 1; 2; 3] [0; 1; 2; 3])) (code_lists n')
  end.
Definition code_ok (x : Z * Z) : Prop := 0 <= x.1 <= 3 /\ 0 <= x.2 <= 3.

Lemma code_lists_all n l : (length l <= n)%nat -> Forall code_ok l -> l ∈ code_lists n.
Proof.
  revert l. induction n as [|n IH]; intros l Hl Hc; destruct l as [|[c d] l]; try (by left); [cbn in Hl; lia|]. apply Forall_cons in Hc as [[Hc Hd] Hf]. cbn in Hc, Hd.
  right. apply list_elem_of_In, in_flat_map. exists l. split; [apply list_elem_of_In, IH; [cbn in Hl; lia|done]|]. apply in_map_iff. exists (c, d). split; [done|].
  apply in_prod; cbn; lia.
Qed.
Lemma dr7_codes_checked : forallb (fun l => forallb (field_ok (dr7_codes l) l) (seqZ 0 4)) (code_lists 4) = true.
Proof. vm_compute. reflexivity. Qed.

Lemma dr7_bits_codes bps r :
  (length bps <= 4)%nat -> dr7_bits 0 (Z.lor (Z.shiftl 1 9) (Z.shiftl 1 10)) bps = Some r ->
  exists codes, Forall2 (fun b x => bp_condition_code !! Z.to_nat b.(bp_type) = Some x.1 /\ mem_size_code !! Z.to_nat b.(bp_len) = Some x.2) bps codes
    /\ r = dr7_codes codes.
Proof.
  assert (H : forall bps n dr7 r, 0 <= n -> n + Z.of_nat (length bps) <= 4 -> dr7_bits n dr7 bps = Some r ->
    exists codes, Forall2 (fun b x => bp_condition_code !! Z.to_nat b.(bp_type) = Some x.1 /\ mem_size_code !! Z.to_nat b.(bp_len) = Some x.2) bps codes
    /\ r = fold_left (fun dr7 x => Z.lor (Z.lor (Z.lor dr7 (Z.shiftl 2 (x.1 * 2))) (Z.shiftl x.2.1 (16 + x.1 * 4))) (Z.shiftl x.2.2 (18 + x.1 * 4)))
             (zip (seqZ n (4 - n)) codes) dr7).
  { clear. induction bps as [|b bps IH]; intros n dr7 r Hn Hl Hr; cbn [dr7_bits] in Hr.
    - injection Hr as <-. exists []. split; [constructor|]. by rewrite zip_with_nil_r.
    - destruct (n <? MAX_HW_BREAKPOINTS); [|done]. destruct (bp_condition_code !! _) as [c|] eqn:Ec; [|done]. destruct (mem_size_code !! _) as [l|] eqn:El; [|done].
      cbn [mbind option_bind length] in *. destruct (IH (n + 1) _ r ltac:(lia) ltac:(lia) Hr) as (codes & Hf & ->). exists ((c, l) :: codes). split; [by constructor|].
      rewrite (seqZ_cons n) by lia. replace (Z.pred (4 - n)) with (4 - (n + 1)) by lia. by replace (Z.succ n) with (n + 1) by lia. }
  intros Hl Hr. destruct (H bps 0 _ r ltac:(lia) ltac:(lia) Hr) as (codes & Hf & ->). by exists codes.
Qed.

(** The encodings of the processor's manual: R/W 00 stops on execution, 01 on writes, 11 on
    reads and writes (10 is for I/O; there is none for reads alone); LEN 00, 01, 11 and 10
    are 1, 2, 4 and 8 bytes. *)
Definition sdm_rw (type : Z) : option Z :=
  if type =? GDB_BREAKPOINT_HW then Some 0 else if type =? GDB_WATCHPOINT_WRITE then Some 1 else if type =? GDB_WATCHPOINT_ACCESS then Some 3 else None.
Definition sdm_len (len : Z) : option Z :=
  if len =? 1 then Some 0 else if len =? 2 then Some 1 else if len =? 8 then Some 2 else if len =? 4 then Some 3 else None.
(** Register [n] fired and none before it; DR6 has other bits that are always set. *)
Definition fired (dr6 n : Z) : Prop := Z.testbit dr6 n = true /\ forall i, 0 <= i < n -> Z.testbit dr6 i = false.

Lemma land_bit x k : 0 <= k -> negb (Z.land x (2 ^ k) =? 0) = Z.testbit x k.
Proof.
  intros Hk. destruct (Z.testbit x k) eqn:E.
  - apply negb_true_iff, Z.eqb_neq. intros Hz. apply (f_equal (fun y => Z.testbit y k)) in Hz. rewrite Z.land_spec, E, Z.pow2_bits_true, Z.bits_0 in Hz by done. done.
  - apply negb_false_iff, Z.eqb_eq. apply Z.bits_inj'. intros j Hj. rewrite Z.land_spec, Z.bits_0, Z.pow2_bits_eqb by done. destruct (Z.eqb_spec k j) as [<-|]; [by rewrite E|apply andb_false_r].
Qed.
Lemma fired_found dr6 dr7 n c : 0 <= n < 4 -> fired dr6 n -> km_gdb_get_hwbreak_info (2 ^ n) dr7 = Some (n, c) -> km_gdb_get_hwbreak_info dr6 dr7 = Some (n, c).
Proof.
  intros Hn [Hb Hl]. unfold km_gdb_get_hwbreak_info.
  pose proof (land_bit dr6 0 ltac:(lia)) as B0. pose proof (land_bit dr6 1 ltac:(lia)) as B1. pose proof (land_bit dr6 2 ltac:(lia)) as B2. pose proof (land_bit dr6 3 ltac:(lia)) as B3.
  change (2 ^ 0) with 1 in B0. change (2 ^ 1) with 2 in B1. change (2 ^ 2) with 4 in B2. change (2 ^ 3) with 8 in B3. rewrite B0, B1, B2, B3.
  assert (n = 0 \/ n = 1 \/ n = 2 \/ n = 3) as [->|[->|[->| ->]]] by lia; rewrite Hb, ?(Hl 0), ?(Hl 1), ?(Hl 2) by lia; cbn; by repeat case_match.
Qed.

Lemma hw_codes b c l : hw_entry b -> bp_condition_code !! Z.to_nat b.(bp_type) = Some c -> mem_size_code !! Z.to_nat b.(bp_len) = Some l ->
  c = default 2 (sdm_rw b.(bp_type)) /\ l = default 0 (sdm_len b.(bp_len)).
Proof.
  intros (Ht & _ & Hlen) H1 H2. unfold is_hw, GDB_BREAKPOINT_HW, GDB_WATCHPOINT_ACCESS in Ht. apply andb_true_iff in Ht as [Ht1%Z.leb_le Ht2%Z.leb_le]. split.
  - assert (b.(bp_type) = 1 \/ b.(bp_type) = 2 \/ b.(bp_type) = 3 \/ b.(bp_type) = 4) as [E|[E|[E|E]]] by lia; rewrite E in *; by injection H1 as <-.
  - assert (Hi : b.(bp_len) ∈ seqZ 0 9) by (apply elem_of_seqZ; lia). cbn in Hi. repeat (apply elem_of_cons in Hi as [E|Hi]; [rewrite E in *; by injection H2 as <-|]). by apply not_elem_of_nil in Hi.
Qed.

(** C32. With hardware breakpoints set, the debug registers given to a vcpu hold their
    addresses in order, and the control register has, for each in its place, the global
    enable bit, and in the encodings of the processor's manual the condition - execution,
    write, or read and write - and the length 1, 2, 4 or 8; no other place is enabled. Two
    cases have no encoding: a watchpoint for reads alone gets condition 2, which the manual
    gives to I/O (the stub aborts on such a stop), and a length that is no power of two up
    to 8 is watched as one byte. When DR6 shows that the register fired and none with a
    lower number, whatever its other bits, the stub finds it and its condition. *)
Theorem debug_registers_exact m s d :
  bp_inv m s -> debug_settings s = Some d -> s.(hw_breakpoints) <> [] ->
  d.(dbg_dr) = map bp_addr s.(hw_breakpoints) /\ forall n, 0 <= n < 4 ->
  let rw := Z.land (Z.shiftr d.(dbg_dr7) (16 + 4 * n)) 3 in
  let len := Z.land (Z.shiftr d.(dbg_dr7) (18 + 4 * n)) 3 in
  match s.(hw_breakpoints) !! Z.to_nat n with
  | Some b =>
      Z.testbit d.(dbg_dr7) (2 * n + 1) = true
      /\ rw = default 2 (sdm_rw b.(bp_type)) /\ len = default 0 (sdm_len b.(bp_len))
      /\ forall dr6, fired dr6 n -> km_gdb_get_hwbreak_info dr6 d.(dbg_dr7) = Some (n, rw)
  | None => Z.testbit d.(dbg_dr7) (2 * n) = false /\ Z.testbit d.(dbg_dr7) (2 * n + 1) = false
  end.
Proof.
  intros I Hd Hne. unfold debug_settings in Hd. destruct (bi_hw_count m s I) as [Hc1 Hc2]. unfold MAX_HW_BREAKPOINTS in Hc2.
  destruct s.(hw_breakpoints) as [|b0 bps] eqn:E; [done|]. rewrite <- E in *. destruct (dr7_bits _ _ _) as [r|] eqn:Er; [|done]. injection Hd as <-. cbn [dbg_dr dbg_dr7].
  split; [done|]. intros n Hn. destruct (dr7_bits_codes s.(hw_breakpoints) r ltac:(lia) Er) as (codes & Hf & ->).
  assert (Hcodes : Forall code_ok codes).
  { apply Forall_forall. intros [c l] Hx. apply list_elem_of_lookup in Hx as [i Hi]. destruct (Forall2_lookup_r _ _ _ _ _ Hf Hi) as (b & _ & H1 & H2). cbn in H1, H2.
    apply list_elem_of_lookup_2 in H1, H2. unfold code_ok. cbn. unfold bp_condition_code, mem_size_code in *.
    repeat (apply elem_of_cons in H1 as [->|H1]; [|]); try (by apply not_elem_of_nil in H1);
      repeat (apply elem_of_cons in H2 as [->|H2]; [lia|]); by apply not_elem_of_nil in H2. }
  pose proof (Forall2_length _ _ _ Hf) as Hlen. pose proof dr7_codes_checked as Hchk. rewrite forallb_forall in Hchk.
  specialize (Hchk codes ltac:(apply list_elem_of_In, code_lists_all; [lia|done])). rewrite forallb_forall in Hchk.
  specialize (Hchk n ltac:(apply list_elem_of_In, elem_of_seqZ; lia)). unfold field_ok in Hchk. destruct (s.(hw_breakpoints) !! Z.to_nat n) as [b|] eqn:Eb.
  - destruct (Forall2_lookup_l _ _ _ _ _ Hf Eb) as ([c l] & Hx & H1 & H2). rewrite Hx in Hchk. cbn in H1, H2.
    apply andb_true_iff in Hchk as [[[K1 K2%Z.eqb_eq]%andb_true_iff K3%Z.eqb_eq]%andb_true_iff K4%bool_decide_eq_true]. rewrite K2, K3.
    pose proof (proj1 (Forall_lookup _ _) (bi_hw m s I) _ _ Eb) as He. destruct (hw_codes b c l He H1 H2) as [-> ->]. split_and!; [done..|]. intros dr6 Hfi. by apply fired_found.
  - rewrite lookup_ge_None_2 in Hchk by (apply lookup_ge_None in Eb; lia). apply andb_true_iff in Hchk as [K1%negb_true_iff K2%negb_true_iff]. done.
Qed.

(** Registers the debugger reads and writes back unchanged are not the vcpu's: r12
    to r15 come from what the reply buffer held before, and of the flags 32 bits are
    left. *)
Theorem registers_written_back v old :
  km_gdb_write_registers (km_gdb_read_registers v old) v
  = Some (mk_vregs v.(vr_rax) v.(vr_rbx) v.(vr_rcx) v.(vr_rdx) v.(vr_rsi) v.(vr_rdi) v.(vr_rbp) v.(vr_rsp) v.(vr_r8) v.(vr_r9) v.(vr_r10) v.(vr_r11)
            old.(gr_r12) old.(gr_r13) old.(gr_r14) old.(gr_r15) v.(vr_rip) (u32 v.(vr_rflags)) v.(vr_segments)).
Proof. unfold km_gdb_write_registers. by rewrite decide_True. Qed.

(** Writing memory overruns the local array for every length but 0. *)
Lemma hex2mem_overruns buf n kma s : (0 < n)%nat -> km_guest_hex2mem buf n kma s = Abort.
Proof.
  intros Hn. unfold km_guest_hex2mem, hex2mem. destruct (Nat.leb_spec (2 * n) (length buf)) as [Hl|]; [|done].
  assert (Hlen : forall n buf, (2 * n <= length buf)%nat -> length (hex2mem_loop buf n) = n).
  { clear. induction n as [|n IH]; intros buf Hl; [done|]. destruct buf as [|h [|l buf]]; cbn [length] in Hl; [lia|lia|]. cbn [hex2mem_loop length]. rewrite IH; lia. }
  rewrite Hlen by done. assert (n / 2 < n)%nat by (apply Nat.div_lt; lia). by rewrite (proj2 (Nat.ltb_lt _ _)).
Qed.
