(* ===== verification/GdbRun.v ===== *)
(** * Running threads under the debugger (km_gdb_stub.c)

    The numbers of signals in the protocol, the vCont request that says what each
    thread does next, and the queue of events the vcpus send to the stub. *)
From S2P Require Import Prelude Machine MemGeom Stdio GdbPacket GdbBreak.
From Stdlib Require Import Ascii.

(** ** Signal numbers *)

(** The tables by index; 0 where the initializer has nothing.  SIGINT is missing:
    its line names SIGQUIT, which the next line sets again. *)
Definition linuxsig2gdbsig : list Z :=
  [0; 1; 0; 3; 4; 5; 6; 10; 8; 9; 30; 11; 31; 13; 14; 15; 0; 20; 19; 17; 18; 21; 22; 16; 24; 25; 26; 27; 28; 33; 32; 12; 46; 76; 45].
Definition gdbsig2linuxsig : list Z :=
  [0; 1; 2; 3; 4; 5; 6; 0; 8; 9; 7; 11; 31; 13; 14; 15; 23; 19; 20; 18; 17; 21; 22; 29; 24; 25; 26; 27; 28; 0; 10; 12; 30; 29]
  ++ replicate 11 0 ++ [34; 32] ++ replicate 29 0 ++ [33].

(** [None]: the element after the last one is read. *)
Definition translate (table : list Z) (n : Z) : option Z :=
  if (n <? 0) || (Z.of_nat (length table) <? n) then Some n
  else match table !! Z.to_nat n with
       | None => None
       | Some x => Some (if x =? 0 then n else x)
       end.
Definition gdb_signo (linuxsig : Z) : option Z := translate linuxsig2gdbsig linuxsig.
Definition linux_signo (gdb_signo : Z) : option Z := translate gdbsig2linuxsig gdb_signo.

Definition GDB_SIGNAL_LAST : Z := 152.
Definition GDB_KMSIGNAL_KVMEXIT : Z := 1020.
Definition GDB_KMSIGNAL_THREADEXIT : Z := 1021.
Definition GDB_KMSIGNAL_DOFORK : Z := 1022.
Definition GDB_KMSIGNAL_EXEC2PROG : Z := 1023.

(** ** Threads *)
Inductive gdb_thread_state_t :=
  THREADSTATE_NONE | THREADSTATE_PAUSED | THREADSTATE_STEPPING | THREADSTATE_RANGESTEPPING | THREADSTATE_RUNNING.
#[global] Instance gdb_thread_state_eq_dec : EqDecision gdb_thread_state_t.
Proof. solve_decision. Defined.

(** An event: its thread, the reason, the exit reason of KVM, and whether it is the
    entry inside the vcpu or the one of the stub's own loop. *)
Record gdb_event_t := mk_gevent { ge_tid : Z; ge_signo : Z; ge_exit_reason : Z; ge_own : bool }.

(** A vcpu: in use (not PARKED_IDLE), inside the guest, the state gdb wants, the range,
    whether its debug registers single step it, and whether its event is queued. *)
Record gdb_vcpu := mk_gvcpu {
  gv_used : bool; gv_in_guest : bool; gdb_run_state : gdb_thread_state_t; steprange_start : Z; steprange_end : Z;
  gv_single_step : bool; entry_is_active : bool
}.
Definition set_run (r : gdb_thread_state_t) (v : gdb_vcpu) : gdb_vcpu :=
  mk_gvcpu v.(gv_used) v.(gv_in_guest) r v.(steprange_start) v.(steprange_end) v.(gv_single_step) v.(entry_is_active).
Definition set_range (a b : Z) (v : gdb_vcpu) : gdb_vcpu :=
  mk_gvcpu v.(gv_used) v.(gv_in_guest) v.(gdb_run_state) a b v.(gv_single_step) v.(entry_is_active).
Definition set_single_step (x : bool) (v : gdb_vcpu) : gdb_vcpu :=
  mk_gvcpu v.(gv_used) v.(gv_in_guest) v.(gdb_run_state) v.(steprange_start) v.(steprange_end) x v.(entry_is_active).
Definition set_active (x : bool) (v : gdb_vcpu) : gdb_vcpu :=
  mk_gvcpu v.(gv_used) v.(gv_in_guest) v.(gdb_run_state) v.(steprange_start) v.(steprange_end) v.(gv_single_step) x.

(** The vcpus by id, the events oldest first, gdbstub.session_requested,
    machine.pause_requested, the wakeups sent to the stub, the thread of the session,
    gdbstub.stepping, the signals delivered and the stop replies, oldest first. *)
Record gdb_run := mk_run {
  g_vcpus : list gdb_vcpu;
  event_queue : list gdb_event_t;
  session_requested : bool;
  pause_requested : bool;
  g_wakeups : Z;
  g_thread : Z;
  g_stepping : bool;
  g_delivered : list (Z * Z);
  g_replies : list gdb_event_t
}.
Definition with_vcpus l (s : gdb_run) := mk_run (l) s.(event_queue) s.(session_requested) s.(pause_requested) s.(g_wakeups) s.(g_thread) s.(g_stepping) s.(g_delivered) s.(g_replies).
Definition with_queue q (s : gdb_run) := mk_run s.(g_vcpus) (q) s.(session_requested) s.(pause_requested) s.(g_wakeups) s.(g_thread) s.(g_stepping) s.(g_delivered) s.(g_replies).
Definition with_session b (s : gdb_run) := mk_run s.(g_vcpus) s.(event_queue) (b) s.(pause_requested) s.(g_wakeups) s.(g_thread) s.(g_stepping) s.(g_delivered) s.(g_replies).
Definition with_pause b (s : gdb_run) := mk_run s.(g_vcpus) s.(event_queue) s.(session_requested) (b) s.(g_wakeups) s.(g_thread) s.(g_stepping) s.(g_delivered) s.(g_replies).
Definition wake (s : gdb_run) := mk_run s.(g_vcpus) s.(event_queue) s.(session_requested) s.(pause_requested) (s.(g_wakeups) + 1) s.(g_thread) s.(g_stepping) s.(g_delivered) s.(g_replies).
Definition with_thread t (s : gdb_run) := mk_run s.(g_vcpus) s.(event_queue) s.(session_requested) s.(pause_requested) s.(g_wakeups) (t) s.(g_stepping) s.(g_delivered) s.(g_replies).
Definition with_stepping b (s : gdb_run) := mk_run s.(g_vcpus) s.(event_queue) s.(session_requested) s.(pause_requested) s.(g_wakeups) s.(g_thread) (b) s.(g_delivered) s.(g_replies).
Definition deliver id signo (s : gdb_run) := mk_run s.(g_vcpus) s.(event_queue) s.(session_requested) s.(pause_requested) s.(g_wakeups) s.(g_thread) s.(g_stepping) (s.(g_delivered) ++ [(id, signo)]) s.(g_replies).
Definition respond e (s : gdb_run) := mk_run s.(g_vcpus) s.(event_queue) s.(session_requested) s.(pause_requested) s.(g_wakeups) s.(g_thread) s.(g_stepping) s.(g_delivered) (s.(g_replies) ++ [e]).
Definition update_vcpu (i : nat) (f : gdb_vcpu -> gdb_vcpu) (s : gdb_run) : gdb_run := with_vcpus (alter f i s.(g_vcpus)) s.

Definition MAX_VCPUS : Z := 288.
(** km_vcpu_fetch_by_tid: the id is one less than the thread id. *)
Definition fetch_by_tid (s : gdb_run) (tid : Z) : option nat :=
  if (0 <? tid) && (tid <? MAX_VCPUS) then
    match s.(g_vcpus) !! Z.to_nat (tid - 1) with
    | Some v => if v.(gv_used) then Some (Z.to_nat (tid - 1)) else None
    | None => None
    end
  else None.

(** ** vCont *)
Inductive action := ANone | APaused | AStepping | ARange (start stop : Z) | ARunning.
Inductive gdb_reply := NoReply | ErrorReply | NotSupported.

(** strtok_r: the runs of characters between separators. *)
Fixpoint tokens_by (sep : ascii) (s cur : text) : list text :=
  match s with
  | [] => match cur with [] => [] | _ => [rev cur] end
  | c :: r => if Ascii.eqb c sep then match cur with [] => tokens_by sep r [] | _ => rev cur :: tokens_by sep r [] end
              else tokens_by sep r (c :: cur)
  end.

Definition first_action (a : action) (i : nat) (acts : list action) : list action :=
  match acts !! i with Some ANone => <[i := a]> acts | _ => acts end.

(** strtoul to base 16 of a whole token. *)
Definition whole_hex (s : text) : option Z :=
  match scan_number 16 s with Some (z, []) => Some (strtoul_range z) | _ => None end.

(** Each thread of the list, left to right; the signals of the earlier ones are
    delivered when a later one is an error. *)
Fixpoint thread_list (tids : list text) (a : action) (sig : option Z) (acts : list action) : M gdb_run (option (list action)) :=
  match tids with
  | [] => ret (Some acts)
  | t :: rest =>
      match whole_hex t with
      | None => ret None
      | Some tid =>
          let* s := get in
          match fetch_by_tid s (int32 tid) with
          | None => ret None
          | Some i =>
              (match sig with Some signo => modify (deliver (Z.of_nat i) signo) | None => ret tt end) ;;;
              thread_list rest a sig (first_action a i acts)
          end
      end
  end.

(** The actions after one token, or the reply that ends the request. *)
Definition vcont_token (tok : text) (acts : list action) : M gdb_run (gdb_reply + list action) :=
  match tok with
  | [] => ret (inr acts)
  | cmd :: args =>
      let threads (tok : text) (sig : option Z) : M gdb_run (gdb_reply + list action) :=
        match tok with
        | c0 :: c1 :: r =>
            if Ascii.eqb c1 colon then
              let a := if Ascii.eqb cmd "c" || Ascii.eqb cmd "C" then ARunning else AStepping in
              let* r := thread_list (tokens_by colon r []) a sig acts in
              ret (match r with Some acts => inr acts | None => inl ErrorReply end)
            else ret (inl ErrorReply)
        | [c0] =>
            let a := if Ascii.eqb c0 "c" || Ascii.eqb c0 "C" then ARunning else AStepping in
            ret (inr (map (fun x => match x with ANone => a | _ => x end) acts))
        | [] => abort
        end in
      if Ascii.eqb cmd "r" then
        match sscanf args "%lx,%lx:%x" with
        | [start; stop; tid] =>
            if stop <? start then ret (inl ErrorReply)
            else
              let* s := get in
              match fetch_by_tid s (int32 tid) with
              | None => ret (inl ErrorReply)
              | Some i => ret (inr (first_action (ARange start stop) i acts))
              end
        | _ => ret (inl ErrorReply)
        end
      else if Ascii.eqb cmd "C" || Ascii.eqb cmd "S" then
        match scan_number 16 (take 2 (skip_spaces args)) with
        | Some (signo, _) =>
            if (0 <? signo) && (signo <? GDB_SIGNAL_LAST) then
              match linux_signo signo with
              | None => abort
              | Some l => threads (drop 2 tok) (Some l)
              end
            else ret (inl ErrorReply)
        | None => ret (inl ErrorReply)
        end
      else if Ascii.eqb cmd "c" || Ascii.eqb cmd "s" then threads tok None
      else ret (inl NotSupported)
  end.

Fixpoint vcont_tokens (toks : list text) (acts : list action) : M gdb_run (gdb_reply + list action) :=
  match toks with
  | [] => ret (inr acts)
  | tok :: rest =>
      let* r := vcont_token tok acts in
      match r with inl e => ret (inl e) | inr acts => vcont_tokens rest acts end
  end.

Definition km_gdb_set_default_runstate (a : action) : action := match a with ANone => APaused | _ => a end.

(** One vcpu in use; a vcpu inside the guest fails the assertion. *)
Definition km_gdb_set_thread_vcont_actions (i : nat) (a : action) : M gdb_run unit :=
  let* s := get in
  match s.(g_vcpus) !! i with
  | None => ret tt
  | Some v =>
      if v.(gv_used) then
        km_assert (negb v.(gv_in_guest)) ;;;
        match a with
        | ANone => abort
        | ARunning => modify (with_stepping false) ;;; modify (update_vcpu i (fun v => set_single_step false (set_run THREADSTATE_RUNNING v)))
        | ARange x y =>
            modify (with_stepping true) ;;;
            modify (update_vcpu i (fun v => set_single_step true (set_range x y (set_run THREADSTATE_RANGESTEPPING v))))
        | AStepping => modify (with_stepping true) ;;; modify (update_vcpu i (fun v => set_single_step true (set_run THREADSTATE_STEPPING v)))
        | APaused => modify (update_vcpu i (set_run THREADSTATE_PAUSED))
        end
      else ret tt
  end.
Fixpoint apply_actions (i : nat) (acts : list action) : M gdb_run unit :=
  match acts with
  | [] => ret tt
  | a :: rest => km_gdb_set_thread_vcont_actions i (km_gdb_set_default_runstate a) ;;; apply_actions (S i) rest
  end.

(** The reply, and whether the guest resumes. *)
Definition km_gdb_handle_vcontpacket (packet : text) : M gdb_run (gdb_reply * bool) :=
  match drop 5 packet with
  | c :: p =>
      if Ascii.eqb c ";"%char then
        let* r := vcont_tokens (tokens_by ";"%char p []) (replicate (Z.to_nat MAX_VCPUS) ANone) in
        match r with
        | inl e => ret (e, false)
        | inr acts => apply_actions 0 acts ;;; ret (NoReply, true)
        end
      else ret (ErrorReply, false)
  | [] => ret (ErrorReply, false)
  end.

(** ** Events *)

(** A vcpu tells the stub why it stopped; its event must not be queued already. *)
Definition km_gdb_notify (i : nat) (signo exit_reason : Z) : M gdb_run unit :=
  modify (with_pause true) ;;;
  let* s := get in
  match s.(g_vcpus) !! i, gdb_signo signo with
  | Some v, Some g =>
      if v.(entry_is_active) then abort
      else
        modify (update_vcpu i (set_active true)) ;;;
        modify (fun s => with_queue (s.(event_queue) ++ [mk_gevent (Z.of_nat i + 1) g exit_reason true]) s) ;;;
        if s.(session_requested) then ret tt else modify (with_session true) ;;; modify wake
  | _, _ => abort
  end.

(** A vcpu comes to life, new or reused; the queue is not looked at. *)
Definition set_used (b : bool) (v : gdb_vcpu) : gdb_vcpu :=
  mk_gvcpu b v.(gv_in_guest) v.(gdb_run_state) v.(steprange_start) v.(steprange_end) v.(gv_single_step) v.(entry_is_active).
Definition km_gdb_vcpu_state_init (i : nat) : M gdb_run unit :=
  modify (update_vcpu i (fun v => set_active false (set_run THREADSTATE_RUNNING v))).

(** The flag is the event's own. *)
Definition deactivate (e : gdb_event_t) (s : gdb_run) : gdb_run :=
  if e.(ge_own) then update_vcpu (Z.to_nat (e.(ge_tid) - 1)) (set_active false) s else s.

(** The oldest event of a thread that is not paused, taken from the queue.  Taking it,
    the reply and clearing its flag are one step here; the code clears the flag after it has
    released notify_mutex and replied (km_gdb_stub.c:2550), while the vcpu of the event is
    stopped for the session.  The event of an exiting thread is answered and stays; one of a thread that is gone follows
    a NULL pointer. *)
Fixpoint select_from (seen queue : list gdb_event_t) : M gdb_run (option gdb_event_t) :=
  match queue with
  | [] => ret None
  | e :: rest =>
      if e.(ge_signo) =? GDB_KMSIGNAL_DOFORK then
        modify (with_queue (rev seen ++ rest)) ;;; modify (deactivate e) ;;; ret (Some e)
      else if e.(ge_signo) =? GDB_KMSIGNAL_THREADEXIT then modify (respond e) ;;; ret None
      else if e.(ge_signo) =? GDB_KMSIGNAL_EXEC2PROG then
        modify (with_queue (rev seen ++ rest)) ;;; modify (deactivate e) ;;; modify (respond e) ;;; ret (Some e)
      else
        let* s := get in
        match fetch_by_tid s e.(ge_tid) ≫= fun i => s.(g_vcpus) !! i with
        | None => abort
        | Some v =>
            if decide (v.(gdb_run_state) = THREADSTATE_PAUSED) then select_from (e :: seen) rest
            else modify (with_queue (rev seen ++ rest)) ;;; modify (with_thread e.(ge_tid)) ;;; modify (respond e) ;;; modify (deactivate e) ;;; ret (Some e)
        end
  end.
Definition gdb_select_event : M gdb_run (option gdb_event_t) := let* s := get in select_from [] s.(event_queue).

(** The last thread that is not paused. *)
Fixpoint find_notpaused (i : nat) (l : list gdb_vcpu) (found : option nat) : option nat :=
  match l with
  | [] => found
  | v :: rest => find_notpaused (S i) rest (if v.(gv_used) && negb (bool_decide (v.(gdb_run_state) = THREADSTATE_PAUSED)) then Some i else found)
  end.
Definition gdb_find_notpaused_vcpu (s : gdb_run) : option nat := find_notpaused 0 s.(g_vcpus) None.

(** The debugger interrupts: an event of the stub's own at the head of the queue,
    unless a thread has stopped already. *)
Definition GDB_SIGNAL_INT : Z := 2.
Definition gdb_interrupt : M gdb_run unit :=
  let* s := get in
  match gdb_find_notpaused_vcpu s with
  | Some i =>
      if s.(session_requested) then ret tt
      else
        modify (with_session true) ;;;
        modify (fun s => with_queue (mk_gevent (Z.of_nat i + 1) GDB_SIGNAL_INT 0 false :: s.(event_queue)) s)
  | None => ret tt
  end.

(** The end of a session: new events wake the stub again, the vcpus run. *)
Definition km_vcpu_resume_all : M gdb_run unit := modify (with_pause false).
Definition gdb_session_end : M gdb_run unit := modify (with_session false) ;;; km_vcpu_resume_all.

(** What a stopped vcpu shows of the trap: exception, DR6, DR7, RIP and the addresses
    in its debug registers. *)
Record debug_exit := mk_exit { dx_exception : Z; dx_dr6 : Z; dx_dr7 : Z; dx_rip : Z; dx_dr_regs : list Z }.
Definition BP_VECTOR : Z := 3.
Definition DB_VECTOR : Z := 1.
Definition trigger_addr (x : debug_exit) : option Z :=
  if (x.(dx_exception) =? BP_VECTOR) || ((x.(dx_dr6) =? 0) && (x.(dx_dr7) =? 0) && (x.(dx_exception) =? DB_VECTOR)) then Some x.(dx_rip)
  else n ← km_gdb_get_hwbreak_info x.(dx_dr6) x.(dx_dr7); x.(dx_dr_regs) !! Z.to_nat n.1.

(** Events of breakpoints that are gone. *)
Section Stale.
  Context (exits : nat -> debug_exit) (bps : dbg).
Definition stale (s : gdb_run) (e : gdb_event_t) : bool :=
  match fetch_by_tid s e.(ge_tid) with
  | None => false
  | Some i =>
      match s.(g_vcpus) !! i with
      | None => false
      | Some v =>
          bool_decide (v.(gdb_run_state) = THREADSTATE_RUNNING) && (e.(ge_signo) =? GDB_KMSIGNAL_KVMEXIT)
          && match trigger_addr (exits i) with
             | None => false
             | Some a => bool_decide (km_gdb_find_breakpoint bps a = None)
             end
      end
  end.
Definition gdb_delete_stale_events : M gdb_run unit :=
  modify (fun s => let dead := filter (fun e => stale s e = true) s.(event_queue) in
                   with_queue (filter (fun e => stale s e = false) s.(event_queue)) (foldr deactivate s dead)).
End Stale.
