(* ===== verification/GdbRunProps.v ===== *)
(** * vCont and the event queue do what the debugger asks *)
From S2P Require Import Prelude Stdio GdbPacket GdbBreak GdbRun.
From Stdlib Require Import Ascii.

(** ** Signal numbers *)
Definition signal_lost (s : Z) : bool := (s =? 16) || (s =? 35) || (s =? 45) || (s =? 46).
Definition back (s : Z) : option Z := gdb_signo s ≫= linux_signo.

Lemma signals_checked :
  forallb (fun s => if signal_lost s then negb (bool_decide (back s = Some s)) else bool_decide (back s = Some s)) (seqZ 1 64) = true.
Proof. reflexivity. Qed.

(** A signal the debugger is told of and sends back is the same signal, for all of
    Linux's but four: 16 comes back as SIGURG, 45 and 46 as the two internal signals
    of the C library, and for 35 the table is read past its end. *)
Theorem signal_numbers_roundtrip s :
  1 <= s <= 64 ->
  back s = if s =? 16 then Some 23 else if s =? 35 then None else if s =? 45 then Some 34 else if s =? 46 then Some 32 else Some s.
Proof.
  intros Hs. pose proof signals_checked as Hc. rewrite forallb_forall in Hc. specialize (Hc s ltac:(apply list_elem_of_In, elem_of_seqZ; lia)).
  unfold signal_lost in Hc. destruct (Z.eqb_spec s 16) as [->|]; [done|]. destruct (Z.eqb_spec s 35) as [->|]; [done|].
  destruct (Z.eqb_spec s 45) as [->|]; [done|]. destruct (Z.eqb_spec s 46) as [->|]; [done|]. by apply bool_decide_eq_true in Hc.
Qed.

(** ** vCont *)

(** What a debugger asks: continue or step, for all threads or for some. *)
Inductive vact := VAll (continue : bool) | VThreads (continue : bool) (ids : list nat).
Definition cmd_char (continue : bool) : ascii := if continue then "c"%char else "s"%char.
Definition cmd_action (continue : bool) : action := if continue then ARunning else AStepping.
Definition print_tid (i : nat) : text := print_base 16 (Z.of_nat i + 1).
Definition print_vact (a : vact) : text :=
  match a with
  | VAll c => [cmd_char c]
  | VThreads c ids => cmd_char c :: concat (map (fun i => colon :: print_tid i) ids)
  end.
Definition semi : ascii := ";"%char.
Definition vcont_packet (vs : list vact) : text := chars "vCont" ++ concat (map (fun a => semi :: print_vact a) vs).

(** The leftmost action that names the thread, or all, counts. *)
Definition mentions (a : vact) (i : nat) : option action :=
  match a with
  | VAll c => Some (cmd_action c)
  | VThreads c ids => if bool_decide (i ∈ ids) then Some (cmd_action c) else None
  end.
Fixpoint wanted (vs : list vact) (i : nat) : action :=
  match vs with
  | [] => ANone
  | v :: rest => match mentions v i with Some a => a | None => wanted rest i end
  end.
Definition over (a b : action) : action := match a with ANone => b | _ => a end.

(** ** Tokens *)
Lemma vcont_tokens_word sep w cur rest :
  Forall (fun c => Ascii.eqb c sep = false) w -> tokens_by sep (w ++ rest) cur = tokens_by sep rest (rev w ++ cur).
Proof.
  intros Hw. revert cur. induction Hw as [|c w Hc Hw IH]; intros cur; [done|]. cbn [app tokens_by rev]. rewrite Hc, IH. by rewrite <- app_assoc.
Qed.
Lemma tokens_joined sep ts cur :
  Forall (fun t => t <> [] /\ Forall (fun c => Ascii.eqb c sep = false) t) ts ->
  tokens_by sep (concat (map (cons sep) ts)) cur = match cur with [] => ts | _ => rev cur :: ts end.
Proof.
  intros Ht. revert cur. induction Ht as [|t ts [Hne Ht] Hts IH]; intros cur; cbn [map concat]; [by destruct cur|]. cbn [app tokens_by]. rewrite Ascii.eqb_refl.
  rewrite vcont_tokens_word by done. rewrite app_nil_r, IH, rev_involutive. destruct (rev t) eqn:E; [|by destruct cur].
  apply (f_equal (@rev ascii)) in E. by rewrite rev_involutive in E.
Qed.

Lemma print_tid_plain c i : stops c = true -> Forall (fun x => Ascii.eqb x c = false) (print_tid i).
Proof.
  intros Hc. unfold print_tid, print_base. apply print_digits_all; [lia| |constructor]. intros d Hd.
  destruct (Ascii.eqb_spec (digit d) c) as [<-|]; [|done]. unfold stops in Hc. by rewrite is_digit_digit in Hc by lia.
Qed.
Lemma print_tid_nonempty i : print_tid i <> [].
Proof. unfold print_tid, print_base. destruct (print_digits_head 20 16 (Z.of_nat i + 1) []) as (d & r & _ & E); [lia|lia|lia|]. by rewrite E. Qed.
Lemma print_tid_back i : (i < 287)%nat -> whole_hex (print_tid i) = Some (Z.of_nat i + 1).
Proof.
  intros Hi. unfold whole_hex, print_tid. destruct (scan_number_unsigned 16 (Z.of_nat i + 1) []) as [E _]; [by right|lia|done|].
  rewrite app_nil_r in E. rewrite E. by rewrite strtoul_small by lia.
Qed.
Lemma print_vact_plain a : print_vact a <> [] /\ Forall (fun c => Ascii.eqb c semi = false) (print_vact a).
Proof.
  destruct a as [c|c ids]; (split; [done|]); cbn [print_vact]; constructor; try constructor; try (by destruct c).
  induction ids as [|i ids IH]; [constructor|]. cbn [map concat]. apply Forall_app. split; [|done]. constructor; [done|]. by apply print_tid_plain.
Qed.

(** ** The actions *)
Definition threads_ok (s : gdb_run) (a : vact) : Prop :=
  match a with
  | VAll _ => True
  | VThreads _ ids => ids <> [] /\ forall i, i ∈ ids -> (i < 287)%nat /\ exists v, s.(g_vcpus) !! i = Some v /\ v.(gv_used) = true
  end.

Lemma fetch_used s i v : (i < 287)%nat -> s.(g_vcpus) !! i = Some v -> v.(gv_used) = true -> fetch_by_tid s (int32 (Z.of_nat i + 1)) = Some i.
Proof.
  intros Hi Hv Hu. rewrite int32_id by lia. unfold fetch_by_tid, MAX_VCPUS. destruct (Z.ltb_spec 0 (Z.of_nat i + 1)), (Z.ltb_spec (Z.of_nat i + 1) 288); try lia.
  cbn [andb]. replace (Z.to_nat (Z.of_nat i + 1 - 1)) with i by lia. by rewrite Hv, Hu.
Qed.

Definition MAXV : nat := Z.to_nat MAX_VCPUS.
Definition agrees (acts : list action) (f : nat -> action) : Prop := length acts = MAXV /\ forall i, (i < MAXV)%nat -> acts !! i = Some (f i).

Lemma first_action_agrees a i acts f : agrees acts f -> agrees (first_action a i acts) (fun j => over (f j) (if bool_decide (j = i) then a else ANone)).
Proof.
  intros [Hl Hf]. unfold first_action. assert (Hover : forall x, over x ANone = x) by (by intros []). destruct (decide (i < MAXV)%nat) as [Hi|Hi].
  - rewrite (Hf i Hi). destruct (f i) eqn:E; (split; [by rewrite ?length_insert|]); intros j Hj; (destruct (decide (j = i)) as [->|Hne];
      [rewrite bool_decide_eq_true_2, E by done|rewrite bool_decide_eq_false_2, Hover by done]); cbn [over].
    all: first [by rewrite list_lookup_insert_eq by lia | by rewrite list_lookup_insert_ne, Hf by done | by rewrite Hf, ?E by done].
  - rewrite lookup_ge_None_2 by lia. split; [done|]. intros j Hj. rewrite bool_decide_eq_false_2 by (intros ->; done). by rewrite Hover, Hf.
Qed.

Lemma agrees_ext acts f g : (forall i, f i = g i) -> agrees acts f -> agrees acts g.
Proof. intros E [Hl Hf]. split; [done|]. intros i Hi. by rewrite <- E, Hf. Qed.

Lemma thread_list_ok ids a acts f s :
  a <> ANone -> agrees acts f -> (forall i, i ∈ ids -> (i < 287)%nat /\ exists v, s.(g_vcpus) !! i = Some v /\ v.(gv_used) = true) ->
  exists acts', thread_list (map print_tid ids) a None acts s = Ret (Some acts', s)
    /\ agrees acts' (fun j => over (f j) (if bool_decide (j ∈ ids) then a else ANone)).
Proof.
  intros Ha. revert acts f. induction ids as [|i ids IH]; intros acts f Hf Hok; cbn [map thread_list].
  - exists acts. split; [done|]. eapply agrees_ext; [|exact Hf]. intros j. by destruct (f j).
  - destruct (Hok i) as (Hi & v & Hv & Hu); [by left|]. rewrite print_tid_back by done. unfold bind, get, ret. rewrite (fetch_used s i v) by done.
    destruct (IH _ _ (first_action_agrees a i acts f Hf)) as (acts' & E & Ha'); [intros j Hj; apply Hok; by right|]. exists acts'. split; [exact E|].
    eapply agrees_ext; [|exact Ha']. intros j. cbn. destruct (decide (j = i)) as [->|Hne].
    + rewrite (bool_decide_eq_true_2 (i = i)), (bool_decide_eq_true_2 (i ∈ i :: ids)) by (done || by left). by destruct (f i), a.
    + rewrite (bool_decide_eq_false_2 (j = i)) by done. rewrite (bool_decide_ext (j ∈ i :: ids) (j ∈ ids)) by (rewrite elem_of_cons; tauto).
      by destruct (f j).
Qed.

Lemma vcont_token_ok v acts f s :
  agrees acts f -> threads_ok s v ->
  exists acts', vcont_token (print_vact v) acts s = Ret (inr acts', s) /\ agrees acts' (fun j => over (f j) (default ANone (mentions v j))).
Proof.
  intros Hf Hok. destruct v as [c|c ids]; cbn [print_vact mentions default].
  - exists (map (fun x => match x with ANone => cmd_action c | _ => x end) acts). split; [by destruct c|]. destruct Hf as [Hl Hf].
    split; [by rewrite length_map|]. intros i Hi. etransitivity; [apply list_lookup_fmap|]. rewrite Hf by done. by destruct (f i).
  - destruct Hok as [Hne Hok]. destruct ids as [|i0 ids]; [done|].
    destruct (thread_list_ok (i0 :: ids) (cmd_action c) acts f s) as (acts' & E & Ha); [by destruct c|done|done|]. exists acts'. split.
    + assert (Ht : tokens_by colon (print_tid i0 ++ concat (map (fun i => colon :: print_tid i) ids)) [] = map print_tid (i0 :: ids)).
      { rewrite vcont_tokens_word by (by apply print_tid_plain). rewrite app_nil_r. replace (map (fun i => colon :: print_tid i) ids) with (map (cons colon) (map print_tid ids)) by (by rewrite map_map).
        rewrite tokens_joined, rev_involutive. 2: { apply Forall_forall. intros t [i [-> _]]%list_elem_of_fmap. split; [apply print_tid_nonempty|by apply print_tid_plain]. }
        destruct (rev (print_tid i0)) eqn:Er; [|done]. apply (f_equal (@rev ascii)) in Er. rewrite rev_involutive in Er. by destruct (print_tid_nonempty i0). }
      unfold vcont_token. cbn [map concat app]. assert (Hcmd : (Ascii.eqb (cmd_char c) "r" = false) /\ Ascii.eqb (cmd_char c) "C" || Ascii.eqb (cmd_char c) "S" = false
        /\ Ascii.eqb (cmd_char c) "c" || Ascii.eqb (cmd_char c) "s" = true /\ (if Ascii.eqb (cmd_char c) "c" || Ascii.eqb (cmd_char c) "C" then ARunning else AStepping) = cmd_action c) by (by destruct c).
      destruct Hcmd as (-> & -> & -> & ->). rewrite Ascii.eqb_refl, Ht. unfold bind. rewrite E. done.
    + eapply agrees_ext; [|exact Ha]. intros j. cbn. by destruct (bool_decide _).
Qed.

Lemma vcont_tokens_ok vs acts f s :
  agrees acts f -> Forall (threads_ok s) vs ->
  exists acts', vcont_tokens (map print_vact vs) acts s = Ret (inr acts', s) /\ agrees acts' (fun j => over (f j) (wanted vs j)).
Proof.
  intros Hf Hvs. revert acts f Hf. induction Hvs as [|v vs Hv Hvs IH]; intros acts f Hf; cbn [map vcont_tokens].
  - exists acts. split; [done|]. eapply agrees_ext; [|exact Hf]. intros j. by destruct (f j).
  - destruct (vcont_token_ok v acts f s Hf Hv) as (acts1 & E1 & Hf1). unfold bind. rewrite E1. destruct (IH acts1 _ Hf1) as (acts2 & E2 & Hf2).
    exists acts2. split; [exact E2|]. eapply agrees_ext; [|exact Hf2]. intros j. cbn [wanted]. destruct v as [c|c ids]; cbn [mentions].
    + by destruct (f j), c.
    + destruct (bool_decide _); [by destruct (f j), c|by destruct (f j)].
Qed.

(** What becomes of a vcpu. *)
Definition acted (a : action) (v : gdb_vcpu) : gdb_vcpu :=
  if v.(gv_used) then
    match a with
    | ARunning => set_single_step false (set_run THREADSTATE_RUNNING v)
    | ARange x y => set_single_step true (set_range x y (set_run THREADSTATE_RANGESTEPPING v))
    | AStepping => set_single_step true (set_run THREADSTATE_STEPPING v)
    | APaused | ANone => set_run THREADSTATE_PAUSED v
    end
  else v.
Definition same_but_run (s s' : gdb_run) : Prop :=
  s'.(event_queue) = s.(event_queue) /\ s'.(session_requested) = s.(session_requested) /\ s'.(g_delivered) = s.(g_delivered) /\ s'.(g_replies) = s.(g_replies).

Lemma set_action_ok i a s :
  (forall v, s.(g_vcpus) !! i = Some v -> v.(gv_used) = true -> v.(gv_in_guest) = false) ->
  exists s', km_gdb_set_thread_vcont_actions i (km_gdb_set_default_runstate a) s = Ret (tt, s') /\ same_but_run s s'
    /\ s'.(g_vcpus) = alter (acted a) i s.(g_vcpus).
Proof.
  intros Hg. unfold km_gdb_set_thread_vcont_actions, bind, get. destruct (s.(g_vcpus) !! i) as [v|] eqn:Ev.
  - destruct (v.(gv_used)) eqn:Eu.
    + rewrite (Hg v eq_refl Eu). cbn [negb km_assert ret].
      assert (Halter : forall f, f v = acted a v -> alter f i s.(g_vcpus) = alter (acted a) i s.(g_vcpus)).
      { intros f Hf. apply list_eq. intros j. destruct (decide (i = j)) as [<-|]; [|by rewrite !list_lookup_alter_ne]. rewrite !list_lookup_alter_eq, Ev. cbn. by rewrite Hf. }
      unfold acted in Halter. rewrite Eu in Halter. unfold km_gdb_set_default_runstate. destruct a; unfold modify, ret; (eexists; split; [reflexivity|]); (split; [done|]);
        cbn [update_vcpu with_vcpus with_stepping g_vcpus]; by rewrite (Halter _ eq_refl).
    + exists s. split; [done|]. split; [done|]. symmetry. apply list_eq. intros j. destruct (decide (i = j)) as [<-|]; [|by rewrite list_lookup_alter_ne].
      rewrite list_lookup_alter_eq, Ev. cbn. unfold acted. by rewrite Eu.
  - exists s. split; [done|]. split; [done|]. symmetry. apply list_eq. intros j. destruct (decide (i = j)) as [<-|]; [|by rewrite list_lookup_alter_ne].
    by rewrite list_lookup_alter_eq, Ev.
Qed.

Lemma apply_actions_ok acts i s :
  (forall j v, s.(g_vcpus) !! j = Some v -> v.(gv_used) = true -> v.(gv_in_guest) = false) ->
  exists s', apply_actions i acts s = Ret (tt, s') /\ same_but_run s s'
    /\ forall j, s'.(g_vcpus) !! j = (if (i <=? j)%nat then (match acts !! (j - i)%nat with Some a => acted a <$> s.(g_vcpus) !! j | None => s.(g_vcpus) !! j end) else s.(g_vcpus) !! j).
Proof.
  revert i s. induction acts as [|a acts IH]; intros i s Hg; cbn [apply_actions].
  - exists s. split; [done|]. split; [done|]. intros j. by destruct (i <=? j)%nat.
  - destruct (set_action_ok i a s (Hg i)) as (s1 & E1 & (Q1 & Q2 & Q3 & Q4) & Hv1). unfold bind. rewrite E1.
    destruct (IH (S i) s1) as (s2 & E2 & (R1 & R2 & R3 & R4) & Hv2).
    { intros j v. rewrite Hv1. destruct (decide (i = j)) as [<-|]; [|rewrite list_lookup_alter_ne by done; apply Hg]. rewrite list_lookup_alter_eq.
      intros (v0 & Hv0 & ->)%fmap_Some. specialize (Hg i v0 Hv0). unfold acted. destruct (v0.(gv_used)) eqn:Eu; [|by rewrite Eu]. by destruct a; cbn; rewrite Eu. }
    exists s2. split; [exact E2|]. split; [split_and!; congruence|]. intros j. rewrite Hv2, Hv1. destruct (decide (i = j)) as [<-|Hne].
    + rewrite (proj2 (Nat.leb_gt (S i) i)), (proj2 (Nat.leb_le i i)), Nat.sub_diag, list_lookup_alter_eq by lia. done.
    + rewrite !list_lookup_alter_ne by done. destruct (Nat.leb_spec (S i) j), (Nat.leb_spec i j); try lia; [|done].
      replace (j - i)%nat with (S (j - S i)) by lia. done.
Qed.


(** A continue with a signal and no threads makes every thread step, and the signal is
    not delivered: the test looks at the last digit of the signal. *)
Definition one_thread : gdb_run := mk_run [mk_gvcpu true false THREADSTATE_PAUSED 0 0 false false] [] false false 0 1 false [] [].
Lemma vcont_signal_steps :
  exists s', km_gdb_handle_vcontpacket (chars "vCont;C05") one_thread = Ret ((NoReply, true), s')
    /\ s'.(g_vcpus) = [mk_gvcpu true false THREADSTATE_STEPPING 0 0 true false] /\ s'.(g_delivered) = [].
Proof. eexists. split; [vm_compute; reflexivity|]. done. Qed.

(** ** The event queue *)
Definition active (s : gdb_run) (i : nat) : bool := match s.(g_vcpus) !! i with Some v => v.(entry_is_active) | None => false end.
Definition own_tids (q : list gdb_event_t) : list Z := ge_tid <$> filter (fun e => e.(ge_own) = true) q.

(** A vcpu's event is marked active exactly while it is in the queue, once. *)
Record queue_inv (s : gdb_run) : Prop := {
  qi_active : forall i, active s i = true <-> Z.of_nat i + 1 ∈ own_tids s.(event_queue);
  qi_once : NoDup (own_tids s.(event_queue));
  qi_tids : forall t, t ∈ own_tids s.(event_queue) -> 0 < t;
}.

Lemma own_tids_app a b : own_tids (a ++ b) = own_tids a ++ own_tids b.
Proof. unfold own_tids. by rewrite filter_app, fmap_app. Qed.
Lemma own_tids_perm a b : a ≡ₚ b -> own_tids a ≡ₚ own_tids b.
Proof. intros H. unfold own_tids. by rewrite H. Qed.
Lemma own_tids_single e : own_tids [e] = if e.(ge_own) then [e.(ge_tid)] else [].
Proof. unfold own_tids. rewrite filter_cons. by destruct (e.(ge_own)). Qed.

(** Events leave the queue and their marks are cleared. *)
Lemma inv_drop s s' dead :
  queue_inv s -> s.(event_queue) ≡ₚ s'.(event_queue) ++ dead ->
  (forall i, active s' i = if decide (Z.of_nat i + 1 ∈ own_tids dead) then false else active s i) -> queue_inv s'.
Proof.
  intros [I1 I2 I3] Hp Ha. pose proof (own_tids_perm _ _ Hp) as Ht. rewrite own_tids_app in Ht.
  assert (Hnd : NoDup (own_tids s'.(event_queue) ++ own_tids dead)) by (by rewrite <- Ht). apply NoDup_app in Hnd as (Hn1 & Hdis & _). split.
  - intros i. rewrite Ha. destruct (decide (Z.of_nat i + 1 ∈ own_tids dead)) as [Hd|Hd].
    + split; [done|]. intros Hq. by destruct (Hdis _ Hq).
    + rewrite I1, Ht, elem_of_app. tauto.
  - done.
  - intros t Hin. apply I3. rewrite Ht. apply elem_of_app. by left.
Qed.

Lemma active_update f i j s : active (update_vcpu i f s) j = (if decide (i = j) then match s.(g_vcpus) !! j with Some v => (f v).(entry_is_active) | None => false end else active s j).
Proof.
  unfold active, update_vcpu. cbn [with_vcpus g_vcpus]. case_decide; subst; [rewrite list_lookup_alter_eq; by destruct (s.(g_vcpus) !! j)|by rewrite list_lookup_alter_ne].
Qed.

Lemma active_deactivate e s j :
  0 < e.(ge_tid) \/ e.(ge_own) = false -> active (deactivate e s) j = if decide (Z.of_nat j + 1 ∈ own_tids [e]) then false else active s j.
Proof.
  intros He. rewrite own_tids_single. unfold deactivate. destruct (e.(ge_own)); [|by rewrite decide_False by (by apply not_elem_of_nil)].
  destruct He as [He|]; [|done]. rewrite active_update. destruct (decide (Z.to_nat (e.(ge_tid) - 1) = j)) as [<-|Hne].
  - rewrite decide_True by (apply list_elem_of_singleton; lia). by destruct (s.(g_vcpus) !! _).
  - rewrite decide_False; [done|]. intros Hin%list_elem_of_singleton. lia.
Qed.

Lemma queue_deactivate e s : (deactivate e s).(event_queue) = s.(event_queue).
Proof. unfold deactivate. by destruct (e.(ge_own)). Qed.

Lemma own_tid_positive s e : queue_inv s -> e ∈ s.(event_queue) -> 0 < e.(ge_tid) \/ e.(ge_own) = false.
Proof.
  intros I He. destruct (e.(ge_own)) eqn:Eo; [left|by right]. apply (qi_tids s I). unfold own_tids. apply list_elem_of_fmap. exists e. split; [done|]. by apply list_elem_of_filter.
Qed.

(** An event the search passes over. *)
Definition passed (s : gdb_run) (e : gdb_event_t) : Prop :=
  e.(ge_signo) <> GDB_KMSIGNAL_DOFORK /\ e.(ge_signo) <> GDB_KMSIGNAL_THREADEXIT /\ e.(ge_signo) <> GDB_KMSIGNAL_EXEC2PROG
  /\ exists i v, fetch_by_tid s e.(ge_tid) = Some i /\ s.(g_vcpus) !! i = Some v /\ v.(gdb_run_state) = THREADSTATE_PAUSED.
(** An event it takes. *)
Definition eligible (s : gdb_run) (e : gdb_event_t) : Prop :=
  e.(ge_signo) <> GDB_KMSIGNAL_THREADEXIT /\
  (e.(ge_signo) = GDB_KMSIGNAL_DOFORK \/ e.(ge_signo) = GDB_KMSIGNAL_EXEC2PROG
   \/ exists i v, fetch_by_tid s e.(ge_tid) = Some i /\ s.(g_vcpus) !! i = Some v /\ v.(gdb_run_state) <> THREADSTATE_PAUSED).

Lemma select_passed s seen pre rest : Forall (passed s) pre -> select_from seen (pre ++ rest) s = select_from (rev pre ++ seen) rest s.
Proof.
  intros Hp. revert seen. induction Hp as [|e pre (H1 & H2 & H3 & i & v & Hi & Hv & Hs) Hp IH]; intros seen; [done|]. cbn [app select_from rev].
  rewrite (proj2 (Z.eqb_neq _ _) H1), (proj2 (Z.eqb_neq _ _) H2), (proj2 (Z.eqb_neq _ _) H3). unfold bind at 1, get. rewrite Hi. cbn [mbind option_bind]. rewrite Hv.
  rewrite decide_True by done. rewrite IH, <- app_assoc. done.
Qed.

Definition taken (s : gdb_run) (q : list gdb_event_t) (e : gdb_event_t) (s' : gdb_run) : Prop :=
  s'.(event_queue) = q /\ (forall j, active s' j = active (deactivate e s) j) /\ s'.(session_requested) = s.(session_requested) /\ s'.(g_delivered) = s.(g_delivered)
  /\ s'.(g_replies) = s.(g_replies) ++ (if e.(ge_signo) =? GDB_KMSIGNAL_DOFORK then [] else [e]).

Lemma deactivate_fields e s :
  (deactivate e s).(session_requested) = s.(session_requested) /\ (deactivate e s).(g_delivered) = s.(g_delivered) /\ (deactivate e s).(g_replies) = s.(g_replies).
Proof. unfold deactivate. by destruct (e.(ge_own)). Qed.
Lemma active_frame e s s1 : s1.(g_vcpus) = s.(g_vcpus) -> forall j, active (deactivate e s1) j = active (deactivate e s) j.
Proof. intros E j. unfold active, deactivate, update_vcpu. destruct (e.(ge_own)); cbn [with_vcpus g_vcpus]; by rewrite E. Qed.

Lemma select_eligible s seen e rest :
  eligible s e -> exists s', select_from seen (e :: rest) s = Ret (Some e, s') /\ taken s (rev seen ++ rest) e s'.
Proof.
  intros (H1 & H2). cbn [select_from]. rewrite (proj2 (Z.eqb_neq _ _) H1). unfold taken. destruct (Z.eqb_spec e.(ge_signo) GDB_KMSIGNAL_DOFORK) as [Ed|Ed].
  { unfold bind, modify, ret. eexists. split; [reflexivity|]. destruct (deactivate_fields e (with_queue (rev seen ++ rest) s)) as (F1 & F2 & F3).
    rewrite queue_deactivate, F1, F2, F3. split_and!; [done|by apply active_frame|done|done|by rewrite app_nil_r]. }
  destruct (Z.eqb_spec e.(ge_signo) GDB_KMSIGNAL_EXEC2PROG) as [Ee|Ee].
  { unfold bind, modify, ret. eexists. split; [reflexivity|]. cbn [respond event_queue session_requested g_delivered g_replies].
    destruct (deactivate_fields e (with_queue (rev seen ++ rest) s)) as (F1 & F2 & F3).
    rewrite queue_deactivate, F1, F2, F3. split_and!; [done|by apply active_frame|done|done|done]. }
  destruct H2 as [?|[?|(i & v & Hi & Hv & Hs)]]; [done|done|]. unfold bind at 1, get. rewrite Hi. cbn [mbind option_bind]. rewrite Hv, decide_False by done.
  unfold bind, modify, ret. eexists. split; [reflexivity|].
  destruct (deactivate_fields e (respond e (with_thread e.(ge_tid) (with_queue (rev seen ++ rest) s)))) as (F1 & F2 & F3).
  rewrite queue_deactivate, F1, F2, F3. split_and!; [done|by apply active_frame|done|done|done].
Qed.

(** Gdb_select_event takes the oldest event that can be reported: those before it
    belong to threads the debugger has paused and stay in the queue in their order;
    the event's mark is cleared, and the debugger is told unless it is a fork.  An
    event of an exiting thread in front of it stops the search. *)
Theorem select_event_oldest s pre e post :
  s.(event_queue) = pre ++ e :: post -> Forall (passed s) pre ->
  (eligible s e -> exists s', gdb_select_event s = Ret (Some e, s') /\ taken s (pre ++ post) e s')
  /\ (e.(ge_signo) = GDB_KMSIGNAL_THREADEXIT -> gdb_select_event s = Ret (None, respond e s)).
Proof.
  intros Hq Hp. unfold gdb_select_event, bind, get. rewrite Hq, select_passed by done. rewrite app_nil_r. split.
  - intros He. destruct (select_eligible s (rev pre) e post He) as (s' & E & Ht). rewrite rev_involutive in Ht. by exists s'.
  - intros Es. cbn [select_from]. rewrite Es. done.
Qed.

(** ** Any sequence of events and requests *)

(** The queue and the marks are as they were. *)
Definition same_queue (s s' : gdb_run) : Prop := s'.(event_queue) = s.(event_queue) /\ forall j, active s' j = active s j.
#[global] Instance same_queue_preorder : PreOrder same_queue.
Proof. split; [by split|]. intros s1 s2 s3 [E1 A1] [E2 A2]. split; [congruence|]. intros j. by rewrite A2. Qed.

Lemma inv_same s s' : same_queue s s' -> queue_inv s -> queue_inv s'.
Proof. intros [E A] [I1 I2 I3]. split; rewrite ?E; [|done|done]. intros i. by rewrite A. Qed.

(** Code that keeps the queue and the marks, from any state. *)
Definition frames {A} (c : M gdb_run A) : Prop := forall s a s', c s = Ret (a, s') -> same_queue s s'.
Lemma frames_ret {A} (a : A) : frames (ret a).
Proof. by intros s a' s' [= _ <-]. Qed.
Lemma frames_abort {A} : frames (@abort gdb_run A).
Proof. by intros s a' s'. Qed.
Lemma frames_assert b : frames (km_assert b).
Proof. destruct b; [apply frames_ret|apply frames_abort]. Qed.
Lemma frames_bind {A B} (c : M gdb_run A) (k : A -> M gdb_run B) : frames c -> (forall a, frames (k a)) -> frames (bind c k).
Proof. intros Hc Hk s b s' (a & s1 & E1 & E2)%bind_ret. etrans; [by eapply Hc|by eapply Hk]. Qed.
Lemma frames_get {B} (k : gdb_run -> M gdb_run B) : (forall s, frames (k s)) -> frames (bind get k).
Proof. intros Hk s b s' E. by apply (Hk s s b s'). Qed.
Lemma frames_modify f : (forall s, same_queue s (f s)) -> frames (modify f).
Proof. by intros Hf s a s' [= _ <-]. Qed.
Lemma same_queue_update f i s : (forall v, (f v).(entry_is_active) = v.(entry_is_active)) -> same_queue s (update_vcpu i f s).
Proof. intros Hf. split; [done|]. intros j. rewrite active_update. case_decide; [|done]. unfold active. destruct (s.(g_vcpus) !! j); [apply Hf|done]. Qed.

Ltac frames_step :=
  lazymatch goal with
  | |- forall _, _ => intro
  | |- frames (ret _) => apply frames_ret
  | |- frames abort => apply frames_abort
  | |- frames (km_assert _) => apply frames_assert
  | |- frames (bind get _) => apply frames_get
  | |- frames (bind _ _) => apply frames_bind
  | |- frames (modify (update_vcpu _ _)) => apply frames_modify; intros; by apply same_queue_update
  | |- frames (modify _) => apply frames_modify; intros; by split
  | |- frames (match ?x with _ => _ end) => destruct x
  end.
Ltac frames := repeat frames_step.

Lemma frames_thread_list tids a sig acts : frames (thread_list tids a sig acts).
Proof. revert acts. induction tids as [|t tids IH]; intros acts; cbn [thread_list]; frames; apply IH. Qed.
Lemma frames_vcont_token tok acts : frames (vcont_token tok acts).
Proof. unfold vcont_token. destruct tok as [|cmd args]; [apply frames_ret|]. cbv zeta. frames; apply frames_thread_list. Qed.
Lemma frames_vcont_tokens toks acts : frames (vcont_tokens toks acts).
Proof. revert acts. induction toks as [|t toks IH]; intros acts; cbn [vcont_tokens]; frames; [apply frames_vcont_token|apply IH]. Qed.
Lemma frames_apply acts i : frames (apply_actions i acts).
Proof. revert i. induction acts as [|a acts IH]; intros i; cbn [apply_actions]; unfold km_gdb_set_thread_vcont_actions; frames; apply IH. Qed.
Lemma frames_vcont packet : frames (km_gdb_handle_vcontpacket packet).
Proof. unfold km_gdb_handle_vcontpacket. frames; [apply frames_vcont_tokens|apply frames_apply]. Qed.

Inductive gdb_step : gdb_run -> gdb_run -> Prop :=
| step_notify i signo exit_reason s s' : km_gdb_notify i signo exit_reason s = Ret (tt, s') -> gdb_step s s'
| step_select r s s' : gdb_select_event s = Ret (r, s') -> gdb_step s s'
| step_interrupt s s' : gdb_interrupt s = Ret (tt, s') -> gdb_step s s'
| step_stale exits bps s s' : gdb_delete_stale_events exits bps s = Ret (tt, s') -> gdb_step s s'
| step_vcont packet r s s' : km_gdb_handle_vcontpacket packet s = Ret (r, s') -> gdb_step s s'
| step_end s s' : gdb_session_end s = Ret (tt, s') -> gdb_step s s'
(* a thread ends; a new vcpu; a parked one is reused when its last event was dealt with *)
| step_park i s : gdb_step s (update_vcpu i (set_used false) s)
| step_new v s : v.(entry_is_active) = false -> gdb_step s (with_vcpus (s.(g_vcpus) ++ [v]) s)
| step_reuse i s s' : Z.of_nat i + 1 ∉ own_tids s.(event_queue) -> km_gdb_vcpu_state_init i (update_vcpu i (set_used true) s) = Ret (tt, s') -> gdb_step s s'.

Lemma notify_inv i signo exit_reason s s' : queue_inv s -> km_gdb_notify i signo exit_reason s = Ret (tt, s') -> queue_inv s'.
Proof.
  intros [I1 I2 I3] E. unfold km_gdb_notify, bind, modify, get in E. cbn [with_pause g_vcpus session_requested] in E.
  destruct (s.(g_vcpus) !! i) as [v|] eqn:Ev; [|done]. destruct (gdb_signo signo) as [g|]; [|done]. destruct (v.(entry_is_active)) eqn:Ea; [done|].
  set (s1 := update_vcpu i (set_active true) (with_pause true s)) in E. set (e := mk_gevent (Z.of_nat i + 1) g exit_reason true) in E.
  assert (Hs : same_queue (with_queue (s1.(event_queue) ++ [e]) s1) s').
  { destruct (s.(session_requested)); unfold ret in E; injection E as <-; by split. }
  apply (inv_same _ _ Hs). assert (Hi : active s i = false) by (unfold active; by rewrite Ev).
  assert (Hq : own_tids ((with_queue (s1.(event_queue) ++ [e]) s1).(event_queue)) = own_tids s.(event_queue) ++ [Z.of_nat i + 1]) by (cbn [with_queue event_queue]; by rewrite own_tids_app).
  split; rewrite Hq.
  - intros j. change (active (with_queue _ s1) j) with (active s1 j). unfold s1. rewrite active_update. change (active (with_pause true s) j) with (active s j). rewrite elem_of_app, list_elem_of_singleton.
    destruct (decide (i = j)) as [<-|]; [cbn [with_pause g_vcpus]; rewrite Ev; cbn; tauto|]. rewrite I1. split; [by left|]. intros [?|?]; [done|lia].
  - apply NoDup_app. split_and!; [done| |apply NoDup_singleton]. intros t Ht ->%list_elem_of_singleton. apply I1 in Ht. congruence.
  - intros t [Ht| ->%list_elem_of_singleton]%elem_of_app; [by apply I3|lia].
Qed.

Lemma select_inv r s s' : queue_inv s -> gdb_select_event s = Ret (r, s') -> queue_inv s'.
Proof.
  intros I. unfold gdb_select_event, bind at 1, get at 1.
  assert (Hgen : forall pre q, s.(event_queue) = pre ++ q -> Forall (passed s) pre -> select_from (rev pre) q s = Ret (r, s') -> queue_inv s').
  2: { intros E. by apply (Hgen [] s.(event_queue)). }
  intros pre q. revert pre. induction q as [|e q IH]; intros pre Hq Hp.
  { by intros [= _ <-]. }
  assert (Htake : eligible s e -> select_from (rev pre) (e :: q) s = Ret (r, s') -> queue_inv s').
  { intros (s1 & E1 & (Hq1 & Ha1 & _))%(select_eligible s (rev pre) e q). rewrite E1. intros [= _ <-]. rewrite rev_involutive in Hq1.
    apply (inv_drop s s1 [e] I); [by rewrite Hq, Hq1, <- app_assoc, (Permutation_app_comm q)|].
    intros i. rewrite Ha1. apply active_deactivate, (own_tid_positive s e I). rewrite Hq. apply elem_of_app. right. apply elem_of_cons. by left. }
  destruct (decide (e.(ge_signo) = GDB_KMSIGNAL_THREADEXIT)) as [Et|Et].
  { cbn [select_from]. rewrite Et. intros [= _ <-]. by apply (inv_same s). }
  destruct (decide (e.(ge_signo) = GDB_KMSIGNAL_DOFORK)) as [Ed|Ed]; [apply Htake; split; [done|by left]|].
  destruct (decide (e.(ge_signo) = GDB_KMSIGNAL_EXEC2PROG)) as [Ee|Ee]; [apply Htake; split; [done|by right; left]|].
  destruct (fetch_by_tid s e.(ge_tid)) as [i|] eqn:Ei.
  2: { cbn [select_from]. rewrite (proj2 (Z.eqb_neq _ _) Et), (proj2 (Z.eqb_neq _ _) Ed), (proj2 (Z.eqb_neq _ _) Ee). unfold bind at 1, get. by rewrite Ei. }
  destruct (s.(g_vcpus) !! i) as [v|] eqn:Ev.
  2: { cbn [select_from]. rewrite (proj2 (Z.eqb_neq _ _) Et), (proj2 (Z.eqb_neq _ _) Ed), (proj2 (Z.eqb_neq _ _) Ee). unfold bind at 1, get. rewrite Ei. cbn [mbind option_bind]. by rewrite Ev. }
  destruct (decide (v.(gdb_run_state) = THREADSTATE_PAUSED)) as [Hpz|Hpz]; [|apply Htake; split; [done|right; right; eauto]].
  assert (He : passed s e) by (split_and!; eauto).
  pose proof (select_passed s (rev pre) [e] q ltac:(by constructor)) as Es. cbn [rev app] in Es. rewrite Es. replace (e :: rev pre) with (rev (pre ++ [e])) by (by rewrite rev_app_distr).
  apply IH; [by rewrite <- app_assoc|]. apply Forall_app. by split; [|constructor].
Qed.

(** Each mark of a list of events cleared. *)
Lemma active_foldr dead s j :
  Forall (fun e => 0 < e.(ge_tid) \/ e.(ge_own) = false) dead ->
  active (foldr deactivate s dead) j = if decide (Z.of_nat j + 1 ∈ own_tids dead) then false else active s j.
Proof.
  induction 1 as [|e dead He Hd IH]; cbn [foldr]; [by rewrite decide_False by apply not_elem_of_nil|]. rewrite active_deactivate, IH by done.
  change (e :: dead) with ([e] ++ dead). rewrite own_tids_app. repeat case_decide; try done; rewrite elem_of_app in *; tauto.
Qed.

Lemma filter_split (f : gdb_event_t -> bool) q : q ≡ₚ filter (fun e => f e = false) q ++ filter (fun e => f e = true) q.
Proof.
  induction q as [|e q IH]; [done|]. rewrite !filter_cons. destruct (f e); cbn; rewrite ?decide_True, ?decide_False by done.
  - etrans; [apply perm_skip, IH|]. apply Permutation_middle.
  - by apply perm_skip.
Qed.

Lemma stale_inv exits bps s s' : queue_inv s -> gdb_delete_stale_events exits bps s = Ret (tt, s') -> queue_inv s'.
Proof.
  intros I [= <-]. set (st := fun e => stale exits bps s e).
  apply (inv_drop s _ (filter (fun e => st e = true) s.(event_queue)) I); [apply (filter_split st)|].
  intros i. change (active (with_queue ?q ?x) i) with (active x i). apply active_foldr. apply Forall_forall. intros e [_ He]%list_elem_of_filter. by apply (own_tid_positive s).
Qed.

Lemma interrupt_inv s s' : queue_inv s -> gdb_interrupt s = Ret (tt, s') -> queue_inv s'.
Proof.
  intros I E. unfold gdb_interrupt, bind at 1, get in E. destruct (gdb_find_notpaused_vcpu s) as [i|]; [|by injection E as <-].
  destruct (s.(session_requested)); [by injection E as <-|]. injection E as <-. destruct I as [I1 I2 I3]. by split.
Qed.

Lemma park_inv i b s : queue_inv s -> queue_inv (update_vcpu i (set_used b) s).
Proof. by apply inv_same, same_queue_update. Qed.
Lemma new_inv v s : v.(entry_is_active) = false -> queue_inv s -> queue_inv (with_vcpus (s.(g_vcpus) ++ [v]) s).
Proof.
  intros Hv. apply inv_same. split; [done|]. intros j. unfold active. cbn [with_vcpus g_vcpus]. destruct (Nat.lt_ge_cases j (length s.(g_vcpus))) as [Hj|Hj]; [by rewrite lookup_app_l|].
  rewrite lookup_app_r, (lookup_ge_None_2 s.(g_vcpus)) by done. by destruct (j - length s.(g_vcpus))%nat as [|k]; [|destruct k].
Qed.
Lemma reuse_inv i s s' : Z.of_nat i + 1 ∉ own_tids s.(event_queue) -> queue_inv s -> km_gdb_vcpu_state_init i s = Ret (tt, s') -> queue_inv s'.
Proof.
  intros Hn I [= <-]. apply (inv_same s); [|done]. split; [done|]. intros j. rewrite active_update. case_decide as E; [subst j|done].
  pose proof (qi_active s I i) as Hi. unfold active in *. destruct (s.(g_vcpus) !! i) as [v|]; [|done]. cbn. destruct (v.(entry_is_active)); [|done]. destruct Hn. by apply Hi.
Qed.
Lemma step_inv s s' : queue_inv s -> gdb_step s s' -> queue_inv s'.
Proof.
  intros I Hs. destruct Hs as [i signo x s s' E|r s s' E|s s' E|exits bps s s' E|packet r s s' E|s s' E|i s|v s Hv|i s s' Hn E].
  - by eapply notify_inv.
  - by eapply select_inv.
  - by eapply interrupt_inv.
  - by eapply stale_inv.
  - apply frames_vcont in E. by eapply inv_same.
  - injection E as <-. by apply (inv_same s).
  - by apply park_inv.
  - by apply new_inv.
  - eapply reuse_inv; [|by apply park_inv|exact E]. done.
Qed.

Definition exited_thread : gdb_run :=
  mk_run [mk_gvcpu false false THREADSTATE_RUNNING 0 0 false true] [mk_gevent 1 GDB_KMSIGNAL_THREADEXIT 0 true] true true 1 1 false [] [].
(** A vcpu that is reused while the event of its exit is queued is marked as having none:
    when it reports again its one event record is in the queue twice. *)
Theorem reuse_breaks_queue :
  exists s1 s2, km_gdb_vcpu_state_init 0 exited_thread = Ret (tt, s1) /\ km_gdb_notify 0 11 0 s1 = Ret (tt, s2)
    /\ queue_inv exited_thread /\ ~ NoDup (own_tids s2.(event_queue)).
Proof.
  eexists _, _. split; [reflexivity|]. split; [reflexivity|]. split.
  - split; [intros [|[|i]]|apply NoDup_singleton|intros t Ht; change (t ∈ [1]) in Ht; apply list_elem_of_singleton in Ht; lia].
    + split; [intros _; by left|done].
    + split; [done|]. intros E. change (2 ∈ [1]) in E. apply list_elem_of_singleton in E. lia.
    + split; [done|]. intros E. change (Z.of_nat (S (S i)) + 1 ∈ [1]) in E. apply list_elem_of_singleton in E. lia.
  - vm_compute. rewrite NoDup_cons. intros [Hn _]. apply Hn. by left.
Qed.

Definition no_events (s : gdb_run) : Prop := s.(event_queue) = [] /\ forall i, active s i = false.
Lemma no_events_inv s : no_events s -> queue_inv s.
Proof.
  intros [Hq Ha]. split; rewrite Hq; cbn; [|constructor|]; intros x; [rewrite Ha; split; [done|]|]; intros []%not_elem_of_nil.
Qed.

(** C34. In any order of notifications by vcpus, selections, interrupts, deletions of stale
    events, vCont requests, ends of sessions, ends of threads, new vcpus and reuses of a
    parked vcpu whose last event is no longer queued, each vcpu's one event record is in the
    queue at most once and is marked active exactly while it is there; so a vcpu whose event
    was taken or discarded can report again: the notification of a known signal never ends
    the process, puts the event last and leaves a session requested, with a wakeup sent if
    none was. Each of these is one step. The code does not wait for the event before it
    reuses a vcpu: [reuse_breaks_queue] shows that a vcpu reused with the event of its exit
    still queued gets into the queue twice. *)
Theorem event_queue_sound s0 s :
  no_events s0 -> rtc gdb_step s0 s ->
  queue_inv s
  /\ forall i v signo g x, s.(g_vcpus) !! i = Some v -> gdb_signo signo = Some g -> Z.of_nat i + 1 ∉ own_tids s.(event_queue) ->
     exists s', km_gdb_notify i signo x s = Ret (tt, s')
       /\ s'.(event_queue) = s.(event_queue) ++ [mk_gevent (Z.of_nat i + 1) g x true]
       /\ s'.(session_requested) = true /\ s'.(pause_requested) = true
       /\ s'.(g_wakeups) = s.(g_wakeups) + (if s.(session_requested) then 0 else 1).
Proof.
  intros H0 Hr. assert (I : queue_inv s).
  { apply no_events_inv in H0. induction Hr as [|s1 s2 s3 H12 _ IH]; [done|]. by apply IH, (step_inv s1). }
  split; [done|]. intros i v signo g x Hv Hg Hn. unfold km_gdb_notify, bind, modify, get. cbn [with_pause g_vcpus session_requested]. rewrite Hv, Hg.
  assert (Ha : v.(entry_is_active) = false).
  { pose proof (qi_active s I i) as Hi. unfold active in Hi. rewrite Hv in Hi. destruct (v.(entry_is_active)); [|done]. destruct Hn. by apply Hi. }
  rewrite Ha. destruct (s.(session_requested)) eqn:Es; (eexists; split; [reflexivity|]); cbn; rewrite ?Es; split_and!; try done; lia.
Qed.
