(* ===== verification/GdbFile.v ===== *)
(** * Files the debugger reads through the stub (km_gdb_stub.c, vFile packets)

    The debugger opens files of the target, reads and closes them by number; the
    stub keeps a table from these numbers to host descriptors.  A handler's result is
    the packet it sends. *)
From S2P Require Import Prelude Machine Stdio GdbPacket.
From Stdlib Require Import Ascii.

Definition MAX_GDB_VFILE_OPEN_FD : Z := 32.
Definition GDB_VFILE_FD_FREE_SLOT : Z := -1.
Definition RESERVED : Z := -2.
Definition PATH_MAX : Z := 4096.
Definition GDB_O_RDONLY : Z := 0.
Definition GDB_O_EXCL : Z := 0x800.
Definition EBADF : Z := 9.
Definition EMFILE : Z := 24.
Definition GDB_EBADF : Z := 9.
Definition GDB_EACCES : Z := 13.
Definition GDB_EINVAL : Z := 22.
Definition GDB_ENFILE : Z := 23.
Definition GDB_EUNKNOWN : Z := 9999.
Definition GDB_ERROR_MSG : text := chars "E01".

(** EPERM, ENOENT, EINTR, EBADF, EACCES, EFAULT, EBUSY, EEXIST, ENODEV, ENOTDIR, EISDIR,
    EINVAL, ENFILE, EMFILE, EFBIG, ENOSPC, ESPIPE, EROFS have the same number; ENAMETOOLONG
    has another. *)
Definition same_errno : list Z := [1; 2; 4; 9; 13; 14; 16; 17; 19; 20; 21; 22; 23; 24; 27; 28; 29; 30].
Definition errno_linux2gdb (linux_errno : Z) : Z :=
  if bool_decide (linux_errno ∈ same_errno) then linux_errno
  else if linux_errno =? 36 then 91
  else GDB_EUNKNOWN.

(** What fstat says of a file, as far as it is passed on. *)
Record file_stat := mk_stat {
  st_ino : Z; st_mode : Z; st_nlink : Z; st_uid : Z; st_gid : Z; st_rdev : Z;
  st_size : Z; st_blksize : Z; st_blocks : Z; st_atime : Z; st_mtime : Z; st_ctime : Z
}.

(** The host: the target of a link or the positive errno; the descriptor for a file, not
    one of those open, or the negative errno; the bytes read; status of a descriptor; 0
    or the errno of a stat of a path; the process id. *)
Class FileHost := {
  h_readlink : text -> Z + text;
  h_open : list Z -> text -> Z;
  h_pread : Z -> Z -> Z -> Z + text;
  h_fstat : Z -> Z + file_stat;
  h_stat : text -> Z;
  h_getpid : Z
}.

(** The table, the process whose root is used, and the descriptors the host has open for
    the stub. *)
Record vfile := mk_vfile { vf_fd : list Z; current_fs : Z; vf_open : list Z }.
Definition set_slot (i v : Z) (s : vfile) : vfile := mk_vfile (<[Z.to_nat i := v]> s.(vf_fd)) s.(current_fs) s.(vf_open).
Definition vf_opened (fd : Z) (s : vfile) : vfile := mk_vfile s.(vf_fd) s.(current_fs) (fd :: s.(vf_open)).
Definition vf_closed (fd : Z) (s : vfile) : vfile := mk_vfile s.(vf_fd) s.(current_fs) (filter (fun x => x <> fd) s.(vf_open)).
Definition slot (s : vfile) (i : Z) : Z := default GDB_VFILE_FD_FREE_SLOT (s.(vf_fd) !! Z.to_nat i).
Definition slot_number (gdb_fd : Z) : bool := (0 <=? gdb_fd) && (gdb_fd <? MAX_GDB_VFILE_OPEN_FD).

Definition km_gdb_vfile_init (s : vfile) : vfile :=
  mk_vfile (replicate (Z.to_nat MAX_GDB_VFILE_OPEN_FD) GDB_VFILE_FD_FREE_SLOT) s.(current_fs) s.(vf_open).

Definition gdb_fd_alloc : M vfile Z :=
  let* s := get in
  match list_find (fun x => x = GDB_VFILE_FD_FREE_SLOT) s.(vf_fd) with
  | Some (i, _) => modify (set_slot (Z.of_nat i) RESERVED) ;;; ret (Z.of_nat i)
  | None => ret (-1)
  end.

Definition gdb_fd_free (gdb_fd : Z) : M vfile Z :=
  if negb (slot_number gdb_fd) then ret EMFILE
  else
    let* s := get in
    if slot s gdb_fd =? GDB_VFILE_FD_FREE_SLOT then ret EBADF
    else modify (set_slot gdb_fd GDB_VFILE_FD_FREE_SLOT) ;;; ret 0.

Definition gdb_fd_find (s : vfile) (gdb_fd : Z) : Z :=
  if slot_number gdb_fd && (0 <=? slot s gdb_fd) then slot s gdb_fd else -1.

Definition gdb_fd_set (gdb_fd linux_fd : Z) : M vfile unit :=
  km_assert (slot_number gdb_fd) ;;;
  km_assert (0 <=? linux_fd) ;;;
  modify (set_slot gdb_fd linux_fd).

(** Every slot that is not free is closed, from the first one. *)
Fixpoint collect_slots (n : nat) (i : Z) : M vfile unit :=
  match n with
  | O => ret tt
  | S n' =>
      let* s := get in
      (if slot s i =? GDB_VFILE_FD_FREE_SLOT then ret tt
       else modify (vf_closed (slot s i)) ;;; modify (set_slot i GDB_VFILE_FD_FREE_SLOT)) ;;;
      collect_slots n' (i + 1)
  end.
Definition gdb_fd_garbage_collect : M vfile unit := collect_slots (Z.to_nat MAX_GDB_VFILE_OPEN_FD) 0.

(** ** Requests *)
Definition char_of (b : Z) : ascii := ascii_of_N (Z.to_N b).
Fixpoint up_to_nul (t : text) : text :=
  match t with c :: r => if Ascii.eqb c nul then [] else c :: up_to_nul r | [] => [] end.

(** A name in hexadecimal into an array of [size] characters. *)
Definition hex_name (packet : text) (size : Z) : option text :=
  let n := (length packet / 2)%nat in
  if size <? Z.of_nat n + 1 then None
  else match hex2mem packet n with Some bytes => Some (up_to_nul (map char_of bytes)) | None => None end.

Fixpoint split_at (c : ascii) (t : text) : option (text * text) :=
  match t with
  | [] => None
  | x :: r => if Ascii.eqb x c then Some ([], r) else match split_at c r with Some (a, b) => Some (x :: a, b) | None => None end
  end.
Definition comma : ascii := ","%char.

(** False: no room, and nothing is appended. *)
Definition stringcat (dest src : text) (destlen : Z) : bool * text :=
  if destlen - Z.of_nat (length dest) <? Z.of_nat (length src) + 1 then (false, dest) else (true, dest ++ src).

Definition hex08 (z : Z) : text := let t := print_base 16 (u32 z) in replicate (8 - length t) "0"%char ++ t.
Definition error_reply (gdb_errno : Z) : text := chars "F-1," ++ hex08 gdb_errno.
(** Flength;attachment *)
Definition data_reply (n : nat) (body : text) : text := "F"%char :: hex08 (Z.of_nat n) ++ ";"%char :: body.
Definition VFILE_READ_PREFIX_SIZE : Z := 10.

Section Requests.
  Context `{H : FileHost}.

Definition proc_root (pid : Z) : text := asprintf "/proc/%d/root" [AInt pid].

Definition handle_vfile_open (packet : text) : M vfile text :=
  match split_at comma packet with
  | None => ret GDB_ERROR_MSG
  | Some (name, args) =>
      match hex_name name (PATH_MAX / 2) with
      | None => abort
      | Some filename =>
          match sscanf args "%x,%x" with
          | [open_flags; file_mode] =>
              if negb (open_flags =? GDB_O_RDONLY) && negb (open_flags =? GDB_O_EXCL) then ret (error_reply GDB_EACCES)
              else
                let* gdb_fd := gdb_fd_alloc in
                if gdb_fd <? 0 then ret (error_reply GDB_ENFILE)
                else
                  let* s := get in
                  match h_readlink (proc_root s.(current_fs)) with
                  | inl errno => gdb_fd_free gdb_fd ;;; ret (error_reply (errno_linux2gdb errno))
                  | inr link =>
                      let root := up_to_nul (take (Z.to_nat (PATH_MAX - 1)) link) in
                      let open_filename :=
                        if decide (root = chars "/") then filename
                        else (stringcat (stringcat root (chars "/") PATH_MAX).2 filename PATH_MAX).2 in
                      let linux_fd := h_open s.(vf_open) open_filename in
                      if linux_fd <? 0 then gdb_fd_free gdb_fd ;;; ret (error_reply (errno_linux2gdb (- linux_fd)))
                      else
                        modify (vf_opened linux_fd) ;;;
                        gdb_fd_set gdb_fd linux_fd ;;;
                        ret ("F"%char :: hex08 gdb_fd)
                  end
          | _ => ret (error_reply GDB_EINVAL)
          end
      end
  end.

Definition handle_vfile_close (packet : text) : M vfile text :=
  match sscanf packet "%x" with
  | [x] =>
      let gdb_fd := int32 x in
      let* s := get in
      let linux_fd := gdb_fd_find s gdb_fd in
      if linux_fd <? 0 then ret (error_reply GDB_EBADF)
      else modify (vf_closed linux_fd) ;;; gdb_fd_free gdb_fd ;;; ret (chars "F0")
  | _ => ret (error_reply GDB_EINVAL)
  end.

(** The reduction of the count wraps around; what does not fit the buffer is written
    after it. *)
Definition handle_vfile_pread (packet : text) : M vfile text :=
  match sscanf packet "%x,%lx,%lx" with
  | [x; count; offset] =>
      let* s := get in
      let linux_fd := gdb_fd_find s (int32 x) in
      if linux_fd <? 0 then ret (error_reply GDB_EBADF)
      else
        let count := if BUFMAX <? u64 (count + VFILE_READ_PREFIX_SIZE) then BUFMAX - VFILE_READ_PREFIX_SIZE else count in
        match h_pread linux_fd count (s64 offset) with
        | inl errno => ret (error_reply (errno_linux2gdb errno))
        | inr data =>
            if BUFMAX <? Z.of_nat (length data) then abort
            else
              let '(body, copied) := gdb_binary_escape_add data (Z.to_nat (BUFMAX - VFILE_READ_PREFIX_SIZE)) in
              ret (data_reply copied body)
        end
  | _ => ret (error_reply GDB_EINVAL)
  end.

Definition gdb_stat (s : file_stat) : list Z :=
  put_uint32 1 ++ put_uint32 s.(st_ino) ++ put_uint32 s.(st_mode) ++ put_uint32 s.(st_nlink) ++ put_uint32 s.(st_uid)
  ++ put_uint32 s.(st_gid) ++ put_uint32 s.(st_rdev) ++ put_uint64 s.(st_size) ++ put_uint64 s.(st_blksize)
  ++ put_uint64 s.(st_blocks) ++ put_uint32 s.(st_atime) ++ put_uint32 s.(st_mtime) ++ put_uint32 s.(st_ctime).

Definition handle_vfile_fstat (packet : text) : M vfile text :=
  match sscanf packet "%x" with
  | [x] =>
      let* s := get in
      let linux_fd := gdb_fd_find s (int32 x) in
      if linux_fd <? 0 then ret (error_reply GDB_EBADF)
      else
        match h_fstat linux_fd with
        | inl errno => ret (error_reply (errno_linux2gdb errno))
        | inr st =>
            let '(body, copied) := gdb_binary_escape_add (map char_of (gdb_stat st)) (Z.to_nat (BUFMAX - VFILE_READ_PREFIX_SIZE)) in
            km_assert (copied =? length (gdb_stat st))%nat ;;;
            ret (data_reply (length (gdb_stat st)) body)
        end
  | _ => ret (error_reply GDB_EINVAL)
  end.

Definition handle_vfile_readlink (packet : text) : M vfile text :=
  match hex_name packet PATH_MAX with
  | None => abort
  | Some filename =>
      match h_readlink filename with
      | inl errno => ret (error_reply (errno_linux2gdb errno))
      | inr link =>
          let '(body, copied) := gdb_binary_escape_add (take (Z.to_nat BUFMAX) link) (Z.to_nat (BUFMAX - VFILE_READ_PREFIX_SIZE)) in
          ret (data_reply copied body)
      end
  end.

(** strtol of the whole text; nothing is 0. *)
Definition whole_pid (packet : text) : option Z :=
  match packet, scan_number 16 packet with
  | [], _ => Some 0
  | _, Some (z, []) => Some (int32 (strtol_range z))
  | _, _ => None
  end.
Definition handle_vfile_setfs (packet : text) : M vfile text :=
  match whole_pid packet with
  | None => ret GDB_ERROR_MSG
  | Some pid =>
      let pid := if (pid =? 1) || (pid =? 0) then h_getpid else pid in
      let rc := h_stat (proc_root pid) in
      if negb (rc =? 0) then ret (error_reply (errno_linux2gdb rc))
      else modify (fun s => mk_vfile s.(vf_fd) pid s.(vf_open)) ;;; ret (chars "F0")
  end.

(** The first command the text starts with; the empty packet says it is unknown. *)
Definition cmd_vector : list (text * (text -> M vfile text)) :=
  [(chars "pread:", handle_vfile_pread); (chars "fstat:", handle_vfile_fstat); (chars "open:", handle_vfile_open);
   (chars "close:", handle_vfile_close); (chars "setfs:", handle_vfile_setfs); (chars "readlink:", handle_vfile_readlink)].
Fixpoint dispatch (v : list (text * (text -> M vfile text))) (p : text) : M vfile text :=
  match v with
  | [] => ret []
  | (cmd, f) :: rest => if decide (take (length cmd) p = cmd) then f (drop (length cmd) p) else dispatch rest p
  end.
Definition km_gdb_handle_vfilepacket (packet : text) : M vfile text := dispatch cmd_vector (drop (length (chars "vFile:")) packet).
End Requests.
