(* ===== verification/GdbFileProps.v ===== *)
(** * The debugger's files: no descriptor is lost, and files are read as they are *)
From S2P Require Import Prelude Machine Stdio GdbPacket GdbPacketProps GdbFile.
From Stdlib Require Import Ascii.

(** ** The table and the host's descriptors *)
Definition bound (s : vfile) : list Z := filter (fun x => 0 <= x) s.(vf_fd).
Definition slot_ok (x : Z) : Prop := x = GDB_VFILE_FD_FREE_SLOT \/ 0 <= x.
Definition NSLOT : nat := Z.to_nat MAX_GDB_VFILE_OPEN_FD.

(** The host's descriptors are those of the table, each once; no slot stays reserved. *)
Record vf_inv (s : vfile) : Prop := {
  vi_length : length s.(vf_fd) = NSLOT;
  vi_slots : Forall slot_ok s.(vf_fd);
  vi_open : s.(vf_open) ≡ₚ bound s;
  vi_once : NoDup s.(vf_open);
}.

Lemma bound_insert i x y l : l !! i = Some x -> ~ 0 <= x -> 0 <= y -> filter (fun z => 0 <= z) (<[i := y]> l) ≡ₚ y :: filter (fun z => 0 <= z) l.
Proof.
  intros Hi Hx Hy. rewrite <- (take_drop_middle l i x Hi) at 2. rewrite (insert_take_drop l i y) by (by eapply lookup_lt_Some).
  rewrite !filter_app, !filter_cons. rewrite (decide_True (P := 0 <= y)), (decide_False (P := 0 <= x)) by done. by rewrite Permutation_middle.
Qed.
Lemma bound_clear i x l : l !! i = Some x -> 0 <= x -> filter (fun z => 0 <= z) l ≡ₚ x :: filter (fun z => 0 <= z) (<[i := GDB_VFILE_FD_FREE_SLOT]> l).
Proof.
  intros Hi Hx. rewrite <- (take_drop_middle l i x Hi) at 1. rewrite (insert_take_drop l i _) by (by eapply lookup_lt_Some).
  rewrite !filter_app, !filter_cons. rewrite (decide_True (P := 0 <= x)), (decide_False (P := 0 <= GDB_VFILE_FD_FREE_SLOT)) by (done || (unfold GDB_VFILE_FD_FREE_SLOT; lia)). by rewrite Permutation_middle.
Qed.

Lemma slot_number_lt s i : vf_inv s -> slot_number i = true -> s.(vf_fd) !! Z.to_nat i = Some (slot s i) /\ slot_ok (slot s i).
Proof.
  intros I [H1%Z.leb_le H2%Z.ltb_lt]%andb_true_iff. destruct (lookup_lt_is_Some_2 s.(vf_fd) (Z.to_nat i)) as [x Hx].
  { rewrite (vi_length s I). unfold NSLOT. lia. }
  unfold slot. rewrite Hx. split; [done|]. by apply (Forall_lookup_1 _ _ _ _ (vi_slots s I) Hx).
Qed.

Lemma filter_id (P : Z -> Prop) `{!forall x, Decision (P x)} (l : list Z) : (forall x, x ∈ l -> P x) -> filter P l = l.
Proof. induction l as [|x l IH]; intros Hp; [done|]. rewrite filter_cons_True by (apply Hp; by left). f_equal. apply IH. intros y Hy. apply Hp. by right. Qed.

(** A descriptor of the host closed and its slot freed. *)
Lemma inv_release s i :
  vf_inv s -> slot_number i = true -> 0 <= slot s i ->
  vf_inv (set_slot i GDB_VFILE_FD_FREE_SLOT (vf_closed (slot s i) s)).
Proof.
  intros I Hi Hx. destruct (slot_number_lt s i I Hi) as [Hl _]. pose proof (bound_clear _ _ _ Hl Hx) as Hb. destruct I as [I1 I2 I3 I4]. unfold bound in I3.
  assert (Hnd : NoDup (slot s i :: filter (fun z => 0 <= z) (<[Z.to_nat i := GDB_VFILE_FD_FREE_SLOT]> s.(vf_fd)))) by (by rewrite <- Hb, <- I3).
  apply NoDup_cons in Hnd as [Hn Hnd]. split; cbn [set_slot vf_closed vf_fd vf_open].
  - by rewrite length_insert.
  - apply Forall_insert; [done|by left].
  - unfold bound. cbn [set_slot vf_closed vf_fd]. rewrite I3, Hb, filter_cons, decide_False by (intros Hne; by apply Hne).
    rewrite filter_id; [done|]. intros x Hin ->. done.
  - by apply NoDup_filter.
Qed.

Lemma wp_alloc (Q : Z -> vfile -> Prop) s :
  vf_inv s -> Q (-1) s ->
  (forall i, slot_number i = true -> slot s i = GDB_VFILE_FD_FREE_SLOT -> Q i (set_slot i RESERVED s)) -> wp False gdb_fd_alloc Q s.
Proof.
  intros I Hn Hq. unfold gdb_fd_alloc. do 2 wp_step. destruct (list_find _ _) as [[i x]|] eqn:E; [|by apply wp_ret]. apply list_find_Some in E as (Hi & -> & _).
  apply wp_bind, wp_modify, wp_ret. apply Hq.
  - pose proof (lookup_lt_Some _ _ _ Hi) as Hl. rewrite (vi_length s I) in Hl. unfold NSLOT, slot_number in *.
    rewrite (proj2 (Z.leb_le _ _)), (proj2 (Z.ltb_lt _ _)) by lia. done.
  - unfold slot. by rewrite Nat2Z.id, Hi.
Qed.

Lemma set_twice i x y s : set_slot i x (set_slot i y s) = set_slot i x s.
Proof. unfold set_slot. cbn. by rewrite list_insert_insert_eq. Qed.
Lemma slot_reset i s : vf_inv s -> slot_number i = true -> slot s i = GDB_VFILE_FD_FREE_SLOT -> set_slot i GDB_VFILE_FD_FREE_SLOT s = s.
Proof.
  intros I Hi Hs. destruct (slot_number_lt s i I Hi) as [Hl _]. rewrite Hs in Hl. unfold set_slot. rewrite list_insert_id by done. by destruct s.
Qed.
Lemma slot_set i x s : vf_inv s -> slot_number i = true -> slot (set_slot i x s) i = x.
Proof.
  intros I [H1%Z.leb_le H2%Z.ltb_lt]%andb_true_iff. unfold slot, set_slot. cbn. rewrite list_lookup_insert_eq; [done|]. rewrite (vi_length s I). unfold NSLOT. lia.
Qed.

(** A reserved slot given back. *)
Lemma wp_free_reserved (Q : Z -> vfile -> Prop) i s :
  vf_inv s -> slot_number i = true -> slot s i = GDB_VFILE_FD_FREE_SLOT -> Q 0 s -> wp False (gdb_fd_free i) Q (set_slot i RESERVED s).
Proof.
  intros I Hi Hs HQ. unfold gdb_fd_free. rewrite Hi. cbn [negb]. do 2 wp_step. rewrite slot_set by done. change (RESERVED =? GDB_VFILE_FD_FREE_SLOT) with false. cbv iota.
  apply wp_bind, wp_modify, wp_ret. by rewrite set_twice, slot_reset.
Qed.

Lemma inv_bind s i fd :
  vf_inv s -> slot_number i = true -> slot s i = GDB_VFILE_FD_FREE_SLOT -> 0 <= fd -> fd ∉ s.(vf_open) -> vf_inv (set_slot i fd (vf_opened fd s)).
Proof.
  intros I Hi Hs Hfd Hn. destruct (slot_number_lt s i I Hi) as [Hl _]. rewrite Hs in Hl. destruct I as [I1 I2 I3 I4]. split; cbn [set_slot vf_opened vf_fd vf_open].
  - by rewrite length_insert.
  - apply Forall_insert; [done|by right].
  - unfold bound. cbn [set_slot vf_opened vf_fd]. rewrite I3. symmetry. apply (bound_insert _ GDB_VFILE_FD_FREE_SLOT); [done|unfold GDB_VFILE_FD_FREE_SLOT; lia|done].
  - by apply NoDup_cons.
Qed.

Section Leak.
  Context `{H : FileHost}.
  (** open gives a descriptor that is not open; pread no more than asked for. *)
  Context (open_fresh : forall l name, 0 <= h_open l name -> h_open l name ∉ l).
  Context (pread_bounded : forall fd count offset data, 0 <= count -> h_pread fd count offset = inr data -> Z.of_nat (length data) <= count).

(** Names that fit the local arrays, and a count that does not wrap. *)
Definition vrequest_fits (packet : text) : Prop :=
  (length packet <= 4000)%nat /\ forall x c o, sscanf (drop 12 packet) "%x,%lx,%lx" = [x; c; o] -> c + VFILE_READ_PREFIX_SIZE < two64.

Lemma hex_name_fits name size : Z.of_nat (length name) / 2 + 1 <= size -> exists t, hex_name name size = Some t.
Proof.
  intros Hl. unfold hex_name. rewrite Nat2Z.inj_div. destruct (Z.ltb_spec size (Z.of_nat (length name) / Z.of_nat 2 + 1)); [lia|]. unfold hex2mem.
  destruct (Nat.leb_spec (2 * (length name / 2)) (length name)) as [|Hlt]; [by eexists|]. pose proof (Nat.Div0.mul_div_le (length name) 2). lia.
Qed.

Lemma split_at_length c t a b : split_at c t = Some (a, b) -> (length a <= length t)%nat.
Proof.
  revert a. induction t as [|x t IH]; intros a; cbn [split_at]; [done|]. destruct (Ascii.eqb x c); [intros [= <- _]; cbn; lia|].
  destruct (split_at c t) as [[a' b']|]; [|done]. intros [= <- <-]. specialize (IH a' eq_refl). cbn. lia.
Qed.

Definition keeps (c : M vfile text) : Prop := forall s, vf_inv s -> wp False c (fun _ s' => vf_inv s') s.

Lemma open_keeps p : (length p <= 4000)%nat -> keeps (handle_vfile_open p).
Proof.
  intros Hl s I. unfold handle_vfile_open. destruct (split_at comma p) as [[name args]|] eqn:Esp; [|by apply wp_ret]. apply split_at_length in Esp.
  destruct (hex_name_fits name (PATH_MAX / 2)) as [t ->]. { change (PATH_MAX / 2) with 2048. assert (Z.of_nat (length name) / 2 <= 2000) by (apply Z.div_le_upper_bound; lia). lia. }
  destruct (sscanf args "%x,%x") as [|fl [|md [|]]]; try (by apply wp_ret). destruct (_ && _); [by apply wp_ret|]. apply wp_bind. apply wp_alloc; [done|by apply wp_ret|].
  intros i Hi Hs. cbv beta. assert (Hi0 := Hi). apply andb_true_iff in Hi0 as [Hi1%Z.leb_le _]. rewrite (proj2 (Z.ltb_ge _ _)) by done. do 2 wp_step.
  destruct (h_readlink _) as [e|link]; [apply wp_bind, wp_free_reserved; [done..|by apply wp_ret]|]. cbv zeta. cbn [set_slot vf_open].
  set (name' := if decide _ then _ else _). destruct (Z.ltb_spec (h_open s.(vf_open) name') 0) as [Hn|Hn]; [apply wp_bind, wp_free_reserved; [done..|by apply wp_ret]|].
  apply wp_bind, wp_modify. unfold gdb_fd_set. apply wp_bind, wp_bind, wp_assert; [done|]. apply wp_bind, wp_assert; [by apply Z.leb_le|]. apply wp_modify, wp_ret.
  change (vf_opened ?x (set_slot i RESERVED s)) with (set_slot i RESERVED (vf_opened x s)). rewrite set_twice. apply inv_bind; try done. by apply open_fresh.
Qed.

Lemma close_keeps p : keeps (handle_vfile_close p).
Proof.
  intros s I. unfold handle_vfile_close. destruct (sscanf p "%x") as [|x [|]]; try (by apply wp_ret). cbv zeta. do 2 wp_step. unfold gdb_fd_find at 1.
  destruct (slot_number (int32 x)) eqn:Hi; [|by apply wp_ret]. cbn [andb]. destruct (Z.leb_spec 0 (slot s (int32 x))) as [Hx|Hx]; [|by apply wp_ret].
  rewrite (proj2 (Z.ltb_ge _ _)) by done. apply wp_bind, wp_modify. unfold gdb_fd_find. rewrite Hi, (proj2 (Z.leb_le _ _)) by done. cbn [andb].
  apply wp_bind. unfold gdb_fd_free. rewrite Hi. cbn [negb]. do 2 wp_step. change (slot (vf_closed ?a s) ?b) with (slot s b).
  destruct (Z.eqb_spec (slot s (int32 x)) GDB_VFILE_FD_FREE_SLOT) as [E|_]; [unfold GDB_VFILE_FD_FREE_SLOT in E; lia|]. apply wp_bind, wp_modify, wp_ret, wp_ret. by apply inv_release.
Qed.

Lemma pread_keeps p : (forall x c o, sscanf p "%x,%lx,%lx" = [x; c; o] -> 0 <= c /\ c + VFILE_READ_PREFIX_SIZE < two64) -> keeps (handle_vfile_pread p).
Proof.
  intros Hc s I. unfold handle_vfile_pread. destruct (sscanf p "%x,%lx,%lx") as [|x [|c [|o [|]]]]; try (by apply wp_ret). destruct (Hc _ _ _ eq_refl) as [Hc0 Hc1].
  do 2 wp_step. cbv zeta. destruct (_ <? 0); [by apply wp_ret|]. rewrite u64_small by (unfold is_u64, VFILE_READ_PREFIX_SIZE in *; lia).
  set (c' := if BUFMAX <? _ then _ else _). assert (Hc' : 0 <= c' <= BUFMAX).
  { unfold c', VFILE_READ_PREFIX_SIZE, BUFMAX in *. destruct (Z.ltb_spec (16 * 1024) (c + 10)); lia. }
  destruct (h_pread _ c' _) as [e|data] eqn:Ep; [by apply wp_ret|]. apply pread_bounded in Ep; [|lia]. rewrite (proj2 (Z.ltb_ge _ _)) by lia.
  destruct (gdb_binary_escape_add data _) as [body n]. by apply wp_ret.
Qed.

Lemma fstat_keeps p : keeps (handle_vfile_fstat p).
Proof.
  intros s I. unfold handle_vfile_fstat. destruct (sscanf p "%x") as [|x [|]]; try (by apply wp_ret). do 2 wp_step. cbv zeta. destruct (_ <? 0); [by apply wp_ret|].
  destruct (h_fstat _) as [e|st]; [by apply wp_ret|]. pose proof (binary_escape_ok (map char_of (gdb_stat st)) (Z.to_nat (BUFMAX - VFILE_READ_PREFIX_SIZE))) as Hb.
  destruct (gdb_binary_escape_add _ _) as [body n]. destruct Hb as (_ & Hn & _ & Hfull). rewrite length_map in *. change (length (gdb_stat st)) with 64%nat in *.
  apply wp_bind, wp_assert; [|by apply wp_ret]. apply Nat.eqb_eq. destruct (decide (n < 64)%nat) as [Hlt|]; [|lia]. specialize (Hfull Hlt).
  pose proof (escape_length (take (S n) (map char_of (gdb_stat st)))) as [_ He]. rewrite length_take, length_map in He. change (length (gdb_stat st)) with 64%nat in He.
  change (Z.to_nat (BUFMAX - VFILE_READ_PREFIX_SIZE)) with (Z.to_nat 16374) in Hfull. lia.
Qed.

Lemma readlink_keeps p : (length p <= 4000)%nat -> keeps (handle_vfile_readlink p).
Proof.
  intros Hl s I. unfold handle_vfile_readlink. destruct (hex_name_fits p PATH_MAX) as [t ->].
  { unfold PATH_MAX. assert (Z.of_nat (length p) / 2 <= 2000) by (apply Z.div_le_upper_bound; lia). lia. }
  destruct (h_readlink t); [by apply wp_ret|]. destruct (gdb_binary_escape_add _ _). by apply wp_ret.
Qed.

Lemma setfs_keeps p : keeps (handle_vfile_setfs p).
Proof.
  intros s I. unfold handle_vfile_setfs. destruct (whole_pid p) as [pid|]; [|by apply wp_ret]. cbv zeta. destruct (negb _); [by apply wp_ret|].
  apply wp_bind, wp_modify, wp_ret. destruct I as [I1 I2 I3 I4]. by split.
Qed.

(** A number that was scanned is not negative. *)
Lemma scanned_range p x c o : sscanf p "%x,%lx,%lx" = [x; c; o] -> 0 <= c.
Proof.
  intros E. change (sscanf p "%x,%lx,%lx") with (scan [Hex; Lit comma; LHex; Lit comma; LHex] p) in E. cbn [scan base_of] in E.
  destruct (scan_number 16 p) as [[z1 r1]|]; [|done]. destruct r1 as [|y r1]; [done|]. destruct (Ascii.eqb y comma); [|done].
  destruct (scan_number 16 r1) as [[z2 r2]|]; [|done]. injection E as _ <- _. cbn [stored]. unfold strtoul_range. destruct (_ <=? _); [lia|]. apply u64_range.
Qed.

Lemma dispatch_keeps packet : vrequest_fits packet -> keeps (km_gdb_handle_vfilepacket packet).
Proof.
  intros [Hl Hc]. assert (Hd : forall n, (length (drop n packet) <= 4000)%nat) by (intros n; rewrite length_drop; lia).
  unfold km_gdb_handle_vfilepacket, cmd_vector. cbn [dispatch]. rewrite !drop_drop.
  repeat (case_decide; [first [apply pread_keeps; intros x c o E; split; [by eapply scanned_range|by eapply Hc] | apply fstat_keeps | by apply open_keeps | apply close_keeps
    | apply setfs_keeps | by apply readlink_keeps]|]). by intros s I; apply wp_ret.
Qed.

Fixpoint vrequests (ps : list text) : M vfile (list text) :=
  match ps with
  | [] => ret []
  | p :: rest => let* r := km_gdb_handle_vfilepacket p in let* rs := vrequests rest in ret (r :: rs)
  end.

Lemma vrequests_keep ps : Forall vrequest_fits ps -> forall s, vf_inv s -> wp False (vrequests ps) (fun rs s' => vf_inv s' /\ length rs = length ps) s.
Proof.
  induction 1 as [|p ps Hp Hps IH]; intros s I; cbn [vrequests]; [by apply wp_ret|]. apply wp_bind. eapply wp_mono; [by apply dispatch_keeps|]. intros r s1 I1.
  apply wp_bind. eapply wp_mono; [by apply IH|]. intros rs s2 [I2 Hl]. apply wp_ret. split; [done|]. cbn. lia.
Qed.

(** Slots from [i] on are collected; those before are free. *)
Lemma collect_ok n i s :
  vf_inv s -> 0 <= i -> i + Z.of_nat n = MAX_GDB_VFILE_OPEN_FD -> (forall j, 0 <= j < i -> slot s j = GDB_VFILE_FD_FREE_SLOT) ->
  wp False (collect_slots n i) (fun _ s' => vf_inv s' /\ forall j, 0 <= j < MAX_GDB_VFILE_OPEN_FD -> slot s' j = GDB_VFILE_FD_FREE_SLOT) s.
Proof.
  revert i s. induction n as [|n IH]; intros i s I Hi Hn Hfree; cbn [collect_slots].
  - apply wp_ret. split; [done|]. intros j Hj. apply Hfree. lia.
  - assert (Hnum : slot_number i = true) by (unfold slot_number; rewrite (proj2 (Z.leb_le _ _)), (proj2 (Z.ltb_lt _ _)) by lia; done).
    do 2 wp_step. apply wp_bind. destruct (Z.eqb_spec (slot s i) GDB_VFILE_FD_FREE_SLOT) as [E|E].
    + apply wp_ret. apply IH; [done|lia|lia|]. intros j Hj. destruct (Z.eq_dec j i) as [->|]; [done|]. apply Hfree. lia.
    + destruct (slot_number_lt s i I Hnum) as [_ [?|Hx]]; [done|]. apply wp_bind, wp_modify, wp_modify. apply IH; [by apply inv_release|lia|lia|].
      intros j Hj. unfold slot, set_slot, vf_closed. cbn [vf_fd]. destruct (Z.eq_dec j i) as [->|Hne].
      * rewrite list_lookup_insert_eq; [done|]. rewrite (vi_length s I). unfold NSLOT. lia.
      * rewrite list_lookup_insert_ne by lia. apply Hfree. lia.
Qed.

(** C35. The stub loses no descriptor of the host. After any requests for files of at most
    4000 characters each, whose count, for a pread, does not wrap with the reply's prefix
    ([vrequest_fits]: a longer name overruns an array of PATH_MAX, a wrapping count the
    reply buffer) - all of them answered - it has open exactly the descriptors of its table,
    each once and at most 32, and no slot stays reserved after an error; when the debugger
    detaches the collection closes every one of them. The host's pread gives no more than it
    is asked for. *)
Theorem vfile_no_leak ps s :
  s.(vf_fd) = replicate NSLOT GDB_VFILE_FD_FREE_SLOT -> s.(vf_open) = [] -> Forall vrequest_fits ps ->
  exists rs s', vrequests ps s = Ret (rs, s') /\ length rs = length ps /\ vf_inv s' /\ (length s'.(vf_open) <= NSLOT)%nat
  /\ exists s2, gdb_fd_garbage_collect s' = Ret (tt, s2) /\ s2.(vf_open) = [] /\ s2.(vf_fd) = replicate NSLOT GDB_VFILE_FD_FREE_SLOT.
Proof.
  intros Hf Ho Hps. assert (I : vf_inv s).
  { split; rewrite ?Hf, ?Ho; [by rewrite length_replicate|apply Forall_replicate; by left| |constructor]. unfold bound. rewrite Hf. done. }
  pose proof (vrequests_keep ps Hps s I) as Hw. unfold wp in Hw. destruct (vrequests ps s) as [[rs s']| |]; [|done|done]. destruct Hw as [I' Hl]. exists rs, s'.
  split_and!; [done|done|done| |].
  { rewrite (vi_open s' I'). unfold bound. etrans; [apply length_filter|]. by rewrite (vi_length s' I'). }
  pose proof (collect_ok (Z.to_nat MAX_GDB_VFILE_OPEN_FD) 0 s' I' ltac:(lia) eq_refl ltac:(lia)) as Hc. unfold wp in Hc. unfold gdb_fd_garbage_collect.
  destruct (collect_slots _ 0 s') as [[[] s2]| |]; [|done|done]. destruct Hc as [I2 Hall]. exists s2. split; [done|].
  assert (E : s2.(vf_fd) = replicate NSLOT GDB_VFILE_FD_FREE_SLOT).
  { symmetry. apply replicate_as_Forall. split; [apply I2|]. apply Forall_lookup. intros j x Hx. pose proof (lookup_lt_Some _ _ _ Hx) as Hlt. rewrite (vi_length s2 I2) in Hlt.
    specialize (Hall (Z.of_nat j)). unfold slot, NSLOT in *. rewrite Nat2Z.id, Hx in Hall. cbn in Hall. symmetry. apply Hall. lia. }
  split; [|done]. apply Permutation_nil_r. etrans; [apply I2|]. unfold bound. by rewrite E.
Qed.
End Leak.

(** ** Reading a file *)
Lemma scan_zero t rest :
  (exists d r, 0 <= d < 16 /\ t = digit d :: r /\ match r with x :: _ => not_x x | [] => True end) -> scan_number 16 t = Some rest ->
  scan_number 16 ("0"%char :: t) = Some rest /\ (exists d r, 0 <= d < 16 /\ "0"%char :: t = digit d :: r /\ match r with x :: _ => not_x x | [] => True end).
Proof.
  intros (d & r & Hd & -> & Hx) Hs. destruct (digit_plain d Hd) as (S1 & S2 & S3 & S4 & S5). assert (Hnx : not_x (digit d)) by (unfold not_x; by rewrite S4, S5).
  split; [|by exists 0, (digit d :: r)]. rewrite <- Hs. unfold scan_number. rewrite skip_spaces_head by done. rewrite (skip_spaces_head (digit d)) by done.
  change (Ascii.eqb "0" minus) with false. change (Ascii.eqb "0" "+") with false. cbv iota. rewrite S2, S3, (strip_prefix_none 16 "0" (digit d) r Hnx).
  assert (Hpre : (match digit d :: r with z :: x :: r' => if (16 =? 16) && Ascii.eqb z "0" && (Ascii.eqb x "x" || Ascii.eqb x "X") then r' else digit d :: r | _ => digit d :: r end) = digit d :: r)
    by (destruct r as [|x r]; [done|by apply strip_prefix_none]).
  rewrite Hpre. cbn [scan_unsigned]. change (is_digit 16 "0") with true. cbv iota. rewrite is_digit_digit by lia. by rewrite (scan_digits_step 16 "0").
Qed.

Lemma scan_hex08 z rest : stopped rest -> scan_number 16 (hex08 z ++ rest) = Some (u32 z, rest).
Proof.
  intros Hr. unfold hex08. cbv zeta. rewrite <- app_assoc. pose proof (u32_range z) as Hu.
  generalize (8 - length (print_base 16 (u32 z)))%nat. intros n.
  enough (Hz : scan_number 16 (replicate n "0"%char ++ print_base 16 (u32 z) ++ rest) = Some (u32 z, rest)
    /\ exists d r, 0 <= d < 16 /\ replicate n "0"%char ++ print_base 16 (u32 z) ++ rest = digit d :: r /\ match r with x :: _ => not_x x | [] => True end) by apply Hz.
  induction n as [|n [IH1 IH2]]; cbn [replicate app].
  - split; [apply scan_number_unsigned; [by right|lia|done]|apply print_base_shape; [by right|lia|done]].
  - by apply scan_zero.
Qed.

(** What a debugger does: read from the offset reached until nothing comes. *)
Definition pread_packet (fd count offset : Z) : text := chars "vFile:pread:" ++ asprintf "%x,%lx,%lx" [AInt fd; AInt count; AInt offset].
Definition parse_data (reply : text) : option (Z * text) :=
  match reply with
  | c :: r => if Ascii.eqb c "F" then match scan_number 16 r with Some (n, sep :: body) => if Ascii.eqb sep ";" then Some (n, unescape body) else None | _ => None end else None
  | [] => None
  end.
Section Read.
  Context `{H : FileHost}.
Fixpoint read_file (fuel : nat) (fd count offset : Z) : M vfile (option text) :=
  match fuel with
  | O => fun _ => NoFuel
  | S fuel' =>
      let* reply := km_gdb_handle_vfilepacket (pread_packet fd count offset) in
      match parse_data reply with
      | None => ret None
      | Some (n, data) =>
          if n =? 0 then ret (Some [])
          else let* more := read_file fuel' fd count (offset + n) in ret (match more with Some t => Some (data ++ t) | None => None end)
      end
  end.

Lemma pread_request fd count offset s :
  0 <= fd < MAX_GDB_VFILE_OPEN_FD -> 0 <= count < two64 -> 0 <= offset < two64 ->
  km_gdb_handle_vfilepacket (pread_packet fd count offset) s = handle_vfile_pread (asprintf "%x,%lx,%lx" [AInt fd; AInt count; AInt offset]) s
  /\ sscanf (asprintf "%x,%lx,%lx" [AInt fd; AInt count; AInt offset]) "%x,%lx,%lx" = [fd; count; offset].
Proof.
  intros Hf Hc Ho. split; [done|]. unfold sscanf, asprintf. pose proof (scan_print (format "%x,%lx,%lx") [fd; count; offset] []) as E. rewrite app_nil_r in E.
  etrans; [apply E; by vm_compute|]. change (read_back (format "%x,%lx,%lx") [fd; count; offset]) with [u32 fd; u64 count; u64 offset].
  unfold MAX_GDB_VFILE_OPEN_FD in Hf. by rewrite !u64_small by done; unfold u32; rewrite Z.mod_small by lia.
Qed.

(** One request for a file whose contents the host gives. *)
Lemma pread_chunk (content : text) fd hd count offset s :
  (forall c o, 0 <= c -> 0 <= o -> h_pread hd c o = inr (take (Z.to_nat c) (drop (Z.to_nat o) content))) ->
  gdb_fd_find s fd = hd -> 0 <= hd -> 0 <= fd < MAX_GDB_VFILE_OPEN_FD -> 0 < count -> count + VFILE_READ_PREFIX_SIZE < two64 -> 0 <= offset < 2 ^ 63 ->
  exists reply n, km_gdb_handle_vfilepacket (pread_packet fd count offset) s = Ret (reply, s)
    /\ parse_data reply = Some (Z.of_nat n, take n (drop (Z.to_nat offset) content))
    /\ (n <= length (drop (Z.to_nat offset) content))%nat /\ (n = 0%nat -> drop (Z.to_nat offset) content = []).
Proof.
  intros Hh Hfd Hhd Hf Hc Hw Ho. unfold VFILE_READ_PREFIX_SIZE in *. assert (H63 : 2 ^ 63 < two64) by (by vm_compute).
  destruct (pread_request fd count offset s) as [E1 E2]; [done|lia|lia|]. rewrite E1. unfold handle_vfile_pread. rewrite E2. unfold bind, get.
  assert (Ei : int32 fd = fd) by (apply int32_id; unfold MAX_GDB_VFILE_OPEN_FD in Hf; lia). rewrite Ei, Hfd. rewrite (proj2 (Z.ltb_ge _ _)) by done.
  unfold VFILE_READ_PREFIX_SIZE. rewrite u64_small by (unfold is_u64; lia). set (c := if BUFMAX <? count + 10 then _ else _).
  assert (Hc' : 0 < c <= BUFMAX) by (unfold c, BUFMAX in *; destruct (Z.ltb_spec (16 * 1024) (count + 10)); lia).
  assert (Es : s64 offset = offset) by (unfold s64; rewrite (proj2 (Z.ltb_lt _ _)) by lia; done). rewrite Es, Hh by lia. set (data := take (Z.to_nat c) _).
  assert (Hd : (length data <= Z.to_nat c)%nat) by (unfold data; rewrite length_take; lia). rewrite (proj2 (Z.ltb_ge _ _)) by lia.
  pose proof (binary_escape_ok data (Z.to_nat (BUFMAX - 10))) as Hb. destruct (gdb_binary_escape_add data _) as [body n]. destruct Hb as (-> & Hn & Hl & Hfull).
  exists (data_reply n (escape (take n data))), n. split; [done|]. unfold data_reply, parse_data. cbn [Ascii.eqb]. rewrite scan_hex08 by done.
  change (Ascii.eqb ";" ";") with true. change (Ascii.eqb "F" "F") with true. cbv iota. rewrite unescape_escape. unfold BUFMAX in *. split_and!.
  - unfold u32. rewrite Z.mod_small by lia. unfold data. rewrite take_take. do 3 f_equal. lia.
  - unfold data in Hn. rewrite length_take in Hn. lia.
  - intros ->. destruct (drop (Z.to_nat offset) content) as [|x t]; [done|]. exfalso. unfold data in Hfull. destruct (Z.to_nat c) eqn:Ec; [lia|]. cbn [take length] in Hfull.
    specialize (Hfull ltac:(lia)). pose proof (escape_length [x]). cbn [length] in *. change (Z.to_nat (16 * 1024 - 10)) with (Z.to_nat 16374) in Hfull. rewrite take_0 in Hfull. lia.
Qed.

Lemma read_file_from (content : text) fd hd count offset fuel s :
  (forall c o, 0 <= c -> 0 <= o -> h_pread hd c o = inr (take (Z.to_nat c) (drop (Z.to_nat o) content))) ->
  gdb_fd_find s fd = hd -> 0 <= hd -> 0 <= fd < MAX_GDB_VFILE_OPEN_FD -> 0 < count -> count + VFILE_READ_PREFIX_SIZE < two64 ->
  Z.of_nat (length content) < 2 ^ 63 -> 0 <= offset <= Z.of_nat (length content) -> (length (drop (Z.to_nat offset) content) < fuel)%nat ->
  read_file fuel fd count offset s = Ret (Some (drop (Z.to_nat offset) content), s).
Proof.
  intros Hh Hfd Hhd Hf Hc Hw Hlen. revert offset. induction fuel as [|fuel IH]; intros offset Ho Hfuel; [lia|]. cbn [read_file].
  destruct (pread_chunk content fd hd count offset s) as (reply & n & E & Ep & Hn & H0); try done; [lia|]. unfold bind at 1. rewrite E, Ep.
  destruct (Z.eqb_spec (Z.of_nat n) 0) as [En|En].
  - rewrite H0 by lia. done.
  - unfold bind. rewrite length_drop in Hn, Hfuel. rewrite IH by (rewrite ?length_drop; lia). unfold ret. do 3 f_equal.
    replace (Z.to_nat (offset + Z.of_nat n)) with (Z.to_nat offset + n)%nat by lia. rewrite <- drop_drop. apply take_drop.
Qed.

(** C36. A debugger that reads an open file chunk by chunk, with a count from 1 to 2^64 -
    11, until a read gives nothing, gets the file's contents: the escapes, the limit of the
    buffer and the shorter reads they cause lose and repeat nothing, and the loop ends. The
    host answers each pread with what the file has there up to the count, the file does not
    change and is shorter than 2^63. A count of 0 reads nothing, and larger counts wrap. *)
Theorem remote_file_read (content : text) fd hd count s :
  (forall c o, 0 <= c -> 0 <= o -> h_pread hd c o = inr (take (Z.to_nat c) (drop (Z.to_nat o) content))) ->
  gdb_fd_find s fd = hd -> 0 <= hd -> 0 <= fd < MAX_GDB_VFILE_OPEN_FD -> 0 < count -> count + VFILE_READ_PREFIX_SIZE < two64 ->
  Z.of_nat (length content) < 2 ^ 63 ->
  read_file (S (length content)) fd count 0 s = Ret (Some content, s).
Proof. intros. apply (read_file_from content fd hd count 0); done || (cbn; lia) || (change (drop (Z.to_nat 0) content) with content; lia). Qed.
End Read.
