(* ===== verification/GdbWitness.v ===== *)
(** * The debugger: concrete sessions

    The theorems of the packet layer, the breakpoints and the event queue applied to
    small connections and machines. *)
From S2P Require Import Prelude Machine MemGeom MemBrk PageTable TopBreak Stdio GdbPacket GdbPacketProps GdbBreak GdbBreakProps GdbRun GdbRunProps GdbFile GdbFileProps.
From Stdlib Require Import Ascii.

(** ** Packets *)
Definition always (_ : text) : bool := true.
Definition fresh_conn (input : text) : conn := mk_conn input [] (fun _ => nul) false.

(** A damaged packet, then a good one, then an interrupt. *)
Definition bad_g : damaged := mk_damaged [plus] (chars "g") "0"%char "0"%char.
Lemma recv_packet_delivers_witness :
  exists s', recv_packet always (fresh_conn (wire [bad_g] ++ [plus] ++ frame (chars "m100,4") ++ [plus])) = Ret (Some (chars "m100,4"), s')
    /\ s'.(c_input) = [plus] /\ s'.(c_output) = ["-"%char; plus].
Proof.
  destruct (recv_packet_delivers always (fun _ => eq_refl) [bad_g] [plus] (chars "m100,4") [plus] (fresh_conn (wire [bad_g] ++ [plus] ++ frame (chars "m100,4") ++ [plus])))
    as (s' & E & Hi & Ho & _ & _); [done| | | |done|].
  - constructor; [|constructor]. split_and!; [by repeat constructor| |done|done|done]. split_and!; [by repeat constructor|cbn; unfold BUFMAX; lia|done].
  - by repeat constructor.
  - split_and!; [by repeat constructor|cbn; unfold BUFMAX; lia|done].
  - exists s'. split_and!; [exact E|exact Hi|exact Ho].
Defined.

Lemma send_packet_acknowledged_witness :
  send_packet always (chars "OK") (fresh_conn (chars "-+x"))
  = Ret (tt, mk_conn (chars "x") (chars "$OK#9a$OK#9a") (fun _ => nul) false).
Proof.
  apply (send_packet_acknowledged always (fun _ => eq_refl) (chars "OK") (chars "-") (chars "x") (fresh_conn (chars "-+x"))); [done|].
  repeat constructor. done.
Defined.

(** After a packet whose third character was a colon, the next short packet is taken to
    have a sequence number too: its first characters are echoed, and what follows is
    what the buffer held before. *)
Lemma stale_sequence_number :
  exists s1 s2, recv_packet always (fresh_conn (frame (chars "Hg:0") ++ frame (chars "g"))) = Ret (Some (chars "0"), s1)
    /\ recv_packet always s1 = Ret (Some (chars "0"), s2) /\ s2.(c_output) = [plus; "H"%char; "g"%char; plus; "g"%char; nul].
Proof. do 2 eexists. split_and!; [vm_compute; reflexivity|vm_compute; reflexivity|reflexivity]. Qed.

Lemma escapes_correct_witness : gdb_add_escapes (chars "a$}") 8 = (true, escape (chars "a$}")) /\ unescape (gdb_binary_escape_add (chars "a$}") 4).1 = chars "a$".
Proof.
  destruct (escapes_correct (chars "a$}") 8 4) as [H1 H2]; [cbn; lia|]. split; [exact H1|].
  change (gdb_binary_escape_add (chars "a$}") 4) with (chars "a" ++ ["}"%char; xor_20 dollar], 2%nat) in *. exact (proj1 H2).
Defined.

(** ** Breakpoints *)
Definition bp_machine : machine := set_brk (16 * MIB) (boot_machine VM_TYPE_KVM 32).
Definition idle_dbg : dbg := mk_dbg [] [] 0 false (fun k => k mod 256) [mk_debug 0 [] 0; mk_debug 0 [] 0].
Definition whole_map : list (option (Z * Z * text)) := [None; Some (0, 2 ^ 47, chars "r-x")].
Definition bp_requests : list gdb_request :=
  [AddBreakpoint GDB_BREAKPOINT_SW (4 * MIB) 1; AddBreakpoint GDB_BREAKPOINT_HW (5 * MIB) 1; SetStep true; AddBreakpoint GDB_BREAKPOINT_SW (4 * MIB + 1) 1].

Lemma bp_machine_brk : brk_inv bp_machine 32.
Proof. split; [|split|]; by vm_compute. Qed.


Definition watched : dbg :=
  mk_dbg [] [mk_bp GDB_WATCHPOINT_WRITE 0x5000 8 1 0; mk_bp GDB_BREAKPOINT_HW 0x4000 1 1 0] 2 false (fun _ => 0) [].
Lemma watched_inv : bp_inv bp_machine watched.
Proof.
  split; cbn; [constructor|constructor|by apply (bool_decide_unpack _); vm_compute| |unfold MAX_HW_BREAKPOINTS; lia].
  unfold hw_entry. constructor; [|constructor; [|constructor]]; cbn; split_and!; done || lia.
Qed.
Lemma debug_registers_exact_witness :
  exists d, debug_settings watched = Some d /\ d.(dbg_dr) = [0x5000; 0x4000] /\ Z.testbit d.(dbg_dr7) 3 = true /\ Z.testbit d.(dbg_dr7) 5 = false.
Proof.
  eexists. split; [reflexivity|]. destruct (debug_registers_exact bp_machine watched _ watched_inv eq_refl ltac:(done)) as [H1 H2].
  split; [exact H1|]. pose proof (H2 1 ltac:(lia)) as Hb1. pose proof (H2 2 ltac:(lia)) as Hb2. cbn in Hb1, Hb2. split; [apply Hb1|apply Hb2].
Defined.

(** ** Threads *)
Lemma signal_numbers_roundtrip_witness : back 11 = Some 11 /\ back 35 = None.
Proof. split; [apply (signal_numbers_roundtrip 11); lia|apply (signal_numbers_roundtrip 35); lia]. Defined.

Definition vcpu_of (r : gdb_thread_state_t) (q : bool) : gdb_vcpu := mk_gvcpu true false r 0 0 false q.
Definition two_threads : gdb_run := mk_run [vcpu_of THREADSTATE_RUNNING false; vcpu_of THREADSTATE_RUNNING false] [] false false 0 1 false [] [].

(** The first thread, paused, has stopped at a breakpoint; the second got a signal. *)
Definition stopped : gdb_run :=
  mk_run [vcpu_of THREADSTATE_PAUSED true; vcpu_of THREADSTATE_RUNNING true]
    [mk_gevent 1 GDB_KMSIGNAL_KVMEXIT 4 true; mk_gevent 2 11 0 true] true true 1 1 false [] [].
Lemma select_event_oldest_witness :
  exists s', gdb_select_event stopped = Ret (Some (mk_gevent 2 11 0 true), s') /\ s'.(event_queue) = [mk_gevent 1 GDB_KMSIGNAL_KVMEXIT 4 true].
Proof.
  destruct (select_event_oldest stopped [mk_gevent 1 GDB_KMSIGNAL_KVMEXIT 4 true] (mk_gevent 2 11 0 true) []) as [H _]; [done| |].
  - repeat constructor; [done..|]. exists 0%nat, (vcpu_of THREADSTATE_PAUSED true). done.
  - destruct H as (s' & E & Hq & _); [|by exists s']. split; [done|]. right. right. exists 1%nat, (vcpu_of THREADSTATE_RUNNING true). done.
Defined.

Lemma event_queue_sound_witness :
  exists s, rtc gdb_step two_threads s /\ length s.(event_queue) = 2%nat /\ queue_inv s.
Proof.
  destruct (km_gdb_notify 0 5 0 two_threads) as [[[] s1]| |] eqn:E1; [|vm_compute in E1; discriminate E1..].
  destruct (km_gdb_notify 1 11 0 s1) as [[[] s2]| |] eqn:E2; [|injection E1 as <-; vm_compute in E2; discriminate E2..].
  assert (Hr : rtc gdb_step two_threads s2).
  { eapply rtc_l; [by eapply step_notify|]. eapply rtc_l; [by eapply step_notify|]. apply rtc_refl. }
  exists s2. split; [exact Hr|]. split; [injection E1 as <-; injection E2 as <-; reflexivity|].
  apply (event_queue_sound two_threads s2); [|exact Hr]. split; [reflexivity|]. intros i. by destruct i as [|[|i]].
Defined.

(** ** Files *)
Module OneFile.
Definition contents : text := chars "a $ and a #".
Definition next_fd (l : list Z) : Z := foldr Z.max 2 l + 1.
#[local] Instance host : FileHost := {|
  h_readlink name := if decide (name = chars "/proc/7/root") then inr (chars "/") else inl 2;
  h_open l name := if decide (name = chars "/f") then next_fd l else -2;
  h_pread fd c o := inr (take (Z.to_nat c) (drop (Z.to_nat o) contents));
  h_fstat _ := inl 9; h_stat _ := 0; h_getpid := 7 |}.

Lemma next_fd_fresh l : next_fd l ∉ l.
Proof.
  assert (Hle : forall x, x ∈ l -> x <= foldr Z.max 2 l) by (induction l as [|y l IH]; intros x; [by intros ?%not_elem_of_nil|]; intros [->|Hx]%elem_of_cons; cbn; [lia|specialize (IH x Hx); lia]).
  intros Hin%Hle. unfold next_fd in Hin. lia.
Qed.

Definition no_files : vfile := mk_vfile (replicate NSLOT GDB_VFILE_FD_FREE_SLOT) 0 [].
Definition file_requests : list text :=
  [chars "vFile:open:2f66,0,0"; chars "vFile:setfs:0"; chars "vFile:open:2f66,0,1c0"; chars "vFile:open:2f66,0,1c0"; chars "vFile:open:2f,0,0"; chars "vFile:close:0"].
Example file_session :
  exists s, vrequests file_requests no_files
    = Ret ([chars "F-1,00000002"; chars "F0"; chars "F00000000"; chars "F00000001"; chars "F-1,00000002"; chars "F0"], s) /\ s.(vf_open) = [4].
Proof. eexists. split; [vm_compute; reflexivity|reflexivity]. Qed.

Lemma file_requests_fit : Forall vrequest_fits file_requests.
Proof.
  apply Forall_forall. intros p Hp. unfold file_requests in Hp.
  repeat (apply elem_of_cons in Hp as [->|Hp]; [split; [cbn; lia|intros x c o E; vm_compute in E; (discriminate E || (injection E as _ <- _; by vm_compute))]|]). by apply not_elem_of_nil in Hp.
Qed.

Lemma vfile_no_leak_witness :
  exists rs s s2, vrequests file_requests no_files = Ret (rs, s) /\ vf_inv s /\ gdb_fd_garbage_collect s = Ret (tt, s2) /\ s2.(vf_open) = [].
Proof.
  destruct (vfile_no_leak (H := host)) with (ps := file_requests) (s := no_files) as (rs & s & E & _ & I & _ & s2 & Eg & Ho & _).
  - intros l name. cbn. destruct (decide _); [intros _; apply next_fd_fresh|intros; lia].
  - intros fd c o data Hc [= <-]. rewrite length_take. lia.
  - reflexivity.
  - reflexivity.
  - exact file_requests_fit.
  - exists rs, s, s2. split; [exact E|]. split; [exact I|]. split; [exact Eg|exact Ho].
Defined.

Definition one_open : vfile := mk_vfile (<[0%nat := 3]> (replicate NSLOT GDB_VFILE_FD_FREE_SLOT)) 7 [3].
Lemma remote_file_read_witness : read_file (S (length contents)) 0 4 0 one_open = Ret (Some contents, one_open).
Proof.
  apply (remote_file_read (H := host) contents 0 3 4 one_open); unfold MAX_GDB_VFILE_OPEN_FD; try lia; done.
Defined.
End OneFile.
