(* ===== verification/Vcpu.v ===== *)
(** * Threads of vcpus: the pool and the pause protocol (km_cpu_init.c, km_vcpu_run.c,
      km_init_guest.c)

    Each vcpu has a thread that runs km_vcpu_run.  The threads interleave at every
    access to shared state; machine.pause_mtx is a lock with an owner, and what is
    done under machine.vm_vcpu_mtx is one step and excludes a scan by km_vcpu_apply_all.  When the
    guest leaves KVM_RUN, and why, is left open; so are the hypercalls, except for
    those that create, end or stop threads. *)
From S2P Require Import Prelude Signal.

Inductive km_pause_t := GUEST_ONLY | ALL.

(** Where a thread is: no thread yet; before km_vcpu_handle_pause; with the lock, before
    the test; decided to wait; in km_cond_wait; awake with the lock; after the lock was
    released; past the test of exit_group; in KVM_RUN; back from it; handling the exit;
    between km_vcpu_get and km_run_vcpu_thread for another vcpu; before km_vcpu_put;
    waiting on thr_cv; ended. *)
Inductive point :=
  PNone | PTop | PLocked | PBlock | PWait | PWoken | PLeft | PEnter | PGuest | PExit | PHandle | PClone (i : nat) | PStop | PParked | PGone.
#[global] Instance point_eq_dec : EqDecision point.
Proof. solve_decision. Defined.
#[global] Instance vstate_eq_dec : EqDecision km_vcpu_state_t.
Proof. solve_decision. Defined.

(** A vcpu: state, thread, whether gdb wants it paused (gdb_run_state is
    THREADSTATE_PAUSED), and whether KM_SIGVCPUSTOP is pending. *)
Record vthread := mk_vt { vt_state : km_vcpu_state_t; vt_pc : point; vt_gdb_paused : bool; vt_stop : bool }.
Definition set_state st (v : vthread) := mk_vt st v.(vt_pc) v.(vt_gdb_paused) v.(vt_stop).
Definition set_pc p (v : vthread) := mk_vt v.(vt_state) p v.(vt_gdb_paused) v.(vt_stop).
Definition set_gdb b (v : vthread) := mk_vt v.(vt_state) v.(vt_pc) b v.(vt_stop).
Definition set_stop b (v : vthread) := mk_vt v.(vt_state) v.(vt_pc) v.(vt_gdb_paused) b.

(** A scan of km_vcpu_apply_all for a pause: the kind, the vcpu left out, the next one to
    visit, the sum, and whether the request (or an exit) stood since it began. *)
Record scan := mk_scan { sc_type : km_pause_t; sc_skip : option nat; sc_next : nat; sc_count : Z; sc_steady : bool }.

(** [vs_held]: a km_vcpu_pause_all that has returned, its request not yet taken back. *)
Record vsys := mk_vsys {
  vs_vcpus : list vthread;
  vs_idle : list nat;
  vs_run_cnt : Z;
  vs_exit_group : bool;
  vs_pause : bool;
  vs_mtx : option nat;
  vs_attached : bool;
  vs_scan : option scan;
  vs_held : option (km_pause_t * option nat);
  vs_fini : Z
}.
Definition upd (i : nat) (f : vthread -> vthread) (s : vsys) := mk_vsys (alter f i s.(vs_vcpus)) s.(vs_idle) s.(vs_run_cnt) s.(vs_exit_group) s.(vs_pause) s.(vs_mtx) s.(vs_attached) s.(vs_scan) s.(vs_held) s.(vs_fini).
Definition add_vcpu v (s : vsys) := mk_vsys (s.(vs_vcpus) ++ [v]) s.(vs_idle) s.(vs_run_cnt) s.(vs_exit_group) s.(vs_pause) s.(vs_mtx) s.(vs_attached) s.(vs_scan) s.(vs_held) s.(vs_fini).
Definition set_idle l n (s : vsys) := mk_vsys s.(vs_vcpus) l n s.(vs_exit_group) s.(vs_pause) s.(vs_mtx) s.(vs_attached) s.(vs_scan) s.(vs_held) s.(vs_fini).
Definition set_exit (s : vsys) := mk_vsys s.(vs_vcpus) s.(vs_idle) s.(vs_run_cnt) true s.(vs_pause) s.(vs_mtx) s.(vs_attached) s.(vs_scan) s.(vs_held) s.(vs_fini).
Definition set_pause b (s : vsys) := mk_vsys s.(vs_vcpus) s.(vs_idle) s.(vs_run_cnt) s.(vs_exit_group) b s.(vs_mtx) s.(vs_attached) s.(vs_scan) s.(vs_held) s.(vs_fini).
Definition set_mtx o (s : vsys) := mk_vsys s.(vs_vcpus) s.(vs_idle) s.(vs_run_cnt) s.(vs_exit_group) s.(vs_pause) o s.(vs_attached) s.(vs_scan) s.(vs_held) s.(vs_fini).
Definition set_attached b (s : vsys) := mk_vsys s.(vs_vcpus) s.(vs_idle) s.(vs_run_cnt) s.(vs_exit_group) s.(vs_pause) s.(vs_mtx) b s.(vs_scan) s.(vs_held) s.(vs_fini).
Definition set_scan c h (s : vsys) := mk_vsys s.(vs_vcpus) s.(vs_idle) s.(vs_run_cnt) s.(vs_exit_group) s.(vs_pause) s.(vs_mtx) s.(vs_attached) c h s.(vs_fini).
Definition km_signal_machine_fini (s : vsys) := mk_vsys s.(vs_vcpus) s.(vs_idle) s.(vs_run_cnt) s.(vs_exit_group) s.(vs_pause) s.(vs_mtx) s.(vs_attached) s.(vs_scan) s.(vs_held) (s.(vs_fini) + 1).

(** ** The pool *)

(** [None]: the assertion that an idle vcpu is PARKED_IDLE fails.  [init_ok]: KVM makes
    the vcpu. *)
Definition km_vcpu_get (init_ok : bool) (s : vsys) : option (option nat * vsys) :=
  if s.(vs_exit_group) then Some (None, s)
  else match s.(vs_idle) with
       | i :: rest =>
           match s.(vs_vcpus) !! i with
           | Some v =>
               if decide (v.(vt_state) = PARKED_IDLE)
               then Some (Some i, upd i (fun v => set_gdb false (set_state STARTING v)) (set_idle rest (s.(vs_run_cnt) + 1) s))
               else None
           | None => None
           end
       | [] =>
           if (Z.of_nat (length s.(vs_vcpus)) =? KVM_MAX_VCPUS) || negb init_ok then Some (None, s)
           else Some (Some (length s.(vs_vcpus)), add_vcpu (mk_vt STARTING PNone false false) (set_idle [] (s.(vs_run_cnt) + 1) s))
       end.

Definition km_vcpu_put (i : nat) (s : vsys) : vsys :=
  let s := upd i (set_state PARKED_IDLE) s in
  let s := set_idle (i :: s.(vs_idle)) (s.(vs_run_cnt) - 1) s in
  if s.(vs_run_cnt) =? 0 then km_signal_machine_fini s else s.

(** A new thread, or a signal to the waiting one; when no thread can be made the caller
    gives the vcpu back. *)
Definition km_run_vcpu_thread (i : nat) (create_ok : bool) (s : vsys) : vsys :=
  match s.(vs_vcpus) !! i with
  | Some v =>
      if decide (v.(vt_pc) = PNone) then
        if create_ok then upd i (fun v => set_pc PTop (set_state HYPERCALL v)) s else km_vcpu_put i s
      else upd i (set_state HYPERCALL) s
  | None => s
  end.

(** ** The pause *)

(** The condition of the loop in km_vcpu_handle_pause. *)
Definition must_wait (s : vsys) (v : vthread) : bool :=
  (s.(vs_pause) || (s.(vs_attached) && v.(vt_gdb_paused))) && negb s.(vs_exit_group).

Definition km_vcpu_in_guest (skip_me : option nat) (i : nat) (v : vthread) : bool :=
  bool_decide (v.(vt_state) = IN_GUEST) && negb (bool_decide (Some i = skip_me)).
Definition km_vcpu_not_paused (skip_me : option nat) (i : nat) (v : vthread) : bool :=
  negb (bool_decide (v.(vt_state) = PAUSED) || bool_decide (Some i = skip_me)).

(** The signal is sent to a vcpu that has a thread. *)
Definition km_signal_vcpu_stop (v : vthread) : vthread := if decide (v.(vt_pc) = PNone) then v else set_stop true v.

(** One vcpu of a scan. *)
Definition counted (c : scan) (i : nat) (v : vthread) : bool :=
  negb (bool_decide (v.(vt_state) = PARKED_IDLE))
  && match c.(sc_type) with GUEST_ONLY => km_vcpu_in_guest c.(sc_skip) i v | ALL => km_vcpu_not_paused c.(sc_skip) i v end.
Definition scan_visit (c : scan) (i : nat) (v : vthread) (s : vsys) : vsys :=
  let b := counted c i v in
  set_scan (Some (mk_scan c.(sc_type) c.(sc_skip) (S i) (c.(sc_count) + (if b then 1 else 0)) c.(sc_steady))) s.(vs_held)
    (if b then upd i km_signal_vcpu_stop s else s).

(** A scan ends; a sum of 0 ends the loop of km_vcpu_pause_all. *)
Definition scan_end (c : scan) (s : vsys) : vsys :=
  set_scan None (if (c.(sc_count) =? 0) && c.(sc_steady) then Some (c.(sc_type), c.(sc_skip)) else s.(vs_held)) s.

(** The request is taken back; after an exit that changes nothing. *)
Definition vcpu_resume_all (s : vsys) : vsys :=
  let s := set_pause false s in
  if s.(vs_exit_group) then s
  else set_scan ((fun c => mk_scan c.(sc_type) c.(sc_skip) c.(sc_next) c.(sc_count) false) <$> s.(vs_scan)) None s.

Definition km_vcpu_pause_sighandler (v : vthread) : vthread :=
  set_stop false (if decide (v.(vt_state) = HYPERCALL) then set_state HCALL_INT v else v).

(** ** Steps *)
Definition at_pc (s : vsys) (i : nat) (v : vthread) (p : point) : Prop := s.(vs_vcpus) !! i = Some v /\ v.(vt_pc) = p.

Inductive vstep : vsys -> vsys -> Prop :=
(* km_vcpu_handle_pause *)
| V_lock s i v : at_pc s i v PTop -> s.(vs_mtx) = None -> vstep s (set_mtx (Some i) (upd i (set_pc PLocked) s))
| V_block s i v : at_pc s i v PLocked -> must_wait s v = true -> vstep s (upd i (set_pc PBlock) s)
| V_pass s i v : at_pc s i v PLocked -> must_wait s v = false -> vstep s (set_mtx None (upd i (set_pc PLeft) s))
| V_wait s i v : at_pc s i v PBlock -> vstep s (set_mtx None (upd i (fun v => set_pc PWait (set_state PAUSED v)) s))
| V_wake s i v : at_pc s i v PWait -> s.(vs_mtx) = None -> vstep s (set_mtx (Some i) (upd i (set_pc PWoken) s))
| V_again s i v : at_pc s i v PWoken -> vstep s (upd i (fun v => set_pc PLocked (set_state HYPERCALL v)) s)
| V_left s i v : at_pc s i v PLeft -> vstep s (upd i (set_pc (if s.(vs_exit_group) then PStop else PEnter)) s)
(* km_vcpu_one_kvm_run, or the restart of an interrupted hypercall *)
| V_enter s i v : at_pc s i v PEnter -> vstep s (upd i (fun v => set_pc PGuest (set_state IN_GUEST v)) s)
| V_restart s i v : at_pc s i v PEnter -> vstep s (upd i (set_pc PHandle) s)
| V_exit s i v : at_pc s i v PGuest -> vstep s (upd i (set_pc PExit) s)
| V_back s i v : at_pc s i v PExit -> vstep s (upd i (fun v => set_pc PHandle (set_state HYPERCALL v)) s)
(* the end of the handling of an exit *)
| V_loop s i v : at_pc s i v PHandle -> vstep s (upd i (set_pc PTop) s)
| V_hcstop s i v : at_pc s i v PHandle -> vstep s (upd i (set_pc PStop) s)
(* km_vcpu_stopped *)
| V_put s i v : at_pc s i v PStop -> s.(vs_scan) = None -> vstep s (upd i (set_pc PParked) (km_vcpu_put i s))
| V_unpark s i v : at_pc s i v PParked -> s.(vs_exit_group) = false -> v.(vt_state) = HYPERCALL \/ v.(vt_state) = HCALL_INT -> vstep s (upd i (set_pc PHandle) s)
| V_gone s i v : at_pc s i v PParked -> s.(vs_exit_group) = true -> vstep s (upd i (fun v => set_pc PGone (set_state PARKED_IDLE v)) s)
(* KM_SIGVCPUSTOP *)
| V_signal s i v : s.(vs_vcpus) !! i = Some v -> v.(vt_stop) = true -> vstep s (upd i km_vcpu_pause_sighandler s)
(* km_clone *)
| V_get s j v ok i s' : at_pc s j v PHandle -> s.(vs_scan) = None -> km_vcpu_get ok s = Some (Some i, s') -> vstep s (upd j (set_pc (PClone i)) s')
| V_get_none s j v ok s' : at_pc s j v PHandle -> s.(vs_scan) = None -> km_vcpu_get ok s = Some (None, s') -> vstep s s'
| V_run s j v i ok : at_pc s j v (PClone i) -> vstep s (upd j (set_pc PHandle) (km_run_vcpu_thread i ok s))
(* requests *)
| V_request s : s.(vs_mtx) = None -> vstep s (set_pause true s)
| V_resume s : s.(vs_mtx) = None -> vstep s (vcpu_resume_all s)
| V_exit_group s : s.(vs_scan) = None -> vstep s (set_exit s)
| V_attached s b : vstep s (set_attached b s)
| V_gdb s i b : s.(vs_pause) = true -> vstep s (upd i (set_gdb b) s)
(* km_vcpu_pause_all *)
| V_scan s type skip : s.(vs_scan) = None -> vstep s (set_scan (Some (mk_scan type skip 0 0 (s.(vs_pause) || s.(vs_exit_group)))) s.(vs_held) s)
| V_visit s c v : s.(vs_scan) = Some c -> s.(vs_vcpus) !! c.(sc_next) = Some v -> vstep s (scan_visit c c.(sc_next) v s)
| V_scanned s c : s.(vs_scan) = Some c -> s.(vs_vcpus) !! c.(sc_next) = None -> vstep s (scan_end c s).

(** km_clone fails to make the host thread and gives the vcpu back.  Here that is one step;
    the code does it without vm_vcpu_mtx (km_init_guest.c:327), so another thread's
    km_vcpu_get can come between the accesses to the list.  Runs without this step: *)
Definition failed_create (s s' : vsys) : Prop :=
  exists j v i w, at_pc s j v (PClone i) /\ s.(vs_vcpus) !! i = Some w /\ w.(vt_pc) = PNone /\ s' = upd j (set_pc PHandle) (km_run_vcpu_thread i false s).
Definition vstep_created (s s' : vsys) : Prop := vstep s s' /\ ~ failed_create s s'.

(** Vcpus ready to run or parked, as the start of the monitor or the recovery of a
    snapshot leaves them. *)
Definition ready (v : vthread) : Prop := (v.(vt_state) = HYPERCALL /\ v.(vt_pc) = PTop \/ v.(vt_state) = PARKED_IDLE /\ v.(vt_pc) = PNone) /\ v.(vt_stop) = false.
Definition used (v : vthread) : Prop := v.(vt_state) <> PARKED_IDLE.
Record vinit (s : vsys) : Prop := {
  vn_ready : Forall ready s.(vs_vcpus);
  vn_idle : NoDup s.(vs_idle) /\ forall i, i ∈ s.(vs_idle) <-> exists v, s.(vs_vcpus) !! i = Some v /\ v.(vt_state) = PARKED_IDLE;
  vn_count : s.(vs_run_cnt) = Z.of_nat (length (filter used s.(vs_vcpus)));
  vn_rest : s.(vs_mtx) = None /\ s.(vs_scan) = None /\ s.(vs_held) = None;
  vn_max : Z.of_nat (length s.(vs_vcpus)) <= KVM_MAX_VCPUS;
}.
