(* ===== verification/VcpuProps.v ===== *)
(** * Threads of vcpus: the pool is consistent and a pause of all vcpus is exclusive *)
From S2P Require Import Prelude Signal Vcpu.

(** ** Looking at one vcpu *)
Lemma lookup_upd i f s j : (upd i f s).(vs_vcpus) !! j = if decide (i = j) then f <$> s.(vs_vcpus) !! j else s.(vs_vcpus) !! j.
Proof. unfold upd. cbn. case_decide; subst; [apply list_lookup_alter_eq|by apply list_lookup_alter_ne]. Qed.

(** What the pool operations leave alone. *)
Definition same_ctl (s s' : vsys) : Prop :=
  s'.(vs_exit_group) = s.(vs_exit_group) /\ s'.(vs_pause) = s.(vs_pause) /\ s'.(vs_mtx) = s.(vs_mtx) /\ s'.(vs_scan) = s.(vs_scan) /\ s'.(vs_held) = s.(vs_held).

Lemma put_spec i s :
  (km_vcpu_put i s).(vs_vcpus) = alter (set_state PARKED_IDLE) i s.(vs_vcpus) /\ same_ctl s (km_vcpu_put i s)
  /\ (km_vcpu_put i s).(vs_idle) = i :: s.(vs_idle) /\ (km_vcpu_put i s).(vs_run_cnt) = s.(vs_run_cnt) - 1.
Proof. unfold km_vcpu_put. cbv zeta. destruct (_ =? 0); done. Qed.

Definition reused (v : vthread) : vthread := set_gdb false (set_state STARTING v).
Definition fresh : vthread := mk_vt STARTING PNone false false.
Lemma get_spec ok s i s' :
  km_vcpu_get ok s = Some (Some i, s') ->
  s.(vs_exit_group) = false /\ same_ctl s s' /\ s'.(vs_run_cnt) = s.(vs_run_cnt) + 1
  /\ ((exists v rest, s.(vs_vcpus) !! i = Some v /\ v.(vt_state) = PARKED_IDLE /\ s.(vs_idle) = i :: rest /\ s'.(vs_idle) = rest /\ s'.(vs_vcpus) = alter reused i s.(vs_vcpus))
      \/ (i = length s.(vs_vcpus) /\ Z.of_nat (length s.(vs_vcpus)) <> KVM_MAX_VCPUS /\ s.(vs_idle) = [] /\ s'.(vs_idle) = [] /\ s'.(vs_vcpus) = s.(vs_vcpus) ++ [fresh])).
Proof.
  unfold km_vcpu_get. destruct (s.(vs_exit_group)) eqn:Ex; [done|]. destruct (s.(vs_idle)) as [|k rest] eqn:Ei.
  - destruct (Z.eqb_spec (Z.of_nat (length s.(vs_vcpus))) KVM_MAX_VCPUS); [done|]. destruct ok; [|done]. intros [= <- <-]. split_and!; try done. by right.
  - destruct (s.(vs_vcpus) !! k) as [v|] eqn:Ev; [|done]. destruct (decide _) as [Hp|]; [|done]. intros [= <- <-]. split_and!; try done. left. by exists v, rest.
Qed.
Lemma get_none ok s s' : km_vcpu_get ok s = Some (None, s') -> s' = s.
Proof.
  unfold km_vcpu_get. destruct (s.(vs_exit_group)); [by intros [= <-]|]. destruct (s.(vs_idle)); [destruct (_ || _); [by intros [= <-]|done]|].
  destruct (_ !! _); [|done]. by destruct (decide _).
Qed.

(** How km_run_vcpu_thread changes the vcpu. *)
Definition started (ok : bool) (v : vthread) : vthread :=
  if decide (v.(vt_pc) = PNone) then (if ok then set_pc PTop (set_state HYPERCALL v) else set_state PARKED_IDLE v) else set_state HYPERCALL v.
Lemma run_spec i ok s : (km_run_vcpu_thread i ok s).(vs_vcpus) = alter (started ok) i s.(vs_vcpus) /\ same_ctl s (km_run_vcpu_thread i ok s).
Proof.
  unfold km_run_vcpu_thread. destruct (s.(vs_vcpus) !! i) as [v|] eqn:Ev.
  - assert (Ha : forall f, f v = started ok v -> alter f i s.(vs_vcpus) = alter (started ok) i s.(vs_vcpus)).
    { intros f Hf. apply list_eq. intros j. destruct (decide (i = j)) as [<-|]; [|by rewrite !list_lookup_alter_ne]. rewrite !list_lookup_alter_eq, Ev. cbn. by rewrite Hf. }
    unfold started in Ha. destruct (decide (v.(vt_pc) = PNone)) as [Hp|Hp]; [destruct ok|]; unfold started.
    + split; [cbn; by rewrite (Ha _ eq_refl)|done].
    + destruct (put_spec i s) as (E & F & _). split; [by rewrite E, (Ha _ eq_refl)|done].
    + split; [cbn; by rewrite (Ha _ eq_refl)|done].
  - split; [|done]. apply list_eq. intros j. destruct (decide (i = j)) as [<-|]; [|by rewrite list_lookup_alter_ne]. by rewrite list_lookup_alter_eq, Ev.
Qed.

(** ** State and program point *)
Definition running (st : km_vcpu_state_t) : bool := match st with HYPERCALL | HCALL_INT => true | _ => false end.
Definition state_ok (v : vthread) : Prop :=
  match v.(vt_pc) with
  | PNone => v.(vt_state) = STARTING \/ v.(vt_state) = PARKED_IDLE
  | PWait | PWoken => v.(vt_state) = PAUSED
  | PGuest | PExit => v.(vt_state) = IN_GUEST
  | PParked | PGone => v.(vt_state) = PARKED_IDLE \/ v.(vt_state) = STARTING \/ running v.(vt_state) = true
  | _ => running v.(vt_state) = true
  end.
Definition holds_mtx (p : point) : bool := match p with PLocked | PBlock | PWoken => true | _ => false end.
(** In the guest, or past the last test before it. *)
Definition bound_for_guest (exiting : bool) (v : vthread) : bool :=
  match v.(vt_pc) with PEnter | PGuest | PExit => true | PLeft => negb exiting | _ => false end.
Definition stopping (s : vsys) : bool := s.(vs_pause) || s.(vs_exit_group).

(** A vcpu another thread is about to start. *)
Definition clonable (v : vthread) : Prop :=
  (v.(vt_pc) = PNone \/ v.(vt_pc) = PParked \/ v.(vt_pc) = PGone) /\ (v.(vt_state) = STARTING \/ v.(vt_pc) = PGone).
Definition unclaimed (s : vsys) (i : nat) : Prop := forall j v, s.(vs_vcpus) !! j = Some v -> v.(vt_pc) <> PClone i.
Definition quiet (s : vsys) (k : option nat) (n : nat) : Prop :=
  forall i v, s.(vs_vcpus) !! i = Some v -> (i < n)%nat -> Some i <> k -> bound_for_guest s.(vs_exit_group) v = false.

Definition parked (s : vsys) (i : nat) : Prop := exists v, s.(vs_vcpus) !! i = Some v /\ v.(vt_state) = PARKED_IDLE.

Record vinv (s : vsys) : Prop := {
  iv_state : forall i v, s.(vs_vcpus) !! i = Some v -> state_ok v;
  iv_mtx : forall i, s.(vs_mtx) = Some i <-> exists v, s.(vs_vcpus) !! i = Some v /\ holds_mtx v.(vt_pc) = true;
  iv_clone : forall j v i, s.(vs_vcpus) !! j = Some v -> v.(vt_pc) = PClone i -> exists w, s.(vs_vcpus) !! i = Some w /\ clonable w;
  iv_once : forall j1 j2 v1 v2 i, s.(vs_vcpus) !! j1 = Some v1 -> s.(vs_vcpus) !! j2 = Some v2 -> v1.(vt_pc) = PClone i -> v2.(vt_pc) = PClone i -> j1 = j2;
  iv_idle : s.(vs_exit_group) = false -> NoDup s.(vs_idle) /\ forall i, i ∈ s.(vs_idle) <-> parked s i;
  iv_count : s.(vs_exit_group) = false -> s.(vs_run_cnt) = Z.of_nat (length (filter used s.(vs_vcpus)));
  iv_scan : forall c, s.(vs_scan) = Some c -> 0 <= c.(sc_count) /\
    (c.(sc_steady) = true -> stopping s = true /\ (c.(sc_type) = ALL -> c.(sc_count) = 0 -> quiet s c.(sc_skip) c.(sc_next)));
  iv_held : forall k, s.(vs_held) = Some (ALL, k) -> stopping s = true /\ quiet s k (length s.(vs_vcpus));
  iv_max : Z.of_nat (length s.(vs_vcpus)) <= KVM_MAX_VCPUS;
  iv_gone : s.(vs_exit_group) = false -> forall i v, s.(vs_vcpus) !! i = Some v -> v.(vt_pc) <> PGone;
}.

Lemma lookup_alter_cases (f : vthread -> vthread) i (l : list vthread) j w :
  alter f i l !! j = Some w -> (i = j /\ exists v, l !! i = Some v /\ w = f v) \/ (i <> j /\ l !! j = Some w).
Proof.
  destruct (decide (i = j)) as [<-|Hne]; [rewrite list_lookup_alter_eq; intros (v & Hv & ->)%fmap_Some; left; eauto|rewrite list_lookup_alter_ne by done; by right].
Qed.

Definition b2z (b : bool) : Z := if b then 1 else 0.
Lemma count_used_alter f i (l : list vthread) v :
  l !! i = Some v -> Z.of_nat (length (filter used (alter f i l))) = Z.of_nat (length (filter used l)) - b2z (bool_decide (used v)) + b2z (bool_decide (used (f v))).
Proof.
  revert i. induction l as [|x l IH]; intros i Hi; [done|]. destruct i as [|i]; cbn in Hi.
  - injection Hi as ->. change (alter f 0%nat (v :: l)) with (f v :: l). rewrite !filter_cons. repeat case_decide; repeat case_bool_decide; cbn [length b2z]; first [contradiction | lia].
  - change (alter f (S i) (x :: l)) with (x :: alter f i l). rewrite !filter_cons. specialize (IH i Hi). destruct (decide (used x)); cbn [length]; lia.
Qed.

(** One vcpu changes, with the pool and the lock accordingly. *)
Definition pool_change (s s' : vsys) (i : nat) (v w : vthread) : Prop :=
  s'.(vs_run_cnt) = s.(vs_run_cnt) - b2z (bool_decide (used v)) + b2z (bool_decide (used w))
  /\ ((s'.(vs_idle) = s.(vs_idle) /\ (used v <-> used w)) \/ (s'.(vs_idle) = i :: s.(vs_idle) /\ used v /\ ~ used w) \/ (s.(vs_idle) = i :: s'.(vs_idle) /\ used w)).
Definition mtx_change (s s' : vsys) (i : nat) (v w : vthread) : Prop :=
  if holds_mtx w.(vt_pc) then s'.(vs_mtx) = Some i /\ (holds_mtx v.(vt_pc) = true \/ s.(vs_mtx) = None)
  else if holds_mtx v.(vt_pc) then s'.(vs_mtx) = None else s'.(vs_mtx) = s.(vs_mtx).

Lemma mtx_kept s s' i v w :
  (forall j, s.(vs_mtx) = Some j <-> exists v, s.(vs_vcpus) !! j = Some v /\ holds_mtx v.(vt_pc) = true) ->
  s.(vs_vcpus) !! i = Some v -> s'.(vs_vcpus) !! i = Some w -> (forall j, i <> j -> s'.(vs_vcpus) !! j = s.(vs_vcpus) !! j) -> mtx_change s s' i v w ->
  forall j, s'.(vs_mtx) = Some j <-> exists v, s'.(vs_vcpus) !! j = Some v /\ holds_mtx v.(vt_pc) = true.
Proof.
  intros Hm Hi Hat Hne Hc j. unfold mtx_change in Hc. destruct (holds_mtx w.(vt_pc)) eqn:Hw.
  - destruct Hc as [-> Hold]. split; [intros [= <-]; eauto|]. intros (x & Hj & Hh). destruct (decide (i = j)) as [<-|Hj']; [done|]. rewrite Hne in Hj by done.
    assert (s.(vs_mtx) = Some j) by (apply Hm; eauto). destruct Hold as [Hv|Hn]; [|congruence]. assert (s.(vs_mtx) = Some i) by (apply Hm; eauto). congruence.
  - assert (Hself : forall x, s'.(vs_vcpus) !! j = Some x -> holds_mtx x.(vt_pc) = true -> i <> j) by (intros x Hj Hh <-; rewrite Hat in Hj; injection Hj as <-; congruence).
    destruct (holds_mtx v.(vt_pc)) eqn:Hv; rewrite Hc.
    + split; [done|]. intros (x & Hj & Hh). pose proof (Hself x Hj Hh). rewrite Hne in Hj by done.
      assert (s.(vs_mtx) = Some j) by (apply Hm; eauto). assert (s.(vs_mtx) = Some i) by (apply Hm; eauto). congruence.
    + rewrite Hm. split; intros (x & Hj & Hh); exists x.
      * rewrite Hne; [done|]. intros <-. rewrite Hi in Hj. injection Hj as <-. congruence.
      * pose proof (Hself x Hj Hh). by rewrite Hne in Hj by done.
Qed.

Lemma parked_iff s i v : s.(vs_vcpus) !! i = Some v -> parked s i <-> ~ used v.
Proof.
  intros Hi. unfold parked, used. rewrite Hi. split.
  - intros (x & [= <-] & ->) Hn. by apply Hn.
  - intros Hn. exists v. split; [done|]. destruct (decide (v.(vt_state) = PARKED_IDLE)); [done|]. by destruct Hn.
Qed.

Lemma idle_kept s s' i v w :
  (NoDup s.(vs_idle) /\ forall i, i ∈ s.(vs_idle) <-> parked s i) -> s.(vs_vcpus) !! i = Some v -> s'.(vs_vcpus) !! i = Some w ->
  (forall j, i <> j -> s'.(vs_vcpus) !! j = s.(vs_vcpus) !! j) ->
  ((s'.(vs_idle) = s.(vs_idle) /\ (used v <-> used w)) \/ (s'.(vs_idle) = i :: s.(vs_idle) /\ used v /\ ~ used w) \/ (s.(vs_idle) = i :: s'.(vs_idle) /\ used w)) ->
  NoDup s'.(vs_idle) /\ forall i, i ∈ s'.(vs_idle) <-> parked s' i.
Proof.
  intros [Hnd Hin] Hi Hat Hne Hc. pose proof (parked_iff s' i w Hat) as Hself. pose proof (Hin i) as Hwas. rewrite (parked_iff s i v Hi) in Hwas.
  assert (Hother : forall j, i <> j -> parked s' j <-> j ∈ s.(vs_idle)) by (intros j Hj; rewrite Hin; unfold parked; by rewrite Hne).
  destruct Hc as [[-> Hu]|[(-> & Hu & Hnu)|[Hidle Hu]]].
  - split; [done|]. intros j. destruct (decide (i = j)) as [<-|Hj]; [rewrite Hself, Hwas; tauto|by rewrite Hother].
  - split; [apply NoDup_cons; split; [rewrite Hwas; tauto|done]|]. intros j. rewrite elem_of_cons. destruct (decide (i = j)) as [<-|Hj]; [rewrite Hself; tauto|].
    rewrite Hother by done. split; [|by right]. intros [->|?]; [by destruct Hj|done].
  - rewrite Hidle in *. apply NoDup_cons in Hnd as [Hni Hnd]. split; [done|]. intros j. destruct (decide (i = j)) as [<-|Hj]; [rewrite Hself; tauto|].
    rewrite Hother, elem_of_cons by done. split; [by right|]. intros [->|?]; [by destruct Hj|done].
Qed.

Lemma inv_alter s s' i f v :
  vinv s -> s.(vs_vcpus) !! i = Some v -> s'.(vs_vcpus) = alter f i s.(vs_vcpus) ->
  s'.(vs_exit_group) = s.(vs_exit_group) -> s'.(vs_pause) = s.(vs_pause) -> s'.(vs_scan) = s.(vs_scan) -> s'.(vs_held) = s.(vs_held) ->
  state_ok (f v) -> (s.(vs_exit_group) = false -> (f v).(vt_pc) = PGone -> v.(vt_pc) = PGone) ->
  (forall k, (f v).(vt_pc) = PClone k -> v.(vt_pc) = PClone k \/ (unclaimed s k /\ exists w, s.(vs_vcpus) !! k = Some w /\ k <> i /\ clonable w)) -> (unclaimed s i \/ (clonable v -> clonable (f v))) ->
  (s.(vs_exit_group) = false -> pool_change s s' i v (f v)) -> mtx_change s s' i v (f v) ->
  (stopping s = true -> bound_for_guest s.(vs_exit_group) (f v) = true -> bound_for_guest s.(vs_exit_group) v = true) ->
  vinv s'.
Proof.
  intros I Hi El Ee Ep Es Eh H2 Hg H3 H4 H5 H6 H7.
  assert (Hat : s'.(vs_vcpus) !! i = Some (f v)) by (rewrite El, list_lookup_alter_eq, Hi; done).
  assert (Hne : forall j, i <> j -> s'.(vs_vcpus) !! j = s.(vs_vcpus) !! j) by (intros j Hj; by rewrite El, list_lookup_alter_ne).
  assert (Hstop : stopping s' = stopping s) by (unfold stopping; by rewrite Ee, Ep).
  assert (Hquiet : forall k n, stopping s = true -> quiet s k n -> quiet s' k n).
  { intros k n Hst Hq j w Hj Hn Hk. rewrite Ee. destruct (decide (i = j)) as [<-|Hj']; [|rewrite Hne in Hj by done; by apply (Hq j)]. rewrite Hat in Hj. injection Hj as <-.
    specialize (Hq i v Hi Hn Hk). destruct (bound_for_guest s.(vs_exit_group) (f v)); [|done]. by rewrite H7 in Hq. }
  assert (Hclaim : forall j w k, s'.(vs_vcpus) !! j = Some w -> w.(vt_pc) = PClone k ->
    (exists w0, s.(vs_vcpus) !! j = Some w0 /\ w0.(vt_pc) = PClone k) \/ (j = i /\ unclaimed s k /\ exists x, s.(vs_vcpus) !! k = Some x /\ k <> i /\ clonable x)).
  { intros j w k Hj Hk. destruct (decide (i = j)) as [<-|Hj']; [|rewrite Hne in Hj by done; left; eauto]. rewrite Hat in Hj. injection Hj as <-. destruct (H3 k Hk); eauto. }
  split.
  - intros j w Hj. destruct (decide (i = j)) as [<-|Hj']; [rewrite Hat in Hj; by injection Hj as <-|]. rewrite Hne in Hj by done. by eapply iv_state.
  - by apply (mtx_kept s s' i v (f v)); [apply I|..].
  - intros j w k Hj Hk. destruct (Hclaim j w k Hj Hk) as [(w0 & Hj0 & Hk0)|(_ & _ & x & Hx & Hne' & Hc)]; [|exists x; by rewrite Hne by congruence].
    destruct (iv_clone s I j w0 k Hj0 Hk0) as (x & Hx & Hc). destruct (decide (i = k)) as [<-|Hik]; [|rewrite Hne by done; eauto].
    rewrite Hi in Hx. injection Hx as <-. exists (f v). split; [done|]. destruct H4 as [Hu|H4]; [by destruct (Hu j w0)|auto].
  - intros j1 j2 v1 v2 k Hj1 Hj2 Hk1 Hk2. destruct (Hclaim _ _ _ Hj1 Hk1) as [(w1 & A1 & B1)|(-> & U1 & _)], (Hclaim _ _ _ Hj2 Hk2) as [(w2 & A2 & B2)|(-> & U2 & _)].
    + by eapply (iv_once s I).
    + by destruct (U2 _ _ A1).
    + by destruct (U1 _ _ A2).
    + done.
  - rewrite Ee. intros Hex. destruct (H5 Hex) as [_ H5']. by apply (idle_kept s s' i v (f v)); [apply (iv_idle s I Hex)|..].
  - rewrite Ee. intros Hex. destruct (H5 Hex) as [Hr _]. rewrite El, (count_used_alter f i _ v Hi), Hr, (iv_count s I Hex). done.
  - intros c. rewrite Es. intros Hc. destruct (iv_scan s I c Hc) as [Hc0 Hc1]. split; [done|]. intros Hst. destruct (Hc1 Hst) as [Hs1 Hs2]. rewrite Hstop. split; [done|]. eauto.
  - intros k. rewrite Eh. intros Hk. destruct (iv_held s I k Hk) as [Hs1 Hs2]. rewrite Hstop. split; [done|]. rewrite El, length_alter. eauto.
  - rewrite El, length_alter. apply I.
  - rewrite Ee. intros Hex j w Hj Hgone. destruct (decide (i = j)) as [<-|Hj']; [|rewrite Hne in Hj by done; by apply (iv_gone s I Hex j w)].
    rewrite Hat in Hj. injection Hj as <-. apply (iv_gone s I Hex i v Hi). auto.
Qed.

(** The vcpu added by km_vcpu_get. *)
Lemma inv_append s s' :
  vinv s -> s'.(vs_vcpus) = s.(vs_vcpus) ++ [fresh] -> same_ctl s s' -> s'.(vs_idle) = s.(vs_idle) -> s'.(vs_run_cnt) = s.(vs_run_cnt) + 1 ->
  Z.of_nat (length s.(vs_vcpus)) <> KVM_MAX_VCPUS -> s.(vs_scan) = None -> vinv s' /\ unclaimed s' (length s.(vs_vcpus)).
Proof.
  intros I El (Ee & Ep & Em & Es & Eh) Ei Er Hmax Hsc.
  assert (Hold : forall j v, s.(vs_vcpus) !! j = Some v -> s'.(vs_vcpus) !! j = Some v) by (intros j v Hj; rewrite El; by apply lookup_app_l_Some).
  assert (Hnew : forall j v, s'.(vs_vcpus) !! j = Some v -> s.(vs_vcpus) !! j = Some v \/ (v = fresh /\ j = length s.(vs_vcpus))).
  { intros j v. rewrite El. intros [Hj|[Hge Hj]]%lookup_app_Some; [by left|]. apply list_lookup_singleton_Some in Hj as [Hz <-]. right. split; [done|lia]. }
  split; [split; [..|by rewrite Ee; intros Hex j v Hj; destruct (Hnew j v Hj) as [Hj'|[-> _]]; [by apply (iv_gone s I Hex j)|]]|].
  - intros j v Hj. destruct (Hnew j v Hj) as [Hj'|[-> _]]; [by eapply (iv_state s I)|by left].
  - intros j. rewrite Em, (iv_mtx s I). split; intros (v & Hj & Hh); exists v; [eauto|]. by destruct (Hnew j v Hj) as [Hj'|[-> _]].
  - intros j v k Hj Hk. destruct (Hnew j v Hj) as [Hj'|[-> _]]; [|done]. destruct (iv_clone s I j v k Hj' Hk) as (w & Hw & Hc). eauto.
  - intros j1 j2 v1 v2 k Hj1 Hj2 Hk1 Hk2. destruct (Hnew _ _ Hj1) as [H1|[-> _]]; [|done]. destruct (Hnew _ _ Hj2) as [H2|[-> _]]; [|done]. by eapply (iv_once s I).
  - rewrite Ee, Ei. intros Hex. destruct (iv_idle s I Hex) as [Hnd Hin]. split; [done|]. intros j. rewrite Hin. split; intros (v & Hj & Hp); exists v; [eauto|]. by destruct (Hnew j v Hj) as [Hj'|[-> _]].
  - rewrite Ee, Er, El, filter_app, length_app. intros Hex. rewrite (iv_count s I Hex). change (length (filter used [fresh])) with 1%nat. lia.
  - intros c. by rewrite Es, Hsc.
  - intros k. rewrite Eh. intros Hk. destruct (iv_held s I k Hk) as [Hs1 Hs2]. split; [unfold stopping; by rewrite Ee, Ep|]. intros j v Hj Hn Hne. rewrite Ee.
    destruct (Hnew j v Hj) as [Hj'|[-> _]]; [|done]. apply (Hs2 j); [done|by eapply lookup_lt_Some|done].
  - rewrite El, length_app. pose proof (iv_max s I). cbn. lia.
  - intros j v Hj Hk. destruct (Hnew j v Hj) as [Hj'|[-> _]]; [|done]. destruct (iv_clone s I j v _ Hj' Hk) as (w & Hw%lookup_lt_Some & _). lia.
Qed.

(** Requests: the vcpus are as they were. *)
Lemma inv_requests s s' :
  vinv s -> s'.(vs_vcpus) = s.(vs_vcpus) -> s'.(vs_mtx) = s.(vs_mtx) -> s'.(vs_idle) = s.(vs_idle) -> s'.(vs_run_cnt) = s.(vs_run_cnt) ->
  (s'.(vs_exit_group) = false -> s.(vs_exit_group) = false) ->
  (forall c, s'.(vs_scan) = Some c -> 0 <= c.(sc_count) /\
    (c.(sc_steady) = true -> stopping s' = true /\ (c.(sc_type) = ALL -> c.(sc_count) = 0 -> quiet s' c.(sc_skip) c.(sc_next)))) ->
  (forall k, s'.(vs_held) = Some (ALL, k) -> stopping s' = true /\ quiet s' k (length s'.(vs_vcpus))) -> vinv s'.
Proof.
  intros I El Em Ei Er Hex Hsc Hh. destruct I as [I1 I2 I3 I4 I5 I6 I7 I8 I9 I10]. split; [..|exact Hsc|exact Hh| |].
  - by rewrite El.
  - intros i. by rewrite El, Em.
  - by rewrite El.
  - by rewrite El.
  - intros E. rewrite Ei. unfold parked. rewrite El. by apply I5, Hex.
  - intros E. rewrite Er, El. by apply I6, Hex.
  - by rewrite El.
  - intros E. rewrite El. by apply I10, Hex.
Qed.
(** An exit only takes vcpus away from the guest. *)
Lemma quiet_exit s s' k n : s'.(vs_vcpus) = s.(vs_vcpus) -> (s.(vs_exit_group) = true -> s'.(vs_exit_group) = true) -> quiet s k n -> quiet s' k n.
Proof.
  intros El Hex Hq i v. rewrite El. intros Hi Hn Hk. specialize (Hq i v Hi Hn Hk). unfold bound_for_guest in *. destruct (v.(vt_pc)); try done. destruct (s.(vs_exit_group)); [by rewrite Hex|done].
Qed.

Lemma init_inv s : vinit s -> vinv s.
Proof.
  intros [H1 [H2 H3] H4 (H5 & H6 & H7) H8]. rewrite Forall_lookup in H1.
  assert (Hpc : forall i v, s.(vs_vcpus) !! i = Some v -> v.(vt_pc) = PTop \/ v.(vt_pc) = PNone) by (intros i v Hv; destruct (H1 i v Hv) as [[[_ ?]|[_ ?]] _]; tauto).
  split.
  - intros i v Hv. destruct (H1 i v Hv) as [[[A B]|[A B]] _]; unfold state_ok; rewrite B, A; [done|by right].
  - intros i. rewrite H5. split; [done|]. intros (v & Hv & Hh). by destruct (Hpc i v Hv) as [E|E]; rewrite E in Hh.
  - intros j v i Hv Hk. destruct (Hpc j v Hv); congruence.
  - intros j1 j2 v1 v2 i Hv Hv2 Hk. destruct (Hpc j1 v1 Hv); congruence.
  - done.
  - done.
  - intros c. by rewrite H6.
  - intros k. by rewrite H7.
  - done.
  - intros _ i v Hv Hg. destruct (Hpc i v Hv); congruence.
Qed.

(** ** Steps of one thread *)
Lemma inv_move s i f v o :
  vinv s -> s.(vs_vcpus) !! i = Some v -> state_ok (f v) -> (f v).(vt_pc) <> PGone -> (forall k, (f v).(vt_pc) <> PClone k) -> (clonable v -> clonable (f v)) ->
  (used v <-> used (f v)) -> mtx_change s (set_mtx o (upd i f s)) i v (f v) ->
  (stopping s = true -> bound_for_guest s.(vs_exit_group) (f v) = true -> bound_for_guest s.(vs_exit_group) v = true) ->
  vinv (set_mtx o (upd i f s)).
Proof.
  intros I Hi H2 Hg H3 H4 H5 H6 H7. apply (inv_alter s _ i f v); try done; [intros k Hk; by destruct (H3 k)|by right|]. intros _. split; [|by left].
  cbn [set_mtx upd vs_run_cnt]. rewrite (bool_decide_ext _ _ H5). lia.
Qed.
Lemma upd_mtx i f s : upd i f s = set_mtx s.(vs_mtx) (upd i f s).
Proof. done. Qed.

(** A move of one thread: its state is one its program point allows. *)
Ltac thread_move I :=
  match goal with
  | H : at_pc ?s ?i ?v _ |- _ =>
      let Hl := fresh "Hl" in let Hp := fresh "Hp" in let Hok := fresh "Hok" in
      destruct H as [Hl Hp]; pose proof (iv_state s I i v Hl) as Hok; destruct v as [st pc g b]; cbn in Hp; subst pc; unfold state_ok in Hok; cbn in Hok;
      try rewrite (upd_mtx i _ s); eapply (inv_move s i _ (mk_vt st _ g b)); [exact I|exact Hl|..]
  end;
  unfold mtx_change, clonable, used, state_ok, bound_for_guest; cbn in *.

Lemma handle_pause_inv s i v p f o :
  vinv s -> at_pc s i v p ->
  (p = PTop /\ f = set_pc PLocked /\ s.(vs_mtx) = None /\ o = Some i) \/ (p = PLocked /\ f = set_pc PBlock /\ o = s.(vs_mtx))
  \/ (p = PLocked /\ must_wait s v = false /\ f = set_pc PLeft /\ o = None)
  \/ (p = PBlock /\ f = (fun v => set_pc PWait (set_state PAUSED v)) /\ o = None)
  \/ (p = PWait /\ f = set_pc PWoken /\ s.(vs_mtx) = None /\ o = Some i)
  \/ (p = PWoken /\ f = (fun v => set_pc PLocked (set_state HYPERCALL v)) /\ o = s.(vs_mtx)) ->
  vinv (set_mtx o (upd i f s)).
Proof.
  intros I Hat Hcases.
  assert (Hown : holds_mtx p = true -> s.(vs_mtx) = Some i) by (intros Hh; apply (iv_mtx s I); exists v; destruct Hat as [? ->]; done).
  destruct Hcases as [(-> & -> & Hm & ->)|[(-> & -> & ->)|[(-> & Hw & -> & ->)|[(-> & -> & ->)|[(-> & -> & Hm & ->)|(-> & -> & ->)]]]]]; thread_move I.
  all: try done.
  all: try (split; [by apply Hown|by left]). all: try (split; [done|by right]).
  all: try (intros [[?|[?|?]] _]; done).
  all: try (by destruct st).
  all: try (subst; split; congruence).
  intros Hstop Hn. unfold must_wait, stopping in *. cbn in Hw. destruct (s.(vs_pause)); cbn in *; [by rewrite Hw in Hn|]. by rewrite Hstop in Hn.
Qed.

Lemma run_loop_inv s i v p f :
  vinv s -> at_pc s i v p ->
  (p = PLeft /\ f = set_pc (if s.(vs_exit_group) then PStop else PEnter))
  \/ (p = PEnter /\ f = (fun v => set_pc PGuest (set_state IN_GUEST v))) \/ (p = PEnter /\ f = set_pc PHandle)
  \/ (p = PGuest /\ f = set_pc PExit) \/ (p = PExit /\ f = (fun v => set_pc PHandle (set_state HYPERCALL v)))
  \/ (p = PHandle /\ f = set_pc PTop) \/ (p = PHandle /\ f = set_pc PStop)
  \/ (p = PParked /\ (v.(vt_state) = HYPERCALL \/ v.(vt_state) = HCALL_INT) /\ f = set_pc PHandle) \/ (exists k, p = PClone k /\ f = set_pc PHandle) ->
  vinv (upd i f s).
Proof.
  intros I Hat Hcases.
  destruct Hcases as [(-> & ->)|[(-> & ->)|[(-> & ->)|[(-> & ->)|[(-> & ->)|[(-> & ->)|[(-> & ->)|[(-> & Hst & ->)|(k & -> & ->)]]]]]]]]; thread_move I.
  all: try done.
  all: try (intros [[?|[?|?]] _]; done).
  all: try (by destruct st).
  all: try (by destruct (s.(vs_exit_group))).
  all: try (intros k; by destruct (s.(vs_exit_group))).
  all: try (by destruct Hst as [-> | ->]).
  - intros [_ [?|?]]; [|done]. destruct Hst; congruence.
Qed.

Lemma alter_out (f : vthread -> vthread) i (l : list vthread) : (length l <= i)%nat -> alter f i l = l.
Proof. intros Hi. apply list_eq. intros j. destruct (decide (i = j)) as [<-|]; [by rewrite list_lookup_alter_eq, lookup_ge_None_2|by rewrite list_lookup_alter_ne]. Qed.

(** Signals and the wishes of gdb. *)
Lemma flags_inv s i f v :
  vinv s -> s.(vs_vcpus) !! i = Some v -> (f v).(vt_pc) = v.(vt_pc) -> ((f v).(vt_state) = v.(vt_state) \/ v.(vt_state) = HYPERCALL /\ (f v).(vt_state) = HCALL_INT) -> vinv (upd i f s).
Proof.
  intros I Hi Hpc Hst. pose proof (iv_state s I i v Hi) as Hok. apply (inv_alter s _ i f v); try done.
  - unfold state_ok in *. rewrite Hpc. destruct Hst as [->|[E ->]]; [done|]. rewrite E in Hok. cbn in *. destruct (v.(vt_pc)); try done; destruct Hok as [?|?]; try done; by right; right.
  - by rewrite Hpc.
  - rewrite Hpc. by left.
  - right. unfold clonable. rewrite Hpc. destruct Hst as [->|[E ->]]; [done|]. rewrite E. intros [? [?|?]]; [done|]. split; [done|by right].
  - intros _. assert (Hu : used v <-> used (f v)) by (unfold used; destruct Hst as [->|[-> ->]]; done). split; [cbn; rewrite (bool_decide_ext _ _ Hu); lia|by left].
  - unfold mtx_change. rewrite Hpc. destruct (holds_mtx v.(vt_pc)) eqn:E; [|done]. split; [|by left]. apply (iv_mtx s I). eauto.
  - unfold bound_for_guest. by rewrite Hpc.
Qed.
Lemma signal_inv s i v : vinv s -> s.(vs_vcpus) !! i = Some v -> vinv (upd i km_vcpu_pause_sighandler s).
Proof. intros I Hi. apply (flags_inv s i _ v I Hi); unfold km_vcpu_pause_sighandler; destruct (decide _); try done; [by right|by left]. Qed.
Lemma gdb_inv s i b : vinv s -> vinv (upd i (set_gdb b) s).
Proof.
  intros I. destruct (s.(vs_vcpus) !! i) as [v|] eqn:Hi; [apply (flags_inv s i _ v I Hi); [done|by left]|].
  replace (upd i (set_gdb b) s) with s; [done|]. unfold upd. rewrite alter_out by (by apply lookup_ge_None). by destruct s.
Qed.

(** ** The pool *)
Lemma alter_twice (f g : vthread -> vthread) i (l : list vthread) : alter f i (alter g i l) = alter (fun v => f (g v)) i l.
Proof. apply list_eq. intros j. destruct (decide (i = j)) as [<-|]; [rewrite !list_lookup_alter_eq; by destruct (l !! i)|by rewrite !list_lookup_alter_ne]. Qed.
Lemma alter_commute (f g : vthread -> vthread) i j (l : list vthread) : i <> j -> alter f i (alter g j l) = alter g j (alter f i l).
Proof.
  intros Hne. apply list_eq. intros k. destruct (decide (i = k)) as [<-|Hik].
  - rewrite list_lookup_alter_eq, !(list_lookup_alter_ne g) by done. by rewrite list_lookup_alter_eq.
  - rewrite list_lookup_alter_ne by done. destruct (decide (j = k)) as [<-|Hjk]; [by rewrite !list_lookup_alter_eq, list_lookup_alter_ne|by rewrite !list_lookup_alter_ne].
Qed.

Lemma running_used st : running st = true -> st <> PARKED_IDLE.
Proof. by destruct st. Qed.
Lemma b2z_used v : used v -> b2z (bool_decide (used v)) = 1.
Proof. intros H. by rewrite bool_decide_eq_true_2. Qed.
Lemma b2z_unused v : ~ used v -> b2z (bool_decide (used v)) = 0.
Proof. intros H. by rewrite bool_decide_eq_false_2. Qed.

Lemma put_inv s i v : vinv s -> at_pc s i v PStop -> vinv (upd i (set_pc PParked) (km_vcpu_put i s)).
Proof.
  intros I [Hl Hp]. pose proof (iv_state s I i v Hl) as Hok. unfold state_ok in Hok. rewrite Hp in Hok. apply running_used in Hok.
  destruct (put_spec i s) as (Ev & (Ee & Epz & Em & Es & Eh) & Ei & Er). set (f := fun v => set_pc PParked (set_state PARKED_IDLE v)).
  assert (Hn : ~ used (f v)) by (intros Hu; by apply Hu).
  apply (inv_alter s _ i f v); try done.
  - cbn [upd vs_vcpus]. rewrite Ev. by rewrite alter_twice.
  - by left.
  - right. intros [[?|[?|?]] _]; congruence.
  - intros _. split; [cbn [upd vs_run_cnt]; rewrite Er, b2z_used, b2z_unused by done; lia|]. right. left. split_and!; [exact Ei|exact Hok|done].
  - unfold mtx_change. cbn [f set_pc vt_pc holds_mtx]. rewrite Hp. exact Em.
Qed.

Lemma gone_inv s i v : vinv s -> at_pc s i v PParked -> s.(vs_exit_group) = true -> vinv (upd i (fun v => set_pc PGone (set_state PARKED_IDLE v)) s).
Proof.
  intros I [Hl Hp] Hex. apply (inv_alter s _ i (fun v => set_pc PGone (set_state PARKED_IDLE v)) v); try done; [by left|congruence| |congruence|].
  - right. intros _. split; [by right; right|by right].
  - unfold mtx_change. cbn. by rewrite Hp.
Qed.

(** A thread takes hold of the vcpu it starts. *)
Lemma claim_inv s j v i w :
  vinv s -> at_pc s j v PHandle -> unclaimed s i -> s.(vs_vcpus) !! i = Some w -> clonable w -> i <> j -> vinv (upd j (set_pc (PClone i)) s).
Proof.
  intros I [Hl Hp] Hu Hi Hc Hne. pose proof (iv_state s I j v Hl) as Hok. unfold state_ok in Hok. rewrite Hp in Hok.
  apply (inv_alter s _ j (set_pc (PClone i)) v); try done.
  - cbn. intros k [= <-]. right. split; [done|]. by exists w.
  - right. intros [[?|[?|?]] _]; congruence.
  - intros _. split; [|by left]. change (used (set_pc (PClone i) v)) with (used v). rewrite Z.sub_add. done.
  - unfold mtx_change. cbn. by rewrite Hp.
Qed.

Lemma parked_unclaimed s i v : vinv s -> s.(vs_exit_group) = false -> s.(vs_vcpus) !! i = Some v -> v.(vt_state) = PARKED_IDLE -> unclaimed s i.
Proof.
  intros I Hex Hi Hp j w Hj Hk. destruct (iv_clone s I j w i Hj Hk) as (x & Hx & _ & Hc). rewrite Hi in Hx. injection Hx as <-.
  destruct Hc as [?|?]; [congruence|by apply (iv_gone s I Hex i v)].
Qed.

Lemma get_inv s j v ok i s' :
  vinv s -> at_pc s j v PHandle -> s.(vs_scan) = None -> km_vcpu_get ok s = Some (Some i, s') -> vinv (upd j (set_pc (PClone i)) s').
Proof.
  intros I [Hl Hp] Hsc (Hex & Hctl & Hr & Hcases)%get_spec. pose proof (iv_state s I j v Hl) as Hok. unfold state_ok in Hok. rewrite Hp in Hok. apply running_used in Hok.
  destruct Hcases as [(w & rest & Hi & Hw & Hidle & Hidle' & El)|(-> & Hmax & Hidle & Hidle' & El)].
  - assert (Hne : i <> j) by congruence. pose proof (iv_state s I i w Hi) as Hokw. destruct Hctl as (Ee & Epz & Em & Es & Eh).
    assert (Hpcw : w.(vt_pc) = PNone \/ w.(vt_pc) = PParked).
    { pose proof (iv_gone s I Hex i w Hi). unfold state_ok in Hokw. rewrite Hw in Hokw. destruct (w.(vt_pc)); try done; [by left|by right]. }
    assert (Hu : unclaimed s i) by (by eapply parked_unclaimed).
    assert (I' : vinv s').
    { apply (inv_alter s _ i reused w); try done.
      - unfold state_ok, reused. cbn. by destruct Hpcw as [-> | ->]; [left|right; left].
      - by left.
      - by left.
      - intros _. split; [|right; right; split; [by rewrite Hidle, Hidle'|done]]. rewrite Hr, b2z_unused, b2z_used by (done || (intros Hx; by apply Hx)). lia.
      - unfold mtx_change. cbn. by destruct Hpcw as [-> | ->]. }
    apply (claim_inv s' j v i (reused w)); try done.
    + split; [|done]. by rewrite El, list_lookup_alter_ne.
    + intros k x Hk. rewrite El in Hk. apply lookup_alter_cases in Hk as [(<- & y & Hy & ->)|[_ Hk]]; [|by apply (Hu k)]. cbn. rewrite Hi in Hy. injection Hy as <-.
      destruct Hpcw as [-> | ->]; done.
    + by rewrite El, list_lookup_alter_eq, Hi.
    + split; [cbn; tauto|by left].
  - destruct (inv_append s s' I El Hctl) as [I' Hu]; [congruence|done|done|done|]. apply (claim_inv s' j v (length s.(vs_vcpus)) fresh); try done.
    + split; [|done]. rewrite El. by apply lookup_app_l_Some.
    + rewrite El, lookup_app_r, Nat.sub_diag by done. done.
    + split; [by left|by left].
    + apply lookup_lt_Some in Hl. lia.
Qed.

Lemma run_comm i j g ok s : i <> j -> upd j g (km_run_vcpu_thread i ok s) = km_run_vcpu_thread i ok (upd j g s).
Proof.
  intros Hne. unfold km_run_vcpu_thread. rewrite lookup_upd, decide_False by done. destruct (s.(vs_vcpus) !! i) as [v|]; [|done].
  destruct (decide _); [destruct ok|]; unfold km_vcpu_put, upd, set_idle; cbn; try (destruct (_ =? 0)); unfold km_signal_machine_fini; cbn; by rewrite (alter_commute _ _ j i).
Qed.

Lemma run_inv s j v i ok : vinv s -> at_pc s j v (PClone i) -> vinv (upd j (set_pc PHandle) (km_run_vcpu_thread i ok s)).
Proof.
  intros I Hat. destruct Hat as [Hl Hp]. destruct (iv_clone s I j v i Hl Hp) as (w & Hi & Hc). assert (Hne : i <> j).
  { intros ->. rewrite Hl in Hi. injection Hi as <-. destruct Hc as [[?|[?|?]] _]; congruence. }
  rewrite run_comm by done. set (s1 := upd j (set_pc PHandle) s).
  assert (I1 : vinv s1) by (apply (run_loop_inv s j v (PClone i)); [done|done|]; do 8 right; eauto).
  assert (Hi1 : s1.(vs_vcpus) !! i = Some w) by (unfold s1; by rewrite lookup_upd, decide_False).
  assert (Hu : unclaimed s1 i).
  { intros k x Hk Hx. unfold s1 in Hk. rewrite lookup_upd in Hk. destruct (decide (j = k)) as [<-|Hjk]; [rewrite Hl in Hk; cbn in Hk; by injection Hk as <-|].
    apply Hjk. symmetry. by apply (iv_once s I k j x v i). }
  destruct (run_spec i ok s1) as [El (Ee & Epz & Em & Es & Eh)]. pose proof (iv_state s1 I1 i w Hi1) as Hok. destruct Hc as [Hpc Hst].
  apply (inv_alter s1 _ i (started ok) w); try done; unfold started.
  - unfold state_ok. destruct (decide _) as [E|E]; [destruct ok; cbn; rewrite ?E; by (done || right)|]. cbn. destruct Hpc as [?|[-> | ->]]; [done|by right; right..].
  - intros _. destruct (decide _) as [E|E]; [by destruct ok|done].
  - intros k. destruct (decide _) as [E|E]; [destruct ok; cbn; congruence|]. cbn. by left.
  - by left.
  - intros Hex. destruct Hst as [Hst|?]; [|by destruct (iv_gone s1 I1 Hex i w)]. assert (Huw : used w) by (unfold used; by rewrite Hst).
    unfold pool_change, km_run_vcpu_thread. rewrite Hi1. destruct (decide _) as [E|E]; [destruct ok|].
    + split; [cbn; rewrite !b2z_used by done; lia|by left].
    + destruct (put_spec i s1) as (_ & _ & Ei & Er). split; [rewrite Er, b2z_used, b2z_unused by (done || (intros Hx; by apply Hx)); lia|]. right. left. split_and!; [done|done|]. intros Hx. by apply Hx.
    + split; [cbn; rewrite !b2z_used by done; lia|by left].
  - unfold mtx_change. rewrite Em. destruct (decide _) as [E|E]; [destruct ok; cbn; by rewrite E|]. cbn. by destruct Hpc as [-> | [-> | ->]].
  - intros _. unfold bound_for_guest. destruct (decide _) as [E|E]; [destruct ok; cbn; rewrite ?E; done|done].
Qed.

(** ** Requests and scans *)
Lemma stopped_state v b : state_ok v -> v.(vt_state) = PARKED_IDLE \/ v.(vt_state) = PAUSED -> bound_for_guest b v = false.
Proof. unfold state_ok, bound_for_guest. intros Hok [E|E]; rewrite E in Hok; destruct (v.(vt_pc)); try done; by destruct Hok as [?|[?|?]]. Qed.

Lemma visit_inv s c v : vinv s -> s.(vs_scan) = Some c -> s.(vs_vcpus) !! c.(sc_next) = Some v -> vinv (scan_visit c c.(sc_next) v s).
Proof.
  intros I Hc Hv. unfold scan_visit. cbv zeta. destruct (iv_scan s I c Hc) as [Hc0 Hc1].
  set (s1 := if counted c c.(sc_next) v then upd c.(sc_next) km_signal_vcpu_stop s else s).
  assert (Hs1 : counted c c.(sc_next) v = false -> s1 = s) by (unfold s1; by intros ->).
  assert (I1 : vinv s1).
  { unfold s1. destruct (counted _ _ _); [|done]. apply (flags_inv s _ _ v I Hv); unfold km_signal_vcpu_stop; destruct (decide _); try done; by left. }
  assert (F1 : s1.(vs_scan) = s.(vs_scan) /\ s1.(vs_held) = s.(vs_held) /\ s1.(vs_pause) = s.(vs_pause) /\ s1.(vs_exit_group) = s.(vs_exit_group)) by (unfold s1; by destruct (counted _ _ _)).
  destruct F1 as (Fs & Fh & Fp & Fe). clearbody s1. apply (inv_requests s1); try done; cbn [set_scan vs_scan vs_held].
  - intros c' [= <-]. cbn [sc_count sc_type sc_skip sc_next sc_steady]. split; [destruct (counted _ _ _); lia|]. intros Hst. destruct (Hc1 Hst) as [Hstop Hq].
    split; [unfold stopping in *; cbn; by rewrite Fp, Fe|]. intros Hall Hcount. destruct (counted c c.(sc_next) v) eqn:Ecnt; [lia|]. rewrite Z.add_0_r in Hcount.
    intros i w Hi Hn Hk. cbn [set_scan vs_exit_group vs_vcpus] in *. rewrite (Hs1 eq_refl) in *. destruct (decide (i = c.(sc_next))) as [->|Hne].
    + rewrite Hv in Hi. injection Hi as <-. apply stopped_state; [by apply (iv_state s I _ v Hv)|]. unfold counted in Ecnt. rewrite Hall in Ecnt. unfold km_vcpu_not_paused in Ecnt.
      rewrite (bool_decide_eq_false_2 (Some _ = _)) in Ecnt by done. rewrite orb_false_r, <- negb_orb in Ecnt. apply negb_false_iff, orb_prop in Ecnt as [E|E]; apply bool_decide_eq_true in E; tauto.
    + apply (Hq Hall Hcount i w Hi); [lia|done].
  - intros k Hk. rewrite <- Fh in Hk. destruct (iv_held s1 I1 k Hk). done.
Qed.

Lemma scanned_inv s c : vinv s -> s.(vs_scan) = Some c -> s.(vs_vcpus) !! c.(sc_next) = None -> vinv (scan_end c s).
Proof.
  intros I Hc Hn. destruct (iv_scan s I c Hc) as [Hc0 Hc1]. apply lookup_ge_None in Hn. unfold scan_end. apply (inv_requests s); try done; cbn [set_scan vs_scan vs_held].
  intros k Hk. destruct ((c.(sc_count) =? 0) && c.(sc_steady)) eqn:E; [|by apply (iv_held s I k)]. apply andb_true_iff in E as [E1%Z.eqb_eq E2]. injection Hk as Ht <-.
  destruct (Hc1 E2) as [Hstop Hq]. split; [done|]. intros i w Hi Hlt Hne. apply (Hq Ht E1 i w Hi); [|done]. cbn in Hlt. lia.
Qed.

Lemma resume_inv s : vinv s -> vinv (vcpu_resume_all s).
Proof.
  intros I. unfold vcpu_resume_all. cbv zeta. cbn [set_pause vs_exit_group]. destruct (s.(vs_exit_group)) eqn:Ex.
  - apply (inv_requests s); try done.
    + intros c Hc. destruct (iv_scan s I c Hc) as [Hc0 Hc1]. split; [done|]. intros Hst. destruct (Hc1 Hst) as [_ Hq]. split; [unfold stopping; cbn; by rewrite Ex|]. done.
    + intros k Hk. destruct (iv_held s I k Hk) as [_ Hq]. split; [unfold stopping; cbn; by rewrite Ex|]. done.
  - apply (inv_requests s); try done. intros c. cbn. intros (c0 & Hc0 & ->)%fmap_Some. cbn. split; [by apply (iv_scan s I c0)|done].
Qed.

Lemma vstep_inv s s' : vinv s -> vstep s s' -> vinv s'.
Proof.
  intros I Hst. destruct Hst.
  - apply (handle_pause_inv s i v PTop); [done|done|tauto].
  - rewrite upd_mtx. apply (handle_pause_inv s i v PLocked); [done|done|tauto].
  - apply (handle_pause_inv s i v PLocked); [done|done|tauto].
  - apply (handle_pause_inv s i v PBlock); [done|done|tauto].
  - apply (handle_pause_inv s i v PWait); [done|done|tauto].
  - rewrite upd_mtx. apply (handle_pause_inv s i v PWoken); [done|done|tauto].
  - apply (run_loop_inv s i v PLeft); [done|done|tauto].
  - apply (run_loop_inv s i v PEnter); [done|done|tauto].
  - apply (run_loop_inv s i v PEnter); [done|done|tauto].
  - apply (run_loop_inv s i v PGuest); [done|done|tauto].
  - apply (run_loop_inv s i v PExit); [done|done|tauto].
  - apply (run_loop_inv s i v PHandle); [done|done|tauto].
  - apply (run_loop_inv s i v PHandle); [done|done|tauto].
  - by apply (put_inv s i v).
  - apply (run_loop_inv s i v PParked); [done|done|tauto].
  - by apply (gone_inv s i v).
  - by apply (signal_inv s i v).
  - by eapply get_inv.
  - by rewrite (get_none _ _ _ H1).
  - by eapply run_inv.
  - apply (inv_requests s); try done.
    + intros c Hc. destruct (iv_scan s I c Hc) as [Hc0 Hc1]. split; [done|]. intros Hs. destruct (Hc1 Hs) as [_ Hq]. by split.
    + intros k Hk. destruct (iv_held s I k Hk) as [_ Hq]. by split.
  - by apply resume_inv.
  - apply (inv_requests s); try done.
    + intros c Hc. cbn in Hc. congruence.
    + intros k Hk. destruct (iv_held s I k Hk) as [_ Hq]. split; [by unfold stopping; cbn; rewrite orb_true_r|]. by apply (quiet_exit s).
  - apply (inv_requests s); try done; [intros c Hc|intros k Hk]; [by apply (iv_scan s I c)|by apply (iv_held s I k)].
  - by apply gdb_inv.
  - apply (inv_requests s); try done; [|intros k Hk; by apply (iv_held s I k)]. intros c [= <-]. cbn. split; [done|]. intros Hs. split; [done|]. intros _ _ i v _ Hlt. lia.
  - by apply visit_inv.
  - by apply scanned_inv.
Qed.

Lemma reachable_inv s0 s : vinit s0 -> rtc vstep s0 s -> vinv s.
Proof. intros H0%init_inv Hr. induction Hr as [|s1 s2 s3 H12 _ IH]; [done|]. by apply IH, (vstep_inv s1). Qed.

(** C28. A pause of all vcpus is exclusive.  However the threads interleave with the
    caller, with other requests, with threads that start and end and with signals: from
    the return of km_vcpu_pause_all(ALL) until the request is taken back, no vcpu but
    the caller's is in the guest or past the last test before it; the same holds, for
    good, after an exit.  The lock of the pause has one owner at most. *)
Theorem pause_all_exclusive s0 s k :
  vinit s0 -> rtc vstep s0 s -> s.(vs_held) = Some (ALL, k) ->
  (s.(vs_pause) = true \/ s.(vs_exit_group) = true)
  /\ (forall i v, s.(vs_vcpus) !! i = Some v -> Some i <> k -> v.(vt_state) <> IN_GUEST /\ v.(vt_pc) <> PEnter /\ (v.(vt_pc) = PLeft -> s.(vs_exit_group) = true))
  /\ forall i j v w, s.(vs_vcpus) !! i = Some v -> s.(vs_vcpus) !! j = Some w -> holds_mtx v.(vt_pc) = true -> holds_mtx w.(vt_pc) = true -> i = j.
Proof.
  intros H0 Hr Hk. pose proof (reachable_inv s0 s H0 Hr) as I. destruct (iv_held s I k Hk) as [Hstop Hq]. split_and!.
  - by apply orb_prop.
  - intros i v Hi Hne. specialize (Hq i v Hi (lookup_lt_Some _ _ _ Hi) Hne). pose proof (iv_state s I i v Hi) as Hok. unfold bound_for_guest, state_ok in *. split_and!.
    + intros E. rewrite E in Hok. destruct (v.(vt_pc)); try done; repeat (destruct Hok as [Hok|Hok]); done.
    + intros E. by rewrite E in Hq.
    + intros E. rewrite E in Hq. by apply negb_false_iff.
  - intros i j v w Hi Hj Hv Hw. assert (s.(vs_mtx) = Some i) by (apply (iv_mtx s I); eauto). assert (s.(vs_mtx) = Some j) by (apply (iv_mtx s I); eauto). congruence.
Qed.

(** C29. The pool of vcpus is sound, in every interleaving of the vcpus' threads and pausers
    in which no thread of the host fails to be made ([vstep_created]; a failure makes
    km_clone call km_vcpu_put without vm_vcpu_mtx, which races with km_vcpu_get) and until
    an exit is requested: the list of idle vcpus is exactly the parked ones, each once, and
    the count of running vcpus is the number of the others, so that it is 0 exactly when all
    are parked; km_vcpu_get never fails its assertion, and what it gives is a vcpu no thread
    uses, or nothing when all 288 are in use or KVM refuses. km_vcpu_get and the km_vcpu_put
    of an ending thread, both under vm_vcpu_mtx, are one step each. *)
Theorem vcpu_pool_sound s0 s ok :
  vinit s0 -> rtc vstep_created s0 s -> s.(vs_exit_group) = false ->
  (NoDup s.(vs_idle) /\ forall i, i ∈ s.(vs_idle) <-> parked s i)
  /\ s.(vs_run_cnt) = Z.of_nat (length (filter used s.(vs_vcpus)))
  /\ exists r s', km_vcpu_get ok s = Some (r, s')
     /\ match r with
        | Some i => unclaimed s i /\ (parked s i \/ i = length s.(vs_vcpus)) /\ Z.of_nat i < KVM_MAX_VCPUS
            /\ s'.(vs_run_cnt) = s.(vs_run_cnt) + 1 /\ exists v, s'.(vs_vcpus) !! i = Some v /\ v.(vt_state) = STARTING
        | None => s' = s /\ s.(vs_idle) = [] /\ (Z.of_nat (length s.(vs_vcpus)) = KVM_MAX_VCPUS \/ ok = false)
        end.
Proof.
  intros H0 Hr Hex. pose proof (reachable_inv s0 s H0 (rtc_subrel vstep_created vstep _ _ (fun x y H => proj1 H) Hr)) as I. destruct (iv_idle s I Hex) as [Hnd Hin]. split_and!; [done|done|by apply I|].
  assert (Hget : exists r s', km_vcpu_get ok s = Some (r, s') /\ (r = None -> s.(vs_idle) = [] /\ (Z.of_nat (length s.(vs_vcpus)) = KVM_MAX_VCPUS \/ ok = false))).
  { unfold km_vcpu_get. rewrite Hex. destruct (s.(vs_idle)) as [|i rest] eqn:Ei.
    - destruct (Z.eqb_spec (Z.of_nat (length s.(vs_vcpus))) KVM_MAX_VCPUS); cbn [orb]; [eexists _, _; split; [done|]; intros _; split; [done|by left]|].
      destruct ok; cbn [negb]; eexists _, _; (split; [done|]); [done|]. intros _. split; [done|by right].
    - destruct (proj1 (Hin i) ltac:(by left)) as (v & Hv & Hp). rewrite Hv, decide_True by done. eexists _, _. by split. }
  destruct Hget as (r & s' & E & Hnone). exists r, s'. split; [done|]. destruct r as [i|]; [|by rewrite (get_none _ _ _ E); destruct Hnone].
  destruct (get_spec _ _ _ _ E) as (_ & _ & Er & [(v & rest & Hv & Hp & _ & _ & El)|(-> & Hmax & _ & _ & El)]).
  - pose proof (lookup_lt_Some _ _ _ Hv). pose proof (iv_max s I). split_and!; [by eapply parked_unclaimed|left; by exists v|lia|done|]. exists (reused v). by rewrite El, list_lookup_alter_eq, Hv.
  - pose proof (iv_max s I). split_and!; [|by right|lia|done|].
    + intros j v Hj Hk. destruct (iv_clone s I j v _ Hj Hk) as (w & Hw%lookup_lt_Some & _). lia.
    + exists fresh. by rewrite El, lookup_app_r, Nat.sub_diag.
Qed.

(** ** The pause of the guest only *)
Definition one_vcpu : vsys := mk_vsys [mk_vt HYPERCALL PTop false false] [] 1 false false None false None None 0.
Lemma one_vcpu_init : vinit one_vcpu.
Proof.
  split; try done.
  - repeat constructor.
  - split; [constructor|]. intros i. split; [intros []%not_elem_of_nil|]. intros (v & Hv & Hp). destruct i as [|i]; [by injection Hv as <-|done].
Qed.

(** C38. A pause with GUEST_ONLY is not exclusive: a vcpu between the end of
    km_vcpu_handle_pause and the store of IN_GUEST is not counted; the pause returns, and
    the vcpu goes into the guest with the request standing. *)
Theorem pause_guest_only_race :
  exists s, rtc vstep one_vcpu s /\ s.(vs_pause) = true /\ s.(vs_held) = Some (GUEST_ONLY, None)
    /\ exists v, s.(vs_vcpus) !! 0%nat = Some v /\ v.(vt_state) = IN_GUEST /\ v.(vt_stop) = false.
Proof.
  eexists. split.
  - eapply rtc_l; [eapply (V_lock one_vcpu 0); by repeat split|]. eapply rtc_l; [eapply (V_pass _ 0); by repeat split|]. eapply rtc_l; [eapply (V_left _ 0); by repeat split|].
    eapply rtc_l; [by apply V_request|]. eapply rtc_l; [by apply (V_scan _ GUEST_ONLY None)|]. eapply rtc_l; [by eapply V_visit|]. eapply rtc_l; [by eapply V_scanned|].
    eapply rtc_l; [eapply (V_enter _ 0); by repeat split|]. apply rtc_refl.
  - split_and!; [done|done|]. eexists. by split_and!.
Qed.

(** ** Instances *)
Definition held_vcpu : vsys := mk_vsys [mk_vt PAUSED PWait false false] [] 1 false true None false None (Some (ALL, None)) 0.
Lemma held_reachable : rtc vstep one_vcpu held_vcpu.
Proof.
  eapply rtc_l; [by apply V_request|]. eapply rtc_l; [eapply (V_lock _ 0); by repeat split|]. eapply rtc_l; [eapply (V_block _ 0); by repeat split|].
  eapply rtc_l; [eapply (V_wait _ 0); by repeat split|]. eapply rtc_l; [by apply (V_scan _ ALL None)|]. eapply rtc_l; [by eapply V_visit|]. eapply rtc_l; [by eapply V_scanned|].
  apply rtc_refl.
Qed.
Lemma pause_all_exclusive_witness : rtc vstep one_vcpu held_vcpu /\ forall v, held_vcpu.(vs_vcpus) !! 0%nat = Some v -> v.(vt_state) <> IN_GUEST.
Proof.
  split; [exact held_reachable|]. intros v Hv. destruct (pause_all_exclusive one_vcpu held_vcpu None one_vcpu_init held_reachable eq_refl) as (_ & H & _).
  apply (H 0%nat v Hv). discriminate.
Defined.
(** The same run makes no thread. *)
Lemma step_created s s' : (forall i v k, s.(vs_vcpus) !! i = Some v -> v.(vt_pc) <> PClone k) -> vstep s s' -> vstep_created s s'.
Proof. intros Hn Hs. split; [done|]. intros (j & v & i & w & [Hj Hp] & _). by eapply Hn. Qed.
Ltac no_clone := apply step_created; [intros [|?] ?v ?k; cbn; intros [= <-]; done|].
Lemma held_created : rtc vstep_created one_vcpu held_vcpu.
Proof.
  eapply rtc_l; [no_clone; by apply V_request|]. eapply rtc_l; [no_clone; eapply (V_lock _ 0); by repeat split|]. eapply rtc_l; [no_clone; eapply (V_block _ 0); by repeat split|].
  eapply rtc_l; [no_clone; eapply (V_wait _ 0); by repeat split|]. eapply rtc_l; [no_clone; by apply (V_scan _ ALL None)|]. eapply rtc_l; [no_clone; by eapply V_visit|].
  eapply rtc_l; [no_clone; by eapply V_scanned|]. apply rtc_refl.
Qed.
Lemma vcpu_pool_sound_witness :
  exists s', km_vcpu_get true held_vcpu = Some (Some 1%nat, s') /\ s'.(vs_run_cnt) = 2 /\ unclaimed held_vcpu 1.
Proof.
  destruct (vcpu_pool_sound one_vcpu held_vcpu true one_vcpu_init held_created eq_refl) as (_ & _ & r & s' & E & Hr).
  assert (r = Some 1%nat) as -> by (vm_compute in E; congruence). exists s'. split; [exact E|]. destruct Hr as (Hu & _ & _ & Hc & _). split; [exact Hc|exact Hu].
Defined.
