(* ===== verification/Notes.v ===== *)
(** * ELF notes (km_coredump.c, km_coredump.h, km_snapshot.c)

    Structures as bytes, the framing of notes by km_add_note_header, and the walk over
    them by km_snapshot_notes_apply.  A pointer into the buffer is the list of the bytes
    from there on; a read past the end ends the process. *)
From S2P Require Import Prelude.

(** ** Structures in memory: fields of a width in bytes, lowest byte first *)
Fixpoint le (n : nat) (z : Z) : list Z :=
  match n with O => [] | S n' => z mod 256 :: le n' (z / 256) end.
Fixpoint le_val (l : list Z) : Z :=
  match l with [] => 0 | b :: t => b + 256 * le_val t end.
(** Fields of two, four and eight bytes. *)
Definition f16 (z : Z) : nat * Z := (2%nat, z).
Definition f32 (z : Z) : nat * Z := (4%nat, z).
Definition f64 (z : Z) : nat * Z := (8%nat, z).
Definition put (fs : list (nat * Z)) : list Z := flat_map (fun f => le f.1 f.2) fs.
Fixpoint fields (ws : list nat) (l : list Z) : option (list Z) :=
  match ws with
  | [] => Some []
  | w :: ws' =>
      if (length l <? w)%nat then None
      else match fields ws' (drop w l) with Some vs => Some (le_val (take w l) :: vs) | None => None end
  end.
Definition width (ws : list nat) : nat := foldr Nat.add O ws.
Definition fits (f : nat * Z) : Prop := 0 <= f.2 < 256 ^ Z.of_nat f.1.

Lemma length_le n z : length (le n z) = n.
Proof. revert z. induction n as [|n IH]; intros z; cbn; [done|]. by rewrite IH. Qed.

Lemma le_val_le n z : 0 <= z < 256 ^ Z.of_nat n -> le_val (le n z) = z.
Proof.
  revert z. induction n as [|n IH]; intros z Hz; [cbn in *; lia|]. cbn [le le_val]. rewrite IH.
  - pose proof (Z.div_mod z 256). lia.
  - rewrite Nat2Z.inj_succ, Z.pow_succ_r in Hz by lia. split; [apply Z.div_pos; lia|]. apply Z.div_lt_upper_bound; lia.
Qed.

Lemma length_put fs : length (put fs) = width (map fst fs).
Proof. induction fs as [|[w z] fs IH]; [done|]. unfold put in *. cbn [flat_map map width foldr fst snd]. rewrite length_app, length_le, IH. done. Qed.

(** What was put is got back, whatever follows. *)
Lemma fields_put fs rest : Forall fits fs -> fields (map fst fs) (put fs ++ rest) = Some (map snd fs).
Proof.
  intros Hf. revert rest. induction Hf as [|[w z] fs Hz Hf IH]; intros rest; [done|]. unfold put in *. cbn [flat_map map fields fst snd].
  rewrite <- app_assoc, length_app, length_le. destruct (Nat.ltb_spec (w + length (flat_map (fun f => le f.1 f.2) fs ++ rest)) w); [lia|].
  rewrite drop_app_length' by (by rewrite length_le). rewrite take_app_length' by (by rewrite length_le). rewrite IH.
  by rewrite le_val_le.
Qed.

(** Every field is in the range of its width. *)
Ltac fits_fields := repeat (apply Forall_cons_2; [unfold fits, f16, f32, f64; cbn [fst snd];
   change (256 ^ Z.of_nat 2) with (2 ^ 16); change (256 ^ Z.of_nat 4) with (2 ^ 32); change (256 ^ Z.of_nat 8) with (2 ^ 64); lia|]); apply Forall_nil_2.

(** A NUL terminated string: the bytes before the first 0. *)
Fixpoint cstr (l : list Z) : list Z :=
  match l with [] => [] | b :: t => if b =? 0 then [] else b :: cstr t end.
Definition no_nul (s : list Z) : Prop := Forall (fun b => 0 < b < 256) s.
Lemma cstr_put s rest : no_nul s -> cstr (s ++ 0 :: rest) = s.
Proof. induction 1 as [|b s Hb _ IH]; [done|]. cbn. destruct (Z.eqb_spec b 0); [lia|]. by rewrite IH. Qed.

(** ** Notes *)
Definition SIZEOF_NHDR : nat := 12.
Definition km_note_header_size (owner : list Z) : nat := SIZEOF_NHDR + length owner.
Definition km_add_note_header (owner : list Z) (type descsz : Z) : list Z :=
  put [f32 (Z.of_nat (length owner)); f32 descsz; f32 type] ++ owner.
Definition km_nt_chunk_roundup (n : nat) : nat := (n + (4 - n mod 4) mod 4)%nat.
Definition km_nt_file_padded_size (str : list Z) : nat := km_nt_chunk_roundup (length str + 1).
(** The buffer was cleared: what a writer steps over is 0. *)
Definition padded (bytes : list Z) : list Z := bytes ++ replicate ((4 - length bytes mod 4) mod 4) 0.

Definition CORE : list Z := [67; 79; 82; 69].
Definition KM_NT_NAME : list Z := [75; 77; 83; 80].

Record note := mk_note { n_owner : list Z; n_type : Z; n_desc : list Z }.
Definition note_bytes (n : note) : list Z :=
  km_add_note_header n.(n_owner) n.(n_type) (Z.of_nat (length n.(n_desc))) ++ n.(n_desc).

Section Apply.
  Context {S : Type} (func : list Z -> Z -> M S Z).

(** [fuel]: more than the number of headers that fit. *)
Fixpoint notes_apply_loop (fuel : nat) (cur : list Z) (type : Z) : M S Z :=
  match fuel with
  | O => fun _ => NoFuel
  | Datatypes.S fuel' =>
      match cur with
      | [] => ret 0
      | _ =>
          match fields [4; 4; 4]%nat cur with
          | Some [namesz; descsz; ntype] =>
              let* rc := (if ntype =? type then func (drop (SIZEOF_NHDR + Z.to_nat namesz) cur) descsz else ret 0) in
              if negb (rc =? 0) then ret rc
              else notes_apply_loop fuel' (drop (km_nt_chunk_roundup (SIZEOF_NHDR + Z.to_nat namesz + Z.to_nat descsz)) cur) type
          | _ => abort
          end
      end
  end.
Definition km_snapshot_notes_apply (notebuf : list Z) (type : Z) : M S Z :=
  notes_apply_loop (Datatypes.S (length notebuf)) notebuf type.

(** What a walk should do: the function, on each note of the type in order. *)
Fixpoint on_notes (ns : list (note * list Z)) (type : Z) : M S Z :=
  match ns with
  | [] => ret 0
  | (n, rest) :: ns' =>
      let* rc := (if n.(n_type) =? type then func (n.(n_desc) ++ rest) (Z.of_nat (length n.(n_desc))) else ret 0) in
      if negb (rc =? 0) then ret rc else on_notes ns' type
  end.
End Apply.

(** ** The walk finds the notes *)
Definition note_ok (n : note) : Prop :=
  Z.of_nat (length n.(n_owner)) < 2 ^ 32 /\ Z.of_nat (length n.(n_desc)) < 2 ^ 32 /\ 0 <= n.(n_type) < 2 ^ 32.
Definition pad (n : note) : nat := ((4 - length (note_bytes n) mod 4) mod 4)%nat.
Fixpoint stream (ns : list note) (tail : list Z) : list Z :=
  match ns with [] => tail | n :: ns' => padded (note_bytes n) ++ stream ns' tail end.
Fixpoint following (ns : list note) (tail : list Z) : list (note * list Z) :=
  match ns with [] => [] | n :: ns' => (n, replicate (pad n) 0 ++ stream ns' tail) :: following ns' tail end.

Lemma length_note_bytes n : length (note_bytes n) = (SIZEOF_NHDR + length n.(n_owner) + length n.(n_desc))%nat.
Proof. unfold note_bytes, km_add_note_header. rewrite !length_app, length_put. cbn. lia. Qed.

Lemma note_header n rest :
  note_ok n -> fields [4; 4; 4]%nat (note_bytes n ++ rest) = Some [Z.of_nat (length n.(n_owner)); Z.of_nat (length n.(n_desc)); n.(n_type)].
Proof.
  intros (H1 & H2 & H3). unfold note_bytes, km_add_note_header. rewrite <- !app_assoc.
  apply (fields_put [f32 _; f32 _; f32 _]). repeat constructor; unfold fits; cbn [f32 fst snd]; change (256 ^ Z.of_nat 4) with (2 ^ 32); lia.
Qed.

Lemma note_desc n rest : drop (SIZEOF_NHDR + length n.(n_owner)) (note_bytes n ++ rest) = n.(n_desc) ++ rest.
Proof.
  unfold note_bytes. rewrite <- app_assoc. apply drop_app_length'. unfold km_add_note_header. rewrite length_app, length_put. done.
Qed.

Lemma chunk_roundup_pad n : km_nt_chunk_roundup (length (note_bytes n)) = (length (note_bytes n) + pad n)%nat.
Proof. done. Qed.

Section Walk.
  Context {S : Type} (func : list Z -> Z -> M S Z).

Lemma notes_apply_step fuel n rest type :
  note_ok n ->
  notes_apply_loop func (Datatypes.S fuel) (note_bytes n ++ rest) type
  = (let* rc := (if n.(n_type) =? type then func (n.(n_desc) ++ rest) (Z.of_nat (length n.(n_desc))) else ret 0) in
     if negb (rc =? 0) then ret rc else notes_apply_loop func fuel (drop (pad n) rest) type).
Proof.
  intros Hn. cbn [notes_apply_loop]. rewrite (note_header n rest Hn), !Nat2Z.id, note_desc, <- length_note_bytes, chunk_roundup_pad.
  rewrite <- drop_drop, drop_app_length.
  destruct (note_bytes n ++ rest) as [|b l] eqn:E; [|done].
  apply (f_equal length) in E. rewrite length_app, length_note_bytes in E. unfold SIZEOF_NHDR in E. cbn in E. lia.
Qed.

Lemma bind_if_eq {A B} (c : M S A) (k k' : A -> M S B) s : (forall a s', k a s' = k' a s') -> (let* a := c in k a) s = (let* a := c in k' a) s.
Proof. intros H. unfold bind. by destruct (c s) as [[a s']| |]. Qed.

(** The walk over framed notes, of which the last is not padded. *)
Lemma notes_walk ns last type s :
  Forall note_ok ns -> note_ok last ->
  km_snapshot_notes_apply func (stream ns (note_bytes last)) type s
  = on_notes func (following ns (note_bytes last) ++ [(last, [])]) type s.
Proof.
  intros Hns Hl. unfold km_snapshot_notes_apply.
  assert (Hf : forall fuel, (length (stream ns (note_bytes last)) < fuel)%nat ->
    notes_apply_loop func fuel (stream ns (note_bytes last)) type s = on_notes func (following ns (note_bytes last) ++ [(last, [])]) type s); [|by apply Hf; lia].
  revert s. induction Hns as [|n ns Hn Hns IH]; intros s fuel Hfuel.
  - cbn [stream following app] in *. destruct fuel as [|[|fuel]]; [lia|rewrite length_note_bytes in Hfuel; unfold SIZEOF_NHDR in Hfuel; lia|].
    replace (note_bytes last) with (note_bytes last ++ []) at 1 by apply app_nil_r. rewrite notes_apply_step by done. cbn [on_notes].
    apply bind_if_eq. intros rc s'. destruct (negb (rc =? 0)); [done|]. by rewrite drop_nil.
  - cbn [stream following app on_notes] in *. destruct fuel as [|fuel]; [lia|]. unfold padded in *. rewrite <- !app_assoc in *. fold (pad n) in *.
    rewrite notes_apply_step by done. apply bind_if_eq. intros rc s'. destruct (negb (rc =? 0)); [done|].
    rewrite drop_app_length' by (by rewrite length_replicate). apply IH. rewrite !length_app, length_note_bytes in Hfuel. unfold SIZEOF_NHDR in Hfuel. lia.
Qed.
End Walk.
