(* ===== verification/IoContext.v ===== *)
(** * Asynchronous I/O contexts (km_iocontext.c)

    The guest knows a context by an id of the monitor; a table maps it to the
    kernel's.  The host: the id io_setup gives, or the negative errno; the result of
    io_destroy; whether realloc succeeds. *)
From S2P Require Import Prelude Notes.

Record km_iocontext_t := mk_ioc { kioc_maxevents : Z; kioc_kcontext : Z; kioc_pcontext : Z }.
(** [ioc_locked]: km_iocmutex is held; [kernel]: contexts of the process in the kernel. *)
Record iocs := mk_iocs { km_iocp : list km_iocontext_t; km_piocontext : Z; ioc_locked : bool; kernel : list (Z * Z) }.
Definition set_iocp l s := mk_iocs l s.(km_piocontext) s.(ioc_locked) s.(kernel).
Definition set_pioc p s := mk_iocs s.(km_iocp) p s.(ioc_locked) s.(kernel).
Definition set_locked b s := mk_iocs s.(km_iocp) s.(km_piocontext) b s.(kernel).
Definition set_kernel k s := mk_iocs s.(km_iocp) s.(km_piocontext) s.(ioc_locked) k.

Definition FIRST_PIOCONTEXT : Z := 0x6b6d000000000000.
Definition NT_KM_IOCONTEXTS : Z := 0x4b4d4358.

(** The kernel's contexts are those of [kernel] in the state a call sees. *)
Class AioHost := {
  h_io_setup : list (Z * Z) -> Z -> Z;
  h_io_destroy : list (Z * Z) -> Z -> Z;
  h_realloc : nat -> bool
}.

Section Ops.
  Context `{AioHost}.

(** A thread that waits for a mutex no one will release never goes on. *)
Definition km_mutex_lock : M iocs unit :=
  let* s := get in if s.(ioc_locked) then (fun _ => NoFuel) else modify (set_locked true).
Definition km_mutex_unlock : M iocs unit := modify (set_locked false).

Definition sys_io_setup (nr_events : Z) : M iocs Z :=
  let* s := get in
  let r := h_io_setup s.(kernel) nr_events in
  if r <? 0 then ret r else modify (set_kernel ((r, nr_events) :: s.(kernel))) ;;; ret r.
Definition sys_io_destroy (ctx : Z) : M iocs Z :=
  let* s := get in
  let r := h_io_destroy s.(kernel) ctx in
  if r <? 0 then ret r else modify (set_kernel (filter (fun c => c.1 <> ctx) s.(kernel))) ;;; ret r.

Definition km_iocontext_recover (nr_events pcontext : Z) : M iocs Z :=
  let* iocontext := sys_io_setup nr_events in
  if iocontext <? 0 then ret (- iocontext)
  else
    km_mutex_lock ;;;
    let* s := get in
    if negb (h_realloc (length s.(km_iocp) + 1)) then
      km_mutex_unlock ;;; sys_io_destroy iocontext ;;; ret ENOMEM
    else
      modify (set_iocp (s.(km_iocp) ++ [mk_ioc nr_events iocontext pcontext])) ;;;
      km_mutex_unlock ;;; ret 0.

Definition km_iocontext_add (nr_events : Z) : M iocs (Z * Z) :=
  modify (fun s => set_pioc (u64 (s.(km_piocontext) + 1)) s) ;;;
  let* s := get in
  let* rc := km_iocontext_recover nr_events s.(km_piocontext) in
  ret (rc, s.(km_piocontext)).

Fixpoint find_ioc (pcontext : Z) (l : list km_iocontext_t) (i : nat) : option (nat * km_iocontext_t) :=
  match l with
  | [] => None
  | c :: t => if c.(kioc_pcontext) =? pcontext then Some (i, c) else find_ioc pcontext t (S i)
  end.

(** When io_destroy fails the mutex is not released. *)
Definition km_iocontext_remove (pcontext : Z) : M iocs Z :=
  km_mutex_lock ;;;
  let* s := get in
  match find_ioc pcontext s.(km_iocp) 0 with
  | Some (i, c) =>
      let* rv := sys_io_destroy c.(kioc_kcontext) in
      if rv <? 0 then ret (- rv)
      else modify (set_iocp (take i s.(km_iocp) ++ drop (S i) s.(km_iocp))) ;;; km_mutex_unlock ;;; ret 0
  | None => km_mutex_unlock ;;; ret EINVAL
  end.

Definition km_iocontext_xlate_p2k (pcontext : Z) : M iocs (Z + Z) :=
  km_mutex_lock ;;;
  let* s := get in
  km_mutex_unlock ;;;
  match find_ioc pcontext s.(km_iocp) 0 with
  | Some (_, c) => ret (inr c.(kioc_kcontext))
  | None => ret (inl EINVAL)
  end.

(** ** Snapshot *)
Definition SIZEOF_IOCONTEXTS : nat := 16.
Definition SIZEOF_IOCONTEXT : nat := 16.
Definition km_fs_iocontext_notes_length (l : list km_iocontext_t) : nat :=
  (km_note_header_size KM_NT_NAME + SIZEOF_IOCONTEXTS + length l * SIZEOF_IOCONTEXT)%nat.

Definition iocontexts_desc (l : list km_iocontext_t) (piocontext : Z) : list Z :=
  put [f32 (Z.of_nat (SIZEOF_IOCONTEXTS + length l * SIZEOF_IOCONTEXT)); f32 (Z.of_nat (length l)); f64 piocontext]
  ++ flat_map (fun c => put [f32 c.(kioc_maxevents); f32 0; f64 c.(kioc_pcontext)]) l.
Definition km_fs_iocontext_notes_write (s : iocs) : list Z :=
  note_bytes (mk_note KM_NT_NAME NT_KM_IOCONTEXTS (iocontexts_desc s.(km_iocp) s.(km_piocontext))).

Fixpoint recover_each (n : nat) (ptr : list Z) : M iocs Z :=
  match n with
  | O => ret 0
  | S n' =>
      match fields [4; 4; 8]%nat ptr with
      | Some [nr_events; _; iocontext] =>
          let* rc := km_iocontext_recover nr_events iocontext in
          if negb (rc =? 0) then ret (- rc) else recover_each n' (drop SIZEOF_IOCONTEXT ptr)
      | _ => abort
      end
  end.
Definition km_fs_recover_iocontexts (ptr : list Z) (length : Z) : M iocs Z :=
  match fields [4; 4; 8]%nat ptr with
  | Some [_; nr_contexts; piocontext] =>
      modify (set_pioc piocontext) ;;; recover_each (Z.to_nat nr_contexts) (drop SIZEOF_IOCONTEXTS ptr)
  | _ => abort
  end.
End Ops.

Definition km_iocontext_init (s : iocs) : iocs := set_iocp [] s.
Definition km_iocontext_deinit (s : iocs) : iocs := set_iocp [] s.
