(* ===== verification/IoProps.v ===== *)
(** * Asynchronous I/O contexts (proofs)

    Contexts survive a snapshot under the names the guest knows; a context the kernel
    refuses to destroy leaves the lock of the table held. *)
From S2P Require Import Prelude Notes IoContext.

Definition names (s : iocs) : list (Z * Z) := map (fun c => (c.(kioc_maxevents), c.(kioc_pcontext))) s.(km_iocp).
Definition ioc_ok (c : km_iocontext_t) : Prop := 0 <= c.(kioc_maxevents) < 2 ^ 32 /\ 0 <= c.(kioc_pcontext) < 2 ^ 64.
(** The kernel makes contexts, and there is memory. *)
Record aio_grants `{AioHost} : Prop := { ag_setup : forall k n, 0 <= h_io_setup k n; ag_realloc : forall n, h_realloc n = true }.

Section Props.
  Context `{AioHost}.

Lemma recover_one (Hg : aio_grants) n p s :
  s.(ioc_locked) = false ->
  wp False (km_iocontext_recover n p)
    (fun rc s' => rc = 0 /\ s'.(ioc_locked) = false /\ s'.(km_piocontext) = s.(km_piocontext)
       /\ exists k, s'.(km_iocp) = s.(km_iocp) ++ [mk_ioc n k p] /\ s'.(kernel) = (k, n) :: s.(kernel)) s.
Proof.
  intros Hl. unfold km_iocontext_recover, sys_io_setup. apply wp_bind. apply wp_bind, wp_get. pose proof (ag_setup Hg s.(kernel) n) as Hk.
  destruct (Z.ltb_spec (h_io_setup s.(kernel) n) 0); [lia|]. apply wp_bind, wp_modify. apply wp_ret. destruct (Z.ltb_spec (h_io_setup s.(kernel) n) 0); [lia|].
  unfold km_mutex_lock. apply wp_bind. apply wp_bind, wp_get. cbn [set_kernel ioc_locked]. rewrite Hl. apply wp_modify. apply wp_bind, wp_get. rewrite (ag_realloc Hg). cbn [negb].
  apply wp_bind, wp_modify. unfold km_mutex_unlock. apply wp_bind, wp_modify. apply wp_ret. split_and!; [done|done|done|]. by exists (h_io_setup s.(kernel) n).
Qed.

Lemma recover_each_ok (Hg : aio_grants) l rest s :
  Forall ioc_ok l -> s.(ioc_locked) = false ->
  wp False (recover_each (length l) (flat_map (fun c => put [f32 c.(kioc_maxevents); f32 0; f64 c.(kioc_pcontext)]) l ++ rest))
    (fun rc s' => rc = 0 /\ s'.(ioc_locked) = false /\ s'.(km_piocontext) = s.(km_piocontext)
       /\ names s' = names s ++ map (fun c => (c.(kioc_maxevents), c.(kioc_pcontext))) l
       /\ (Forall (fun c => (c.(kioc_kcontext), c.(kioc_maxevents)) ∈ s.(kernel)) s.(km_iocp) -> Forall (fun c => (c.(kioc_kcontext), c.(kioc_maxevents)) ∈ s'.(kernel)) s'.(km_iocp))) s.
Proof.
  intros Hok. revert s. induction Hok as [|c l [H1 H2] Hok IH]; intros s Hl; cbn [length recover_each flat_map app].
  { apply wp_ret. split_and!; [done|done|done|cbn; by rewrite app_nil_r|done]. }
  rewrite <- app_assoc. set (r := flat_map _ l ++ rest). pose proof (fields_put [f32 c.(kioc_maxevents); f32 0; f64 c.(kioc_pcontext)] r) as Hf. cbn [map fst snd f32 f64] in Hf.
  cbn [f32 f64]. rewrite Hf by fits_fields.
  apply wp_bind. eapply wp_mono; [by apply recover_one|]. intros rc s1 (-> & L1 & P1 & k & E1 & K1). change (negb (0 =? 0)) with false. cbn iota.
  rewrite drop_app_length' by (by rewrite length_put). eapply wp_mono; [by apply IH|]. intros rc s' (-> & L' & P' & N' & K'). split_and!; [done|done|congruence| |].
  - rewrite N'. unfold names. rewrite E1, map_app, <- app_assoc. done.
  - intros Hk. apply K'. rewrite E1, K1. apply Forall_app. split; [|by apply Forall_cons_2; [apply elem_of_cons; by left|constructor]].
    eapply Forall_impl; [exact Hk|]. intros x Hx. apply elem_of_cons. by right.
Qed.

Lemma find_ioc_some p l i : p ∈ map kioc_pcontext l -> exists j c, find_ioc p l i = Some (j, c) /\ c ∈ l /\ c.(kioc_pcontext) = p.
Proof.
  revert i. induction l as [|c l IH]; intros i Hp; [by apply not_elem_of_nil in Hp|]. cbn [find_ioc map] in *. destruct (Z.eqb_spec (kioc_pcontext c) p) as [E|E].
  - exists i, c. split_and!; [done|apply elem_of_cons; by left|done].
  - apply elem_of_cons in Hp as [->|Hp]; [done|]. destruct (IH (S i) Hp) as (j & c' & Hj & Hin & Hc). exists j, c'. split_and!; [done|apply elem_of_cons; by right|done].
Qed.
End Props.

(** C27. The contexts of a guest survive a snapshot: recovery makes as many in the kernel, with
    the same numbers of events, and every name the guest has translates to one of them;
    names given out later are fresh. *)
Theorem iocontexts_roundtrip `{AioHost} s t rest n :
  aio_grants -> Forall ioc_ok s.(km_iocp) -> Z.of_nat (16 + length s.(km_iocp) * 16) < 2 ^ 32 -> 0 <= s.(km_piocontext) < 2 ^ 64 -> t.(km_iocp) = [] -> t.(ioc_locked) = false ->
  wp False (km_fs_recover_iocontexts (iocontexts_desc s.(km_iocp) s.(km_piocontext) ++ rest) n)
    (fun rc t' => rc = 0 /\ names t' = names s /\ t'.(km_piocontext) = s.(km_piocontext)
       /\ forall p, p ∈ map kioc_pcontext s.(km_iocp) ->
            wp False (km_iocontext_xlate_p2k p) (fun r _ => exists c k, r = inr k /\ c ∈ s.(km_iocp) /\ c.(kioc_pcontext) = p /\ (k, c.(kioc_maxevents)) ∈ t'.(kernel)) t') t.
Proof.
  intros Hg Hok Hsz Hp Ht Hl. unfold km_fs_recover_iocontexts, iocontexts_desc. rewrite <- app_assoc.
  pose proof (fields_put [f32 (Z.of_nat (SIZEOF_IOCONTEXTS + length s.(km_iocp) * SIZEOF_IOCONTEXT)); f32 (Z.of_nat (length s.(km_iocp))); f64 s.(km_piocontext)]
    (flat_map (fun c => put [f32 c.(kioc_maxevents); f32 0; f64 c.(kioc_pcontext)]) s.(km_iocp) ++ rest)) as Hf. cbn [map fst snd f32 f64] in Hf. cbn [f32 f64].
  rewrite Hf by (unfold SIZEOF_IOCONTEXTS, SIZEOF_IOCONTEXT; fits_fields). apply wp_bind, wp_modify. rewrite Nat2Z.id.
  rewrite drop_app_length' by (by rewrite length_put). eapply wp_mono; [by apply recover_each_ok|]. intros rc t' (-> & L' & P' & N' & K').
  assert (HN : names t' = names s) by (rewrite N'; unfold names at 1; cbn [set_pioc km_iocp]; by rewrite Ht).
  cbn [set_pioc km_iocp kernel] in K'. rewrite Ht in K'. specialize (K' (Forall_nil_2 _)). split_and!; [done|done|done|].
  intros p Hin. unfold km_iocontext_xlate_p2k, km_mutex_lock. apply wp_bind. apply wp_bind, wp_get. rewrite L'. apply wp_modify. apply wp_bind, wp_get. unfold km_mutex_unlock. apply wp_bind, wp_modify.
  cbn [set_locked km_iocp].
  assert (Hin' : p ∈ map kioc_pcontext t'.(km_iocp)).
  { replace (map kioc_pcontext t'.(km_iocp)) with (map snd (names t')) by (unfold names; by rewrite map_map). rewrite HN. unfold names. by rewrite map_map. }
  destruct (find_ioc_some p t'.(km_iocp) 0 Hin') as (j & c' & -> & Hc & Hpc). apply wp_ret.
  assert (Hn : (c'.(kioc_maxevents), p) ∈ names s).
  { rewrite <- HN, <- Hpc. unfold names. apply list_elem_of_In, (in_map (fun c => (kioc_maxevents c, kioc_pcontext c))). by apply list_elem_of_In. }
  unfold names in Hn. apply list_elem_of_In, in_map_iff in Hn as (c & [= E1 E2] & Hcs). apply list_elem_of_In in Hcs.
  exists c, c'.(kioc_kcontext). split_and!; [done|done|done|]. rewrite E1. exact (proj1 (Forall_forall _ _) K' c' Hc).
Qed.

(** C39. When the kernel refuses to destroy a context, the guest gets the error and the table
    stays locked: every later call on a context never returns. *)
Theorem iocontext_remove_keeps_lock `{AioHost} s p j c q n :
  s.(ioc_locked) = false -> find_ioc p s.(km_iocp) 0 = Some (j, c) -> h_io_destroy s.(kernel) c.(kioc_kcontext) < 0 -> 0 <= h_io_setup s.(kernel) n ->
  exists s', km_iocontext_remove p s = Ret (- h_io_destroy s.(kernel) c.(kioc_kcontext), s')
    /\ km_iocontext_remove q s' = NoFuel /\ km_iocontext_xlate_p2k q s' = NoFuel /\ km_iocontext_add n s' = NoFuel.
Proof.
  intros Hl Hf Hd Hs. exists (set_locked true s). unfold km_iocontext_remove at 1, km_mutex_lock, bind, get, modify. rewrite Hl. cbn [set_locked km_iocp]. rewrite Hf.
  unfold sys_io_destroy, bind, get. cbn [set_locked kernel]. destruct (Z.ltb_spec (h_io_destroy s.(kernel) c.(kioc_kcontext)) 0) as [Hneg|]; [|lia]. unfold ret. cbn iota.
  destruct (Z.ltb_spec (h_io_destroy s.(kernel) c.(kioc_kcontext)) 0); [|lia]. split_and!; [done|done|done|].
  unfold km_iocontext_add, km_iocontext_recover, sys_io_setup, bind, modify, get, ret. cbn [set_pioc set_locked kernel km_piocontext].
  destruct (Z.ltb_spec (h_io_setup s.(kernel) n) 0); [lia|]. destruct (Z.ltb_spec (h_io_setup s.(kernel) n) 0); [lia|]. done.
Qed.
