(* ===== verification/CoreFs.v ===== *)
(** * Notes for the guest's descriptors in a snapshot (km_filesys.c)

    One note per open descriptor, with what recovery needs: name and position of a
    file, contents of a pipe or socket pair, address of a socket, events of an epoll
    set.  Contents are read out of the pipe and written back. *)
From S2P Require Import Prelude Notes FdTable Signal Stdio ExecFd.
From Stdlib Require Import Ascii.

Definition NT_KM_DUP_DATA : Z := 0x4b4d4455.
Definition NT_KM_FILE : Z := 0x4b4d4644.
Definition NT_KM_EVENTFD : Z := 0x4b4d4556.
Definition NT_KM_SOCKET : Z := 0x4b4d534b.
Definition NT_KM_EPOLLFD : Z := 0x4b4d4550.
Definition S_IFIFO : Z := 0x1000.
Definition ESPIPE : Z := 29.
Definition EOPNOTSUPP : Z := 95.
Definition SIZEOF_NT_FILE : nat := 40.
Definition SIZEOF_NT_SOCKET : nat := 44.
Definition SIZEOF_NT_EPOLLFD : nat := 16.
Definition SIZEOF_NT_EVENT : nat := 16.

Definition bytes_of (t : text) : list Z := map (fun a => Z.of_N (N_of_ascii a)) t.
Definition name_bytes (s : string) : list Z := bytes_of (chars s).
(** A string and what is stepped over behind it. *)
Definition str_field (s : list Z) : list Z := s ++ replicate (km_nt_file_padded_size s - length s) 0.

(** ** The host

    Answers of the host's calls on a descriptor: fstat (the mode), F_GETPIPE_SZ, the
    position, what epoll_wait counts, the text of /proc/self/fdinfo, the descriptors of a
    new pipe or socket pair and whether dup2 succeeds; errors are [inl], [None] or a
    negative errno.  The count of the nth read or write of some bytes. *)
Class CoreHost := {
  ch_fstat : Z -> Z + Z;
  ch_fionread : Z -> bool;
  ch_pipesize : Z -> Z;
  ch_seekpos : Z -> Z;
  ch_epoll_wait : Z -> Z;
  ch_fdinfo : Z -> Z + text;
  ch_pair : Z -> option (Z * Z);
  ch_dup2 : Z -> Z -> bool;
  ch_read : nat -> Z -> Z;
  ch_write : nat -> Z -> Z;
  ch_lseek : nat -> Z -> Z;
  ch_mprotect : Z -> Z -> Z -> Z
}.

(** ** Pipes and socket pairs

    Each has its queues of bytes on the host; a descriptor reads from one queue, writes to
    one, or both, and descriptors that are dups of each other name the same queues. *)
Record pipes := mk_pipes { p_ends : gmap Z (option Z * option Z); p_data : gmap Z (list Z); p_next : Z }.
Definition reads (p : pipes) (fd : Z) : option Z := p.(p_ends) !! fd ≫= fst.
Definition writes (p : pipes) (fd : Z) : option Z := p.(p_ends) !! fd ≫= snd.
Definition contents (p : pipes) (q : option Z) : list Z := match q with Some q => default [] (p.(p_data) !! q) | None => [] end.
Definition set_contents (q : option Z) (b : list Z) (p : pipes) : pipes :=
  match q with Some q => mk_pipes p.(p_ends) (<[q := b]> p.(p_data)) p.(p_next) | None => p end.
Definition set_ends (f : gmap Z (option Z * option Z) -> gmap Z (option Z * option Z)) (p : pipes) : pipes :=
  mk_pipes (f p.(p_ends)) p.(p_data) p.(p_next).

(** pipe2 and socketpair give two descriptors with new queues; close and dup2 on ends. *)
Definition host_pair (both : bool) (fdpair : Z * Z) (p : pipes) : pipes :=
  let q := p.(p_next) in
  let q' := if both then Some (q + 1) else None in
  mk_pipes (<[fdpair.2 := (q', Some q)]> (<[fdpair.1 := (Some q, q')]> p.(p_ends))) (<[q + 1 := []]> (<[q := []]> p.(p_data))) (q + 2).
Definition host_close (fd : Z) : pipes -> pipes := set_ends (delete fd).
Definition host_dup2 (fd newfd : Z) : pipes -> pipes := set_ends (fun e => match e !! fd with Some x => <[newfd := x]> e | None => delete newfd e end).

(** The file being written and its position, the number of calls made, the host's pipes. *)
Record dump := mk_dump { d_file : Z -> Z; d_pos : Z; d_calls : nat; d_queue : pipes }.
Definition set_file f p d := mk_dump f p d.(d_calls) d.(d_queue).
Definition called d := mk_dump d.(d_file) d.(d_pos) (S d.(d_calls)) d.(d_queue).
Definition set_queue q d := mk_dump d.(d_file) d.(d_pos) d.(d_calls) q.
(** The bytes a read of [fd] would find. *)
Definition queued (d : dump) (fd : Z) : list Z := contents d.(d_queue) (reads d.(d_queue) fd).

Section CoreFs.
  Context `{CoreHost}.

Definition ioctlfionread (fd : Z) : M dump nat :=
  if ch_fionread fd then let* d := get in ret (length (queued d fd)) else abort.

(** ** Contents of a pipe *)
Definition ATTEMPTS : nat := 50.

(** The bytes read, or the errno.  [left]: attempts before the limit is passed. *)
Fixpoint full_read (left : nat) (fd : Z) (got : list Z) (want : nat) : M dump (Z + list Z) :=
  if (length got =? want)%nat then ret (inr got)
  else
    let* d := get in
    let r := ch_read d.(d_calls) (Z.of_nat (want - length got)) in
    modify called ;;;
    if r <? 0 then ret (inl (- r))
    else
      let n := Z.to_nat r in
      modify (set_queue (set_contents (reads d.(d_queue) fd) (drop n (queued d fd)) d.(d_queue))) ;;;
      match left with
      | O => ret (inl EINVAL)
      | S left' => full_read left' fd (got ++ take n (queued d fd)) want
      end.
Definition do_full_read (fd : Z) (bufl : nat) : M dump (Z + list Z) := full_read ATTEMPTS fd [] bufl.

(** 0 or an errno; what is written is behind what is in the queue [fd] writes to. *)
Fixpoint full_write (left : nat) (fd : Z) (buf : list Z) : M dump Z :=
  if (length buf =? 0)%nat then ret 0
  else
    let* d := get in
    let r := ch_write d.(d_calls) (Z.of_nat (length buf)) in
    modify called ;;;
    if r <? 0 then ret (- r)
    else
      let n := Z.to_nat r in
      let q := writes d.(d_queue) fd in
      modify (set_queue (set_contents q (contents d.(d_queue) q ++ take n buf) d.(d_queue))) ;;;
      match left with
      | O => ret EINVAL
      | S left' => full_write left' fd (drop n buf)
      end.
Definition do_full_write (fd : Z) (buf : list Z) : M dump Z := full_write ATTEMPTS fd buf.

Definition is_pair (h : km_file_how_t) : bool := bool_decide (h = KM_FILE_HOW_SOCKETPAIR0) || bool_decide (h = KM_FILE_HOW_SOCKETPAIR1).
Definition on_pipes (f : pipes -> pipes) : M dump unit := modify (fun d => set_queue (f d.(d_queue)) d).

(** [file] is the entry of [fd]; the contents, or the errno.  They are written back to the
    other end; when there is none, to a new pair whose reading end takes the place of
    [fd]. *)
Definition fs_core_save_pipe_contents (room : nat) (file : km_file) (fd : Z) (queuedbytes : nat) : M dump (Z + list Z) :=
  km_assert (queuedbytes <=? room)%nat ;;;
  km_assert (0 <=? fd) ;;;
  let* r := do_full_read fd queuedbytes in
  match r with
  | inl rc => ret (inl rc)
  | inr buf =>
      if file.(ofd) <? 0 then
        match ch_pair fd with
        | None => abort
        | Some fdpair =>
            on_pipes (host_pair (is_pair file.(how)) fdpair) ;;;
            let* rc := do_full_write fdpair.2 buf in
            if negb (rc =? 0) then abort
            else
              on_pipes (host_close fdpair.2) ;;;
              if negb (ch_dup2 fdpair.1 fd) then abort
              else
                on_pipes (host_dup2 fdpair.1 fd) ;;;
                on_pipes (host_close fdpair.1) ;;;
                ret (inr buf)
        end
      else
        let* rc := do_full_write file.(ofd) buf in
        if negb (rc =? 0) then abort else ret (inr buf)
  end.

(** ** One note per kind of descriptor: errno, or the bytes *)
Definition fs_core_write_nonsocket (room : nat) (file : km_file) (fd : Z) : M dump (Z + list Z) :=
  match ch_fstat fd with
  | inl errno => ret (inl errno)
  | inr mode =>
      let* queuedbytes := (if decide (file.(how) = KM_FILE_HOW_PIPE_0) then ioctlfionread fd else ret O) in
      let pipesize := if decide (file.(how) = KM_FILE_HOW_PIPE_0) then ch_pipesize fd else 0 in
      match file.(fname) with
      | None => abort
      | Some name =>
          let nm := name_bytes name in
          let descsz := (SIZEOF_NT_FILE + km_nt_file_padded_size nm + km_nt_chunk_roundup queuedbytes)%nat in
          let header := km_add_note_header KM_NT_NAME NT_KM_FILE (Z.of_nat descsz) in
          let data := if negb (Z.land mode S_IFIFO =? 0) then file.(ofd) else ch_seekpos fd in
          let data := if (Z.land mode S_IFIFO =? 0) && (data <? 0) then -1 else data in
          if (Z.land mode S_IFIFO =? 0) && (ch_seekpos fd <? 0) && negb (- ch_seekpos fd =? ESPIPE) then ret (inl (- ch_seekpos fd))
          else
            let fnote datalength := put [f32 (Z.of_nat SIZEOF_NT_FILE); f32 fd; f32 (how_number file.(how)); f32 file.(fflags); f32 mode; f32 pipesize; f64 data; f32 datalength; f32 0] in
            if (0 <? queuedbytes)%nat && (2 <? fd) then
              let* r := fs_core_save_pipe_contents (room - (length header + SIZEOF_NT_FILE + km_nt_file_padded_size nm)) file fd queuedbytes in
              match r with
              | inl rc => ret (inl rc)
              | inr contents => ret (inr (header ++ fnote (Z.of_nat queuedbytes) ++ str_field nm ++ padded contents))
              end
            else ret (inr (header ++ fnote 0 ++ str_field nm))
      end
  end.

Definition KM_NT_SKSTATE (s : km_sock_state_t) : Z :=
  match s with KM_SOCK_STATE_OPEN => 0 | KM_SOCK_STATE_BIND => 1 | KM_SOCK_STATE_LISTEN => 2 | _ => 5 end.

Definition fs_core_write_socket (room : nat) (file : km_file) (fd : Z) : M dump (Z + list Z) :=
  match ch_fstat fd with
  | inl errno => ret (inl errno)
  | inr _ =>
      match file.(sockinfo) with
      | None => abort
      | Some si =>
          let* queuedbytes := (if is_pair file.(how) then ioctlfionread fd else ret O) in
          let a := padded (take (Z.to_nat si.(addrlen)) si.(addr)) in
          let descsz := (SIZEOF_NT_SOCKET + km_nt_chunk_roundup (Z.to_nat si.(addrlen)) + km_nt_chunk_roundup queuedbytes)%nat in
          let header := km_add_note_header KM_NT_NAME NT_KM_SOCKET (Z.of_nat descsz) in
          let fnote datalength := put [f32 (Z.of_nat SIZEOF_NT_SOCKET); f32 fd; f32 (how_number file.(how)); f32 (KM_NT_SKSTATE si.(sock_state)); f32 si.(backlog); f32 si.(domain); f32 si.(type_); f32 si.(protocol); f32 file.(ofd); f32 si.(addrlen); f32 datalength] in
          if (0 <? queuedbytes)%nat then
            let* r := fs_core_save_pipe_contents (room - (length header + SIZEOF_NT_SOCKET + length a)) file fd queuedbytes in
            match r with
            | inl rc => ret (inl rc)
            | inr contents => ret (inr (header ++ fnote (Z.of_nat queuedbytes) ++ a ++ padded contents))
            end
          else ret (inr (header ++ fnote 0 ++ a))
      end
  end.

(** strstr: the text from the first occurrence on. *)
Fixpoint strstr (t needle : text) : option text :=
  if decide (take (length needle) t = needle) then Some t
  else match t with [] => None | _ :: r => strstr r needle end.
Definition EVENTFD_COUNT : text := chars "eventfd-count:".

(** The text is read into 256 bytes and a NUL is put behind it. *)
Definition extract_fdinfo_field (fd : Z) (fieldname : text) : M dump (Z + Z) :=
  match ch_fdinfo fd with
  | inl errno => ret (inl errno)
  | inr t =>
      if (256 <=? length t)%nat then abort
      else match strstr t fieldname with
           | None => ret (inl EINVAL)
           | Some p =>
               match scan_number 10 (drop (length fieldname) p) with
               | None => ret (inl EINVAL)
               | Some (v, _) => ret (inr v)
               end
           end
  end.

Definition fs_core_write_eventfd (file : km_file) (fd : Z) : M dump (Z + list Z) :=
  match ch_fstat fd with
  | inl errno => ret (inl errno)
  | inr _ =>
      let* r := extract_fdinfo_field fd EVENTFD_COUNT in
      match r with
      | inl rc => ret (inl rc)
      | inr count =>
          ret (inr (note_bytes (mk_note KM_NT_NAME NT_KM_EVENTFD
                      (put [f32 (Z.of_nat SIZEOF_NT_FILE); f32 fd; f32 0; f32 file.(fflags); f32 0; f32 0; f64 count; f32 0; f32 0]))))
      end
  end.

Definition nt_event (e : km_fs_event) : list Z := put [f32 e.(ev_fd); f32 e.(ev_event).(ev_events); f64 e.(ev_event).(ev_data)].
Definition fs_core_write_epollfd (file : km_file) (fd : Z) : M dump (Z + list Z) :=
  match ch_fstat fd with
  | inl errno => ret (inl errno)
  | inr _ =>
      let fdcount := ch_epoll_wait fd in
      if fdcount <? 0 then ret (inl (- fdcount))
      else if 0 <? fdcount then ret (inl EAGAIN)
      else ret (inr (note_bytes (mk_note KM_NT_NAME NT_KM_EPOLLFD
                       (put [f32 (Z.of_nat SIZEOF_NT_EPOLLFD); f32 fd; f32 file.(fflags); f32 (Z.of_nat (length file.(fevents)))]
                        ++ flat_map nt_event file.(fevents)))))
  end.

Definition core_write_fd (room : nat) (file : km_file) (fd : Z) : M dump (Z + list Z) :=
  if decide (file.(how) = KM_FILE_HOW_EPOLLFD) then fs_core_write_epollfd file fd
  else if decide (file.(how) = KM_FILE_HOW_EVENTFD) then fs_core_write_eventfd file fd
  else if decide (file.(how) = KM_FILE_HOW_TIMERFD) then ret (inl EOPNOTSUPP)
  else match file.(sockinfo) with None => fs_core_write_nonsocket room file fd | Some _ => fs_core_write_socket room file fd end.

(** The room is not reduced from one descriptor to the next. *)
Fixpoint core_write_fds (room : nat) (fs : km_filesys) (fds : list Z) : M dump (Z + list Z) :=
  match fds with
  | [] => ret (inr [])
  | i :: rest =>
      let file := file_at fs i in
      if km_is_file_used file then
        let* r := core_write_fd room file i in
        match r with
        | inl rc => ret (inl rc)
        | inr b => let* t := core_write_fds room fs rest in ret (match t with inl rc => inl rc | inr bs => inr (b ++ bs) end)
        end
      else core_write_fds room fs rest
  end.
Definition km_fs_core_notes_write (room : nat) (fs : km_filesys) : M dump (Z + list Z) := core_write_fds room fs (seqZ 0 fs.(nfdmap)).

(** ** Their length, computed before *)
Definition fd_note_length (file : km_file) (fd : Z) : M dump nat :=
  if decide (file.(how) = KM_FILE_HOW_EVENTFD) then ret (km_note_header_size KM_NT_NAME + SIZEOF_NT_FILE)%nat
  else if decide (file.(how) = KM_FILE_HOW_EPOLLFD) then
    ret (km_note_header_size KM_NT_NAME + SIZEOF_NT_EPOLLFD + length file.(fevents) * SIZEOF_NT_EVENT)%nat
  else match file.(fname) with
       | None => abort
       | Some name =>
           match file.(sockinfo) with
           | None =>
               let* q := (if decide (file.(how) = KM_FILE_HOW_PIPE_0) then ioctlfionread fd else ret O) in
               ret (km_note_header_size KM_NT_NAME + SIZEOF_NT_FILE + km_nt_file_padded_size (name_bytes name) + km_nt_chunk_roundup q)%nat
           | Some _ =>
               let* q := (if is_pair file.(how) then ioctlfionread fd else ret O) in
               ret (km_note_header_size KM_NT_NAME + SIZEOF_NT_SOCKET + km_nt_file_padded_size (name_bytes name) + km_nt_chunk_roundup q)%nat
           end
       end.
Fixpoint notes_length (fs : km_filesys) (fds : list Z) : M dump nat :=
  match fds with
  | [] => ret O
  | i :: rest =>
      let* l := (if km_is_file_used (file_at fs i) then fd_note_length (file_at fs i) i else ret O) in
      let* t := notes_length fs rest in
      ret (l + t)%nat
  end.
Definition km_fs_core_notes_length (fs : km_filesys) : M dump nat := notes_length fs (seqZ 0 fs.(nfdmap)).

(** Whether a reading end has data. *)
Fixpoint pipes_loop (fs : km_filesys) (fds : list Z) : M dump bool :=
  match fds with
  | [] => ret false
  | i :: rest =>
      let file := file_at fs i in
      let reading := match file.(sockinfo) with None => bool_decide (file.(how) = KM_FILE_HOW_PIPE_0) | Some _ => is_pair file.(how) end in
      if km_is_file_used file && reading then
        let* q := ioctlfionread i in
        if negb (q =? 0)%nat then ret true else pipes_loop fs rest
      else pipes_loop fs rest
  end.
Definition km_pipes (fs : km_filesys) : M dump bool := pipes_loop fs (seqZ 0 fs.(nfdmap)).
End CoreFs.

(** The note of the dup groups; its words are those of km_fs_core_dup_write. *)
Definition dup_note (groups : list (list Z)) : list Z :=
  note_bytes (mk_note KM_NT_NAME NT_KM_DUP_DATA (put (map f32 (km_fs_core_dup_write groups)))).
Definition km_fs_dup_notes_length (groups : list (list Z)) : nat :=
  (km_note_header_size KM_NT_NAME + 4 + foldr (fun g n => 4 + length g * 4 + n) 0 groups)%nat.
