(* ===== verification/CoreDump.v ===== *)
(** * Core files and snapshots: writing (km_coredump.c, km_vmdriver.c)

    The file is an ELF header, the program headers, the notes and the memory of the
    guest, each segment from a page boundary on.  Memory is a function from monitor
    addresses to bytes, and so is the file from offsets. *)
From S2P Require Import Prelude Machine MemGeom MmapGuest FdTable Signal Stdio Notes IoContext CoreFs.

Definition PT_LOAD : Z := 1.
Definition PT_NOTE : Z := 4.
Definition ET_CORE : Z := 4.
Definition NT_PRSTATUS : Z := 1.
Definition NT_FILE : Z := 0x46494c45.
Definition NT_AUXV : Z := 6.
Definition NT_KM_MONITOR : Z := 0x4b4d4d4e.
Definition NT_KM_VCPU : Z := 0x4b4d5052.
Definition NT_KM_GUEST : Z := 0x4b4d4754.
Definition NT_KM_DYNLINKER : Z := 0x4b4d444c.
Definition NT_KM_GUESTV : Z := 0x4b4d4756.
Definition NT_KM_SIGHAND : Z := 0x4b4d5348.
Definition KM_NT_GUESTV_VERSION : Z := 1.
Definition SIZEOF_EHDR : Z := 64.
Definition SIZEOF_PHDR : Z := 56.
Definition SIZEOF_PRSTATUS : nat := 336.
Definition SIZEOF_NT_VCPU : nat := 96.
Definition SIZEOF_NT_GUEST : nat := 72.
Definition SIZEOF_NT_GUESTV : nat := 88.
Definition SIZEOF_NT_MONITOR : nat := 32.
Definition SIZEOF_NT_SIGHAND : nat := 32.

(** ** ELF headers *)
Record Elf64_Ehdr := mk_ehdr {
  e_ident : list Z; e_type : Z; e_machine : Z; e_version : Z; e_entry : Z; e_phoff : Z; e_shoff : Z; e_flags : Z;
  e_ehsize : Z; e_phentsize : Z; e_phnum : Z; e_shentsize : Z; e_shnum : Z; e_shstrndx : Z
}.
Definition ehdr_fields (e : Elf64_Ehdr) : list (nat * Z) :=
  [f16 e.(e_type); f16 e.(e_machine); f32 e.(e_version); f64 e.(e_entry); f64 e.(e_phoff); f64 e.(e_shoff); f32 e.(e_flags);
   f16 e.(e_ehsize); f16 e.(e_phentsize); f16 e.(e_phnum); f16 e.(e_shentsize); f16 e.(e_shnum); f16 e.(e_shstrndx)].
Definition ehdr_bytes (e : Elf64_Ehdr) : list Z := e.(e_ident) ++ put (ehdr_fields e).

Record elf_phdr := mk_elf_phdr {
  ph_type : Z; ph_flags : Z; ph_offset : Z; ph_vaddr : Z; ph_paddr : Z; ph_filesz : Z; ph_memsz : Z; ph_align : Z
}.
Definition phdr_fields (p : elf_phdr) : list (nat * Z) :=
  [f32 p.(ph_type); f32 p.(ph_flags); f64 p.(ph_offset); f64 p.(ph_vaddr); f64 p.(ph_paddr); f64 p.(ph_filesz); f64 p.(ph_memsz); f64 p.(ph_align)].
Definition phdr_bytes (p : elf_phdr) : list Z := put (phdr_fields p).

(** The program or its dynamic linker; no name: there is none. *)
Record payload := mk_pl {
  pl_ehdr : Elf64_Ehdr; pl_phdr : list elf_phdr; pl_dlopen : Z; pl_load_adjust : Z; pl_filename : option (list Z)
}.
Definition loads (p : payload) : list elf_phdr := filter (fun ph => ph.(ph_type) = PT_LOAD) p.(pl_phdr).

(** ** A vcpu in a core file

    Its general registers, the bases of its segments, what the monitor keeps of it;
    [cv_fp]: the floating point state, if it can be read. *)
Record core_vcpu := mk_cv {
  cv_id : Z; cv_regs : kvm_regs_t; cv_cs : Z; cv_ss : Z; cv_fs : Z; cv_gs : Z; cv_ds : Z; cv_es : Z;
  cv_stack_top : Z; cv_guest_thr : Z; cv_set_child_tid : Z; cv_clear_child_tid : Z;
  cv_ss_sp : Z; cv_ss_flags : Z; cv_ss_size : Z; cv_mapself_base : Z; cv_mapself_size : Z;
  cv_hcarg : Z; cv_hypercall : Z; cv_restart : Z; cv_fp : option (list Z)
}.

Definition NT_KM_VCPU_FPDATA_NONE : Z := 0.
Definition NT_KM_VCPU_FPDATA_KVM_FPU : Z := 1.
Definition NT_KM_VCPU_FPDATA_KVM_XSAVE : Z := 2.
Definition NT_KM_VCPU_FPDATA_KKM_XSAVE : Z := 3.
(** struct kvm_fpu, struct kvm_xsave, and two flags with the two areas of KKM. *)
Definition km_vmdriver_fpstate_size (ty : vm_type_t) (xsave : bool) : nat :=
  km_nt_chunk_roundup (match ty with VM_TYPE_KVM => if xsave then 4096 else 416 | VM_TYPE_KKM => 2 + 64 + 4096 end)%nat.
Definition km_vmdriver_fp_format (ty : vm_type_t) (xsave : bool) : Z :=
  match ty with
  | VM_TYPE_KVM => if xsave then NT_KM_VCPU_FPDATA_KVM_XSAVE else NT_KM_VCPU_FPDATA_KVM_FPU
  | VM_TYPE_KKM => NT_KM_VCPU_FPDATA_KKM_XSAVE
  end.

(** What a core file is made from. *)
Record image := mk_image {
  im_machine : machine; im_mem : Z -> Z; im_xsave : bool; im_guest : payload; im_dyn : payload; im_vcpus : list core_vcpu;
  im_auxv : list Z; im_acts : gmap Z km_sigaction_t; im_fs : km_filesys; im_ioc : iocs;
  im_forked : bool; im_timers : list (option (Z * Z * Z * Z)); im_io_active : Z
}.
Inductive km_coredump_type_t := KM_DO_CORE | KM_DO_SNAP.
#[global] Instance coredump_type_eq_dec : EqDecision km_coredump_type_t.
Proof. solve_decision. Defined.

(** ** The notes *)
Definition pr_reg (v : core_vcpu) : list Z :=
  let r := v.(cv_regs) in
  [r.(r15); r.(r14); r.(r13); r.(r12); r.(rbp); r.(rbx); r.(r11); r.(r10); r.(r9); r.(r8); r.(rax); r.(rcx); r.(rdx); r.(rsi); r.(rdi);
   r.(rax); r.(rip); v.(cv_cs); r.(rflags); r.(rsp); v.(cv_ss); v.(cv_fs); v.(cv_gs); v.(cv_ds); v.(cv_es); v.(cv_fs); v.(cv_gs)].
(** struct elf_prstatus: signal and times are left 0; 32 bytes before the thread id. *)
Definition prstatus_fields (v : core_vcpu) : list (nat * Z) :=
  [f32 0; f32 0; f32 0; f16 0; f16 0; f64 0; f64 0; f32 (v.(cv_id) + 1); f32 0; f32 0; f32 0]
  ++ replicate 8 (f64 0) ++ map f64 (pr_reg v) ++ [f32 0; f32 0].
Definition prstatus_note (v : core_vcpu) : note := mk_note CORE NT_PRSTATUS (put (prstatus_fields v)).
Definition km_make_dump_prstatus (v : core_vcpu) : list Z := padded (note_bytes (prstatus_note v)).

Section Notes.
  Context (im : image).

Definition is_current (vcpu : option core_vcpu) (v : core_vcpu) : bool :=
  match vcpu with Some c => c.(cv_id) =? v.(cv_id) | None => false end.
Definition km_core_dump_threads (vcpu : option core_vcpu) : list Z :=
  flat_map (fun v => if is_current vcpu v then [] else km_make_dump_prstatus v) im.(im_vcpus).

Definition fp_size : nat := km_vmdriver_fpstate_size im.(im_machine).(vm_type) im.(im_xsave).
Definition vcpu_fields (v : core_vcpu) : list (nat * Z) :=
  [f32 v.(cv_id); f32 0; f64 v.(cv_stack_top); f64 v.(cv_guest_thr); f64 v.(cv_set_child_tid); f64 v.(cv_clear_child_tid);
   f64 v.(cv_ss_sp); f32 v.(cv_ss_flags); f32 0; f64 v.(cv_ss_size); f64 v.(cv_mapself_base); f64 v.(cv_mapself_size); f64 v.(cv_hcarg);
   f16 v.(cv_hypercall); f16 v.(cv_restart);
   f32 (match v.(cv_fp) with Some _ => km_vmdriver_fp_format im.(im_machine).(vm_type) im.(im_xsave) | None => NT_KM_VCPU_FPDATA_NONE end)].
Definition fp_bytes (v : core_vcpu) : list Z :=
  match v.(cv_fp) with Some b => take fp_size b ++ replicate (fp_size - length b) 0 | None => replicate fp_size 0 end.
Definition vcpu_note (v : core_vcpu) : note := mk_note KM_NT_NAME NT_KM_VCPU (put (vcpu_fields v) ++ fp_bytes v).
Definition km_core_dump_vcpu (v : core_vcpu) : list Z := note_bytes (vcpu_note v).

(** NT_FILE: count, page size, three words per mapping, then the names. *)
Record file_map := mk_fmap { fm_start : Z; fm_len : Z; fm_offset : Z; fm_name : list Z }.
Definition elf_maps (p : payload) : list file_map :=
  match p.(pl_filename) with
  | None => []
  | Some name => map (fun ph => mk_fmap (u64 (ph.(ph_vaddr) + p.(pl_load_adjust))) ph.(ph_memsz) ph.(ph_offset) name) (loads p)
  end.
Definition mmap_maps (l : list km_mmap_reg) : list file_map :=
  omap (fun r => name ← r.(filename); Some (mk_fmap r.(start) r.(size) r.(offset) (name_bytes name))) l.
Definition file_maps : list file_map := elf_maps im.(im_guest) ++ elf_maps im.(im_dyn) ++ mmap_maps im.(im_machine).(mmaps_busy).
Definition km_mappings_size : nat := (16 + foldr (fun f n => 24 + length f.(fm_name) + 1 + n) 0 file_maps)%nat.
Definition km_core_dump_region_mapping (f : file_map) : list (nat * Z) := [f64 f.(fm_start); f64 (u64 (f.(fm_start) + f.(fm_len))); f64 (f.(fm_offset) / KM_PAGE_SIZE)].
Definition mappings_desc : list Z :=
  put (f64 (Z.of_nat (length file_maps)) :: f64 KM_PAGE_SIZE :: flat_map km_core_dump_region_mapping file_maps)
  ++ flat_map (fun f => f.(fm_name) ++ [0]) file_maps.
Definition mappings_note : note := mk_note CORE NT_FILE mappings_desc.
(** The guest has a name. *)
Definition km_core_dump_mappings : list Z := padded (note_bytes mappings_note).

Definition auxv_note : note := mk_note CORE NT_AUXV im.(im_auxv).
Definition km_core_dump_auxv : list Z := padded (note_bytes auxv_note).

(** The size in the header counts the name without its padding. *)
Definition payload_note (p : payload) (name : list Z) : note :=
  mk_note KM_NT_NAME NT_KM_DYNLINKER (put [f64 p.(pl_load_adjust)] ++ ehdr_bytes p.(pl_ehdr) ++ flat_map phdr_bytes p.(pl_phdr) ++ name ++ [0]).
Definition km_core_dump_payload_note (p : payload) (name : list Z) : list Z := padded (note_bytes (payload_note p name)).
Definition payloadv_note (p : payload) (name : list Z) : note :=
  mk_note KM_NT_NAME NT_KM_GUESTV
    (put [f32 KM_NT_GUESTV_VERSION; f32 0; f64 p.(pl_load_adjust); f64 p.(pl_dlopen)] ++ ehdr_bytes p.(pl_ehdr) ++ flat_map phdr_bytes p.(pl_phdr) ++ name ++ [0]).
Definition km_core_dump_payloadv_note (p : payload) (name : list Z) : list Z := padded (note_bytes (payloadv_note p name)).

Definition sighand_note (n : km_nt_sighand_t) : note :=
  mk_note KM_NT_NAME NT_KM_SIGHAND (put [f32 n.(nt_size); f32 n.(nt_signo); f64 n.(nt_handler); f32 n.(nt_flags); f32 n.(nt_mask); f64 n.(nt_restorer)]).
Definition sighand_notes : list Z := flat_map (fun n => note_bytes (sighand_note n)) (km_sig_core_notes_write im.(im_acts)).

Definition string_of (s : option (list Z)) : list Z := match s with Some b => b ++ [0] | None => [] end.
Definition monitor_note (label description : option (list Z)) : note :=
  let m := im.(im_machine) in
  mk_note KM_NT_NAME NT_KM_MONITOR
    (put [f32 (match m.(vm_type) with VM_TYPE_KVM => 0 | VM_TYPE_KKM => 1 end); f32 (Z.of_nat (length (string_of label))); f32 (Z.of_nat (length (string_of description))); f32 0; f64 m.(brk); f64 m.(tbrk)]
     ++ string_of label ++ string_of description).
End Notes.

Section Write.
  Context `{CoreHost} (im : image).
Let m := im.(im_machine).

(** ** Writing *)
Definition EFAULT : Z := 14.
Definition file_put (pos : Z) (src : Z -> Z) (n : Z) (f : Z -> Z) : Z -> Z :=
  fun o => if (pos <=? o) && (o <? pos + n) then src (o - pos) else f o.

(** Bytes of [src] from [cur] on; where guest memory cannot be read the rest of the
    piece is skipped.  The result is 0 or an errno. *)
Fixpoint write_mem_loop (fuel : nat) (src : Z -> Z) (cur remain : Z) (is_guestmem : bool) : M dump Z :=
  match fuel with
  | O => fun _ => NoFuel
  | S fuel' =>
      if remain =? 0 then ret 0
      else
        let* d := get in
        let rc := ch_write d.(d_calls) remain in
        modify called ;;;
        if rc <? 0 then
          if (- rc =? EFAULT) && is_guestmem then
            let* d := get in
            let sk := ch_lseek d.(d_calls) remain in
            modify called ;;;
            if sk <? 0 then ret (- sk)
            else modify (fun d => set_file d.(d_file) (d.(d_pos) + remain) d) ;;; write_mem_loop fuel' src (cur + remain) 0 is_guestmem
          else ret (- rc)
        else
          modify (fun d => set_file (file_put d.(d_pos) (fun i => src (cur + i)) rc d.(d_file)) (d.(d_pos) + rc) d) ;;;
          write_mem_loop fuel' src (cur + rc) (remain - rc) is_guestmem
  end.
Definition km_core_write_mem (src : Z -> Z) (length : Z) (is_guestmem : bool) : M dump Z :=
  write_mem_loop (S (Z.to_nat length)) src 0 length is_guestmem.
Definition km_core_write (buffer : list Z) : M dump Z :=
  km_core_write_mem (fun i => nth (Z.to_nat i) buffer 0) (Z.of_nat (length buffer)) false.

Definition km_core_write_elf_header (phnum : Z) : M dump Z :=
  let g := im.(im_guest).(pl_ehdr) in
  km_core_write (ehdr_bytes (mk_ehdr g.(e_ident) ET_CORE g.(e_machine) g.(e_version) g.(e_entry) SIZEOF_EHDR 0 0 SIZEOF_EHDR SIZEOF_PHDR phnum 0 0 0)).
Definition load_phdr (offset base size flags : Z) : elf_phdr := mk_elf_phdr PT_LOAD flags offset base 0 size size 0.
Definition km_core_write_load_header (offset base size flags : Z) : M dump Z := km_core_write (phdr_bytes (load_phdr offset base size flags)).

(** The notes: errno, or their bytes, at most [size].  The program header that the
    function writes behind them is in [km_core_write_phdrs]. *)
Definition km_core_write_notes (vcpu : option core_vcpu) (label description : option (list Z)) (size : nat) (dumptype : km_coredump_type_t) : M dump (Z + list Z) :=
  match im.(im_guest).(pl_filename) with
  | None => abort
  | Some gname =>
      let head :=
        match vcpu with Some v => km_make_dump_prstatus v | None => [] end
        ++ km_core_dump_threads im vcpu ++ km_core_dump_mappings im ++ km_core_dump_auxv im
        ++ flat_map (km_core_dump_vcpu im) im.(im_vcpus) ++ km_core_dump_payloadv_note im.(im_guest) gname
        ++ match im.(im_dyn).(pl_filename) with Some dname => km_core_dump_payload_note im.(im_dyn) dname | None => [] end in
      let* files :=
        (if decide (dumptype = KM_DO_SNAP) then
           let dup := dup_note im.(im_fs).(dup_data) in
           let* r := km_fs_core_notes_write (size - (length head + length dup)) im.(im_fs) in
           ret (match r with inl rc => inl rc | inr b => inr (dup ++ b ++ km_fs_iocontext_notes_write im.(im_ioc)) end)
         else ret (inr [])) in
      match files with
      | inl rc => ret (inl rc)
      | inr files =>
          let buf := head ++ files ++ sighand_notes im ++ note_bytes (monitor_note im label description) in
          km_assert (length buf <=? size)%nat ;;;
          ret (inr buf)
      end
  end.

Definition payload_length (sz : nat) (p : payload) (name : list Z) : nat :=
  (km_note_header_size KM_NT_NAME + sz + length p.(pl_phdr) * 56 + km_nt_file_padded_size name)%nat.
Definition page_roundup (n : nat) : nat := Z.to_nat (roundup (Z.of_nat n) KM_PAGE_SIZE).
Definition km_core_notes_length (vcpu : option core_vcpu) (label description : option (list Z)) (dumptype : km_coredump_type_t) : M dump nat :=
  match im.(im_guest).(pl_filename) with
  | None => abort
  | Some gname =>
      let nvcpu := length im.(im_vcpus) in
      let nvcpu_inc := match vcpu with None => O | Some _ => 1%nat end in
      let hdr := km_note_header_size KM_NT_NAME in
      let base :=
        ((hdr + SIZEOF_PRSTATUS) * (nvcpu + nvcpu_inc) + (km_mappings_size im + hdr) + (length im.(im_auxv) + hdr) + (SIZEOF_NT_MONITOR + hdr)
         + length (string_of label) + length (string_of description) + (hdr + SIZEOF_NT_VCPU + fp_size im) * nvcpu
         + payload_length SIZEOF_NT_GUESTV im.(im_guest) gname
         + match im.(im_dyn).(pl_filename) with Some dname => payload_length SIZEOF_NT_GUEST im.(im_dyn) dname | None => 0 end)%nat in
      let* files :=
        (if decide (dumptype = KM_DO_SNAP) then
           let* f := km_fs_core_notes_length im.(im_fs) in
           ret (km_fs_dup_notes_length im.(im_fs).(dup_data) + f + km_fs_iocontext_notes_length im.(im_ioc).(km_iocp))%nat
         else ret O) in
      ret (page_roundup (base + files + Z.to_nat (km_sig_core_notes_length (Z.of_nat hdr) im.(im_acts))))
  end.

(** ** Program headers *)
Definition max_end (loads : list elf_phdr) (e : Z) : Z :=
  fold_left (fun e ph => let pend := u64 (ph.(ph_vaddr) + ph.(ph_memsz)) in if e <? pend then pend else e) loads e.
Definition dyn_loads : list elf_phdr := match im.(im_dyn).(pl_filename) with Some _ => loads im.(im_dyn) | None => [] end.
Definition dumped (r : km_mmap_reg) : bool := negb (r.(protection) =? PROT_NONE).
(** The number of headers and the end of the loaded program. *)
Definition km_core_count_phdrs : Z * Z :=
  let endload := u64 (max_end (loads im.(im_guest)) 0 + im.(im_guest).(pl_load_adjust)) in
  (1 + Z.of_nat (length (loads im.(im_guest))) + Z.of_nat (length dyn_loads) + Z.of_nat (length (List.filter dumped m.(mmaps_busy))),
   max_end dyn_loads endload).

Definition km_core_last_load_adjust (ph : elf_phdr) (end_load : Z) : Z :=
  if u64 (ph.(ph_vaddr) + im.(im_guest).(pl_load_adjust) + ph.(ph_memsz)) =? end_load then u64 (m.(brk) - end_load) else 0.
Definition seg_size (ph : elf_phdr) (end_load : Z) : Z :=
  u64 (u64 (ph.(ph_memsz) + km_core_last_load_adjust ph end_load) + (ph.(ph_vaddr) - rounddown ph.(ph_vaddr) KM_PAGE_SIZE)).
Definition seg_base (p : payload) (ph : elf_phdr) : Z := rounddown (u64 (ph.(ph_vaddr) + p.(pl_load_adjust))) KM_PAGE_SIZE.

(** The errno, or the offset behind the last segment. *)
Fixpoint write_payload_phdrs (p : payload) (phs : list elf_phdr) (end_load offset : Z) : M dump (Z + Z) :=
  match phs with
  | [] => ret (inr offset)
  | ph :: rest =>
      let offset := roundup offset KM_PAGE_SIZE in
      let* rc := km_core_write_load_header offset (seg_base p ph) (seg_size ph end_load) ph.(ph_flags) in
      if negb (rc =? 0) then ret (inl rc)
      else write_payload_phdrs p rest end_load (offset + seg_size ph end_load)
  end.
Definition km_core_write_payload_phdr (p : payload) (end_load offset : Z) : M dump (Z + Z) := write_payload_phdrs p (loads p) end_load offset.

Definition mmap_to_elf_flags (prot : Z) : Z :=
  nth (Z.to_nat (Z.land prot 7)) [0; PF_R; PF_W; Z.lor PF_R PF_W; PF_X; Z.lor PF_R PF_X; Z.lor PF_W PF_X; Z.lor PF_R (Z.lor PF_W PF_X)] 0.
(** The result of the write is not looked at. *)
Fixpoint write_mmap_phdrs (l : list km_mmap_reg) (offset : Z) : M dump Z :=
  match l with
  | [] => ret offset
  | r :: rest =>
      if dumped r then
        let offset := roundup offset KM_PAGE_SIZE in
        km_core_write_load_header offset r.(start) r.(size) (mmap_to_elf_flags r.(protection)) ;;;
        write_mmap_phdrs rest (offset + r.(size))
      else write_mmap_phdrs rest offset
  end.

(** The errno, or the notes. *)
Definition km_core_write_phdrs (vcpu : option core_vcpu) (phnum end_load : Z) (notes_length : nat) (label description : option (list Z)) (offset : Z) (dumptype : km_coredump_type_t) : M dump (Z + list Z) :=
  let* rc := km_core_write_elf_header phnum in
  if negb (rc =? 0) then ret (inl rc)
  else
    let* notes := km_core_write_notes vcpu label description notes_length dumptype in
    match notes with
    | inl rc => ret (inl rc)
    | inr notes =>
        let* rc := km_core_write (phdr_bytes (mk_elf_phdr PT_NOTE 0 offset 0 0 (Z.of_nat (length notes)) 0 0)) in
        if negb (rc =? 0) then ret (inl rc)
        else
          let offset := offset + Z.of_nat notes_length in
          let* o := km_core_write_payload_phdr im.(im_guest) end_load offset in
          match o with
          | inl rc => ret (inl rc)
          | inr offset =>
              let* o := (match im.(im_dyn).(pl_filename) with Some _ => km_core_write_payload_phdr im.(im_dyn) end_load offset | None => ret (inr offset) end) in
              match o with
              | inl rc => ret (inl rc)
              | inr offset => write_mmap_phdrs m.(mmaps_busy) offset ;;; ret (inr notes)
              end
          end
    end.

(** ** Memory *)
Fixpoint guestmem_loop (fuel : nat) (current remain : Z) : M dump Z :=
  match fuel with
  | O => fun _ => NoFuel
  | S fuel' =>
      if remain =? 0 then ret 0
      else
        let wsz := Z.min remain MIB in
        let* rc := km_core_write_mem (fun i => im.(im_mem) (km_gva_to_kma_nocheck m current + i)) wsz true in
        if negb (rc =? 0) then ret rc else guestmem_loop fuel' (current + wsz) (remain - wsz)
  end.
Definition km_guestmem_write (base length : Z) : M dump Z :=
  let remain := roundup length KM_PAGE_SIZE in
  let* d := get in
  let sk := ch_lseek d.(d_calls) 0 in
  modify called ;;;
  if sk <? 0 then ret (- sk)
  else
    let off := roundup d.(d_pos) KM_PAGE_SIZE in
    let* moved :=
      (if d.(d_pos) =? off then ret 0
       else
         let* d := get in
         let sk := ch_lseek d.(d_calls) off in
         modify called ;;;
         if sk <? 0 then ret (- sk) else modify (fun d => set_file d.(d_file) off d) ;;; ret 0) in
    if negb (moved =? 0) then ret moved
    else guestmem_loop (S (Z.to_nat (remain / MIB + 1))) base remain.

Fixpoint write_payload_mem (p : payload) (phs : list elf_phdr) (end_load : Z) : M dump Z :=
  match phs with
  | [] => ret 0
  | ph :: rest =>
      let* rc := km_guestmem_write (seg_base p ph) (seg_size ph end_load) in
      if negb (rc =? 0) then ret rc else write_payload_mem p rest end_load
  end.

(** A mapping that cannot be read is made readable for the while. *)
Fixpoint write_mmaps (l : list km_mmap_reg) : M dump Z :=
  match l with
  | [] => ret 0
  | r :: rest =>
      if dumped r then
        let start := km_gva_to_kma_nocheck m r.(start) in
        let unreadable := negb r.(km_flags).(km_mmap_part_of_monitor) && negb (Z.land r.(protection) PROT_READ =? PROT_READ) in
        let rc := if unreadable then ch_mprotect start r.(size) (Z.lor r.(protection) PROT_READ) else 0 in
        if rc <? 0 then ret (- rc)
        else
          let* rc := km_guestmem_write r.(Machine.start) r.(size) in
          if negb (rc =? 0) then ret rc
          else
            let rc := if unreadable then ch_mprotect start r.(size) r.(protection) else 0 in
            if rc <? 0 then ret (- rc) else write_mmaps rest
      else write_mmaps rest
  end.

(** ** The whole *)
Definition km_snapshot_ok : bool :=
  forallb (fun t => match t with Some (a, b, c, d) => (a =? 0) && (b =? 0) && (c =? 0) && (d =? 0) | None => false end) im.(im_timers).

(** What becomes of the file: there and closed, removed, never made, or there and not
    closed. *)
Inductive fate := Written | Unlinked | NotCreated | LeftOpen.

Definition dump_data (vcpu : option core_vcpu) (label description : option (list Z)) (dumptype : km_coredump_type_t) (notes_length : nat) : M dump Z :=
  let (phnum, end_load) := km_core_count_phdrs in
  let offset := SIZEOF_EHDR + phnum * SIZEOF_PHDR in
  let* notes := km_core_write_phdrs vcpu phnum end_load notes_length label description offset dumptype in
  match notes with
  | inl rc => ret rc
  | inr notes =>
      let* rc := km_core_write (notes ++ replicate (notes_length - length notes) 0) in
      if negb (rc =? 0) then ret rc
      else
        let* rc := write_payload_mem im.(im_guest) (loads im.(im_guest)) end_load in
        if negb (rc =? 0) then ret rc
        else
          let* rc := write_payload_mem im.(im_dyn) dyn_loads end_load in
          if negb (rc =? 0) then ret rc else write_mmaps m.(mmaps_busy)
  end.

(** [open_rc]: 0 or the negative errno of open; [calloc_ok]: there is memory for the
    notes. *)
Definition km_dump_core (open_rc : Z) (calloc_ok : bool) (vcpu : option core_vcpu) (label description : option (list Z)) (dumptype : km_coredump_type_t) : M dump (Z * fate) :=
  let* notes_length := km_core_notes_length vcpu label description dumptype in
  if open_rc <? 0 then ret (- open_rc, NotCreated)
  else
    let* piped := (if bool_decide (dumptype = KM_DO_SNAP) && im.(im_forked) then km_pipes im.(im_fs) else ret false) in
    if piped then ret (EAGAIN, LeftOpen)
    else if bool_decide (dumptype = KM_DO_SNAP) && (negb km_snapshot_ok || (0 <? im.(im_io_active))) then ret (EAGAIN, Unlinked)
    else if negb calloc_ok then ret (ENOMEM, Unlinked)
    else
      let* rc := dump_data vcpu label description dumptype notes_length in
      ret (rc, if rc =? 0 then Written else Unlinked).
End Write.
