(* ===== verification/FdRecover.v ===== *)
(** * Recovery of the guest's descriptors from a snapshot (km_filesys.c)

    The inverse of CoreFs.v: each note makes its descriptor again at its own number.
    In a call to the host [F_sys nr args] the bytes of a write follow the descriptor. *)
From S2P Require Import Prelude FdTable Signal Stdio ExecFd Notes CoreFs.
From Stdlib Require Import Ascii.

Definition SYS_write : Z := 1.
Definition S_IFMT : Z := 0xf000.
Definition S_IFSOCK : Z := 0xc000.
Definition S_IFREG : Z := 0x8000.
Definition F_SETPIPE_SZ : Z := 1031.
Definition ECONNRESET : Z := 104.
Definition FNDELAY : Z := 0x800.

Definition text_of (b : list Z) : text := map (fun z => ascii_of_N (Z.to_N z)) b.
Definition string_of_bytes (b : list Z) : string := String.string_of_list_ascii (text_of b).
Definition how_of (n : Z) : km_file_how_t := nth (Z.to_nat n) hows KM_FILE_HOW_OPEN.

Section Recover.
  Context `{FdHost}.

(** ** Entries *)
Definition km_fs_recover_fd (guestfd hostfd flags : Z) (name : option string) (o : Z) (h : km_file_how_t) : M km_filesys unit :=
  if guestfd <? 0 then sys (F_close hostfd) ;;; ret tt
  else
    let* ok :=
      (if guestfd =? hostfd then ret true
       else
         let* r := sys (F_dup3 hostfd guestfd 0) in
         if negb (r =? guestfd) then ret false else sys (F_close hostfd) ;;; ret true) in
    if negb ok then ret tt
    else
      in_bounds guestfd ;;;
      file_upd guestfd (fun f => mk_file true h flags f.(ferror) f.(ops) o name f.(sockinfo) []).

(** The two ends in the order that does not overwrite the second host descriptor. *)
Definition km_fs_recover_fdpair (guestfd hostfd : Z * Z) (h : km_file_how_t * km_file_how_t) (flags : Z * Z) : M km_filesys Z :=
  let* s := get in
  if (s.(nfdmap) <=? guestfd.1) || (s.(nfdmap) <=? guestfd.2) then ret (-1)
  else
    let first := (let* n := km_get_nonfile_name hostfd.1 in km_fs_recover_fd guestfd.1 hostfd.1 flags.1 n guestfd.2 h.1) in
    let second := (let* n := km_get_nonfile_name hostfd.2 in km_fs_recover_fd guestfd.2 hostfd.2 flags.2 n guestfd.1 h.2) in
    (if guestfd.1 =? hostfd.2 then second ;;; first else first ;;; second) ;;;
    ret 0.

(** ** Pipes *)
Definition sys_write (fd : Z) (data : list Z) : M km_filesys Z := sys (F_sys SYS_write (fd :: data)).
Definition km_fs_recover_pipedata (datalength writefd : Z) (pipedata : list Z) : M km_filesys Z :=
  if 0 <? datalength then
    if Z.of_nat (length pipedata) <? datalength then abort
    else
      let* n := sys_write writefd (take (Z.to_nat datalength) pipedata) in
      ret (if negb (n =? datalength) then -1 else 0)
  else ret 0.

(** A pair of descriptors made by the host, or its negative errno. *)
Definition sys_pair (c : fdcall) : M km_filesys (Z * (Z * Z)) :=
  let* s := get in
  let p := fd_pair s.(syscalls) c in
  let* r := sys c in ret (r, p).

Record nt_file := mk_ntf { ntf_size : Z; ntf_fd : Z; ntf_how : Z; ntf_flags : Z; ntf_mode : Z; ntf_pipesize : Z; ntf_data : Z; ntf_datalength : Z }.
Definition read_nt_file (ptr : list Z) : option nt_file :=
  match fields [4; 4; 4; 4; 4; 4; 8; 4; 4]%nat ptr with
  | Some [a; b; c; d; e; f; g; h; _] => Some (mk_ntf a b c d e f g h)
  | _ => None
  end.

Definition km_fs_recover_pipe (nt : nt_file) (pipedata : list Z) : M km_filesys Z :=
  let* s := get in
  let file := file_at s nt.(ntf_fd) in
  if km_is_file_used file then
    km_assert (u64 file.(ofd) =? nt.(ntf_data)) ;;;
    if decide (file.(how) = KM_FILE_HOW_PIPE_0) then km_fs_recover_pipedata nt.(ntf_datalength) file.(ofd) pipedata else ret 0
  else
    let syscall_flags := Z.land nt.(ntf_flags) (Z.lnot O_WRONLY) in
    let* (rc, hostfd) := sys_pair (F_pipe2 syscall_flags) in
    if rc <? 0 then ret (-1)
    else
      let* rc := (if decide (how_of nt.(ntf_how) = KM_FILE_HOW_PIPE_0) then km_fs_recover_pipedata nt.(ntf_datalength) hostfd.2 pipedata else ret 0) in
      if negb (rc =? 0) then ret (-1)
      else
        let* rc := sys (F_sys SYS_fcntl [hostfd.1; F_SETPIPE_SZ; nt.(ntf_pipesize)]) in
        if rc <? 0 then ret (-1)
        else
          let fd := nt.(ntf_fd) in
          let data := int32 nt.(ntf_data) in
          let guestfd := if negb (Z.land nt.(ntf_flags) O_WRONLY =? 0) then (data, fd) else (fd, data) in
          let* rc := km_fs_recover_fdpair guestfd hostfd (KM_FILE_HOW_PIPE_0, KM_FILE_HOW_PIPE_1) (syscall_flags, syscall_flags) in
          ret (if negb (rc =? 0) then -1 else 0).

(** A dup of a descriptor recovered before it. *)
Definition recover_dup (dup_fd fd flags : Z) : M km_filesys Z :=
  let* r := km_fs_dup3 dup_fd fd flags in ret (if r <? 0 then -1 else 0).

(** ** Files *)
Definition own_stream (fd : Z) (name : string) : bool :=
  (fd =? 0) && bool_decide (name = stdin_name) || (fd =? 1) && bool_decide (name = stdout_name) || (fd =? 2) && bool_decide (name = stderr_name).

Definition km_fs_recover_open_file (ptr : list Z) (length : Z) : M km_filesys Z :=
  match read_nt_file ptr with
  | None => abort
  | Some nt =>
      if negb (nt.(ntf_size) =? Z.of_nat SIZEOF_NT_FILE) then ret (-1)
      else
        let nm := cstr (drop SIZEOF_NT_FILE ptr) in
        let name := string_of_bytes nm in
        let pipedata := drop (SIZEOF_NT_FILE + km_nt_file_padded_size nm) ptr in
        let fd := nt.(ntf_fd) in
        let* s := get in
        if s.(nfdmap) <=? fd then ret (-1)
        else if own_stream fd name then ret 0
        else
          let dup_fd := km_fs_check_for_dups_nolock s fd in
          if 0 <=? dup_fd then recover_dup dup_fd fd (Z.land nt.(ntf_flags) O_CLOEXEC)
          else if Z.land nt.(ntf_mode) S_IFMT =? S_IFSOCK then ret (-1)
          else if Z.land nt.(ntf_mode) S_IFMT =? S_IFIFO then km_fs_recover_pipe nt pipedata
          else
            let* hostfd := sys (F_open name nt.(ntf_flags) 0) in
            if hostfd <? 0 then ret (-1)
            else
              let* mode := sys (F_sys SYS_fstat [hostfd]) in
              if mode <? 0 then ret (-1)
              else if negb (mode =? nt.(ntf_mode)) then ret (-1)
              else
                km_fs_recover_fd fd hostfd nt.(ntf_flags) (Some name) (int32 nt.(ntf_data)) (how_of nt.(ntf_how)) ;;;
                if (Z.land nt.(ntf_mode) S_IFMT =? S_IFREG) && negb (nt.(ntf_data) =? 0) then
                  let* r := sys (F_sys SYS_lseek [fd; nt.(ntf_data); 0]) in
                  ret (if negb (r =? nt.(ntf_data)) then -1 else 0)
                else ret 0
  end.

(** ** Sockets *)
Record nt_socket := mk_nts { nts_size : Z; nts_fd : Z; nts_how : Z; nts_state : Z; nts_backlog : Z; nts_domain : Z; nts_type : Z; nts_protocol : Z; nts_other : Z; nts_addrlen : Z; nts_datalength : Z }.
Definition read_nt_socket (ptr : list Z) : option nt_socket :=
  match fields (replicate 11 4%nat) ptr with
  | Some [a; b; c; d; e; f; g; h; i; j; k] => Some (mk_nts a b c d e f g h i j k)
  | _ => None
  end.

(** The listener that a light snapshot kept is used as it is. *)
Definition km_snap_is_listener (s : km_filesys) (fd : Z) : bool := existsb (fun l => l.1 =? fd) s.(snap_listeners).

Definition recover_host_socket (nt : nt_socket) (address : list Z) : M km_filesys Z :=
  let* s := get in
  if km_snap_is_listener s nt.(nts_fd) then
    let fd := nt.(nts_fd) in
    if negb (Z.land nt.(nts_type) SOCK_NONBLOCK =? SOCK_NONBLOCK) then ret fd
    else
      let* fl := sys (F_sys SYS_fcntl [fd; F_GETFL; 0]) in
      if fl <? 0 then abort
      else
        let* r := sys (F_sys SYS_fcntl [fd; F_SETFL; Z.lor fl FNDELAY]) in
        if r <? 0 then abort else ret fd
  else
    let* fd := sys (F_socket (int32 nt.(nts_domain)) (int32 nt.(nts_type)) (int32 nt.(nts_protocol))) in
    if fd <? 0 then ret (-1)
    else if (nt.(nts_state) =? 1) || (nt.(nts_state) =? 2) then
      let* r := sys (F_sys SYS_setsockopt [fd; 1; 2; 1]) in
      if negb (r =? 0) then ret (-1)
      else
        let* r := sys (F_sys SYS_bind (fd :: address)) in
        if r <? 0 then ret (-1)
        else if nt.(nts_state) =? 2 then
          let* r := sys (F_sys SYS_listen [fd; int32 nt.(nts_backlog)]) in
          ret (if r <? 0 then -1 else fd)
        else ret fd
    else ret fd.

(** State and backlog of the socket are not put back into the entry. *)
Definition km_fs_recover_socket (nt : nt_socket) (address : list Z) : M km_filesys Z :=
  let* s := get in
  let fd := nt.(nts_fd) in
  if s.(nfdmap) <=? fd then ret (-1)
  else
    km_assert (negb (km_is_file_used (file_at s fd))) ;;;
    let* host_fd := recover_host_socket nt address in
    if host_fd <? 0 then ret (-1)
    else
      let* n := km_get_nonfile_name host_fd in
      km_fs_recover_fd fd host_fd 0 n (-1) (how_of nt.(nts_how)) ;;;
      (if nt.(nts_state) =? 5 then file_upd fd (fun f => set_fname (Some "socket error"%string) (set_ferror (- ECONNRESET) f)) else ret tt) ;;;
      file_upd fd (set_sockinfo (Some (mk_socket KM_SOCK_STATE_OPEN 0 (int32 nt.(nts_domain)) (int32 nt.(nts_type)) (int32 nt.(nts_protocol))
                                         (if 0 <? nt.(nts_addrlen) then nt.(nts_addrlen) else 0) address))) ;;;
      ret 0.

Definition km_fs_recover_socketdata (nt : nt_socket) (ptr : list Z) (writefd : Z) : M km_filesys Z :=
  if 0 <? nt.(nts_datalength) then
    let p := drop (SIZEOF_NT_SOCKET + km_nt_chunk_roundup (Z.to_nat nt.(nts_addrlen))) ptr in
    if Z.of_nat (length p) <? nt.(nts_datalength) then abort
    else
      let* n := sys_write writefd (take (Z.to_nat nt.(nts_datalength)) p) in
      ret (if (n <? 0) || (n <? nt.(nts_datalength)) then -1 else 0)
  else ret 0.

Definition km_fs_recover_socketpair (nt : nt_socket) (ptr : list Z) : M km_filesys Z :=
  let* s := get in
  let fd := nt.(nts_fd) in
  let other := int32 nt.(nts_other) in
  in_bounds fd ;;;
  if km_is_file_used (file_at s fd) then km_fs_recover_socketdata nt ptr other
  else
    let* (rc, host_sv) := sys_pair (F_socketpair (int32 nt.(nts_domain)) (int32 nt.(nts_type)) (int32 nt.(nts_protocol))) in
    if rc <? 0 then ret (-1)
    else
      let is0 := bool_decide (how_of nt.(nts_how) = KM_FILE_HOW_SOCKETPAIR0) in
      let* rc := km_fs_recover_socketdata nt ptr (if is0 then host_sv.2 else host_sv.1) in
      if rc <? 0 then ret (-1)
      else
        let* rc :=
          (if is0 then km_fs_recover_fdpair (fd, other) host_sv (KM_FILE_HOW_SOCKETPAIR0, KM_FILE_HOW_SOCKETPAIR1) (0, 0)
           else km_fs_recover_fdpair (other, fd) host_sv (KM_FILE_HOW_SOCKETPAIR1, KM_FILE_HOW_SOCKETPAIR0) (0, 0)) in
        ret (if rc <? 0 then -1 else 0).

(** The result of km_fs_recover_socket is not looked at. *)
Definition km_fs_recover_open_socket (ptr : list Z) (length : Z) : M km_filesys Z :=
  match read_nt_socket ptr with
  | None => abort
  | Some nt =>
      if negb (nt.(nts_size) =? Z.of_nat SIZEOF_NT_SOCKET) then ret (-1)
      else
        let* s := get in
        let dup_fd := km_fs_check_for_dups_nolock s nt.(nts_fd) in
        if 0 <=? dup_fd then let* r := km_fs_dup2 dup_fd nt.(nts_fd) in ret (if r <? 0 then -1 else 0)
        else if is_pair (how_of nt.(nts_how)) then km_fs_recover_socketpair nt ptr
        else km_fs_recover_socket nt (take (Z.to_nat nt.(nts_addrlen)) (drop SIZEOF_NT_SOCKET ptr)) ;;; ret 0
  end.

(** ** Event descriptors *)
Definition km_fs_recover_eventfd (ptr : list Z) (length : Z) : M km_filesys Z :=
  match read_nt_file ptr with
  | None => abort
  | Some nt =>
      if negb (nt.(ntf_size) =? Z.of_nat SIZEOF_NT_FILE) then ret (-1)
      else
        let fd := nt.(ntf_fd) in
        in_bounds fd ;;;
        let* s := get in
        if km_is_file_used (file_at s fd) then abort
        else
          let dup_fd := km_fs_check_for_dups_nolock s fd in
          if 0 <=? dup_fd then recover_dup dup_fd fd (Z.land nt.(ntf_flags) O_CLOEXEC)
          else
            let* hostfd := sys (F_eventfd nt.(ntf_data) nt.(ntf_flags)) in
            if hostfd <? 0 then ret (-1)
            else
              let* n := km_get_nonfile_name hostfd in
              km_fs_recover_fd fd hostfd nt.(ntf_flags) n (int32 nt.(ntf_data)) KM_FILE_HOW_EVENTFD ;;;
              ret 0
  end.

Fixpoint recover_events (n : nat) (ptr : list Z) (epfd : Z) : M km_filesys Z :=
  match n with
  | O => ret 0
  | S n' =>
      match fields [4; 4; 8]%nat ptr with
      | Some [fd; events; data] =>
          let* s := get in
          match km_fs_g2h_fd s (int32 fd) with
          | None => ret (-1)
          | Some (host_efd, _) =>
              let ev := mk_event events data in
              let* r := sys (F_epoll_ctl epfd EPOLL_CTL_ADD host_efd ev) in
              if r <? 0 then ret (-1)
              else
                file_upd epfd (fun f => set_fevents (f.(fevents) ++ [mk_fs_event (int32 fd) ev]) f) ;;;
                recover_events n' (drop SIZEOF_NT_EVENT ptr) epfd
          end
      | _ => abort
      end
  end.

Definition km_fs_recover_epollfd (ptr : list Z) (length : Z) : M km_filesys Z :=
  match fields [4; 4; 4; 4]%nat ptr with
  | Some [size; fd; flags; nevent] =>
      if negb (size =? Z.of_nat SIZEOF_NT_EPOLLFD) then ret (-1)
      else
        let* s := get in
        if s.(nfdmap) <=? fd then ret (-1)
        else if km_is_file_used (file_at s fd) then abort
        else
          let dup_fd := km_fs_check_for_dups_nolock s fd in
          if 0 <=? dup_fd then recover_dup dup_fd fd (Z.land flags O_CLOEXEC)
          else
            let* hostfd := sys (F_epoll_create flags) in
            if hostfd <? 0 then ret (-1)
            else
              let* n := km_get_nonfile_name hostfd in
              km_fs_recover_fd fd hostfd 0 n (-1) KM_FILE_HOW_EPOLLFD ;;;
              recover_events (Z.to_nat nevent) (drop SIZEOF_NT_EPOLLFD ptr) fd
  | _ => abort
  end.

(** The words of the note of the dup groups. *)
Definition recover_dup_data (ptr : list Z) (len : Z) : M km_filesys Z :=
  match fields (replicate (Z.to_nat len / 4) 4%nat) ptr with
  | Some words =>
      match km_fs_recover_dup_data words with
      | Some groups => modify (set_dup_data groups) ;;; ret 0
      | None => abort
      end
  | None => abort
  end.

(** ** All of them *)
Definition recover_type (notebuf : list Z) (t : Z * (list Z -> Z -> M km_filesys Z)) : M km_filesys unit :=
  let* rc := km_snapshot_notes_apply t.2 notebuf t.1 in if rc <? 0 then abort else ret tt.
Definition fs_note_types : list (Z * (list Z -> Z -> M km_filesys Z)) :=
  [(NT_KM_DUP_DATA, recover_dup_data); (NT_KM_FILE, km_fs_recover_open_file); (NT_KM_SOCKET, km_fs_recover_open_socket);
   (NT_KM_EVENTFD, km_fs_recover_eventfd); (NT_KM_EPOLLFD, km_fs_recover_epollfd)].
Fixpoint recover_types (notebuf : list Z) (l : list (Z * (list Z -> Z -> M km_filesys Z))) : M km_filesys unit :=
  match l with [] => ret tt | t :: rest => recover_type notebuf t ;;; recover_types notebuf rest end.
(** Without the asynchronous I/O contexts, which come last. *)
Definition km_fs_recover (notebuf : list Z) : M km_filesys unit := recover_types notebuf fs_note_types.
End Recover.
