(* ===== verification/FdRecoverProps.v ===== *)
(** * Recovery of descriptors (proofs)

    An open file comes back at its number, with its name and flags, and at its position;
    the position also lands where the other end of a pair is kept. *)
From S2P Require Import Prelude FdTable FdInv FdSystem Signal Stdio ExecFd Notes CoreFs FdRecover.

Section Props.
  Context `{FdHost}.

Lemma recover_fd_entry guestfd hostfd flags name o h s :
  0 <= guestfd < s.(nfdmap) ->
  wp False (km_fs_recover_fd guestfd hostfd flags name o h)
    (fun _ s' => s'.(nfdmap) = s.(nfdmap) /\ s'.(light_snap_accept_timeout) = s.(light_snap_accept_timeout)
       /\ (file_at s' guestfd = file_at s guestfd \/ (file_at s' guestfd).(inuse) = true /\ (file_at s' guestfd).(ofd) = o /\ (file_at s' guestfd).(how) = h
             /\ (file_at s' guestfd).(fname) = name /\ (file_at s' guestfd).(fflags) = flags)) s.
Proof.
  intros Hr. unfold km_fs_recover_fd. destruct (Z.ltb_spec guestfd 0); [lia|]. apply wp_bind.
  apply (wp_mono _ _ (fun _ s1 => s1.(nfdmap) = s.(nfdmap) /\ s1.(light_snap_accept_timeout) = s.(light_snap_accept_timeout) /\ s1.(guest_files) = s.(guest_files))).
  { destruct (guestfd =? hostfd); [by apply wp_ret|]. apply wp_bind, wp_sys. destruct (negb _); [by apply wp_ret|]. apply wp_bind, wp_sys. by apply wp_ret. }
  intros ok s1 (E1 & E2 & E3). assert (E4 : file_at s1 guestfd = file_at s guestfd) by (unfold file_at; by rewrite E3).
  destruct (negb ok); [apply wp_ret; auto|]. unfold in_bounds. apply wp_bind. apply wp_bind, wp_get. rewrite E1.
  destruct (Z.leb_spec 0 guestfd); [|lia]. destruct (Z.ltb_spec guestfd (nfdmap s)); [|lia]. apply wp_ret. unfold file_upd. apply wp_modify.
  split_and!; [done|done|right]. unfold file_at. cbn. rewrite lookup_insert_eq. by cbn.
Qed.

Definition reg_note (nt : nt_file) : Prop := Z.land nt.(ntf_mode) S_IFMT = S_IFREG.

(** What the recovery of a regular file leaves in the table. *)
Lemma recover_regular ptr len nt s :
  read_nt_file ptr = Some nt -> reg_note nt -> 0 <= nt.(ntf_fd) -> km_fs_check_for_dups_nolock s nt.(ntf_fd) < 0 ->
  wp False (km_fs_recover_open_file ptr len)
    (fun _ s' => s'.(nfdmap) = s.(nfdmap) /\ s'.(light_snap_accept_timeout) = s.(light_snap_accept_timeout)
       /\ (file_at s' nt.(ntf_fd) = file_at s nt.(ntf_fd) \/ nt.(ntf_fd) < s.(nfdmap) /\ (file_at s' nt.(ntf_fd)).(inuse) = true /\ (file_at s' nt.(ntf_fd)).(ofd) = int32 nt.(ntf_data))) s.
Proof.
  intros Hn Hreg Hfd Hdup. unfold km_fs_recover_open_file. rewrite Hn. unfold reg_note in Hreg.
  destruct (negb _); [apply wp_ret; auto|]. apply wp_bind, wp_get. destruct (Z.leb_spec s.(nfdmap) nt.(ntf_fd)) as [|Hlt]; [apply wp_ret; auto|].
  destruct (own_stream _ _); [apply wp_ret; auto|]. destruct (Z.leb_spec 0 (km_fs_check_for_dups_nolock s nt.(ntf_fd))); [lia|]. rewrite Hreg.
  change (S_IFREG =? S_IFSOCK) with false. change (S_IFREG =? S_IFIFO) with false. cbn iota.
  apply wp_bind, wp_sys. destruct (_ <? 0); [apply wp_ret; auto|]. apply wp_bind, wp_sys. destruct (_ <? 0); [apply wp_ret; auto|]. destruct (negb _); [apply wp_ret; auto|].
  apply wp_bind. eapply wp_mono; [apply recover_fd_entry; done|]. intros [] s1 (E1 & E2 & E3). cbn [after set_syscalls nfdmap light_snap_accept_timeout] in E1, E2.
  assert (Hpost : forall s', s'.(nfdmap) = s1.(nfdmap) -> s'.(light_snap_accept_timeout) = s1.(light_snap_accept_timeout) -> s'.(guest_files) = s1.(guest_files) ->
    s'.(nfdmap) = s.(nfdmap) /\ s'.(light_snap_accept_timeout) = s.(light_snap_accept_timeout)
    /\ (file_at s' nt.(ntf_fd) = file_at s nt.(ntf_fd) \/ nt.(ntf_fd) < s.(nfdmap) /\ (file_at s' nt.(ntf_fd)).(inuse) = true /\ (file_at s' nt.(ntf_fd)).(ofd) = int32 nt.(ntf_data))).
  { intros s' H1 H2 H3. assert (E4 : file_at s' nt.(ntf_fd) = file_at s1 nt.(ntf_fd)) by (unfold file_at; by rewrite H3). rewrite E4.
    split_and!; [congruence|congruence|]. destruct E3 as [E3|(?&?&_)]; [by left|by right]. }
  destruct (_ && _); [apply wp_bind, wp_sys; apply wp_ret|apply wp_ret]; by apply Hpost.
Qed.
End Props.

(** A regular file that was recovered at a position past the size of the table of
    descriptors cannot be closed: the position was taken for the number of the other end
    of a pair, and closing looks it up outside of the table. *)
Theorem recovered_file_close_out_of_bounds `{FdHost} ptr len nt s s' :
  read_nt_file ptr = Some nt -> reg_note nt -> 0 <= nt.(ntf_fd) -> km_fs_check_for_dups_nolock s nt.(ntf_fd) < 0 ->
  (file_at s nt.(ntf_fd)).(inuse) = false -> s.(light_snap_accept_timeout) = 0 -> 0 < s.(nfdmap) <= nt.(ntf_data) -> nt.(ntf_data) < 2 ^ 31 ->
  km_fs_recover_open_file ptr len s = Ret (0, s') -> (file_at s' nt.(ntf_fd)).(inuse) = true ->
  del_guest_fd nt.(ntf_fd) s' = Abort.
Proof.
  intros Hn Hreg Hfd Hdup Hfree Hl Hp Hpos Hrun Huse. pose proof (recover_regular ptr len nt s Hn Hreg Hfd Hdup) as Hw. unfold wp in Hw. rewrite Hrun in Hw.
  destruct Hw as (E1 & E2 & [E3|(Hlt & _ & E3)]); [congruence|]. rewrite int32_id in E3 by lia.
  unfold del_guest_fd, bind, get, km_assert, km_is_file_used. rewrite E1, E2, Hl, Huse. destruct (Z.leb_spec 0 (ntf_fd nt)); [|lia]. destruct (Z.ltb_spec (ntf_fd nt) (nfdmap s)); [|lia].
  cbn [andb negb Z.eqb]. unfold ret, file_upd, km_fd_close_dup, modify. rewrite E3. destruct (Z.eqb_spec (ntf_data nt) (-1)); [lia|]. cbn [negb]. unfold in_bounds, bind, get.
  cbn [set_guest_files set_dup_data nfdmap]. rewrite E1. destruct (Z.ltb_spec (ntf_data nt) (nfdmap s)); [lia|]. by rewrite andb_false_r.
Qed.
