(* ===== verification/Snapshot.v ===== *)
(** * Core files and snapshots: reading (km_snapshot.c, load_elf.c, km_cpu_init.c)

    km_snapshot_restore on a machine that has just been set up: the breaks, memory from
    the segments of the file, vcpus, names of mappings, the program, signal handlers,
    descriptors. *)
From S2P Require Import Prelude Machine MemGeom TopBreak MemBrk MmapRegion MmapGuest FdTable Signal Stdio Notes IoContext CoreFs CoreDump FdRecover.

(** The file: its bytes and its length. *)
Record elf_file := mk_elf { ef_bytes : Z -> Z; ef_length : Z }.
Definition read_at (f : elf_file) (off n : Z) : option (list Z) :=
  if (0 <=? off) && (off + n <=? f.(ef_length)) then Some (map (fun i => f.(ef_bytes) (off + i)) (seqZ 0 n)) else None.

Record snap := mk_snap {
  sn_m : machine; sn_mem : Z -> Z; sn_vcpus : gmap Z core_vcpu; sn_run_cnt : Z; sn_idle : list Z;
  sn_guest : payload; sn_dyn : payload; sn_note : Z; sn_acts : gmap Z km_sigaction_t; sn_fs : km_filesys; sn_ioc : iocs
}.
Definition set_m x s := mk_snap x s.(sn_mem) s.(sn_vcpus) s.(sn_run_cnt) s.(sn_idle) s.(sn_guest) s.(sn_dyn) s.(sn_note) s.(sn_acts) s.(sn_fs) s.(sn_ioc).
Definition set_mem x s := mk_snap s.(sn_m) x s.(sn_vcpus) s.(sn_run_cnt) s.(sn_idle) s.(sn_guest) s.(sn_dyn) s.(sn_note) s.(sn_acts) s.(sn_fs) s.(sn_ioc).
Definition set_vcpus x n s := mk_snap s.(sn_m) s.(sn_mem) x n s.(sn_idle) s.(sn_guest) s.(sn_dyn) s.(sn_note) s.(sn_acts) s.(sn_fs) s.(sn_ioc).
Definition set_snap_idle x n s := mk_snap s.(sn_m) s.(sn_mem) s.(sn_vcpus) n x s.(sn_guest) s.(sn_dyn) s.(sn_note) s.(sn_acts) s.(sn_fs) s.(sn_ioc).
Definition set_guest x n s := mk_snap s.(sn_m) s.(sn_mem) s.(sn_vcpus) s.(sn_run_cnt) s.(sn_idle) x s.(sn_dyn) n s.(sn_acts) s.(sn_fs) s.(sn_ioc).
Definition set_dyn x s := mk_snap s.(sn_m) s.(sn_mem) s.(sn_vcpus) s.(sn_run_cnt) s.(sn_idle) s.(sn_guest) x s.(sn_note) s.(sn_acts) s.(sn_fs) s.(sn_ioc).
Definition set_acts x s := mk_snap s.(sn_m) s.(sn_mem) s.(sn_vcpus) s.(sn_run_cnt) s.(sn_idle) s.(sn_guest) s.(sn_dyn) s.(sn_note) x s.(sn_fs) s.(sn_ioc).
Definition set_fs x s := mk_snap s.(sn_m) s.(sn_mem) s.(sn_vcpus) s.(sn_run_cnt) s.(sn_idle) s.(sn_guest) s.(sn_dyn) s.(sn_note) s.(sn_acts) x s.(sn_ioc).
Definition set_ioc x s := mk_snap s.(sn_m) s.(sn_mem) s.(sn_vcpus) s.(sn_run_cnt) s.(sn_idle) s.(sn_guest) s.(sn_dyn) s.(sn_note) s.(sn_acts) s.(sn_fs) x.

(** machine.mmaps.recovery_mode, which the descriptor table looks at too. *)
Definition set_recovery (b : bool) (s : snap) : snap := set_fs (set_fs_recovery b s.(sn_fs)) (set_m (set_recovery_mode b s.(sn_m)) s).

(** A computation on one part of the state. *)
Definition zoom {T A} (get_part : snap -> T) (put_part : T -> snap -> snap) (c : M T A) : M snap A :=
  fun s => match c (get_part s) with Ret (a, t) => Ret (a, put_part t s) | Abort => Abort | NoFuel => NoFuel end.
Definition on_machine {A} : M machine A -> M snap A := zoom sn_m set_m.
Definition on_files {A} : M km_filesys A -> M snap A := zoom sn_fs set_fs.
Definition on_iocs {A} : M iocs A -> M snap A := zoom sn_ioc set_ioc.

(** ** ELF headers *)
Definition EM_X86_64 : Z := 62.
Definition ELFMAG : list Z := [0x7f; 69; 76; 70].
Definition parse_ehdr (b : list Z) : option Elf64_Ehdr :=
  match fields (map fst (ehdr_fields (mk_ehdr [] 0 0 0 0 0 0 0 0 0 0 0 0 0))) (drop 16 b) with
  | Some [a1; a2; a3; a4; a5; a6; a7; a8; a9; a10; a11; a12; a13] => Some (mk_ehdr (take 16 b) a1 a2 a3 a4 a5 a6 a7 a8 a9 a10 a11 a12 a13)
  | _ => None
  end.
Definition parse_phdr (b : list Z) : option elf_phdr :=
  match fields (map fst (phdr_fields (mk_elf_phdr 0 0 0 0 0 0 0 0))) b with
  | Some [a1; a2; a3; a4; a5; a6; a7; a8] => Some (mk_elf_phdr a1 a2 a3 a4 a5 a6 a7 a8)
  | _ => None
  end.

(** [None]: not an ELF file for this processor; the monitor exits. *)
Definition km_open_elf_file (f : elf_file) : option Elf64_Ehdr :=
  b ← read_at f 0 SIZEOF_EHDR;
  e ← parse_ehdr b;
  if bool_decide (take 4 e.(e_ident) = ELFMAG) && bool_decide (e.(e_ident) !! 4%nat = Some 2) && bool_decide (e.(e_ident) !! 5%nat = Some 1)
     && (e.(e_machine) =? EM_X86_64) && (e.(e_version) =? 1)
  then Some e else None.
(** An entry size other than that of the structure is refused here. *)
Definition km_elf_get_phdr (f : elf_file) (e : Elf64_Ehdr) (idx : Z) : option elf_phdr :=
  if negb (e.(e_phentsize) =? SIZEOF_PHDR) then None
  else b ← read_at f (e.(e_phoff) + idx * e.(e_phentsize)) e.(e_phentsize); parse_phdr b.
Definition km_snapshot_fill_km_payload (f : elf_file) (e : Elf64_Ehdr) : option (list elf_phdr) := mapM (km_elf_get_phdr f e) (seqZ 0 e.(e_phnum)).

(** The bytes of the first note segment; [inl]: there is none, [None]: it cannot be read. *)
Fixpoint km_snapshot_read_notes (f : elf_file) (phs : list elf_phdr) : option (unit + list Z) :=
  match phs with
  | [] => Some (inl tt)
  | ph :: rest =>
      if ph.(ph_type) =? PT_NOTE then b ← read_at f ph.(ph_offset) ph.(ph_filesz); Some (inr b)
      else km_snapshot_read_notes f rest
  end.

Section Restore.
  Context `{Host} `{!GuestFiles} `{!FdHost} `{!AioHost}.

(** ** Monitor and memory *)
Definition km_ss_recover_km_monitor (ptr : list Z) (length : Z) : M snap Z :=
  match fields [4; 4; 4; 4; 8; 8]%nat ptr with
  | Some [monitor_type; _; _; _; nbrk; ntbrk] =>
      let* s := get in
      let agree := match s.(sn_m).(vm_type) with VM_TYPE_KVM => monitor_type =? 0 | VM_TYPE_KKM => monitor_type =? 1 end in
      if negb agree then ret (-1)
      else
        let* r := on_machine (km_mem_brk nbrk) in
        if negb (r =? nbrk) then abort
        else
          let* tbrk_gva := on_machine (km_mem_tbrk 0) in
          let* p := on_machine (km_guest_mmap 0 (u64 (tbrk_gva - ntbrk)) PROT_NONE (Z.lor MAP_PRIVATE MAP_ANONYMOUS) (-1) 0) in
          if negb (p =? ntbrk) then abort else ret 0
  | _ => abort
  end.

Definition prot_elf_to_mmap (p_flags : Z) : Z :=
  let fl := if negb (Z.land p_flags PF_R =? 0) then PROT_READ else 0 in
  let fl := if negb (Z.land p_flags PF_W =? 0) then Z.lor fl PROT_WRITE else fl in
  if negb (Z.land p_flags PF_X =? 0) then Z.lor fl PROT_EXEC else fl.

(** A private mapping of the file: whole pages, from a page of the file. *)
Definition map_file (f : elf_file) (kma len off : Z) (mem : Z -> Z) : Z -> Z :=
  fun a => if (kma <=? a) && (a <? kma + roundup len KM_PAGE_SIZE) then f.(ef_bytes) (off + (a - kma)) else mem a.
Definition host_map_file (f : elf_file) (kma : option Z) (len prot off : Z) : M snap unit :=
  match kma with
  | None => abort
  | Some kma =>
      let* r := on_machine (hcall (H_mmap kma len prot (Z.lor MAP_PRIVATE MAP_FIXED) 0 off)) in
      if r <? 0 then abort else modify (fun s => set_mem (map_file f kma len off s.(sn_mem)) s)
  end.

Definition recover_segment (f : elf_file) (tbrk_gva : Z) (ph : elf_phdr) : M snap unit :=
  let* s := get in
  let m := s.(sn_m) in
  if negb (ph.(ph_type) =? PT_LOAD) then ret tt
  else if km_vdso_gva m ph.(ph_vaddr) || km_guestmem_gva m ph.(ph_vaddr) then ret tt
  else if m.(brk) <=? ph.(ph_vaddr) then
    if u64 (ph.(ph_vaddr) + ph.(ph_filesz)) <=? tbrk_gva then
      let prot := prot_elf_to_mmap ph.(ph_flags) in
      let* rc := on_machine (km_guest_mprotect ph.(ph_vaddr) ph.(ph_filesz) prot) in
      if negb (rc =? 0) then abort
      else let* s := get in host_map_file f (km_gva_to_kma s.(sn_m) ph.(ph_vaddr)) ph.(ph_filesz) prot ph.(ph_offset)
    else ret tt
  else
    let extra := ph.(ph_vaddr) - rounddown ph.(ph_vaddr) KM_PAGE_SIZE in
    host_map_file f (km_gva_to_kma m (ph.(ph_vaddr) - extra)) (u64 (ph.(ph_filesz) + extra)) (prot_elf_to_mmap ph.(ph_flags)) (u64 (ph.(ph_offset) - extra)).
Fixpoint km_ss_recover_memory (f : elf_file) (tbrk_gva : Z) (phs : list elf_phdr) : M snap unit :=
  match phs with
  | [] => ret tt
  | ph :: rest => recover_segment f tbrk_gva ph ;;; km_ss_recover_memory f tbrk_gva rest
  end.

(** ** Vcpus *)
Definition regs_zero : kvm_regs_t := mk_regs 0 0 0 0 0 0 0 0 0 0 0 0 0 0 0 0 0 0.
Definition vcpu_zero (id : Z) : core_vcpu := mk_cv id regs_zero 0 0 0 0 0 0 0 0 0 0 0 0 0 0 0 0 0 0 None.
(** The vcpu in a slot of its own; [None]: it is taken or there is none such.  KVM is
    taken to make the vcpu. *)
Definition km_vcpu_restore (tid : Z) : M snap (option Z) :=
  let slot := tid - 1 in
  if (slot <? 0) || (KVM_MAX_VCPUS <=? slot) then ret None
  else
    let* s := get in
    match s.(sn_vcpus) !! slot with
    | Some _ => ret None
    | None => modify (set_vcpus (<[slot := vcpu_zero slot]> s.(sn_vcpus)) (s.(sn_run_cnt) + 1)) ;;; ret (Some slot)
    end.

(** The second of two assignments to a register counts. *)
Definition regs_of (l : list Z) : option (kvm_regs_t * (Z * Z * Z * Z * Z * Z)) :=
  match l with
  | [a15; a14; a13; a12; abp; abx; a11; a10; a9; a8; _; acx; adx; asi; adi; aax; aip; acs; afl; asp; ass; _; _; ads; aes; afs; ags] =>
      Some (mk_regs aax abx acx adx asi adi asp abp a8 a9 a10 a11 a12 a13 a14 a15 aip afl, (acs, ass, afs, ags, ads, aes))
  | _ => None
  end.
Definition PRSTATUS_WIDTHS : list nat := [4; 4; 4; 2; 2; 8; 8; 4; 4; 4; 4]%nat ++ replicate 8 8%nat ++ replicate 27 8%nat ++ [4; 4]%nat.
Definition km_ss_recover_prstatus (ptr : list Z) (length : Z) : M snap Z :=
  if length <? Z.of_nat SIZEOF_PRSTATUS then ret (-1)
  else
    match fields PRSTATUS_WIDTHS ptr with
    | None => abort
    | Some vs =>
        match vs !! 7%nat, regs_of (take 27 (drop 19 vs)) with
        | Some pid, Some (r, (cs, ss, fs, gs, ds, es)) =>
            let* slot := km_vcpu_restore (int32 pid) in
            match slot with
            | None => abort
            | Some slot =>
                modify (fun s => set_vcpus (<[slot := mk_cv slot r cs ss fs gs ds es 0 0 0 0 0 0 0 0 0 0 0 0 None]> s.(sn_vcpus)) s.(sn_run_cnt) s) ;;;
                ret 0
            end
        | _, _ => abort
        end
    end.

(** Floating point data of an unknown format is left out, with a warning; [length] is
    what remains of it. *)
Definition km_vmdriver_restore_fpstate (fp_format : Z) (data : list Z) (size : nat) : option (list Z) :=
  if (fp_format =? NT_KM_VCPU_FPDATA_KVM_FPU) || (fp_format =? NT_KM_VCPU_FPDATA_KVM_XSAVE) || (fp_format =? NT_KM_VCPU_FPDATA_KKM_XSAVE)
  then Some (take size data) else None.
Definition km_ss_recover_vcpu_info (xsave : bool) (ptr : list Z) (length : Z) : M snap Z :=
  if length <? Z.of_nat SIZEOF_NT_VCPU then ret (-1)
  else
    match fields [4; 4; 8; 8; 8; 8; 8; 4; 4; 8; 8; 8; 8; 2; 2; 4]%nat ptr with
    | Some [id; _; stack_top; guest_thr; sct; cct; sp; fl; _; sz; mb; ms; hcarg; hc; restart; fp_format] =>
        let* s := get in
        match s.(sn_vcpus) !! id with
        | None => abort
        | Some v =>
            let fp := km_vmdriver_restore_fpstate fp_format (drop SIZEOF_NT_VCPU ptr) (km_vmdriver_fpstate_size s.(sn_m).(vm_type) xsave) in
            modify (set_vcpus (<[id := mk_cv v.(cv_id) v.(cv_regs) v.(cv_cs) v.(cv_ss) v.(cv_fs) v.(cv_gs) v.(cv_ds) v.(cv_es)
                                         stack_top guest_thr sct cct sp fl sz mb ms hcarg hc restart fp]> s.(sn_vcpus)) s.(sn_run_cnt)) ;;;
            ret 0
        end
    | _ => abort
    end.
Definition km_ss_recover_vcpus (xsave : bool) (notebuf : list Z) : M snap Z :=
  let* rc := km_snapshot_notes_apply km_ss_recover_prstatus notebuf NT_PRSTATUS in
  if negb (rc =? 0) then ret rc else km_snapshot_notes_apply (km_ss_recover_vcpu_info xsave) notebuf NT_KM_VCPU.

(** ** Mappings and programs *)
Fixpoint set_names (n : nat) (current names : list Z) : M snap unit :=
  match n with
  | O => ret tt
  | S n' =>
      match fields [8; 8; 8]%nat current with
      | Some [base; limit; _] =>
          let* s := get in
          (if s.(sn_m).(brk) <=? limit then on_machine (km_mmap_set_filename base limit (string_of_bytes (cstr names))) else ret tt) ;;;
          set_names n' (drop 24 current) (drop (length (cstr names) + 1) names)
      | _ => abort
      end
  end.
Definition km_ss_recover_file_maps (ptr : list Z) (length : Z) : M snap Z :=
  match fields [8; 8]%nat ptr with
  | Some [nfile; _] => set_names (Z.to_nat nfile) (drop 16 ptr) (drop (16 + 24 * Z.to_nat nfile) ptr) ;;; ret 0
  | _ => abort
  end.

Fixpoint parse_phdrs (n : nat) (b : list Z) : option (list elf_phdr) :=
  match n with
  | O => Some []
  | S n' => ph ← parse_phdr b; rest ← parse_phdrs n' (drop 56 b); Some (ph :: rest)
  end.
(** Header, program headers and name; [old]: the payload as it was. *)
Definition parse_payload (b : list Z) (load_adjust dlopen : Z) : option payload :=
  e ← parse_ehdr b;
  phs ← parse_phdrs (Z.to_nat e.(e_phnum)) (drop 64 b);
  Some (mk_pl e phs dlopen load_adjust (Some (cstr (drop (64 + 56 * Z.to_nat e.(e_phnum)) b)))).
Definition km_ss_recover_payload (ptr : list Z) (old : payload) : option payload :=
  match fields [8]%nat ptr with Some [adj] => parse_payload (drop 8 ptr) adj old.(pl_dlopen) | _ => None end.
Definition km_ss_recover_payloadv (ptr : list Z) : option payload :=
  match fields [4; 4; 8; 8]%nat ptr with Some [_; _; adj; dlopen] => parse_payload (drop 24 ptr) adj dlopen | _ => None end.

Definition km_ss_recover_guest (ptr : list Z) (length : Z) : M snap Z :=
  let* s := get in
  if negb (s.(sn_note) =? 0) then ret 0
  else match km_ss_recover_payload ptr s.(sn_guest) with Some p => modify (set_guest p NT_KM_GUEST) ;;; ret 0 | None => abort end.
Definition km_ss_recover_guestv (ptr : list Z) (length : Z) : M snap Z :=
  let* s := get in
  if negb (s.(sn_note) =? 0) then ret 0
  else match km_ss_recover_payloadv ptr with Some p => modify (set_guest p NT_KM_GUESTV) ;;; ret 0 | None => abort end.
Definition km_ss_recover_dynlinker (ptr : list Z) (length : Z) : M snap Z :=
  let* s := get in
  match km_ss_recover_payload ptr s.(sn_dyn) with Some p => modify (set_dyn p) ;;; ret 0 | None => abort end.

Definition sig_recover (ptr : list Z) (length : Z) : M snap Z :=
  match fields [4; 4; 8; 4; 4; 8]%nat ptr with
  | Some [size; signo; hd; fl; mask; rest] =>
      let* s := get in
      match km_sig_snapshot_recover (mk_sighand size (int32 signo) hd mask fl rest) s.(sn_acts) with
      | None => ret (-1)
      | Some acts => modify (set_acts acts) ;;; ret 0
      end
  | _ => abort
  end.

(** ** Slots without a vcpu below the last one get an idle one *)
Fixpoint fill_slots (l : list Z) : M snap unit :=
  match l with
  | [] => ret tt
  | i :: rest =>
      let* s := get in
      (match s.(sn_vcpus) !! i with
       | Some _ => ret tt
       | None =>
           let* r := km_vcpu_restore (i + 1) in
           match r with
           | None => abort
           | Some _ => modify (fun s => set_snap_idle (i :: s.(sn_idle)) (s.(sn_run_cnt) - 1) s)
           end
       end) ;;;
      fill_slots rest
  end.
Definition top_vcpu (s : snap) : Z := foldr (fun i top => if bool_decide (is_Some (s.(sn_vcpus) !! i)) then Z.max top i else top) (-1) (seqZ 0 KVM_MAX_VCPUS).

(** ** The whole; the result is 0 *)
Definition apply_or_exit (func : list Z -> Z -> M snap Z) (notebuf : list Z) (type : Z) : M snap unit :=
  let* rc := km_snapshot_notes_apply func notebuf type in if rc <? 0 then abort else ret tt.

Definition km_snapshot_restore (f : elf_file) (xsave : bool) : M snap Z :=
  let* s := get in
  let tbrk_gva := s.(sn_m).(tbrk) in
  match e ← km_open_elf_file f; phs ← km_snapshot_fill_km_payload f e; Some phs with
  | None => abort
  | Some phs =>
      modify (set_recovery true) ;;;
      match km_snapshot_read_notes f phs with
      | Some (inr notebuf) =>
          apply_or_exit km_ss_recover_km_monitor notebuf NT_KM_MONITOR ;;;
          km_ss_recover_memory f tbrk_gva phs ;;;
          let* rc := km_ss_recover_vcpus xsave notebuf in
          if rc <? 0 then abort
          else
            apply_or_exit km_ss_recover_file_maps notebuf NT_FILE ;;;
            apply_or_exit km_ss_recover_guestv notebuf NT_KM_GUESTV ;;;
            apply_or_exit km_ss_recover_guest notebuf NT_KM_GUEST ;;;
            apply_or_exit km_ss_recover_dynlinker notebuf NT_KM_DYNLINKER ;;;
            apply_or_exit sig_recover notebuf NT_KM_SIGHAND ;;;
            on_files (km_fs_recover notebuf) ;;;
            apply_or_exit (fun p l => on_iocs (km_fs_recover_iocontexts p l)) notebuf NT_KM_IOCONTEXTS ;;;
            let* s := get in
            fill_slots (seqZ 0 (top_vcpu s)) ;;;
            modify (set_recovery false) ;;;
            ret 0
      | _ => abort
      end
  end.
End Restore.
