(* ===== verification/CoreProps.v ===== *)
(** * The file of a core dump (proofs)

    Where the writer puts the headers, the notes and each segment of memory, and that
    the headers say so. *)
From S2P Require Import Prelude Machine MemGeom MmapGuest FdTable Signal Stdio Notes IoContext CoreFs CoreDump.

(** Bytes of a source in the file from an offset on. *)
Definition holds_at (f : Z -> Z) (off : Z) (src : Z -> Z) (n : Z) : Prop := forall i, 0 <= i < n -> f (off + i) = src i.
Definition holds_bytes (f : Z -> Z) (off : Z) (b : list Z) : Prop := forall i v, b !! i = Some v -> f (off + Z.of_nat i) = v.

(** Later writes go behind the earlier ones. *)
Record after_write (n : Z) (src : Z -> Z) (d d' : dump) : Prop := {
  aw_pos : d'.(d_pos) = d.(d_pos) + n;
  aw_new : holds_at d'.(d_file) d.(d_pos) src n;
  aw_old : forall o, o < d.(d_pos) -> d'.(d_file) o = d.(d_file) o;
  aw_queue : d'.(d_queue) = d.(d_queue);
}.
Record grown (d d' : dump) : Prop := {
  gr_pos : d.(d_pos) <= d'.(d_pos);
  gr_old : forall o, o < d.(d_pos) -> d'.(d_file) o = d.(d_file) o;
}.

Lemma grown_refl d : grown d d.
Proof. by split. Qed.
Lemma grown_trans d1 d2 d3 : grown d1 d2 -> grown d2 d3 -> grown d1 d3.
Proof. intros [H1 H2] [H4 H5]. split; [lia|]. intros o Ho. rewrite H5 by lia. by apply H2. Qed.
Lemma after_grown n src d d' : 0 <= n -> after_write n src d d' -> grown d d'.
Proof. intros Hn [H1 H2 H3 H4]. split; [lia|done]. Qed.
Lemma holds_at_grown d d' off src n : grown d d' -> off + n <= d.(d_pos) -> holds_at d.(d_file) off src n -> holds_at d'.(d_file) off src n.
Proof. intros [H1 H2] Hp Hh i Hi. rewrite H2 by lia. by apply Hh. Qed.
Lemma holds_bytes_grown d d' off b : grown d d' -> off + Z.of_nat (length b) <= d.(d_pos) -> holds_bytes d.(d_file) off b -> holds_bytes d'.(d_file) off b.
Proof. intros [H1 H2] Hp Hh i v Hi. rewrite H2; [by apply Hh|]. apply lookup_lt_Some in Hi. lia. Qed.
Lemma holds_at_bytes f off b : holds_at f off (fun i => nth (Z.to_nat i) b 0) (Z.of_nat (length b)) -> holds_bytes f off b.
Proof. intros Hh i v Hi. rewrite Hh by (apply lookup_lt_Some in Hi; lia). rewrite Nat2Z.id. by apply nth_lookup_Some. Qed.
Lemma holds_bytes_app f off b1 b2 : holds_bytes f off b1 -> holds_bytes f (off + Z.of_nat (length b1)) b2 -> holds_bytes f off (b1 ++ b2).
Proof.
  intros H1 H2 i v Hi. apply lookup_app_Some in Hi as [Hi|[Hl Hi]]; [by apply H1|]. apply H2 in Hi. rewrite <- Hi. f_equal. lia.
Qed.
Create HintDb core_file.
#[export] Hint Resolve grown_refl grown_trans : core_file.

(** A host that takes some of what it is given, and seeks; the errno of a call that
    failed is not 0. *)
Record host_writes `{CoreHost} : Prop := {
  hw_write : forall k n, 0 < n -> 1 <= ch_write k n <= n;
  hw_seek : forall k n, 0 <= ch_lseek k n;
  hw_mprotect : forall a n p, 0 <= ch_mprotect a n p;
  hw_fstat : forall fd, ch_fstat fd <> inl 0;
  hw_fdinfo : forall fd, ch_fdinfo fd <> inl 0;
}.

Section Write.
  Context `{CoreHost} (Hw : host_writes).

Lemma write_mem_loop_ok fuel src cur remain g d :
  0 <= remain -> (Z.to_nat remain < fuel)%nat ->
  wp False (write_mem_loop fuel src cur remain g) (fun rc d' => rc = 0 /\ after_write remain (fun i => src (cur + i)) d d') d.
Proof.
  revert cur remain d. induction fuel as [|fuel IH]; intros cur remain d Hr Hf; [lia|]. cbn [write_mem_loop].
  destruct (Z.eqb_spec remain 0) as [->|Hne].
  { apply wp_ret. split; [done|]. split; [lia| |done|done]. intros i Hi. lia. }
  apply wp_bind, wp_get. apply wp_bind, wp_modify.
  destruct (hw_write Hw d.(d_calls) remain ltac:(lia)) as [H1 H2]. set (r := ch_write d.(d_calls) remain) in *.
  destruct (Z.ltb_spec r 0); [lia|]. apply wp_bind, wp_modify. set (d1 := set_file _ _ _).
  eapply wp_mono; [apply (IH (cur + r) (remain - r) d1); lia|]. intros rc d' (-> & [E1 E2 E3 E4]). split; [done|].
  cbn [d1 set_file called d_file d_pos d_queue] in *. split; [lia| | |done].
  - intros i Hi. destruct (Z.ltb_spec i r).
    + rewrite E3 by lia. unfold file_put. destruct (Z.leb_spec (d_pos d) (d_pos d + i)); [|lia].
      destruct (Z.ltb_spec (d_pos d + i) (d_pos d + r)); [|lia]. cbn [andb]. do 2 f_equal. lia.
    + specialize (E2 (i - r) ltac:(lia)). replace (d_pos d + r + (i - r)) with (d_pos d + i) in E2 by lia. rewrite E2. f_equal. lia.
  - intros o Ho. rewrite E3 by lia. unfold file_put. destruct (Z.leb_spec (d_pos d) o); [lia|done].
Qed.

Lemma write_mem_ok src n g d : 0 <= n -> wp False (km_core_write_mem src n g) (fun rc d' => rc = 0 /\ after_write n src d d') d.
Proof.
  intros Hn. eapply wp_mono; [apply write_mem_loop_ok; lia|]. intros rc d' [-> [E1 E2 E3 E4]]. split; [done|]. split; [done| |done|done].
  intros i Hi. by rewrite E2.
Qed.

Lemma core_write_ok b d :
  wp False (km_core_write b) (fun rc d' => rc = 0 /\ d'.(d_pos) = d.(d_pos) + Z.of_nat (length b) /\ holds_bytes d'.(d_file) d.(d_pos) b /\ grown d d' /\ d'.(d_queue) = d.(d_queue)) d.
Proof.
  eapply wp_mono; [apply write_mem_ok; lia|]. intros rc d' [-> Ha]. split_and!; [done|apply Ha|by apply holds_at_bytes, Ha| |apply Ha].
  eapply after_grown; [|exact Ha]. lia.
Qed.
End Write.

(** ** Segments *)
Record seg := mk_seg { sg_base : Z; sg_len : Z; sg_flags : Z }.
Definition pages (n : Z) : Z := roundup n KM_PAGE_SIZE.
Definition LIMIT : Z := 2 ^ 62.

Lemma pages_bounds n : 0 <= n < LIMIT -> n <= pages n < n + 4096 /\ pages n mod 4096 = 0.
Proof. intros Hn. apply (roundup_bounds n KM_PAGE_SIZE); unfold KM_PAGE_SIZE, two64, LIMIT in *; lia. Qed.
Lemma pages_mono a b : 0 <= a -> a <= b -> b < LIMIT -> pages a <= pages b.
Proof.
  intros Ha Hab Hb. destruct (pages_bounds a) as [P1 P2]; [lia|]. destruct (pages_bounds b) as [P3 P4]; [lia|].
  pose proof (Z.div_mod (pages a) 4096). pose proof (Z.div_mod (pages b) 4096). lia.
Qed.
Lemma pages_aligned n : 0 <= n < LIMIT -> n mod 4096 = 0 -> pages n = n.
Proof. intros Hn Ha. destruct (pages_bounds n Hn) as [H1 H2]. pose proof (Z.div_mod n 4096). pose proof (Z.div_mod (pages n) 4096). lia. Qed.
Lemma pages_add a n : 0 <= a -> 0 <= n -> a + n < LIMIT -> a mod 4096 = 0 -> pages (a + n) = a + pages n.
Proof.
  intros Ha Hn Hl Hm. destruct (pages_bounds (a + n)) as [H1 H2]; [lia|]. destruct (pages_bounds n) as [H3 H4]; [lia|].
  pose proof (Z.div_mod a 4096). pose proof (Z.div_mod (pages n) 4096). pose proof (Z.div_mod (pages (a + n)) 4096). lia.
Qed.

(** The offsets of segments behind [offset]. *)
Fixpoint seg_offsets (offset : Z) (segs : list seg) : list Z :=
  match segs with [] => [] | s :: rest => pages offset :: seg_offsets (pages offset + s.(sg_len)) rest end.
Fixpoint seg_end (offset : Z) (segs : list seg) : Z :=
  match segs with [] => offset | s :: rest => seg_end (pages offset + s.(sg_len)) rest end.
Definition seg_phdr (o : Z) (s : seg) : elf_phdr := load_phdr o s.(sg_base) s.(sg_len) s.(sg_flags).
Definition seg_phdrs (offset : Z) (segs : list seg) : list elf_phdr := zip_with seg_phdr (seg_offsets offset segs) segs.
(** No file is as long as that. *)
Definition total (segs : list seg) : Z := foldr (fun s n => s.(sg_len) + 8192 + n) 0 segs.
Definition lens_ok (segs : list seg) : Prop := Forall (fun s => 0 <= s.(sg_len)) segs.

Lemma total_nonneg segs : lens_ok segs -> 0 <= total segs.
Proof. induction 1 as [|s segs Hs _ IH]; [done|]. unfold total in *. cbn [foldr]. lia. Qed.
Lemma length_seg_offsets o segs : length (seg_offsets o segs) = length segs.
Proof. revert o. induction segs as [|s segs IH]; intros o; cbn; [done|]. by rewrite IH. Qed.

Lemma seg_offsets_app o l1 l2 : seg_offsets o (l1 ++ l2) = seg_offsets o l1 ++ seg_offsets (seg_end o l1) l2.
Proof. revert o. induction l1 as [|s l1 IH]; intros o; cbn; [done|]. by rewrite IH. Qed.
Lemma seg_end_app o l1 l2 : seg_end o (l1 ++ l2) = seg_end (seg_end o l1) l2.
Proof. revert o. induction l1 as [|s l1 IH]; intros o; cbn; [done|]. by rewrite IH. Qed.
Lemma seg_phdrs_app o l1 l2 : seg_phdrs o (l1 ++ l2) = seg_phdrs o l1 ++ seg_phdrs (seg_end o l1) l2.
Proof. unfold seg_phdrs. rewrite seg_offsets_app, zip_with_app by (by rewrite length_seg_offsets). done. Qed.

(** Only the page an offset lies in counts. *)
Lemma seg_offsets_pages o segs : 0 <= o < LIMIT - 8192 -> seg_offsets (pages o) segs = seg_offsets o segs.
Proof.
  intros Ho. destruct segs as [|s segs]; [done|]. cbn. destruct (pages_bounds o) as [H1 H2]; [lia|]. rewrite pages_aligned by (done || lia). done.
Qed.

Section Segments.
  Context `{CoreHost} (Hw : host_writes) (im : image).
Let m := im.(im_machine).

(** Addresses of a segment are consecutive for the monitor. *)
Definition linear (s : seg) : Prop :=
  forall k, 0 <= k < pages s.(sg_len) -> km_gva_to_kma_nocheck m (s.(sg_base) + k) = km_gva_to_kma_nocheck m s.(sg_base) + k.
Definition seg_src (s : seg) (i : Z) : Z := im.(im_mem) (km_gva_to_kma_nocheck m s.(sg_base) + i).

Lemma guestmem_loop_ok fuel s done_ remain d :
  linear s -> 0 <= done_ -> 0 <= remain -> done_ + remain = pages s.(sg_len) -> remain <= (Z.of_nat fuel - 1) * MIB ->
  wp False (guestmem_loop im fuel (s.(sg_base) + done_) remain)
    (fun rc d' => rc = 0 /\ after_write remain (fun i => seg_src s (done_ + i)) d d') d.
Proof.
  intros Hlin. revert done_ remain d. induction fuel as [|fuel IH]; intros done_ remain d Hd Hr Ht Hf; [unfold MIB in Hf; lia|]. cbn [guestmem_loop].
  destruct (Z.eqb_spec remain 0) as [->|Hne].
  { apply wp_ret. split; [done|]. split; [lia|intros i Hi; lia|done|done]. }
  assert (HM : MIB = 1048576) by done. set (wsz := Z.min remain MIB).
  assert (Hwsz : 0 < wsz <= remain /\ remain - wsz <= (Z.of_nat fuel - 1) * MIB) by (unfold wsz; rewrite HM in *; lia). clearbody wsz. apply wp_bind. eapply wp_mono; [apply (write_mem_ok Hw); lia|].
  intros rc d1 (-> & [A1 A2 A3 A4]). cbn [negb Z.eqb]. replace (sg_base s + done_ + wsz) with (sg_base s + (done_ + wsz)) by lia.
  eapply wp_mono; [apply (IH (done_ + wsz) (remain - wsz) d1); lia|]. intros rc d' (-> & [B1 B2 B3 B4]). split; [done|].
  split; [lia| | |congruence].
  - intros i Hi. destruct (Z.ltb_spec i wsz).
    + rewrite B3 by lia. rewrite A2 by lia. unfold seg_src. fold m. rewrite Hlin by lia. f_equal. lia.
    + specialize (B2 (i - wsz) ltac:(lia)). replace (d_pos d1 + (i - wsz)) with (d_pos d + i) in B2 by lia. rewrite B2. f_equal. lia.
  - intros o Ho. rewrite B3 by lia. by apply A3.
Qed.

(** A segment is written from the next page boundary on. *)
Lemma guestmem_write_ok s d :
  linear s -> 0 <= s.(sg_len) < LIMIT -> 0 <= d.(d_pos) < LIMIT ->
  wp False (km_guestmem_write im s.(sg_base) s.(sg_len))
    (fun rc d' => rc = 0 /\ d'.(d_pos) = pages d.(d_pos) + pages s.(sg_len) /\ holds_at d'.(d_file) (pages d.(d_pos)) (seg_src s) (pages s.(sg_len)) /\ grown d d') d.
Proof.
  intros Hlin Hs Hp. unfold km_guestmem_write. fold (pages s.(sg_len)). destruct (pages_bounds _ Hs) as [P1 _]. destruct (pages_bounds _ Hp) as [P2 _].
  apply wp_bind, wp_get. apply wp_bind, wp_modify. destruct (Z.ltb_spec (ch_lseek d.(d_calls) 0) 0) as [Hn|_]; [pose proof (hw_seek Hw d.(d_calls) 0); lia|].
  fold (pages d.(d_pos)). set (d1 := called d).
  assert (Hmove : wp False (if d.(d_pos) =? pages d.(d_pos) then ret 0
       else (let* d := get in modify called ;;; if ch_lseek d.(d_calls) (pages (d_pos d1)) <? 0 then ret (- ch_lseek d.(d_calls) (pages (d_pos d1))) else modify (fun d => set_file d.(d_file) (pages (d_pos d1)) d) ;;; ret 0))
      (fun rc d' => rc = 0 /\ d'.(d_pos) = pages d.(d_pos) /\ d'.(d_file) = d.(d_file) /\ d'.(d_queue) = d.(d_queue)) d1).
  { destruct (Z.eqb_spec d.(d_pos) (pages d.(d_pos))) as [E|_]; [apply wp_ret; by split_and!|]. apply wp_bind, wp_get. apply wp_bind, wp_modify.
    destruct (Z.ltb_spec (ch_lseek d1.(d_calls) (pages (d_pos d1))) 0) as [Hn|_]; [pose proof (hw_seek Hw d1.(d_calls) (pages (d_pos d1))); lia|].
    apply wp_bind, wp_modify. apply wp_ret. by split_and!. }
  apply wp_bind. eapply wp_mono; [exact Hmove|]. intros rc d2 (-> & E1 & E2 & E3). cbn [negb Z.eqb].
  assert (HM : MIB = 1048576) by done. replace s.(sg_base) with (s.(sg_base) + 0) at 1 by lia. eapply wp_mono; [apply (guestmem_loop_ok _ s 0 (pages s.(sg_len)) d2 Hlin); try lia|].
  { pose proof (Z.div_mod (pages s.(sg_len)) MIB). pose proof (Z.mod_pos_bound (pages s.(sg_len)) MIB).
    assert (0 <= pages s.(sg_len) / MIB) by (apply Z.div_pos; lia). rewrite Nat2Z.inj_succ, Z2Nat.id by lia. lia. }
  intros rc d' (-> & [A1 A2 A3 A4]). split_and!; [done|lia| |].
  - intros i Hi. rewrite <- E1, A2 by done. done.
  - split; [lia|]. intros o Ho. rewrite A3 by lia. by rewrite E2.
Qed.

Definition payload_segs (p : payload) (phs : list elf_phdr) (end_load : Z) : list seg :=
  map (fun ph => mk_seg (seg_base p ph) (seg_size im ph end_load) ph.(ph_flags)) phs.
Definition mmap_segs (l : list km_mmap_reg) : list seg :=
  map (fun r => mk_seg r.(start) r.(size) (mmap_to_elf_flags r.(protection))) (List.filter dumped l).

(** ** Headers *)
Definition hdr_post (segs : list seg) (offset : Z) (d d' : dump) : Prop :=
  d'.(d_pos) = d.(d_pos) + 56 * Z.of_nat (length segs) /\ holds_bytes d'.(d_file) d.(d_pos) (flat_map phdr_bytes (seg_phdrs offset segs)) /\ grown d d'.

Lemma length_phdr_bytes ph : length (phdr_bytes ph) = 56%nat.
Proof. unfold phdr_bytes. by rewrite length_put. Qed.

Lemma hdr_post_nil offset d : hdr_post [] offset d d.
Proof. split_and!; [cbn; lia|intros i v Hi; done|apply grown_refl]. Qed.

(** One header and those behind it. *)
Lemma hdr_post_cons s segs offset d d1 d' :
  d1.(d_pos) = d.(d_pos) + 56 -> holds_bytes d1.(d_file) d.(d_pos) (phdr_bytes (seg_phdr (pages offset) s)) -> grown d d1 ->
  hdr_post segs (pages offset + s.(sg_len)) d1 d' -> hdr_post (s :: segs) offset d d'.
Proof.
  intros P1 B1 G1 (P2 & B2 & G2). split_and!; [cbn [length]; lia| |by eapply grown_trans].
  change (seg_phdrs offset (s :: segs)) with (seg_phdr (pages offset) s :: seg_phdrs (pages offset + s.(sg_len)) segs). cbn [flat_map].
  apply holds_bytes_app; rewrite ?length_phdr_bytes.
  - eapply holds_bytes_grown; [exact G2|rewrite length_phdr_bytes; lia|done].
  - replace (d_pos d + Z.of_nat 56) with (d_pos d1) by lia. done.
Qed.

Lemma load_header_ok offset s d :
  wp False (km_core_write_load_header offset s.(sg_base) s.(sg_len) s.(sg_flags))
    (fun rc d' => rc = 0 /\ d'.(d_pos) = d.(d_pos) + 56 /\ holds_bytes d'.(d_file) d.(d_pos) (phdr_bytes (seg_phdr offset s)) /\ grown d d') d.
Proof. eapply wp_mono; [apply (core_write_ok Hw)|]. intros rc d' (-> & P & B & G & _). rewrite length_phdr_bytes in P. by split_and!. Qed.

Lemma write_payload_phdrs_ok p phs end_load offset d :
  wp False (write_payload_phdrs im p phs end_load offset)
    (fun r d' => r = inr (seg_end offset (payload_segs p phs end_load)) /\ hdr_post (payload_segs p phs end_load) offset d d') d.
Proof.
  revert offset d. induction phs as [|ph phs IH]; intros offset d; [apply wp_ret; split; [done|apply hdr_post_nil]|]. cbn [write_payload_phdrs].
  fold (pages offset). set (s := mk_seg (seg_base p ph) (seg_size im ph end_load) ph.(ph_flags)).
  apply wp_bind. eapply wp_mono; [apply (load_header_ok (pages offset) s)|]. intros rc d1 (-> & P & B & G). cbn [negb Z.eqb].
  eapply wp_mono; [apply IH|]. intros r d' [-> Hp]. split; [done|]. by eapply (hdr_post_cons s).
Qed.

Lemma write_mmap_phdrs_ok l offset d :
  wp False (write_mmap_phdrs l offset) (fun r d' => hdr_post (mmap_segs l) offset d d') d.
Proof.
  revert offset d. induction l as [|r l IH]; intros offset d; [apply wp_ret, hdr_post_nil|]. cbn [write_mmap_phdrs]. unfold mmap_segs. cbn [List.filter].
  destruct (dumped r); [|apply IH]. fold (pages offset). cbn [map]. set (s := mk_seg r.(start) r.(size) (mmap_to_elf_flags r.(protection))).
  apply wp_bind. eapply wp_mono; [apply (load_header_ok (pages offset) s)|]. intros rc d1 (-> & P & B & G).
  eapply wp_mono; [apply IH|]. intros r' d' Hp. by eapply (hdr_post_cons s).
Qed.

(** ** Contents *)
Definition mem_post (segs : list seg) (d d' : dump) : Prop :=
  pages d'.(d_pos) = pages (seg_end d.(d_pos) segs) /\ d'.(d_pos) <= d.(d_pos) + total segs /\ grown d d'
  /\ Forall2 (fun o s => holds_at d'.(d_file) o (seg_src s) (pages s.(sg_len)) /\ o + pages s.(sg_len) <= d'.(d_pos)) (seg_offsets d.(d_pos) segs) segs.

Lemma mem_post_nil d : mem_post [] d d.
Proof. split_and!; [done|unfold total; cbn; lia|apply grown_refl|constructor]. Qed.

Lemma mem_post_cons s segs d d1 d' :
  0 <= d.(d_pos) -> 0 <= s.(sg_len) -> lens_ok segs -> d.(d_pos) + total (s :: segs) < LIMIT - 8192 ->
  d1.(d_pos) = pages d.(d_pos) + pages s.(sg_len) -> holds_at d1.(d_file) (pages d.(d_pos)) (seg_src s) (pages s.(sg_len)) -> grown d d1 ->
  mem_post segs d1 d' -> mem_post (s :: segs) d d'.
Proof.
  intros Hp Hs Hl Ht P1 B1 G1 (P2 & T2 & G2 & F2). pose proof (total_nonneg segs Hl) as Hn. unfold total in Ht. cbn [foldr] in Ht. fold (total segs) in Ht.
  destruct (pages_bounds d.(d_pos)) as [Q1 Q2]; [lia|]. destruct (pages_bounds s.(sg_len)) as [Q3 _]; [lia|].
  assert (E : d1.(d_pos) = pages (pages d.(d_pos) + s.(sg_len))) by (rewrite pages_add by (done || lia); lia).
  assert (E2 : seg_offsets d1.(d_pos) segs = seg_offsets (pages d.(d_pos) + s.(sg_len)) segs) by (rewrite E; apply seg_offsets_pages; lia).
  assert (E3 : pages (seg_end d1.(d_pos) segs) = pages (seg_end (pages d.(d_pos) + s.(sg_len)) segs)).
  { rewrite E. destruct segs as [|s' segs']; cbn [seg_end]; [apply pages_aligned; [rewrite <- E; lia|apply pages_bounds; lia]|].
    rewrite (pages_aligned (pages (pages d.(d_pos) + s.(sg_len)))); [done|rewrite <- E; lia|apply pages_bounds; lia]. }
  split_and!.
  - rewrite P2. done.
  - unfold total. cbn [foldr]. fold (total segs). lia.
  - by eapply grown_trans.
  - cbn [seg_offsets]. constructor; [|by rewrite <- E2]. pose proof (gr_pos _ _ G2). split; [|lia].
    eapply holds_at_grown; [exact G2|lia|done].
Qed.

Definition seg_ok (s : seg) : Prop := linear s /\ 0 <= s.(sg_len).
Lemma segs_lens segs : Forall seg_ok segs -> lens_ok segs.
Proof. intros Hf. eapply Forall_impl; [exact Hf|]. by intros s [_ ?]. Qed.

(** Writing the segments one after the other. *)
Lemma write_step (c : M dump Z) s segs d (next : M dump Z) :
  seg_ok s -> Forall seg_ok segs -> 0 <= d.(d_pos) -> d.(d_pos) + total (s :: segs) < LIMIT - 8192 ->
  c = km_guestmem_write im s.(sg_base) s.(sg_len) ->
  (forall d1, 0 <= d1.(d_pos) -> d1.(d_pos) + total segs < LIMIT - 8192 -> wp False next (fun rc d' => rc = 0 /\ mem_post segs d1 d') d1) ->
  wp False (let* rc := c in if negb (rc =? 0) then ret rc else next) (fun rc d' => rc = 0 /\ mem_post (s :: segs) d d') d.
Proof.
  intros [Hlin Hs] Hf Hp Ht -> Hn. pose proof (segs_lens _ Hf) as Hl. pose proof (total_nonneg segs Hl) as Hnn.
  pose proof Ht as Ht'. unfold total in Ht'. cbn [foldr] in Ht'. fold (total segs) in Ht'.
  destruct (pages_bounds d.(d_pos)) as [Q1 _]; [lia|]. destruct (pages_bounds s.(sg_len)) as [Q3 _]; [lia|].
  apply wp_bind. eapply wp_mono; [apply guestmem_write_ok; (done || lia)|]. intros rc d1 (-> & P1 & B1 & G1). cbn [negb Z.eqb].
  eapply wp_mono; [apply Hn; lia|]. intros rc d' [-> Hm]. split; [done|]. by eapply mem_post_cons.
Qed.

Lemma write_payload_mem_ok p phs end_load d :
  Forall seg_ok (payload_segs p phs end_load) -> 0 <= d.(d_pos) -> d.(d_pos) + total (payload_segs p phs end_load) < LIMIT - 8192 ->
  wp False (write_payload_mem im p phs end_load) (fun rc d' => rc = 0 /\ mem_post (payload_segs p phs end_load) d d') d.
Proof.
  revert d. induction phs as [|ph phs IH]; intros d Hf Hp Ht; [apply wp_ret; split; [done|apply mem_post_nil]|].
  apply Forall_cons in Hf as [Hs Hf]. cbn [write_payload_mem]. eapply (write_step _ (mk_seg _ _ _)); [exact Hs|exact Hf|done|done|done|]. intros d1 ? ?. by apply IH.
Qed.

Lemma write_mmaps_ok l d :
  Forall seg_ok (mmap_segs l) -> 0 <= d.(d_pos) -> d.(d_pos) + total (mmap_segs l) < LIMIT - 8192 ->
  wp False (write_mmaps im l) (fun rc d' => rc = 0 /\ mem_post (mmap_segs l) d d') d.
Proof.
  revert d. induction l as [|r l IH]; intros d Hf Hp Ht; [apply wp_ret; split; [done|apply mem_post_nil]|].
  cbn [write_mmaps]. unfold mmap_segs in *. cbn [List.filter] in *. destruct (dumped r); [|by apply IH]. cbn [map] in *. apply Forall_cons in Hf as [Hs Hf].
  set (u := negb _ && negb _). pose proof (hw_mprotect Hw) as Hm.
  replace ((if u then ch_mprotect _ _ _ else 0) <? 0) with false by (symmetry; apply Z.ltb_ge; destruct u; [apply Hm|lia]).
  eapply (write_step _ (mk_seg _ _ _)); [exact Hs|exact Hf|done|done|done|]. intros d1 ? ?.
  replace ((if u then ch_mprotect _ _ _ else 0) <? 0) with false by (symmetry; apply Z.ltb_ge; destruct u; [apply Hm|lia]). by apply IH.
Qed.
End Segments.

(** ** The notes leave the file alone *)
Section Quiet.
  Context `{CoreHost}.

Definition quiet {A} (c : M dump A) : Prop := forall d, wp True c (fun _ d' => d'.(d_file) = d.(d_file) /\ d'.(d_pos) = d.(d_pos)) d.

Lemma quiet_ret {A} (a : A) : quiet (ret a).
Proof. intros d. by apply wp_ret. Qed.
Lemma quiet_abort {A} : quiet (A := A) abort.
Proof. done. Qed.
Lemma quiet_get : quiet get.
Proof. intros d. by apply wp_get. Qed.
Lemma quiet_assert b : quiet (km_assert b).
Proof. intros d. by destruct b. Qed.
Lemma quiet_called : quiet (modify called).
Proof. intros d. by apply wp_modify. Qed.
Lemma quiet_queue f : quiet (modify (fun d => set_queue (f d) d)).
Proof. intros d. by apply wp_modify. Qed.
Lemma quiet_queue_at q : quiet (modify (set_queue q)).
Proof. intros d. by apply wp_modify. Qed.
Lemma quiet_on_pipes f : quiet (on_pipes f).
Proof. intros d. by apply wp_modify. Qed.
Lemma quiet_bind {A B} (c : M dump A) (k : A -> M dump B) : quiet c -> (forall a, quiet (k a)) -> quiet (bind c k).
Proof.
  intros Hc Hk d. apply wp_bind. eapply wp_mono; [apply Hc|]. intros a d1 [<- <-]. eapply wp_mono; [apply Hk|]. by intros b d2 [-> ->].
Qed.
End Quiet.
#[export] Hint Resolve quiet_ret quiet_abort quiet_get quiet_assert quiet_called quiet_queue quiet_queue_at quiet_on_pipes : core_file.
Ltac quiet := repeat first [progress intros | solve [eauto 2 with core_file nocore] | apply quiet_bind | case_match].

Section NotesQuiet.
  Context `{CoreHost}.

Lemma quiet_fionread fd : quiet (ioctlfionread fd).
Proof. unfold ioctlfionread. quiet. Qed.
Lemma quiet_full_read left fd got want : quiet (full_read left fd got want).
Proof. revert got. induction left as [|left IH]; intros got; cbn [full_read]; quiet. Qed.
Lemma quiet_full_write left fd buf : quiet (full_write left fd buf).
Proof. revert buf. induction left as [|left IH]; intros buf; cbn [full_write]; quiet. Qed.
Lemma quiet_save room file fd n : quiet (fs_core_save_pipe_contents room file fd n).
Proof. unfold fs_core_save_pipe_contents, do_full_read, do_full_write. pose proof quiet_full_read. pose proof quiet_full_write. quiet. Qed.
Hint Resolve quiet_fionread quiet_save : core_file.
Lemma quiet_pipes fs fds : quiet (pipes_loop fs fds).
Proof. induction fds as [|i fds IH]; cbn [pipes_loop]; quiet. Qed.
Lemma quiet_fd_length file fd : quiet (fd_note_length file fd).
Proof. unfold fd_note_length. quiet. Qed.
Hint Resolve quiet_fd_length : core_file.
Lemma quiet_lengths fs fds : quiet (notes_length fs fds).
Proof. induction fds as [|i fds IH]; cbn [notes_length]; quiet. Qed.
Lemma quiet_notes_length im vcpu label description ty : quiet (km_core_notes_length im vcpu label description ty).
Proof. unfold km_core_notes_length, km_fs_core_notes_length. pose proof quiet_lengths. quiet. Qed.

Lemma quiet_write_fd room file fd : quiet (core_write_fd room file fd).
Proof.
  unfold core_write_fd, fs_core_write_epollfd, fs_core_write_eventfd, extract_fdinfo_field, fs_core_write_nonsocket, fs_core_write_socket. quiet.
Qed.
Lemma quiet_write_fds room fs fds : quiet (core_write_fds room fs fds).
Proof. induction fds as [|i fds IH]; cbn [core_write_fds]; pose proof quiet_write_fd; quiet. Qed.
Lemma quiet_notes im vcpu label description size ty : quiet (km_core_write_notes im vcpu label description size ty).
Proof. unfold km_core_write_notes, km_fs_core_notes_write. pose proof quiet_write_fds. quiet. Qed.

(** Counting what is queued changes nothing at all. *)
Definition still {A} (c : M dump A) : Prop := forall d, wp True c (fun _ d' => d' = d) d.
Lemma still_bind {A B} (c : M dump A) (k : A -> M dump B) : still c -> (forall a, still (k a)) -> still (bind c k).
Proof. intros Hc Hk d. apply wp_bind. eapply wp_mono; [apply Hc|]. intros a d1 ->. apply Hk. Qed.
Lemma still_ret {A} (a : A) : still (ret a).
Proof. intros d. by apply wp_ret. Qed.
Lemma still_fionread fd : still (ioctlfionread fd).
Proof. intros d. unfold ioctlfionread. destruct (ch_fionread fd); [|done]. by apply wp_bind, wp_get, wp_ret. Qed.
Hint Resolve still_bind still_ret still_fionread : core_file.
Lemma still_pipes fs fds : still (pipes_loop fs fds).
Proof. induction fds as [|i fds IH]; cbn [pipes_loop]; [apply still_ret|]. destruct (_ && _); [|done]. apply still_bind; [apply still_fionread|]. intros q. by destruct (negb _); [apply still_ret|]. Qed.
Lemma still_fd_length file fd : still (fd_note_length file fd).
Proof. unfold fd_note_length. repeat case_match; auto with core_file. done. Qed.
Lemma still_lengths fs fds : still (notes_length fs fds).
Proof. induction fds as [|i fds IH]; cbn [notes_length]; [auto with core_file|]. case_match; auto using still_fd_length with core_file. Qed.
Lemma still_notes_length im vcpu label description ty : still (km_core_notes_length im vcpu label description ty).
Proof. unfold km_core_notes_length, km_fs_core_notes_length. case_match; [|done]. apply still_bind; [case_match; auto using still_lengths with core_file|auto with core_file]. Qed.

(** A failure has an errno. *)
Definition fails_well {A} (c : M dump (Z + A)) : Prop := forall d, wp True c (fun r _ => r <> inl 0) d.
Lemma fails_inr {A} (a : A) : fails_well (ret (inr a)).
Proof. intros d. by apply wp_ret. Qed.
Lemma fails_inl {A} e : e <> 0 -> fails_well (A := A) (ret (inl e)).
Proof. intros He d. apply wp_ret. congruence. Qed.
Lemma fails_abort {A} : fails_well (A := A) abort.
Proof. done. Qed.
Lemma fails_bind {A B} (c : M dump B) (k : B -> M dump (Z + A)) : quiet c -> (forall a, fails_well (k a)) -> fails_well (bind c k).
Proof. intros Hc Hk d. apply wp_bind. eapply wp_mono; [apply Hc|]. intros a d1 _. apply Hk. Qed.
Lemma fails_then {A B} (c : M dump (Z + B)) (k : Z + B -> M dump (Z + A)) : fails_well c -> (forall a, a <> inl 0 -> fails_well (k a)) -> fails_well (bind c k).
Proof. intros Hc Hk d. apply wp_bind. eapply wp_mono; [apply Hc|]. intros a d1 Ha. by apply Hk. Qed.
End NotesQuiet.
#[export] Hint Resolve quiet_fionread quiet_save quiet_write_fd quiet_write_fds quiet_notes fails_inr fails_abort : core_file.
Ltac fails := repeat first
  [progress intros | solve [eauto 2 with core_file nocore] | apply fails_inl; first [congruence | lia | done]
  | apply fails_then; [solve [eauto 2 with core_file nocore]|] | apply fails_bind; [solve [quiet]|] | case_match; simplify_eq].

Section NotesFail.
  Context `{CoreHost} (Hw : host_writes).

Lemma fails_full_read left fd got want : fails_well (full_read left fd got want).
Proof. revert got. induction left as [|left IH]; intros got; cbn [full_read]; fails. Qed.
Lemma fails_save room file fd n : fails_well (fs_core_save_pipe_contents room file fd n).
Proof. unfold fs_core_save_pipe_contents, do_full_read. pose proof fails_full_read. pose proof quiet_full_write. unfold do_full_write. fails. Qed.
Hint Resolve fails_save : core_file.

Lemma fails_fdinfo fd name : fails_well (extract_fdinfo_field fd name).
Proof. pose proof (hw_fdinfo Hw fd). unfold extract_fdinfo_field. fails. Qed.
Hint Resolve fails_fdinfo : core_file.
Lemma fails_write_fd room file fd : fails_well (core_write_fd room file fd).
Proof.
  pose proof (hw_fstat Hw fd) as H1. unfold core_write_fd, fs_core_write_epollfd, fs_core_write_eventfd, fs_core_write_nonsocket, fs_core_write_socket. fails.
Qed.
Lemma fails_write_fds room fs fds : fails_well (core_write_fds room fs fds).
Proof. induction fds as [|i fds IH]; cbn [core_write_fds]; pose proof fails_write_fd; fails. Qed.
Lemma fails_notes im vcpu label description size ty : fails_well (km_core_write_notes im vcpu label description size ty).
Proof. unfold km_core_write_notes, km_fs_core_notes_write. pose proof fails_write_fds. case_match; [|done]. apply fails_then; fails. Qed.
End NotesFail.

(** ** The file as a whole *)
Lemma wp_and {S A} ab (c : M S A) (Q1 Q2 : A -> S -> Prop) s : wp ab c Q1 s -> wp ab c Q2 s -> wp ab c (fun a s' => Q1 a s' /\ Q2 a s') s.
Proof. unfold wp. by destruct (c s) as [[a s']| |]. Qed.
Lemma wp_eq {S A} ab (c : M S A) (Q : A -> S -> Prop) s : wp ab c Q s -> wp ab c (fun a s' => c s = Ret (a, s') /\ Q a s') s.
Proof. unfold wp. by destruct (c s) as [[a s']| |]. Qed.

Definition file_segs (im : image) : list seg :=
  let end_load := (km_core_count_phdrs im).2 in
  payload_segs im im.(im_guest) (loads im.(im_guest)) end_load ++ payload_segs im im.(im_dyn) (dyn_loads im) end_load ++ mmap_segs im.(im_machine).(mmaps_busy).
Definition phnum (im : image) : Z := 1 + Z.of_nat (length (file_segs im)).
Definition notes_offset (im : image) : Z := 64 + 56 * phnum im.
Definition core_ehdr (im : image) : Elf64_Ehdr :=
  let g := im.(im_guest).(pl_ehdr) in mk_ehdr g.(e_ident) ET_CORE g.(e_machine) g.(e_version) g.(e_entry) 64 0 0 64 56 (phnum im) 0 0 0.
Definition note_phdr (im : image) (notes : list Z) : elf_phdr := mk_elf_phdr PT_NOTE 0 (notes_offset im) 0 0 (Z.of_nat (length notes)) 0 0.
Definition core_phdrs (im : image) (notes : list Z) (notes_length : nat) : list elf_phdr :=
  note_phdr im notes :: seg_phdrs (notes_offset im + Z.of_nat notes_length) (file_segs im).

(** ELF header, program headers, notes, then each segment where its header says. *)
Record core_file (im : image) (notes : list Z) (notes_length : nat) (f : Z -> Z) (len : Z) : Prop := {
  cf_ehdr : holds_bytes f 0 (ehdr_bytes (core_ehdr im));
  cf_phdrs : holds_bytes f 64 (flat_map phdr_bytes (core_phdrs im notes notes_length));
  cf_notes : holds_bytes f (notes_offset im) notes;
  cf_fit : (length notes <= notes_length)%nat;
  cf_len : notes_offset im + Z.of_nat notes_length <= len;
  cf_mem : Forall2 (fun o s => holds_at f o (seg_src im s) (pages s.(sg_len)) /\ o + pages s.(sg_len) <= len)
             (seg_offsets (notes_offset im + Z.of_nat notes_length) (file_segs im)) (file_segs im);
}.

Lemma count_phdrs im : (km_core_count_phdrs im).1 = phnum im.
Proof. unfold km_core_count_phdrs, phnum, file_segs, payload_segs, mmap_segs. cbn [fst]. rewrite !length_app, !length_map. lia. Qed.
Lemma length_ehdr_bytes e : length e.(e_ident) = 16%nat -> length (ehdr_bytes e) = 64%nat.
Proof. intros He. unfold ehdr_bytes. rewrite length_app, length_put, He. done. Qed.
Lemma length_phdrs phs : length (flat_map phdr_bytes phs) = (56 * length phs)%nat.
Proof. induction phs as [|ph phs IH]; [done|]. cbn [flat_map length]. rewrite length_app, length_phdr_bytes, IH. lia. Qed.
Lemma length_seg_phdrs o segs : length (seg_phdrs o segs) = length segs.
Proof. unfold seg_phdrs. rewrite length_zip_with, length_seg_offsets. lia. Qed.

Lemma seg_offsets_congr o o' segs : pages o = pages o' -> seg_offsets o segs = seg_offsets o' segs.
Proof. intros E. destruct segs as [|s segs]; [done|]. cbn. by rewrite E. Qed.
Lemma seg_end_congr o o' segs : pages o = pages o' -> pages (seg_end o segs) = pages (seg_end o' segs).
Proof. intros E. destruct segs as [|s segs]; [done|]. cbn. by rewrite E. Qed.
Lemma total_app l1 l2 : total (l1 ++ l2) = total l1 + total l2.
Proof. unfold total. induction l1 as [|s l1 IH]; [done|]. cbn [app foldr]. rewrite IH. lia. Qed.

Lemma hdr_post_app l1 l2 o d d1 d2 : hdr_post l1 o d d1 -> hdr_post l2 (seg_end o l1) d1 d2 -> hdr_post (l1 ++ l2) o d d2.
Proof.
  intros (P1 & B1 & G1) (P2 & B2 & G2). split_and!; [rewrite length_app; lia| |by eapply grown_trans].
  rewrite seg_phdrs_app, flat_map_app. apply holds_bytes_app.
  - eapply holds_bytes_grown; [exact G2| |done]. rewrite length_phdrs, length_seg_phdrs. lia.
  - rewrite length_phdrs, length_seg_phdrs. replace (d_pos d + Z.of_nat (56 * length l1)) with (d_pos d1) by lia. done.
Qed.

Lemma mem_post_app im l1 l2 d d1 d2 : mem_post im l1 d d1 -> mem_post im l2 d1 d2 -> mem_post im (l1 ++ l2) d d2.
Proof.
  intros (P1 & T1 & G1 & F1) (P2 & T2 & G2 & F2). split_and!.
  - rewrite P2, seg_end_app. by apply seg_end_congr.
  - rewrite total_app. lia.
  - by eapply grown_trans.
  - rewrite seg_offsets_app. apply Forall2_app; [|by rewrite <- (seg_offsets_congr _ _ l2 P1)].
    eapply Forall2_impl; [exact F1|]. intros o s [Hh Hl]. split; [|destruct G2; lia]. eapply holds_at_grown; [exact G2|lia|done].
Qed.

Section File.
  Context `{CoreHost} (Hw : host_writes) (im : image).

Definition dyn_phdr_writer (end_load o : Z) : M dump (Z + Z) :=
  match im.(im_dyn).(pl_filename) with Some _ => km_core_write_payload_phdr im im.(im_dyn) end_load o | None => ret (inr o) end.
Lemma dyn_phdrs_ok end_load o d :
  wp False (dyn_phdr_writer end_load o)
    (fun r d' => r = inr (seg_end o (payload_segs im im.(im_dyn) (dyn_loads im) end_load)) /\ hdr_post (payload_segs im im.(im_dyn) (dyn_loads im) end_load) o d d') d.
Proof.
  unfold dyn_phdr_writer, dyn_loads. destruct (pl_filename (im_dyn im)); [apply (write_payload_phdrs_ok Hw)|].
  apply wp_ret. split; [done|apply hdr_post_nil].
Qed.

Lemma notes_fit vcpu label description size ty d :
  wp True (km_core_write_notes im vcpu label description size ty) (fun r _ => match r with inr b => (length b <= size)%nat | inl _ => True end) d.
Proof.
  unfold km_core_write_notes. destruct (pl_filename (im_guest im)); [|done]. set (head := match vcpu with Some v => _ | None => _ end ++ _).
  apply wp_bind. apply (wp_mono _ _ (fun _ _ => True)); [|intros [rc|files] d' _; [by apply wp_ret|]].
  - match goal with |- wp _ (if ?b then _ else _) _ _ => destruct b end; [|by apply wp_ret]. apply wp_bind.
    eapply wp_mono; [apply quiet_write_fds|]. intros r d' _. by apply wp_ret.
  - apply wp_bind. unfold km_assert. destruct (Nat.leb_spec (length (head ++ files ++ sighand_notes im ++ note_bytes (monitor_note im label description))) size); [|done].
    apply wp_ret. by apply wp_ret.
Qed.

(** Making the notes may end the process if [ab]. *)
Definition notes_ok (ab : Prop) vcpu label description size ty : Prop :=
  forall d, wp ab (km_core_write_notes im vcpu label description size ty)
    (fun r d' => (d'.(d_file) = d.(d_file) /\ d'.(d_pos) = d.(d_pos)) /\ match r with inl rc => rc <> 0 | inr b => (length b <= size)%nat end) d.
Lemma notes_ok_always vcpu label description size ty : notes_ok True vcpu label description size ty.
Proof.
  intros d. eapply wp_mono; [apply wp_and; [apply quiet_notes|apply wp_and; [apply notes_fit|apply (fails_notes Hw)]]|].
  intros [rc|b] d' (E & Hfit & He); (split; [done|]); congruence || done.
Qed.
Definition notes_failed vcpu label description size ty (rc : Z) : Prop :=
  rc <> 0 /\ exists d1 d2, km_core_write_notes im vcpu label description size ty d1 = Ret (inl rc, d2).
(** What the headers are, once the notes are made. *)
Definition from_notes vcpu label description size ty (q : pipes) (notes : list Z) : Prop :=
  exists d1 d2, d1.(d_queue) = q /\ km_core_write_notes im vcpu label description size ty d1 = Ret (inr notes, d2).

Lemma write_phdrs_ok ab vcpu label description size ty d :
  notes_ok ab vcpu label description size ty -> d.(d_pos) = 0 -> length (e_ident (pl_ehdr (im_guest im))) = 16%nat ->
  wp ab (km_core_write_phdrs im vcpu (phnum im) (km_core_count_phdrs im).2 size label description (notes_offset im) ty)
    (fun r d' => match r with
                 | inl rc => notes_failed vcpu label description size ty rc
                 | inr notes => d'.(d_pos) = notes_offset im /\ holds_bytes d'.(d_file) 0 (ehdr_bytes (core_ehdr im))
                     /\ holds_bytes d'.(d_file) 64 (flat_map phdr_bytes (core_phdrs im notes size))
                     /\ (length notes <= size)%nat /\ from_notes vcpu label description size ty d.(d_queue) notes
                 end) d.
Proof.
  intros Hn Hp Hid. unfold km_core_write_phdrs. set (end_load := (km_core_count_phdrs im).2). apply wp_bind.
  eapply wp_mono; [apply wp_safe, (core_write_ok Hw)|]. intros rc d1 (-> & P1 & B1 & G1 & Q1).
  change (ehdr_bytes _) with (ehdr_bytes (core_ehdr im)) in *. rewrite length_ehdr_bytes in P1 by done. cbn [negb Z.eqb].
  apply wp_bind. eapply wp_mono; [apply wp_eq, Hn|].
  intros [rc|notes] d2 (E & [F2 P2] & Hfit); [apply wp_ret; by split; eauto|].
  apply wp_bind. eapply wp_mono; [apply wp_safe, (core_write_ok Hw)|]. intros rc d3 (-> & P3 & B3 & G3 & _). rewrite length_phdr_bytes in P3. cbn [negb Z.eqb].
  apply wp_bind. eapply wp_mono; [apply wp_safe, (write_payload_phdrs_ok Hw)|]. intros r d4 [-> H4]. set (o := notes_offset im + Z.of_nat size) in *.
  apply wp_bind. eapply wp_mono; [apply wp_safe, dyn_phdrs_ok|]. intros r d5 [-> H5].
  apply wp_bind. eapply wp_mono; [apply wp_safe, (write_mmap_phdrs_ok Hw)|]. intros r d6 H6. apply wp_ret.
  pose proof (hdr_post_app _ _ _ _ _ _ H4 (hdr_post_app _ _ _ _ _ _ H5 H6)) as (PA & BA & GA). change (payload_segs _ _ _ _ ++ _) with (file_segs im) in PA, BA.
  assert (G36 : grown d1 d3) by (destruct G3; split; [lia|]; intros x Hx; rewrite <- F2; auto with lia).
  assert (G16 : grown d1 d6) by (by eapply grown_trans). split_and!; [| | |done|].
  - unfold notes_offset, phnum. lia.
  - eapply holds_bytes_grown; [exact G16|rewrite length_ehdr_bytes by done; lia|]. by rewrite Hp in B1.
  - unfold core_phdrs. cbn [flat_map]. apply holds_bytes_app.
    + eapply holds_bytes_grown; [exact GA|rewrite length_phdr_bytes; lia|]. replace 64 with (d_pos d2) by lia. done.
    + rewrite length_phdr_bytes. replace (64 + Z.of_nat 56) with (d_pos d3) by lia. done.
  - exists d1, d2. split; [done|exact E].
Qed.

Definition whole_length (size : nat) : Z := notes_offset im + Z.of_nat size + total (file_segs im).

Lemma dump_data_ok ab vcpu label description size ty d :
  notes_ok ab vcpu label description size ty -> d.(d_pos) = 0 -> length (e_ident (pl_ehdr (im_guest im))) = 16%nat -> Forall (seg_ok im) (file_segs im) -> whole_length size < LIMIT - 8192 ->
  wp ab (dump_data im vcpu label description ty size)
    (fun rc d' => notes_failed vcpu label description size ty rc
       \/ rc = 0 /\ exists notes, from_notes vcpu label description size ty d.(d_queue) notes /\ core_file im notes size d'.(d_file) d'.(d_pos)) d.
Proof.
  intros Hn Hp Hid Hs Hlen. unfold dump_data. pose proof (count_phdrs im) as Hc. destruct (km_core_count_phdrs im) as [n end_load] eqn:Ec. cbn [fst] in Hc. subst n.
  change (SIZEOF_EHDR + phnum im * SIZEOF_PHDR) with (64 + phnum im * 56). rewrite (Z.mul_comm (phnum im)). change (64 + 56 * phnum im) with (notes_offset im).
  apply wp_bind. pose proof (write_phdrs_ok ab vcpu label description size ty d Hn Hp Hid) as Hph. rewrite Ec in Hph. cbn [snd] in Hph.
  eapply wp_mono; [exact Hph|]. intros [rc|notes] d1; [intros ?; apply wp_ret; by left|]. intros (P1 & BE & BP & Hfit & Hfrom).
  apply wp_bind. eapply wp_mono; [apply wp_safe, (core_write_ok Hw)|]. intros rc d2 (-> & P2 & BN & G2 & _). cbn [negb Z.eqb].
  rewrite length_app, length_replicate in P2. replace (length notes + (size - length notes))%nat with size in P2 by lia.
  unfold whole_length, file_segs in Hlen, Hs. rewrite Ec in Hlen, Hs. cbn [snd] in Hlen, Hs. apply Forall_app in Hs as [S1 S23]. apply Forall_app in S23 as [S2 S3].
  rewrite !total_app in Hlen. pose proof (total_nonneg _ (segs_lens _ _ S1)). pose proof (total_nonneg _ (segs_lens _ _ S2)). pose proof (total_nonneg _ (segs_lens _ _ S3)).
  assert (0 <= notes_offset im) by (unfold notes_offset, phnum; lia).
  apply wp_bind. eapply wp_mono; [apply wp_safe, (write_payload_mem_ok Hw); [done|lia|lia]|]. intros rc d3 [-> M3]. cbn [negb Z.eqb].
  pose proof M3 as (_ & T3 & [G3 _] & _).
  apply wp_bind. eapply wp_mono; [apply wp_safe, (write_payload_mem_ok Hw); [done|lia|lia]|]. intros rc d4 [-> M4]. cbn [negb Z.eqb].
  pose proof M4 as (_ & T4 & [G4 _] & _).
  eapply wp_mono; [apply wp_safe, (write_mmaps_ok Hw); [done|lia|lia]|]. intros rc d5 [-> M5]. right. split; [done|].
  pose proof (mem_post_app _ _ _ _ _ _ M3 (mem_post_app _ _ _ _ _ _ M4 M5)) as (_ & _ & GA & FA).
  assert (Ef : file_segs im = payload_segs im (im_guest im) (loads (im_guest im)) end_load ++ payload_segs im (im_dyn im) (dyn_loads im) end_load ++ mmap_segs (mmaps_busy (im_machine im)))
    by (unfold file_segs; by rewrite Ec).
  rewrite <- Ef, P2, P1 in FA. assert (GB : grown d1 d5) by (by eapply grown_trans). exists notes. split; [done|]. split; [| | |done| |done].
  - eapply holds_bytes_grown; [exact GB|rewrite length_ehdr_bytes by done; unfold notes_offset, phnum in *; lia|done].
  - eapply holds_bytes_grown; [exact GB| |done]. rewrite length_phdrs. unfold core_phdrs. cbn [length]. rewrite length_seg_phdrs. unfold notes_offset, phnum in *. lia.
  - eapply holds_bytes_grown; [exact GA|lia|]. intros i v Hi. rewrite P1 in BN. apply BN. by apply lookup_app_l_Some.
  - destruct GA. lia.
Qed.

Lemma dump_core_file open_rc calloc_ok vcpu label description ty d d' :
  d.(d_pos) = 0 -> length (e_ident (pl_ehdr (im_guest im))) = 16%nat -> Forall (seg_ok im) (file_segs im) ->
  (forall size d1, km_core_notes_length im vcpu label description ty d = Ret (size, d1) -> whole_length size < LIMIT - 8192) ->
  km_dump_core im open_rc calloc_ok vcpu label description ty d = Ret ((0, Written), d') ->
  exists notes size, core_file im notes size d'.(d_file) d'.(d_pos)
    /\ (exists d1, km_core_notes_length im vcpu label description ty d = Ret (size, d1)) /\ from_notes vcpu label description size ty d.(d_queue) notes.
Proof.
  intros Hp Hid Hs Hlen Hrun. unfold km_dump_core in Hrun. unfold bind in Hrun at 1.
  destruct (km_core_notes_length im vcpu label description ty d) as [[size d1]| |] eqn:El; [|done|done].
  specialize (Hlen size d1 eq_refl). destruct (open_rc <? 0); [done|].
  unfold bind in Hrun at 1. destruct ((if bool_decide (ty = KM_DO_SNAP) && im_forked im then km_pipes (im_fs im) else ret false) d1) as [[piped d2]| |] eqn:Ep; [|done|done].
  destruct piped; [done|]. destruct (bool_decide (ty = KM_DO_SNAP) && (negb (km_snapshot_ok im) || (0 <? im.(im_io_active)))); [done|]. destruct (negb calloc_ok); [done|].
  pose proof (still_notes_length im vcpu label description ty d) as Hq. unfold wp in Hq. rewrite El in Hq. subst d1.
  assert (Hq : still (if bool_decide (ty = KM_DO_SNAP) && im_forked im then km_pipes (im_fs im) else ret false)) by (case_match; [apply still_pipes|apply still_ret]).
  specialize (Hq d). unfold wp in Hq. rewrite Ep in Hq. subst d2.
  unfold bind in Hrun. pose proof (dump_data_ok True vcpu label description size ty d (notes_ok_always _ _ _ _ _) Hp Hid Hs Hlen) as Hd. unfold wp in Hd.
  destruct (dump_data im vcpu label description ty size d) as [[rc d3]| |]; [|done|done]. unfold ret in Hrun. injection Hrun as -> Hf ->.
  destruct Hd as [[? _]|(_ & notes & Hfrom & Hcf)]; [done|]. exists notes, size. eauto.
Qed.
End File.

Lemma seg_offsets_bounds o segs : 0 <= o -> lens_ok segs -> o + total segs < LIMIT - 8192 -> Forall (fun x => 0 <= x < LIMIT) (seg_offsets o segs).
Proof.
  intros Ho Hl. revert o Ho. induction Hl as [|s segs Hs Hl IH]; intros o Ho Ht; [constructor|]. cbn [seg_offsets].
  unfold total in Ht. cbn [foldr] in Ht. fold (total segs) in Ht. pose proof (total_nonneg segs Hl). destruct (pages_bounds o) as [P1 _]; [lia|].
  apply Forall_cons_2; [lia|]. apply IH; lia.
Qed.
