(* ===== verification/CoreBounds.v ===== *)
(** * The notes of a core dump fit their buffer (proofs)

    The length is computed before the notes are made; a core dump of a guest with a
    vcpu at the time of the dump always succeeds on a host that takes what it is given. *)
From S2P Require Import Prelude Machine MemGeom MmapGuest FdTable Signal Stdio Notes IoContext CoreFs CoreDump CoreProps.

(** ** Lengths *)
Lemma padded_le b : (length (padded b) <= length b + 3)%nat.
Proof. unfold padded. rewrite length_app, length_replicate. pose proof (Nat.mod_upper_bound (4 - length b mod 4) 4). lia. Qed.
Lemma padded_length b : length (padded b) = km_nt_chunk_roundup (length b).
Proof. unfold padded. by rewrite length_app, length_replicate. Qed.
Lemma chunk_roundup_add a n : (a mod 4 = 0)%nat -> km_nt_chunk_roundup (a + n) = (a + km_nt_chunk_roundup n)%nat.
Proof. intros Ha. unfold km_nt_chunk_roundup. rewrite <- Nat.Div0.add_mod_idemp_l, Ha. cbn [Nat.add]. lia. Qed.

Lemma length_flat_map {A} (f : A -> list Z) n l : (forall x, x ∈ l -> length (f x) = n) -> length (flat_map f l) = (length l * n)%nat.
Proof.
  induction l as [|x l IH]; intros Hf; [done|]. cbn [flat_map length]. rewrite length_app, Hf by (apply elem_of_cons; by left).
  rewrite IH; [lia|]. intros y Hy. apply Hf. apply elem_of_cons. by right.
Qed.

Lemma length_prstatus v : length (km_make_dump_prstatus v) = 352%nat.
Proof. done. Qed.

Section Lengths.
  Context (im : image).

Lemma length_threads vcpu : (length (km_core_dump_threads im vcpu) <= 352 * length im.(im_vcpus))%nat.
Proof.
  unfold km_core_dump_threads. induction (im_vcpus im) as [|v l IH]; [done|]. cbn [flat_map length]. rewrite length_app.
  destruct (is_current vcpu v); [cbn [length]; lia|]. rewrite length_prstatus. lia.
Qed.

(** The current vcpu is not written twice. *)
Lemma length_threads_current v w :
  w ∈ im.(im_vcpus) -> w.(cv_id) = v.(cv_id) -> (length (km_core_dump_threads im (Some v)) + 352 <= 352 * length im.(im_vcpus))%nat.
Proof.
  intros Hw He. unfold km_core_dump_threads. apply list_elem_of_split in Hw as (l1 & l2 & ->). rewrite flat_map_app, !length_app. cbn [flat_map length].
  unfold is_current at 2. rewrite He, Z.eqb_refl. cbn [app].
  assert (Hl : forall l, (length (flat_map (fun w => if is_current (Some v) w then [] else km_make_dump_prstatus w) l) <= 352 * length l)%nat).
  { induction l as [|u l IH]; [done|]. cbn [flat_map length]. rewrite length_app. destruct (is_current _ u); [cbn [length]; lia|]. rewrite length_prstatus. lia. }
  pose proof (Hl l1). pose proof (Hl l2). lia.
Qed.

Lemma length_fp v : length (fp_bytes im v) = fp_size im.
Proof. unfold fp_bytes. destruct (cv_fp v) as [b|]; [rewrite length_app, length_take|]; rewrite length_replicate; lia. Qed.
Lemma length_vcpus : length (flat_map (km_core_dump_vcpu im) im.(im_vcpus)) = (length im.(im_vcpus) * (112 + fp_size im))%nat.
Proof.
  apply length_flat_map. intros v _. unfold km_core_dump_vcpu. rewrite length_note_bytes. cbn [vcpu_note n_owner n_desc]. rewrite length_app, length_fp, length_put. cbn. lia.
Qed.

Lemma length_mappings_desc : length (mappings_desc im) = km_mappings_size im.
Proof.
  unfold mappings_desc, km_mappings_size. rewrite length_app, length_put. cbn [map width foldr f64 fst].
  induction (file_maps im) as [|f l IH]; [done|]. cbn [flat_map foldr]. rewrite map_app, !length_app. cbn [length]. unfold width in *.
  rewrite foldr_app. cbn [map foldr km_core_dump_region_mapping f64 fst]. lia.
Qed.
Lemma length_mappings : (length (km_core_dump_mappings im) <= km_mappings_size im + 19)%nat.
Proof.
  unfold km_core_dump_mappings. pose proof (padded_le (note_bytes (mappings_note im))). rewrite length_note_bytes in H. cbn [mappings_note n_owner n_desc] in H.
  rewrite length_mappings_desc in H. unfold CORE, SIZEOF_NHDR in H. cbn [length] in H. lia.
Qed.
Lemma length_auxv : (length (km_core_dump_auxv im) <= length im.(im_auxv) + 19)%nat.
Proof.
  unfold km_core_dump_auxv. pose proof (padded_le (note_bytes (auxv_note im))) as Hp. rewrite length_note_bytes in Hp. cbn [auxv_note n_owner n_desc] in Hp.
  unfold CORE, SIZEOF_NHDR in Hp. cbn [length] in Hp. lia.
Qed.
End Lengths.

Lemma length_ehdr (e : Elf64_Ehdr) : length (ehdr_bytes e) = (length e.(e_ident) + 48)%nat.
Proof. unfold ehdr_bytes. rewrite length_app, length_put. done. Qed.
(** The name is padded; all before it is a multiple of 4. *)
Lemma payload_roundup k n len : (k mod 4 = 0)%nat -> km_nt_chunk_roundup (k + n * 56 + (len + 1)) = (k + n * 56 + km_nt_chunk_roundup (len + 1))%nat.
Proof.
  intros Hk. apply chunk_roundup_add. replace (n * 56)%nat with (n * 14 * 4)%nat by lia. by rewrite Nat.Div0.mod_add.
Qed.
Lemma length_payload p name : length p.(pl_ehdr).(e_ident) = 16%nat -> length (km_core_dump_payload_note p name) = payload_length SIZEOF_NT_GUEST p name.
Proof.
  intros Hi. unfold km_core_dump_payload_note. rewrite padded_length, length_note_bytes. cbn [payload_note n_owner n_desc].
  rewrite !length_app, length_put, length_ehdr, length_phdrs, Hi. unfold payload_length, km_nt_file_padded_size. rewrite <- payload_roundup by done.
  f_equal. unfold SIZEOF_NHDR, SIZEOF_NT_GUEST, km_note_header_size, KM_NT_NAME. cbn. lia.
Qed.
Lemma length_payloadv p name : length p.(pl_ehdr).(e_ident) = 16%nat -> length (km_core_dump_payloadv_note p name) = payload_length SIZEOF_NT_GUESTV p name.
Proof.
  intros Hi. unfold km_core_dump_payloadv_note. rewrite padded_length, length_note_bytes. cbn [payloadv_note n_owner n_desc].
  rewrite !length_app, length_put, length_ehdr, length_phdrs, Hi. unfold payload_length, km_nt_file_padded_size. rewrite <- payload_roundup by done.
  f_equal. unfold SIZEOF_NHDR, SIZEOF_NT_GUESTV, km_note_header_size, KM_NT_NAME. cbn. lia.
Qed.

Lemma length_sighand im : Z.of_nat (length (sighand_notes im)) = km_sig_core_notes_length (Z.of_nat (km_note_header_size KM_NT_NAME)) im.(im_acts).
Proof.
  unfold sighand_notes, km_sig_core_notes_length, km_sig_core_notes_write. rewrite <- (Z.add_0_l (Z.of_nat _)). generalize 0 as k.
  induction (seqZ 1 NSIG) as [|i l IH]; intros k; [cbn; lia|]. cbn [flat_map fold_left]. rewrite flat_map_app, length_app, Nat2Z.inj_add, Z.add_assoc, IH.
  f_equal. unfold sig_note. destruct (handler _ =? SIG_DFL); [cbn; lia|]. cbn [flat_map]. rewrite app_nil_r, length_note_bytes.
  cbn [sighand_note n_owner n_desc]. rewrite length_put. done.
Qed.
Lemma length_monitor im label description :
  length (note_bytes (monitor_note im label description)) = (48 + length (string_of label) + length (string_of description))%nat.
Proof. rewrite length_note_bytes. cbn [monitor_note n_owner n_desc]. rewrite !length_app, length_put. cbn. lia. Qed.

(** ** They fit *)
Lemma page_roundup_le n : Z.of_nat n < LIMIT -> (n <= page_roundup n)%nat.
Proof. intros Hn. unfold page_roundup. fold (pages (Z.of_nat n)). destruct (pages_bounds (Z.of_nat n)) as [? _]; lia. Qed.

Lemma page_roundup_lt n : Z.of_nat n < LIMIT -> Z.of_nat (page_roundup n) < Z.of_nat n + 4096.
Proof. intros Hn. unfold page_roundup. fold (pages (Z.of_nat n)). destruct (pages_bounds (Z.of_nat n)) as [? _]; lia. Qed.

Section Fit.
  Context `{CoreHost} (im : image).

Definition core_base (vcpu : option core_vcpu) (label description : option (list Z)) (gname : list Z) : nat :=
  let nvcpu := length im.(im_vcpus) in
  let hdr := km_note_header_size KM_NT_NAME in
  ((hdr + SIZEOF_PRSTATUS) * (nvcpu + match vcpu with None => O | Some _ => 1%nat end) + (km_mappings_size im + hdr) + (length im.(im_auxv) + hdr) + (SIZEOF_NT_MONITOR + hdr)
   + length (string_of label) + length (string_of description) + (hdr + SIZEOF_NT_VCPU + fp_size im) * nvcpu
   + payload_length SIZEOF_NT_GUESTV im.(im_guest) gname
   + match im.(im_dyn).(pl_filename) with Some dname => payload_length SIZEOF_NT_GUEST im.(im_dyn) dname | None => 0 end)%nat.

(** The image has a named program and headers of the right size. *)
Record named (gname : list Z) : Prop := {
  nm_guest : im.(im_guest).(pl_filename) = Some gname;
  nm_ident : length im.(im_guest).(pl_ehdr).(e_ident) = 16%nat;
  nm_dyn : im.(im_dyn).(pl_filename) <> None -> length im.(im_dyn).(pl_ehdr).(e_ident) = 16%nat;
}.

Definition core_notes (vcpu : option core_vcpu) (label description : option (list Z)) (gname : list Z) : list Z :=
  (match vcpu with Some v => km_make_dump_prstatus v | None => [] end
   ++ km_core_dump_threads im vcpu ++ km_core_dump_mappings im ++ km_core_dump_auxv im
   ++ flat_map (km_core_dump_vcpu im) im.(im_vcpus) ++ km_core_dump_payloadv_note im.(im_guest) gname
   ++ match im.(im_dyn).(pl_filename) with Some dname => km_core_dump_payload_note im.(im_dyn) dname | None => [] end)
  ++ [] ++ sighand_notes im ++ note_bytes (monitor_note im label description).
Definition core_length (vcpu : option core_vcpu) (label description : option (list Z)) (gname : list Z) : nat :=
  core_base vcpu label description gname + 0 + Z.to_nat (km_sig_core_notes_length (Z.of_nat (km_note_header_size KM_NT_NAME)) im.(im_acts)).
Definition core_size (vcpu : option core_vcpu) (label description : option (list Z)) (gname : list Z) : nat := page_roundup (core_length vcpu label description gname).

Lemma core_notes_fit v w label description gname :
  named gname -> w ∈ im.(im_vcpus) -> w.(cv_id) = v.(cv_id) ->
  Z.of_nat (core_length (Some v) label description gname) < LIMIT ->
  (length (core_notes (Some v) label description gname) <= core_size (Some v) label description gname)%nat.
Proof.
  intros [N1 N2 N3] Hw He Hl. unfold core_size.
  etransitivity; [|apply page_roundup_le; lia]. unfold core_length. rewrite <- length_sighand, Nat2Z.id. unfold core_notes. rewrite !length_app, length_prstatus, length_monitor, length_vcpus, (length_payloadv _ _ N2).
  pose proof (length_threads_current im v w Hw He). pose proof (length_mappings im). pose proof (length_auxv im). unfold core_base.
  assert (Hd : length match pl_filename (im_dyn im) with Some dname => km_core_dump_payload_note (im_dyn im) dname | None => [] end
    = match pl_filename (im_dyn im) with Some dname => payload_length SIZEOF_NT_GUEST (im_dyn im) dname | None => 0%nat end).
  { destruct (pl_filename (im_dyn im)) as [dname|] eqn:E; [|done]. apply length_payload. by apply N3. }
  rewrite Hd. change (km_note_header_size KM_NT_NAME) with 16%nat. unfold SIZEOF_PRSTATUS, SIZEOF_NT_MONITOR, SIZEOF_NT_VCPU. cbn [length]. lia.
Qed.

Lemma core_write_notes_ret vcpu label description gname size :
  named gname -> (length (core_notes vcpu label description gname) <= size)%nat ->
  forall d, km_core_write_notes im vcpu label description size KM_DO_CORE d = Ret (inr (core_notes vcpu label description gname), d).
Proof.
  intros [N1 _ _] Hl d. unfold km_core_write_notes. rewrite N1. destruct (decide (KM_DO_CORE = KM_DO_SNAP)); [done|]. unfold bind, ret.
  unfold core_notes in Hl. unfold km_assert, core_notes. destruct (Nat.leb_spec (length ((match vcpu with Some v => km_make_dump_prstatus v | None => [] end
   ++ km_core_dump_threads im vcpu ++ km_core_dump_mappings im ++ km_core_dump_auxv im
   ++ flat_map (km_core_dump_vcpu im) im.(im_vcpus) ++ km_core_dump_payloadv_note im.(im_guest) gname
   ++ match im.(im_dyn).(pl_filename) with Some dname => km_core_dump_payload_note im.(im_dyn) dname | None => [] end)
  ++ [] ++ sighand_notes im ++ note_bytes (monitor_note im label description))) size); [done|lia].
Qed.
Lemma core_notes_length_ret vcpu label description gname d :
  named gname -> km_core_notes_length im vcpu label description KM_DO_CORE d = Ret (core_size vcpu label description gname, d).
Proof.
  intros [N1 _ _]. unfold km_core_notes_length. rewrite N1. destruct (decide (KM_DO_CORE = KM_DO_SNAP)); [done|]. done.
Qed.
End Fit.
