(* ===== verification/CoreImage.v ===== *)
(** * Images a core file can be made of (proofs)

    The segments of a well formed image are runs of consecutive addresses of the
    monitor, so its core file holds its memory. *)
From S2P Require Import Prelude Machine MemGeom TopBreak MemBrk MmapRegion MmapGuest MmapList MmapRange MmapFree MmapCorrect MmapSystem FdTable Signal Stdio Notes IoContext CoreFs CoreDump CoreProps CoreBounds.

#[local] Abbreviation TOP := GUEST_MEM_TOP_VA.

(** Below the top a guest address is translated by the offset alone. *)
Lemma kma_low m a : 0 <= a < TOP -> km_gva_to_kma_nocheck m a = if GUEST_VA_OFFSET m <? a then a - GUEST_VA_OFFSET m else a.
Proof.
  intros Ha. unfold km_gva_to_kma_nocheck, km_vdso_gva, km_guestmem_gva.
  assert (TOP < GUEST_VVAR_VDSO_BASE_VA) by reflexivity. assert (TOP < GUEST_KMGUESTMEM_BASE_VA) by reflexivity.
  destruct (Z.leb_spec GUEST_VVAR_VDSO_BASE_VA a); [lia|]. destruct (Z.leb_spec GUEST_KMGUESTMEM_BASE_VA a); [lia|]. done.
Qed.
Section Translate.
  Context `{Host} (m : machine) (w : Z) (I : mem_inv m w).

Lemma brk_low : GUEST_MEM_START_VA <= m.(brk) < LIMIT /\ pages m.(brk) <= 2 ^ w - 2 ^ 30 /\ 2 ^ w <= 2 ^ 39 /\ GUEST_VA_OFFSET m = 2 ^ 39 - 2 ^ w.
Proof.
  pose proof (static_geom m w (mi_static m w I)) as G. destruct (mi_brk m w I) as [B1 [B2 B3] B4]. pose proof (va_offset_eq m w G) as Ho.
  pose proof (pow_w_bounds m w G) as Hp. destruct (apart_bounds m w I m.(brk) m.(tbrk) B1 B3 B4) as (A1 & _).
  assert (HL : LIMIT = 2 ^ 62) by done. assert (2 ^ 39 < 2 ^ 62) by (by vm_compute).
  destruct (pages_bounds m.(brk)) as [P1 P2]; [unfold GUEST_MEM_START_VA, MIB in *; lia|].
  split_and!; try lia. assert (Hm : 2 ^ w mod 4096 = 0) by (apply pow_page; destruct G; lia).
  pose proof (Z.div_mod (2 ^ w) 4096). pose proof (Z.div_mod (pages m.(brk)) 4096). change (2 ^ 30) with (262144 * 4096) in *. lia.
Qed.

(** The program is below the offset, or there is none. *)
Lemma kma_program a : GUEST_MEM_START_VA <= a < pages m.(brk) -> km_gva_to_kma_nocheck m a = a.
Proof.
  intros Ha. destruct brk_low as (B1 & B2 & B3 & Ho). assert (HT : TOP = 2 ^ 39 - 2 ^ 21) by done. pose proof (static_geom m w (mi_static m w I)) as (Hw & _).
  rewrite kma_low by (unfold GUEST_MEM_START_VA, MIB in *; lia). rewrite Ho. destruct (Z.ltb_spec (2 ^ 39 - 2 ^ w) a) as [Hlt|]; [|done].
  destruct (Z.eq_dec w 39) as [->|]; [lia|]. assert (2 ^ w <= 2 ^ 38) by (apply Z.pow_le_mono_r; lia). change (2 ^ 39) with (2 * 2 ^ 38) in *. lia.
Qed.
Lemma kma_mapping a : m.(tbrk) <= a < TOP -> km_gva_to_kma_nocheck m a = a - GUEST_VA_OFFSET m.
Proof.
  intros Ha. pose proof (tb_bounds m (ex_intro _ w I)). unfold GUEST_MEM_START_VA, MIB in *.
  rewrite kma_low by lia. destruct (Z.ltb_spec (GUEST_VA_OFFSET m) a); [done|lia].
Qed.
End Translate.

(** ** Well formed images *)
Section Image.
  Context `{Host} (im : image).
Let m := im.(im_machine).

Definition load_ok (p : payload) (ph : elf_phdr) : Prop :=
  let e := (km_core_count_phdrs im).2 in
  GUEST_MEM_START_VA <= seg_base p ph < m.(brk) /\ seg_base p ph + seg_size im ph e <= m.(brk) /\ 0 <= ph.(ph_flags) < 2 ^ 32.
Definition whole_pages (r : km_mmap_reg) : Prop := r.(start) mod 4096 = 0 /\ r.(size) mod 4096 = 0.
Definition mmap_seg (r : km_mmap_reg) : seg := mk_seg r.(start) r.(size) (mmap_to_elf_flags r.(protection)).

(** [G]: where the monitor's own mappings begin. *)
Record wf_image (G : Z) : Prop := {
  wi_inv : mmap_inv m;
  wi_sealed : sealed G m;
  wi_pages : Forall whole_pages m.(mmaps_busy);
  wi_monitor : Forall (fun r => is_monitor r = true -> linear im (mmap_seg r)) m.(mmaps_busy);
  wi_guest : Forall (load_ok im.(im_guest)) (loads im.(im_guest));
  wi_dyn : Forall (load_ok im.(im_dyn)) (dyn_loads im);
  wi_ident : length im.(im_guest).(pl_ehdr).(e_ident) = 16%nat;
}.

Lemma seg_base_page p ph : seg_base p ph mod 4096 = 0.
Proof. apply (rounddown_mod _ KM_PAGE_SIZE). done. Qed.
Lemma seg_size_nonneg ph e : 0 <= seg_size im ph e.
Proof. unfold seg_size. apply u64_range. Qed.

Lemma load_seg_ok G p ph : wf_image G -> load_ok p ph -> seg_ok im (mk_seg (seg_base p ph) (seg_size im ph (km_core_count_phdrs im).2) ph.(ph_flags)).
Proof.
  intros W (H1 & H2 & _). pose proof (seg_size_nonneg ph (km_core_count_phdrs im).2) as Hn. split; [|done].
  destruct (ti_tb _ _ (wi_inv _ W)) as [w I]. destruct (brk_low m w I) as (B1 & B2 & B3 & _).
  assert (Hp : seg_base p ph + pages (seg_size im ph (km_core_count_phdrs im).2) <= pages m.(brk)).
  { rewrite <- pages_add by (try apply seg_base_page; unfold GUEST_MEM_START_VA, MIB in *; lia). apply pages_mono; unfold GUEST_MEM_START_VA, MIB in *; lia. }
  intros k Hk. cbn [sg_base sg_len] in *. fold m. rewrite !(kma_program m w I) by lia. done.
Qed.

Lemma view_elem lo l hi r a : ordered lo l hi -> r ∈ l -> covers r a = true -> view l a = Some (attr_of r).
Proof.
  revert lo. induction l as [|x l IH]; intros lo Ho Hr Hc; [by apply not_elem_of_nil in Hr|]. destruct Ho as (H1 & H2 & Ho). cbn [view].
  apply elem_of_cons in Hr as [->|Hr]; [by rewrite Hc|]. pose proof (ordered_elem _ _ _ _ Ho Hr) as (?&?&?). apply covers_iff in Hc as Hc'.
  destruct (covers x a) eqn:Ex; [apply covers_iff in Ex; lia|]. by eapply IH.
Qed.

(** The guest's mappings are below those of the monitor. *)
Lemma guest_region_below G r : wf_image G -> r ∈ m.(mmaps_busy) -> is_monitor r = false -> m.(tbrk) <= r.(start) /\ 0 < r.(size) /\ r.(start) + r.(size) <= G.
Proof.
  intros W Hr Hm. pose proof (ti_busy _ _ (wi_inv _ W)) as Ho. pose proof (ordered_elem _ _ _ _ Ho Hr) as (H1 & H2 & H3). split_and!; [done|done|].
  assert (Hv : view m.(mmaps_busy) (r.(start) + r.(size) - 1) = Some (attr_of r)) by (eapply view_elem; [exact Ho|done|apply covers_iff; lia]).
  destruct (Z.le_gt_cases (r.(start) + r.(size)) G) as [|Hg]; [done|]. pose proof (proj2 (se_split _ _ (wi_sealed _ W) _ _ Hv) ltac:(lia)) as Hx.
  unfold monitor_attr in Hx. unfold is_monitor in Hm. cbn in Hx. congruence.
Qed.

Lemma mmap_seg_ok G r : wf_image G -> r ∈ m.(mmaps_busy) -> seg_ok im (mmap_seg r).
Proof.
  intros W Hr. pose proof (ti_busy _ _ (wi_inv _ W)) as Ho. pose proof (ordered_elem _ _ _ _ Ho Hr) as (H1 & H2 & H3).
  split; [|cbn; lia]. destruct (is_monitor r) eqn:Em; [by apply (proj1 (Forall_forall _ _) (wi_monitor _ W) r Hr)|].
  destruct (guest_region_below G r W Hr Em) as (L1 & L2 & L3). destruct (proj1 (Forall_forall _ _) (wi_pages _ W) r Hr) as [A1 A2].
  pose proof (se_low _ _ (wi_sealed _ W)) as HG. assert (HT : TOP = 2 ^ 39 - 2 ^ 21) by done. destruct (ti_tb _ _ (wi_inv _ W)) as [w I].
  pose proof (tb_bounds m (ex_intro _ w I)) as Hb. intros k Hk. cbn [mmap_seg sg_base sg_len] in *.
  rewrite pages_aligned in Hk; [|unfold LIMIT, GUEST_MEM_START_VA, MIB in *; lia|done]. fold m. rewrite !(kma_mapping m w I) by lia. lia.
Qed.

Lemma image_segs_ok G : wf_image G -> Forall (seg_ok im) (file_segs im).
Proof.
  intros W. unfold file_segs. rewrite !Forall_app. split_and!.
  - apply Forall_map. eapply Forall_impl; [exact (wi_guest _ W)|]. intros ph Hph. by eapply load_seg_ok.
  - apply Forall_map. eapply Forall_impl; [exact (wi_dyn _ W)|]. intros ph Hph. by eapply load_seg_ok.
  - apply Forall_map, Forall_forall. intros r Hr. apply list_elem_of_In, filter_In in Hr as [Hr _]. apply list_elem_of_In in Hr. by eapply mmap_seg_ok.
Qed.
End Image.

(** C22. A core dump requested by a vcpu of a guest that has a file name is written, if the
    host lets it: under [host_writes] - every write makes progress, every lseek and mprotect
    succeeds, so neither a full disk nor the branch that leaves a hole for a page whose
    write fails with EFAULT is covered - and with a file below the limit of its offsets,
    km_dump_core returns success; the notes fit the buffer that was sized for them before;
    and the file holds the header, the program headers, the notes, the program's segments
    and the guest's mappings with some access, each where its header says. Mappings without
    access are not part of the file. *)
Theorem core_dump_written `{Host} `{!CoreHost} im G v w label description gname d :
  host_writes -> wf_image im G -> named im gname -> w ∈ im.(im_vcpus) -> w.(cv_id) = v.(cv_id) -> d.(d_pos) = 0 ->
  whole_length im (core_length im (Some v) label description gname) < LIMIT - 12288 ->
  exists d', km_dump_core im 0 true (Some v) label description KM_DO_CORE d = Ret ((0, Written), d')
    /\ core_file im (core_notes im (Some v) label description gname) (core_size im (Some v) label description gname) d'.(d_file) d'.(d_pos).
Proof.
  intros Hw W Hn Hv He Hp Hlen. pose proof (image_segs_ok im G W) as Hs. unfold whole_length in Hlen.
  assert (Hl : Z.of_nat (core_length im (Some v) label description gname) < LIMIT).
  { pose proof (total_nonneg _ (segs_lens _ _ Hs)). unfold notes_offset, phnum in Hlen. lia. }
  pose proof (page_roundup_lt _ Hl) as Hsz. fold (core_size im (Some v) label description gname) in Hsz. set (size := core_size im (Some v) label description gname) in *.
  assert (Hfit : (length (core_notes im (Some v) label description gname) <= size)%nat).
  { by eapply core_notes_fit. }
  pose proof (core_write_notes_ret im (Some v) label description gname size Hn Hfit) as Hret.
  assert (Hok : notes_ok im False (Some v) label description size KM_DO_CORE) by (intros d1; unfold wp; rewrite Hret; by split).
  unfold km_dump_core. unfold bind at 1. rewrite (core_notes_length_ret im _ _ _ gname d Hn). fold size. cbn [Z.ltb Z.compare].
  change (bool_decide (KM_DO_CORE = KM_DO_SNAP)) with false. cbn [andb negb]. unfold bind at 1, ret at 1.
  pose proof (dump_data_ok Hw im False (Some v) label description size KM_DO_CORE d Hok Hp (wi_ident _ _ W) Hs ltac:(unfold whole_length; lia)) as Hd. unfold wp in Hd. unfold bind.
  destruct (dump_data im (Some v) label description KM_DO_CORE size d) as [[rc d']| |]; [|done|done].
  destruct Hd as [(_ & d1 & d2 & Hbad)|(-> & notes & (d1 & d2 & _ & Hgood) & Hcf)]; [by rewrite Hret in Hbad|].
  rewrite Hret in Hgood. injection Hgood as <- _. exists d'. by split.
Qed.
