(* ===== verification/SnapNotes.v ===== *)
(** * The notes of a snapshot are framed (proofs)

    What km_core_write_notes makes is one note after the other, each with the size its
    header says, so the walk of the reader finds them all. *)
From S2P Require Import Prelude Machine MemGeom FdTable Signal Stdio Notes IoContext CoreFs CoreDump CoreProps CoreBounds.

Lemma stream_app ns1 ns2 tail : stream (ns1 ++ ns2) tail = stream ns1 (stream ns2 tail).
Proof. induction ns1 as [|n ns1 IH]; [done|]. cbn. by rewrite IH. Qed.
Lemma stream_tail ns tail : stream ns tail = stream ns [] ++ tail.
Proof. induction ns as [|n ns IH]; [done|]. cbn. by rewrite IH, app_assoc. Qed.
Lemma padded_whole b : (length b mod 4 = 0)%nat -> padded b = b.
Proof. intros Hb. unfold padded. rewrite Hb. apply app_nil_r. Qed.
(** Notes that need no padding. *)
Definition whole (n : note) : Prop := (length (note_bytes n) mod 4 = 0)%nat.
Lemma stream_whole {A} (f : A -> note) l tail : (forall x, whole (f x)) -> flat_map (fun x => note_bytes (f x)) l ++ tail = stream (map f l) tail.
Proof. intros Hf. induction l as [|x l IH]; [done|]. cbn [flat_map map stream]. rewrite <- app_assoc, IH, padded_whole; [done|apply Hf]. Qed.

Lemma roundup_mod4 n : (km_nt_chunk_roundup n mod 4 = 0)%nat.
Proof.
  unfold km_nt_chunk_roundup. pose proof (Nat.div_mod_eq n 4). pose proof (Nat.mod_upper_bound n 4 ltac:(lia)). set (k := (n mod 4)%nat) in *. set (q := (n / 4)%nat) in *. clearbody k q.
  assert (k = 0 \/ k = 1 \/ k = 2 \/ k = 3)%nat as [->|[->|[->| ->]]] by lia; cbn [Nat.sub]; subst n;
    [change ((4 mod 4)%nat) with 0%nat|change ((3 mod 4)%nat) with 3%nat|change ((2 mod 4)%nat) with 2%nat|change ((1 mod 4)%nat) with 1%nat].
  all: match goal with |- (?e mod 4 = 0)%nat => first [replace e with (q * 4)%nat by lia | replace e with ((q + 1) * 4)%nat by lia] end; apply Nat.Div0.mod_mul.
Qed.
Lemma whole_desc owner type desc : length owner = 4%nat -> (length desc mod 4 = 0)%nat -> whole (mk_note owner type desc).
Proof.
  intros Ho Hd. unfold whole. rewrite length_note_bytes. cbn [n_owner n_desc]. rewrite Ho. unfold SIZEOF_NHDR.
  replace (12 + 4 + length desc)%nat with (length desc + 4 * 4)%nat by lia. by rewrite Nat.Div0.mod_add.
Qed.

(** ** Before the descriptors *)
Section Head.
  Context (im : image).

Definition others (vcpu : option core_vcpu) : list core_vcpu := List.filter (fun v => negb (is_current vcpu v)) im.(im_vcpus).
Definition head_notes (vcpu : option core_vcpu) (gname : list Z) : list note :=
  map prstatus_note (match vcpu with Some v => [v] | None => [] end ++ others vcpu)
  ++ [mappings_note im; auxv_note im] ++ map (vcpu_note im) im.(im_vcpus)
  ++ payloadv_note im.(im_guest) gname :: match im.(im_dyn).(pl_filename) with Some dname => [payload_note im.(im_dyn) dname] | None => [] end.
Definition head_bytes (vcpu : option core_vcpu) (gname : list Z) : list Z :=
  match vcpu with Some v => km_make_dump_prstatus v | None => [] end
  ++ km_core_dump_threads im vcpu ++ km_core_dump_mappings im ++ km_core_dump_auxv im
  ++ flat_map (km_core_dump_vcpu im) im.(im_vcpus) ++ km_core_dump_payloadv_note im.(im_guest) gname
  ++ match im.(im_dyn).(pl_filename) with Some dname => km_core_dump_payload_note im.(im_dyn) dname | None => [] end.

Lemma fp_size_mod4 : (fp_size im mod 4 = 0)%nat.
Proof. apply roundup_mod4. Qed.
Lemma vcpu_whole v : whole (vcpu_note im v).
Proof.
  apply whole_desc; [done|]. rewrite length_app, length_put, length_fp. change (width _) with (24 * 4)%nat. rewrite Nat.add_comm, Nat.Div0.mod_add. apply fp_size_mod4.
Qed.
Lemma threads_stream vcpu tail : km_core_dump_threads im vcpu ++ tail = stream (map prstatus_note (others vcpu)) tail.
Proof.
  unfold km_core_dump_threads, others. induction (im_vcpus im) as [|v l IH]; [done|]. cbn [flat_map List.filter]. destruct (is_current vcpu v); [exact IH|].
  cbn [negb map stream]. rewrite <- app_assoc, IH. done.
Qed.

Lemma head_stream vcpu gname tail : head_bytes vcpu gname ++ tail = stream (head_notes vcpu gname) tail.
Proof.
  unfold head_bytes, head_notes. rewrite map_app, <- !app_assoc, !stream_app. cbn [stream].
  replace (stream (map prstatus_note match vcpu with Some v => [v] | None => [] end)) with (fun t => match vcpu with Some v => km_make_dump_prstatus v | None => [] end ++ t) by (by destruct vcpu).
  cbv beta. f_equal. rewrite <- threads_stream. f_equal. unfold km_core_dump_mappings, km_core_dump_auxv. f_equal. f_equal.
  rewrite <- (stream_whole (vcpu_note im)) by apply vcpu_whole. unfold km_core_dump_vcpu. f_equal. unfold km_core_dump_payloadv_note. f_equal.
  destruct (pl_filename (im_dyn im)); done.
Qed.
End Head.

(** ** Descriptors *)
Definition fd_types : list Z := [NT_KM_DUP_DATA; NT_KM_FILE; NT_KM_EVENTFD; NT_KM_SOCKET; NT_KM_EPOLLFD; NT_KM_IOCONTEXTS].
Ltac fd_type := unfold fd_types; rewrite !elem_of_cons; auto 10.

Section Fds.
  Context `{CoreHost}.

Lemma full_read_length left fd got want d : wp True (full_read left fd got want) (fun r _ => match r with inr b => length b = want | inl _ => True end) d.
Proof.
  revert got d. induction left as [|left IH]; intros got d; cbn [full_read].
  all: destruct (Nat.eqb_spec (length got) want); [by apply wp_ret|]; apply wp_bind, wp_get; apply wp_bind, wp_modify; destruct (_ <? 0); [by apply wp_ret|];
    apply wp_bind, wp_modify; first [apply IH | by apply wp_ret].
Qed.
Lemma save_length room file fd n d : wp True (fs_core_save_pipe_contents room file fd n) (fun r _ => match r with inr b => length b = n | inl _ => True end) d.
Proof.
  unfold fs_core_save_pipe_contents. apply wp_bind. eapply wp_mono; [apply quiet_assert|]. intros [] d1 _. apply wp_bind. eapply wp_mono; [apply quiet_assert|]. intros [] d2 _.
  apply wp_bind. eapply wp_mono; [apply full_read_length|]. intros [rc|b] d3 Hb; [by apply wp_ret|].
  destruct (_ <? 0).
  - destruct (ch_pair fd) as [pr|]; [|done]. apply wp_bind, wp_modify. apply wp_bind. eapply wp_mono; [apply quiet_full_write|]. intros rc d4 _. destruct (negb _); [done|]. apply wp_bind, wp_modify. destruct (negb _); [done|]. by apply wp_bind, wp_modify, wp_bind, wp_modify, wp_ret.
  - apply wp_bind. eapply wp_mono; [apply quiet_full_write|]. intros rc d4 _. destruct (negb _); [done|by apply wp_ret].
Qed.

Definition fd_note (b : list Z) : Prop := exists type desc, b = note_bytes (mk_note KM_NT_NAME type desc) /\ type ∈ fd_types /\ whole (mk_note KM_NT_NAME type desc).
Definition framed (r : Z + list Z) : Prop := match r with inr b => fd_note b | inl _ => True end.

Lemma fd_note_intro type desc descsz : type ∈ fd_types -> (length desc mod 4 = 0)%nat -> descsz = Z.of_nat (length desc) -> fd_note (km_add_note_header KM_NT_NAME type descsz ++ desc).
Proof. intros Ht Hd ->. exists type, desc. split_and!; [done|done|by apply whole_desc]. Qed.

Lemma length_str_field s : length (str_field s) = km_nt_file_padded_size s.
Proof. unfold str_field. rewrite length_app, length_replicate. unfold km_nt_file_padded_size, km_nt_chunk_roundup. lia. Qed.
Lemma mod4_add a b : (a mod 4 = 0 -> b mod 4 = 0 -> (a + b) mod 4 = 0)%nat.
Proof. intros Ha Hb. rewrite Nat.Div0.add_mod, Ha, Hb. done. Qed.
Lemma mod4_padded b : (length (padded b) mod 4 = 0)%nat.
Proof. rewrite padded_length. apply roundup_mod4. Qed.
Lemma mod4_str s : (length (str_field s) mod 4 = 0)%nat.
Proof. rewrite length_str_field. apply roundup_mod4. Qed.

(** A reading end of a pipe among the first three descriptors has no data. *)
Definition low_ok (file : km_file) (fd : Z) : Prop := fd <= 2 -> file.(how) <> KM_FILE_HOW_PIPE_0.

Lemma nonsocket_framed room file fd d : low_ok file fd -> wp True (fs_core_write_nonsocket room file fd) (fun r _ => framed r) d.
Proof.
  intros Hlow. unfold fs_core_write_nonsocket. destruct (ch_fstat fd) as [e|mode]; [by apply wp_ret|]. apply wp_bind.
  apply (wp_mono _ _ (fun q _ => file.(how) <> KM_FILE_HOW_PIPE_0 -> q = O)).
  { destruct (decide _); [|by apply wp_ret]. eapply wp_mono; [apply quiet_fionread|]. done. }
  intros q d1 Hq. destruct (fname file) as [name|]; [|done]. destruct (_ && negb _); [by apply wp_ret|]. set (nm := name_bytes name).
  destruct (Nat.ltb_spec 0 q) as [Hp|Hp]; cbn [andb].
  - destruct (Z.ltb_spec 2 fd) as [H2|H2]; [|specialize (Hq (Hlow H2)); lia].
    apply wp_bind. eapply wp_mono; [apply save_length|]. intros [rc|b] d2 Hb; [by apply wp_ret|]. apply wp_ret. apply fd_note_intro; [fd_type| |].
    + rewrite !length_app, length_put. apply mod4_add; [done|]. apply mod4_add; [apply mod4_str|apply mod4_padded].
    + rewrite !length_app, length_put, length_str_field, padded_length, Hb. change (width _) with 40%nat. unfold SIZEOF_NT_FILE. lia.
  - assert (q = O) as -> by lia. apply wp_ret. apply fd_note_intro; [fd_type| |].
    + rewrite !length_app, length_put. apply mod4_add; [done|]. apply mod4_str.
    + rewrite !length_app, length_put, length_str_field. change (width _) with 40%nat. unfold SIZEOF_NT_FILE. change (km_nt_chunk_roundup 0) with O. lia.
Qed.

(** The address of a socket is as long as its length says. *)
Definition addr_ok (file : km_file) : Prop := forall si, file.(sockinfo) = Some si -> (Z.to_nat si.(addrlen) <= length si.(addr))%nat.

Lemma socket_framed room file fd d : addr_ok file -> wp True (fs_core_write_socket room file fd) (fun r _ => framed r) d.
Proof.
  intros Ha. unfold fs_core_write_socket. destruct (ch_fstat fd) as [e|mode]; [by apply wp_ret|]. destruct (sockinfo file) as [si|] eqn:Es; [|done]. specialize (Ha si Es).
  assert (Hl : length (padded (take (Z.to_nat si.(addrlen)) si.(addr))) = km_nt_chunk_roundup (Z.to_nat si.(addrlen))) by (rewrite padded_length, length_take; f_equal; lia).
  apply wp_bind. apply (wp_mono _ _ (fun _ _ => True)).
  { destruct (is_pair _); [|by apply wp_ret]. eapply wp_mono; [apply quiet_fionread|]. done. }
  intros q d1 _. destruct (Nat.ltb_spec 0 q) as [Hp|Hp].
  - apply wp_bind. eapply wp_mono; [apply save_length|]. intros [rc|b] d2 Hb; [by apply wp_ret|]. apply wp_ret. apply fd_note_intro; [fd_type| |].
    + rewrite !length_app, length_put. apply mod4_add; [done|]. apply mod4_add; apply mod4_padded.
    + rewrite !length_app, length_put, Hl, padded_length, Hb. change (width _) with 44%nat. unfold SIZEOF_NT_SOCKET. lia.
  - assert (q = O) as -> by lia. apply wp_ret. apply fd_note_intro; [fd_type| |].
    + rewrite !length_app, length_put. apply mod4_add; [done|]. apply mod4_padded.
    + rewrite !length_app, length_put, Hl. change (width _) with 44%nat. unfold SIZEOF_NT_SOCKET. change (km_nt_chunk_roundup 0) with O. lia.
Qed.

Lemma events_mod4 l : (length (flat_map nt_event l) mod 4 = 0)%nat.
Proof. induction l as [|e l IH]; [done|]. cbn [flat_map]. rewrite length_app. unfold nt_event at 1. rewrite length_put. by apply mod4_add. Qed.

Lemma write_fd_framed room file fd d : low_ok file fd -> addr_ok file -> wp True (core_write_fd room file fd) (fun r _ => framed r) d.
Proof.
  intros Hl Ha. unfold core_write_fd. destruct (decide _).
  { unfold fs_core_write_epollfd. destruct (ch_fstat fd) as [e'|mode]; [by apply wp_ret|]. destruct (_ <? 0); [by apply wp_ret|]. destruct (_ <? _); [by apply wp_ret|].
    apply wp_ret. apply fd_note_intro; [fd_type| |done]. cbn [n_desc]. rewrite length_app, length_put. apply mod4_add; [done|apply events_mod4]. }
  destruct (decide _).
  { unfold fs_core_write_eventfd. destruct (ch_fstat fd) as [e'|mode]; [by apply wp_ret|]. apply wp_bind. apply (wp_mono _ _ (fun _ _ => True)).
    - unfold extract_fdinfo_field. repeat case_match; done.
    - intros [rc|count] d1 _; apply wp_ret; [done|]. apply fd_note_intro; [fd_type|cbn [n_desc]; by rewrite length_put|done]. }
  destruct (decide _); [by apply wp_ret|]. destruct (sockinfo file) eqn:Es; [by apply socket_framed|by apply nonsocket_framed].
Qed.

Definition fds_ok (fs : km_filesys) : Prop := forall i, km_is_file_used (file_at fs i) = true -> low_ok (file_at fs i) i /\ addr_ok (file_at fs i).
Definition fd_stream (r : Z + list Z) : Prop :=
  match r with inr b => exists ns, b = stream ns [] /\ Forall (fun n => n.(n_owner) = KM_NT_NAME /\ n.(n_type) ∈ fd_types) ns | inl _ => True end.

Lemma write_fds_framed room fs fds d : fds_ok fs -> wp True (core_write_fds room fs fds) (fun r _ => fd_stream r) d.
Proof.
  intros Hok. revert d. induction fds as [|i fds IH]; intros d; cbn [core_write_fds]; [apply wp_ret; by exists []|].
  destruct (km_is_file_used (file_at fs i)) eqn:Eu; [|apply IH]. destruct (Hok i Eu) as [Hl Ha]. apply wp_bind. eapply wp_mono; [by apply write_fd_framed|].
  intros [rc|b] d1 Hb; [by apply wp_ret|]. apply wp_bind. eapply wp_mono; [apply IH|]. intros [rc|bs] d2 Hbs; apply wp_ret; [done|].
  destruct Hb as (type & desc & -> & Ht & Hw). destruct Hbs as (ns & -> & Hns). exists (mk_note KM_NT_NAME type desc :: ns). split; [|by apply Forall_cons_2].
  cbn [stream]. by rewrite padded_whole.
Qed.
End Fds.

(** ** All of them *)
Lemma width_f32 l : width (map fst (map f32 l)) = (length l * 4)%nat.
Proof. induction l as [|z l IH]; [done|]. cbn [map width foldr fst f32 length] in *. unfold width in IH. rewrite IH. lia. Qed.
Lemma dup_whole groups : whole (mk_note KM_NT_NAME NT_KM_DUP_DATA (put (map f32 (km_fs_core_dup_write groups)))).
Proof. apply whole_desc; [done|]. rewrite length_put, width_f32. apply Nat.Div0.mod_mul. Qed.
Lemma ioc_whole s : whole (mk_note KM_NT_NAME NT_KM_IOCONTEXTS (iocontexts_desc s.(km_iocp) s.(km_piocontext))).
Proof.
  apply whole_desc; [done|]. unfold iocontexts_desc. rewrite length_app, length_put. apply mod4_add; [done|].
  induction (km_iocp s) as [|c l IH]; [done|]. cbn [flat_map]. rewrite length_app, length_put. by apply mod4_add.
Qed.
Lemma sighand_whole n : whole (sighand_note n).
Proof. apply whole_desc; [done|]. by rewrite length_put. Qed.

Lemma ret_inr_inj {S E A} (a b : A) (s t : S) : Ret (inr a : E + A, s) = Ret (inr b, t) -> a = b.
Proof. congruence. Qed.

Section All.
  Context `{CoreHost} (im : image).

Definition file_note (n : note) : Prop := n.(n_owner) = KM_NT_NAME /\ n.(n_type) ∈ fd_types.
Definition all_notes (vcpu : option core_vcpu) (gname : list Z) (files : list note) : list note :=
  head_notes im vcpu gname ++ files ++ map sighand_note (km_sig_core_notes_write im.(im_acts)).

Lemma notes_framed vcpu label description size ty gname d notes d' :
  im.(im_guest).(pl_filename) = Some gname -> (ty = KM_DO_SNAP -> fds_ok im.(im_fs)) -> km_core_write_notes im vcpu label description size ty d = Ret (inr notes, d') ->
  exists files, Forall file_note files /\ notes = stream (all_notes vcpu gname files) (note_bytes (monitor_note im label description)).
Proof.
  intros Hg Hok Hrun. unfold km_core_write_notes in Hrun. rewrite Hg in Hrun. fold (head_bytes im vcpu gname) in Hrun. set (mon := note_bytes _) in Hrun |- *.
  assert (Hend : forall fb, notes = head_bytes im vcpu gname ++ fb ++ sighand_notes im ++ mon -> (exists fns, fb = stream fns [] /\ Forall file_note fns) ->
    exists files, Forall file_note files /\ notes = stream (all_notes vcpu gname files) mon).
  { intros fb -> (fns & -> & Hf). exists fns. split; [done|]. unfold all_notes, sighand_notes. rewrite head_stream, !stream_app.
    rewrite (stream_whole sighand_note) by apply sighand_whole. by rewrite <- (stream_tail fns). }
  unfold bind at 1 in Hrun. destruct (decide (ty = KM_DO_SNAP)) as [->|].
  - unfold bind at 1 in Hrun. set (room := (size - _)%nat) in Hrun. pose proof (write_fds_framed room im.(im_fs) (seqZ 0 im.(im_fs).(nfdmap)) d (Hok eq_refl)) as Hw. unfold wp in Hw.
    fold (km_fs_core_notes_write room im.(im_fs)) in Hw. destruct (km_fs_core_notes_write room im.(im_fs) d) as [[[rc|b] d1]| |]; [done| |done|done].
    unfold ret, bind, km_assert in Hrun. destruct (Nat.leb _ _); [|done]. unfold ret in Hrun. apply ret_inr_inj in Hrun. destruct Hw as (ns & -> & Hns).
    eapply Hend; [symmetry; exact Hrun|]. exists (mk_note KM_NT_NAME NT_KM_DUP_DATA (put (map f32 (km_fs_core_dup_write im.(im_fs).(dup_data)))) :: ns ++ [mk_note KM_NT_NAME NT_KM_IOCONTEXTS (iocontexts_desc im.(im_ioc).(km_iocp) im.(im_ioc).(km_piocontext))]).
    split.
    + cbn [stream]. rewrite stream_app. cbn [stream]. rewrite (padded_whole _ (dup_whole _)), (padded_whole _ (ioc_whole _)). rewrite app_nil_r, (stream_tail ns (note_bytes _)). unfold dup_note, km_fs_iocontext_notes_write. reflexivity.
    + apply Forall_cons_2; [split; [done|fd_type]|]. apply Forall_app. split; [done|]. apply Forall_cons_2; [|constructor]. split; [done|fd_type].
  - unfold bind, ret, km_assert in Hrun. destruct (Nat.leb _ _); [|done]. apply ret_inr_inj in Hrun. eapply Hend; [symmetry; exact Hrun|]. exists []. by split.
Qed.

(** Sizes fit the headers. *)
Lemma stream_ok ns tail : Z.of_nat (length (stream ns tail)) < 2 ^ 32 -> Forall (fun n => length n.(n_owner) = 4%nat /\ 0 <= n.(n_type) < 2 ^ 32) ns -> Forall note_ok ns.
Proof.
  induction ns as [|n ns IH]; intros Hl Hf; [constructor|]. apply Forall_cons_1 in Hf as [[Ho Ht] Hf]. cbn [stream] in Hl. rewrite length_app in Hl.
  apply Forall_cons_2; [|apply IH; [lia|done]]. unfold padded in Hl. rewrite length_app, length_note_bytes in Hl. unfold note_ok. lia.
Qed.
End All.
