(* ===== verification/CorePipes.v ===== *)
(** * Pipes during a snapshot (proofs)

    The contents of a pipe are read for the note and written back through the other end,
    or into a new pipe when the other end is closed.  A guest whose ends are paired the
    way the table says reads afterwards what it would have read before; a dup of a reading
    end is not paired, and such a guest loses the data. *)
From S2P Require Import Prelude Machine FdTable Signal Stdio Notes IoContext CoreFs CoreDump CoreProps CoreBounds SnapNotes.

(** ** Queues *)
Definition same_data (p p' : pipes) : Prop := forall q, contents p' q = contents p q.
Definition same_ends (p p' : pipes) : Prop := p'.(p_ends) = p.(p_ends) /\ p'.(p_next) = p.(p_next).
(** All queues but [q] are as they were, and so are the ends. *)
Definition same_others (q : option Z) (p p' : pipes) : Prop := same_ends p p' /\ forall k, k <> q -> contents p' k = contents p k.

Lemma set_contents_eq q b p : is_Some q -> contents (set_contents q b p) q = b.
Proof. intros [k ->]. cbn. by rewrite lookup_insert_eq. Qed.
Lemma set_contents_others q b p : same_others q p (set_contents q b p).
Proof. destruct q as [q|]; (split; [done|]); intros [k|] Hk; cbn; try done. rewrite lookup_insert_ne by congruence. done. Qed.
Lemma same_others_trans q p1 p2 p3 : same_others q p1 p2 -> same_others q p2 p3 -> same_others q p1 p3.
Proof. intros [[E1 N1] C1] [[E2 N2] C2]. split; [split; congruence|]. intros k Hk. rewrite C2 by done. by apply C1. Qed.
Lemma same_ends_reads p p' fd : same_ends p p' -> reads p' fd = reads p fd /\ writes p' fd = writes p fd.
Proof. intros [E _]. unfold reads, writes. by rewrite E. Qed.

Section Pipes.
  Context `{CoreHost}.

(** What was read and what is left make up what there was. *)
Lemma full_read_queue left fd got want d :
  wp True (full_read left fd got want)
    (fun r d' => match r with
       inr b => b ++ queued d' fd = got ++ queued d fd /\ length b = want /\ same_others (reads d.(d_queue) fd) d.(d_queue) d'.(d_queue) | inl _ => True end) d.
Proof.
  revert got d. induction left as [|left IH]; intros got d; cbn [full_read]; (destruct (Nat.eqb_spec (length got) want); [apply wp_ret; by split_and!|]);
    apply wp_bind, wp_get; apply wp_bind, wp_modify; (destruct (_ <? 0); [by apply wp_ret|]); apply wp_bind, wp_modify; [by apply wp_ret|].
  set (k := Z.to_nat _). set (q := reads (d_queue d) fd). set (p1 := set_contents q _ _). pose proof (set_contents_others q (drop k (queued d fd)) d.(d_queue)) as Ho1. fold p1 in Ho1.
  destruct (same_ends_reads _ _ fd (proj1 Ho1)) as [Er _]. eapply wp_mono; [apply IH|]. intros [rc|b] d' Hb; [done|]. cbn [set_queue called d_queue] in Hb. destruct Hb as (E & Hl & Ho).
  rewrite Er in Ho. split_and!; [|done|by eapply same_others_trans]. rewrite E, <- app_assoc. f_equal. unfold queued. cbn [set_queue called d_queue]. rewrite Er. fold q.
  rewrite <- (take_drop k (contents (d_queue d) q)) at 2. f_equal. unfold p1, queued. fold q. clearbody q. destruct q as [q0|]; [apply set_contents_eq; eauto|by destruct k].
Qed.

(** What was written is behind what there was. *)
Lemma full_write_queue left fd buf d :
  is_Some (writes d.(d_queue) fd) ->
  wp True (full_write left fd buf) (fun rc d' => rc = 0 -> let q := writes d.(d_queue) fd in
    contents d'.(d_queue) q = contents d.(d_queue) q ++ buf /\ same_others q d.(d_queue) d'.(d_queue)) d.
Proof.
  revert buf d. induction left as [|left IH]; intros buf d Hq; cbn [full_write];
    (destruct (Nat.eqb_spec (length buf) 0) as [E0|]; [apply wp_ret; intros _; apply length_zero_iff_nil in E0 as ->; by rewrite app_nil_r|]);
    apply wp_bind, wp_get; apply wp_bind, wp_modify; (destruct (Z.ltb_spec (ch_write (d_calls d) (Z.of_nat (length buf))) 0); [apply wp_ret; lia|]); apply wp_bind, wp_modify; [by apply wp_ret|].
  set (k := Z.to_nat _). cbv zeta. set (q := writes (d_queue d) fd) in *. set (p1 := set_contents q _ _).
  pose proof (set_contents_others q (contents (d_queue d) q ++ take k buf) d.(d_queue)) as Ho1. fold p1 in Ho1. destruct (same_ends_reads _ _ fd (proj1 Ho1)) as [_ Ew]. fold q in Ew.
  eapply wp_mono; [apply IH; cbn [set_queue called d_queue]; by rewrite Ew|]. intros rc d' Hr ->. cbn [set_queue called d_queue] in Hr. rewrite Ew in Hr. destruct (Hr eq_refl) as [E Ho].
  split; [|by eapply same_others_trans]. rewrite E. unfold p1. rewrite set_contents_eq by done. rewrite <- app_assoc. by rewrite take_drop.
Qed.

(** Reading everything empties the queue. *)
Lemma read_all fd d :
  wp True (do_full_read fd (length (queued d fd)))
    (fun r d' => match r with inr b => b = queued d fd /\ queued d' fd = [] /\ same_others (reads d.(d_queue) fd) d.(d_queue) d'.(d_queue) | inl _ => True end) d.
Proof.
  eapply wp_mono; [apply full_read_queue|]. intros [rc|b] d' Hb; [done|]. destruct Hb as (E & Hl & Ho). cbn [app] in E.
  pose proof (f_equal length E) as El. rewrite length_app, Hl in El. assert (Hz : queued d' fd = []) by (apply length_zero_iff_nil; lia). rewrite Hz, app_nil_r in E. done.
Qed.

(** ** What the entries of a guest promise *)
Definition reading_end (file : km_file) : bool :=
  match file.(sockinfo) with None => bool_decide (file.(how) = KM_FILE_HOW_PIPE_0) | Some _ => is_pair file.(how) end.
Definition half_open (fs : km_filesys) (fd : Z) : bool := km_is_file_used (file_at fs fd) && reading_end (file_at fs fd) && ((file_at fs fd).(ofd) <? 0).

(** The other end an entry names writes to the queue the entry reads, and names it in turn;
    where an entry names none, no other descriptor uses the queue.  New descriptors and
    queues are new. *)
Record paired (fs : km_filesys) (p : pipes) : Prop := {
  pa_linked : forall i, km_is_file_used (file_at fs i) = true -> reading_end (file_at fs i) = true -> 0 <= (file_at fs i).(ofd) ->
    writes p (file_at fs i).(ofd) = reads p i /\ half_open fs (file_at fs i).(ofd) = false;
  pa_alone : forall i k, half_open fs i = true -> k <> i -> is_Some (reads p i) -> reads p k <> reads p i;
  pa_pair : forall i f, half_open fs i = true -> ch_pair i = Some f -> f.1 <> f.2 /\ p.(p_ends) !! f.1 = None /\ p.(p_ends) !! f.2 = None /\ i <> f.1 /\ i <> f.2;
  pa_below : forall k q, reads p k = Some q \/ writes p k = Some q -> q < p.(p_next);
}.

Definition readable (p : pipes) (fd : Z) : list Z := contents p (reads p fd).
(** What a guest can see of its pipes: what each descriptor would read, and, half open ones
    apart, which queues it is connected to. *)
Definition same_pipes (fs : km_filesys) (p p' : pipes) : Prop :=
  (forall fd, readable p' fd = readable p fd) /\ (forall fd, half_open fs fd = false -> p'.(p_ends) !! fd = p.(p_ends) !! fd).
Lemma same_pipes_trans fs p1 p2 p3 : same_pipes fs p1 p2 -> same_pipes fs p2 p3 -> same_pipes fs p1 p3.
Proof. intros [A1 B1] [A2 B2]. split; intros fd; [by rewrite A2|intros Hh; by rewrite B2, B1]. Qed.

Definition keeps_pipes (fs : km_filesys) (p p' : pipes) : Prop := same_pipes fs p p' /\ paired fs p'.

Lemma same_ends_keep fs p p' : paired fs p -> same_ends p p' -> same_data p p' -> keeps_pipes fs p p'.
Proof.
  intros [P1 P2 P3 P4] E D. pose proof (fun fd => same_ends_reads p p' fd E) as Hrw. destruct E as [Ee En]. split; [split|split].
  - intros fd. unfold readable. rewrite (proj1 (Hrw fd)). apply D.
  - intros fd _. by rewrite Ee.
  - intros i. rewrite (proj1 (Hrw i)), (proj2 (Hrw _)). apply P1.
  - intros i k. rewrite !(fun fd => proj1 (Hrw fd)). apply P2.
  - intros i f. rewrite Ee. apply P3.
  - intros k q. rewrite En, (proj1 (Hrw k)), (proj2 (Hrw k)). apply P4.
Qed.

(** A half open end is moved to a new pair that holds the same bytes. *)
Lemma moved_keep fs p p' fd w :
  paired fs p -> half_open fs fd = true -> is_Some (reads p fd) -> (forall q, w = Some q -> p.(p_next) < q < p.(p_next) + 2) ->
  p'.(p_next) = p.(p_next) + 2 -> p'.(p_ends) !! fd = Some (Some p.(p_next), w) -> (forall k, k <> fd -> p'.(p_ends) !! k = p.(p_ends) !! k) ->
  contents p' (Some p.(p_next)) = contents p (reads p fd) -> (forall q, q <> reads p fd -> (forall n, q = Some n -> n < p.(p_next)) -> contents p' q = contents p q) ->
  keeps_pipes fs p p'.
Proof.
  intros [P1 P2 P3 P4] Hh Hs Hw Hn Hfd Hk Hc Ho.
  assert (Rk : forall k, k <> fd -> reads p' k = reads p k /\ writes p' k = writes p k) by (intros k Hne; unfold reads, writes; by rewrite Hk).
  assert (Rf : reads p' fd = Some p.(p_next) /\ writes p' fd = w) by (unfold reads, writes; by rewrite Hfd). destruct Rf as [Rf Wf].
  split; [split|split].
  - intros k. unfold readable. destruct (decide (k = fd)) as [->|Hne]; [by rewrite Rf|]. rewrite (proj1 (Rk k Hne)). apply Ho; [by apply P2|]. intros n Hq. eapply P4. by left.
  - intros k Hf. apply Hk. by intros ->; rewrite Hh in Hf.
  - intros i Hu Hr Hof. destruct (P1 i Hu Hr Hof) as [Hl Hnh]. split; [|done].
    assert (i <> fd) by (intros ->; unfold half_open in Hh; apply andb_true_iff in Hh as [_ ?%Z.ltb_lt]; lia).
    assert ((file_at fs i).(ofd) <> fd) by (intros E; by rewrite E, Hh in Hnh). by rewrite (proj1 (Rk i ltac:(done))), (proj2 (Rk (ofd (file_at fs i)) ltac:(done))).
  - intros i k Hi Hne [q Hq]. destruct (decide (i = fd)) as [->|Hi1].
    + rewrite Rf, (proj1 (Rk k Hne)). intros E. specialize (P4 k _ (or_introl E)). lia.
    + rewrite (proj1 (Rk i Hi1)) in *. destruct (decide (k = fd)) as [->|Hk1]; [|rewrite (proj1 (Rk k Hk1)); by apply P2].
      rewrite Rf. intros E. specialize (P4 i _ (or_introl (eq_sym E))). lia.
  - intros i f Hi Hf. destruct (P3 i f Hi Hf) as (A & B & C & D & E).
    assert (Hin : forall x, p.(p_ends) !! x = None -> p'.(p_ends) !! x = None).
    { intros x Hx. destruct (decide (x = fd)) as [->|Hne]; [|by rewrite Hk]. destruct Hs as [q Hq]. unfold reads in Hq. by rewrite Hx in Hq. }
    split_and!; try done; by apply Hin.
  - intros k q. rewrite Hn. destruct (decide (k = fd)) as [->|Hne].
    + rewrite Rf, Wf. intros [[= <-]|E]; [lia|]. specialize (Hw q E). lia.
    + rewrite (proj1 (Rk k Hne)), (proj2 (Rk k Hne)). intros E. specialize (P4 k q E). lia.
Qed.

(** ** One descriptor *)
Lemma write_back fs fd b d d1 :
  paired fs d.(d_queue) -> km_is_file_used (file_at fs fd) = true -> reading_end (file_at fs fd) = true -> 0 <= (file_at fs fd).(ofd) -> is_Some (reads d.(d_queue) fd) ->
  b = queued d fd -> queued d1 fd = [] -> same_others (reads d.(d_queue) fd) d.(d_queue) d1.(d_queue) ->
  wp True (do_full_write (file_at fs fd).(ofd) b) (fun rc d' => rc = 0 -> keeps_pipes fs d.(d_queue) d'.(d_queue)) d1.
Proof.
  intros P Hu Hr Hof Hs -> Hz Ho. destruct (pa_linked _ _ P fd Hu Hr Hof) as [Hl _]. set (o := ofd _) in *.
  destruct (same_ends_reads _ _ o (proj1 Ho)) as [_ Ew]. destruct (same_ends_reads _ _ fd (proj1 Ho)) as [Er _]. unfold queued in Hz. rewrite Er in Hz. rewrite Hl in Ew.
  eapply wp_mono; [apply full_write_queue; by rewrite Ew|]. intros rc d2 Hw E. specialize (Hw E). cbv zeta in Hw. rewrite Ew in Hw. destruct Hw as [Hc Ho2].
  apply same_ends_keep; [done|..]; pose proof (same_others_trans _ _ _ _ Ho Ho2) as [He Hd]; [done|]. intros q. destruct (decide (q = reads (d_queue d) fd)) as [->|Hq]; [|by apply Hd].
  rewrite Hc, Hz. done.
Qed.

Lemma pair_ends fs p f i both :
  paired fs p -> half_open fs i = true -> ch_pair i = Some f -> let p1 := host_pair both f p in
  writes p1 f.2 = Some p.(p_next) /\ contents p1 (Some p.(p_next)) = [] /\ (forall q, (forall n, q = Some n -> n < p.(p_next)) -> contents p1 q = contents p q)
  /\ p1.(p_ends) !! f.1 = Some (Some p.(p_next), if both then Some (p.(p_next) + 1) else None) /\ (forall k, k <> f.1 -> k <> f.2 -> p1.(p_ends) !! k = p.(p_ends) !! k).
Proof.
  intros P Hi Hf p1. destruct (pa_pair _ _ P i f Hi Hf) as (Hne & _). unfold p1, host_pair, writes. cbn [p_ends contents p_data]. split_and!.
  - by rewrite lookup_insert_eq.
  - by rewrite lookup_insert_ne, lookup_insert_eq by lia.
  - intros [q|] Hq; [|done]. specialize (Hq q eq_refl). cbn [contents]. cbn. by rewrite !lookup_insert_ne by lia.
  - by rewrite lookup_insert_ne, lookup_insert_eq by done.
  - intros k H1 H2. by rewrite !lookup_insert_ne by done.
Qed.

Lemma move_end fs p f fd p2 :
  paired fs p -> half_open fs fd = true -> ch_pair fd = Some f -> (forall k, k <> f.1 -> k <> f.2 -> p2.(p_ends) !! k = p.(p_ends) !! k) -> is_Some (p2.(p_ends) !! f.1) ->
  let p3 := host_close f.1 (host_dup2 f.1 fd (host_close f.2 p2)) in
  p3.(p_ends) !! fd = p2.(p_ends) !! f.1 /\ (forall k, k <> fd -> p3.(p_ends) !! k = p.(p_ends) !! k) /\ p3.(p_data) = p2.(p_data) /\ p3.(p_next) = p2.(p_next).
Proof.
  intros P Hh Hf Hk [e He] p3. destruct (pa_pair _ _ P fd f Hh Hf) as (Hne & N1 & N2 & F1 & F2).
  assert (E : p3.(p_ends) = delete f.1 (<[fd := e]> (delete f.2 p2.(p_ends)))).
  { unfold p3, host_close, host_dup2, set_ends. cbn [p_ends]. by rewrite lookup_delete_ne, He by done. }
  rewrite E. split_and!; [by rewrite lookup_delete_ne, lookup_insert_eq by done| |done|done].
  intros k Hkf. destruct (decide (k = f.1)) as [->|H1]; [by rewrite lookup_delete_eq|]. rewrite lookup_delete_ne, lookup_insert_ne by done.
  destruct (decide (k = f.2)) as [->|H2]; [by rewrite lookup_delete_eq|]. rewrite lookup_delete_ne by done. by apply Hk.
Qed.

Lemma contents_data p p' q : p'.(p_data) = p.(p_data) -> contents p' q = contents p q.
Proof. intros E. destruct q; [|done]. cbn. by rewrite E. Qed.

Lemma recreate fs fd f both b d d1 :
  paired fs d.(d_queue) -> half_open fs fd = true -> is_Some (reads d.(d_queue) fd) -> ch_pair fd = Some f ->
  b = queued d fd -> same_others (reads d.(d_queue) fd) d.(d_queue) d1.(d_queue) ->
  wp True (do_full_write f.2 b)
    (fun rc d' => rc = 0 -> keeps_pipes fs d.(d_queue) (host_close f.1 (host_dup2 f.1 fd (host_close f.2 d'.(d_queue))))) (set_queue (host_pair both f d1.(d_queue)) d1).
Proof.
  intros P Hh Hs Hf -> [[Ee En] Ho]. set (p := d_queue d) in *. set (p1 := host_pair both f (d_queue d1)).
  assert (P1 : paired fs (mk_pipes p.(p_ends) d1.(d_queue).(p_data) p.(p_next))) by (destruct P; by split).
  destruct (pair_ends fs _ f fd both P1 Hh Hf) as (W & Z0 & Old & Hf1 & Hk). cbn [p_next p_ends] in *.
  assert (Ep : host_pair both f (mk_pipes p.(p_ends) d1.(d_queue).(p_data) p.(p_next)) = p1) by (unfold p1; rewrite <- Ee, <- En; by destruct (d_queue d1)). rewrite Ep in *.
  eapply wp_mono; [apply full_write_queue; cbn [set_queue d_queue]; fold p1; rewrite W; eauto|].
  intros rc d2 Hw E. specialize (Hw E). cbn [set_queue d_queue] in Hw. fold p1 in Hw. rewrite W, Z0 in Hw. cbn [app] in Hw. destruct Hw as [Hc [[Ee2 En2] Ho2]].
  destruct (move_end fs p f fd (d_queue d2) P Hh Hf) as (M1 & M2 & M3 & M4); [intros k H1 H2; rewrite Ee2; by apply Hk|rewrite Ee2, Hf1; eauto|]. set (p3 := host_close _ _) in *.
  apply (moved_keep fs p p3 fd (if both then Some (p_next p + 1) else None) P Hh Hs); [destruct both; [|done]; intros q [= <-]; lia| |by rewrite M1, Ee2|done| |].
  - rewrite M4, En2. by rewrite <- Ep.
  - by rewrite (contents_data _ _ _ M3), Hc.
  - intros q Hq Hlt. rewrite (contents_data _ _ _ M3), Ho2 by (intros ->; specialize (Hlt _ eq_refl); lia). rewrite Old, <- (Ho q Hq) by done. by apply contents_data.
Qed.

Lemma save_pipes room fs fd d :
  paired fs d.(d_queue) -> km_is_file_used (file_at fs fd) = true -> reading_end (file_at fs fd) = true -> (0 < length (queued d fd))%nat ->
  wp True (fs_core_save_pipe_contents room (file_at fs fd) fd (length (queued d fd)))
    (fun r d' => match r with inr b => b = queued d fd /\ keeps_pipes fs d.(d_queue) d'.(d_queue) | inl _ => True end) d.
Proof.
  intros P Hu Hr Hlen. assert (Hs : is_Some (reads d.(d_queue) fd)) by (unfold queued in Hlen; destruct (reads _ _); [eauto|cbn in Hlen; lia]).
  unfold fs_core_save_pipe_contents. apply wp_bind. unfold km_assert at 1. destruct (Nat.leb _ _); [|done]. apply wp_ret.
  apply wp_bind. unfold km_assert. destruct (0 <=? fd); [|done]. apply wp_ret. apply wp_bind. eapply wp_mono; [apply read_all|].
  intros [rc|b] d1 Hb; [by apply wp_ret|]. destruct Hb as (-> & Hz & Ho). destruct (Z.ltb_spec (ofd (file_at fs fd)) 0) as [Hneg|Hpos].
  - destruct (ch_pair fd) as [f|] eqn:Ef; [|done]. assert (Hh : half_open fs fd = true) by (unfold half_open; rewrite Hu, Hr, (proj2 (Z.ltb_lt _ _)) by done; done).
    unfold on_pipes. apply wp_bind, wp_modify, wp_bind. eapply wp_mono; [exact (recreate fs fd f (is_pair (how (file_at fs fd))) _ d d1 P Hh Hs Ef eq_refl Ho)|]. intros rc d2 Hk. destruct (Z.eqb_spec rc 0) as [E|]; [|done]. cbn [negb].
    apply wp_bind, wp_modify. destruct (negb _); [done|]. apply wp_bind, wp_modify, wp_bind, wp_modify, wp_ret. split; [done|]. exact (Hk E).
  - apply wp_bind. eapply wp_mono; [by eapply write_back|]. intros rc d2 Hk. destruct (Z.eqb_spec rc 0) as [E|]; [|done]. cbn [negb]. apply wp_ret. split; [done|]. exact (Hk E).
Qed.

(** ** All of them *)
Definition keeping {A} (fs : km_filesys) (c : M dump (Z + A)) : Prop :=
  forall d, paired fs d.(d_queue) -> wp True c (fun r d' => match r with inr _ => keeps_pipes fs d.(d_queue) d'.(d_queue) | inl _ => True end) d.

Lemma keeps_refl fs p : paired fs p -> keeps_pipes fs p p.
Proof. by split. Qed.
Lemma fionread_queue fd d : wp True (ioctlfionread fd) (fun n d' => d' = d /\ n = length (queued d fd)) d.
Proof. unfold ioctlfionread. destruct (ch_fionread fd); [|done]. by apply wp_bind, wp_get, wp_ret. Qed.
Lemma fionread_if (b : bool) fd d : wp True (if b then ioctlfionread fd else ret O) (fun n d' => d' = d /\ ((0 < n)%nat -> b = true /\ n = length (queued d fd))) d.
Proof. destruct b; [|apply wp_ret; split; [done|lia]]. eapply wp_mono; [apply fionread_queue|]. by intros n d' [-> ->]. Qed.

Lemma nonsocket_keeps room fs fd : km_is_file_used (file_at fs fd) = true -> sockinfo (file_at fs fd) = None -> keeping fs (fs_core_write_nonsocket room (file_at fs fd) fd).
Proof.
  intros Hu Hsi d P. unfold fs_core_write_nonsocket. destruct (ch_fstat fd) as [e|mode]; [by apply wp_ret|]. apply wp_bind.
  apply (wp_mono _ _ (fun q d' => d' = d /\ ((0 < q)%nat -> reading_end (file_at fs fd) = true /\ q = length (queued d fd)))).
  { unfold reading_end. rewrite Hsi. destruct (decide (how (file_at fs fd) = KM_FILE_HOW_PIPE_0)) as [E|]; [|apply wp_ret; split; [done|lia]].
    rewrite bool_decide_true by done. exact (fionread_if true fd d). }
  intros q d1 [-> Hq]. destruct (fname _) as [name|]; [|done]. destruct (_ && negb _); [by apply wp_ret|].
  destruct (_ && (2 <? fd)) eqn:Eb; [|by apply wp_ret, keeps_refl]. apply andb_true_iff in Eb as [Eq%Nat.ltb_lt _]. destruct (Hq Eq) as [Hp ->].
  apply wp_bind. eapply wp_mono; [by apply save_pipes|]. intros [rc|b] d2 Hb; apply wp_ret; [done|apply Hb].
Qed.
Lemma socket_keeps room fs fd : km_is_file_used (file_at fs fd) = true -> is_Some (sockinfo (file_at fs fd)) -> keeping fs (fs_core_write_socket room (file_at fs fd) fd).
Proof.
  intros Hu [si Hsi] d P. unfold fs_core_write_socket. destruct (ch_fstat fd) as [e|mode]; [by apply wp_ret|]. rewrite Hsi. apply wp_bind.
  eapply wp_mono; [apply fionread_if|]. intros q d1 [-> Hq]. destruct (Nat.ltb_spec 0 q) as [Hp|Hp]; [|by apply wp_ret, keeps_refl]. destruct (Hq Hp) as [Hr ->].
  apply wp_bind. eapply wp_mono; [apply save_pipes; try done; unfold reading_end; by rewrite Hsi|]. intros [rc|b] d2 Hb; apply wp_ret; [done|apply Hb].
Qed.
Lemma fd_keeps room fs fd : km_is_file_used (file_at fs fd) = true -> keeping fs (core_write_fd room (file_at fs fd) fd).
Proof.
  intros Hu d P. unfold core_write_fd. destruct (decide _).
  { unfold fs_core_write_epollfd. repeat case_match; apply wp_ret; try done; by apply keeps_refl. }
  destruct (decide _).
  { unfold fs_core_write_eventfd. case_match; [by apply wp_ret|]. apply wp_bind. apply (wp_mono _ _ (fun _ d' => d' = d)).
    - unfold extract_fdinfo_field. repeat case_match; done.
    - intros [rc|count] d1 ->; apply wp_ret; [done|by apply keeps_refl]. }
  destruct (decide _); [by apply wp_ret|]. destruct (sockinfo _) eqn:E; [apply socket_keeps; eauto|by apply nonsocket_keeps].
Qed.
Lemma fds_keep room fs fds : keeping fs (core_write_fds room fs fds).
Proof.
  induction fds as [|i fds IH]; intros d P; cbn [core_write_fds]; [by apply wp_ret, keeps_refl|]. destruct (km_is_file_used _) eqn:Hu; [|by apply IH].
  apply wp_bind. eapply wp_mono; [by apply fd_keeps|]. intros [rc|b] d1 H1; [by apply wp_ret|]. destruct H1 as [S1 P1]. apply wp_bind. eapply wp_mono; [by apply IH|].
  intros [rc|bs] d2 H2; apply wp_ret; [done|]. destruct H2 as [S2 P2]. split; [by eapply same_pipes_trans|done].
Qed.
End Pipes.

