(* ===== verification/SnapFile.v ===== *)
(** * Reading back the file (proofs)

    The reader of the snapshot finds in a core file the headers and the notes that the
    writer put there. *)
From S2P Require Import Prelude Machine MemGeom TopBreak MemBrk MmapRegion MmapGuest MmapList MmapRange MmapFree MmapCorrect MmapSystem FdTable Signal Stdio Notes IoContext CoreFs CoreDump CoreProps CoreBounds CoreImage FdRecover Snapshot.

Lemma read_at_holds f len off b : 0 <= off -> off + Z.of_nat (length b) <= len -> holds_bytes f off b -> read_at (mk_elf f len) off (Z.of_nat (length b)) = Some b.
Proof.
  intros Ho Hl Hh. unfold read_at. cbn [ef_length ef_bytes]. destruct (Z.leb_spec 0 off); [|lia]. destruct (Z.leb_spec (off + Z.of_nat (length b)) len); [|lia]. cbn [andb].
  f_equal. apply list_eq. intros i. change (map ?g ?l) with (g <$> l). rewrite list_lookup_fmap. destruct (b !! i) as [v|] eqn:E.
  - apply lookup_lt_Some in E as Hi. rewrite lookup_seqZ_lt by lia. cbn. f_equal. rewrite <- (Hh i v E). f_equal; lia.
  - apply lookup_ge_None in E. rewrite lookup_seqZ_ge by lia. done.
Qed.

Lemma parse_phdr_bytes ph rest : Forall fits (phdr_fields ph) -> parse_phdr (phdr_bytes ph ++ rest) = Some ph.
Proof. intros Hf. unfold parse_phdr, phdr_bytes. change (map fst _) with (map fst (phdr_fields ph)). rewrite fields_put by done. by destruct ph. Qed.
Lemma parse_ehdr_bytes e rest : length e.(e_ident) = 16%nat -> Forall fits (ehdr_fields e) -> parse_ehdr (ehdr_bytes e ++ rest) = Some e.
Proof.
  intros Hi Hf. unfold parse_ehdr, ehdr_bytes. rewrite <- app_assoc, drop_app_length' by done. change (map fst _) with (map fst (ehdr_fields e)).
  rewrite fields_put by done. rewrite take_app_length' by done. by destruct e.
Qed.

Lemma holds_phdr f off phs i ph : holds_bytes f off (flat_map phdr_bytes phs) -> phs !! i = Some ph -> holds_bytes f (off + 56 * Z.of_nat i) (phdr_bytes ph).
Proof.
  revert off i. induction phs as [|p phs IH]; intros off i Hh Hi; [done|]. cbn [flat_map] in Hh. destruct i as [|i].
  - injection Hi as ->. replace (off + 56 * Z.of_nat 0) with off by lia. intros j v Hj. apply Hh. by apply lookup_app_l_Some.
  - cbn in Hi. replace (off + 56 * Z.of_nat (S i)) with (off + 56 + 56 * Z.of_nat i) by lia. apply IH; [|done].
    intros j v Hj. specialize (Hh (56 + j)%nat v). rewrite <- Hh; [f_equal; lia|]. rewrite lookup_app_r by (rewrite length_phdr_bytes; lia).
    rewrite length_phdr_bytes. by replace (56 + j - 56)%nat with j by lia.
Qed.

Ltac fits_all := unfold two64, EM_X86_64, ET_CORE, PT_NOTE, PT_LOAD in *; fits_fields.

(** The header of an ELF file for this processor. *)
Record elf_ok (e : Elf64_Ehdr) : Prop := {
  eo_magic : take 4 e.(e_ident) = ELFMAG; eo_class : e.(e_ident) !! 4%nat = Some 2; eo_data : e.(e_ident) !! 5%nat = Some 1;
  eo_machine : e.(e_machine) = EM_X86_64; eo_version : e.(e_version) = 1; eo_entry : 0 <= e.(e_entry) < two64; eo_length : length e.(e_ident) = 16%nat;
}.

Section File.
  Context (im : image) (notes : list Z) (size : nat) (f : Z -> Z) (len : Z).
  Context (Hcf : core_file im notes size f len) (Hel : elf_ok im.(im_guest).(pl_ehdr)) (Hph : phnum im < 2 ^ 16).
  Context (Hfits : Forall (fun ph => Forall fits (phdr_fields ph)) (core_phdrs im notes size)).

Lemma core_ehdr_fits : Forall fits (ehdr_fields (core_ehdr im)).
Proof.
  destruct Hel as [_ _ _ H4 H5 H6 _]. unfold ehdr_fields, core_ehdr. cbn [e_type e_machine e_version e_entry e_phoff e_shoff e_flags e_ehsize e_phentsize e_phnum e_shentsize e_shnum e_shstrndx]. rewrite H4, H5.
  assert (0 <= phnum im) by (unfold phnum; lia). fits_all.
Qed.

Lemma length_core_phdrs : Z.of_nat (length (core_phdrs im notes size)) = phnum im.
Proof. unfold core_phdrs, phnum. cbn [length]. rewrite length_seg_phdrs. lia. Qed.

Lemma open_core : km_open_elf_file (mk_elf f len) = Some (core_ehdr im).
Proof.
  unfold km_open_elf_file. destruct Hel as [H1 H2 H3 H4 H5 _ H7]. pose proof (length_ehdr_bytes (core_ehdr im) H7) as Hl.
  assert (E : read_at (mk_elf f len) 0 SIZEOF_EHDR = Some (ehdr_bytes (core_ehdr im))).
  { replace SIZEOF_EHDR with (Z.of_nat (length (ehdr_bytes (core_ehdr im)))) by (by rewrite Hl). apply read_at_holds; [done| |apply Hcf].
    pose proof (cf_len _ _ _ _ _ Hcf). rewrite Hl. unfold notes_offset, phnum in *. lia. }
  rewrite E. cbn [mbind option_bind]. rewrite <- (app_nil_r (ehdr_bytes _)), parse_ehdr_bytes by (exact H7 || exact core_ehdr_fits). cbn [mbind option_bind].
  change (e_ident (core_ehdr im)) with (e_ident (pl_ehdr (im_guest im))). change (e_machine (core_ehdr im)) with (e_machine (pl_ehdr (im_guest im))).
  change (e_version (core_ehdr im)) with (e_version (pl_ehdr (im_guest im))). rewrite H4, H5.
  rewrite !bool_decide_eq_true_2 by done. done.
Qed.

Lemma fill_core : km_snapshot_fill_km_payload (mk_elf f len) (core_ehdr im) = Some (core_phdrs im notes size).
Proof.
  unfold km_snapshot_fill_km_payload. change (e_phnum (core_ehdr im)) with (phnum im). apply mapM_Some, Forall2_same_length_lookup. split.
  { rewrite length_seqZ, <- length_core_phdrs. lia. }
  intros i x ph Hx Hi. apply lookup_seqZ in Hx as [-> Hlt]. unfold km_elf_get_phdr. change (e_phentsize (core_ehdr im)) with 56. change (e_phoff (core_ehdr im)) with 64.
  change (negb (56 =? SIZEOF_PHDR)) with false. cbn [negb]. pose proof (length_phdr_bytes ph) as Hl.
  assert (E : read_at (mk_elf f len) (64 + (0 + Z.of_nat i) * 56) 56 = Some (phdr_bytes ph)).
  { replace 56 with (Z.of_nat (length (phdr_bytes ph))) at 2 by (by rewrite Hl). apply read_at_holds; [lia| |].
    - pose proof (cf_len _ _ _ _ _ Hcf). rewrite Hl. unfold notes_offset in *. lia.
    - replace (64 + (0 + Z.of_nat i) * 56) with (64 + 56 * Z.of_nat i) by lia. eapply holds_phdr; [apply Hcf|done]. }
  rewrite E. cbn [mbind option_bind]. rewrite <- (app_nil_r (phdr_bytes _)). apply parse_phdr_bytes.
  exact (proj1 (Forall_lookup _ _) Hfits i ph Hi).
Qed.

Lemma read_core_notes : km_snapshot_read_notes (mk_elf f len) (core_phdrs im notes size) = Some (inr notes).
Proof.
  cbn [core_phdrs km_snapshot_read_notes note_phdr ph_type ph_offset ph_filesz]. change (PT_NOTE =? PT_NOTE) with true. cbn iota.
  destruct Hcf as [_ _ H3 H4 H5 _]. rewrite read_at_holds; [done| | |done]; unfold notes_offset, phnum in *; lia.
Qed.
End File.
