(* ===== verification/SnapMem.v ===== *)
(** * Memory survives a snapshot (proofs)

    Recovery maps each segment of the file where the image had it and gives each mapping
    of the guest its protection. *)
From S2P Require Import Prelude Machine MemGeom TopBreak MemBrk MmapRegion MmapGuest MmapList MmapRange MmapFree MmapCorrect MmapSystem FdTable Signal Stdio Notes IoContext CoreFs CoreDump CoreProps CoreBounds CoreImage FdRecover Snapshot SnapFile.

#[local] Abbreviation TOP := GUEST_MEM_TOP_VA.

(** ** What mprotect leaves alone *)
Lemma mprotect_touches `{Host} m addr sz prot :
  mmap_inv m -> 0 <= addr -> 0 <= sz < LIMIT -> addr + pages sz <= addr_limit ->
  wp True (km_guest_mprotect addr sz prot) (fun _ s => exists b tr, s = set_mmaps_busy b (set_trace tr m)) m.
Proof.
  intros T Ha Hs Hlim. destruct (pages_bounds sz Hs) as [P1 P2]. unfold km_guest_mprotect. fold (pages sz).
  assert (Hself : exists b tr, m = set_mmaps_busy b (set_trace tr m)) by (exists m.(mmaps_busy), m.(trace); by destruct m).
  destruct (negb _); [apply wp_ret; exact Hself|]. destruct (_ || _) eqn:E0; [by apply wp_ret|]. apply orb_false_iff in E0 as [_ E0%Z.eqb_neq].
  unfold km_guest_mprotect_nolock. apply wp_bind, wp_get. destruct (_ && _).
  { apply wp_bind, wp_hcall, wp_ret. exists m.(mmaps_busy). eexists. reflexivity. }
  destruct (negb _); [apply wp_ret; exact Hself|]. apply wp_bind. eapply wp_mono.
  - apply (busy_range_update True (reg0 addr (pages sz) prot false) act_mprotect m.(tbrk) addr_limit); cbn; auto; try done; try lia; [pose proof (tiling_bounds _ _ T); lia|apply T].
  - intros rc s (busy' & -> & _). apply wp_ret. by exists busy', s.(trace).
Qed.

(** ** A machine the image can be recovered on

    Its breaks are those of the image and all between them and the monitor's mappings at
    [G] is mapped. *)
Record ready `{Host} (G : Z) (m M : machine) : Prop := {
  rd_inv : mmap_inv M;
  rd_sealed : sealed G M;
  rd_full : forall a, M.(tbrk) <= a < G -> mapped M.(mmaps_busy) a;
  rd_brk : M.(brk) = m.(brk);
  rd_tbrk : M.(tbrk) = m.(tbrk);
  rd_max : M.(guest_max_physmem) = m.(guest_max_physmem);
}.
(** The host maps files, and has memory. *)
Record host_restores `{Host} : Prop := {
  hr_mmap : forall tr a len prot fl fd off, 0 <= a -> 0 <= host_answer tr (H_mmap a len prot fl fd off);
  hr_calloc : ~ calloc_fails;
}.

Section Recover.
  Context `{Host} (Hr : host_restores) (im : image) (G : Z) (W : wf_image im G) (f : elf_file).
Let m := im.(im_machine).

Definition keeps (s s' : snap) : Prop := forall a, s.(sn_mem) a = im.(im_mem) a -> s'.(sn_mem) a = im.(im_mem) a.
Definition has_seg (s : snap) (sg : seg) : Prop :=
  forall i, 0 <= i < pages sg.(sg_len) -> let a := km_gva_to_kma_nocheck m sg.(sg_base) + i in s.(sn_mem) a = im.(im_mem) a.
Definition file_holds (o : Z) (sg : seg) : Prop := holds_at f.(ef_bytes) o (seg_src im sg) (pages sg.(sg_len)).

Lemma keeps_trans s1 s2 s3 : keeps s1 s2 -> keeps s2 s3 -> keeps s1 s3.
Proof. intros H1 H2 a Ha. auto. Qed.
Lemma keeps_seg s s' sg : keeps s s' -> has_seg s sg -> has_seg s' sg.
Proof. intros Hk Hs i Hi. cbn. apply Hk. by apply Hs. Qed.

(** A mapping of a segment of the file. *)
Lemma map_file_seg o sg s s' :
  file_holds o sg -> s'.(sn_mem) = map_file f (km_gva_to_kma_nocheck m sg.(sg_base)) sg.(sg_len) o s.(sn_mem) -> keeps s s' /\ has_seg s' sg.
Proof.
  intros Hf E. set (k := km_gva_to_kma_nocheck m sg.(sg_base)) in *.
  assert (Hin : forall a, k <= a < k + pages sg.(sg_len) -> s'.(sn_mem) a = im.(im_mem) a).
  { intros a Ha. rewrite E. unfold map_file. fold (pages sg.(sg_len)). destruct (Z.leb_spec k a); [|lia]. destruct (Z.ltb_spec a (k + pages (sg_len sg))); [|lia]. cbn [andb].
    rewrite Hf by lia. unfold seg_src. fold m. fold k. f_equal. lia. }
  split; [|intros i Hi; apply Hin; lia]. intros a Ha. rewrite E. unfold map_file. fold (pages sg.(sg_len)).
  destruct (Z.leb_spec k a); [|done]. destruct (Z.ltb_spec a (k + pages (sg_len sg))); [|done]. cbn [andb].
  specialize (Hin a ltac:(lia)). rewrite E in Hin. unfold map_file in Hin. fold (pages sg.(sg_len)) in Hin.
  destruct (Z.leb_spec k a); [|lia]. destruct (Z.ltb_spec a (k + pages (sg_len sg))); [|lia]. done.
Qed.

Lemma ready_trace M tr : ready G m M -> ready G m (set_trace tr M).
Proof. intros [R1 [S1 S2 S3] R3 R4 R5 R6]. split; try done. by apply tiling_trace. Qed.

(** One mapping by the host. *)
Lemma host_map_ok k len prot off s :
  0 <= k -> ready G m s.(sn_m) ->
  wp False (host_map_file f (Some k) len prot off)
    (fun _ s' => ready G m s'.(sn_m) /\ s'.(sn_m).(mmaps_busy) = s.(sn_m).(mmaps_busy) /\ s'.(sn_mem) = map_file f k len off s.(sn_mem)) s.
Proof.
  intros Hk R. unfold host_map_file. apply wp_bind. unfold wp, on_machine, zoom, hcall. set (c := H_mmap _ _ _ _ _ _).
  pose proof (hr_mmap Hr s.(sn_m).(trace) k len prot (Z.lor MAP_PRIVATE MAP_FIXED) 0 off Hk) as Ha. fold c in Ha.
  destruct (Z.ltb_spec (host_answer (trace (sn_m s)) c) 0); [lia|]. cbn. split_and!; [by apply ready_trace|done|done].
Qed.

Lemma ready_kma_program M a : ready G m M -> GUEST_MEM_START_VA <= a < m.(brk) -> km_gva_to_kma M a = Some (km_gva_to_kma_nocheck m a) /\ 0 <= km_gva_to_kma_nocheck m a.
Proof.
  intros R Ha. destruct (ti_tb _ _ (wi_inv _ _ W)) as [w I]. destruct (ti_tb _ _ (rd_inv _ _ _ R)) as [w' I']. destruct (brk_low m w I) as (B1 & B2 & B3 & _).
  destruct (pages_bounds m.(brk)) as [P1 _]; [unfold GUEST_MEM_START_VA, MIB in *; lia|]. assert (HT : TOP = 2 ^ 39 - 2 ^ 21) by done.
  rewrite (kma_program m w I) by lia. split; [|unfold GUEST_MEM_START_VA, MIB in *; lia]. unfold km_gva_to_kma.
  destruct (Z.ltb_spec a GUEST_MEM_START_VA); [lia|]. destruct (Z.leb_spec TOP a); [lia|]. cbn [orb]. rewrite (rd_brk _ _ _ R). fold (pages m.(brk)).
  destruct (Z.leb_spec (pages m.(brk)) a); [lia|]. cbn [andb]. f_equal. apply (kma_program M w' I'). rewrite (rd_brk _ _ _ R). fold m. lia.
Qed.
Lemma ready_kma_mapping M a : ready G m M -> m.(tbrk) <= a < G -> km_gva_to_kma M a = Some (km_gva_to_kma_nocheck m a) /\ 0 <= km_gva_to_kma_nocheck m a.
Proof.
  intros R Ha. destruct (ti_tb _ _ (wi_inv _ _ W)) as [w I]. destruct (ti_tb _ _ (rd_inv _ _ _ R)) as [w' I']. pose proof (se_low _ _ (wi_sealed _ _ W)) as HG.
  pose proof (tb_bounds m (ex_intro _ w I)) as Hb. rewrite (kma_mapping m w I) by lia. split; [|unfold GUEST_MEM_START_VA, MIB in *; lia]. unfold km_gva_to_kma.
  destruct (Z.ltb_spec a GUEST_MEM_START_VA); [unfold GUEST_MEM_START_VA, MIB in *; lia|]. destruct (Z.leb_spec TOP a); [lia|]. cbn [orb].
  pose proof (rounddown_le m.(tbrk) KM_PAGE_SIZE ltac:(done)) as Hd. rewrite (rd_tbrk _ _ _ R). fold m.
  destruct (Z.ltb_spec a (rounddown m.(tbrk) KM_PAGE_SIZE)); [lia|]. rewrite andb_false_r. cbn [andb]. f_equal.
  rewrite (kma_mapping M w' I') by (rewrite (rd_tbrk _ _ _ R); fold m; lia). unfold GUEST_VA_OFFSET, GUEST_MEM_ZONE_SIZE_VA. by rewrite (rd_max _ _ _ R).
Qed.

Lemma low_not_special M a : a < TOP -> km_vdso_gva M a || km_guestmem_gva M a = false.
Proof.
  intros Ha. unfold km_vdso_gva, km_guestmem_gva. assert (TOP < GUEST_VVAR_VDSO_BASE_VA) by reflexivity. assert (TOP < GUEST_KMGUESTMEM_BASE_VA) by reflexivity.
  destruct (Z.leb_spec GUEST_VVAR_VDSO_BASE_VA a); [lia|]. destruct (Z.leb_spec GUEST_KMGUESTMEM_BASE_VA a); [lia|]. done.
Qed.

(** Part of the program. *)
Definition seg_post (sg : seg) (s s' : snap) : Prop := ready G m s'.(sn_m) /\ keeps s s' /\ has_seg s' sg.

Lemma recover_program o sg s :
  ready G m s.(sn_m) -> GUEST_MEM_START_VA <= sg.(sg_base) < m.(brk) -> sg.(sg_base) mod 4096 = 0 -> 0 <= sg.(sg_len) < two64 -> 0 <= o < two64 -> file_holds o sg ->
  wp False (recover_segment f G (seg_phdr o sg)) (fun _ s' => seg_post sg s s' /\ s'.(sn_m).(mmaps_busy) = s.(sn_m).(mmaps_busy)) s.
Proof.
  intros R Hb Hal Hl Ho Hf. destruct (ready_kma_program s.(sn_m) sg.(sg_base) R Hb) as [Hk Hk0]. unfold recover_segment. apply wp_bind, wp_get.
  cbn [seg_phdr load_phdr ph_type ph_vaddr ph_filesz ph_flags ph_offset]. change (negb (PT_LOAD =? PT_LOAD)) with false. cbn iota.
  destruct (ti_tb _ _ (wi_inv _ _ W)) as [w I]. destruct (brk_low m w I) as (B1 & B2 & B3 & _). destruct (pages_bounds m.(brk)) as [P1 _]; [unfold GUEST_MEM_START_VA, MIB in *; lia|].
  assert (HT : TOP = 2 ^ 39 - 2 ^ 21) by done. rewrite low_not_special by lia. rewrite (rd_brk _ _ _ R). fold m. destruct (Z.leb_spec m.(brk) sg.(sg_base)); [lia|].
  assert (E : rounddown sg.(sg_base) KM_PAGE_SIZE = sg.(sg_base)) by (unfold rounddown, KM_PAGE_SIZE; pose proof (Z.div_mod sg.(sg_base) 4096); lia).
  rewrite E, Z.sub_diag, !Z.sub_0_r, Z.add_0_r, !u64_small by (unfold is_u64; lia). rewrite Hk.
  eapply wp_mono; [by apply host_map_ok|]. intros _ s' (R' & Hbusy & Hm). split; [|done]. split; [done|]. by eapply map_file_seg.
Qed.

(** Nothing is recovered of what belongs to the monitor. *)
Lemma recover_monitor o sg s :
  ready G m s.(sn_m) -> G <= sg.(sg_base) -> 0 < sg.(sg_len) -> sg.(sg_base) + sg.(sg_len) < two64 ->
  wp False (recover_segment f G (seg_phdr o sg)) (fun _ s' => s' = s) s.
Proof.
  intros R Hb Hl Hlim. unfold recover_segment. apply wp_bind, wp_get. cbn [seg_phdr load_phdr ph_type ph_vaddr ph_filesz ph_flags ph_offset].
  change (negb (PT_LOAD =? PT_LOAD)) with false. cbn iota. destruct (_ || _); [by apply wp_ret|]. rewrite (rd_brk _ _ _ R). fold m.
  pose proof (se_low _ _ (wi_sealed _ _ W)) as HG.
  assert (Hbr : m.(brk) <= G).
  { destruct (ti_tb _ _ (wi_inv _ _ W)) as [w I]. destruct (mi_brk m w I) as [B1 [B2 B3] B4].
    destruct (apart_bounds m w I m.(brk) m.(tbrk) B1 B3 B4) as (_ & _ & A3). pose proof (pow_w_bounds m w (static_geom m w (mi_static m w I))).
    assert (m.(tbrk) <= G); [|lia]. destruct (Z.le_gt_cases m.(tbrk) G) as [|Hgt]; [done|].
    destruct (se_full _ _ (wi_sealed _ _ W) G ltac:(lia)) as [x Hx]. rewrite (view_outside _ _ _ _ (ti_busy _ _ (wi_inv _ _ W))) in Hx; [done|]. fold m. lia. }
  destruct (Z.leb_spec m.(brk) sg.(sg_base)); [|lia]. unfold GUEST_MEM_START_VA, MIB in *.
  assert (0 <= m.(brk)) by (destruct (ti_tb _ _ (wi_inv _ _ W)) as [w I]; destruct (mi_brk m w I) as [B1 _ _]; unfold GUEST_MEM_START_VA, MIB in *; lia).
  rewrite u64_small by (unfold is_u64; lia). destruct (Z.leb_spec (sg.(sg_base) + sg.(sg_len)) G); [lia|]. by apply wp_ret.
Qed.

(** The protection of a mapping goes through the flags of its segment. *)
Lemma elf_flags_back prot : prot_elf_to_mmap (mmap_to_elf_flags prot) = Z.land prot 7.
Proof.
  unfold mmap_to_elf_flags. assert (Hrange : 0 <= Z.land prot 7 < 8).
  { change 7 with (Z.ones 3). rewrite Z.land_ones by lia. apply Z.mod_pos_bound. done. }
  assert (Hc : Z.land prot 7 = 0 \/ Z.land prot 7 = 1 \/ Z.land prot 7 = 2 \/ Z.land prot 7 = 3 \/ Z.land prot 7 = 4 \/ Z.land prot 7 = 5 \/ Z.land prot 7 = 6 \/ Z.land prot 7 = 7) by lia.
  by destruct Hc as [->|[->|[->|[->|[->|[->|[->| ->]]]]]]].
Qed.
Lemma land7_allowed prot : Z.land (Z.land prot 7) (Z.lnot prot_bits) = 0.
Proof. rewrite <- Z.land_assoc. change (Z.land 7 (Z.lnot prot_bits)) with 0. apply Z.land_0_r. Qed.

Lemma wp_on_machine {A} ab (c : M machine A) (Q : A -> machine -> Prop) (P : A -> snap -> Prop) s :
  wp ab c Q s.(sn_m) -> (forall a t, Q a t -> P a (set_m t s)) -> wp ab (on_machine c) P s.
Proof. unfold wp, on_machine, zoom. destruct (c (sn_m s)) as [[a t]| |]; auto. Qed.

(** A range of the guest's mappings gets a protection. *)
Lemma mprotect_ready M addr sz prot :
  ready G m M -> M.(tbrk) <= addr -> 0 < sz -> addr mod 4096 = 0 -> sz mod 4096 = 0 -> addr + sz <= G ->
  wp False (km_guest_mprotect addr sz (Z.land prot 7))
    (fun rc M' => rc = 0 /\ ready G m M' /\ forall a, view M'.(mmaps_busy) a = update (set_prot_attr (Z.land prot 7)) addr (addr + sz) (view M.(mmaps_busy)) a) M.
Proof.
  intros R Ha Hs Hal Has Hlim. pose proof (rd_inv _ _ _ R) as T. pose proof (rd_sealed _ _ _ R) as S. pose proof (se_low _ _ S) as HG.
  assert (HT : TOP = 2 ^ 39 - 2 ^ 21) by done. assert (HL : addr_limit = 2 ^ 62) by done. assert (HI : LIMIT = 2 ^ 62) by done. pose proof (tiling_bounds _ _ T) as [Hb _].
  assert (Hpg : pages sz = sz) by (apply pages_aligned; [lia|done]).
  destruct (sealed_layout G M T S) as (g & ms & L). destruct (ti_tb _ _ T) as [w I].
  assert (Hbrk : M.(brk) < M.(tbrk)).
  { destruct (mi_brk M w I) as [B1 [B2 B3] B4]. destruct (apart_bounds M w I M.(brk) M.(tbrk) B1 B3 B4) as (_ & _ & A3).
    pose proof (pow_w_bounds M w (static_geom M w (mi_static M w I))). lia. }
  pose proof (mprotect_touches M addr sz (Z.land prot 7) T ltac:(lia) ltac:(lia) ltac:(lia)) as Ht.
  assert (Hp : wp False (km_guest_mprotect addr sz (Z.land prot 7)) (fun rc s => mmap_inv s /\ mprotect_outcome M g addr sz (Z.land prot 7) rc s) M).
  { unfold km_guest_mprotect. fold (pages sz). rewrite land7_allowed, Hpg. cbn [negb Z.eqb].
    replace (addr =? rounddown addr KM_PAGE_SIZE) with true by (symmetry; apply Z.eqb_eq; unfold rounddown, KM_PAGE_SIZE; pose proof (Z.div_mod addr 4096); lia).
    destruct (Z.eqb_spec sz 0); [lia|]. cbn [negb orb]. eapply wp_mono; [apply (mprotect_nolock_spec M g ms); try done; lia|]. intros rc s (?&?&_). done. }
  unfold wp in Ht, Hp |- *. destruct (km_guest_mprotect addr sz (Z.land prot 7) M) as [[rc M']| |]; [|done|done]. destruct Ht as (b & tr & HM'). destruct Hp as [T' Hout].
  assert (Hmapped : forall a, addr <= a < addr + sz -> mapped g a).
  { intros a Hin. destruct (rd_full _ _ _ R a ltac:(lia)) as [x Hx]. rewrite (la_busy _ _ _ L), view_app in Hx. destruct (view g a) as [y|] eqn:E; [by exists y|].
    destruct (view ms a) as [z|] eqn:E2; [|done]. exfalso.
    pose proof (se_split _ _ S a z) as Hsp. rewrite (la_busy _ _ _ L), view_app, E, E2 in Hsp. specialize (Hsp eq_refl).
    apply view_some_elem in E2 as (r & Hr' & _ & <-). apply (proj1 (Forall_forall _ _) (la_monitors _ _ _ L)) in Hr'. unfold monitor_attr in Hsp. unfold is_monitor in Hr'.
    cbn in Hsp. pose proof (proj1 Hsp Hr'). lia. }
  assert (Hv : rc = 0 /\ forall a, view M'.(mmaps_busy) a = update (set_prot_attr (Z.land prot 7)) addr (addr + sz) (view M.(mmaps_busy)) a).
  { destruct Hout as [rc s _ Hh _ _|a Hin Hn|s _ Hu|s Hc _]; [lia|by destruct (Hn (Hmapped a Hin))|done|by destruct (hr_calloc Hr)]. }
  destruct Hv as [-> Hv]. split_and!; [done| |done]. subst M'. destruct R as [R1 R2 R3 R4 R5 R6]. split; [done| | |done|done|done].
  - eapply (sealed_update G M _ (set_prot_attr (Z.land prot 7)) addr (addr + sz)); [done|done|done|]. intros a. right. apply Hv.
  - intros a Ha'. destruct (R3 a Ha') as [x Hx]. unfold mapped. rewrite Hv. unfold update. rewrite Hx. destruct (_ && _); eauto.
Qed.

Lemma recover_mapping o sg prot s :
  sg.(sg_flags) = mmap_to_elf_flags prot -> ready G m s.(sn_m) -> m.(tbrk) <= sg.(sg_base) -> 0 < sg.(sg_len) ->
  sg.(sg_base) mod 4096 = 0 -> sg.(sg_len) mod 4096 = 0 -> sg.(sg_base) + sg.(sg_len) <= G -> file_holds o sg ->
  wp False (recover_segment f G (seg_phdr o sg))
    (fun _ s' => seg_post sg s s'
       /\ forall a, view s'.(sn_m).(mmaps_busy) a = update (set_prot_attr (Z.land prot 7)) sg.(sg_base) (sg.(sg_base) + sg.(sg_len)) (view s.(sn_m).(mmaps_busy)) a) s.
Proof.
  intros Hfl R Hb Hl Hal Has Hlim Hf. pose proof (rd_tbrk _ _ _ R) as Et. pose proof (rd_sealed _ _ _ R) as S. pose proof (se_low _ _ S) as HG.
  assert (HT : TOP = 2 ^ 39 - 2 ^ 21) by done. assert (Hu : two64 = 2 ^ 64) by done. pose proof (tiling_bounds _ _ (rd_inv _ _ _ R)) as [Hb0 _].
  unfold recover_segment. apply wp_bind, wp_get. cbn [seg_phdr load_phdr ph_type ph_vaddr ph_filesz ph_flags ph_offset].
  change (negb (PT_LOAD =? PT_LOAD)) with false. cbn iota. rewrite low_not_special by lia.
  assert (Hbrk : s.(sn_m).(brk) < s.(sn_m).(tbrk)).
  { destruct (ti_tb _ _ (rd_inv _ _ _ R)) as [w I]. destruct (mi_brk _ w I) as [B1 [B2 B3] B4]. destruct (apart_bounds _ w I _ _ B1 B3 B4) as (_ & _ & A3).
    pose proof (pow_w_bounds _ w (static_geom _ w (mi_static _ w I))). lia. }
  fold m in Et. destruct (Z.leb_spec s.(sn_m).(brk) sg.(sg_base)); [|lia]. rewrite u64_small by (unfold is_u64; lia).
  destruct (Z.leb_spec (sg.(sg_base) + sg.(sg_len)) G); [|lia]. rewrite Hfl, elf_flags_back. apply wp_bind. eapply wp_on_machine; [apply mprotect_ready; (done || lia)|].
  intros rc M' (-> & R' & Hv). change (negb (0 =? 0)) with false. cbn iota. apply wp_bind, wp_get. cbn [sn_m set_m].
  destruct (ready_kma_mapping M' sg.(sg_base) R' ltac:(fold m; lia)) as [-> Hk0]. eapply wp_mono; [by apply host_map_ok|].
  intros _ s' (R2 & Hbusy & Hm). split; [split; [done|]|].
  - by apply (map_file_seg o sg (set_m M' s)).
  - intros a. rewrite Hbusy. apply Hv.
Qed.

Lemma recover_app phs1 phs2 Q s :
  wp False (km_ss_recover_memory f G phs1) (fun _ s' => wp False (km_ss_recover_memory f G phs2) Q s') s -> wp False (km_ss_recover_memory f G (phs1 ++ phs2)) Q s.
Proof.
  revert s. induction phs1 as [|ph phs1 IH]; intros s Hw; cbn [app km_ss_recover_memory] in *; [exact Hw|].
  apply wp_bind. apply wp_bind_inv in Hw. eapply wp_mono; [exact Hw|]. intros [] s1. apply IH.
Qed.

(** ** Program and mappings *)
Lemma recover_payload p phs o s :
  ready G m s.(sn_m) -> Forall (load_ok im p) phs ->
  let segs := payload_segs im p phs (km_core_count_phdrs im).2 in
  Forall2 file_holds (seg_offsets o segs) segs -> Forall (fun x => 0 <= x < two64) (seg_offsets o segs) ->
  wp False (km_ss_recover_memory f G (seg_phdrs o segs))
    (fun _ s' => ready G m s'.(sn_m) /\ keeps s s' /\ Forall (has_seg s') segs /\ s'.(sn_m).(mmaps_busy) = s.(sn_m).(mmaps_busy)) s.
Proof.
  intros R Hl segs. subst segs. revert o s R. induction Hl as [|ph phs Hph _ IH]; intros o s R Hf Ho.
  { apply wp_ret. split_and!; [done|by intros a|constructor|done]. }
  unfold payload_segs in *. cbn [map seg_phdrs seg_offsets zip_with] in *. set (sg := mk_seg _ _ _) in *. change (zip_with seg_phdr ?a ?b) with (seg_phdrs (pages o + sg.(sg_len)) b).
  apply Forall2_cons_1 in Hf as [Hf1 Hf]. apply Forall_cons_1 in Ho as [Ho1 Ho]. cbn [km_ss_recover_memory]. destruct Hph as (P1 & P2 & _).
  apply wp_bind. eapply wp_mono; [apply recover_program; [done|exact P1|apply seg_base_page|apply u64_range|done|exact Hf1]|]. intros _ s1 [(R1 & K1 & S1) Hb1].
  eapply wp_mono; [by apply IH|]. intros _ s' (R' & K' & S' & Hb'). split_and!; [done|by eapply keeps_trans| |congruence].
  apply Forall_cons_2; [|done]. by eapply keeps_seg.
Qed.

(** What mappings [l] make of a protection. *)
Definition prot_after (l : list km_mmap_reg) (v : Z -> option attr) (a : Z) : option Z :=
  match view (List.filter dumped l) a with
  | Some x => if monitor_attr x then at_prot <$> v a else (fun _ => Z.land x.(at_prot) 7) <$> v a
  | None => at_prot <$> v a
  end.
Lemma view_filter_before lo l hi a : ordered lo l hi -> a < lo -> view (List.filter dumped l) a = None.
Proof.
  intros Ho Ha. destruct (view _ a) as [x|] eqn:E; [|done]. apply view_some_elem in E as (r & Hin & Hc & _). apply list_elem_of_In, filter_In in Hin as [Hin _].
  apply list_elem_of_In in Hin. pose proof (ordered_elem _ _ _ _ Ho Hin). apply covers_iff in Hc. lia.
Qed.
Lemma prot_after_congr l v v' a : v a = v' a -> prot_after l v a = prot_after l v' a.
Proof. intros E. unfold prot_after. by rewrite E. Qed.
(** An address of the first mapping, and any other. *)
Lemma prot_after_head lo r l hi v a : ordered lo (r :: l) hi -> dumped r = true -> covers r a = true ->
  prot_after l v a = at_prot <$> v a /\ prot_after (r :: l) v a = if is_monitor r then at_prot <$> v a else (fun _ => Z.land r.(protection) 7) <$> v a.
Proof.
  intros (H1 & H2 & Ho) Hd Hc. apply covers_iff in Hc as Hc'. unfold prot_after. cbn [List.filter]. rewrite Hd. cbn [view]. rewrite Hc.
  rewrite (view_filter_before _ _ _ _ Ho) by lia. done.
Qed.
Lemma prot_after_other r l v a : dumped r = false \/ covers r a = false -> prot_after (r :: l) v a = prot_after l v a.
Proof. intros Hc. unfold prot_after. cbn [List.filter]. destruct (dumped r) eqn:E; [|done]. cbn [view]. by destruct Hc as [?| ->]. Qed.

Lemma monitor_region_above r : r ∈ m.(mmaps_busy) -> is_monitor r = true -> G <= r.(start).
Proof.
  intros Hin Hm. pose proof (ti_busy _ _ (wi_inv _ _ W)) as Ho. pose proof (ordered_elem _ _ _ _ Ho Hin) as (H1 & H2 & H3).
  apply (se_split _ _ (wi_sealed _ _ W) r.(start) (attr_of r)); [|done]. eapply view_elem; [exact Ho|done|apply covers_iff; lia].
Qed.

Definition mappings_post (l : list km_mmap_reg) (s s' : snap) : Prop :=
  ready G m s'.(sn_m) /\ keeps s s' /\ (forall r, r ∈ l -> dumped r = true -> is_monitor r = false -> has_seg s' (mmap_seg r))
  /\ forall a, at_prot <$> view s'.(sn_m).(mmaps_busy) a = prot_after l (view s.(sn_m).(mmaps_busy)) a.

(** The first mapping recovered, and the others then. *)
Lemma mappings_post_cons lo r l s s1 s' :
  ready G m s.(sn_m) -> ordered lo (r :: l) addr_limit -> dumped r = true -> is_monitor r = false -> r.(start) + r.(size) <= G -> seg_post (mmap_seg r) s s1 ->
  (forall a, view s1.(sn_m).(mmaps_busy) a = update (set_prot_attr (Z.land r.(protection) 7)) r.(start) (r.(start) + r.(size)) (view s.(sn_m).(mmaps_busy)) a) ->
  mappings_post l s1 s' -> mappings_post (r :: l) s s'.
Proof.
  intros R Ho Hd Hm Hlim (R1 & K1 & S1) Hv (R' & K' & S' & V'). split_and!; [done|by eapply keeps_trans| |].
  - intros x Hx Hdx Hmx. apply elem_of_cons in Hx as [->|Hx]; [by eapply keeps_seg|by apply S'].
  - intros a. rewrite V'. destruct (covers r a) eqn:Hc.
    + destruct (prot_after_head lo r l addr_limit (view s1.(sn_m).(mmaps_busy)) a Ho Hd Hc) as [-> _].
      destruct (prot_after_head lo r l addr_limit (view s.(sn_m).(mmaps_busy)) a Ho Hd Hc) as [_ ->]. rewrite Hm, Hv. unfold update.
      apply covers_iff in Hc. destruct (view (mmaps_busy (sn_m s)) a) as [x|] eqn:E; [|done].
      assert (Hx : monitor_attr x = false).
      { destruct (monitor_attr x) eqn:Ex; [|done]. apply (se_split _ _ (rd_sealed _ _ _ R) a x E) in Ex. lia. }
      unfold monitor_attr in Hx. rewrite Hx. unfold in_range. destruct (Z.leb_spec r.(start) a); [|lia]. destruct (Z.ltb_spec a (r.(start) + r.(size))); [|lia]. done.
    + rewrite prot_after_other by auto. apply prot_after_congr. rewrite Hv. unfold update. destruct (view _ a); [|done].
      unfold in_range. unfold covers in Hc. by rewrite Hc.
Qed.

Lemma recover_mappings l lo o s :
  ready G m s.(sn_m) -> Forall (fun r => r ∈ m.(mmaps_busy)) l -> ordered lo l addr_limit ->
  Forall2 file_holds (seg_offsets o (mmap_segs l)) (mmap_segs l) ->
  wp False (km_ss_recover_memory f G (seg_phdrs o (mmap_segs l)))
    (fun _ s' => mappings_post l s s') s.
Proof.
  revert lo o s. induction l as [|r l IH]; intros lo o s R Hin Ho Hf.
  { apply wp_ret. split_and!; [done|by intros a|by intros x ?%not_elem_of_nil|done]. }
  apply Forall_cons_1 in Hin as [Hr1 Hin]. pose proof Ho as (H1 & H2 & Ho'). unfold mmap_segs in *. cbn [List.filter] in *. destruct (dumped r) eqn:Hd.
  - cbn [map seg_phdrs seg_offsets zip_with] in *. fold (mmap_seg r) in *. change (zip_with seg_phdr ?a ?b) with (seg_phdrs (pages o + (mmap_seg r).(sg_len)) b).
    apply Forall2_cons_1 in Hf as [Hf1 Hf]. cbn [km_ss_recover_memory]. apply wp_bind. destruct (is_monitor r) eqn:Hm.
    + pose proof (monitor_region_above r Hr1 Hm). pose proof (ordered_le _ _ _ Ho'). unfold addr_limit in *.
      eapply wp_mono; [apply (recover_monitor _ (mmap_seg r)); cbn [mmap_seg sg_base sg_len]; (done || unfold two64; lia)|]. intros _ s1 ->.
      eapply wp_mono; [by eapply IH|]. intros _ s' (R' & K' & S' & V'). split_and!; [done|done| |].
      * intros x Hx Hdx Hmx. apply elem_of_cons in Hx as [->|Hx]; [congruence|by apply S'].
      * intros a. rewrite V'. destruct (covers r a) eqn:Hc; [|by rewrite prot_after_other by auto].
        destruct (prot_after_head lo r l addr_limit (view s.(sn_m).(mmaps_busy)) a Ho Hd Hc) as [-> ->]. by rewrite Hm.
    + destruct (guest_region_below im G r W Hr1 Hm) as (L1 & L2 & L3). destruct (proj1 (Forall_forall _ _) (wi_pages _ _ W) r Hr1) as [A1 A2].
      eapply wp_mono; [apply (recover_mapping _ (mmap_seg r) r.(protection)); done|]. intros _ s1 [Hp Hv].
      eapply wp_mono; [eapply IH; [apply Hp|done|exact Ho'|exact Hf]|]. intros [] s' Hpost. by eapply mappings_post_cons.
  - eapply wp_mono; [by eapply IH|]. intros _ s' (R' & K' & S' & V'). split_and!; [done|done| |].
    + intros x Hx Hdx Hmx. apply elem_of_cons in Hx as [->|Hx]; [congruence|by apply S'].
    + intros a. rewrite V'. by rewrite prot_after_other by auto.
Qed.
End Recover.

(** ** The fields of the headers are in range *)
Definition seg_fits (sg : seg) : Prop := 0 <= sg.(sg_base) < two64 /\ 0 <= sg.(sg_len) < two64 /\ 0 <= sg.(sg_flags) < 2 ^ 32.
Lemma seg_phdrs_fit o segs :
  Forall (fun x => 0 <= x < LIMIT) (seg_offsets o segs) -> Forall seg_fits segs -> Forall (fun ph => Forall fits (phdr_fields ph)) (seg_phdrs o segs).
Proof.
  revert o. induction segs as [|sg segs IH]; intros o Ho Hs; [constructor|]. cbn [seg_phdrs seg_offsets zip_with] in *.
  apply Forall_cons_1 in Ho as [Ho1 Ho]. apply Forall_cons_1 in Hs as [(S1 & S2 & S3) Hs]. apply Forall_cons_2; [|by apply IH].
  unfold phdr_fields, seg_phdr, load_phdr. cbn [ph_type ph_flags ph_offset ph_vaddr ph_paddr ph_filesz ph_memsz ph_align]. unfold LIMIT in *. fits_all.
Qed.
Lemma mmap_flags_range prot : 0 <= mmap_to_elf_flags prot < 2 ^ 32.
Proof.
  unfold mmap_to_elf_flags. set (l := [_; _; _; _; _; _; _; _]). assert (Hl : Forall (fun x => 0 <= x < 2 ^ 32) l) by (unfold l; repeat (apply Forall_cons_2; [by vm_compute|]); apply Forall_nil_2).
  generalize (Z.to_nat (Z.land prot 7)). clearbody l. intros n. revert n. induction Hl as [|x l Hx _ IH]; intros [|n]; cbn; try lia; auto.
Qed.
Lemma image_segs_fit `{Host} im G : wf_image im G -> Forall seg_fits (file_segs im).
Proof.
  intros W. unfold file_segs. assert (Hload : forall p phs, Forall (load_ok im p) phs -> Forall seg_fits (payload_segs im p phs (km_core_count_phdrs im).2)).
  { intros p phs Hl. apply Forall_map. eapply Forall_impl; [exact Hl|]. intros ph (L1 & L2 & L3).
    destruct (ti_tb _ _ (wi_inv _ _ W)) as [w I]. destruct (brk_low _ w I) as (B1 & _). pose proof (u64_range (u64 (ph_memsz ph + km_core_last_load_adjust im ph (km_core_count_phdrs im).2) + (ph_vaddr ph - rounddown (ph_vaddr ph) KM_PAGE_SIZE))) as Hsz.
    unfold seg_fits. cbn [sg_base sg_len sg_flags]. fold (seg_size im ph (km_core_count_phdrs im).2) in Hsz. unfold is_u64, GUEST_MEM_START_VA, MIB, LIMIT, two64 in *. lia. }
  rewrite !Forall_app. split_and!; [apply Hload, W|apply Hload, W|]. apply Forall_map, Forall_forall. intros r Hin.
  apply list_elem_of_In, filter_In in Hin as [Hin _]. apply list_elem_of_In in Hin. pose proof (ti_busy _ _ (wi_inv _ _ W)) as Ho.
  pose proof (ordered_elem _ _ _ _ Ho Hin) as (?&?&?). pose proof (tiling_bounds _ _ (wi_inv _ _ W)). unfold addr_limit, two64 in *.
  pose proof (mmap_flags_range r.(protection)). unfold seg_fits, two64. cbn [sg_base sg_len sg_flags]. lia.
Qed.

(** ** The whole of memory *)
Definition in_program (im : image) (a : Z) : Prop :=
  exists p phs ph, (p = im.(im_guest) /\ phs = loads im.(im_guest) \/ p = im.(im_dyn) /\ phs = dyn_loads im) /\ ph ∈ phs
    /\ seg_base p ph <= a < seg_base p ph + seg_size im ph (km_core_count_phdrs im).2.
(** Mappings of the guest with some access. *)
Definition in_mapping (im : image) (a : Z) : Prop :=
  exists r, r ∈ im.(im_machine).(mmaps_busy) /\ is_monitor r = false /\ dumped r = true /\ covers r a = true.

Lemma has_seg_at im s sg a : linear im sg -> 0 <= sg.(sg_len) < LIMIT -> has_seg im s sg -> sg.(sg_base) <= a < sg.(sg_base) + sg.(sg_len) ->
  s.(sn_mem) (km_gva_to_kma_nocheck im.(im_machine) a) = im.(im_mem) (km_gva_to_kma_nocheck im.(im_machine) a).
Proof.
  intros Hlin Hl Hs Ha. destruct (pages_bounds _ Hl) as [P1 _]. replace a with (sg.(sg_base) + (a - sg.(sg_base))) by lia.
  rewrite Hlin by lia. apply Hs. lia.
Qed.

Lemma payload_seg_elem im p phs e ph : ph ∈ phs -> mk_seg (seg_base p ph) (seg_size im ph e) ph.(ph_flags) ∈ payload_segs im p phs e.
Proof. intros Hin. apply list_elem_of_In, in_map_iff. exists ph. split; [done|by apply list_elem_of_In]. Qed.

Section Whole.
  Context `{Host} (Hr : host_restores) (im : image) (G : Z) (W : wf_image im G) (notes : list Z) (size : nat) (f : Z -> Z) (len : Z).
  Context (Hcf : core_file im notes size f len) (Hlen : whole_length im size < LIMIT - 8192).
Let file := mk_elf f len.
Let m := im.(im_machine).

Definition none_mapped (M : machine) : Prop := forall a x, view M.(mmaps_busy) a = Some x -> a < G -> at_prot x = PROT_NONE.
Definition same_memory (s' : snap) : Prop :=
  forall a, in_program im a \/ in_mapping im a -> s'.(sn_mem) (km_gva_to_kma_nocheck m a) = im.(im_mem) (km_gva_to_kma_nocheck m a).
Definition same_protection (M' : machine) : Prop :=
  forall a, m.(tbrk) <= a < G -> at_prot <$> view M'.(mmaps_busy) a = Some (match view m.(mmaps_busy) a with Some x => Z.land x.(at_prot) 7 | None => PROT_NONE end).

Lemma image_offsets : Forall (fun x => 0 <= x < LIMIT) (seg_offsets (notes_offset im + Z.of_nat size) (file_segs im)).
Proof.
  apply seg_offsets_bounds; [unfold notes_offset, phnum; lia|exact (segs_lens _ _ (image_segs_ok im G W))|]. unfold whole_length in Hlen. lia.
Qed.

Lemma core_phdrs_fit : Forall (fun ph => Forall fits (phdr_fields ph)) (core_phdrs im notes size).
Proof.
  apply Forall_cons_2; [|apply seg_phdrs_fit; [exact image_offsets|by eapply image_segs_fit]].
  pose proof (cf_fit _ _ _ _ _ Hcf). pose proof (total_nonneg _ (segs_lens _ _ (image_segs_ok im G W))). assert (0 <= notes_offset im) by (unfold notes_offset, phnum; lia).
  unfold whole_length, LIMIT in Hlen. unfold phdr_fields, note_phdr. cbn [ph_type ph_flags ph_offset ph_vaddr ph_paddr ph_filesz ph_memsz ph_align]. fits_all.
Qed.

Lemma protection_of M a :
  m.(tbrk) <= a < G -> mapped M.(mmaps_busy) a -> none_mapped M ->
  prot_after m.(mmaps_busy) (view M.(mmaps_busy)) a = Some (match view m.(mmaps_busy) a with Some x => Z.land x.(at_prot) 7 | None => PROT_NONE end).
Proof.
  intros Ha [y Hy] Hn. unfold prot_after. rewrite Hy. pose proof (Hn a y Hy (proj2 Ha)) as Hp. pose proof (ti_busy _ _ (wi_inv _ _ W)) as Ho. fold m in Ho.
  destruct (view (List.filter dumped (mmaps_busy m)) a) as [x|] eqn:E.
  - apply view_some_elem in E as (r & Hin & Hc & <-). apply list_elem_of_In, filter_In in Hin as [Hin Hd]. apply list_elem_of_In in Hin.
    rewrite (view_elem _ _ _ r a Ho Hin Hc). destruct (monitor_attr (attr_of r)) eqn:Em; [|done].
    pose proof (proj1 (se_split _ _ (wi_sealed _ _ W) a (attr_of r) (view_elem _ _ _ r a Ho Hin Hc)) Em). lia.
  - cbn. rewrite Hp. destruct (view m.(mmaps_busy) a) as [x|] eqn:E2; [|done]. apply view_some_elem in E2 as (r & Hin & Hc & <-).
    destruct (dumped r) eqn:Hd.
    + exfalso. assert (Hin' : r ∈ List.filter dumped (mmaps_busy m)) by (apply list_elem_of_In, filter_In; split; [by apply list_elem_of_In|done]).
      assert (Hm : mapped (List.filter dumped (mmaps_busy m)) a); [|destruct Hm as [z Hz]; congruence]. revert Hin' Hc. clear. induction (List.filter dumped (mmaps_busy m)) as [|x l IH]; intros Hin Hc; [by apply not_elem_of_nil in Hin|].
      unfold mapped. cbn. destruct (covers x a) eqn:E; [eauto|]. apply elem_of_cons in Hin as [->|Hin]; [congruence|]. by apply IH.
    + unfold dumped in Hd. apply negb_false_iff, Z.eqb_eq in Hd. cbn. by rewrite Hd.
Qed.

Lemma recover_image s :
  ready G m s.(sn_m) -> none_mapped s.(sn_m) ->
  wp False (km_ss_recover_memory file G (core_phdrs im notes size)) (fun _ s' => ready G m s'.(sn_m) /\ same_memory s' /\ same_protection s'.(sn_m)) s.
Proof.
  intros R Hn. pose proof image_offsets as Hoff. pose proof (image_segs_ok im G W) as Hok. set (o := notes_offset im + Z.of_nat size) in *.
  assert (Hfh : Forall2 (file_holds im file) (seg_offsets o (file_segs im)) (file_segs im)).
  { eapply Forall2_impl; [apply (cf_mem _ _ _ _ _ Hcf)|]. by intros x sg [Hh _]. }
  unfold core_phdrs. fold o. unfold file_segs in *. set (e := (km_core_count_phdrs im).2) in *.
  set (A := payload_segs im (im_guest im) (loads (im_guest im)) e) in *. set (B := payload_segs im (im_dyn im) (dyn_loads im) e) in *. set (C := mmap_segs (mmaps_busy (im_machine im))) in *.
  rewrite !seg_offsets_app in Hfh, Hoff. rewrite !seg_phdrs_app. apply Forall2_app_inv in Hfh as [FA F]; [|by rewrite length_seg_offsets].
  apply Forall2_app_inv in F as [FB FC]; [|by rewrite length_seg_offsets]. apply Forall_app in Hoff as [OA OF]. apply Forall_app in OF as [OB OC].
  apply Forall_app in Hok as [KA KF]. apply Forall_app in KF as [KB KC].
  assert (Hlim : forall l, Forall (fun x => 0 <= x < LIMIT) l -> Forall (fun x => 0 <= x < two64) l) by (intros l Hl; eapply Forall_impl; [exact Hl|]; unfold LIMIT, two64; lia).
  cbn [km_ss_recover_memory]. apply wp_bind. unfold recover_segment. apply wp_bind, wp_get. apply wp_ret.
  apply recover_app. eapply wp_mono; [apply (recover_payload Hr im G W); [done|apply W|exact FA|by apply Hlim]|]. intros [] s1 (R1 & K1 & S1 & V1).
  apply recover_app. eapply wp_mono; [apply (recover_payload Hr im G W); [done|apply W|exact FB|by apply Hlim]|]. intros [] s2 (R2 & K2 & S2 & V2).
  eapply wp_mono; [eapply (recover_mappings Hr im G W); [done|by apply Forall_forall|apply (wi_inv _ _ W)|exact FC]|]. intros [] s3 (R3 & K3 & S3 & V3). split_and!; [done| |].
  - intros a [(p & phs & ph & Hp & Hin & Ha)|(r & Hin & Hm & Hd & Hc)].
    + assert (Hsg : forall segs, Forall (seg_ok im) segs -> Forall (has_seg im s3) segs -> mk_seg (seg_base p ph) (seg_size im ph e) ph.(ph_flags) ∈ segs -> s3.(sn_mem) (km_gva_to_kma_nocheck m a) = im.(im_mem) (km_gva_to_kma_nocheck m a)).
      { intros segs Hseg Hhas Hel. rewrite Forall_forall in Hseg, Hhas. destruct (Hseg _ Hel) as [Hlin Hl0].
        eapply (has_seg_at im s3 _ a Hlin); [|by apply Hhas|done]. cbn [sg_len] in *.
        assert (Hloads : load_ok im p ph) by (destruct Hp as [[-> ->]|[-> ->]]; [exact (proj1 (Forall_forall _ _) (wi_guest _ _ W) ph Hin)|exact (proj1 (Forall_forall _ _) (wi_dyn _ _ W) ph Hin)]).
        destruct Hloads as (L1 & L2 & _). destruct (ti_tb _ _ (wi_inv _ _ W)) as [w I]. destruct (brk_low _ w I) as (B1 & _). unfold GUEST_MEM_START_VA, MIB in *. fold e in L2. lia. }
      destruct Hp as [[-> ->]|[-> ->]].
      * apply (Hsg A KA); [|by apply payload_seg_elem]. eapply Forall_impl; [exact S1|]. intros sg. apply keeps_seg. by eapply keeps_trans.
      * apply (Hsg B KB); [|by apply payload_seg_elem]. eapply Forall_impl; [exact S2|]. intros sg. by apply keeps_seg.
    + apply covers_iff in Hc. destruct (mmap_seg_ok im G r W Hin) as [Hlin Hl0]. eapply (has_seg_at im s3 (mmap_seg r) a Hlin); [|by apply S3|exact Hc].
      cbn [mmap_seg sg_len] in *. pose proof (ti_busy _ _ (wi_inv _ _ W)) as Ho. pose proof (ordered_elem _ _ _ _ Ho Hin) as (?&?&?). pose proof (tiling_bounds _ _ (wi_inv _ _ W)). unfold addr_limit, LIMIT in *. lia.
  - intros a Ha. rewrite V3, V2, V1. apply protection_of; [done| |done]. apply (rd_full _ _ _ R). rewrite (rd_tbrk _ _ _ R). done.
Qed.
End Whole.

(** C20. A snapshot that was written can be read back.  What the monitor finds in the file is
    what was put there: the ELF header of the guest's program as a core file with the count
    of program headers, the header of the notes with one header for each segment of memory
    in order, and, byte by byte, the notes that km_core_write_notes makes of the image and the
    pipes the guest had, in the room that was computed before.  On a machine with the breaks of the image and nothing
    but reserved space between them, recovering memory from these headers succeeds and gives
    each address of the program and of the guest's accessible mappings the byte it had, and
    each address between the breaks its protection.  Conditions: the host writes, seeks,
    protects and maps what it is asked to ([host_writes], [host_restores]), the image is
    well formed with fewer than 2^16 program headers, and the file stays below the limit of
    its offsets. *)
Theorem snapshot_memory_roundtrip `{Host} `{!CoreHost} im G open_rc calloc_ok vcpu label description ty d d' s :
  host_writes -> host_restores -> wf_image im G -> elf_ok im.(im_guest).(pl_ehdr) -> phnum im < 2 ^ 16 -> d.(d_pos) = 0 ->
  (forall size d1, km_core_notes_length im vcpu label description ty d = Ret (size, d1) -> whole_length im size < LIMIT - 8192) ->
  km_dump_core im open_rc calloc_ok vcpu label description ty d = Ret ((0, Written), d') ->
  ready G im.(im_machine) s.(sn_m) -> none_mapped G s.(sn_m) ->
  let file := mk_elf d'.(d_file) d'.(d_pos) in
  exists size notes d1 d2 d3,
    km_core_notes_length im vcpu label description ty d = Ret (size, d1)
    /\ d2.(d_queue) = d.(d_queue) /\ km_core_write_notes im vcpu label description size ty d2 = Ret (inr notes, d3)
    /\ km_open_elf_file file = Some (core_ehdr im)
    /\ km_snapshot_fill_km_payload file (core_ehdr im) = Some (core_phdrs im notes size)
    /\ km_snapshot_read_notes file (core_phdrs im notes size) = Some (inr notes)
    /\ wp False (km_ss_recover_memory file G (core_phdrs im notes size))
         (fun _ s' => ready G im.(im_machine) s'.(sn_m) /\ same_memory im s' /\ same_protection im G s'.(sn_m)) s.
Proof.
  intros Hw Hr W He Hp Hd Hlen Hrun R Hn file.
  destruct (dump_core_file Hw im open_rc calloc_ok vcpu label description ty d d' Hd (wi_ident _ _ W) (image_segs_ok im G W) Hlen Hrun)
    as (notes & size & Hcf & (d1 & Hsz) & (d2 & d3 & Hq & Hnotes)). specialize (Hlen size d1 Hsz).
  pose proof (core_phdrs_fit im G W notes size _ _ Hcf Hlen) as Hfits.
  exists size, notes, d1, d2, d3. split_and!; [done..| | | |].
  - by eapply open_core.
  - by eapply fill_core.
  - by eapply read_core_notes.
  - by eapply recover_image.
Qed.
