(* ===== verification/SnapBoot.v ===== *)
(** * The machine before memory is recovered (proofs)

    The note of the monitor moves the break and reserves all that lies below the
    monitor's own mappings. *)
From S2P Require Import Prelude Machine MemGeom TopBreak MemBrk MmapRegion MmapGuest MmapList MmapRange MmapFree MmapCorrect MmapSystem FdTable Signal Stdio Notes IoContext CoreFs CoreDump CoreProps CoreBounds CoreImage FdRecover Snapshot SnapFile SnapMem.

#[local] Abbreviation TOP := GUEST_MEM_TOP_VA.
#[local] Abbreviation PRIVANON := (Z.lor MAP_PRIVATE MAP_ANONYMOUS).

Section Boot.
  Context `{Host} `{!GuestFiles}.

Lemma insert_busy_tbrk reg m : wp True (km_mmap_insert_busy reg) (fun _ s => s.(tbrk) = m.(tbrk)) m.
Proof.
  unfold km_mmap_insert_busy, km_mmap_insert. apply wp_bind, wp_get. apply wp_bind, wp_bind. unfold lift. destruct (insert_position reg [] m.(mmaps_busy)) as [[l t]|]; [|done].
  apply wp_ret. apply wp_bind. eapply wp_mono; [apply mprotect_region_spec|]. intros r s [_ Htr]. apply wp_ret. apply wp_modify. rewrite Htr. done.
Qed.

(** With no free space a mapping lies at the new top break. *)
Lemma add_region_fresh m sz prot :
  mmap_inv m -> m.(mmaps_free) = [] -> m.(tbrk) -u sz <> 0 -> m.(tbrk) -u sz <> GUEST_VA_OFFSET m -> m.(tbrk) -u sz <> neg_errno ENOMEM ->
  wp True (km_mmap_add_region sz prot PRIVANON (-1) MMAP_ALLOC_GUEST) (fun r s => r = neg_errno ENOMEM \/ s.(tbrk) = r) m.
Proof.
  intros T Hf Hn0 Hnv Hne. unfold km_mmap_add_region. apply wp_bind, wp_get. rewrite Hf. cbn [km_mmap_find_free find_cursor].
  apply wp_bind, wp_hcall. destruct (_ =? 0); [apply wp_ret; by left|]. apply wp_bind.
  assert (Hmv : wp True (km_mem_tbrk_op (m.(tbrk) -u sz)) (fun r s => r = m.(tbrk) -u sz /\ s.(tbrk) = r \/ r = neg_errno ENOMEM) (set_trace (H_calloc :: m.(trace)) m)).
  { pose proof (tb_move _ (m.(tbrk) -u sz) (tb_inv_trace m (H_calloc :: m.(trace)) (ti_tb _ _ T)) Hn0 Hnv) as Hw. unfold wp in *.
    destruct (km_mem_tbrk_op _ _) as [[r s]| |]; [|done|done]. destruct Hw as (_ & _ & [[-> Ht]|(-> & _)]); auto. }
  eapply wp_mono; [exact Hmv|]. intros r s [[-> Ht]| ->].
  - rewrite Z.eqb_refl. cbn [negb]. unfold add_region_finish, km_mmap_change_region_sharing. cbn [start size reg0].
    change (negb (Z.land (Z.lor MAP_ANONYMOUS MAP_PRIVATE) sharing =? Z.land PRIVANON sharing)) with false. cbn iota. apply wp_bind, wp_ret. cbn [Z.ltb Z.compare].
    apply wp_bind. eapply wp_mono; [apply insert_busy_tbrk|]. intros [] s' E. apply wp_ret. right. cbn [start]. congruence.
  - destruct (negb _) eqn:E; [apply wp_ret; by left|]. apply negb_false_iff, Z.eqb_eq in E. congruence.
Qed.

(** A machine that was set up and not used: only the monitor's mappings, down to the top
    break. *)
Record fresh (m M : machine) : Prop := {
  fm_inv : mmap_inv M;
  fm_sealed : sealed M.(tbrk) M;
  fm_free : M.(mmaps_free) = [];
  fm_page : M.(tbrk) mod 4096 = 0;
  fm_max : M.(guest_max_physmem) = m.(guest_max_physmem);
}.

(** The break moves and nothing else does. *)
Lemma brk_fresh m M new : fresh m M -> GUEST_MEM_START_VA <= new < LIMIT ->
  wp True (km_mem_brk new) (fun r M' => r = new -> fresh m M' /\ M'.(brk) = new /\ M'.(tbrk) = M.(tbrk)) M.
Proof.
  intros [F1 F2 F3 F4 F5] Hn. destruct (ti_tb _ _ F1) as [w I]. pose proof (km_mem_brk_spec M w I new ltac:(right; apply Hn)) as Hw. unfold wp in *.
  destruct (km_mem_brk new M) as [[r M']| |]; [|done|done]. destruct Hw as (I' & (regs & p & tr & E & _) & Hr). intros ->.
  assert (Hb : M'.(brk) = new).
  { destruct Hr as [(?&_)|[(_&_&?)|(_&Hbad&?)]]; [unfold GUEST_MEM_START_VA, MIB in *; lia|done|].
    exfalso. assert (LIMIT < neg_errno ENOMEM) by (by vm_compute). lia. }
  rewrite E. cbn [tbrk brk set_brk with_mem set_vm_mem_regs set_pt set_trace]. split_and!; [|done|done].
  split; cbn [tbrk mmaps_free guest_max_physmem set_brk with_mem set_vm_mem_regs set_pt set_trace]; try done.
  - destruct F1 as [T1 T2 T3 T4 T5]. split; try done. exists w. by rewrite <- E.
  - destruct F2 as [S1 S2 S3]. by split.
Qed.

(** All below the monitor's mappings is reserved. *)
Lemma reserve_fresh m M t : host_mmap_fixed -> fresh m M -> M.(brk) = m.(brk) -> mmap_inv m -> t = m.(tbrk) -> t < M.(tbrk) -> t mod 4096 = 0 ->
  wp True (km_guest_mmap 0 (u64 (M.(tbrk) - t)) PROT_NONE PRIVANON (-1) 0)
    (fun p M' => p = t -> ready M.(tbrk) m M' /\ none_mapped M.(tbrk) M') M.
Proof.
  intros Hh [F1 F2 F3 F4 F5] Hbrk Hinv Et Hlt Hal. pose proof (tiling_bounds _ _ F1) as [Hb _]. pose proof (tb_bounds m (ti_tb _ _ Hinv)) as [Hb2 Hb3].
  assert (HT : TOP = 2 ^ 39 - 2 ^ 21) by done. assert (HI : LIMIT = 2 ^ 62) by done. unfold GUEST_MEM_START_VA, MIB in Hb2.
  assert (Eo : GUEST_VA_OFFSET M = GUEST_VA_OFFSET m) by (unfold GUEST_VA_OFFSET, GUEST_MEM_ZONE_SIZE_VA; by rewrite F5).
  rewrite u64_small by (unfold is_u64, two64; lia). set (sz := M.(tbrk) - t).
  assert (Hpg : roundup sz KM_PAGE_SIZE = sz).
  { apply (pages_aligned sz); [unfold sz; lia|]. unfold sz. rewrite Zminus_mod, F4, Hal. done. }
  assert (Hwant : M.(tbrk) -u sz = t) by (unfold sz; replace (M.(tbrk) - (M.(tbrk) - t)) with t by lia; apply u64_small; unfold is_u64, two64; lia).
  pose proof (mmap_anon_spec M 0 sz PROT_NONE PRIVANON (-1) 0 F1 Hh eq_refl eq_refl eq_refl ltac:(unfold sz; lia)) as Hw.
  rewrite Hpg in Hw. specialize (Hw ltac:(unfold sz; lia) ltac:(unfold sz; lia) ltac:(unfold sz, ENOMEM; lia)).
  pose proof (add_region_fresh M sz PROT_NONE F1 F3) as Hf. rewrite Hwant in Hf.
  specialize (Hf ltac:(lia) ltac:(lia) ltac:(change (neg_errno ENOMEM) with (two64 - 12); unfold two64; lia)).
  assert (Heq : km_guest_mmap 0 sz PROT_NONE PRIVANON (-1) 0 M = km_mmap_add_region sz PROT_NONE PRIVANON (-1) MMAP_ALLOC_GUEST M).
  { unfold km_guest_mmap, km_guest_mmap_impl. rewrite Hpg. change (negb (mmap_check_params 0 sz PROT_NONE PRIVANON (-1) 0 =? 0)) with false. cbn iota.
    by apply mmap_anon_nolock. }
  unfold wp in *. rewrite Heq in *. destruct (km_mmap_add_region sz PROT_NONE PRIVANON (-1) MMAP_ALLOC_GUEST M) as [[r M']| |]; [|done|done].
  destruct Hw as (T' & [FR FB FM] & Hout). intros ->.
  destruct Hf as [Hbad|Htb]; [change (neg_errno ENOMEM) with (two64 - 12) in Hbad; unfold two64 in Hbad; lia|].
  inversion Hout as [gva s0 H1 H2 H3 Hv|e s0 He _ Hbad]; [subst gva s0|exfalso; unfold neg_errno, u64 in Hbad; rewrite <- (Z_mod_plus_full _ 1), Z.mod_small in Hbad by (unfold two64; lia); unfold two64 in Hbad; lia].
  replace (t + sz) with M.(tbrk) in Hv by (unfold sz; lia).
  assert (Hold : forall a x, view M.(mmaps_busy) a = Some x -> M.(tbrk) <= a).
  { intros a x Hx. destruct (Z.le_gt_cases M.(tbrk) a); [done|]. rewrite (view_outside _ _ _ _ (ti_busy _ _ F1)) in Hx by lia. done. }
  destruct F2 as [S1 S2 S3]. split; [split|].
  - done.
  - split; [done| |].
    + intros a x. rewrite Hv. unfold in_range. destruct (Z.leb_spec t a), (Z.ltb_spec a M.(tbrk)); cbn [andb]; try apply S2. intros [= <-]. split; [done|lia].
    + intros a Ha. unfold mapped. rewrite Hv. unfold in_range. destruct (Z.ltb_spec a M.(tbrk)); [lia|]. rewrite andb_false_r. by apply S3.
  - intros a Ha. unfold mapped. rewrite Hv. unfold in_range. destruct (Z.leb_spec t a); [|lia]. destruct (Z.ltb_spec a M.(tbrk)); [|lia]. eauto.
  - congruence.
  - congruence.
  - congruence.
  - intros a x. rewrite Hv. unfold in_range. destruct (Z.leb_spec t a), (Z.ltb_spec a M.(tbrk)); cbn [andb]; intros Hx Ha; try lia.
    + by injection Hx as <-.
    + apply Hold in Hx. lia.
Qed.

(** The note of the monitor prepares the machine for the memory of the image. *)
Lemma monitor_ready im s label description rest n :
  host_mmap_fixed -> fresh im.(im_machine) s.(sn_m) -> mmap_inv im.(im_machine) -> im.(im_machine).(tbrk) < s.(sn_m).(tbrk) -> im.(im_machine).(tbrk) mod 4096 = 0 ->
  Z.of_nat (length (string_of label)) < 2 ^ 32 -> Z.of_nat (length (string_of description)) < 2 ^ 32 ->
  wp True (km_ss_recover_km_monitor (n_desc (monitor_note im label description) ++ rest) n)
    (fun rc s' => 0 <= rc -> ready s.(sn_m).(tbrk) im.(im_machine) s'.(sn_m) /\ none_mapped s.(sn_m).(tbrk) s'.(sn_m) /\ s'.(sn_mem) = s.(sn_mem)) s.
Proof.
  intros Hh F Hinv Hlt Hal Hl Hd. set (m := im.(im_machine)) in *. unfold km_ss_recover_km_monitor, monitor_note. cbn [n_desc]. fold m. rewrite <- !app_assoc.
  set (ty := match vm_type m with VM_TYPE_KVM => 0 | VM_TYPE_KKM => 1 end).
  assert (Hb : GUEST_MEM_START_VA <= m.(brk) < LIMIT) by (destruct (ti_tb _ _ Hinv) as [w I]; apply (brk_low m w I)).
  pose proof (tiling_bounds _ _ Hinv) as [Ht _]. assert (HT : TOP = 2 ^ 39 - 2 ^ 21) by done.
  pose proof (fields_put [f32 ty; f32 (Z.of_nat (length (string_of label))); f32 (Z.of_nat (length (string_of description))); f32 0; f64 m.(brk); f64 m.(tbrk)]
    (string_of label ++ string_of description ++ rest)) as Hf. cbn [map fst snd f32 f64] in Hf. cbn [f32 f64]. rewrite Hf.
  2: { assert (0 <= ty < 2) by (unfold ty; destruct (vm_type m); lia). unfold LIMIT, GUEST_MEM_START_VA, MIB in *. fits_all. }
  apply wp_bind, wp_get. destruct (negb _); [apply wp_ret; lia|]. apply wp_bind. eapply wp_on_machine; [by apply (brk_fresh m)|].
  intros r M1 H1. destruct (Z.eqb_spec r m.(brk)) as [->|]; [|done]. cbn [negb]. destruct (H1 eq_refl) as (F1 & B1 & T1).
  apply wp_bind. eapply (wp_on_machine _ _ (fun r M => r = M1.(tbrk) /\ M = M1)); [unfold wp; change (km_mem_tbrk 0) with (km_mem_tbrk_op 0); by rewrite tb_query|].
  intros r M [-> ->]. apply wp_bind. eapply wp_on_machine; [apply (reserve_fresh m M1 m.(tbrk)); (done || congruence)|].
  intros p M2 H2. destruct (Z.eqb_spec p m.(tbrk)) as [->|]; [|done]. cbn [negb]. apply wp_ret. intros _. destruct (H2 eq_refl) as [R N]. rewrite T1 in R, N. done.
Qed.
End Boot.
