(* ===== verification/SnapVcpu.v ===== *)
(** * Vcpus survive a snapshot (proofs)

    The notes of the registers and of what the monitor keeps of a vcpu give it back. *)
From S2P Require Import Prelude Machine MemGeom TopBreak MemBrk MmapRegion MmapGuest FdTable Signal Stdio Notes IoContext CoreFs CoreDump CoreProps CoreBounds SnapNotes FdRecover Snapshot SnapFile.

(** ** Walks over known notes *)
Lemma following_app ns1 ns2 tail : following (ns1 ++ ns2) tail = following ns1 (stream ns2 tail) ++ following ns2 tail.
Proof. induction ns1 as [|n ns1 IH]; [done|]. cbn. by rewrite stream_app, IH. Qed.

Section Walk.
  Context {S : Type} (func : list Z -> Z -> M S Z) (type : Z).

Lemma on_notes_app l1 l2 ab Q s :
  wp ab (on_notes func l1 type) (fun rc s' => rc = 0 /\ wp ab (on_notes func l2 type) Q s') s -> wp ab (on_notes func (l1 ++ l2) type) Q s.
Proof.
  revert s. induction l1 as [|[n rest] l1 IH]; intros s Hw; cbn [app on_notes] in *; [by destruct Hw|].
  apply wp_bind. apply wp_bind_inv in Hw. eapply wp_mono; [exact Hw|]. intros rc s1. cbv beta. destruct (Z.eqb_spec rc 0); cbn [negb]; intros Hr; [apply IH; exact Hr|].
  unfold wp, ret in Hr. by destruct Hr.
Qed.
Lemma on_notes_skip l s : Forall (fun n => n.1.(n_type) <> type) l -> on_notes func l type s = Ret (0, s).
Proof.
  induction 1 as [|[n rest] l Hn _ IH]; [done|]. cbn [on_notes fst] in *. destruct (Z.eqb_spec (n_type n) type); [done|]. exact IH.
Qed.
Lemma on_notes_skip_first l rest s : Forall (fun n => n.1.(n_type) <> type) l -> on_notes func (l ++ rest) type s = on_notes func rest type s.
Proof.
  intros Hl. revert s. induction Hl as [|[n r] l Hn _ IH]; intros s; [done|]. cbn [app on_notes fst] in *. destruct (Z.eqb_spec (n_type n) type); [done|]. apply IH.
Qed.
End Walk.
Lemma following_types P ns tail : Forall (fun n => P n.(n_type)) ns -> Forall (fun n => P n.1.(n_type)) (following ns tail).
Proof. induction 1 as [|n ns Hn _ IH]; [constructor|]. by apply Forall_cons_2. Qed.

(** ** One vcpu *)
Record vcpu_ok (v : core_vcpu) : Prop := {
  vo_id : 0 <= v.(cv_id) < KVM_MAX_VCPUS;
  vo_regs : Forall (fun z => 0 <= z < 2 ^ 64) (pr_reg v);
  vo_words : Forall (fun z => 0 <= z < 2 ^ 64) [v.(cv_stack_top); v.(cv_guest_thr); v.(cv_set_child_tid); v.(cv_clear_child_tid); v.(cv_ss_sp); v.(cv_ss_size); v.(cv_mapself_base); v.(cv_mapself_size); v.(cv_hcarg)];
  vo_flags : 0 <= v.(cv_ss_flags) < 2 ^ 32;
  vo_halves : 0 <= v.(cv_hypercall) < 2 ^ 16 /\ 0 <= v.(cv_restart) < 2 ^ 16;
}.
(** With the registers alone, and with all. *)
Definition bare (v : core_vcpu) : core_vcpu := mk_cv v.(cv_id) v.(cv_regs) v.(cv_cs) v.(cv_ss) v.(cv_fs) v.(cv_gs) v.(cv_ds) v.(cv_es) 0 0 0 0 0 0 0 0 0 0 0 0 None.
Definition restored (im : image) (v : core_vcpu) : core_vcpu :=
  mk_cv v.(cv_id) v.(cv_regs) v.(cv_cs) v.(cv_ss) v.(cv_fs) v.(cv_gs) v.(cv_ds) v.(cv_es) v.(cv_stack_top) v.(cv_guest_thr) v.(cv_set_child_tid) v.(cv_clear_child_tid)
    v.(cv_ss_sp) v.(cv_ss_flags) v.(cv_ss_size) v.(cv_mapself_base) v.(cv_mapself_size) v.(cv_hcarg) v.(cv_hypercall) v.(cv_restart) (match v.(cv_fp) with Some _ => Some (fp_bytes im v) | None => None end).

Lemma fits_words ws : Forall (fun z => 0 <= z < 2 ^ 64) ws -> Forall fits (map f64 ws).
Proof. intros Hw. apply Forall_map. eapply Forall_impl; [exact Hw|]. done. Qed.

Lemma prstatus_fits v : vcpu_ok v -> Forall fits (prstatus_fields v).
Proof.
  intros [V1 V2 _ _ _]. unfold prstatus_fields. unfold KVM_MAX_VCPUS in V1. rewrite !Forall_app. split_and!; [|by apply Forall_replicate|by apply fits_words|fits_all]. fits_all.
Qed.

Lemma prstatus_back v rest s :
  vcpu_ok v -> s.(sn_vcpus) !! v.(cv_id) = None ->
  km_ss_recover_prstatus (put (prstatus_fields v) ++ rest) (Z.of_nat (length (put (prstatus_fields v)))) s
  = Ret (0, set_vcpus (<[v.(cv_id) := bare v]> s.(sn_vcpus)) (s.(sn_run_cnt) + 1) s).
Proof.
  intros V Hn. unfold km_ss_recover_prstatus. rewrite length_put. change (Z.of_nat (width (map fst (prstatus_fields v))) <? Z.of_nat SIZEOF_PRSTATUS) with false. cbn iota.
  change PRSTATUS_WIDTHS with (map fst (prstatus_fields v)). rewrite fields_put by (by apply prstatus_fits).
  change (map snd (prstatus_fields v) !! 7%nat) with (Some (v.(cv_id) + 1)).
  change (take 27 (drop 19 (map snd (prstatus_fields v)))) with (pr_reg v). destruct V as [V1 _ _ _ _].
  assert (E : regs_of (pr_reg v) = Some (v.(cv_regs), (v.(cv_cs), v.(cv_ss), v.(cv_fs), v.(cv_gs), v.(cv_ds), v.(cv_es)))) by (unfold pr_reg; by destruct (cv_regs v)).
  rewrite E. unfold KVM_MAX_VCPUS in V1. replace (int32 (v.(cv_id) + 1)) with (v.(cv_id) + 1) by (symmetry; apply int32_id; lia). unfold km_vcpu_restore.
  replace (v.(cv_id) + 1 - 1) with v.(cv_id) by lia. destruct (Z.ltb_spec v.(cv_id) 0); [lia|]. destruct (Z.leb_spec KVM_MAX_VCPUS v.(cv_id)); [unfold KVM_MAX_VCPUS in *; lia|].
  cbn [orb]. unfold bind, get. rewrite Hn. unfold modify, ret. cbn [set_vcpus sn_vcpus sn_run_cnt]. by rewrite insert_insert_eq.
Qed.

Section Info.
  Context (im : image).

Lemma vcpu_fits v : vcpu_ok v -> Forall fits (vcpu_fields im v).
Proof.
  intros [V1 _ V3 V4 [V5 V6]]. unfold KVM_MAX_VCPUS in V1. unfold vcpu_fields. repeat (apply Forall_cons_1 in V3 as [? V3]).
  assert (Hf : 0 <= match v.(cv_fp) with Some _ => km_vmdriver_fp_format im.(im_machine).(vm_type) im.(im_xsave) | None => NT_KM_VCPU_FPDATA_NONE end < 4)
    by (unfold km_vmdriver_fp_format; repeat case_match; by vm_compute).
  fits_all.
Qed.

Lemma info_back v rest s :
  vcpu_ok v -> s.(sn_m).(vm_type) = im.(im_machine).(vm_type) -> s.(sn_vcpus) !! v.(cv_id) = Some (bare v) ->
  km_ss_recover_vcpu_info im.(im_xsave) (n_desc (vcpu_note im v) ++ rest) (Z.of_nat (length (n_desc (vcpu_note im v)))) s
  = Ret (0, set_vcpus (<[v.(cv_id) := restored im v]> s.(sn_vcpus)) s.(sn_run_cnt) s).
Proof.
  intros V Ht Hv. unfold km_ss_recover_vcpu_info. cbn [n_desc vcpu_note]. pose proof (length_put (vcpu_fields im v)) as Hl. change (width _) with 96%nat in Hl.
  rewrite length_app, Hl. destruct (Z.ltb_spec (Z.of_nat (96 + length (fp_bytes im v))) (Z.of_nat SIZEOF_NT_VCPU)); [unfold SIZEOF_NT_VCPU in *; lia|].
  rewrite <- app_assoc. change [4; 4; 8; 8; 8; 8; 8; 4; 4; 8; 8; 8; 8; 2; 2; 4]%nat with (map fst (vcpu_fields im v)). rewrite fields_put by (by apply vcpu_fits).
  cbn [map snd vcpu_fields f16 f32 f64]. unfold bind, get. rewrite Hv. unfold modify, ret. do 2 f_equal. f_equal. f_equal. unfold restored. cbn [bare cv_id cv_regs cv_cs cv_ss cv_fs cv_gs cv_ds cv_es].
  f_equal. rewrite drop_app_length' by (by rewrite Hl). rewrite Ht. change (km_vmdriver_fpstate_size _ _) with (fp_size im). unfold km_vmdriver_restore_fpstate.
  rewrite (take_app_length' (fp_bytes im v)) by (by rewrite length_fp). destruct (cv_fp v); [|done]. unfold km_vmdriver_fp_format. by repeat case_match.
Qed.

(** ** All of them *)
Definition insert_all (f : core_vcpu -> core_vcpu) (l : list core_vcpu) (M : gmap Z core_vcpu) : gmap Z core_vcpu := foldl (fun M v => <[v.(cv_id) := f v]> M) M l.

Lemma insert_all_other f l M i : i ∉ map cv_id l -> insert_all f l M !! i = M !! i.
Proof.
  revert M. induction l as [|v l IH]; intros M Hi; [done|]. cbn [map insert_all foldl] in *. apply not_elem_of_cons in Hi as [H1 H2].
  unfold insert_all in IH. rewrite IH by done. by rewrite lookup_insert_ne.
Qed.
Lemma insert_all_in f l M v : NoDup (map cv_id l) -> v ∈ l -> insert_all f l M !! v.(cv_id) = Some (f v).
Proof.
  revert M. induction l as [|w l IH]; intros M Hn Hv; [by apply not_elem_of_nil in Hv|]. cbn [map] in Hn. apply NoDup_cons in Hn as [H1 H2].
  change (insert_all f (w :: l) M) with (insert_all f l (<[w.(cv_id) := f w]> M)).
  apply elem_of_cons in Hv as [->|Hv]; [|by apply IH]. rewrite (insert_all_other f l) by done. by rewrite lookup_insert_eq.
Qed.

Lemma prstatus_all l tail rest s :
  Forall vcpu_ok l -> NoDup (map cv_id l) -> (forall v, v ∈ l -> s.(sn_vcpus) !! v.(cv_id) = None) ->
  on_notes km_ss_recover_prstatus (following (map prstatus_note l) tail ++ rest) NT_PRSTATUS s
  = on_notes km_ss_recover_prstatus rest NT_PRSTATUS (set_vcpus (insert_all bare l s.(sn_vcpus)) (s.(sn_run_cnt) + Z.of_nat (length l)) s).
Proof.
  intros Hok. revert s. induction Hok as [|v l Hv Hok IH]; intros s Hn Hf.
  { cbn [map following app insert_all foldl length]. rewrite Z.add_0_r. by destruct s. }
  cbn [map following app on_notes prstatus_note n_type n_desc] in *. change (NT_PRSTATUS =? NT_PRSTATUS) with true. cbn iota. apply NoDup_cons in Hn as [N1 N2].
  unfold bind at 1. rewrite prstatus_back by (done || (apply Hf; apply elem_of_cons; by left)). change (negb (0 =? 0)) with false. cbn iota.
  rewrite IH; [|done|].
  - cbn [set_vcpus sn_vcpus sn_run_cnt insert_all foldl length]. f_equal. unfold set_vcpus. f_equal. lia.
  - intros w Hw. cbn [set_vcpus sn_vcpus]. rewrite lookup_insert_ne; [apply Hf; apply elem_of_cons; by right|]. intros E. apply N1. rewrite E.
    apply list_elem_of_In, in_map. by apply list_elem_of_In.
Qed.

Lemma info_all l tail rest s :
  Forall vcpu_ok l -> NoDup (map cv_id l) -> s.(sn_m).(vm_type) = im.(im_machine).(vm_type) -> (forall v, v ∈ l -> s.(sn_vcpus) !! v.(cv_id) = Some (bare v)) ->
  on_notes (km_ss_recover_vcpu_info im.(im_xsave)) (following (map (vcpu_note im) l) tail ++ rest) NT_KM_VCPU s
  = on_notes (km_ss_recover_vcpu_info im.(im_xsave)) rest NT_KM_VCPU (set_vcpus (insert_all (restored im) l s.(sn_vcpus)) s.(sn_run_cnt) s).
Proof.
  intros Hok. revert s. induction Hok as [|v l Hv Hok IH]; intros s Hn Ht Hf.
  { cbn [map following app insert_all foldl length]. by destruct s. }
  cbn [map following app on_notes] in *. cbn [vcpu_note n_type]. change (NT_KM_VCPU =? NT_KM_VCPU) with true. cbn iota. apply NoDup_cons in Hn as [N1 N2].
  unfold bind at 1. rewrite info_back by (done || (apply Hf; apply elem_of_cons; by left)). change (negb (0 =? 0)) with false. cbn iota.
  rewrite IH; [done|done|done|]. intros w Hw. cbn [set_vcpus sn_vcpus]. rewrite lookup_insert_ne; [apply Hf; apply elem_of_cons; by right|]. intros E. apply N1. rewrite E.
  apply list_elem_of_In, in_map. by apply list_elem_of_In.
Qed.
End Info.

(** ** From the notes of the snapshot *)
Lemma filter_others (f : core_vcpu -> bool) l : (forall x, x ∈ l -> f x = true) -> List.filter f l = l.
Proof.
  induction l as [|x l IH]; intros Hf; [done|]. cbn. rewrite Hf by (apply elem_of_cons; by left). f_equal. apply IH. intros y Hy. apply Hf. apply elem_of_cons. by right.
Qed.

Section FromNotes.
  Context (im : image).

(** The vcpu that asked for the snapshot is one of the image. *)
Definition current_ok (vcpu : option core_vcpu) : Prop := match vcpu with Some v => v ∈ im.(im_vcpus) | None => True end.
Definition in_order (vcpu : option core_vcpu) : list core_vcpu := match vcpu with Some v => [v] | None => [] end ++ others im vcpu.

Lemma in_order_perm vcpu : current_ok vcpu -> NoDup (map cv_id im.(im_vcpus)) -> in_order vcpu ≡ₚ im.(im_vcpus).
Proof.
  intros Hc Hn. unfold in_order, others. destruct vcpu as [v|]; [|by rewrite filter_others]. cbn in Hc. apply list_elem_of_split in Hc as (l1 & l2 & E). rewrite E in *.
  rewrite map_app, map_cons in Hn. apply NoDup_app in Hn as (N1 & N2 & N3). apply NoDup_cons in N3 as [N4 _]. rewrite List.filter_app. cbn [List.filter].
  unfold is_current at 2. rewrite Z.eqb_refl. cbn [negb]. rewrite !filter_others; [exact (Permutation_middle l1 l2 v)| |].
  - intros x Hx. unfold is_current. apply negb_true_iff, Z.eqb_neq. intros Ex. apply N4. rewrite Ex. apply list_elem_of_In, in_map. by apply list_elem_of_In.
  - intros x Hx. unfold is_current. apply negb_true_iff, Z.eqb_neq. intros Ex. apply (N2 (cv_id x)); [apply list_elem_of_In, in_map; by apply list_elem_of_In|].
    rewrite <- Ex. apply elem_of_cons. by left.
Qed.

Lemma all_types vcpu gname files :
  Forall file_note files -> Forall (fun n => length n.(n_owner) = 4%nat /\ 0 <= n.(n_type) < 2 ^ 32) (all_notes im vcpu gname files).
Proof.
  intros Hf. unfold all_notes, head_notes. rewrite !Forall_app. split_and!.
  - apply Forall_map, Forall_forall. done.
  - repeat (apply Forall_cons_2; [done|]). constructor.
  - apply Forall_map, Forall_forall. done.
  - apply Forall_cons_2; [done|]. destruct (pl_filename (im_dyn im)); [apply Forall_cons_2; [done|]|]; constructor.
  - eapply Forall_impl; [exact Hf|]. intros n [-> Ht]. split; [done|]. unfold fd_types in Ht. rewrite !elem_of_cons in Ht. set_unfold. by destruct Ht as [->|[->|[->|[->|[->|[->|[]]]]]]].
  - apply Forall_map, Forall_forall. done.
Qed.
(** Only registers have this type, and only vcpus that one. *)
Lemma rest_types t gname files : t = NT_PRSTATUS \/ t = NT_KM_VCPU -> Forall file_note files ->
  Forall (fun n => n.(n_type) <> t) (payloadv_note im.(im_guest) gname :: match im.(im_dyn).(pl_filename) with Some dname => [payload_note im.(im_dyn) dname] | None => [] end)
  /\ Forall (fun n => n.(n_type) <> t) (files ++ map sighand_note (km_sig_core_notes_write im.(im_acts))).
Proof.
  intros Ht Hf. rewrite Forall_app. split_and!.
  - apply Forall_cons_2; [by destruct Ht as [->| ->]|]. destruct (pl_filename (im_dyn im)); [apply Forall_cons_2; [by destruct Ht as [->| ->]|]|]; constructor.
  - eapply Forall_impl; [exact Hf|]. intros n [_ Hn]. unfold fd_types in Hn. rewrite !elem_of_cons in Hn. set_unfold. destruct Ht as [->| ->]; by destruct Hn as [->|[->|[->|[->|[->|[->|[]]]]]]].
  - apply Forall_map, Forall_forall. intros n _. by destruct Ht as [->| ->].
Qed.

Lemma insert_all_base f l M1 M2 : NoDup (map cv_id l) -> (forall i, i ∉ map cv_id l -> M1 !! i = M2 !! i) -> insert_all f l M1 = insert_all f l M2.
Proof.
  intros Hn Hm. apply map_eq. intros i. destruct (decide (i ∈ map cv_id l)) as [Hi|Hi]; [|rewrite !insert_all_other by done; by apply Hm].
  apply list_elem_of_In, in_map_iff in Hi as (v & <- & Hv). apply list_elem_of_In in Hv. by rewrite !insert_all_in.
Qed.
End FromNotes.

(** C21. Every vcpu comes back: from the notes that were written for an image, the reader gets
    exactly the vcpus of the image, each in its slot with its registers and all that the
    monitor keeps of it. *)
Theorem snapshot_vcpus_roundtrip `{CoreHost} im vcpu label description size ty gname d notes d' s :
  im.(im_guest).(pl_filename) = Some gname -> (ty = KM_DO_SNAP -> fds_ok im.(im_fs)) ->
  km_core_write_notes im vcpu label description size ty d = Ret (inr notes, d') -> Z.of_nat (length notes) < 2 ^ 32 ->
  Forall vcpu_ok im.(im_vcpus) -> NoDup (map cv_id im.(im_vcpus)) -> current_ok im vcpu -> s.(sn_vcpus) = ∅ -> s.(sn_m).(vm_type) = im.(im_machine).(vm_type) ->
  km_ss_recover_vcpus im.(im_xsave) notes s
  = Ret (0, set_vcpus (insert_all (restored im) im.(im_vcpus) ∅) (s.(sn_run_cnt) + Z.of_nat (length im.(im_vcpus))) s).
Proof.
  intros Hg Hok Hrun Hlen Hv Hn Hc He Ht. destruct (notes_framed im vcpu label description size ty gname d notes d' Hg Hok Hrun) as (files & Hf & ->).
  set (mon := monitor_note im label description) in *.
  assert (Hnotes : Forall note_ok (all_notes im vcpu gname files)) by (by apply (stream_ok _ (note_bytes mon)); [|apply all_types]).
  assert (Hmon : note_ok mon).
  { rewrite stream_tail, length_app, length_note_bytes in Hlen. split_and!; [done|lia|done|done]. }
  unfold km_ss_recover_vcpus, bind. rewrite !notes_walk by done. unfold all_notes, head_notes. fold (in_order im vcpu).
  pose proof (in_order_perm im vcpu Hc Hn) as Hp.
  assert (Hn' : NoDup (map cv_id (in_order im vcpu))) by (by rewrite Hp).
  assert (Hv' : Forall vcpu_ok (in_order im vcpu)) by (by rewrite Hp).
  set (P := map prstatus_note (in_order im vcpu)). set (V := map (vcpu_note im) (im_vcpus im)). set (B := payloadv_note _ _ :: _). set (C := files ++ _).
  rewrite <- !app_assoc. rewrite (following_app P), <- app_assoc. unfold P at 1. rewrite prstatus_all; [|done|done|by intros v _; rewrite He].
  destruct (rest_types im NT_PRSTATUS gname files (or_introl eq_refl) Hf) as [T1 T2]. destruct (rest_types im NT_KM_VCPU gname files (or_intror eq_refl) Hf) as [T3 T4].
  fold B in T1, T3. fold C in T2, T4. rewrite on_notes_skip.
  2: { apply Forall_app. split; [|by apply Forall_cons_2; [|constructor]]. apply (following_types (fun t => t <> NT_PRSTATUS)).
       rewrite !Forall_app. split_and!; [by repeat (apply Forall_cons_2; [done|]); constructor|by apply Forall_map, Forall_forall|done|done]. }
  rewrite He. set (s1 := set_vcpus _ _ s). change (negb (0 =? 0)) with false. cbn iota. 
  unfold all_notes, head_notes in Hnotes. rewrite <- !app_assoc in Hnotes. rewrite notes_walk by (exact Hnotes || exact Hmon).
  set (A := [mappings_note im; auxv_note im]). rewrite (app_assoc P), (following_app (P ++ A)), (following_app V), <- !app_assoc.
  rewrite on_notes_skip_first; [|apply (following_types (fun t => t <> NT_KM_VCPU)); apply Forall_app; split; [by apply Forall_map, Forall_forall|by repeat (apply Forall_cons_2; [done|]); constructor]].
  unfold V at 1. rewrite info_all; [|done|done|exact Ht|].
  2: { intros v Hin. unfold s1. cbn [set_vcpus sn_vcpus]. apply insert_all_in; [done|]. by rewrite Hp. }
  rewrite on_notes_skip; [|apply Forall_app; split; [apply (following_types (fun t => t <> NT_KM_VCPU)); by apply Forall_app|by apply Forall_cons_2; [|constructor]]].
  unfold s1. cbn [set_vcpus sn_vcpus sn_run_cnt]. do 2 f_equal. unfold set_vcpus. cbn. f_equal; [|by rewrite Hp].
  apply insert_all_base; [done|]. intros i Hi. rewrite insert_all_other; [done|]. by rewrite Hp.
Qed.
