(* ===== verification/SnapRestore.v ===== *)
(** * A snapshot as a whole (proofs)

    km_dump_core and then km_snapshot_restore on a machine that has just been set up. *)
From S2P Require Import Prelude Machine MemGeom TopBreak MemBrk MmapRegion MmapGuest MmapList MmapRange MmapFree MmapCorrect MmapSystem FdTable Signal Stdio Notes IoContext CoreFs CoreDump CoreProps CoreBounds CoreImage SnapNotes FdRecover Snapshot SnapFile SnapMem SnapBoot SnapVcpu.

(** ** The mode of recovery *)
Lemma mmap_inv_recovery `{Host} b M : mmap_inv M -> mmap_inv (set_recovery_mode b M).
Proof.
  intros [[w I] T2 T3 T4 T5]. split; try done. exists w. destruct I as [[G P1] [B1 B2 B3] Hp]. split; [split; [exact G|exact P1]|split; assumption|exact Hp].
Qed.
Lemma fresh_recovery `{Host} b m M : fresh m M -> fresh m (set_recovery_mode b M).
Proof. intros [F1 [S1 S2 S3] F3 F4 F5]. split; [by apply mmap_inv_recovery|by split|done|done|done]. Qed.

(** ** What does not touch memory *)
Definition pres {A} (c : M snap A) : Prop := forall s a s', c s = Ret (a, s') -> s'.(sn_mem) = s.(sn_mem).

Lemma pres_ret {A} (a : A) : pres (ret a).
Proof. intros s b s'. unfold ret. congruence. Qed.
Lemma pres_abort {A} : pres (A := A) abort.
Proof. done. Qed.
Lemma pres_get : pres get.
Proof. intros s b s'. unfold get. congruence. Qed.
Lemma pres_bind {A B} (c : M snap A) (k : A -> M snap B) : pres c -> (forall a, pres (k a)) -> pres (bind c k).
Proof. intros Hc Hk s b s' Hr. unfold bind in Hr. destruct (c s) as [[a s1]| |] eqn:E; [|done|done]. rewrite (Hk a s1 b s' Hr). by eapply Hc. Qed.
Lemma pres_modify f : (forall s, (f s).(sn_mem) = s.(sn_mem)) -> pres (modify f).
Proof. intros Hf s b s'. unfold modify. intros [= _ <-]. apply Hf. Qed.
Lemma pres_machine {A} (c : M machine A) : pres (on_machine c).
Proof. intros s a s'. unfold on_machine, zoom. destruct (c (sn_m s)) as [[x t]| |]; [|done|done]. by intros [= _ <-]. Qed.
Lemma pres_files {A} (c : M km_filesys A) : pres (on_files c).
Proof. intros s a s'. unfold on_files, zoom. destruct (c (sn_fs s)) as [[x t]| |]; [|done|done]. by intros [= _ <-]. Qed.
Lemma pres_iocs {A} (c : M iocs A) : pres (on_iocs c).
Proof. intros s a s'. unfold on_iocs, zoom. destruct (c (sn_ioc s)) as [[x t]| |]; [|done|done]. by intros [= _ <-]. Qed.
Lemma pres_nofuel {A} : pres (A := A) (fun _ => NoFuel).
Proof. done. Qed.
#[export] Hint Resolve pres_ret pres_abort pres_get pres_machine pres_files pres_iocs pres_nofuel : core_file.
Ltac pres := repeat first [progress intros | solve [eauto 2 with core_file nocore] | apply pres_bind | (apply pres_modify; reflexivity) | (apply pres_modify; by intros) | case_match].

Lemma pres_apply func fuel cur type : (forall p l, pres (func p l)) -> pres (notes_apply_loop func fuel cur type).
Proof. intros Hf. revert cur. induction fuel as [|fuel IH]; intros cur; cbn [notes_apply_loop]; pres. Qed.
Lemma pres_or_exit func b type : (forall p l, pres (func p l)) -> pres (apply_or_exit func b type).
Proof. intros Hf. unfold apply_or_exit, km_snapshot_notes_apply. apply pres_bind; [by apply pres_apply|pres]. Qed.

Section Tail.
  Context `{Host} `{!GuestFiles} `{!FdHost} `{!AioHost}.

Lemma pres_restore_vcpu tid : pres (km_vcpu_restore tid).
Proof. unfold km_vcpu_restore. pres. Qed.
Hint Resolve pres_restore_vcpu : core_file.
Lemma pres_vcpus xsave b : pres (km_ss_recover_vcpus xsave b).
Proof.
  unfold km_ss_recover_vcpus, km_snapshot_notes_apply. apply pres_bind; [apply pres_apply|intros rc; case_match; [pres|apply pres_apply]].
  - intros p l. unfold km_ss_recover_prstatus. pres.
  - intros p l. unfold km_ss_recover_vcpu_info. pres.
Qed.
Lemma pres_set_names n cur names : pres (set_names n cur names).
Proof. revert cur names. induction n as [|n IH]; intros cur names; cbn [set_names]; pres. Qed.
Lemma pres_fill l : pres (fill_slots l).
Proof. induction l as [|i l IH]; cbn [fill_slots]; pres. Qed.
Lemma pres_guest p l : pres (km_ss_recover_guest p l).
Proof. unfold km_ss_recover_guest. pres. Qed.
Lemma pres_guestv p l : pres (km_ss_recover_guestv p l).
Proof. unfold km_ss_recover_guestv. pres. Qed.
Lemma pres_dynlinker p l : pres (km_ss_recover_dynlinker p l).
Proof. unfold km_ss_recover_dynlinker. pres. Qed.
Lemma pres_sig p l : pres (sig_recover p l).
Proof. unfold sig_recover. pres. Qed.
Lemma pres_file_maps p l : pres (km_ss_recover_file_maps p l).
Proof. pose proof pres_set_names. unfold km_ss_recover_file_maps. pres. Qed.

(** What follows the recovery of memory. *)
Definition restore_rest (notebuf : list Z) (xsave : bool) : M snap Z :=
  let* rc := km_ss_recover_vcpus xsave notebuf in
  if rc <? 0 then abort
  else
    apply_or_exit km_ss_recover_file_maps notebuf NT_FILE ;;;
    apply_or_exit km_ss_recover_guestv notebuf NT_KM_GUESTV ;;;
    apply_or_exit km_ss_recover_guest notebuf NT_KM_GUEST ;;;
    apply_or_exit km_ss_recover_dynlinker notebuf NT_KM_DYNLINKER ;;;
    apply_or_exit sig_recover notebuf NT_KM_SIGHAND ;;;
    on_files (km_fs_recover notebuf) ;;;
    apply_or_exit (fun p l => on_iocs (km_fs_recover_iocontexts p l)) notebuf NT_KM_IOCONTEXTS ;;;
    let* s := get in
    fill_slots (seqZ 0 (top_vcpu s)) ;;;
    modify (set_recovery false) ;;;
    ret 0.

Lemma pres_rest notebuf xsave : pres (restore_rest notebuf xsave).
Proof.
  unfold restore_rest. apply pres_bind; [apply pres_vcpus|]. intros rc. case_match; [done|].
  repeat (apply pres_bind; [first [apply pres_or_exit; intros; first [apply pres_file_maps | apply pres_guestv | apply pres_guest | apply pres_dynlinker | apply pres_sig | apply pres_iocs]
                                  | apply pres_files | apply pres_get | apply pres_fill | by apply pres_modify]|intros ?]). apply pres_ret.
Qed.

Definition returns {A} (P : A -> Prop) (c : M snap A) : Prop := forall s a s', c s = Ret (a, s') -> P a.
Lemma returns_bind {A B} P (c : M snap A) (k : A -> M snap B) : (forall a, returns P (k a)) -> returns P (bind c k).
Proof. intros Hk s b s' Hr. unfold bind in Hr. destruct (c s) as [[a s1]| |]; [|done|done]. by eapply Hk. Qed.
Lemma rest_zero notebuf xsave : returns (fun rc => rc = 0) (restore_rest notebuf xsave).
Proof.
  unfold restore_rest. apply returns_bind. intros rc. case_match; [done|]. repeat (apply returns_bind; intros ?). intros ? ? ?. unfold ret. congruence.
Qed.
End Tail.

(** ** The note of the monitor is found *)
Section Whole.
  Context `{Host} `{!GuestFiles} `{!FdHost} `{!AioHost} `{!CoreHost}.

Lemma no_other_monitor im vcpu gname files : Forall file_note files -> Forall (fun n => n.(n_type) <> NT_KM_MONITOR) (all_notes im vcpu gname files).
Proof.
  intros Hf. unfold all_notes, head_notes. rewrite !Forall_app. split_and!.
  - by apply Forall_map, Forall_forall.
  - by repeat (apply Forall_cons_2; [done|]); constructor.
  - by apply Forall_map, Forall_forall.
  - apply Forall_cons_2; [done|]. destruct (pl_filename (im_dyn im)); [apply Forall_cons_2; [done|]|]; constructor.
  - eapply Forall_impl; [exact Hf|]. intros n [_ Hn]. unfold fd_types in Hn. rewrite !elem_of_cons in Hn. set_unfold. by destruct Hn as [->|[->|[->|[->|[->|[->|[]]]]]]].
  - by apply Forall_map, Forall_forall.
Qed.

Lemma monitor_found im vcpu label description gname files s :
  Forall file_note files -> let mon := monitor_note im label description in Z.of_nat (length (stream (all_notes im vcpu gname files) (note_bytes mon))) < 2 ^ 32 ->
  km_snapshot_notes_apply km_ss_recover_km_monitor (stream (all_notes im vcpu gname files) (note_bytes mon)) NT_KM_MONITOR s
  = (let* rc := km_ss_recover_km_monitor (n_desc mon ++ []) (Z.of_nat (length (n_desc mon))) in ret rc) s.
Proof.
  intros Hf mon Hlen. rewrite notes_walk.
  - rewrite on_notes_skip_first by (apply (following_types (fun t => t <> NT_KM_MONITOR)); by apply no_other_monitor). cbn [on_notes]. change (n_type mon =? NT_KM_MONITOR) with true. cbn iota.
    unfold bind. destruct (km_ss_recover_km_monitor _ _ s) as [[rc s']| |]; [|done|done]. destruct (Z.eqb_spec rc 0) as [->|]; done.
  - apply (stream_ok _ (note_bytes mon) Hlen). by apply all_types.
  - rewrite stream_tail, length_app, length_note_bytes in Hlen. split_and!; [done|lia|done|done].
Qed.

(** C19. A snapshot of a running guest and its restore on a machine that has just been set
    up: a restore that is not ended by a failed call answers 0, and every byte of the
    program's segments and of the guest's mappings with some access is what it was. A
    mapping without access (PROT_NONE) is not dumped: its pages come back as reserved space,
    without the bytes they had. Conditions: while the snapshot is written, every write makes
    progress and every lseek and mprotect succeeds ([host_writes]: no full disk, and no page
    whose write fails with EFAULT and is left as a hole); the restoring host maps where it
    is asked to; the image is well formed, has a file name, fewer than 2^16 program headers,
    labels and notes below 2^32 bytes and a file below the limit of its offsets; the top
    break is a page boundary below that of the new machine. *)
Theorem snapshot_restores_memory im G open_rc calloc_ok vcpu label description gname xsave d d' s rc s' :
  host_writes -> host_restores -> host_mmap_fixed -> wf_image im G -> elf_ok im.(im_guest).(pl_ehdr) -> phnum im < 2 ^ 16 -> fds_ok im.(im_fs) ->
  im.(im_guest).(pl_filename) = Some gname -> Z.of_nat (length (string_of label)) < 2 ^ 32 -> Z.of_nat (length (string_of description)) < 2 ^ 32 -> d.(d_pos) = 0 ->
  (forall size d1, km_core_notes_length im vcpu label description KM_DO_SNAP d = Ret (size, d1) -> Z.of_nat size < 2 ^ 32 /\ whole_length im size < LIMIT - 8192) ->
  km_dump_core im open_rc calloc_ok vcpu label description KM_DO_SNAP d = Ret ((0, Written), d') ->
  fresh im.(im_machine) s.(sn_m) -> G = s.(sn_m).(tbrk) -> im.(im_machine).(tbrk) < G -> im.(im_machine).(tbrk) mod 4096 = 0 ->
  km_snapshot_restore (mk_elf d'.(d_file) d'.(d_pos)) xsave s = Ret (rc, s') -> rc = 0 /\ same_memory im s'.
Proof.
  intros Hw Hr Hh W He Hp Hfds Hg Hl1 Hl2 Hd Hlen Hrun Hfresh HG Hlt Hal Hrest.
  destruct (dump_core_file Hw im open_rc calloc_ok vcpu label description KM_DO_SNAP d d' Hd (wi_ident _ _ W) (image_segs_ok im G W) (fun z d1 E => proj2 (Hlen z d1 E)) Hrun)
    as (notes & size & Hcf & (d1 & Hsz) & (d2 & d3 & _ & Hfrom)). destruct (Hlen size d1 Hsz) as [Hsz32 Hlim].
  pose proof (core_phdrs_fit im G W notes size _ _ Hcf Hlim) as Hfits.
  destruct (notes_framed im vcpu label description size KM_DO_SNAP gname d2 notes d3 Hg (fun _ => Hfds) Hfrom) as (files & Hff & En).
  assert (Hn32 : Z.of_nat (length notes) < 2 ^ 32) by (pose proof (cf_fit _ _ _ _ _ Hcf); lia).
  set (file := mk_elf d'.(d_file) d'.(d_pos)) in *.
  pose proof (open_core im notes size _ _ Hcf He Hp) as E1. pose proof (fill_core im notes size _ _ Hcf Hfits) as E2. pose proof (read_core_notes im notes size _ _ Hcf) as E3. fold file in E1, E2, E3.
  unfold km_snapshot_restore in Hrest. unfold bind at 1, get in Hrest. cbv beta iota in Hrest. rewrite E1 in Hrest. cbn [mbind option_bind] in Hrest. rewrite E2 in Hrest. cbn [mbind option_bind] in Hrest.
  unfold bind at 1, modify at 1 in Hrest. rewrite E3 in Hrest. set (s1 := set_recovery true s) in Hrest.
  assert (F1 : fresh im.(im_machine) s1.(sn_m)) by (by apply fresh_recovery).
  unfold apply_or_exit at 1 in Hrest. unfold bind at 1 2 in Hrest. rewrite En in Hrest at 1. rewrite (monitor_found im vcpu label description gname files s1 Hff) in Hrest by (by rewrite <- En).
  unfold bind at 1 in Hrest.
  pose proof (monitor_ready im s1 label description [] (Z.of_nat (length (n_desc (monitor_note im label description)))) Hh F1 (wi_inv _ _ W) ltac:(subst G; exact Hlt) Hal Hl1 Hl2) as Hm. unfold wp in Hm.
  destruct (km_ss_recover_km_monitor _ _ s1) as [[rc2 s2]| |]; [|done|done].
  unfold ret at 1 in Hrest. destruct (Z.ltb_spec rc2 0) as [|Hrc2]; [done|]. destruct (Hm Hrc2) as (R & N & _). replace (tbrk (sn_m s1)) with G in R, N by (subst G; done).
  unfold ret at 1 in Hrest. unfold bind at 1 in Hrest. replace (tbrk (sn_m s)) with G in Hrest by done.
  pose proof (recover_image Hr im G W notes size _ _ Hcf Hlim s2 R N) as Hmem. unfold wp in Hmem. fold file in Hmem.
  destruct (km_ss_recover_memory file G (core_phdrs im notes size) s2) as [[u s3]| |]; [|done|done]. destruct Hmem as (_ & Hsame & _).
  match type of Hrest with ?c s3 = _ => change (c s3) with (restore_rest notes xsave s3) in Hrest end.
  split; [by eapply rest_zero|]. intros a Ha. rewrite (pres_rest notes xsave s3 rc s' Hrest). by apply Hsame.
Qed.
End Whole.
