(* ===== verification/SnapWitness.v ===== *)
(** * Core dumps and snapshots: concrete inputs

    A small guest: a program of two segments, a heap, two pages it mapped, one vcpu; its
    snapshot and its restore on a machine that has just been set up.  Here the hypotheses
    of the theorems of this component hold. *)
From S2P Require Import Prelude Machine MemGeom TopBreak MemBrk MmapRegion MmapGuest MmapList MmapRange MmapFree MmapCorrect MmapSystem FdTable FdInv FdSystem Signal Stdio ExecFd Notes IoContext IoProps CoreFs CoreDump CoreProps CoreBounds CoreImage CorePipes SnapNotes FdRecover FdRecoverProps Snapshot SnapFile SnapMem SnapBoot SnapVcpu SnapRestore.

#[local] Existing Instance host_grants.
#[local] Existing Instance no_files.
Definition core_host : CoreHost :=
  {| ch_fstat := fun _ => inr S_IFIFO; ch_fionread := fun _ => true; ch_pipesize := fun _ => 4096; ch_seekpos := fun _ => 0; ch_epoll_wait := fun _ => 0; ch_fdinfo := fun _ => inl 2;
     ch_pair := fun _ => Some (100, 101); ch_dup2 := fun _ _ => true; ch_read := fun _ n => Z.min n 3; ch_write := fun _ n => n; ch_lseek := fun _ _ => 0; ch_mprotect := fun _ _ _ => 0 |}.
#[local] Existing Instance core_host.
Definition fd_host : FdHost :=
  {| fd_sys := fun _ c => match c with F_open _ _ _ => 3 | F_sys nr args => if nr =? SYS_lseek then nth 1 args 0 else S_IFREG | _ => 0 end;
     fd_pair := fun _ _ => (0, 0); fd_list := fun _ _ => []; fd_link := fun _ _ => None; regexec := fun _ _ => false; sscanf_fd := fun _ => None; gva_to_kma := fun z => z;
     read_op := fun _ _ _ => 0; km_filename := ""%string; proc_pid_length := 0 |}.
#[local] Existing Instance fd_host.
Definition aio_host : AioHost := {| h_io_setup := fun k _ => Z.of_nat (length k); h_io_destroy := fun _ _ => - EINVAL; h_realloc := fun _ => true |}.
#[local] Existing Instance aio_host.

Definition with_heap : machine := MmapSystem.after (km_mem_brk 0x203010) booted.
Definition guest_machine : machine := MmapSystem.after (km_guest_mmap 0 8192 RW ANON (-1) 0) with_heap.
Definition ex_ident : list Z := ELFMAG ++ [2; 1; 1] ++ replicate 9 0.
Definition ex_program : payload :=
  mk_pl (mk_ehdr ex_ident 2 62 1 0x200100 64 0 0 64 56 2 0 0 0)
    [mk_elf_phdr PT_LOAD 5 0 0x200000 0 0x1000 0x1000 0; mk_elf_phdr PT_LOAD 6 0x1000 0x201000 0 0x100 0x1010 0] 0 0 (Some [97; 98]).
Definition no_payload : payload := mk_pl (mk_ehdr [] 0 0 0 0 0 0 0 0 0 0 0 0 0) [] 0 0 None.
Definition ex_vcpu : core_vcpu := mk_cv 0 (mk_regs 1 2 3 4 5 6 7 8 9 10 11 12 13 14 15 16 17 18) 19 20 21 22 23 24 25 26 27 28 29 30 31 32 33 34 35 1 None.
Definition ex_other : core_vcpu := mk_cv 2 (mk_regs 1 2 3 4 5 6 7 8 9 10 11 12 13 14 15 16 17 18) 19 20 21 22 23 24 25 26 27 28 29 30 31 32 33 34 35 1 (Some (replicate 4164 7)).
Definition ex_fs : km_filesys := mk_fs 4 ∅ [] false 0 0 [] false [].
Definition no_iocs : iocs := mk_iocs [] FIRST_PIOCONTEXT false [].
Definition ex_image : image :=
  mk_image guest_machine (fun a => a mod 251) false ex_program no_payload [ex_other; ex_vcpu] [1; 0; 0; 0; 0; 0; 0; 0] ∅ ex_fs no_iocs false [] 0.
Definition empty_dump : dump := mk_dump (fun _ => 0) 0 0 (mk_pipes ∅ ∅ 0).
Definition ex_snap : snap := mk_snap booted (fun _ => 0) ∅ 0 [] no_payload no_payload 0 ∅ ex_fs no_iocs.
Definition ex_G : Z := 549753708544.

#[local] Opaque booted.

(** ** The image is well formed *)
Lemma booted_fresh m : m.(guest_max_physmem) = 2 ^ 39 -> fresh m booted.
Proof.
  intros Hm. destruct booted_facts as (F1 & F2 & F3 & _). split; [apply booted_inv| |done|by rewrite F1|congruence]. rewrite F1. exact booted_sealed.
Qed.
Lemma with_heap_fresh : fresh with_heap with_heap /\ with_heap.(tbrk) = ex_G.
Proof.
  destruct booted_facts as (F1 & F2 & F3 & F4 & F5).
  pose proof (brk_fresh booted booted 0x203010 (booted_fresh booted F3) ltac:(unfold GUEST_MEM_START_VA, MIB, LIMIT; lia)) as Hw. unfold wp in Hw. unfold with_heap, MmapSystem.after.
  assert (Hr : returned (km_mem_brk 0x203010 booted) = Some 0x203010) by (by vm_compute).
  destruct (km_mem_brk 0x203010 booted) as [[r s]| |]; [|done|done]. cbn in Hr. injection Hr as ->. destruct (Hw eq_refl) as (F & _ & Ht). split; [|rewrite Ht; exact F1].
  destruct F as [G1 G2 G3 G4 G5]. by split.
Qed.
#[local] Opaque with_heap.
Lemma guest_machine_ok : mmap_inv guest_machine /\ sealed ex_G guest_machine.
Proof.
  destruct with_heap_fresh as [[H1 H2 H3 H4 _] Ht]. rewrite Ht in H2. unfold guest_machine.
  assert (Ho : GUEST_VA_OFFSET with_heap = 0) by (by vm_compute).
  pose proof (run_op_ok ex_G with_heap (Op_mmap 0 8192 RW ANON (-1) 0) H1 H2 host_grants_mmap) as Hw. cbn [op_ok run_op] in Hw. rewrite Ht, Ho in Hw.
  specialize (Hw ltac:(split_and!; [lia|lia|by vm_compute..])). apply wp_excuse in Hw; [|intros Hn; exact (Hn host_grants_coop)]. apply wp_bind_inv in Hw.
  apply (after_wp _ (fun s => mmap_inv s /\ sealed ex_G s)). eapply wp_mono; [exact Hw|]. done.
Qed.
#[local] Opaque guest_machine.
Lemma guest_machine_facts :
  guest_machine.(km_vvar_vdso_size) = 0 /\ (guestmem_reg guest_machine).(memory_size) = 0 /\ GUEST_VA_OFFSET guest_machine = 0 /\ guest_machine.(tbrk) = 549753700352
  /\ guest_machine.(brk) = 0x203010 /\ guest_machine.(guest_max_physmem) = 2 ^ 39.
Proof. by vm_compute. Qed.

Lemma kma_ex a : 0 < a -> km_gva_to_kma_nocheck guest_machine a = a.
Proof.
  intros Ha. destruct guest_machine_facts as (F1 & F2 & F3 & _). unfold km_gva_to_kma_nocheck, km_vdso_gva, km_guestmem_gva, gva_to_gpa_nocheck. rewrite F1, F2, F3.
  destruct (Z.leb_spec GUEST_VVAR_VDSO_BASE_VA a), (Z.ltb_spec a (GUEST_VVAR_VDSO_BASE_VA + 0)); try lia; cbn [andb];
  destruct (Z.leb_spec GUEST_KMGUESTMEM_BASE_VA a), (Z.ltb_spec a (GUEST_KMGUESTMEM_BASE_VA + 0)); try lia; cbn [andb];
  (destruct (Z.ltb_spec 0 a); [|lia]); unfold KM_USER_MEM_BASE; lia.
Qed.
Lemma ex_linear sg : 0 < sg.(sg_base) -> linear ex_image sg.
Proof.
  intros Hb k Hk. change (im_machine ex_image) with guest_machine. rewrite !kma_ex by lia. done.
Qed.
Lemma Forall_b {A} (P : A -> Prop) (f : A -> bool) l : (forall x, f x = true -> P x) -> forallb f l = true -> Forall P l.
Proof. intros Hf Hl. apply Forall_forall. intros x Hx. apply Hf. rewrite forallb_forall in Hl. apply Hl. by apply list_elem_of_In. Qed.

Definition load_okb (p : payload) (ph : elf_phdr) : bool :=
  let e := (km_core_count_phdrs ex_image).2 in
  (GUEST_MEM_START_VA <=? seg_base p ph) && (seg_base p ph <? guest_machine.(brk)) && (seg_base p ph + seg_size ex_image ph e <=? guest_machine.(brk)) && (0 <=? ph.(ph_flags)) && (ph.(ph_flags) <? 2 ^ 32).
Lemma load_okb_ok p ph : load_okb p ph = true -> load_ok ex_image p ph.
Proof. unfold load_okb, load_ok. rewrite !andb_true_iff, !Z.leb_le, !Z.ltb_lt. change (im_machine ex_image) with guest_machine. intros ((((?&?)&?)&?)&?). done. Qed.

Lemma ex_wf : wf_image ex_image ex_G.
Proof.
  destruct guest_machine_ok as [H1 H2]. split; [exact H1|exact H2| | | | |done].
  - apply (Forall_b _ (fun r => (r.(start) mod 4096 =? 0) && (r.(size) mod 4096 =? 0))); [|by vm_compute]. intros r Hr. apply andb_true_iff in Hr as [?%Z.eqb_eq ?%Z.eqb_eq]. done.
  - apply (Forall_b _ (fun r => 0 <? r.(start))); [|by vm_compute]. intros r Hr%Z.ltb_lt _. by apply ex_linear.
  - apply (Forall_b _ (load_okb ex_program)); [apply load_okb_ok|by vm_compute].
  - constructor.
Qed.
Lemma ex_writes : host_writes.
Proof. split; intros; cbn; lia || done. Qed.
Lemma ex_restores : host_restores.
Proof. split; [intros; cbn; lia|]. intros [tr Hc]. by apply host_grants_calloc in Hc. Qed.
Lemma ex_elf_ok : elf_ok ex_image.(im_guest).(pl_ehdr).
Proof. split; try done; by vm_compute. Qed.

(** ** Core dump *)
Lemma core_dump_written_witness : exists d',
  km_dump_core ex_image 0 true (Some ex_vcpu) None (Some [65]) KM_DO_CORE empty_dump = Ret ((0, Written), d')
  /\ core_file ex_image (core_notes ex_image (Some ex_vcpu) None (Some [65]) [97; 98]) (core_size ex_image (Some ex_vcpu) None (Some [65]) [97; 98]) d'.(d_file) d'.(d_pos).
Proof.
  apply (core_dump_written ex_image ex_G ex_vcpu ex_vcpu None (Some [65]) [97; 98] empty_dump ex_writes ex_wf).
  - by split.
  - apply elem_of_cons. right. apply elem_of_cons. by left.
  - done.
  - done.
  - by vm_compute.
Defined.

(** ** Snapshot *)
Definition result {A S} (o : outcome (A * S)) : option A := match o with Ret (a, _) => Some a | _ => None end.
Lemma result_ret {A S} (o : outcome (A * S)) v : result o = Some v -> exists s', o = Ret (v, s').
Proof. destruct o as [[a s]| |]; intros E; [|discriminate E..]. injection E as ->. by exists s. Qed.
Lemma wp_result {A S} ab (c : M S A) (Q : A -> S -> Prop) s v : wp ab c Q s -> result (c s) = Some v -> exists s', Q v s'.
Proof. intros Hw [s' E]%result_ret. unfold wp in Hw. rewrite E in Hw. by exists s'. Qed.

Definition ex_dump : outcome (Z * fate * dump) := km_dump_core ex_image 0 true (Some ex_vcpu) None (Some [65]) KM_DO_SNAP empty_dump.
Definition ex_file (o : outcome (Z * fate * dump)) : elf_file := match o with Ret (_, d) => mk_elf d.(d_file) d.(d_pos) | _ => mk_elf (fun _ => 0) 0 end.
Lemma ex_dump_written : result ex_dump = Some (0, Written).
Proof. vm_compute. exact eq_refl. Qed.
Lemma ex_length : match km_core_notes_length ex_image (Some ex_vcpu) None (Some [65]) KM_DO_SNAP empty_dump with
  | Ret (size, _) => (Z.of_nat size <? 2 ^ 32) && (whole_length ex_image size <? LIMIT - 8192) | _ => true end = true.
Proof. vm_compute. exact eq_refl. Qed.
Lemma ex_length_ok size d1 : km_core_notes_length ex_image (Some ex_vcpu) None (Some [65]) KM_DO_SNAP empty_dump = Ret (size, d1) -> Z.of_nat size < 2 ^ 32 /\ whole_length ex_image size < LIMIT - 8192.
Proof. intros E. pose proof ex_length as Hl. rewrite E in Hl. cbv beta iota in Hl. apply andb_true_iff in Hl as [H1 H2]. apply Z.ltb_lt in H1, H2. exact (conj H1 H2). Qed.
Lemma ex_phnum : phnum ex_image < 2 ^ 16.
Proof. by vm_compute. Qed.
Lemma ex_fds_ok : fds_ok ex_fs.
Proof. intros i Hi. done. Qed.
Lemma ex_below : guest_machine.(tbrk) < booted.(tbrk) /\ booted.(tbrk) = ex_G /\ guest_machine.(tbrk) mod 4096 = 0.
Proof. by vm_compute. Qed.
Lemma ex_monitor : result (km_ss_recover_km_monitor (n_desc (monitor_note ex_image None (Some [65])) ++ []) 0 ex_snap) = Some 0.
Proof. vm_compute. exact eq_refl. Qed.

(** The machine after the note of the monitor. *)
Lemma ex_ready : exists s, ready ex_G guest_machine s.(sn_m) /\ none_mapped ex_G s.(sn_m).
Proof.
  destruct guest_machine_facts as (_ & _ & _ & _ & _ & F6). destruct ex_below as (B1 & B2 & B3).
  destruct (wp_result _ _ _ _ _ (monitor_ready ex_image ex_snap None (Some [65]) [] 0 host_grants_mmap (booted_fresh guest_machine F6) (wi_inv _ _ ex_wf) B1 B3 eq_refl eq_refl) ex_monitor) as (s & Hs).
  destruct (Hs (Z.le_refl 0)) as (R & N & _). exists s. rewrite <- B2. exact (conj R N).
Qed.

Lemma snapshot_memory_roundtrip_witness : exists d' s phs, ex_dump = Ret ((0, Written), d')
  /\ wp False (km_ss_recover_memory (mk_elf d'.(d_file) d'.(d_pos)) ex_G phs) (fun _ s' => same_memory ex_image s' /\ same_protection ex_image ex_G s'.(sn_m)) s.
Proof.
  destruct (result_ret _ _ ex_dump_written) as (d' & E). destruct ex_ready as (s & R & N).
  destruct (snapshot_memory_roundtrip ex_image ex_G 0 true (Some ex_vcpu) None (Some [65]) KM_DO_SNAP empty_dump d' s ex_writes ex_restores ex_wf ex_elf_ok ex_phnum eq_refl
    (fun size d1 El => proj2 (ex_length_ok size d1 El)) E R N) as (size & notes & d1 & d2 & d3 & _ & _ & _ & _ & _ & _ & Hw).
  exists d', s, (core_phdrs ex_image notes size). split; [exact E|]. eapply wp_mono; [exact Hw|]. intros [] s' (_ & H1 & H2). exact (conj H1 H2).
Defined.

Lemma ex_restored : result (km_snapshot_restore (ex_file ex_dump) false ex_snap) = Some 0.
Proof. vm_compute. exact eq_refl. Qed.

Lemma snapshot_restores_memory_witness : exists d' s', ex_dump = Ret ((0, Written), d')
  /\ km_snapshot_restore (mk_elf d'.(d_file) d'.(d_pos)) false ex_snap = Ret (0, s') /\ same_memory ex_image s'.
Proof.
  destruct (result_ret _ _ ex_dump_written) as (d' & E). pose proof ex_restored as Hr. rewrite E in Hr. cbn [ex_file] in Hr. destruct (result_ret _ _ Hr) as (s' & Er).
  destruct guest_machine_facts as (_ & _ & _ & F4 & _ & F6). destruct ex_below as (B1 & B2 & B3).
  exists d', s'. split; [exact E|]. split; [exact Er|].
  refine (proj2 (snapshot_restores_memory ex_image ex_G 0 true (Some ex_vcpu) None (Some [65]) [97; 98] false empty_dump d' ex_snap 0 s' ex_writes ex_restores host_grants_mmap ex_wf ex_elf_ok ex_phnum ex_fds_ok
    eq_refl eq_refl eq_refl eq_refl ex_length_ok E (booted_fresh guest_machine F6) (eq_sym B2) _ B3 Er)). rewrite <- B2. exact B1.
Defined.

(** ** Vcpus *)
Definition is_inr {A B} (r : option (A + B)) (P : B -> bool) : bool := match r with Some (inr b) => P b | _ => false end.
Lemma is_inr_ret {A B S} (o : outcome ((A + B) * S)) P : is_inr (result o) P = true -> exists b s, o = Ret (inr b, s) /\ P b = true.
Proof. destruct o as [[[a|b] s]| |]; intros Hb; [discriminate Hb| |discriminate Hb..]. exists b, s. exact (conj eq_refl Hb). Qed.
Lemma ex_notes : is_inr (result (km_core_write_notes ex_image (Some ex_vcpu) None (Some [65]) (1000 * 20) KM_DO_SNAP empty_dump)) (fun b => Z.of_nat (length b) <? 2 ^ 32) = true.
Proof. vm_compute. exact eq_refl. Qed.
Lemma Forall_range h (l : list Z) : forallb (fun z => (0 <=? z) && (z <? h)) l = true -> Forall (fun z => 0 <= z < h) l.
Proof. apply Forall_b. intros x [?%Z.leb_le ?%Z.ltb_lt]%andb_true_iff. done. Qed.
Lemma ex_vcpus_ok : Forall vcpu_ok ex_image.(im_vcpus).
Proof. repeat (apply Forall_cons_2; [split; [unfold KVM_MAX_VCPUS; cbn; lia|by apply Forall_range|by apply Forall_range|cbn; lia|cbn; lia]|]). constructor. Qed.

Lemma snapshot_vcpus_roundtrip_witness : exists notes s', km_ss_recover_vcpus false notes ex_snap = Ret (0, s')
  /\ s'.(sn_vcpus) !! 2 = Some (restored ex_image ex_other) /\ s'.(sn_run_cnt) = 2.
Proof.
  destruct (is_inr_ret _ _ ex_notes) as (notes & d' & E & Hl%Z.ltb_lt). exists notes. eexists. split.
  - refine (snapshot_vcpus_roundtrip ex_image (Some ex_vcpu) None (Some [65]) (1000 * 20) KM_DO_SNAP [97; 98] empty_dump notes d' ex_snap eq_refl (fun _ => ex_fds_ok) E Hl ex_vcpus_ok _ _ eq_refl _).
    + apply NoDup_cons. split; [by intros Hin%list_elem_of_singleton|]. apply NoDup_singleton.
    + apply elem_of_cons. right. apply elem_of_cons. by left.
    + by vm_compute.
  - split; reflexivity.
Defined.

(** ** Pipes *)
Definition pipe_fs : km_filesys :=
  mk_fs 8 (<[3 := mk_file true KM_FILE_HOW_PIPE_0 0 0 None 4 (Some "[pipe]"%string) None []]> (<[4 := mk_file true KM_FILE_HOW_PIPE_1 O_WRONLY 0 None 3 (Some "[pipe]"%string) None []]>
    (<[6 := mk_file true KM_FILE_HOW_PIPE_0 0 0 None (-1) (Some "[pipe]"%string) None []]> ∅))) [] false 0 0 [] false [].
Definition pipe_ends : gmap Z (option Z * option Z) := <[3 := (Some 0, None)]> (<[4 := (None, Some 0)]> (<[6 := (Some 1, None)]> ∅)).
Definition pipe_dump : dump := mk_dump (fun _ => 0) 0 0 (mk_pipes pipe_ends (<[0 := [10; 20; 30; 40; 50]]> (<[1 := [7; 8]]> ∅)) 2).
Lemma pipe_notes : is_inr (result (km_fs_core_notes_write 4096 pipe_fs pipe_dump)) (fun b => (100 <? Z.of_nat (length b))) = true.
Proof. vm_compute. exact eq_refl. Qed.

Lemma pipe_files fd : fd ∉ [3; 4; 6] -> km_is_file_used (file_at pipe_fs fd) = false.
Proof. intros Hn. unfold file_at, pipe_fs. cbn [guest_files]. rewrite !lookup_insert_ne by set_solver. done. Qed.
Lemma pipe_ends_at fd : fd ∉ [3; 4; 6] -> pipe_ends !! fd = None.
Proof. intros Hn. unfold pipe_ends. rewrite !lookup_insert_ne by set_solver. done. Qed.
(** Every number is one of the three, or no descriptor. *)
Ltac three k := destruct (decide (k ∈ [3; 4; 6])) as [?Hin|?Hn]; [repeat (apply elem_of_cons in Hin as [->|Hin]); try by apply not_elem_of_nil in Hin|].

Lemma pipe_paired : paired pipe_fs pipe_dump.(d_queue).
Proof.
  split.
  - intros i. three i; [by vm_compute..|]. rewrite (pipe_files i) by done. done.
  - intros i k Hi Hne Hs. three i; try (exfalso; by vm_compute in Hi); [|exfalso; unfold half_open in Hi; by rewrite pipe_files in Hi]. three k; try done; unfold reads; cbn [d_queue pipe_dump p_ends]; try by vm_compute. by rewrite (pipe_ends_at k).
  - intros i f Hi [= <-]. three i; try (exfalso; by vm_compute in Hi); [|exfalso; unfold half_open in Hi; by rewrite pipe_files in Hi]. by vm_compute.
  - intros k q. unfold reads, writes. cbn [d_queue pipe_dump p_ends p_next]. three k; [vm_compute; by intros [[= <-]|[= <-]]..|]. rewrite pipe_ends_at by done. by intros [?|?].
Qed.

(** A guest with a dup of a reading end: the dup has an entry of a reading end that names no
    other end, so its bytes go to a new pipe.  The snapshot leaves the original with
    nothing to read and the dup cut off from the writer. *)
Definition dup_fs : km_filesys :=
  mk_fs 8 (<[3 := mk_file true KM_FILE_HOW_PIPE_0 0 0 None 4 (Some "[pipe]"%string) None []]> (<[4 := mk_file true KM_FILE_HOW_PIPE_1 O_WRONLY 0 None 3 (Some "[pipe]"%string) None []]>
    (<[5 := mk_file true KM_FILE_HOW_PIPE_0 0 0 None (-1) (Some "[pipe]"%string) None []]> ∅))) [[3; 5]] false 0 0 [] false [].
Definition dup_dump : dump :=
  mk_dump (fun _ => 0) 0 0 (mk_pipes (<[3 := (Some 0, None)]> (<[4 := (None, Some 0)]> (<[5 := (Some 0, None)]> ∅))) (<[0 := [10; 20; 30]]> ∅) 1).
Theorem snapshot_splits_dups :
  queued dup_dump 3 = [10; 20; 30] /\ queued dup_dump 5 = [10; 20; 30]
  /\ match km_fs_core_notes_write 4096 dup_fs dup_dump with
     | Ret (inr _, d') => queued d' 3 = [] /\ queued d' 5 = [10; 20; 30] /\ reads d'.(d_queue) 5 <> writes d'.(d_queue) 4
     | _ => False
     end.
Proof. vm_compute. repeat split; discriminate. Qed.

(** ** Asynchronous I/O contexts *)
Definition ex_iocs : iocs := mk_iocs [mk_ioc 8 7 (FIRST_PIOCONTEXT + 1); mk_ioc 16 9 (FIRST_PIOCONTEXT + 2)] (FIRST_PIOCONTEXT + 2) false [(9, 16); (7, 8)].
Lemma aio_host_grants : aio_grants.
Proof. split; intros; cbn; lia || done. Qed.
Lemma ex_iocs_ok : Forall ioc_ok ex_iocs.(km_iocp).
Proof. repeat (apply Forall_cons_2; [split; unfold FIRST_PIOCONTEXT; cbn; lia|]). constructor. Qed.

Lemma iocontexts_roundtrip_witness :
  wp False (km_fs_recover_iocontexts (iocontexts_desc ex_iocs.(km_iocp) ex_iocs.(km_piocontext) ++ [1; 2]) 0) (fun rc t' => rc = 0 /\ names t' = [(8, FIRST_PIOCONTEXT + 1); (16, FIRST_PIOCONTEXT + 2)]) no_iocs.
Proof.
  eapply wp_mono; [apply (iocontexts_roundtrip ex_iocs no_iocs [1; 2] 0 aio_host_grants ex_iocs_ok)|].
  - cbn. lia.
  - unfold ex_iocs, FIRST_PIOCONTEXT. cbn. lia.
  - exact eq_refl.
  - exact eq_refl.
  - intros rc t' (H1 & H2 & _). exact (conj H1 H2).
Defined.

Lemma iocontext_remove_keeps_lock_witness : exists s', km_iocontext_remove (FIRST_PIOCONTEXT + 1) ex_iocs = Ret (EINVAL, s') /\ km_iocontext_xlate_p2k (FIRST_PIOCONTEXT + 2) s' = NoFuel.
Proof.
  destruct (iocontext_remove_keeps_lock ex_iocs (FIRST_PIOCONTEXT + 1) 0%nat (mk_ioc 8 7 (FIRST_PIOCONTEXT + 1)) (FIRST_PIOCONTEXT + 2) 8 eq_refl eq_refl) as (s' & H1 & _ & H2 & _).
  - by vm_compute.
  - by vm_compute.
  - exists s'. exact (conj H1 H2).
Defined.

(** ** Recovery of a file *)
Definition ex_nt : nt_file := mk_ntf (Z.of_nat SIZEOF_NT_FILE) 3 0 0 S_IFREG 0 100 0.
Definition ex_nt_bytes : list Z :=
  put [f32 ex_nt.(ntf_size); f32 ex_nt.(ntf_fd); f32 ex_nt.(ntf_how); f32 ex_nt.(ntf_flags); f32 ex_nt.(ntf_mode); f32 ex_nt.(ntf_pipesize); f64 ex_nt.(ntf_data); f32 ex_nt.(ntf_datalength); f32 0] ++ [47; 97; 0; 0].
Definition recovered (o : outcome (Z * km_filesys)) : option (Z * bool) := match o with Ret (rc, s) => Some (rc, (file_at s 3).(inuse)) | _ => None end.
Lemma ex_recovered : recovered (km_fs_recover_open_file ex_nt_bytes 0 ex_fs) = Some (0, true).
Proof. vm_compute. exact eq_refl. Qed.
Lemma recovered_ret o rc b : recovered o = Some (rc, b) -> exists s, o = Ret (rc, s) /\ (file_at s 3).(inuse) = b.
Proof. destruct o as [[r s]| |]; intros E; [|discriminate E..]. injection E as -> E2. exists s. exact (conj eq_refl E2). Qed.

Lemma recovered_file_close_out_of_bounds_witness : exists s', km_fs_recover_open_file ex_nt_bytes 0 ex_fs = Ret (0, s') /\ del_guest_fd 3 s' = Abort.
Proof.
  destruct (recovered_ret _ _ _ ex_recovered) as (s' & E & Hu). exists s'. split; [exact E|].
  refine (recovered_file_close_out_of_bounds ex_nt_bytes 0 ex_nt ex_fs s' eq_refl eq_refl _ _ eq_refl eq_refl _ _ E Hu); by vm_compute.
Defined.
