(* ===== verification/Hcall.v ===== *)
(** * Hypercalls: the world of a handler (km_hcalls.c)

    A hypercall hands the monitor a structure of six words.  The handler translates those
    that are addresses, calls a component of the monitor or the host, and stores the
    result.  What it calls is behind the interface [World]: the handlers are translated
    against it, and HcallWorld.v puts the memory system of this library behind it.

    A handler leaves a trace of what it did with addresses: translations, calls with
    their arguments, and the loads and stores it made itself. *)
From S2P Require Import Prelude Machine MemGeom Stdio Notes.

Definition ENOSYS : Z := 38.
Definition ENOTSUP : Z := 95.

(** ** Data *)
Record km_hc_args_t := mk_args { hc_ret : Z; arg1 : Z; arg2 : Z; arg3 : Z; arg4 : Z; arg5 : Z; arg6 : Z }.
Inductive km_hc_ret_t := HC_CONTINUE | HC_STOP | HC_ALLSTOP | HC_DOFORK.

(** The functions of the monitor that handlers call, raw system calls [Sys], and
    functions of the C library that stand for one [Libc]. *)
Inductive callee :=
  | Sys (nr : Z) | Libc (nr : Z)
  | Fs_prw | Fs_prwv | Fs_accept | Fs_socketpair | Fs_connect | Fs_bind | Fs_listen | Fs_socket | Fs_getsockopt | Fs_setsockopt
  | Fs_sendrecvmsg | Fs_sendrecvmmsg | Fs_sendfile | Fs_copy_file_range | Fs_ioctl | Fs_fcntl | Fs_stat | Fs_lstat | Fs_statx | Fs_fstat
  | Fs_getdents | Fs_getdents64 | Fs_getcwd | Fs_close | Fs_flock | Fs_shutdown | Fs_readlink | Fs_readlinkat | Fs_open | Fs_openat
  | Fs_lseek | Fs_symlink | Fs_link | Fs_rename | Fs_chdir | Fs_fchdir | Fs_truncate | Fs_ftruncate | Fs_fsync | Fs_fdatasync
  | Fs_mkdir | Fs_rmdir | Fs_pselect6 | Fs_select | Fs_sendto | Fs_access | Fs_faccessat | Fs_dup | Fs_dup2 | Fs_dup3
  | Fs_get_sock_peer_name | Fs_poll | Fs_ppoll | Fs_accept4 | Fs_recvfrom | Fs_epoll_create1 | Fs_epoll_ctl | Fs_epoll_wait | Fs_epoll_pwait
  | Fs_pipe | Fs_pipe2 | Fs_eventfd2 | Fs_prlimit64 | Fs_unlink | Fs_unlinkat | Fs_utimensat | Fs_mknod | Fs_chown | Fs_lchown | Fs_fchown
  | Fs_chmod | Fs_fchmod | Fs_timerfd_create | Fs_statfs | Fs_fstatfs | Fs_at | Fs_guestfd_name
  | Mem_brk | Guest_mmap | Guest_munmap | Guest_mremap | Guest_mprotect | Guest_madvise | Guest_msync
  | Rt_sigprocmask | Rt_sigaction | Rt_sigreturn | Sigaltstack | Kill | Tkill | Rt_sigpending | Rt_sigsuspend | Rt_sigtimedwait
  | Clone | Clone3 | Set_tid_address | Before_fork | Vcpu_sync_rip | Handle_interrupt
  | Snapshot_block | Snapshot_create | Snapshot_unblock | Shrink_footprint | Do_exec
  | Iocontext_add | Iocontext_remove | Iocontext_xlate_p2k.
#[global] Instance callee_eq_dec : EqDecision callee.
Proof. solve_decision. Defined.

(** struct iovec as the monitor copies it; a base that was not set is [None]. *)
Record iovec := mk_iov { iov_base : option Z; iov_len : Z }.
Record msghdr := mk_msg { msg_name : option Z; msg_namelen : Z; msg_iov : list iovec; msg_control : Z; msg_controllen : Z; msg_flags : Z }.
(** What a struct iocb points to: the value the guest gave, a translated address, or the
    vector the monitor made. *)
Inductive iobuf := Raw (v : Z) | Kma (k : Z) | Vec (l : list iovec).
Record iocb := mk_iocb { aio_lio_opcode : Z; aio_buf : iobuf; aio_nbytes : Z }.

(** An argument: a value, an address of guest memory as the monitor sees it or NULL,
    something of the monitor's own, or one of the structures. *)
Inductive hcarg := Val (v : Z) | Ptr (p : option Z) | Own (v : Z) | Msg (m : msghdr) | Mmsg (l : list msghdr) | Iocbs (l : list iocb).
Definition Int (x : Z) : hcarg := Val (int32 x).
Definition Uint (x : Z) : hcarg := Val (u32 x).

(** [E_kma m gva]: km_gva_to_kma was called, with the machine as it then was. *)
Inductive event :=
  | E_kma (m : machine) (gva : Z)
  | E_call (c : callee) (args : list hcarg)
  | E_load (base off n : Z)
  | E_store (base off n : Z).

(** ** The interface *)
Class World (W : Type) := {
  w_machine : W -> machine;
  (** bytes at addresses of the monitor *)
  w_mem : W -> Z -> Z;
  w_store : Z -> list Z -> W -> W;
  (** a call: its result, negative for an error, and what it leaves in structures of the
      caller *)
  w_run : callee -> list hcarg -> M W (Z * list Z);
  w_errno : W -> Z;
  (** bytes left on the stack of the thread *)
  w_stack : W -> Z;
  w_pid : Z;
  w_ppid : Z;
  w_tid : Z;
}.

(** The fields of the vcpu and the machine that handlers change themselves. *)
Record hs (W : Type) := mk_hs {
  hs_w : W; hs_trace : list event; hs_ret : Z; hs_guest_thr : Z; hs_fs_base : Z; hs_exit_status : Z; hs_io_active : Z }.
Arguments mk_hs {W}.
Arguments hs_w {W}.
Arguments hs_trace {W}.
Arguments hs_ret {W}.
Arguments hs_guest_thr {W}.
Arguments hs_fs_base {W}.
Arguments hs_exit_status {W}.
Arguments hs_io_active {W}.

Section Base.
  Context {W : Type} `{World W}.

Definition set_w (w : W) (s : hs W) : hs W := mk_hs w s.(hs_trace) s.(hs_ret) s.(hs_guest_thr) s.(hs_fs_base) s.(hs_exit_status) s.(hs_io_active).
Definition log (e : event) (s : hs W) : hs W := mk_hs s.(hs_w) (e :: s.(hs_trace)) s.(hs_ret) s.(hs_guest_thr) s.(hs_fs_base) s.(hs_exit_status) s.(hs_io_active).
Definition set_ret (r : Z) (s : hs W) : hs W := mk_hs s.(hs_w) s.(hs_trace) r s.(hs_guest_thr) s.(hs_fs_base) s.(hs_exit_status) s.(hs_io_active).
Definition set_guest_thr (v : Z) (s : hs W) : hs W := mk_hs s.(hs_w) s.(hs_trace) s.(hs_ret) v v s.(hs_exit_status) s.(hs_io_active).
Definition set_exit_status (v : Z) (s : hs W) : hs W := mk_hs s.(hs_w) s.(hs_trace) s.(hs_ret) s.(hs_guest_thr) s.(hs_fs_base) v s.(hs_io_active).
Definition set_io_active (v : Z) (s : hs W) : hs W := mk_hs s.(hs_w) s.(hs_trace) s.(hs_ret) s.(hs_guest_thr) s.(hs_fs_base) s.(hs_exit_status) v.

Definition kma (gva : Z) : M (hs W) (option Z) := fun s =>
  let m := w_machine s.(hs_w) in Ret (km_gva_to_kma m gva, log (E_kma m gva) s).
Definition bytes_at (w : W) (a : Z) (n : nat) : list Z := map (fun i => w_mem w (a + Z.of_nat i) mod 256) (seq 0 n).
(** [n] bytes at an offset from a translated address. *)
Definition load (base off : Z) (n : nat) : M (hs W) Z := fun s =>
  Ret (le_val (bytes_at s.(hs_w) (base + off) n), log (E_load base off (Z.of_nat n)) s).
Definition store (base off : Z) (n : nat) (v : Z) : M (hs W) unit := fun s =>
  Ret (tt, log (E_store base off (Z.of_nat n)) (set_w (w_store (base + off) (le n v) s.(hs_w)) s)).
Definition call_out (c : callee) (args : list hcarg) : M (hs W) (Z * list Z) := fun s =>
  match w_run c args s.(hs_w) with
  | Ret (r, w) => Ret (r, log (E_call c args) (set_w w s))
  | Abort => Abort
  | NoFuel => NoFuel
  end.
Definition call (c : callee) (args : list hcarg) : M (hs W) Z := let* (r, _) := call_out c args in ret r.

Definition null (p : option Z) : bool := match p with None => true | Some _ => false end.
(** An address that was given and could not be translated. *)
Definition bad (p : option Z) (gva : Z) : bool := null p && negb (gva =? 0).
(** An array on the stack of the monitor. *)
Definition on_stack (bytes : Z) : M (hs W) unit := let* s := get in km_assert (bytes <=? w_stack s.(hs_w)).

(** [arg->hc_ret = r; return HC_CONTINUE] *)
Definition hc_return (r : Z) : M (hs W) km_hc_ret_t := modify (set_ret (u64 r)) ;;; ret HC_CONTINUE.
Definition efault : M (hs W) km_hc_ret_t := hc_return (- EFAULT).
Definition pass (c : callee) (args : list hcarg) : M (hs W) km_hc_ret_t := let* r := call c args in hc_return r.
End Base.
