(* ===== verification/HcallFns.v ===== *)
(** * Hypercalls: the handlers (km_hcalls.c)

    One definition per handler, with its name; [hc] is the number of the hypercall and
    [arg] its arguments, which are read once.  Tracing is left out. *)
From S2P Require Import Prelude Machine MemGeom Stdio Notes Hcall.

Section Handlers.
  Context {W : Type} `{World W}.
Implicit Types (hc : Z) (arg : km_hc_args_t).
#[local] Abbreviation handler := (M (hs W) km_hc_ret_t).

Definition ARCH_SET_FS : Z := 0x1002.
Definition ARCH_GET_FS : Z := 0x1003.
Definition arch_prctl_hcall hc arg : handler :=
  let code := int32 arg.(arg1) in
  if code =? ARCH_SET_FS then
    let* p := kma arg.(arg2) in
    if null p then hc_return (- EPERM) else modify (set_guest_thr arg.(arg2)) ;;; hc_return 0
  else if code =? ARCH_GET_FS then
    let* addr := kma arg.(arg2) in
    match addr with
    | None => efault
    | Some addr => let* s := get in store addr 0 8 s.(hs_guest_thr) ;;; hc_return 0
    end
  else hc_return (- ENOTSUP).

Definition exit_hcall hc arg : handler := ret HC_STOP.
Definition exit_grp_hcall hc arg : handler := modify (set_exit_status (int32 arg.(arg1))) ;;; ret HC_ALLSTOP.

(** ** Files and sockets *)
Definition prw_hcall hc arg : handler :=
  let* buf := kma arg.(arg2) in
  if null buf && negb (arg.(arg3) =? 0) then efault
  else pass Fs_prw [Val hc; Int arg.(arg1); Ptr buf; Val arg.(arg3); Val arg.(arg4)].
Definition prwv_hcall hc arg : handler :=
  let* buf := kma arg.(arg2) in
  if null buf then efault else pass Fs_prwv [Val hc; Int arg.(arg1); Ptr buf; Val arg.(arg3); Val arg.(arg4)].
Definition accept_hcall hc arg : handler :=
  let* addr := kma arg.(arg2) in
  let* addrlen := kma arg.(arg3) in
  if null addr || null addrlen then efault else pass Fs_accept [Int arg.(arg1); Ptr addr; Ptr addrlen].
Definition socketpair_hcall hc arg : handler :=
  let* sv := kma arg.(arg4) in
  if null sv then efault else pass Fs_socketpair [Int arg.(arg1); Int arg.(arg2); Int arg.(arg3); Ptr sv].
Definition connect_hcall hc arg : handler :=
  let* addr := kma arg.(arg2) in
  if null addr then efault else pass Fs_connect [Int arg.(arg1); Ptr addr; Uint arg.(arg3)].
Definition bind_hcall hc arg : handler :=
  let* addr := kma arg.(arg2) in
  if null addr then efault else pass Fs_bind [Int arg.(arg1); Ptr addr; Uint arg.(arg3)].
Definition listen_hcall hc arg : handler := pass Fs_listen [Int arg.(arg1); Int arg.(arg2)].
Definition socket_hcall hc arg : handler := pass Fs_socket [Int arg.(arg1); Int arg.(arg2); Int arg.(arg3)].
Definition getsockopt_hcall hc arg : handler :=
  let* optval := kma arg.(arg4) in
  let* optlen := kma arg.(arg5) in
  if null optval || null optlen then efault
  else pass Fs_getsockopt [Int arg.(arg1); Int arg.(arg2); Int arg.(arg3); Ptr optval; Ptr optlen].
Definition setsockopt_hcall hc arg : handler :=
  let* optval := kma arg.(arg4) in
  if null optval then efault else pass Fs_setsockopt [Int arg.(arg1); Int arg.(arg2); Int arg.(arg3); Ptr optval; Uint arg.(arg5)].
Definition sendfile_hcall hc arg : handler :=
  let* offset := (if arg.(arg3) =? 0 then ret None else kma arg.(arg3)) in
  if bad offset arg.(arg3) then efault else pass Fs_sendfile [Int arg.(arg1); Int arg.(arg2); Ptr offset; Val arg.(arg4)].
Definition copy_file_range_hcall hc arg : handler :=
  let* off_in := (if arg.(arg2) =? 0 then ret None else kma arg.(arg2)) in
  if bad off_in arg.(arg2) then efault
  else
    let* off_out := (if arg.(arg4) =? 0 then ret None else kma arg.(arg4)) in
    if bad off_out arg.(arg4) then efault
    else pass Fs_copy_file_range [Int arg.(arg1); Ptr off_in; Int arg.(arg3); Ptr off_out; Val arg.(arg5); Uint arg.(arg6)].
Definition ioctl_hcall hc arg : handler :=
  let* argp := kma arg.(arg3) in
  if bad argp arg.(arg3) then efault else pass Fs_ioctl [Int arg.(arg1); Val arg.(arg2); Ptr argp].
Definition fcntl_hcall hc arg : handler := pass Fs_fcntl [Int arg.(arg1); Int arg.(arg2); Val arg.(arg3)].
Definition stat_hcall hc arg : handler :=
  let* pathname := kma arg.(arg1) in
  let* statbuf := kma arg.(arg2) in
  if null pathname || null statbuf then efault else pass Fs_stat [Ptr pathname; Ptr statbuf].
Definition lstat_hcall hc arg : handler :=
  let* pathname := kma arg.(arg1) in
  let* statbuf := kma arg.(arg2) in
  if null pathname || null statbuf then efault else pass Fs_lstat [Ptr pathname; Ptr statbuf].
Definition statx_hcall hc arg : handler :=
  let* pathname := kma arg.(arg2) in
  let* statbuf := kma arg.(arg5) in
  if null pathname || null statbuf then efault
  else pass Fs_statx [Int arg.(arg1); Ptr pathname; Int arg.(arg3); Uint arg.(arg4); Ptr statbuf].
Definition fstat_hcall hc arg : handler :=
  let* statbuf := kma arg.(arg2) in
  if null statbuf then efault else pass Fs_fstat [Int arg.(arg1); Ptr statbuf].
Definition getdents_hcall hc arg : handler :=
  let* dirp := kma arg.(arg2) in
  if null dirp then efault else pass Fs_getdents [Int arg.(arg1); Ptr dirp; Uint arg.(arg3)].
Definition getdirents_hcall hc arg : handler :=
  let* dirp := kma arg.(arg2) in
  if null dirp then efault else pass Fs_getdents64 [Int arg.(arg1); Ptr dirp; Uint arg.(arg3)].
Definition getcwd_hcall hc arg : handler :=
  let* buf := kma arg.(arg1) in
  if null buf then efault else pass Fs_getcwd [Ptr buf; Val arg.(arg2)].
Definition close_hcall hc arg : handler := pass Fs_close [Int arg.(arg1)].
Definition flock_hcall hc arg : handler := pass Fs_flock [Int arg.(arg1); Int arg.(arg2)].
Definition shutdown_hcall hc arg : handler := pass Fs_shutdown [Int arg.(arg1); Int arg.(arg2)].

(** ** Memory *)
Definition brk_hcall hc arg : handler := pass Mem_brk [Val arg.(arg1)].
Definition mmap_hcall hc arg : handler :=
  pass Guest_mmap [Val arg.(arg1); Val arg.(arg2); Int arg.(arg3); Int arg.(arg4); Int arg.(arg5); Val arg.(arg6)].
Definition munmap_hcall hc arg : handler := pass Guest_munmap [Val arg.(arg1); Val arg.(arg2)].
Definition mremap_hcall hc arg : handler :=
  let* p := kma arg.(arg1) in
  if null p then hc_return (- EINVAL)
  else pass Guest_mremap [Val arg.(arg1); Val arg.(arg2); Val arg.(arg3); Int arg.(arg4); Val arg.(arg5)].
Definition mprotect_hcall hc arg : handler := pass Guest_mprotect [Val arg.(arg1); Val arg.(arg2); Int arg.(arg3)].
Definition madvise_hcall hc arg : handler := pass Guest_madvise [Val arg.(arg1); Val arg.(arg2); Int arg.(arg3)].
Definition msync_hcall hc arg : handler := pass Guest_msync [Val arg.(arg1); Val arg.(arg2); Int arg.(arg3)].
Definition unmapself_hcall hc arg : handler := call Guest_munmap [Val arg.(arg1); Val arg.(arg2)] ;;; ret HC_STOP.

(** ** Futexes and time *)
Definition futex_waits (op : Z) : bool := bool_decide (Z.land op 15 ∈ [0; 6; 9; 11]).
Definition futex_hcall hc arg : handler :=
  let op := int32 arg.(arg2) in
  let* timeout_or_val2 := (if futex_waits op then let* p := kma arg.(arg4) in ret (Ptr p) else ret (Val arg.(arg4))) in
  let* uaddr := kma arg.(arg1) in
  let* uaddr2 := kma arg.(arg5) in
  pass (Sys hc) [Ptr uaddr; Val (u64 op); Val arg.(arg3); timeout_or_val2; Ptr uaddr2; Val arg.(arg6)].
Definition SYS_clock_gettime : Z := 228.
Definition CLOCK_REALTIME : Z := 0.
Definition time_hcall hc arg : handler :=
  let* arg_t := kma arg.(arg1) in
  if negb (arg.(arg1) =? 0) && null arg_t then efault
  else
    let* (rc, ts) := call_out (Sys SYS_clock_gettime) [Val CLOCK_REALTIME; Own 0] in
    if int32 rc <? 0 then hc_return (int32 rc)
    else
      let tv_sec := nth 0 ts 0 in
      match arg_t with None => ret tt | Some t => store t 0 8 tv_sec end ;;; hc_return tv_sec.
Definition SYS_gettimeofday : Z := 96.
Definition gettimeofday_hcall hc arg : handler :=
  let* tv := kma arg.(arg1) in
  if null tv then efault
  else
    let* tz := (if arg.(arg2) =? 0 then ret None else kma arg.(arg2)) in
    if bad tz arg.(arg2) then efault
    else
      let* tv := kma arg.(arg1) in
      let* tz := kma arg.(arg2) in
      pass (Sys SYS_gettimeofday) [Ptr tv; Ptr tz].
Definition clock_time_hcall hc arg : handler :=
  let* tp := (if arg.(arg2) =? 0 then ret None else kma arg.(arg2)) in
  if bad tp arg.(arg2) then efault
  else let* tp := kma arg.(arg2) in pass (Sys hc) [Val arg.(arg1); Ptr tp].
Definition nanosleep_hcall hc arg : handler :=
  let* rem := kma arg.(arg2) in
  if bad rem arg.(arg2) then efault
  else
    let* req := kma arg.(arg1) in
    let* rem := kma arg.(arg2) in
    pass (Sys hc) [Ptr req; Ptr rem].
Definition clock_nanosleep_hcall hc arg : handler :=
  let* rem := kma arg.(arg4) in
  if bad rem arg.(arg4) then efault
  else
    let* req := kma arg.(arg3) in
    if null req then efault else pass (Sys hc) [Val arg.(arg1); Val arg.(arg2); Ptr req; Ptr rem].
(** [setitimer] and the like answer -1 to the guest whatever the error is. *)
Definition libc_return (r : Z) : handler := hc_return (if r <? 0 then -1 else r).
Definition SYS_setitimer : Z := 38.
Definition setitimer_hcall hc arg : handler :=
  let* new := kma arg.(arg2) in
  if null new then efault
  else
    let* old := (if arg.(arg3) =? 0 then ret None else kma arg.(arg3)) in
    if bad old arg.(arg3) then efault
    else let* r := call (Libc SYS_setitimer) [Int arg.(arg1); Ptr new; Ptr old] in libc_return r.
Definition SYS_getitimer : Z := 36.
Definition getitimer_hcall hc arg : handler :=
  let* curr := kma arg.(arg2) in
  if null curr then efault else let* r := call (Libc SYS_getitimer) [Int arg.(arg1); Ptr curr] in libc_return r.
Definition timerfd_create_hcall hc arg : handler := pass Fs_timerfd_create [Int arg.(arg1); Int arg.(arg2)].
Definition SYS_timerfd_settime : Z := 286.
Definition timerfd_settime_hcall hc arg : handler :=
  let* new_value := kma arg.(arg3) in
  if null new_value then efault
  else
    let* old_value := (if arg.(arg4) =? 0 then ret None else kma arg.(arg4)) in
    if bad old_value arg.(arg4) then efault
    else let* r := call (Libc SYS_timerfd_settime) [Int arg.(arg1); Int arg.(arg2); Ptr new_value; Ptr old_value] in libc_return r.
Definition SYS_timerfd_gettime : Z := 287.
Definition timerfd_gettime_hcall hc arg : handler :=
  let* curr_value := kma arg.(arg2) in
  if null curr_value then efault else let* r := call (Libc SYS_timerfd_gettime) [Int arg.(arg1); Ptr curr_value] in libc_return r.
Definition SYS_times : Z := 100.
Definition times_hcall hc arg : handler :=
  let* t := kma arg.(arg1) in
  if null t then efault else pass (Libc SYS_times) [Ptr t].
Definition getrusage_hcall hc arg : handler :=
  let* buf := kma arg.(arg2) in
  if null buf then efault else pass (Sys hc) [Val arg.(arg1); Ptr buf].
End Handlers.
