(* ===== verification/HcallMore.v ===== *)
(** * Hypercalls: paths, waiting, signals and processes (km_hcalls.c) *)
From S2P Require Import Prelude Machine MemGeom Stdio Notes Hcall.

Section Handlers.
  Context {W : Type} `{World W}.
Implicit Types (hc : Z) (arg : km_hc_args_t).
#[local] Abbreviation handler := (M (hs W) km_hc_ret_t).

(** ** Paths *)
Definition umask_hcall hc arg : handler := pass (Sys hc) [Val arg.(arg1)].
Definition readlink_hcall hc arg : handler :=
  let* pathname := kma arg.(arg1) in
  let* buf := kma arg.(arg2) in
  if null pathname || null buf then efault else pass Fs_readlink [Ptr pathname; Ptr buf; Val arg.(arg3)].
Definition readlinkat_hcall hc arg : handler :=
  let* pathname := kma arg.(arg2) in
  let* buf := kma arg.(arg3) in
  if null pathname || null buf then efault else pass Fs_readlinkat [Int arg.(arg1); Ptr pathname; Ptr buf; Val arg.(arg4)].
Definition getrandom_hcall hc arg : handler :=
  let* buf := kma arg.(arg1) in
  if null buf then efault
  else let* buf := kma arg.(arg1) in pass (Sys hc) [Ptr buf; Val arg.(arg2); Val arg.(arg3)].
Definition open_hcall hc arg : handler :=
  let* pathname := kma arg.(arg1) in
  if null pathname then efault else pass Fs_open [Ptr pathname; Int arg.(arg2); Uint arg.(arg3)].
Definition openat_hcall hc arg : handler :=
  let* pathname := kma arg.(arg2) in
  if null pathname then efault else pass Fs_openat [Int arg.(arg1); Ptr pathname; Int arg.(arg3); Uint arg.(arg4)].
Definition lseek_hcall hc arg : handler := pass Fs_lseek [Int arg.(arg1); Val arg.(arg2); Int arg.(arg3)].
Definition SYS_symlink : Z := 88.
Definition symlink_hcall hc arg : handler :=
  let* target := kma arg.(arg1) in
  let* linkpath := kma arg.(arg2) in
  if null target || null linkpath then efault else pass (if hc =? SYS_symlink then Fs_symlink else Fs_link) [Ptr target; Ptr linkpath].
Definition rename_hcall hc arg : handler :=
  let* oldpath := kma arg.(arg1) in
  let* newpath := kma arg.(arg2) in
  if null oldpath || null newpath then efault else pass Fs_rename [Ptr oldpath; Ptr newpath].
Definition chdir_hcall hc arg : handler :=
  let* path := kma arg.(arg1) in
  if null path then efault else pass Fs_chdir [Ptr path].
Definition fchdir_hcall hc arg : handler := pass Fs_fchdir [Int arg.(arg1)].
Definition truncate_hcall hc arg : handler :=
  let* path := kma arg.(arg1) in
  if null path then efault else pass Fs_truncate [Ptr path; Val arg.(arg2)].
Definition ftruncate_hcall hc arg : handler := pass Fs_ftruncate [Int arg.(arg1); Val arg.(arg2)].
Definition fsync_hcall hc arg : handler := pass Fs_fsync [Int arg.(arg1)].
Definition fdatasync_hcall hc arg : handler := pass Fs_fdatasync [Int arg.(arg1)].
Definition mkdir_hcall hc arg : handler :=
  let* path := kma arg.(arg1) in
  if null path then efault else pass Fs_mkdir [Ptr path; Uint arg.(arg2)].
Definition rmdir_hcall hc arg : handler :=
  let* path := kma arg.(arg1) in
  if null path then efault else pass Fs_rmdir [Ptr path].
Definition access_hcall hc arg : handler :=
  let* pathname := kma arg.(arg1) in
  if null pathname then efault else pass Fs_access [Ptr pathname; Int arg.(arg2)].
Definition faccessat_hcall hc arg : handler :=
  let* pathname := kma arg.(arg2) in
  if null pathname then efault else pass Fs_faccessat [Int arg.(arg1); Ptr pathname; Int arg.(arg3); Int arg.(arg4)].
Definition unlink_hcall hc arg : handler :=
  let* pathname := kma arg.(arg1) in
  if null pathname then efault else pass Fs_unlink [Ptr pathname].
Definition unlinkat_hcall hc arg : handler :=
  let* pathname := kma arg.(arg2) in
  if null pathname then efault else pass Fs_unlinkat [Int arg.(arg1); Ptr pathname; Int arg.(arg3)].
Definition utimensat_hcall hc arg : handler :=
  let* pathname := (if arg.(arg2) =? 0 then ret None else kma arg.(arg2)) in
  if bad pathname arg.(arg2) then efault
  else
    let* ts := (if arg.(arg3) =? 0 then ret None else kma arg.(arg3)) in
    if bad ts arg.(arg3) then efault else pass Fs_utimensat [Int arg.(arg1); Ptr pathname; Ptr ts; Int arg.(arg4)].
Definition mknod_hcall hc arg : handler :=
  let* pathname := kma arg.(arg1) in
  if null pathname then efault else pass Fs_mknod [Ptr pathname; Uint arg.(arg2); Val arg.(arg3)].
Definition SYS_chown : Z := 92.
Definition chown_hcall hc arg : handler :=
  let* pathname := kma arg.(arg1) in
  if null pathname then efault else pass (if hc =? SYS_chown then Fs_chown else Fs_lchown) [Ptr pathname; Uint arg.(arg2); Uint arg.(arg3)].
Definition fchown_hcall hc arg : handler := pass Fs_fchown [Int arg.(arg1); Uint arg.(arg2); Uint arg.(arg3)].
Definition chmod_hcall hc arg : handler :=
  let* pathname := kma arg.(arg1) in
  if null pathname then efault else pass Fs_chmod [Ptr pathname; Uint arg.(arg2)].
Definition fchmod_hcall hc arg : handler := pass Fs_fchmod [Int arg.(arg1); Uint arg.(arg2)].
Definition statfs_hcall hc arg : handler :=
  let* pathname := kma arg.(arg1) in
  let* st := kma arg.(arg2) in
  if null pathname || null st then efault else pass Fs_statfs [Ptr pathname; Ptr st].
Definition fstatfs_hcall hc arg : handler :=
  let* st := kma arg.(arg2) in
  if null st then efault else pass Fs_fstatfs [Int arg.(arg1); Ptr st].
Definition mknodat_hcall hc arg : handler :=
  let* pathname := kma arg.(arg2) in
  if null pathname then efault else pass (Sys hc) [Val arg.(arg1); Ptr pathname; Val arg.(arg3); Val arg.(arg4)].
Definition newfstatat_hcall hc arg : handler :=
  let* pathname := kma arg.(arg2) in
  let* statbuf := kma arg.(arg3) in
  if null pathname || null statbuf then efault else pass (Sys hc) [Val arg.(arg1); Ptr pathname; Ptr statbuf; Val arg.(arg4)].

(** ** Descriptors *)
Definition dup_hcall hc arg : handler := pass Fs_dup [Int arg.(arg1)].
Definition dup2_hcall hc arg : handler := pass Fs_dup2 [Int arg.(arg1); Int arg.(arg2)].
Definition dup3_hcall hc arg : handler := pass Fs_dup3 [Int arg.(arg1); Int arg.(arg2); Int arg.(arg3)].
Definition pipe_hcall hc arg : handler :=
  let* pipefd := kma arg.(arg1) in
  if null pipefd then efault else pass Fs_pipe [Ptr pipefd].
Definition pipe2_hcall hc arg : handler :=
  let* pipefd := kma arg.(arg1) in
  if null pipefd then efault else pass Fs_pipe2 [Ptr pipefd; Int arg.(arg2)].
Definition eventfd2_hcall hc arg : handler := pass Fs_eventfd2 [Int arg.(arg1); Int arg.(arg2)].
Definition SYS_epoll_create : Z := 213.
Definition epoll1_create_hcall hc arg : handler := pass Fs_epoll_create1 [if hc =? SYS_epoll_create then Val 0 else Int arg.(arg1)].
Definition epoll_ctl_hcall hc arg : handler :=
  let* event := kma arg.(arg4) in
  if bad event arg.(arg4) then efault else pass Fs_epoll_ctl [Int arg.(arg1); Int arg.(arg2); Int arg.(arg3); Ptr event].
Definition get_sock_peer_name_hcall hc arg : handler :=
  let* addr := kma arg.(arg2) in
  let* addrlen := kma arg.(arg3) in
  if null addr || null addrlen then efault else pass Fs_get_sock_peer_name [Val hc; Int arg.(arg1); Ptr addr; Ptr addrlen].
Definition accept4_hcall hc arg : handler :=
  let* addr := kma arg.(arg2) in
  let* addrlen := kma arg.(arg3) in
  if bad addr arg.(arg2) then efault
  else if bad addrlen arg.(arg3) then efault
  else pass Fs_accept4 [Int arg.(arg1); Ptr addr; Ptr addrlen; Int arg.(arg4)].
Definition sendto_hcall hc arg : handler :=
  let* buf := kma arg.(arg2) in
  let* addr := kma arg.(arg5) in
  pass Fs_sendto [Int arg.(arg1); Ptr buf; Val arg.(arg3); Int arg.(arg4); Ptr addr; Uint arg.(arg6)].
Definition recvfrom_hcall hc arg : handler :=
  let* buf := kma arg.(arg2) in
  let* srcaddr := kma arg.(arg5) in
  let* addrlen := kma arg.(arg6) in
  if null buf then efault
  else if bad srcaddr arg.(arg5) then efault
  else if bad addrlen arg.(arg6) then efault
  else pass Fs_recvfrom [Int arg.(arg1); Ptr buf; Val arg.(arg3); Int arg.(arg4); Ptr srcaddr; Ptr addrlen].
Definition prlimit64_hcall hc arg : handler :=
  let* newlimit := kma arg.(arg3) in
  let* oldlimit := kma arg.(arg4) in
  if bad newlimit arg.(arg3) then efault
  else if bad oldlimit arg.(arg4) then efault
  else pass Fs_prlimit64 [Int arg.(arg1); Int arg.(arg2); Ptr newlimit; Ptr oldlimit].

(** ** Waiting *)
(** The address of the signal mask is replaced in the guest's own structure for the
    time of the call. *)
Definition pselect6_hcall hc arg : handler :=
  let* readfds := kma arg.(arg2) in
  let* writefds := kma arg.(arg3) in
  let* exceptfds := kma arg.(arg4) in
  let* timeout := kma arg.(arg5) in
  let* sigp := kma arg.(arg6) in
  if bad readfds arg.(arg2) then efault
  else if bad writefds arg.(arg3) then efault
  else if bad exceptfds arg.(arg4) then efault
  else if bad timeout arg.(arg5) then efault
  else if bad sigp arg.(arg6) then efault
  else
    let select := pass Fs_pselect6 [Int arg.(arg1); Ptr readfds; Ptr writefds; Ptr exceptfds; Ptr timeout; Ptr sigp] in
    match sigp with
    | None => select
    | Some sg =>
        let* ss := load sg 0 8 in
        let* tmp := kma ss in
        match tmp with
        | None => efault
        | Some tmp => store sg 0 8 tmp ;;; let* r := select in store sg 0 8 ss ;;; ret r
        end
    end.
Definition select_hcall hc arg : handler :=
  let* readfds := kma arg.(arg2) in
  let* writefds := kma arg.(arg3) in
  let* exceptfds := kma arg.(arg4) in
  let* timeout := kma arg.(arg5) in
  if bad readfds arg.(arg2) then efault
  else if bad writefds arg.(arg3) then efault
  else if bad exceptfds arg.(arg4) then efault
  else if bad timeout arg.(arg5) then efault
  else pass Fs_select [Int arg.(arg1); Ptr readfds; Ptr writefds; Ptr exceptfds; Ptr timeout].
Definition pause_hcall hc arg : handler := pass (Sys hc) [].
Definition poll_hcall hc arg : handler :=
  let* fds := kma arg.(arg1) in
  if null fds then efault else pass Fs_poll [Ptr fds; Val arg.(arg2); Int arg.(arg3)].
Definition ppoll_hcall hc arg : handler :=
  let* fds := kma arg.(arg1) in
  if null fds && negb (arg.(arg2) =? 0) then efault
  else
    let* tmop := (if arg.(arg3) =? 0 then ret None else kma arg.(arg3)) in
    if bad tmop arg.(arg3) then efault
    else
      let* sigmask := (if arg.(arg4) =? 0 then ret None else kma arg.(arg4)) in
      if bad sigmask arg.(arg4) then efault
      else pass Fs_ppoll [Ptr fds; Val arg.(arg2); Ptr tmop; Ptr sigmask; Val arg.(arg5)].
Definition epoll_wait_hcall hc arg : handler :=
  let* events := kma arg.(arg2) in
  if null events then efault else pass Fs_epoll_wait [Int arg.(arg1); Ptr events; Int arg.(arg3); Int arg.(arg4)].
Definition epoll_pwait_hcall hc arg : handler :=
  let* events := kma arg.(arg2) in
  let* sigmask := kma arg.(arg5) in
  if null events || bad sigmask arg.(arg5) then efault
  else pass Fs_epoll_pwait [Int arg.(arg1); Ptr events; Int arg.(arg3); Int arg.(arg4); Ptr sigmask; Int arg.(arg6)].
End Handlers.
