(* ===== verification/HcallProc.v ===== *)
(** * Hypercalls: signals, processes and the rest (km_hcalls.c) *)
From S2P Require Import Prelude Machine MemGeom FdTable Stdio Notes Hcall.

Section Handlers.
  Context {W : Type} `{World W}.
Implicit Types (hc : Z) (arg : km_hc_args_t).
#[local] Abbreviation handler := (M (hs W) km_hc_ret_t).

(** ** Signals *)
Definition rt_sigprocmask_hcall hc arg : handler :=
  let* set := (if arg.(arg2) =? 0 then ret None else kma arg.(arg2)) in
  if bad set arg.(arg2) then efault
  else
    let* oldset := (if arg.(arg3) =? 0 then ret None else kma arg.(arg3)) in
    if bad oldset arg.(arg3) then efault else pass Rt_sigprocmask [Int arg.(arg1); Ptr set; Ptr oldset; Val arg.(arg4)].
Definition rt_sigaction_hcall hc arg : handler :=
  let* act := (if arg.(arg2) =? 0 then ret None else kma arg.(arg2)) in
  if bad act arg.(arg2) then efault
  else
    let* oldact := (if arg.(arg3) =? 0 then ret None else kma arg.(arg3)) in
    if bad oldact arg.(arg3) then efault else pass Rt_sigaction [Int arg.(arg1); Ptr act; Ptr oldact; Val arg.(arg4)].
Definition rt_sigreturn_hcall hc arg : handler := call Rt_sigreturn [] ;;; ret HC_CONTINUE.
Definition sigaltstack_hcall hc arg : handler :=
  let* new := (if arg.(arg1) =? 0 then ret None else kma arg.(arg1)) in
  if bad new arg.(arg1) then efault
  else
    let* old := (if arg.(arg2) =? 0 then ret None else kma arg.(arg2)) in
    if bad old arg.(arg2) then efault else pass Sigaltstack [Ptr new; Ptr old].
Definition kill_hcall hc arg : handler := pass Kill [Int arg.(arg1); Int arg.(arg2)].
Definition tgkill_hcall hc arg : handler := pass Tkill [Int arg.(arg2); Int arg.(arg3)].
Definition tkill_hcall hc arg : handler := pass Tkill [Int arg.(arg1); Int arg.(arg2)].
Definition rt_sigpending_hcall hc arg : handler :=
  let* sigset := kma arg.(arg1) in
  if null sigset then efault else pass Rt_sigpending [Ptr sigset; Val arg.(arg2)].
Definition rt_sigsuspend_hcall hc arg : handler :=
  let* mask := (if arg.(arg1) =? 0 then ret None else kma arg.(arg1)) in
  if bad mask arg.(arg1) then efault else pass Rt_sigsuspend [Ptr mask; Val arg.(arg2)].
Definition rt_sigtimedwait hc arg : handler :=
  let* set := kma arg.(arg1) in
  let* info := (if arg.(arg2) =? 0 then ret None else kma arg.(arg2)) in
  if bad info arg.(arg2) then efault
  else
    let* timeout := (if arg.(arg3) =? 0 then ret None else kma arg.(arg3)) in
    if bad timeout arg.(arg3) then efault else pass Rt_sigtimedwait [Ptr set; Ptr info; Ptr timeout; Val arg.(arg4)].
Definition guest_interrupt_hcall hc arg : handler := call Handle_interrupt [] ;;; ret HC_CONTINUE.

(** ** Processes *)
Definition dummy_hcall hc arg : handler := hc_return 0.
Definition getpid_hcall hc arg : handler := hc_return w_pid.
Definition getppid_hcall hc arg : handler := hc_return w_ppid.
Definition gettid_hcall hc arg : handler := hc_return w_tid.
(** pid_t wait4: NULL is a legal value of both addresses, and so is one that cannot be
    translated. *)
Definition SYS_wait4 : Z := 61.
Definition wait4_hcall hc arg : handler :=
  let* wstatusp := kma arg.(arg2) in
  let* rusage := kma arg.(arg4) in
  pass (Libc SYS_wait4) [Int arg.(arg1); Ptr wstatusp; Int arg.(arg3); Ptr rusage].
Definition SYS_waitid : Z := 247.
Definition OFFSET_si_pid : Z := 16.
Definition waitid_hcall hc arg : handler :=
  let* sip := kma arg.(arg3) in
  match sip with
  | None => efault
  | Some si =>
      store si OFFSET_si_pid 4 0 ;;;
      let* r := call (Libc SYS_waitid) [Uint arg.(arg1); Int arg.(arg2); Ptr sip; Int arg.(arg4)] in
      hc_return (if r <? 0 then r else 0)
  end.
Definition getXXid_hcall hc arg : handler := pass (Sys hc) [].
Definition setXid_hcall hc arg : handler := pass (Sys hc) [Val arg.(arg1)].
Definition get_set_groups_hcall hc arg : handler :=
  let size := int32 arg.(arg1) in
  let* list := kma arg.(arg2) in
  if negb (size =? 0) && null list then efault else pass (Sys hc) [Val arg.(arg1); Ptr list].
Definition getsid_hcall hc arg : handler := pass (Sys hc) [Val arg.(arg1)].
Definition setsid_hcall hc arg : handler := pass (Sys hc) [].
Definition getpgid_hcall hc arg : handler := pass (Sys hc) [Val arg.(arg1)].
Definition getpgrp_hcall hc arg : handler := pass (Sys hc) [].
Definition setpgid_hcall hc arg : handler := pass (Sys hc) [Val arg.(arg1); Val arg.(arg2)].
Definition SYS_sched_yield : Z := 24.
Definition sched_yield_hcall hc arg : handler := let* r := call (Libc SYS_sched_yield) [] in hc_return (if r <? 0 then -1 else r).
Definition sched_getaffinity_hcall hc arg : handler :=
  let* mask := kma arg.(arg3) in pass (Sys hc) [Val arg.(arg1); Val arg.(arg2); Ptr mask].
Definition sched_setaffinity_hcall hc arg : handler := hc_return 0.
(** Both words are stored as 64 bits. *)
Definition store_zero (p : option Z) : M (hs W) unit := match p with None => ret tt | Some p => store p 0 8 0 end.
Definition getcpu_hcall hc arg : handler :=
  let* cpu := (if arg.(arg1) =? 0 then ret None else kma arg.(arg1)) in
  if bad cpu arg.(arg1) then efault
  else
    let* node := (if arg.(arg2) =? 0 then ret None else kma arg.(arg2)) in
    if bad node arg.(arg2) then efault else store_zero cpu ;;; store_zero node ;;; hc_return 0.
Definition OFFSET_procs : Z := 80.
Definition sysinfo_hcall hc arg : handler :=
  let* si := kma arg.(arg1) in
  match si with
  | None => efault
  | Some p =>
      let* info := kma arg.(arg1) in
      let* r := call (Sys hc) [Ptr info] in
      (if u64 r =? 0 then store p OFFSET_procs 2 1 else ret tt) ;;; hc_return r
  end.
(** struct utsname: six names of 65 bytes, [release] the third. *)
Definition SIZEOF_UTSNAME : Z := 390.
Definition OFFSET_release : Z := 130.
Definition kontain_release (ty : vm_type_t) : list Z := map (fun a => Z.of_N (Ascii.N_of_ascii a)) (chars (match ty with VM_TYPE_KVM => ".kontain.KVM" | VM_TYPE_KKM => ".kontain.KKM" end)).
Fixpoint load_bytes (base off : Z) (n : nat) : M (hs W) (list Z) :=
  match n with
  | O => ret []
  | S n => let* b := load base off 1 in let* l := load_bytes base (off + 1) n in ret (b :: l)
  end.
Fixpoint store_bytes (base off : Z) (l : list Z) : M (hs W) unit :=
  match l with [] => ret tt | b :: l => store base off 1 b ;;; store_bytes base (off + 1) l end.
Definition uname_hcall hc arg : handler :=
  let* name := (if arg.(arg1) =? 0 then ret None else kma arg.(arg1)) in
  match name with
  | None => hc_return (-1)
  | Some name =>
      let* last := kma (u64 (arg.(arg1) + SIZEOF_UTSNAME - 1)) in
      if null last then hc_return (-1)
      else
        let* p := kma arg.(arg1) in
        let* r := call (Sys hc) [Ptr p] in
        (if u64 r =? 0 then
           let* release := load_bytes name OFFSET_release 65 in
           let len := length (cstr release) in
           (* strlen found its end in the array *)
           km_assert (len <? 65)%nat ;;;
           let* s := get in
           let rel_name := take (65 - len - 1) (kontain_release (w_machine s.(hs_w)).(vm_type)) in
           store_bytes name (OFFSET_release + Z.of_nat len) (rel_name ++ [0])
         else ret tt) ;;;
        hc_return r
  end.

Definition CLONE_THREAD : Z := 0x10000.
Definition km_clone_process arg : M (hs W) Z :=
  let* ctid := (if arg.(arg4) =? 0 then ret None else kma arg.(arg4)) in
  if bad ctid arg.(arg4) then ret (- EFAULT)
  else call Vcpu_sync_rip [] ;;; call Before_fork [Val arg.(arg2); Val arg.(arg4); Val 1].
Definition clone_hcall hc arg : handler :=
  if Z.land arg.(arg1) CLONE_THREAD =? 0 then
    let* r := km_clone_process arg in
    modify (set_ret (u64 r)) ;;; ret (if u64 r =? 0 then HC_DOFORK else HC_CONTINUE)
  else pass Clone [Val arg.(arg1); Val arg.(arg2); Val arg.(arg3); Val arg.(arg4); Val arg.(arg5)].
Definition clone3_hcall hc arg : handler :=
  let* cl_args := kma arg.(arg1) in
  match cl_args with
  | None => efault
  | Some p =>
      let* flags := load p 0 8 in
      if Z.land flags CLONE_THREAD =? 0 then hc_return (- ENOSYS) else pass Clone3 [Ptr cl_args; Val arg.(arg2)]
  end.
Definition set_tid_address_hcall hc arg : handler := pass Set_tid_address [Val arg.(arg1)].
Definition fork_hcall hc arg : handler :=
  call Vcpu_sync_rip [] ;;;
  let* rc := call Before_fork [Val arg.(arg2); Val arg.(arg4); Val 0] in
  modify (set_ret (u64 rc)) ;;; ret (if rc =? 0 then HC_DOFORK else HC_CONTINUE).

(** ** Exec *)
Definition execve_hcall hc arg : handler :=
  let* filename := kma arg.(arg1) in
  let* argv := kma arg.(arg2) in
  let* envp := kma arg.(arg3) in
  if null filename || null argv || null envp then efault else pass Do_exec [Ptr filename; Ptr argv; Ptr envp].
Definition AT_SYMLINK_NOFOLLOW : Z := 0x100.
Definition AT_EMPTY_PATH : Z := 0x1000.
Definition O_NOFOLLOW : Z := 0x20000.
Definition SYS_openat : Z := 257.
Definition SYS_close : Z := 3.
Definition execveat_run (dirfd : Z) (pathname : option Z) (flags : Z) arg : handler :=
  let* argv := kma arg.(arg3) in
  let* envp := kma arg.(arg4) in
  if null argv || null envp then efault
  else
    let empty := negb (Z.land flags AT_EMPTY_PATH =? 0) in
    let open_flag := if negb (Z.land flags AT_SYMLINK_NOFOLLOW =? 0) then O_NOFOLLOW else 0 in
    let* exefd := (if empty then ret dirfd else call (Libc SYS_openat) [Val dirfd; Ptr pathname; Val open_flag]) in
    if negb empty && (exefd <? 0) then hc_return exefd
    else
      let* exe_path := call Fs_guestfd_name [Val exefd] in
      km_assert (negb (exe_path =? 0)) ;;;
      (if negb (exefd =? dirfd) then call (Libc SYS_close) [Val exefd] else ret 0) ;;;
      pass Do_exec [Own exe_path; Ptr argv; Ptr envp].
Definition execveat_hcall hc arg : handler :=
  let dirfd := int32 arg.(arg1) in
  let flags := int32 arg.(arg5) in
  let* pathname := (if arg.(arg2) =? 0 then ret None else kma arg.(arg2)) in
  if bad pathname arg.(arg2) then hc_return (- EINVAL)
  else
    let* nameless := (match pathname with None => ret true | Some p => let* c := load p 0 1 in ret (c =? 0) end) in
    if nameless && (Z.land flags AT_EMPTY_PATH =? 0) then hc_return (- EINVAL)
    else
      let* at_rc := (match pathname with None => ret 0 | Some _ => call Fs_at [Val dirfd; Ptr pathname] end) in
      if at_rc <? 0 then hc_return at_rc else execveat_run dirfd pathname flags arg.

(** ** Snapshots *)
Definition snapshot_hcall hc arg : handler :=
  let* label := kma arg.(arg1) in
  if bad label arg.(arg1) then efault
  else
    let* description := kma arg.(arg2) in
    if bad description arg.(arg2) then efault
    else
      let live := int32 arg.(arg3) in
      call Vcpu_sync_rip [] ;;;
      let* r := call Snapshot_block [] in
      if negb (u64 r =? 0) then hc_return r
      else
        let* r := call Snapshot_create [Ptr label; Ptr description; Ptr None] in
        call Snapshot_unblock [] ;;;
        modify (set_ret (u64 r)) ;;;
        (* hc_ret is unsigned *)
        ret (if (u64 r <? 0) || negb (live =? 0) then HC_CONTINUE else HC_ALLSTOP).
Definition shrink_payload_hcall hc arg : handler := let* r := call Shrink_footprint [] in hc_return (- r).

Definition unsupported_hcall hc arg : handler := hc_return (- ENOTSUP).
Definition inotify_init_hcall := unsupported_hcall.
Definition inotify_init1_hcall := unsupported_hcall.
Definition mlock_hcall := unsupported_hcall.
Definition rseq_hcall hc arg : handler := hc_return (- ENOSYS).
End Handlers.
