(* ===== verification/HcallMsg.v ===== *)
(** * Hypercalls: messages and asynchronous I/O (km_hcalls.c)

    The calls whose arguments are structures with addresses in them: the monitor copies
    them with the addresses translated. *)
From S2P Require Import Prelude Machine MemGeom FdTable Stdio Notes Hcall.

Section Handlers.
  Context {W : Type} `{World W}.
Implicit Types (hc : Z) (arg : km_hc_args_t).
#[local] Abbreviation handler := (M (hs W) km_hc_ret_t).

Definition SIZEOF_IOVEC : Z := 16.
(** struct msghdr: the offsets of its fields. *)
Definition O_name : Z := 0.
Definition O_namelen : Z := 8.
Definition O_iov : Z := 16.
Definition O_iovlen : Z := 24.
Definition O_control : Z := 32.
Definition O_controllen : Z := 40.
Definition O_flags : Z := 48.
Definition O_msg_len : Z := 56.
Definition SIZEOF_MMSGHDR : Z := 64.

(** ** Messages *)
(** The vector at [iov], into an array of [room] elements: [None] when an address cannot
    be translated. *)
Fixpoint copy_iov (iov room : Z) (i : Z) (n : nat) : M (hs W) (option (list iovec)) :=
  match n with
  | O => ret (Some [])
  | S n =>
      km_assert (i <? room) ;;;
      let* len := load iov (SIZEOF_IOVEC * i + 8) 8 in
      let* v :=
        (if 0 <? len then
           let* base := load iov (SIZEOF_IOVEC * i) 8 in
           let* p := kma base in
           ret (match p with None => None | Some _ => Some (mk_iov p len) end)
         else ret (Some (mk_iov None len))) in
      match v with
      | None => ret None
      | Some v => let* rest := copy_iov iov room (i + 1) n in ret (match rest with None => None | Some l => Some (v :: l) end)
      end
  end.

(** [n] elements; without any the address of the vector is not looked at. *)
Definition copy_vector (iov n room : Z) : M (hs W) (option (list iovec)) :=
  let* iov_kma := (if 0 <? n then kma iov else ret None) in
  if (0 <? n) && null iov_kma then ret None
  else match iov_kma with None => ret (Some []) | Some p => copy_iov p room 0 (Z.to_nat n) end.

(** An address of a structure that may be NULL. *)
Definition copy_ptr (gva : Z) : M (hs W) (option (option Z)) :=
  if gva =? 0 then ret (Some None) else let* p := kma gva in ret (match p with None => None | Some _ => Some p end).

Definition sendrecvmsg_hcall hc arg : handler :=
  let* msg_kma := kma arg.(arg2) in
  match msg_kma with
  | None => efault
  | Some mk =>
      let* name := load mk O_name 8 in
      let* msg_name := copy_ptr name in
      match msg_name with
      | None => efault
      | Some msg_name =>
          let* namelen := load mk O_namelen 4 in
          let* iovlen := load mk O_iovlen 8 in
          on_stack (SIZEOF_IOVEC * iovlen) ;;;
          let* iov := load mk O_iov 8 in
          let* vec := copy_vector iov iovlen iovlen in
          match vec with
          | None => efault
          | Some vec =>
              let* control := load mk O_control 8 in
              let* controllen := load mk O_controllen 8 in
              let* ck := (if 0 <? controllen then kma control else ret (Some control)) in
              match ck with
              | None => efault
              | Some ck =>
                  let* flags := load mk O_flags 4 in
                  let* (r, out) := call_out Fs_sendrecvmsg [Val hc; Int arg.(arg1); Msg (mk_msg msg_name namelen vec ck controllen flags); Int arg.(arg3)] in
                  (if hc =? SYS_recvmsg then
                     store mk O_namelen 4 (nth 0 out 0) ;;; store mk O_controllen 8 (nth 1 out 0) ;;; store mk O_flags 4 (nth 2 out 0)
                   else ret tt) ;;;
                  hc_return r
              end
          end
      end
  end.

Definition UIO_MAXIOV : Z := 1024.
(** [guest], [off]: the guest's header; [iovs]: the bytes of the buffer of vectors from the
    place of this message on.  The vectors of a message are written there one by one. *)
Definition copyin_msghdr (guest off : Z) (iovs : Z) : M (hs W) (Z + msghdr) :=
  let* name := load guest (off + O_name) 8 in
  let* msg_name := copy_ptr name in
  match msg_name with
  | None => ret (inl (- EFAULT))
  | Some msg_name =>
      let* namelen := load guest (off + O_namelen) 4 in
      let* iovlen := load guest (off + O_iovlen) 8 in
      if UIO_MAXIOV <=? iovlen then ret (inl (- EINVAL))
      else
        let* iov := load guest (off + O_iov) 8 in
        let* vec := copy_vector iov iovlen (iovs / SIZEOF_IOVEC) in
        match vec with
        | None => ret (inl (- EFAULT))
        | Some vec =>
            let* control := load guest (off + O_control) 8 in
            let* ck := copy_ptr control in
            match ck with
            | None => ret (inl (- EFAULT))
            | Some ck =>
                let* controllen := load guest (off + O_controllen) 8 in
                let* flags := load guest (off + O_flags) 4 in
                ret (inr (mk_msg msg_name namelen vec (match ck with None => 0 | Some k => k end) controllen flags))
            end
        end
  end.
(** The sum of the lengths, kept in an int. *)
Fixpoint count_iovecs (guest : Z) (i : Z) (n : nat) (niovecs : Z) : M (hs W) Z :=
  match n with
  | O => ret niovecs
  | S n => let* l := load guest (SIZEOF_MMSGHDR * i + O_iovlen) 8 in count_iovecs guest (i + 1) n (int32 (niovecs + l))
  end.
(** [allocsz]: the bytes of the buffer; the vectors go behind [current]. *)
Fixpoint copy_messages (guest : Z) (i : Z) (n : nat) (allocsz current : Z) : M (hs W) (Z + list msghdr) :=
  match n with
  | O => ret (inr [])
  | S n =>
      km_assert (SIZEOF_MMSGHDR * (i + 1) <=? allocsz) ;;;
      let* m := copyin_msghdr guest (SIZEOF_MMSGHDR * i) (allocsz - current) in
      match m with
      | inl rc => ret (inl rc)
      | inr m =>
          let* rest := copy_messages guest (i + 1) n allocsz (current + SIZEOF_IOVEC * Z.of_nat (length m.(msg_iov))) in
          ret (match rest with inl rc => inl rc | inr l => inr (m :: l) end)
      end
  end.
Fixpoint store_msg_lens (guest : Z) (i : Z) (n : nat) (out : list Z) : M (hs W) unit :=
  match n with
  | O => ret tt
  | S n => store guest (SIZEOF_MMSGHDR * i + O_msg_len) 4 (nth (Z.to_nat i) out 0) ;;; store_msg_lens guest (i + 1) n out
  end.
Definition SYS_recvmmsg : Z := 299.
Definition sendrecvmmsg_hcall hc arg : handler :=
  let* guest := (if arg.(arg2) =? 0 then ret None else kma arg.(arg2)) in
  match guest with
  | None => efault
  | Some guest =>
      let vlen := u32 arg.(arg3) in
      if vlen =? 0 then hc_return (- EINVAL)
      else
        let vlen := if UIO_MAXIOV <? vlen then UIO_MAXIOV else vlen in
        let* last := kma (u64 (arg.(arg2) + vlen * SIZEOF_MMSGHDR - 1)) in
        if null last then efault
        else
          let* niovecs := count_iovecs guest 0 (Z.to_nat vlen) 0 in
          let allocsz := u64 (SIZEOF_MMSGHDR * vlen + SIZEOF_IOVEC * niovecs) in
          on_stack allocsz ;;;
          let* msgs := copy_messages guest 0 (Z.to_nat vlen) allocsz (SIZEOF_MMSGHDR * vlen) in
          match msgs with
          | inl rc => hc_return rc
          | inr msgs =>
              let* ts := (if (hc =? SYS_recvmmsg) && negb (arg.(arg5) =? 0) then kma arg.(arg5) else ret None) in
              if (hc =? SYS_recvmmsg) && bad ts arg.(arg5) then efault
              else
                let* (r, out) := call_out Fs_sendrecvmmsg [Val hc; Int arg.(arg1); Mmsg msgs; Val vlen; Int arg.(arg4); Ptr ts] in
                store_msg_lens guest 0 (Z.to_nat vlen) out ;;; hc_return r
          end
  end.

(** ** Asynchronous I/O *)
Definition io_setup_hcall hc arg : handler :=
  let* ctx_idp := kma arg.(arg2) in
  if null ctx_idp then efault else let* rv := call Iocontext_add [Uint arg.(arg1); Ptr ctx_idp] in hc_return (- rv).
Definition io_destroy_hcall hc arg : handler := let* rv := call Iocontext_remove [Val arg.(arg1)] in hc_return (- rv).

Definition IOCB_CMD_PREAD : Z := 0.
Definition IOCB_CMD_PWRITE : Z := 1.
Definition IOCB_CMD_FSYNC : Z := 2.
Definition IOCB_CMD_FDSYNC : Z := 3.
Definition IOCB_CMD_POLL : Z := 5.
Definition IOCB_CMD_PREADV : Z := 7.
Definition IOCB_CMD_PWRITEV : Z := 8.
Definition is_buffer (op : Z) : bool := (op =? IOCB_CMD_PREAD) || (op =? IOCB_CMD_PWRITE).
Definition is_vector (op : Z) : bool := (op =? IOCB_CMD_PREADV) || (op =? IOCB_CMD_PWRITEV).
(** struct iocb *)
Definition O_key : Z := 8.
Definition O_opcode : Z := 16.
Definition O_buf : Z := 24.
Definition O_nbytes : Z := 32.
Definition SIZEOF_IOCB : Z := 64.

(** The first loop: [None] for an address that cannot be translated; the number of
    elements of vectors is kept in an int. *)
Fixpoint copy_iocbs (list : Z) (i : Z) (n : nat) (needed : Z) : M (hs W) (option (Z * Datatypes.list iocb)) :=
  match n with
  | O => ret (Some (needed, []))
  | S n =>
      let* gva := load list (8 * i) 8 in
      let* iocbp := kma gva in
      match iocbp with
      | None => ret None
      | Some p =>
          let* op := load p O_opcode 2 in
          let* buf := load p O_buf 8 in
          let* nbytes := load p O_nbytes 8 in
          let* b :=
            (if is_buffer op then let* k := kma buf in ret (match k with None => None | Some k => Some (Kma k) end)
             else if is_vector op || (op =? IOCB_CMD_FDSYNC) || (op =? IOCB_CMD_FSYNC) || (op =? IOCB_CMD_POLL) then ret (Some (Raw buf))
             else abort) in
          match b with
          | None => ret None
          | Some b =>
              let needed := if is_vector op then int32 (needed + nbytes) else needed in
              let* rest := copy_iocbs list (i + 1) n needed in
              ret (match rest with None => None | Some (k, l) => Some (k, mk_iocb op b nbytes :: l) end)
          end
      end
  end.
(** The second loop: [free] elements of the array are taken. *)
Fixpoint copy_vectors (l : list iocb) (free needed : Z) : M (hs W) (option (Z * list iocb)) :=
  match l with
  | [] => ret (Some (free, []))
  | c :: rest =>
      let* c' :=
        (match c.(aio_buf) with
         | Raw gva =>
             if is_vector c.(aio_lio_opcode) && (0 <? c.(aio_nbytes)) then
               let* buf := kma gva in
               match buf with
               | None => ret None
               | Some p =>
                   let* v := copy_iov p (needed - free) 0 (Z.to_nat c.(aio_nbytes)) in
                   ret (match v with None => None | Some v => Some (c.(aio_nbytes), mk_iocb c.(aio_lio_opcode) (Vec v) c.(aio_nbytes)) end)
               end
             else ret (Some (0, c))
         | _ => ret (Some (0, c))
         end) in
      match c' with
      | None => ret None
      | Some (k, c') =>
          let* r := copy_vectors rest (free + k) needed in
          ret (match r with None => None | Some (f, l) => Some (f, c' :: l) end)
      end
  end.
Fixpoint store_keys (list : Z) (i : Z) (n : nat) (out : Datatypes.list Z) : M (hs W) unit :=
  match n with
  | O => ret tt
  | S n =>
      let* gva := load list (8 * i) 8 in
      let* iocbp := kma gva in
      match iocbp with
      | None => abort
      | Some p => store p O_key 4 (nth (Z.to_nat i) out 0) ;;; store_keys list (i + 1) n out
      end
  end.
(** The negative result of a raw system call is replaced by the errno of some earlier call
    to the C library. *)
Definition stale_errno : M (hs W) Z := let* s := get in ret (- w_errno s.(hs_w)).
Definition SYS_io_submit : Z := 209.
(** The system call, the count of active requests, and the keys for the guest. *)
Definition io_submit_finish (list : Z) arg (kiocontext : Z) (iocbs : Datatypes.list iocb) : handler :=
  let* (n, keys) := call_out (Sys SYS_io_submit) [Val kiocontext; Val arg.(arg2); Iocbs iocbs] in
  let n := int32 n in
  let* r := (if 0 <=? n then modify (fun s => set_io_active (u32 (s.(hs_io_active) + n)) s) ;;; ret n else stale_errno) in
  store_keys list 0 (Z.to_nat arg.(arg2)) keys ;;; hc_return r.
Definition io_submit_hcall hc arg : handler :=
  on_stack ((SIZEOF_IOCB + 8) * arg.(arg2)) ;;;
  let* local_iocbpp := kma arg.(arg3) in
  match local_iocbpp with
  | None => efault
  | Some list =>
      let* (rv, out) := call_out Iocontext_xlate_p2k [Val arg.(arg1)] in
      if negb (rv =? 0) then hc_return (- rv)
      else
        let kiocontext := nth 0 out 0 in
        let* copied := copy_iocbs list 0 (Z.to_nat arg.(arg2)) 0 in
        match copied with
        | None => efault
        | Some (needed_iovecs, iocbs) =>
            km_assert (0 <=? needed_iovecs) ;;;
            on_stack (SIZEOF_IOVEC * needed_iovecs) ;;;
            let* translated :=
              (if 0 <? needed_iovecs then
                 let* r := copy_vectors iocbs 0 needed_iovecs in
                 match r with
                 | None => ret None
                 | Some (free, l) => km_assert (free =? needed_iovecs) ;;; ret (Some l)
                 end
               else ret (Some iocbs)) in
            match translated with
            | None => efault
            | Some iocbs => io_submit_finish list arg kiocontext iocbs
            end
        end
  end.
Definition SYS_io_cancel : Z := 210.
Definition io_cancel_hcall hc arg : handler :=
  let* iocbp := kma arg.(arg2) in
  let* resultp := kma arg.(arg3) in
  if null iocbp || null resultp then efault
  else
    let* (rv, out) := call_out Iocontext_xlate_p2k [Val arg.(arg1)] in
    if negb (rv =? 0) then hc_return (- rv)
    else
      let* rv := call (Sys SYS_io_cancel) [Val (nth 0 out 0); Ptr iocbp; Ptr resultp] in
      if 0 <=? int32 rv then modify (fun s => set_io_active (u32 (s.(hs_io_active) - 1)) s) ;;; hc_return 0
      else let* r := stale_errno in hc_return r.
Definition SYS_io_getevents : Z := 208.
Definition io_getevents_hcall hc arg : handler :=
  let* eventsp := kma arg.(arg4) in
  if null eventsp then efault
  else
    let* (rv, out) := call_out Iocontext_xlate_p2k [Val arg.(arg1)] in
    if negb (rv =? 0) then hc_return (- rv)
    else
      let* timeoutp := (if arg.(arg5) =? 0 then ret None else kma arg.(arg5)) in
      if bad timeoutp arg.(arg5) then efault
      else
        let* rv := call (Sys SYS_io_getevents) [Val (nth 0 out 0); Val arg.(arg2); Val arg.(arg3); Ptr eventsp; Ptr timeoutp] in
        let rv := int32 rv in
        if 0 <=? rv then modify (fun s => set_io_active (u32 (s.(hs_io_active) - rv)) s) ;;; hc_return rv
        else let* r := stale_errno in hc_return r.
End Handlers.
