(* ===== verification/HcallTable.v ===== *)
(** * Hypercalls: the table and the dispatch (km_hcalls.c, km_vcpu_run.c)

    [km_hcalls_table] and the function [hypercall] of the vcpu thread, which checks the
    port, fetches the arguments, runs the handler and notes whether it is to be restarted. *)
From S2P Require Import Prelude Machine MemGeom Stdio Notes Hcall HcallFns HcallMore HcallProc HcallMsg.

Definition KM_MAX_HCALL : Z := 512.
Definition KM_HCALL_PORT_BASE : Z := 0x8000.
Definition HC_guest_interrupt : Z := 509.
Definition HC_shrink : Z := 508.
Definition HC_unmapself : Z := 506.
Definition HC_snapshot : Z := 505.

Section Table.
  Context {W : Type} `{World W}.
#[local] Abbreviation handler := (Z -> km_hc_args_t -> M (hs W) km_hc_ret_t).

Definition km_hcalls_table : list (Z * handler) := [
  (158, arch_prctl_hcall); (60, exit_hcall); (231, exit_grp_hcall);
  (* read write readv writev pread64 pwrite64 preadv pwritev *)
  (0, prw_hcall); (1, prw_hcall); (19, prwv_hcall); (20, prwv_hcall); (17, prw_hcall); (18, prw_hcall); (295, prwv_hcall); (296, prwv_hcall);
  (43, accept_hcall); (42, connect_hcall); (53, socketpair_hcall); (49, bind_hcall); (50, listen_hcall); (41, socket_hcall); (55, getsockopt_hcall); (54, setsockopt_hcall);
  (* sendmsg recvmsg sendmmsg recvmmsg *)
  (46, sendrecvmsg_hcall); (47, sendrecvmsg_hcall); (307, sendrecvmmsg_hcall); (299, sendrecvmmsg_hcall);
  (40, sendfile_hcall); (326, copy_file_range_hcall); (16, ioctl_hcall); (72, fcntl_hcall); (4, stat_hcall); (6, lstat_hcall); (332, statx_hcall); (5, fstat_hcall);
  (280, utimensat_hcall); (78, getdents_hcall); (217, getdirents_hcall); (79, getcwd_hcall); (3, close_hcall); (48, shutdown_hcall); (12, brk_hcall); (202, futex_hcall);
  (9, mmap_hcall); (11, munmap_hcall); (25, mremap_hcall); (10, mprotect_hcall); (201, time_hcall); (96, gettimeofday_hcall);
  (* clock_gettime clock_getres clock_settime *)
  (228, clock_time_hcall); (229, clock_time_hcall); (227, clock_time_hcall); (28, madvise_hcall); (26, msync_hcall);
  (95, umask_hcall); (89, readlink_hcall); (267, readlinkat_hcall); (318, getrandom_hcall); (2, open_hcall); (257, openat_hcall); (8, lseek_hcall); (82, rename_hcall);
  (* link symlink *)
  (86, symlink_hcall); (88, symlink_hcall); (83, mkdir_hcall); (84, rmdir_hcall); (87, unlink_hcall); (263, unlinkat_hcall); (133, mknod_hcall);
  (* chown lchown *)
  (92, chown_hcall); (94, chown_hcall); (93, fchown_hcall); (90, chmod_hcall); (91, fchmod_hcall); (80, chdir_hcall); (81, fchdir_hcall); (76, truncate_hcall); (77, ftruncate_hcall);
  (74, fsync_hcall); (75, fdatasync_hcall); (23, select_hcall); (270, pselect6_hcall); (34, pause_hcall); (44, sendto_hcall); (35, nanosleep_hcall); (230, clock_nanosleep_hcall);
  (* getsockname getpeername *)
  (51, get_sock_peer_name_hcall); (52, get_sock_peer_name_hcall); (7, poll_hcall); (271, ppoll_hcall); (288, accept4_hcall); (45, recvfrom_hcall);
  (* epoll_create1 epoll_create *)
  (291, epoll1_create_hcall); (213, epoll1_create_hcall); (233, epoll_ctl_hcall); (232, epoll_wait_hcall); (281, epoll_pwait_hcall); (21, access_hcall); (269, faccessat_hcall);
  (32, dup_hcall); (33, dup2_hcall); (292, dup3_hcall); (22, pipe_hcall); (293, pipe2_hcall); (290, eventfd2_hcall); (302, prlimit64_hcall);
  (14, rt_sigprocmask_hcall); (13, rt_sigaction_hcall); (15, rt_sigreturn_hcall); (127, rt_sigpending_hcall); (128, rt_sigtimedwait); (130, rt_sigsuspend_hcall); (131, sigaltstack_hcall);
  (62, kill_hcall); (200, tkill_hcall); (234, tgkill_hcall); (39, getpid_hcall); (110, getppid_hcall); (186, gettid_hcall); (98, getrusage_hcall);
  (* geteuid getuid getegid getgid setuid setgid *)
  (107, getXXid_hcall); (102, getXXid_hcall); (108, getXXid_hcall); (104, getXXid_hcall); (105, setXid_hcall); (106, setXid_hcall);
  (115, get_set_groups_hcall); (116, get_set_groups_hcall); (112, setsid_hcall); (124, getsid_hcall); (109, setpgid_hcall); (121, getpgid_hcall);
  (* sched_yield setpriority sched_getaffinity sched_setaffinity prctl *)
  (24, sched_yield_hcall); (141, dummy_hcall); (204, sched_getaffinity_hcall); (203, sched_setaffinity_hcall); (157, dummy_hcall);
  (* clone clone3 set_tid_address membarrier getcpu sysinfo *)
  (56, clone_hcall); (435, clone3_hcall); (218, set_tid_address_hcall); (324, dummy_hcall); (309, getcpu_hcall); (99, sysinfo_hcall);
  (* execve execveat fork vfork wait4 waitid times getpgrp *)
  (59, execve_hcall); (322, execveat_hcall); (57, fork_hcall); (58, fork_hcall); (61, wait4_hcall); (247, waitid_hcall); (100, times_hcall); (111, getpgrp_hcall);
  (* set_robust_list get_robust_list mbind flock uname *)
  (273, dummy_hcall); (274, dummy_hcall); (237, dummy_hcall); (73, flock_hcall); (63, uname_hcall);
  (38, setitimer_hcall); (36, getitimer_hcall); (137, statfs_hcall); (138, fstatfs_hcall); (283, timerfd_create_hcall); (286, timerfd_settime_hcall); (287, timerfd_gettime_hcall);
  (259, mknodat_hcall); (262, newfstatat_hcall); (253, inotify_init_hcall); (294, inotify_init1_hcall); (149, mlock_hcall);
  (206, io_setup_hcall); (209, io_submit_hcall); (210, io_cancel_hcall); (208, io_getevents_hcall); (207, io_destroy_hcall); (334, rseq_hcall);
  (HC_guest_interrupt, guest_interrupt_hcall); (HC_unmapself, unmapself_hcall); (HC_snapshot, snapshot_hcall); (HC_shrink, shrink_payload_hcall)].

Fixpoint find_handler (hc : Z) (l : list (Z * handler)) : option handler :=
  match l with [] => None | (n, h) :: l => if n =? hc then Some h else find_handler hc l end.
Definition hcall_fn (hc : Z) : option handler := find_handler hc km_hcalls_table.

(** ** Dispatch *)
(** The exit of the vcpu, and the state a restart keeps.  [vi_interrupted]: a signal came
    while the handler waited (state HCALL_INT). *)
Record io_exit := mk_io { io_port : Z; io_size : Z; io_out : bool }.
Record vcpu_hc := mk_vhc { vh_restart : bool; vh_hypercall : Z; vh_hcargs : Z; vh_interrupted : bool }.
Definition set_restart (b : bool) (v : vcpu_hc) : vcpu_hc := mk_vhc b v.(vh_hypercall) v.(vh_hcargs) v.(vh_interrupted).
Definition set_hypercall (n : Z) (v : vcpu_hc) : vcpu_hc := mk_vhc v.(vh_restart) n v.(vh_hcargs) v.(vh_interrupted).
(** What becomes of the exit: a signal is posted, or the handler has returned. *)
Inductive dispatched := Signalled (signo : Z) | Handled (r : km_hc_ret_t).
Definition SIGBUS : Z := 7.
Definition SIGSEGV : Z := 11.
Definition SIGSYS : Z := 31.
Definition EINTR : Z := 4.
Definition SIZEOF_HC_ARGS : Z := 56.

Definition load_args (p : Z) : M (hs W) km_hc_args_t :=
  let* r := load p 0 8 in let* a1 := load p 8 8 in let* a2 := load p 16 8 in let* a3 := load p 24 8 in
  let* a4 := load p 32 8 in let* a5 := load p 40 8 in let* a6 := load p 48 8 in ret (mk_args r a1 a2 a3 a4 a5 a6).

(** From the fetch of the arguments on. *)
Definition run_hypercall (hc : Z) (v : vcpu_hc) : M (hs W) (dispatched * vcpu_hc) :=
  let ga := v.(vh_hcargs) in
  let* ga_kma := kma ga in
  match ga_kma with
  | None => ret (Signalled SIGSEGV, v)
  | Some p =>
      let* last := kma (u64 (ga + SIZEOF_HC_ARGS - 1)) in
      if null last then ret (Signalled SIGSEGV, v)
      else
        let* arg := load_args p in
        modify (set_ret arg.(hc_ret)) ;;;
        km_assert (hc <? KM_MAX_HCALL) ;;;
        match hcall_fn hc with
        | Some fn =>
            let* r := fn hc arg in
            let* s := get in
            store p 0 8 s.(hs_ret) ;;;
            ret (Handled r, set_restart ((s.(hs_ret) =? u64 (- EINTR)) && v.(vh_interrupted)) v)
        | None => store p 0 8 (u64 (- ENOTSUP)) ;;; modify (set_ret (u64 (- ENOTSUP))) ;;; ret (Handled HC_CONTINUE, v)
        end
  end.
Definition hypercall (kill_unimpl_hcall : bool) (r : io_exit) (v : vcpu_hc) : M (hs W) (dispatched * vcpu_hc) :=
  if v.(vh_restart) then run_hypercall v.(vh_hypercall) (set_restart false v)
  else
    let hc := (r.(io_port) - KM_HCALL_PORT_BASE) mod 2 ^ 16 in
    if negb (r.(io_out) && (r.(io_size) =? 4) && (hc <? KM_MAX_HCALL)) then ret (Signalled SIGBUS, v)
    else if kill_unimpl_hcall && match hcall_fn hc with None => true | Some _ => false end then ret (Signalled SIGSYS, v)
    else run_hypercall hc (set_hypercall hc v).
End Table.
