(* ===== verification/HcallProps.v ===== *)
(** * Hypercalls use translated addresses only (proofs)

    Every address a handler passes on, or loads from or stores to itself, is NULL or the
    result of km_gva_to_kma earlier in the same hypercall, and no plain number is passed
    where an address belongs.  The ways around it that are left are spelled out: fields
    that go with a length of 0, and vectors whose elements number 2^32 or more. *)
From S2P Require Import Prelude Machine MemGeom Stdio Notes Hcall HcallFns HcallMore HcallProc HcallMsg HcallTable.

(** ** What a trace must be *)
Definition translated (t : list event) (k : Z) : Prop := exists m gva, E_kma m gva ∈ t /\ km_gva_to_kma m gva = Some k.
Definition ptr_ok (t : list event) (p : option Z) : Prop := match p with Some k => translated t k | None => True end.
Definition iov_ok (t : list event) (v : iovec) : Prop := 0 < v.(iov_len) -> exists k, v.(iov_base) = Some k /\ translated t k.
Definition msg_ok (t : list event) (m : msghdr) : Prop :=
  ptr_ok t m.(msg_name) /\ Forall (iov_ok t) m.(msg_iov) /\ (0 < m.(msg_controllen) -> m.(msg_control) = 0 \/ translated t m.(msg_control)).
Definition iocb_ok (t : list event) (c : iocb) : Prop :=
  match c.(aio_buf) with
  | Kma k => translated t k
  | Vec l => Forall (iov_ok t) l
  | Raw _ => is_buffer c.(aio_lio_opcode) = false /\ (is_vector c.(aio_lio_opcode) = true -> c.(aio_nbytes) <= 0)
  end.
(** The elements of all vectors of a submission. *)
Definition elements (l : list iocb) : Z := foldr (fun c n => (if is_vector c.(aio_lio_opcode) then c.(aio_nbytes) else 0) + n) 0 l.
Definition arg_ok (t : list event) (a : hcarg) : Prop :=
  match a with
  | Val _ | Own _ => True
  | Ptr p => ptr_ok t p
  | Msg m => msg_ok t m
  | Mmsg l => Forall (msg_ok t) l
  | Iocbs l => Forall (iocb_ok t) l \/ 2 ^ 32 <= elements l
  end.

(** Which arguments of a system call are addresses, from its manual page; the timeout of
    futex is one for the operations that wait. *)
Definition sys_addresses : list (Z * list nat) :=
  [(35, [0; 1]%nat); (36, [1]%nat); (38, [1; 2]%nat); (61, [1; 3]%nat); (63, [0]%nat); (96, [0; 1]%nat); (98, [1]%nat); (99, [0]%nat); (100, [0]%nat);
   (115, [1]%nat); (116, [1]%nat); (202, [0; 4]%nat); (203, [2]%nat); (204, [2]%nat); (208, [3; 4]%nat); (209, [2]%nat); (210, [1; 2]%nat);
   (227, [1]%nat); (228, [1]%nat); (229, [1]%nat); (230, [2; 3]%nat); (247, [2]%nat); (257, [1]%nat); (259, [1]%nat); (262, [1; 2]%nat);
   (286, [2; 3]%nat); (287, [1]%nat); (318, [0]%nat)].
Definition futex_timed (args : list hcarg) : bool :=
  match args with
  | _ :: Val op :: _ => bool_decide (Z.land op 127 ∈ [0; 6; 9; 11])
  | _ => false
  end.
Definition sys_address_args (nr : Z) (args : list hcarg) : list nat :=
  (if (nr =? 202) && futex_timed args then [3%nat] else []) ++ default [] (snd <$> find (fun e => e.1 =? nr) sys_addresses).
(** The parameters of the monitor's functions that have a pointer type. *)
Definition address_args (c : callee) (args : list hcarg) : list nat :=
  match c with
  | Sys nr | Libc nr => sys_address_args nr args
  | Fs_prw | Fs_prwv | Fs_sendrecvmsg | Fs_sendfile | Fs_ioctl => [2]
  | Fs_accept | Fs_accept4 => [1; 2]
  | Fs_socketpair | Fs_setsockopt | Fs_epoll_ctl => [3]
  | Fs_getsockopt => [3; 4]
  | Fs_sendrecvmmsg => [2; 5]
  | Fs_copy_file_range => [1; 3]
  | Fs_stat | Fs_lstat | Fs_readlink | Fs_symlink | Fs_link | Fs_rename | Fs_statfs | Sigaltstack => [0; 1]
  | Fs_statx => [1; 4]
  | Fs_connect | Fs_bind | Fs_fstat | Fs_getdents | Fs_getdents64 | Fs_openat | Fs_faccessat | Fs_unlinkat | Fs_fstatfs | Fs_epoll_wait | Fs_at | Iocontext_add => [1]
  | Fs_getcwd | Fs_open | Fs_chdir | Fs_truncate | Fs_mkdir | Fs_rmdir | Fs_access | Fs_poll | Fs_pipe | Fs_pipe2 | Fs_unlink | Fs_mknod | Fs_chown | Fs_lchown
  | Fs_chmod | Rt_sigpending | Rt_sigsuspend | Clone3 => [0]
  | Fs_readlinkat | Fs_utimensat | Rt_sigprocmask | Rt_sigaction => [1; 2]
  | Fs_pselect6 => [1; 2; 3; 4; 5]
  | Fs_select => [1; 2; 3; 4]
  | Fs_sendto | Fs_epoll_pwait => [1; 4]
  | Fs_get_sock_peer_name | Fs_prlimit64 => [2; 3]
  | Fs_ppoll => [0; 2; 3]
  | Fs_recvfrom => [1; 4; 5]
  | Rt_sigtimedwait | Snapshot_create | Do_exec => [0; 1; 2]
  | _ => []
  end%nat.
(** No plain number stands where an address belongs. *)
Definition no_number (c : callee) (args : list hcarg) : bool :=
  forallb (fun i => match args !! i with Some (Val _) | None => false | Some _ => true end) (address_args c args).
Definition event_ok (t : list event) (e : event) : Prop :=
  match e with
  | E_kma _ _ => True
  | E_call c args => Forall (arg_ok t) args /\ no_number c args = true
  | E_load base _ _ | E_store base _ _ => translated t base
  end.
Fixpoint checked (t : list event) : Prop := match t with [] => True | e :: t => event_ok t e /\ checked t end.

(** ** Rules: what holds of the trace after a computation that returns *)
Section Rules.
  Context {W : Type} `{World W}.

Definition tr {A} (c : M (hs W) A) (t : list event) (Q : A -> list event -> Prop) : Prop :=
  forall s, s.(hs_trace) = t -> match c s with Ret (a, s') => Q a s'.(hs_trace) | _ => True end.

Lemma tr_bind {A B} (c : M (hs W) A) (k : A -> M (hs W) B) t Q : tr c t (fun a t' => tr (k a) t' Q) -> tr (bind c k) t Q.
Proof. intros Hc s Hs. specialize (Hc s Hs). unfold bind. destruct (c s) as [[a s']| |]; [|done|done]. by apply Hc. Qed.
Lemma tr_ret {A} (a : A) t (Q : A -> list event -> Prop) : Q a t -> tr (ret a) t Q.
Proof. intros HQ s <-. exact HQ. Qed.
Lemma tr_get t (Q : hs W -> list event -> Prop) : (forall s, Q s t) -> tr get t Q.
Proof. intros HQ s <-. apply HQ. Qed.
Lemma tr_modify (f : hs W -> hs W) t (Q : unit -> list event -> Prop) : (forall s, (f s).(hs_trace) = s.(hs_trace)) -> Q tt t -> tr (modify f) t Q.
Proof. intros Hf HQ s <-. cbn. by rewrite Hf. Qed.
Lemma tr_abort {A} t (Q : A -> list event -> Prop) : tr abort t Q.
Proof. by intros s _. Qed.
Lemma tr_assert (b : bool) t (Q : unit -> list event -> Prop) : (b = true -> Q tt t) -> tr (km_assert b) t Q.
Proof. intros HQ s <-. destruct b; [|done]. by apply HQ. Qed.
Lemma tr_kma gva t (Q : option Z -> list event -> Prop) : (forall m, Q (km_gva_to_kma m gva) (E_kma m gva :: t)) -> tr (kma gva) t Q.
Proof. intros HQ s <-. apply HQ. Qed.
Lemma tr_load base off n t (Q : Z -> list event -> Prop) : (forall v, Q v (E_load base off (Z.of_nat n) :: t)) -> tr (load base off n) t Q.
Proof. intros HQ s <-. apply HQ. Qed.
Lemma tr_store base off n v t (Q : unit -> list event -> Prop) : Q tt (E_store base off (Z.of_nat n) :: t) -> tr (store base off n v) t Q.
Proof. intros HQ s <-. exact HQ. Qed.
Lemma tr_call_out c args t (Q : Z * list Z -> list event -> Prop) : (forall r, Q r (E_call c args :: t)) -> tr (call_out c args) t Q.
Proof. intros HQ s <-. unfold call_out. destruct (w_run c args _) as [[r w]| |]; [apply HQ|done|done]. Qed.
Lemma tr_call c args t (Q : Z -> list event -> Prop) : (forall r, Q r (E_call c args :: t)) -> tr (call c args) t Q.
Proof. intros HQ. unfold call. apply tr_bind, tr_call_out. intros [r o]. apply tr_ret, HQ. Qed.
Lemma tr_mono {A} (c : M (hs W) A) t (Q Q' : A -> list event -> Prop) : tr c t Q -> (forall a t', Q a t' -> Q' a t') -> tr c t Q'.
Proof. intros Hc HQ s Hs. specialize (Hc s Hs). destruct (c s) as [[a s']| |]; auto. Qed.
Lemma tr_on_stack n t (Q : unit -> list event -> Prop) : Q tt t -> tr (on_stack n) t Q.
Proof. intros HQ. unfold on_stack. apply tr_bind, tr_get. intros s. apply tr_assert. done. Qed.
Lemma tr_hc_return r t (Q : km_hc_ret_t -> list event -> Prop) : Q HC_CONTINUE t -> tr (hc_return r) t Q.
Proof. intros HQ. unfold hc_return. apply tr_bind, tr_modify; [done|]. by apply tr_ret. Qed.
Lemma tr_efault t (Q : km_hc_ret_t -> list event -> Prop) : Q HC_CONTINUE t -> tr efault t Q.
Proof. apply tr_hc_return. Qed.
Lemma tr_pass c args t (Q : km_hc_ret_t -> list event -> Prop) : Q HC_CONTINUE (E_call c args :: t) -> tr (pass c args) t Q.
Proof. intros HQ. unfold pass. apply tr_bind, tr_call. intros r. by apply tr_hc_return. Qed.
End Rules.

(** ** Facts on traces *)
Lemma translated_here m gva k t : km_gva_to_kma m gva = Some k -> translated (E_kma m gva :: t) k.
Proof. intros E. exists m, gva. split; [apply elem_of_cons; by left|done]. Qed.
Lemma translated_cons e t k : translated t k -> translated (e :: t) k.
Proof. intros (m & gva & Hin & E). exists m, gva. split; [apply elem_of_cons; by right|done]. Qed.
Lemma translated_sub t t' k : t ⊆ t' -> translated t k -> translated t' k.
Proof. intros Hs (m & gva & Hin & E). exists m, gva. split; [by apply Hs|done]. Qed.
Lemma iov_sub t t' v : t ⊆ t' -> iov_ok t v -> iov_ok t' v.
Proof. intros Hs Hv Hl. destruct (Hv Hl) as (k & E & Hk). exists k. split; [done|]. by eapply translated_sub. Qed.
Lemma msg_sub t t' m : t ⊆ t' -> msg_ok t m -> msg_ok t' m.
Proof.
  intros Hs (H1 & H2 & H3). split_and!.
  - unfold ptr_ok in *. destruct (msg_name m); [by eapply translated_sub|done].
  - eapply Forall_impl; [exact H2|]. intros v. by apply iov_sub.
  - intros Hc. destruct (H3 Hc) as [?|?]; [by left|right; by eapply translated_sub].
Qed.
Lemma iocb_sub t t' c : t ⊆ t' -> iocb_ok t c -> iocb_ok t' c.
Proof.
  intros Hs. unfold iocb_ok. destruct (aio_buf c); [done|by apply translated_sub|]. intros Hl. eapply Forall_impl; [exact Hl|]. intros v. by apply iov_sub.
Qed.
Lemma sub_refl (t : list event) : t ⊆ t.
Proof. done. Qed.
Lemma sub_cons (e : event) t t' : t ⊆ t' -> t ⊆ e :: t'.
Proof. intros Hs x Hx. apply elem_of_cons. right. by apply Hs. Qed.
Lemma checked_kma m gva t : checked t -> checked (E_kma m gva :: t).
Proof. by split. Qed.
(** The trace grows and stays as it must be. *)
Definition grows (t t' : list event) : Prop := checked t' /\ t ⊆ t'.
Lemma grows_refl t : checked t -> grows t t.
Proof. by split. Qed.
Lemma grows_trans t1 t2 t3 : grows t1 t2 -> grows t2 t3 -> grows t1 t3.
Proof. intros [_ H1] [H2 H3]. split; [done|]. by intros x Hx; apply H3, H1. Qed.
Lemma grows_event e t : checked t -> event_ok t e -> grows t (e :: t).
Proof. intros Ht He. split; [by split|]. by apply sub_cons. Qed.

Create HintDb hc.
#[export] Hint Resolve translated_here translated_cons checked_kma sub_refl sub_cons : hc.

(** [hc_steps] runs a handler; what is left is about the trace. *)
Ltac hc_ptr := first [exact Logic.I | assumption | solve [eauto 12 with hc]].
Ltac hc_args := repeat (first [apply Forall_nil_2 | apply Forall_cons_2]); cbn [arg_ok ptr_ok Int Uint]; try hc_ptr; try (by case_match).
Ltac hc_leaf :=
  unfold grows; cbn [checked event_ok Int Uint] in *; split_and?;
  try (lazymatch goal with |- no_number _ _ = true => reflexivity end); try hc_ptr; try (by hc_args).
Ltac hc_step :=
  lazymatch goal with
  | |- tr (bind _ _) _ _ => apply tr_bind
  | |- tr (ret _) _ _ => apply tr_ret
  | |- tr (kma ?g) _ _ => apply tr_kma; let m := fresh "m" in intros m; let E := fresh "E" in destruct (km_gva_to_kma m g) eqn:E
  | |- tr (load _ _ _) _ _ => apply tr_load; intros ?
  | |- tr (store _ _ _ _) _ _ => apply tr_store
  | |- tr (call_out _ _) _ _ => apply tr_call_out; intros [? ?]
  | |- tr (call _ _) _ _ => apply tr_call; intros ?
  | |- tr (pass _ _) _ _ => apply tr_pass
  | |- tr efault _ _ => apply tr_efault
  | |- tr (hc_return _) _ _ => apply tr_hc_return
  | |- tr get _ _ => apply tr_get; intros ?
  | |- tr (modify _) _ _ => apply tr_modify; [done|]
  | |- tr abort _ _ => apply tr_abort
  | |- tr (km_assert _) _ _ => apply tr_assert; intros ?
  | |- tr (on_stack _) _ _ => apply tr_on_stack
  | |- tr (if ?b then _ else _) _ _ => let E := fresh "E" in destruct b eqn:E
  | |- tr (match ?x with Some _ => _ | None => _ end) _ _ => let E := fresh "E" in destruct x eqn:E
  end; cbv beta; cbn [null bad orb andb negb] in *.
Ltac hc_steps := cbn [null bad orb andb negb]; repeat hc_step.

Section Handlers.
  Context {W : Type} `{World W}.

(** The handler [h] of hypercall [hc]. *)
Definition tame_at (hc : Z) (h : Z -> km_hc_args_t -> M (hs W) km_hc_ret_t) : Prop := forall arg t, checked t -> tr (h hc arg) t (fun _ t' => grows t t').
Definition tame (h : Z -> km_hc_args_t -> M (hs W) km_hc_ret_t) : Prop := forall hc, tame_at hc h.

(** ** Loops and structures *)
Lemma load_bytes_trace base off n t : translated t base -> checked t -> tr (load_bytes base off n) t (fun _ t' => grows t t').
Proof.
  revert off t. induction n as [|n IH]; intros off t Hb Ht; cbn [load_bytes]; [by apply tr_ret, grows_refl|]. apply tr_bind, tr_load. intros v.
  apply tr_bind. eapply tr_mono; [apply IH; [by apply translated_cons|by split]|]. intros l t' Hg. apply tr_ret. eapply grows_trans; [|exact Hg]. by apply grows_event.
Qed.
Lemma store_bytes_trace base off l t : translated t base -> checked t -> tr (store_bytes base off l) t (fun _ t' => grows t t').
Proof.
  revert off t. induction l as [|b l IH]; intros off t Hb Ht; cbn [store_bytes]; [by apply tr_ret, grows_refl|]. apply tr_bind, tr_store.
  eapply tr_mono; [apply IH; [by apply translated_cons|by split]|]. intros [] t' Hg. eapply grows_trans; [|exact Hg]. by apply grows_event.
Qed.
Lemma copy_iov_trace iov room i n t :
  translated t iov -> checked t ->
  tr (copy_iov iov room i n) t (fun r t' => grows t t' /\ match r with Some l => Forall (iov_ok t') l /\ length l = n | None => True end).
Proof.
  revert i t. induction n as [|n IH]; intros i t Hb Ht; cbn [copy_iov]; [apply tr_ret; split; [by apply grows_refl|by split; [constructor|]]|].
  apply tr_bind, tr_assert. intros _. apply tr_bind, tr_load. intros len. set (t1 := E_load _ _ _ :: t).
  assert (G1 : grows t t1) by (by apply grows_event). assert (Hb1 : translated t1 iov) by (by apply translated_cons).
  apply tr_bind. apply (tr_mono _ _ (fun r t' => grows t1 t' /\ match r with Some v => iov_ok t' v | None => True end)).
  { destruct (Z.ltb_spec 0 len) as [Hl|Hl].
    - apply tr_bind, tr_load. intros base. apply tr_bind, tr_kma. intros m. set (t2 := E_kma m base :: _). assert (G2 : grows t1 t2) by (unfold t2; split; [by split; [|split; [|apply G1]]|by apply sub_cons, sub_cons]).
      destruct (km_gva_to_kma m base) as [k|] eqn:E; apply tr_ret; (split; [exact G2|]); [|done]. intros _. exists k. split; [done|]. by apply translated_here.
    - apply tr_ret. split; [by apply grows_refl; destruct G1|]. unfold iov_ok. cbn. lia. }
  intros [v|] t2 [G2 Hv]; [|apply tr_ret; split; [by eapply grows_trans|done]]. assert (Hb2 : translated t2 iov) by (eapply translated_sub; [apply G2|done]).
  apply tr_bind. eapply tr_mono; [apply IH; [exact Hb2|apply G2]|]. intros r t3 [G3 Hr]. apply tr_ret. split; [by eapply grows_trans; [|eapply grows_trans]|].
  destruct r as [l|]; [|done]. destruct Hr as [Hl <-]. split; [|done]. apply Forall_cons_2; [|done]. eapply iov_sub; [apply G3|done].
Qed.
Lemma copy_ptr_trace gva t : checked t -> tr (copy_ptr gva) t (fun r t' => grows t t' /\ match r with Some p => ptr_ok t' p | None => True end).
Proof.
  intros Ht. unfold copy_ptr. destruct (gva =? 0); [apply tr_ret; by split; [apply grows_refl|]|]. apply tr_bind, tr_kma. intros m.
  destruct (km_gva_to_kma m gva) as [k|] eqn:E; apply tr_ret; (split; [by apply grows_event|]); [by apply translated_here|done].
Qed.

(** The rules with what is needed and given. *)
Lemma translated_grows t t' k : grows t t' -> translated t k -> translated t' k.
Proof. intros [_ Hs]. by apply translated_sub. Qed.
Lemma ptr_grows t t' p : grows t t' -> ptr_ok t p -> ptr_ok t' p.
Proof. intros [_ Hs]. unfold ptr_ok. destruct p; [by apply translated_sub|done]. Qed.
Lemma load_ok base off n t (Q : Z -> list event -> Prop) : translated t base -> checked t -> (forall v t', grows t t' -> Q v t') -> tr (load base off n) t Q.
Proof. intros Hb Ht HQ. apply tr_load. intros v. apply HQ. by apply grows_event. Qed.
Lemma kma_ok gva t (Q : option Z -> list event -> Prop) : checked t -> (forall p t', grows t t' -> ptr_ok t' p -> Q p t') -> tr (kma gva) t Q.
Proof. intros Ht HQ. apply tr_kma. intros m. apply HQ; [by apply grows_event|]. destruct (km_gva_to_kma m gva) eqn:E; [by apply translated_here|done]. Qed.
Lemma store_ok base off n v t (Q : unit -> list event -> Prop) : translated t base -> checked t -> (forall t', grows t t' -> Q tt t') -> tr (store base off n v) t Q.
Proof. intros Hb Ht HQ. apply tr_store, HQ. by apply grows_event. Qed.
Lemma call_ok c args t (Q : Z * list Z -> list event -> Prop) :
  no_number c args = true -> Forall (arg_ok t) args -> checked t -> (forall r t', grows t t' -> Q r t') -> tr (call_out c args) t Q.
Proof. intros Hn Hb Ht HQ. apply tr_call_out. intros r. apply HQ. by apply grows_event. Qed.

(** Walks back along the growth of the trace. *)
Ltac lift :=
  cbv beta in *; first [assumption
    | lazymatch goal with
      | |- grows ?a ?b => match goal with G : grows ?c b |- _ => apply (grows_trans a c b); [lift|exact G] end
      | |- translated ?b ?k => match goal with G : grows ?c b |- _ => apply (translated_grows c b k G); lift end
      | |- ptr_ok ?b ?p => match goal with G : grows ?c b |- _ => apply (ptr_grows c b p G); lift end
      end].

Lemma store_fields_trace mk (c : bool) a b d t :
  translated t mk -> checked t ->
  tr (if c then store mk O_namelen 4 a ;;; store mk O_controllen 8 b ;;; store mk O_flags 4 d else ret tt) t (fun _ t' => grows t t').
Proof.
  intros Hm Ht. destruct c; [|by apply tr_ret, grows_refl]. apply tr_bind, store_ok; [done..|]. intros t1 G1. apply tr_bind, store_ok; [lift|apply G1|]. intros t2 G2.
  apply store_ok; [lift|apply G2|]. intros t3 G3. lift.
Qed.

(** The vector of a message. *)
Lemma vector_trace iov n room t :
  checked t ->
  tr (copy_vector iov n room) t
    (fun r t' => grows t t' /\ match r with Some l => Forall (iov_ok t') l | None => True end).
Proof.
  intros Ht. unfold copy_vector. apply tr_bind. destruct (0 <? n); cbn [andb].
  - apply kma_ok; [done|]. intros [p|] t1 G1 Hp; cbn [null]; [|by apply tr_ret].
    eapply tr_mono; [apply copy_iov_trace; [exact Hp|apply G1]|]. intros r t2 [G2 Hr]. split; [by eapply grows_trans|]. destruct r; [apply Hr|done].
  - apply tr_ret, tr_ret. split; [by apply grows_refl|constructor].
Qed.

Lemma sendrecvmsg_tame : tame sendrecvmsg_hcall.
Proof.
  intros hc arg t Ht. unfold sendrecvmsg_hcall. apply tr_bind, kma_ok; [done|]. intros [mk|] t1 G1 Hk; [|apply tr_efault; lift]. cbn [ptr_ok] in Hk.
  apply tr_bind, load_ok; [done|apply G1|]. intros name t2 G2. apply tr_bind. eapply tr_mono; [apply copy_ptr_trace, G2|]. intros [pn|] t3 [G3 Hn]; [|apply tr_efault; lift].
  assert (K3 : translated t3 mk) by lift.
  apply tr_bind, load_ok; [done|apply G3|]. intros nl t4 G4. apply tr_bind, load_ok; [lift|apply G4|]. intros il t5 G5. apply tr_bind, tr_on_stack.
  apply tr_bind, load_ok; [lift|apply G5|]. intros iov t6 G6. apply tr_bind. eapply tr_mono; [apply vector_trace, G6|]. intros [vec|] t7 [G7 Hv]; [|apply tr_efault; lift].
  assert (K7 : translated t7 mk) by lift. assert (N7 : ptr_ok t7 pn) by lift.
  apply tr_bind, load_ok; [done|apply G7|]. intros ctl t8 G8. apply tr_bind, load_ok; [lift|apply G8|]. intros cl t9 G9. apply tr_bind.
  apply (tr_mono _ _ (fun r t' => grows t9 t' /\ match r with Some k => 0 < cl -> translated t' k | None => True end)).
  { destruct (Z.ltb_spec 0 cl); [|apply tr_ret; split; [apply grows_refl, G9|lia]]. apply kma_ok; [apply G9|]. intros [k|] t' G' Hk'; by split. }
  intros [ck|] t10 [G10 Hc]; [|apply tr_efault; lift]. assert (K10 : translated t10 mk) by lift. apply tr_bind, load_ok; [done|apply G10|]. intros fl t11 G11.
  apply tr_bind, call_ok; [reflexivity| |apply G11|].
  - repeat (apply Forall_cons_2; [try exact Logic.I|]); [|constructor]. cbn. split_and!; [lift| |intros Hl; right; apply (translated_grows t10); [done|by apply Hc]].
    eapply Forall_impl; [exact Hv|]. intros v. apply iov_sub. by apply (grows_trans t7 t9 t11); [apply (grows_trans t7 t8 t9)|apply (grows_trans t9 t10 t11)].
  - intros [r out] t12 G12. apply tr_bind. eapply tr_mono; [apply store_fields_trace; [lift|apply G12]|]. intros [] t13 G13. apply tr_hc_return. lift.
Qed.

(** ** Several messages *)
Lemma copyin_trace guest off iovs t :
  translated t guest -> checked t ->
  tr (copyin_msghdr guest off iovs) t (fun r t' => grows t t' /\ match r with inr m => msg_ok t' m | inl _ => True end).
Proof.
  intros Hg Ht. unfold copyin_msghdr. apply tr_bind, load_ok; [done..|]. intros name t2 G2. apply tr_bind. eapply tr_mono; [apply copy_ptr_trace, G2|].
  intros [pn|] t3 [G3 Hn]; [|apply tr_ret; split; [lift|done]]. assert (G3' : grows t t3) by lift. assert (K3 : translated t3 guest) by lift.
  apply tr_bind, load_ok; [done|apply G3|]. intros nl t4 G4. apply tr_bind, load_ok; [lift|apply G4|]. intros il t5 G5. assert (G5' : grows t t5) by lift.
  destruct (UIO_MAXIOV <=? il); [by apply tr_ret|]. apply tr_bind, load_ok; [lift|apply G5|]. intros iov t6 G6. apply tr_bind. eapply tr_mono; [apply vector_trace, G6|].
  intros [vec|] t7 [G7 Hv]; (assert (G7' : grows t t7) by lift); [|by apply tr_ret]. apply tr_bind, load_ok; [lift|apply G7|]. intros ctl t8 G8.
  apply tr_bind. eapply tr_mono; [apply copy_ptr_trace, G8|]. intros [ck|] t9 [G9 Hc]; (assert (G9' : grows t t9) by lift); [|by apply tr_ret].
  apply tr_bind, load_ok; [lift|apply G9|]. intros cl t10 G10. apply tr_bind, load_ok; [lift|apply G10|]. intros fl t11 G11. apply tr_ret. split; [lift|].
  assert (G711 : grows t7 t11) by lift. assert (G311 : grows t3 t11) by lift. assert (G911 : grows t9 t11) by lift. cbn. split_and!; [lift| |].
  - eapply Forall_impl; [exact Hv|]. intros v. apply iov_sub, G711.
  - intros _. destruct ck as [k|]; [right; by apply (translated_grows t9)|by left].
Qed.
Lemma count_trace guest i n c t : translated t guest -> checked t -> tr (count_iovecs guest i n c) t (fun _ t' => grows t t').
Proof.
  revert i c t. induction n as [|n IH]; intros i c t Hg Ht; cbn [count_iovecs]; [by apply tr_ret, grows_refl|]. apply tr_bind, load_ok; [done..|]. intros l t1 G1.
  eapply tr_mono; [apply IH; [lift|apply G1]|]. intros r t2 G2. lift.
Qed.
Lemma copy_messages_trace guest i n a c t :
  translated t guest -> checked t ->
  tr (copy_messages guest i n a c) t (fun r t' => grows t t' /\ match r with inr l => Forall (msg_ok t') l | inl _ => True end).
Proof.
  revert i c t. induction n as [|n IH]; intros i c t Hg Ht; cbn [copy_messages]; [apply tr_ret; split; [by apply grows_refl|constructor]|].
  apply tr_bind, tr_assert. intros _. apply tr_bind. eapply tr_mono; [by apply copyin_trace|]. intros [rc|m] t1 [G1 Hm]; [by apply tr_ret|].
  apply tr_bind. eapply tr_mono; [apply IH; [lift|apply G1]|]. intros r t2 [G2 Hr]. apply tr_ret. split; [lift|]. destruct r as [rc|l]; [done|]. apply Forall_cons_2; [|done].
  by eapply msg_sub; [apply G2|].
Qed.
Lemma store_lens_trace guest i n out t : translated t guest -> checked t -> tr (store_msg_lens guest i n out) t (fun _ t' => grows t t').
Proof.
  revert i t. induction n as [|n IH]; intros i t Hg Ht; cbn [store_msg_lens]; [by apply tr_ret, grows_refl|]. apply tr_bind, store_ok; [done..|]. intros t1 G1.
  eapply tr_mono; [apply IH; [lift|apply G1]|]. intros [] t2 G2. lift.
Qed.
Lemma sendrecvmmsg_tame : tame sendrecvmmsg_hcall.
Proof.
  intros hc arg t Ht. unfold sendrecvmmsg_hcall. apply tr_bind. apply (tr_mono _ _ (fun r t' => grows t t' /\ ptr_ok t' r)).
  { destruct (arg2 arg =? 0); [apply tr_ret; split; [by apply grows_refl|done]|]. apply kma_ok; [done|]. by intros. }
  intros [g|] t1 [G1 Hg]; [|apply tr_efault; lift]. cbn [ptr_ok] in Hg. cbv zeta. destruct (_ =? 0); [apply tr_hc_return; lift|]. set (vlen := if _ <? _ then _ else _).
  apply tr_bind, kma_ok; [apply G1|]. intros last t2 G2 _. destruct (null last); [apply tr_efault; lift|]. apply tr_bind. eapply tr_mono; [apply count_trace; [lift|apply G2]|].
  intros ni t3 G3. apply tr_bind, tr_on_stack. apply tr_bind. eapply tr_mono; [apply copy_messages_trace; [lift|apply G3]|]. intros [rc|msgs] t4 [G4 Hm]; [apply tr_hc_return; lift|].
  apply tr_bind. apply (tr_mono _ _ (fun r t' => grows t4 t' /\ ptr_ok t' r)).
  { destruct (_ && _); [|apply tr_ret; split; [apply grows_refl, G4|done]]. apply kma_ok; [apply G4|]. by intros. }
  intros ts t5 [G5 Hts]. destruct (_ && bad _ _); [apply tr_efault; lift|]. apply tr_bind, call_ok; [reflexivity| |apply G5|].
  - repeat (apply Forall_cons_2; [try exact Logic.I|]); [|done|constructor]. cbn. eapply Forall_impl; [exact Hm|]. intros m. apply msg_sub, G5.
  - intros [r out] t6 G6. apply tr_bind. eapply tr_mono; [apply store_lens_trace; [|apply G6]|].
    + assert (G46 : grows t4 t6) by lift. assert (G24 : grows t2 t4) by lift. lift.
    + intros [] t7 G7. apply tr_hc_return. lift.
Qed.

(** ** Asynchronous I/O *)
(** After the first loop: buffers are translated, vectors not, and the count is that of
    their elements, as an int. *)
Definition copied_ok (t : list event) (c : iocb) : Prop :=
  0 <= c.(aio_nbytes) /\ match c.(aio_buf) with Kma k => translated t k /\ is_vector c.(aio_lio_opcode) = false | Vec _ => False | Raw _ => is_buffer c.(aio_lio_opcode) = false end.
Lemma int32_add a b : int32 (int32 a + b) = int32 (a + b).
Proof.
  unfold int32. replace ((a + 2 ^ 31) mod 2 ^ 32 - 2 ^ 31 + b + 2 ^ 31) with ((a + 2 ^ 31) mod 2 ^ 32 + b) by lia. rewrite Zplus_mod_idemp_l. do 2 f_equal. lia.
Qed.
Lemma le_val_nonneg l : Forall (fun b => 0 <= b) l -> 0 <= le_val l.
Proof. induction 1; cbn; lia. Qed.
Lemma load_nonneg base off n t (Q : Z -> list event -> Prop) : translated t base -> checked t -> (forall v t', grows t t' -> 0 <= v -> Q v t') -> tr (load base off n) t Q.
Proof.
  intros Hb Ht HQ s <-. apply HQ; [by apply grows_event|]. apply le_val_nonneg, Forall_map, Forall_forall. intros i _. by apply Z.mod_pos_bound.
Qed.
Lemma copied_grows t t' c : grows t t' -> copied_ok t c -> copied_ok t' c.
Proof. intros G [Hn Hc]. split; [done|]. destruct (aio_buf c); [done| |done]. destruct Hc as [Hk Hv]. split; [lift|done]. Qed.

Lemma is_vector_not op : is_buffer op = true -> is_vector op = false.
Proof. unfold is_buffer, is_vector, IOCB_CMD_PREAD, IOCB_CMD_PWRITE, IOCB_CMD_PREADV, IOCB_CMD_PWRITEV. lia. Qed.

Lemma copy_iocbs_trace ls i n needed t :
  translated t ls -> checked t -> int32 needed = needed ->
  tr (copy_iocbs ls i n needed) t
    (fun r t' => grows t t' /\ match r with Some (k, l) => Forall (copied_ok t') l /\ k = int32 (needed + elements l) | None => True end).
Proof.
  revert i needed t. induction n as [|n IH]; intros i needed t Hl Ht Hn; cbn [copy_iocbs]; [apply tr_ret; split; [by apply grows_refl|]; split; [constructor|]; cbn; by rewrite Z.add_0_r|].
  apply tr_bind, load_ok; [done..|]. intros gva t1 G1. apply tr_bind, kma_ok; [apply G1|]. intros [p|] t2 G2 Hp; [|apply tr_ret; split; [lift|done]]. cbn [ptr_ok] in Hp.
  apply tr_bind, load_ok; [done|apply G2|]. intros op t3 G3. apply tr_bind, load_ok; [lift|apply G3|]. intros buf t4 G4. apply tr_bind, load_nonneg; [lift|apply G4|]. intros nb t5 G5 Hnb.
  apply tr_bind. apply (tr_mono _ _ (fun r t' => grows t5 t' /\ match r with Some b => copied_ok t' (mk_iocb op b nb) | None => True end)).
  { destruct (is_buffer op) eqn:Eb.
    - apply tr_bind, kma_ok; [apply G5|]. intros [k|] t' G' Hk; apply tr_ret; (split; [done|]); [|done]. split; [done|]. split; [done|]. by apply is_vector_not.
    - destruct (_ || _); [|apply tr_abort]. apply tr_ret. split; [apply grows_refl, G5|]. by split. }
  intros [b|] t6 [G6 Hb]; [|apply tr_ret; split; [lift|done]]. apply tr_bind. set (needed' := if is_vector op then _ else _).
  assert (Hn' : int32 needed' = needed') by (unfold needed'; destruct (is_vector op); [|done]; pose proof (int32_add (needed + nb) 0) as E; by rewrite !Z.add_0_r in E).
  eapply tr_mono; [apply IH; [lift|apply G6|done]|]. intros r t7 [G7 Hr]. apply tr_ret. split; [lift|]. destruct r as [[k l]|]; [|done]. destruct Hr as [Hl7 ->]. split.
  - apply Forall_cons_2; [|done]. by eapply copied_grows.
  - unfold needed'. unfold elements at 2. cbn [foldr aio_lio_opcode aio_nbytes]. fold (elements l). destruct (is_vector op); [|f_equal; lia]. rewrite int32_add. f_equal. lia.
Qed.

Lemma copy_vectors_trace l free needed t :
  Forall (copied_ok t) l -> checked t ->
  tr (copy_vectors l free needed) t (fun r t' => grows t t' /\ match r with Some (_, l') => Forall (iocb_ok t') l' | None => True end).
Proof.
  revert free t. induction l as [|c l IH]; intros free t Hl Ht; cbn [copy_vectors]; [apply tr_ret; split; [by apply grows_refl|constructor]|].
  apply Forall_cons_1 in Hl as [[Hn Hc] Hl]. apply tr_bind. apply (tr_mono _ _ (fun r t' => grows t t' /\ match r with Some (_, c') => iocb_ok t' c' | None => True end)).
  { destruct (aio_buf c) as [gva|k|v] eqn:Eb.
    - destruct (is_vector _ && _) eqn:Ev.
      + apply tr_bind, kma_ok; [done|]. intros [p|] t1 G1 Hp; [|by apply tr_ret]. apply tr_bind. eapply tr_mono; [apply copy_iov_trace; [exact Hp|apply G1]|].
        intros [v|] t2 [G2 Hv]; apply tr_ret; (split; [lift|]); [|done]. unfold iocb_ok. cbn [aio_buf]. apply Hv.
      + apply tr_ret. split; [by apply grows_refl|]. unfold iocb_ok. rewrite Eb. split; [done|]. intros Hv. rewrite Hv in Ev. cbn in Ev. lia.
    - apply tr_ret. split; [by apply grows_refl|]. unfold iocb_ok. rewrite Eb. apply Hc.
    - done. }
  intros [[k c']|] t1 [G1 Hc']; [|by apply tr_ret]. apply tr_bind. eapply tr_mono; [apply IH; [|apply G1]|].
  - eapply Forall_impl; [exact Hl|]. intros x. by apply copied_grows.
  - intros r t2 [G2 Hr]. apply tr_ret. split; [lift|]. destruct r as [[f l']|]; [|done]. apply Forall_cons_2; [|done]. by eapply iocb_sub; [apply G2|].
Qed.

Lemma elements_nonneg t l : Forall (copied_ok t) l -> 0 <= elements l.
Proof.
  induction 1 as [|c l [Hn _] _ IH]; [cbn; lia|]. change (elements (c :: l)) with ((if is_vector c.(aio_lio_opcode) then c.(aio_nbytes) else 0) + elements l).
  destruct (is_vector _); lia.
Qed.
(** Vectors that were not translated have no elements, or very many. *)
Lemma untranslated_ok t l : Forall (copied_ok t) l -> int32 (elements l) = 0 -> arg_ok t (Iocbs l).
Proof.
  intros Hl He. pose proof (elements_nonneg t l Hl). destruct (Z.lt_ge_cases (elements l) (2 ^ 32)) as [Hlt|]; [left|by right].
  assert (Hz : elements l = 0).
  { unfold int32 in He. assert (Hm : (elements l + 2 ^ 31) mod 2 ^ 32 = 2 ^ 31) by (apply Zminus_eq in He; exact He). destruct (Z.lt_ge_cases (elements l) (2 ^ 31)).
    - rewrite Z.mod_small in Hm by lia. lia.
    - replace (elements l + 2 ^ 31) with (elements l - 2 ^ 31 + 1 * 2 ^ 32) in Hm by lia. rewrite Z.mod_add, Z.mod_small in Hm by lia. lia. }
  clear He Hlt H0. induction Hl as [|c l [Hn Hc] Hl IH]; [constructor|]. pose proof (elements_nonneg t l Hl). change (elements (c :: l)) with ((if is_vector c.(aio_lio_opcode) then c.(aio_nbytes) else 0) + elements l) in Hz.
  apply Forall_cons_2; [|apply IH; destruct (is_vector _); lia]. unfold iocb_ok. destruct (aio_buf c); [|apply Hc|done]. split; [done|]. intros Hv. rewrite Hv in Hz. lia.
Qed.
Lemma store_keys_trace ls i n out t : translated t ls -> checked t -> tr (store_keys ls i n out) t (fun _ t' => grows t t').
Proof.
  revert i t. induction n as [|n IH]; intros i t Hl Ht; cbn [store_keys]; [by apply tr_ret, grows_refl|]. apply tr_bind, load_ok; [done..|]. intros gva t1 G1. apply tr_bind, kma_ok; [apply G1|].
  intros [p|] t2 G2 Hp; [|apply tr_abort]. apply tr_bind, store_ok; [exact Hp|apply G2|]. intros t3 G3.
  eapply tr_mono; [apply IH; [lift|apply G3]|]. intros [] t4 G4. lift.
Qed.
Lemma io_submit_tame : tame_at 209 io_submit_hcall.
Proof.
  intros arg t Ht. unfold io_submit_hcall. apply tr_bind, tr_on_stack. apply tr_bind, kma_ok; [done|]. intros [ls|] t1 G1 Hls; [|apply tr_efault; lift]. cbn [ptr_ok] in Hls.
  apply tr_bind, call_ok; [reflexivity|by apply Forall_cons_2; [|constructor]|apply G1|]. intros [rv out] t2 G2. destruct (negb _); [apply tr_hc_return; lift|]. cbv zeta.
  apply tr_bind. eapply tr_mono; [apply copy_iocbs_trace; [lift|apply G2|done]|]. intros [[needed l]|] t3 [G3 Hl]; [|apply tr_efault; lift]. destruct Hl as [Hl Hneed].
  apply tr_bind, tr_assert. intros Hpos%Z.leb_le. apply tr_bind, tr_on_stack. apply tr_bind.
  apply (tr_mono _ _ (fun r t' => grows t3 t' /\ match r with Some l' => arg_ok t' (Iocbs l') | None => True end)).
  { destruct (Z.ltb_spec 0 needed).
    - apply tr_bind. eapply tr_mono; [by apply copy_vectors_trace; [|apply G3]|]. intros [[f l']|] t4 [G4 Hl4]; [|by apply tr_ret]. apply tr_bind, tr_assert. intros _. apply tr_ret. split; [done|by left].
    - apply tr_ret. split; [apply grows_refl, G3|]. apply untranslated_ok; [done|]. rewrite Z.add_0_l in Hneed. lia. }
  intros [l'|] t4 [G4 Hl4]; [|apply tr_efault; lift]. unfold io_submit_finish. apply tr_bind, call_ok; [reflexivity| |apply G4|].
  - repeat (apply Forall_cons_2; [first [exact Logic.I|exact Hl4]|]). constructor.
  - intros [n keys] t5 G5. cbv zeta. apply tr_bind. apply (tr_mono _ _ (fun _ t' => t' = t5)).
    { destruct (0 <=? int32 n); [apply tr_bind, tr_modify; [done|]; by apply tr_ret|]. unfold stale_errno. apply tr_bind, tr_get. intros s. by apply tr_ret. }
    intros r t' ->. apply tr_bind. eapply tr_mono; [apply store_keys_trace; [|apply G5]|].
    + assert (translated t3 ls) by lift. lift.
    + intros [] t6 G6. apply tr_hc_return. lift.
Qed.
Lemma uname_tame : tame_at 63 uname_hcall.
Proof.
  intros arg t Ht. unfold uname_hcall. apply tr_bind. apply (tr_mono _ _ (fun r t' => grows t t' /\ ptr_ok t' r)).
  { destruct (arg1 arg =? 0); [apply tr_ret; split; [by apply grows_refl|done]|]. apply kma_ok; [done|]. by intros. }
  intros [p|] t1 [G1 Hp]; [|apply tr_hc_return; lift]. cbn [ptr_ok] in Hp. apply tr_bind, kma_ok; [apply G1|]. intros last t2 G2 _. destruct (null last); [apply tr_hc_return; lift|].
  apply tr_bind, kma_ok; [apply G2|]. intros q t3 G3 Hq. apply tr_bind. unfold call. apply tr_bind, call_ok; [reflexivity|by apply Forall_cons_2; [|constructor]|apply G3|]. intros [r o] t4 G4. apply tr_ret.
  apply tr_bind. apply (tr_mono _ _ (fun _ t' => grows t4 t')); [|intros [] t5 G5; apply tr_hc_return; lift]. destruct (_ =? 0); [|apply tr_ret, grows_refl, G4].
  apply tr_bind. eapply tr_mono; [apply load_bytes_trace; [lift|apply G4]|]. intros rel t5 G5. cbv zeta. apply tr_bind, tr_assert. intros _. apply tr_bind, tr_get. intros s.
  eapply tr_mono; [apply store_bytes_trace; [lift|apply G5]|]. intros [] t6 G6. lift.
Qed.

(** ** Every handler *)
Ltac head t := match t with ?f _ => head f | _ => t end.
Ltac tame_handler :=
  let arg := fresh "arg" in let t := fresh "t" in let Ht := fresh "Ht" in
  intros arg t Ht;
  lazymatch goal with
  | |- tr (?f _ arg) t _ => let h := head f in unfold h
  end;
  unfold unsupported_hcall, libc_return, store_zero, stale_errno, km_clone_process, execveat_run;
  cbv zeta; hc_steps; hc_leaf.
(** The operations that wait are recognised by their low bits. *)
Lemma futex_timed_waits op : Z.land (u64 op) 127 ∈ [0; 6; 9; 11] -> futex_waits op = true.
Proof.
  intros Hop. unfold futex_waits. apply bool_decide_eq_true.
  assert (E : Z.land op 15 = Z.land (Z.land (u64 op) 127) 15).
  { rewrite <- Z.land_assoc. change (Z.land 127 15) with (Z.ones 4). change 15 with (Z.ones 4).
    unfold u64, two64. rewrite !Z.land_ones by lia.
    change (2 ^ 64) with (2 ^ 4 * 2 ^ 60). by rewrite Z.rem_mul_r, Z.mul_comm, Z.mod_add, Z.mod_mod by lia. }
  rewrite E. repeat (apply elem_of_cons in Hop as [Hop|Hop]; [rewrite Hop; apply list_elem_of_In; vm_compute; tauto|]).
  by apply not_elem_of_nil in Hop.
Qed.
Lemma futex_tame : tame_at 202 futex_hcall.
Proof.
  intros arg t Ht. unfold futex_hcall. set (op := int32 (arg2 arg)). cbv zeta.
  apply tr_bind. apply (tr_mono _ _ (fun a t' => grows t t' /\ ((exists p, a = Ptr p /\ ptr_ok t' p) \/ futex_waits op = false /\ a = Val (arg4 arg)))).
  { destruct (futex_waits op); [|apply tr_ret; split; [by apply grows_refl|by right]].
    apply tr_bind, kma_ok; [done|]. intros p t' G Hp. apply tr_ret. split; [done|left; by exists p]. }
  intros a t1 (G1 & Ha). apply tr_bind, kma_ok; [apply G1|]. intros u1 t2 G2 H1. apply tr_bind, kma_ok; [apply G2|].
  intros u2 t3 G3 H2. apply tr_pass. eapply grows_trans; [|apply grows_event]; [lift|apply G3|]. cbn [event_ok]. split.
  - repeat (apply Forall_cons_2; [try exact Logic.I; try (cbn [arg_ok]; lift)|]); [|constructor].
    destruct Ha as [(p & -> & Hp)|(_ & ->)]; cbn [arg_ok]; [lift|exact Logic.I].
  - destruct Ha as [(p & -> & _)|(Hw & ->)].
    + unfold no_number, address_args, sys_address_args. by destruct (futex_timed _).
    + unfold no_number, address_args, sys_address_args. cbn [futex_timed].
      rewrite bool_decide_eq_false_2; [reflexivity|]. intros Hop%futex_timed_waits. congruence.
Qed.
Lemma table_tame : Forall (fun e => tame_at e.1 e.2) km_hcalls_table.
Proof.
  unfold km_hcalls_table.
  repeat (apply Forall_cons_2; [cbn [fst snd]; first [apply sendrecvmsg_tame|apply sendrecvmmsg_tame|exact io_submit_tame|exact uname_tame|exact futex_tame|tame_handler]|]).
  apply Forall_nil_2.
Qed.
Lemma hcall_fn_tame hc fn : hcall_fn hc = Some fn -> tame_at hc fn.
Proof.
  unfold hcall_fn. pose proof table_tame as Ht. induction Ht as [|[n h] l Hh _ IH]; cbn [find_handler]; [done|]. destruct (Z.eqb_spec n hc) as [<-|]; [|exact IH]. by intros [= <-].
Qed.

Lemma load_args_trace p t : translated t p -> checked t -> tr (load_args p) t (fun _ t' => grows t t').
Proof.
  intros Hp Ht. unfold load_args. repeat (apply tr_bind, load_ok; [lift|first [assumption|match goal with G : grows _ ?t |- checked ?t => apply G end]|]; intros ? ? ?). apply tr_ret. lift.
Qed.
Lemma run_hypercall_trace hc v t : checked t -> tr (run_hypercall hc v) t (fun _ t' => checked t').
Proof.
  intros Ht. unfold run_hypercall. apply tr_bind, kma_ok; [done|]. intros [p|] t1 G1 Hp; [|apply tr_ret, G1]. cbn [ptr_ok] in Hp. apply tr_bind, kma_ok; [apply G1|]. intros last t2 G2 _.
  destruct (null last); [apply tr_ret, G2|]. apply tr_bind. eapply tr_mono; [apply load_args_trace; [lift|apply G2]|]. intros arg t3 G3. apply tr_bind, tr_modify; [done|].
  apply tr_bind, tr_assert. intros _. assert (Hp3 : translated t3 p) by lift. destruct (hcall_fn hc) as [fn|] eqn:E; apply tr_bind.
  - eapply tr_mono; [apply (hcall_fn_tame _ _ E), G3|]. intros r t4 G4. apply tr_bind, tr_get. intros s. apply tr_bind, store_ok; [lift|apply G4|]. intros t5 G5. apply tr_ret, G5.
  - apply store_ok; [done|apply G3|]. intros t4 G4. apply tr_bind, tr_modify; [done|]. apply tr_ret, G4.
Qed.
Lemma hypercall_trace kill r v t : checked t -> tr (hypercall kill r v) t (fun _ t' => checked t').
Proof.
  intros Ht. unfold hypercall. destruct (vh_restart v); [by apply run_hypercall_trace|]. cbv zeta. destruct (negb _); [by apply tr_ret|]. destruct (_ && _); [by apply tr_ret|]. by apply run_hypercall_trace.
Qed.

End Handlers.
