(* ===== verification/HcallAbi.v ===== *)
(** * Hypercalls: the handlers against a table of signatures (proofs)

    Most handlers do the same: translate the arguments that are addresses, answer -EFAULT
    when one that is needed cannot be, and otherwise call one function with the arguments
    at their widths.  [signatures] says for each such hypercall which function and which
    arguments, [marshal] is the one handler such a table needs, and every entry of
    km_hcalls_table for these numbers is shown to do what [marshal] does. *)
From S2P Require Import Prelude Machine MemGeom Stdio Notes Hcall HcallFns HcallMore HcallProc HcallMsg HcallTable.

(** How an argument is passed: the number of the hypercall; a constant; the n-th word as
    int, unsigned int or whole; as an address that must be valid, that may be 0, that must
    be valid unless the m-th word is 0, or that is not checked. *)
Inductive kind := Nr | Const (c : Z) | I (n : nat) | U (n : nat) | V (n : nat) | Req (n : nat) | Opt (n : nat) | ReqLen (n m : nat) | Any (n : nat).
Record signature := sig { sg_callee : callee; sg_args : list kind }.

Definition word (arg : km_hc_args_t) (n : nat) : Z := nth n [arg.(hc_ret); arg.(arg1); arg.(arg2); arg.(arg3); arg.(arg4); arg.(arg5); arg.(arg6)] 0.
Definition refused (m : machine) (arg : km_hc_args_t) (k : kind) : bool :=
  match k with
  | Req n => null (km_gva_to_kma m (word arg n))
  | Opt n => bad (km_gva_to_kma m (word arg n)) (word arg n)
  | ReqLen n l => bad (km_gva_to_kma m (word arg n)) (word arg l)
  | _ => false
  end.
Definition passed (m : machine) (hc : Z) (arg : km_hc_args_t) (k : kind) : hcarg :=
  match k with
  | Nr => Val hc
  | Const c => Val c
  | I n => Int (word arg n)
  | U n => Uint (word arg n)
  | V n => Val (word arg n)
  | Req n | Opt n | ReqLen n _ | Any n => Ptr (km_gva_to_kma m (word arg n))
  end.

Section Abi.
  Context {W : Type} `{World W}.

Definition marshal (sg : signature) (hc : Z) (arg : km_hc_args_t) : M (hs W) km_hc_ret_t :=
  let* s := get in
  let m := w_machine s.(hs_w) in
  if existsb (refused m arg) sg.(sg_args) then efault else pass sg.(sg_callee) (map (passed m hc arg) sg.(sg_args)).

(** What the guest and the rest of the monitor see: the outcome without the trace. *)
Definition forget {A} (o : outcome (A * hs W)) : outcome (A * (W * list Z)) :=
  match o with
  | Ret (a, s) => Ret (a, (s.(hs_w), [s.(hs_ret); s.(hs_guest_thr); s.(hs_fs_base); s.(hs_exit_status); s.(hs_io_active)]))
  | Abort => Abort
  | NoFuel => NoFuel
  end.

Definition signatures : list (Z * signature) := [
  (0, sig Fs_prw [Nr; I 1; ReqLen 2 3; V 3; V 4]); (1, sig Fs_prw [Nr; I 1; ReqLen 2 3; V 3; V 4]);
  (17, sig Fs_prw [Nr; I 1; ReqLen 2 3; V 3; V 4]); (18, sig Fs_prw [Nr; I 1; ReqLen 2 3; V 3; V 4]);
  (19, sig Fs_prwv [Nr; I 1; Req 2; V 3; V 4]); (20, sig Fs_prwv [Nr; I 1; Req 2; V 3; V 4]);
  (295, sig Fs_prwv [Nr; I 1; Req 2; V 3; V 4]); (296, sig Fs_prwv [Nr; I 1; Req 2; V 3; V 4]);
  (43, sig Fs_accept [I 1; Req 2; Req 3]); (288, sig Fs_accept4 [I 1; Opt 2; Opt 3; I 4]); (42, sig Fs_connect [I 1; Req 2; U 3]);
  (53, sig Fs_socketpair [I 1; I 2; I 3; Req 4]); (49, sig Fs_bind [I 1; Req 2; U 3]); (50, sig Fs_listen [I 1; I 2]); (41, sig Fs_socket [I 1; I 2; I 3]);
  (55, sig Fs_getsockopt [I 1; I 2; I 3; Req 4; Req 5]); (54, sig Fs_setsockopt [I 1; I 2; I 3; Req 4; U 5]);
  (44, sig Fs_sendto [I 1; Any 2; V 3; I 4; Any 5; U 6]); (45, sig Fs_recvfrom [I 1; Req 2; V 3; I 4; Opt 5; Opt 6]);
  (51, sig Fs_get_sock_peer_name [Nr; I 1; Req 2; Req 3]); (52, sig Fs_get_sock_peer_name [Nr; I 1; Req 2; Req 3]); (48, sig Fs_shutdown [I 1; I 2]);
  (40, sig Fs_sendfile [I 1; I 2; Opt 3; V 4]); (326, sig Fs_copy_file_range [I 1; Opt 2; I 3; Opt 4; V 5; U 6]);
  (16, sig Fs_ioctl [I 1; V 2; Opt 3]); (72, sig Fs_fcntl [I 1; I 2; V 3]); (4, sig Fs_stat [Req 1; Req 2]); (6, sig Fs_lstat [Req 1; Req 2]);
  (332, sig Fs_statx [I 1; Req 2; I 3; U 4; Req 5]); (5, sig Fs_fstat [I 1; Req 2]); (280, sig Fs_utimensat [I 1; Opt 2; Opt 3; I 4]);
  (78, sig Fs_getdents [I 1; Req 2; U 3]); (217, sig Fs_getdents64 [I 1; Req 2; U 3]); (79, sig Fs_getcwd [Req 1; V 2]); (3, sig Fs_close [I 1]); (73, sig Fs_flock [I 1; I 2]);
  (89, sig Fs_readlink [Req 1; Req 2; V 3]); (267, sig Fs_readlinkat [I 1; Req 2; Req 3; V 4]); (2, sig Fs_open [Req 1; I 2; U 3]); (257, sig Fs_openat [I 1; Req 2; I 3; U 4]);
  (8, sig Fs_lseek [I 1; V 2; I 3]); (82, sig Fs_rename [Req 1; Req 2]); (86, sig Fs_link [Req 1; Req 2]); (88, sig Fs_symlink [Req 1; Req 2]);
  (83, sig Fs_mkdir [Req 1; U 2]); (84, sig Fs_rmdir [Req 1]); (87, sig Fs_unlink [Req 1]); (263, sig Fs_unlinkat [I 1; Req 2; I 3]); (133, sig Fs_mknod [Req 1; U 2; V 3]);
  (92, sig Fs_chown [Req 1; U 2; U 3]); (94, sig Fs_lchown [Req 1; U 2; U 3]); (93, sig Fs_fchown [I 1; U 2; U 3]); (90, sig Fs_chmod [Req 1; U 2]); (91, sig Fs_fchmod [I 1; U 2]);
  (80, sig Fs_chdir [Req 1]); (81, sig Fs_fchdir [I 1]); (76, sig Fs_truncate [Req 1; V 2]); (77, sig Fs_ftruncate [I 1; V 2]); (74, sig Fs_fsync [I 1]); (75, sig Fs_fdatasync [I 1]);
  (21, sig Fs_access [Req 1; I 2]); (269, sig Fs_faccessat [I 1; Req 2; I 3; I 4]); (137, sig Fs_statfs [Req 1; Req 2]); (138, sig Fs_fstatfs [I 1; Req 2]);
  (259, sig (Sys 259) [V 1; Req 2; V 3; V 4]); (262, sig (Sys 262) [V 1; Req 2; Req 3; V 4]);
  (32, sig Fs_dup [I 1]); (33, sig Fs_dup2 [I 1; I 2]); (292, sig Fs_dup3 [I 1; I 2; I 3]); (22, sig Fs_pipe [Req 1]); (293, sig Fs_pipe2 [Req 1; I 2]); (290, sig Fs_eventfd2 [I 1; I 2]);
  (302, sig Fs_prlimit64 [I 1; I 2; Opt 3; Opt 4]); (283, sig Fs_timerfd_create [I 1; I 2]);
  (23, sig Fs_select [I 1; Opt 2; Opt 3; Opt 4; Opt 5]); (7, sig Fs_poll [Req 1; V 2; I 3]); (271, sig Fs_ppoll [ReqLen 1 2; V 2; Opt 3; Opt 4; V 5]);
  (291, sig Fs_epoll_create1 [I 1]); (213, sig Fs_epoll_create1 [Const 0]); (233, sig Fs_epoll_ctl [I 1; I 2; I 3; Opt 4]);
  (232, sig Fs_epoll_wait [I 1; Req 2; I 3; I 4]); (281, sig Fs_epoll_pwait [I 1; Req 2; I 3; I 4; Opt 5; I 6]);
  (12, sig Mem_brk [V 1]); (9, sig Guest_mmap [V 1; V 2; I 3; I 4; I 5; V 6]); (11, sig Guest_munmap [V 1; V 2]); (10, sig Guest_mprotect [V 1; V 2; I 3]);
  (28, sig Guest_madvise [V 1; V 2; I 3]); (26, sig Guest_msync [V 1; V 2; I 3]);
  (14, sig Rt_sigprocmask [I 1; Opt 2; Opt 3; V 4]); (13, sig Rt_sigaction [I 1; Opt 2; Opt 3; V 4]); (127, sig Rt_sigpending [Req 1; V 2]);
  (128, sig Rt_sigtimedwait [Any 1; Opt 2; Opt 3; V 4]); (130, sig Rt_sigsuspend [Opt 1; V 2]); (131, sig Sigaltstack [Opt 1; Opt 2]);
  (62, sig Kill [I 1; I 2]); (200, sig Tkill [I 1; I 2]); (234, sig Tkill [I 2; I 3]);
  (96, sig (Sys 96) [Req 1; Opt 2]); (228, sig (Sys 228) [V 1; Opt 2]); (229, sig (Sys 229) [V 1; Opt 2]); (227, sig (Sys 227) [V 1; Opt 2]);
  (35, sig (Sys 35) [Any 1; Opt 2]); (230, sig (Sys 230) [V 1; V 2; Req 3; Opt 4]); (100, sig (Libc 100) [Req 1]); (98, sig (Sys 98) [V 1; Req 2]);
  (95, sig (Sys 95) [V 1]); (318, sig (Sys 318) [Req 1; V 2; V 3]); (34, sig (Sys 34) []);
  (107, sig (Sys 107) []); (102, sig (Sys 102) []); (108, sig (Sys 108) []); (104, sig (Sys 104) []); (105, sig (Sys 105) [V 1]); (106, sig (Sys 106) [V 1]);
  (112, sig (Sys 112) []); (124, sig (Sys 124) [V 1]); (109, sig (Sys 109) [V 1; V 2]); (121, sig (Sys 121) [V 1]); (111, sig (Sys 111) []);
  (61, sig (Libc 61) [I 1; Any 2; I 3; Any 4]); (204, sig (Sys 204) [V 1; V 2; Any 3]); (218, sig Set_tid_address [V 1]); (59, sig Do_exec [Req 1; Req 2; Req 3])].

(** ** One handler *)
Lemma kma_zero m : km_gva_to_kma m 0 = None.
Proof. unfold km_gva_to_kma. rewrite (proj2 (Z.ltb_lt 0 GUEST_MEM_START_VA)) by reflexivity. done. Qed.
Definition follows (e : Z * signature) : Prop :=
  exists fn, hcall_fn e.1 = Some fn /\ forall arg s, forget (fn e.1 arg s) = forget (marshal e.2 e.1 arg s).

Lemma forget_call c args t1 t2 w a b d e f :
  forget (pass c args (mk_hs w t1 a b d e f)) = forget (pass c args (mk_hs w t2 a b d e f)).
Proof. unfold pass, call, call_out, hc_return, bind, modify, ret. cbn. by destruct (w_run c args w) as [[[? ?] ?]| |]. Qed.
Lemma pass_hs c args (s1 s2 : hs W) : forget (Ret (tt, s1)) = forget (Ret (tt, s2)) -> forget (pass c args s1) = forget (pass c args s2).
Proof. destruct s1, s2. cbn. intros [= -> -> -> -> -> ->]. apply forget_call. Qed.

(** [abi] runs a handler and [marshal] side by side, by cases on the translations. *)
Ltac zero_case a := let E := fresh "E" in destruct (a =? 0) eqn:E; [apply Z.eqb_eq in E; subst a|rewrite ?E].
Ltac abi_case :=
  match goal with
  | |- context [0 =? 0] => change (0 =? 0) with true
  | |- context [km_gva_to_kma ?m 0] => rewrite (kma_zero m)
  | E : (?a =? 0) = false |- context [?a =? 0] => rewrite E
  | E : km_gva_to_kma ?m ?a = _ |- context [km_gva_to_kma ?m ?a] => rewrite E
  | |- context [?a =? 0] => zero_case a
  | |- context [km_gva_to_kma ?m ?a] => let E := fresh "E" in destruct (km_gva_to_kma m a) eqn:E
  end.
Ltac head t := match t with ?f _ => head f | _ => t end.
Ltac abi :=
  unfold follows; cbn [fst snd]; eexists; split; [reflexivity|];
  let arg := fresh "arg" in let s := fresh "s" in
  intros arg s; destruct arg as [x0 x1 x2 x3 x4 x5 x6], s as [w t r g fs es io];
  match goal with |- forget (?f _ _ _) = _ => let h := head f in unfold h end;
  unfold marshal, bind, get, kma, ret, efault;
  cbn [sg_callee sg_args existsb map refused passed word nth arg1 arg2 arg3 arg4 arg5 arg6 hc_ret hs_w log w_machine];
  repeat (abi_case; cbn [null bad orb andb negb hs_w log w_machine]);
  try (apply pass_hs); reflexivity.
Lemma signatures_follow : Forall follows signatures.
Proof. unfold signatures. repeat (apply Forall_cons_2; [abi|]). constructor. Qed.
Lemma signatures_below : Forall (fun e => (e.1 <? KM_MAX_HCALL) = true) signatures.
Proof. apply Forall_forall. intros e He. apply list_elem_of_In in He. revert e He. apply forallb_forall. reflexivity. Qed.

(** ** A hypercall *)
(** The seven words at an address of the monitor. *)
Definition args_at (w : W) (p : Z) : km_hc_args_t :=
  let word_at i := le_val (bytes_at w (p + i) 8) in mk_args (word_at 0) (word_at 8) (word_at 16) (word_at 24) (word_at 32) (word_at 40) (word_at 48).
(** What a call according to a signature returns. *)
Definition answer (sg : signature) (hc : Z) (arg : km_hc_args_t) (w : W) : outcome (Z * W) :=
  let m := w_machine w in
  if existsb (refused m arg) sg.(sg_args) then Ret (- EFAULT, w)
  else match w_run sg.(sg_callee) (map (passed m hc arg) sg.(sg_args)) w with Ret ((r, _), w') => Ret (r, w') | Abort => Abort | NoFuel => NoFuel end.
Definition restarts (r : Z) (v : vcpu_hc) : bool := (u64 r =? u64 (- EINTR)) && v.(vh_interrupted).

Lemma marshal_answer sg hc arg (s : hs W) :
  forget (marshal sg hc arg s)
  = match answer sg hc arg s.(hs_w) with
    | Ret (r, w) => Ret (HC_CONTINUE, (w, [u64 r; s.(hs_guest_thr); s.(hs_fs_base); s.(hs_exit_status); s.(hs_io_active)]))
    | Abort => Abort
    | NoFuel => NoFuel
    end.
Proof.
  destruct s as [w t r g fs es io]. unfold marshal, answer, bind, get. cbn [hs_w]. destruct (existsb _ _); [done|]. unfold pass, call, call_out, bind. cbn [hs_w].
  by destruct (w_run _ _ w) as [[[x o] w']| |].
Qed.

Lemma run_hypercall_answer (hc : Z) (sg : signature) (v : vcpu_hc) (s : hs W) (p q : Z) :
  let w := s.(hs_w) in
  (hc, sg) ∈ signatures ->
  km_gva_to_kma (w_machine w) v.(vh_hcargs) = Some p -> km_gva_to_kma (w_machine w) (u64 (v.(vh_hcargs) + SIZEOF_HC_ARGS - 1)) = Some q ->
  forget (run_hypercall hc v s)
  = match answer sg hc (args_at w p) w with
    | Ret (r, w') =>
        Ret ((Handled HC_CONTINUE, set_restart (restarts r v) v),
             (w_store p (le 8 (u64 r)) w', [u64 r; s.(hs_guest_thr); s.(hs_fs_base); s.(hs_exit_status); s.(hs_io_active)]))
    | Abort => Abort
    | NoFuel => NoFuel
    end.
Proof.
  intros w Hin Hp Hq. pose proof (proj1 (Forall_forall _ _) signatures_follow _ Hin) as (fn & Hfn & Hrun). pose proof (proj1 (Forall_forall _ _) signatures_below _ Hin) as Hlt.
  cbn [fst snd] in *. destruct s as [w0 t r g fs es io]. cbn [hs_w] in w. subst w. unfold run_hypercall, load_args, kma, bind, load, modify, km_assert, get, ret.
  cbn [hs_w hs_trace hs_ret hs_guest_thr hs_fs_base hs_exit_status hs_io_active log set_ret hc_ret]. rewrite Hp. cbn [hs_w log]. rewrite Hq.
  cbn [null hs_w hs_trace hs_ret hs_guest_thr hs_fs_base hs_exit_status hs_io_active log set_ret hc_ret]. rewrite Hlt, Hfn.
  match goal with |- context [fn hc ?a ?s3] => change a with (args_at w0 p); pose proof (eq_trans (Hrun (args_at w0 p) s3) (marshal_answer sg hc _ _)) as E end.
  cbn [hs_w hs_guest_thr hs_fs_base hs_exit_status hs_io_active log set_ret] in E. destruct (answer sg hc (args_at w0 p) w0) as [[x w']| |], (fn hc _ _) as [[a s']| |]; try discriminate E; [|done..].
  destruct s' as [w1 t1 r1 g1 fs1 es1 io1]. injection E as -> -> -> -> -> -> ->. unfold store, restarts. cbn. by rewrite Z.add_0_r.
Qed.

(** C34.  *)
(** C5. Each of the 123 hypercalls of the table of signatures does what the table says: when
    an address the call needs is not valid the guest gets -EFAULT and nothing else happens;
    otherwise the one function named is called once, with the arguments at their widths and
    the addresses translated, and its result is stored in the guest's structure.  The call
    is restarted exactly when the result is -EINTR and a signal came in. *)
Theorem hypercall_follows_signature (hc : Z) (sg : signature) (v : vcpu_hc) (s : hs W) (p q : Z) :
  let w := s.(hs_w) in
  (hc, sg) ∈ signatures ->
  km_gva_to_kma (w_machine w) v.(vh_hcargs) = Some p -> km_gva_to_kma (w_machine w) (u64 (v.(vh_hcargs) + SIZEOF_HC_ARGS - 1)) = Some q ->
  forget (run_hypercall hc v s)
  = match answer sg hc (args_at w p) w with
    | Ret (r, w') =>
        Ret ((Handled HC_CONTINUE, set_restart (restarts r v) v),
             (w_store p (le 8 (u64 r)) w', [u64 r; s.(hs_guest_thr); s.(hs_fs_base); s.(hs_exit_status); s.(hs_io_active)]))
    | Abort => Abort
    | NoFuel => NoFuel
    end.
Proof. apply run_hypercall_answer. Qed.
End Abi.
