(* ===== verification/HcallWorld.v ===== *)
(** * Hypercalls of the memory system

    [guest_world] puts the modelled memory system behind the interface [World]: the calls
    for memory run the functions of MemBrk.v and MmapGuest.v on the machine, the others
    are left to [other].  Calls for memory that come in as hypercalls, with their arguments
    in guest memory, keep the invariants of the memory system. *)
From S2P Require Import Prelude Machine MemGeom TopBreak PageTable MemBrk MmapRegion MmapGuest MmapList MmapRange MmapFree MmapCorrect MmapSystem.
From S2P Require Import Stdio Notes Hcall HcallFns HcallMore HcallProc HcallMsg HcallTable HcallAbi.

(** [gw_vcpu] is the calling vcpu's part in munmap, [gw_mem] the bytes at addresses of the
    monitor and [gw_rest] whatever the other components keep. *)
Record guest_world (R : Type) := mk_gw { gw_machine : machine; gw_vcpu : km_vcpu_map; gw_mem : Z -> Z; gw_rest : R }.
Arguments mk_gw {R}.
Arguments gw_machine {R}.
Arguments gw_vcpu {R}.
Arguments gw_mem {R}.
Arguments gw_rest {R}.

Section Memory.
  Context `{Host} `{!GuestFiles} {R : Type}.
  Context (other : callee -> list hcarg -> M (guest_world R) (Z * list Z)) (pid tid stack : Z).

Definition on_machine {A} (f : guest_world R -> A -> Z * km_vcpu_map) (c : M machine A) : M (guest_world R) (Z * list Z) := fun w =>
  match c w.(gw_machine) with
  | Ret (a, m) => let (r, v) := f w a in Ret ((r, []), mk_gw m v w.(gw_mem) w.(gw_rest))
  | Abort => Abort
  | NoFuel => NoFuel
  end.
Definition result_of (w : guest_world R) (r : Z) : Z * km_vcpu_map := (r, w.(gw_vcpu)).
Definition gw_run (c : callee) (args : list hcarg) : M (guest_world R) (Z * list Z) :=
  match c, args with
  | Mem_brk, [Val new_brk] => on_machine result_of (km_mem_brk new_brk)
  | Guest_mmap, [Val gva; Val sz; Val prot; Val flags; Val fd; Val off] => on_machine result_of (km_guest_mmap gva sz prot flags fd off)
  | Guest_munmap, [Val addr; Val sz] => fun w => on_machine (fun _ a => a) (km_guest_munmap w.(gw_vcpu) addr sz) w
  | Guest_mprotect, [Val addr; Val sz; Val prot] => on_machine result_of (km_guest_mprotect addr sz prot)
  | Guest_madvise, [Val addr; Val sz; Val advise] => on_machine result_of (km_guest_madvise addr sz advise)
  | Guest_msync, [Val addr; Val sz; Val flag] => on_machine result_of (km_guest_msync addr sz flag)
  | _, _ => other c args
  end.
Definition write_bytes (a : Z) (l : list Z) (mem : Z -> Z) : Z -> Z := fun x => if (a <=? x) && (x <? a + Z.of_nat (length l)) then nth (Z.to_nat (x - a)) l 0 else mem x.
#[export] Instance memory_world : World (guest_world R) := {|
  w_machine := gw_machine; w_mem := gw_mem;
  w_store a l w := mk_gw w.(gw_machine) w.(gw_vcpu) (write_bytes a l w.(gw_mem)) w.(gw_rest);
  w_run := gw_run; w_errno _ := 0; w_stack _ := stack; w_pid := pid; w_ppid := 0; w_tid := tid |}.

(** The memory call a hypercall stands for. *)
Definition op_of (v : km_vcpu_map) (hc : Z) (arg : km_hc_args_t) : option guest_op :=
  if hc =? 9 then Some (Op_mmap arg.(arg1) arg.(arg2) (int32 arg.(arg3)) (int32 arg.(arg4)) (int32 arg.(arg5)) arg.(arg6))
  else if hc =? 11 then Some (Op_munmap v arg.(arg1) arg.(arg2))
  else if hc =? 10 then Some (Op_mprotect arg.(arg1) arg.(arg2) (int32 arg.(arg3)))
  else None.

Lemma answer_op hc arg w op :
  op_of w.(gw_vcpu) hc arg = Some op ->
  exists sg, (hc, sg) ∈ signatures /\ match answer sg hc arg w, run_op op w.(gw_machine) with
    | Ret (_, w'), Ret (_, m') => w'.(gw_machine) = m'
    | Abort, Abort | NoFuel, NoFuel => True
    | _, _ => False
    end.
Proof.
  unfold op_of. destruct (Z.eqb_spec hc 9) as [->|]; [|destruct (Z.eqb_spec hc 11) as [->|]; [|destruct (Z.eqb_spec hc 10) as [->|]; [|done]]]; intros [= <-].
  - exists (sig Guest_mmap [V 1; V 2; I 3; I 4; I 5; V 6]). split; [apply list_elem_of_In; cbn; tauto|]. unfold answer, bind, run_op, on_machine. cbn -[km_guest_mmap].
    unfold on_machine, bind. by destruct (km_guest_mmap _ _ _ _ _ _ _) as [[? ?]| |].
  - exists (sig Guest_munmap [V 1; V 2]). split; [apply list_elem_of_In; cbn; tauto|]. unfold answer, bind, run_op, on_machine. cbn -[km_guest_munmap].
    unfold on_machine, bind. by destruct (km_guest_munmap _ _ _ _) as [[[? ?] ?]| |].
  - exists (sig Guest_mprotect [V 1; V 2; I 3]). split; [apply list_elem_of_In; cbn; tauto|]. unfold answer, bind, run_op, on_machine. cbn -[km_guest_mprotect].
    unfold on_machine, bind. by destruct (km_guest_mprotect _ _ _ _) as [[? ?]| |].
Qed.

(** ** Sequences of hypercalls *)
(** The vcpu left the guest by a four byte write to the port of a memory call, its
    arguments lie in guest memory, and they are none of those with a defect. *)
Record request (w : guest_world R) (r : io_exit) (v : vcpu_hc) (op : guest_op) : Prop := {
  rq_fresh : v.(vh_restart) = false;
  rq_out : r.(io_out) = true;
  rq_size : r.(io_size) = 4;
  rq_args : exists p q, km_gva_to_kma w.(gw_machine) v.(vh_hcargs) = Some p /\ km_gva_to_kma w.(gw_machine) (u64 (v.(vh_hcargs) + SIZEOF_HC_ARGS - 1)) = Some q
    /\ op_of w.(gw_vcpu) ((r.(io_port) - KM_HCALL_PORT_BASE) mod 2 ^ 16) (args_at w p) = Some op;
  rq_ok : op_ok w.(gw_machine) op;
}.

Lemma request_served kill G r v op s :
  mmap_inv s.(hs_w).(gw_machine) -> sealed G s.(hs_w).(gw_machine) -> host_mmap_fixed -> host_coop -> request s.(hs_w) r v op ->
  exists v' s', hypercall kill r v s = Ret ((Handled HC_CONTINUE, v'), s') /\ mmap_inv s'.(hs_w).(gw_machine) /\ sealed G s'.(hs_w).(gw_machine).
Proof.
  intros T S Hh Hc [R1 R2 R3 (p & q & Hp & Hq & Hop) Hok]. set (hc := (_ - _) mod _) in Hop.
  destruct (answer_op hc _ _ _ Hop) as (sg & Hin & Ha). assert (Hlt : (hc <? KM_MAX_HCALL) = true) by exact (proj1 (Forall_forall _ _) signatures_below _ Hin).
  assert (Hfn : exists fn, hcall_fn (W := guest_world R) hc = Some fn) by (destruct (proj1 (Forall_forall _ _) (signatures_follow (W := guest_world R)) _ Hin) as (fn & Hfn & _); by exists fn).
  destruct Hfn as [fn Hfn]. unfold hypercall. rewrite R1, R2, R3. fold hc. rewrite Hlt, Hfn. change (4 =? 4) with true. cbn [negb andb]. rewrite andb_false_r.
  pose proof (run_hypercall_answer hc sg (set_hypercall hc v) s p q Hin Hp Hq) as E. pose proof (run_op_ok G _ op T S Hh Hok) as Hwp. apply wp_excuse in Hwp; [|intros Hn; exact (Hn Hc)].
  unfold wp in Hwp. destruct (answer sg hc _ _) as [[x w']| |], (run_op op _) as [[[] m']| |]; try done. destruct Ha. destruct (run_hypercall hc _ s) as [[[d v'] s']| |]; try discriminate E.
  destruct s' as [w1 t1 r1 g1 fs1 es1 io1]. injection E as -> -> -> _. eexists _, _. split; [reflexivity|exact Hwp].
Qed.

(** Between two hypercalls the guest writes its memory as it likes. *)
Inductive served (kill : bool) (w : guest_world R) : guest_world R -> Prop :=
  | served_none : served kill w w
  | served_guest w' mem : served kill w w' -> served kill w (mk_gw w'.(gw_machine) w'.(gw_vcpu) mem w'.(gw_rest))
  | served_call s r v op x s' : served kill w s.(hs_w) -> request s.(hs_w) r v op -> hypercall kill r v s = Ret (x, s') -> served kill w s'.(hs_w).

(** C4. mmap, munmap and mprotect that come in as hypercalls 9, 11 and 10, with their
    arguments in guest memory: after any sequence of such requests, with the guest writing its
    memory as it likes between them, the busy and free lists tile the mmap area with the
    monitor's regions sealed off, and the next such request, whose arguments are fetched from
    guest memory, is handled without an abort.  A request is one of [request]: the arguments
    are readable and are those of op_ok, an anonymous mmap at an address of the monitor's
    choice, not of length 0 and smaller than the room below the top break, munmap below 2^62
    with no unmapping of the thread's own stack pending, or mprotect below 2^62; and the host
    places memory where it is asked to and lets slots be unplugged.  (mmap of length 0, and
    MAP_FIXED with PROT_NONE, do abort: km_guest_mmap_zero_aborts,
    km_guest_mmap_fixed_none_aborts.) *)
Theorem memory_hypercalls_safe (kill : bool) (G : Z) (w : guest_world R) (s : hs (guest_world R)) :
  mmap_inv w.(gw_machine) -> sealed G w.(gw_machine) -> host_mmap_fixed -> host_coop -> served kill w s.(hs_w) ->
  mmap_inv s.(hs_w).(gw_machine) /\ sealed G s.(hs_w).(gw_machine)
  /\ forall r v op, request s.(hs_w) r v op -> exists v' s', hypercall kill r v s = Ret ((Handled HC_CONTINUE, v'), s').
Proof.
  intros T S Hh Hc Hs. assert (HI : forall w', served kill w w' -> mmap_inv w'.(gw_machine) /\ sealed G w'.(gw_machine)).
  { induction 1 as [|w' mem _ IH|s1 r v op x s2 _ [T1 S1] Hr E]; [done|done|]. destruct (request_served kill G r v op s1 T1 S1 Hh Hc Hr) as (v' & s' & E' & HI). rewrite E in E'. by injection E' as _ ->. }
  destruct (HI _ Hs) as [T1 S1]. split_and!; [done|done|]. intros r v op Hr. destruct (request_served kill G r v op s T1 S1 Hh Hc Hr) as (v' & s' & E & _). by exists v', s'.
Qed.
End Memory.
