(* ===== verification/HcallWitness.v ===== *)
(** * Hypercalls: examples

    Hypercalls on the booted machine of MmapSystem.v: witnesses of the theorems on
    hypercalls, and the two defects of the handlers that the theorems leave room for. *)
From S2P Require Import Prelude Machine MemGeom TopBreak PageTable MemBrk MmapRegion MmapGuest MmapList MmapRange MmapFree MmapCorrect MmapSystem.
From S2P Require Import Stdio Notes Hcall HcallFns HcallMore HcallProc HcallMsg HcallTable HcallProps HcallAbi HcallWorld.

#[local] Existing Instance host_grants.
#[local] Existing Instance no_files.

(** Words of guest memory, where the machine has its addresses unchanged. *)
Definition words (l : list (Z * Z)) (a : Z) : Z :=
  match find (fun p => (p.1 <=? a) && (a <? p.1 + 8)) l with Some (p, v) => (v / 2 ^ (8 * (a - p))) mod 256 | None => 0 end.
Definition at_args (base : Z) (l : list Z) : list (Z * Z) := imap (fun i v => (base + 8 * Z.of_nat i, v)) l.
Definition ARGS : Z := 549753708544.
(** What the other components answer: 0 and no output. *)
Definition quiet (c : callee) (args : list hcarg) : M (guest_world unit) (Z * list Z) := ret (0, []).
#[local] Instance example_world : World (guest_world unit) := memory_world quiet 1 1 0x100000.
Definition start (l : list (Z * Z)) : hs (guest_world unit) := mk_hs (mk_gw booted (mk_vcpu_map 0 0 0) (words l) tt) [] 0 0 0 0 0.
Definition vcpu0 : vcpu_hc := mk_vhc false 0 ARGS false.
Definition exit_of (hc : Z) : io_exit := mk_io (KM_HCALL_PORT_BASE + hc) 4 true.

Definition mmap_args : list (Z * Z) := at_args ARGS [0; 0; 8192; 3; 34; 2 ^ 64 - 1; 0].
Lemma args_in_memory : km_gva_to_kma booted ARGS = Some ARGS /\ km_gva_to_kma booted (u64 (ARGS + SIZEOF_HC_ARGS - 1)) = Some (ARGS + 55).
Proof. split; vm_compute; reflexivity. Qed.
Lemma mmap_request : exists op, request quiet 1 1 0x100000 (start mmap_args).(hs_w) (exit_of 9) vcpu0 op.
Proof.
  destruct booted_facts as (F1 & F2 & F3 & F4 & F5). destruct args_in_memory as [Hp Hq]. exists (Op_mmap 0 8192 3 34 (-1) 0). split; [done..| |].
  - exists ARGS, (ARGS + 55). split_and!; [done|done|]. vm_compute. reflexivity.
  - cbn [start hs_w gw_machine op_ok]. rewrite F1, F5. split_and!; [lia|lia|vm_compute; reflexivity..].
Qed.

Lemma memory_hypercalls_safe_witness : exists s, served quiet 1 1 0x100000 false (start mmap_args).(hs_w) s.(hs_w) /\ mmap_inv s.(hs_w).(gw_machine)
  /\ s.(hs_w).(gw_machine).(tbrk) <> booted.(tbrk).
Proof.
  destruct mmap_request as [op Hop].
  destruct (memory_hypercalls_safe quiet 1 1 0x100000 false _ (start mmap_args).(hs_w) (start mmap_args) booted_inv booted_sealed host_grants_mmap host_grants_coop (served_none _ _ _ _ _ _)) as (_ & _ & Hrun).
  destruct (Hrun _ _ _ Hop) as (v' & s' & E). exists s'. assert (Hs : served quiet 1 1 0x100000 false (start mmap_args).(hs_w) s'.(hs_w)) by (eapply served_call; [apply served_none|exact Hop|exact E]).
  split_and!; [exact Hs|by apply (memory_hypercalls_safe quiet 1 1 0x100000 false _ (start mmap_args).(hs_w) s' booted_inv booted_sealed host_grants_mmap host_grants_coop Hs)|].
  apply (f_equal (fun o => match o with Ret (_, s) => s.(hs_w).(gw_machine).(tbrk) =? booted.(tbrk) | _ => true end)) in E. vm_compute in E. by apply Z.eqb_neq.
Defined.

Lemma returns {A S} (o : outcome (A * S)) (P : A -> S -> Prop) : match o with Ret (a, s) => P a s | _ => False end -> exists a s, o = Ret (a, s) /\ P a s.
Proof. destruct o as [[a s]| |]; [|done|done]. intros Hp. by exists a, s. Qed.
Lemma forget_ret {W A} `{World W} (o : outcome (A * hs W)) a w x l : forget o = Ret (a, (w, x :: l)) -> exists s, o = Ret (a, s) /\ s.(hs_w) = w /\ x = s.(hs_ret).
Proof. destruct o as [[b s]| |]; [|done|done]. cbn. intros [= -> <- <- _]. by exists s. Qed.

(** getcwd with a buffer above the guest's memory. *)
Definition getcwd_args (buf : Z) : list (Z * Z) := at_args ARGS [0; buf; 64; 0; 0; 0; 0].
Lemma hypercall_follows_signature_witness : exists s',
  run_hypercall 79 vcpu0 (start (getcwd_args 0)) = Ret ((Handled HC_CONTINUE, vcpu0), s') /\ s'.(hs_ret) = 2 ^ 64 - 14.
Proof.
  destruct args_in_memory as [Hp Hq].
  assert (Hin : (79, sig Fs_getcwd [Req 1; V 2]) ∈ signatures) by (apply list_elem_of_In; do 33 right; left; reflexivity).
  pose proof (hypercall_follows_signature 79 _ vcpu0 (start (getcwd_args 0)) _ _ Hin Hp Hq) as E.
  assert (Ha : answer (sig Fs_getcwd [Req 1; V 2]) 79 (args_at (start (getcwd_args 0)).(hs_w) ARGS) (start (getcwd_args 0)).(hs_w) = Ret (-14, (start (getcwd_args 0)).(hs_w))).
  { unfold answer. replace (args_at _ ARGS) with (mk_args 0 0 64 0 0 0 0) by (vm_compute; reflexivity). cbn [existsb sg_args refused word nth arg1]. by rewrite kma_zero. }
  rewrite Ha in E. destruct (forget_ret _ _ _ _ _ E) as (s' & Er & _ & Hl). exists s'. split; [exact Er|exact (eq_sym Hl)].
Defined.

(** ** Where the handlers fall short *)
Definition LIST : Z := ARGS + 0x100.
Definition escape_args : list (Z * Z) :=
  at_args ARGS [0; 7; 2; LIST; 0; 0; 0] ++ at_args LIST [LIST + 0x40; LIST + 0x80]
  ++ at_args (LIST + 0x40) [0; 0; IOCB_CMD_PREADV; 0x7f0000001000; 1; 0; 0; 0] ++ at_args (LIST + 0x80) [0; 0; IOCB_CMD_PREADV; 0; 2 ^ 32 - 1; 0; 0; 0].

(** The control block number [i] of the list at [ls] as the first loop takes it: an address
    of a buffer is translated, that of a vector is the word in guest memory. *)
Section Escape.
  Context {W : Type} `{World W}.
Definition word_at (w : W) (a : Z) (n : nat) : Z := le_val (bytes_at w a n).
Definition iocb_at (w : W) (ls i : Z) : option iocb :=
  p ← km_gva_to_kma (w_machine w) (word_at w (ls + 8 * i) 8);
  let op := word_at w (p + O_opcode) 2 in
  let buf := word_at w (p + O_buf) 8 in
  let nbytes := word_at w (p + O_nbytes) 8 in
  if is_buffer op then k ← km_gva_to_kma (w_machine w) buf; Some (mk_iocb op (Kma k) nbytes)
  else if is_vector op || (op =? IOCB_CMD_FDSYNC) || (op =? IOCB_CMD_FSYNC) || (op =? IOCB_CMD_POLL) then Some (mk_iocb op (Raw buf) nbytes)
  else None.

Lemma elements_cons c l : elements (c :: l) = (if is_vector c.(aio_lio_opcode) then c.(aio_nbytes) else 0) + elements l.
Proof. reflexivity. Qed.
Lemma copy_iocbs_run ls n : forall i needed (s : hs W) l,
  int32 needed = needed -> mapM (iocb_at s.(hs_w) ls) (seqZ i (Z.of_nat n)) = Some l ->
  exists s', copy_iocbs ls i n needed s = Ret (Some (int32 (needed + elements l), l), s') /\ s'.(hs_w) = s.(hs_w).
Proof.
  induction n as [|n IH]; intros i needed s l Hn Hl.
  - cbn in Hl. injection Hl as <-. exists s. cbn. by rewrite Z.add_0_r, Hn.
  - rewrite seqZ_cons in Hl by lia. replace (Z.pred (Z.of_nat (S n))) with (Z.of_nat n) in Hl by lia. cbn [mapM] in Hl.
    apply bind_Some in Hl as (c & Hc & Hl). apply bind_Some in Hl as (l' & Hl & [= <-]).
    unfold iocb_at, word_at in Hc. apply bind_Some in Hc as (p & Hp & Hc). cbn [copy_iocbs]. unfold bind at 1. unfold load at 1. unfold bind at 1, kma at 1.
    cbn [hs_w log]. rewrite Hp. unfold bind at 1, load at 1. unfold bind at 1, load at 1. unfold bind at 1, load at 1. cbn [hs_w log].
    set (op := le_val (bytes_at s.(hs_w) (p + O_opcode) 2)) in *. set (nb := le_val (bytes_at s.(hs_w) (p + O_nbytes) 8)) in *.
    set (needed' := if is_vector op then int32 (needed + nb) else needed).
    assert (Hn' : int32 needed' = needed').
    { unfold needed'. destruct (is_vector op); [|done]. pose proof (int32_add (needed + nb) 0) as E. by rewrite !Z.add_0_r in E. }
    assert (Hel : int32 (needed' + elements l') = int32 (needed + ((if is_vector op then nb else 0) + elements l'))).
    { unfold needed'. destruct (is_vector op); [|f_equal; lia]. rewrite int32_add. f_equal. lia. }
    destruct (is_buffer op) eqn:Eb.
    + apply bind_Some in Hc as (k & Hk & [= <-]). unfold bind at 1 2, kma. cbn [hs_w log]. rewrite Hk. cbn [ret].
      unfold bind at 1. match goal with |- context [copy_iocbs ls (i + 1) n ?k ?x] => destruct (IH (i + 1) k x l' Hn') as (s' & E & Hs'); [exact Hl|] end. rewrite E. eexists. split; [|exact Hs'].
      rewrite elements_cons. cbn [aio_lio_opcode aio_nbytes]. rewrite <- Hel. reflexivity.
    + destruct (is_vector op || _ || _ || _); [|done]. injection Hc as <-. cbn [ret]. unfold bind at 1. cbn [ret].
      unfold bind at 1. match goal with |- context [copy_iocbs ls (i + 1) n ?k ?x] => destruct (IH (i + 1) k x l' Hn') as (s' & E & Hs'); [exact Hl|] end. rewrite E. eexists. split; [|exact Hs'].
      rewrite elements_cons. cbn [aio_lio_opcode aio_nbytes]. rewrite <- Hel. reflexivity.
Qed.

(** C40. The exemption is real, for every guest and every host: an io_submit with a known
    context whose control blocks have vectors of 2^32 elements together, or any multiple of
    it, goes on to the system call with the control blocks as the guest gave them.  The count
    of elements, an int, is 0 then, no vector is translated, and the host kernel takes the
    addresses of the guest for addresses of the monitor. *)
Theorem io_submit_passes_guest_addresses hc (arg : km_hc_args_t) (s : hs W) ls out w1 l :
  (SIZEOF_IOCB + 8) * arg.(arg2) <= w_stack s.(hs_w) -> 0 <= arg.(arg2) ->
  km_gva_to_kma (w_machine s.(hs_w)) arg.(arg3) = Some ls ->
  w_run Iocontext_xlate_p2k [Val arg.(arg1)] s.(hs_w) = Ret ((0, out), w1) -> 0 <= w_stack w1 ->
  mapM (iocb_at w1 ls) (seqZ 0 arg.(arg2)) = Some l -> elements l mod 2 ^ 32 = 0 ->
  exists s1, s1.(hs_w) = w1 /\ io_submit_hcall hc arg s = io_submit_finish ls arg (nth 0 out 0) l s1.
Proof.
  intros Hst Hn Hls Hx Hst1 Hl He. unfold io_submit_hcall, on_stack, bind, get, km_assert.
  rewrite (proj2 (Z.leb_le _ _) Hst). cbn [ret]. unfold kma. rewrite Hls. cbn [hs_w log]. unfold call_out. cbn [hs_w log]. rewrite Hx. cbn [negb Z.eqb].
  match goal with |- context [copy_iocbs ls 0 _ 0 ?x] =>
    destruct (copy_iocbs_run ls (Z.to_nat arg.(arg2)) 0 0 x l eq_refl) as (s' & E & Hs'); [rewrite Z2Nat.id by done; exact Hl|] end.
  rewrite E. rewrite Z.add_0_l. assert (E0 : int32 (elements l) = 0).
  { unfold int32. rewrite Z.add_mod, He by lia. reflexivity. }
  rewrite E0. cbn [Z.leb Z.compare ret]. rewrite Z.mul_0_r, Hs'. cbn [hs_w log set_w]. rewrite (proj2 (Z.leb_le _ _) Hst1). cbn [ret Z.ltb Z.compare].
  exists s'. by rewrite Hs'.
Qed.
End Escape.

(** Two vectors, of 1 and of 2^32 - 1 elements, the first at an address of the monitor. *)
Lemma io_submit_passes_guest_addresses_witness : exists s1,
  io_submit_hcall 209 (mk_args 0 7 2 LIST 0 0 0) (start escape_args)
  = io_submit_finish LIST (mk_args 0 7 2 LIST 0 0 0) 0
      [mk_iocb IOCB_CMD_PREADV (Raw 0x7f0000001000) 1; mk_iocb IOCB_CMD_PREADV (Raw 0) (2 ^ 32 - 1)] s1.
Proof.
  destruct (io_submit_passes_guest_addresses 209 (mk_args 0 7 2 LIST 0 0 0) (start escape_args) LIST [] (start escape_args).(hs_w)
    [mk_iocb IOCB_CMD_PREADV (Raw 0x7f0000001000) 1; mk_iocb IOCB_CMD_PREADV (Raw 0) (2 ^ 32 - 1)]) as (s1 & _ & E);
    [vm_compute; discriminate|vm_compute; discriminate|vm_compute; reflexivity|reflexivity|vm_compute; discriminate|vm_compute; reflexivity|vm_compute; reflexivity|].
  by exists s1.
Defined.

(** An operation the monitor does not know ends it. *)
Definition unknown_args : list (Z * Z) := at_args ARGS [0; 7; 1; LIST; 0; 0; 0] ++ at_args LIST [LIST + 0x40] ++ at_args (LIST + 0x40) [0; 0; 6; 0; 0; 0; 0; 0].
Theorem io_submit_unknown_aborts : hypercall false (exit_of 209) vcpu0 (start unknown_args) = Abort.
Proof. vm_compute. reflexivity. Qed.

(** A snapshot that failed stops the guest all the same. *)
Section Snapshot.
  Context {W : Type} `{World W}.
Theorem snapshot_failure_stops_guest hc (arg : km_hc_args_t) (s : hs W) w1 w2 w3 w4 r o1 o2 o3 o4 r1 r4 :
  arg.(arg1) = 0 -> arg.(arg2) = 0 -> int32 arg.(arg3) = 0 ->
  w_run Vcpu_sync_rip [] s.(hs_w) = Ret ((r1, o1), w1) -> w_run Snapshot_block [] w1 = Ret ((0, o2), w2) ->
  w_run Snapshot_create [Ptr None; Ptr None; Ptr None] w2 = Ret ((r, o3), w3) -> w_run Snapshot_unblock [] w3 = Ret ((r4, o4), w4) ->
  exists s', snapshot_hcall hc arg s = Ret (HC_ALLSTOP, s') /\ s'.(hs_ret) = u64 r.
Proof.
  intros E1 E2 E3 R1 R2 R3 R4. unfold snapshot_hcall. rewrite E1, E2, E3. unfold bind, kma, call, call_out, bind, ret, modify. rewrite !kma_zero. change (bad None 0) with false. cbn [hs_w log]. rewrite !kma_zero.
  change (bad None 0) with false. cbn [hs_w log]. rewrite R1. cbn [hs_w log set_w]. rewrite R2. change (u64 0 =? 0) with true. cbn [negb hs_w log set_w]. rewrite R3. cbn [hs_w log set_w]. rewrite R4.
  rewrite (proj2 (Z.ltb_ge (u64 r) 0)) by apply u64_range. eexists. by split.
Qed.
End Snapshot.
