(* ===== verification/GuestStart.v ===== *)
(** * The guest's first stack (km_init_guest.c)

    [km_init_main] allocates the stack of the main thread and lays out strings,
    auxiliary vector, pointers and argc as the ABI wants them.  [stk] is the pair of
    stack pointers the source moves together, as the guest and as the monitor sees them,
    with the memory at addresses of the monitor.  Strings are their bytes without the
    NUL. *)
From S2P Require Import Prelude Machine MemGeom TopBreak MemBrk MmapRegion MmapGuest FdTable Signal Stdio Notes IoContext CoreFs CoreDump.

Definition GUEST_STACK_SIZE : Z := 2 * MIB.
Definition GUEST_ARG_MAX : Z := 32 * KM_PAGE_SIZE.
Definition FAILED_GA : Z := 2 ^ 64 - 1.

(** ** Memory *)
Definition put_bytes (a : Z) (l : list Z) (mem : Z -> Z) : Z -> Z := fun x =>
  if (a <=? x) && (x <? a + Z.of_nat (length l)) then nth (Z.to_nat (x - a)) l 0 else mem x.
Record stk := mk_stk { stack_top : Z; stack_top_kma : Z; sk_mem : Z -> Z }.
(** Room is taken below the top and filled. *)
Definition push (l : list Z) (s : stk) : stk :=
  let n := Z.of_nat (length l) in mk_stk (s.(stack_top) -u n) (s.(stack_top_kma) - n) (put_bytes (s.(stack_top_kma) - n) l s.(sk_mem)).

(** ** Strings *)
Definition strnlen (s : list Z) (n : nat) : nat := Nat.min (length s) n.
(** strncpy fills up with zeros, and puts none behind [n] bytes. *)
Definition strncpy (s : list Z) (n : nat) : list Z := take n s ++ repeat 0 (n - length s).
(** The strings in the order they are placed, with their addresses; [None]: there are too
    many. *)
Fixpoint place_strings (map_base : Z) (l : list (list Z)) (s : stk) : option (list Z * stk) :=
  match l with
  | [] => Some ([], s)
  | x :: l =>
      let len := (strnlen x PATH_MAX + 1)%nat in
      if GUEST_ARG_MAX <? map_base + GUEST_STACK_SIZE -u (s.(stack_top) -u Z.of_nat len) then None
      else
        let s := push (strncpy x len) s in
        match place_strings map_base l s with None => None | Some (ps, s') => Some (s.(stack_top) :: ps, s') end
  end.

(** ** The auxiliary vector *)
Definition PT_PHDR : Z := 6.
Definition AT_PHDR : Z := 3.
Definition AT_PHENT : Z := 4.
Definition AT_PHNUM : Z := 5.
Definition AT_PAGESZ : Z := 6.
Definition AT_BASE : Z := 7.
Definition AT_FLAGS : Z := 8.
Definition AT_ENTRY : Z := 9.
Definition AT_UID : Z := 11.
Definition AT_EUID : Z := 12.
Definition AT_GID : Z := 13.
Definition AT_EGID : Z := 14.
Definition AT_PLATFORM : Z := 15.
Definition AT_CLKTCK : Z := 17.
Definition AT_SECURE : Z := 23.
Definition AT_RANDOM : Z := 25.
Definition AT_EXECFN : Z := 31.
Definition AT_SYSINFO_EHDR : Z := 33.
Definition AT_MINSIGSTKSZ : Z := 51.

(** What the host has: the answer of getrandom and the bytes it left, the ticks of a
    second, the size of a signal stack; and where the guest has the vdso. *)
Record start_env := mk_start_env { getrandom : Z * list Z; clk_tck : Z; SIGSTKSZ : Z; vdso_base : Z }.

Definition phdr_of (ty : Z) (p : payload) : option elf_phdr := find (fun ph => ph.(ph_type) =? ty) p.(pl_phdr).
(** Prefer PT_PHDR, then the first PT_LOAD. *)
Definition at_phdr (g : payload) : option Z :=
  match phdr_of PT_PHDR g with
  | Some ph => Some (ph.(ph_vaddr) +u g.(pl_load_adjust))
  | None =>
      match phdr_of PT_LOAD g with
      | Some ph => Some (g.(pl_ehdr).(e_phoff) + ph.(ph_vaddr) +u g.(pl_load_adjust))
      | None => None
      end
  end.
(** The entries in the order they are pushed. *)
Definition auxv_entries (e : start_env) (guest dynlinker : payload) (platform_gva execfn at_random phdr : Z) : list (Z * Z) :=
  [(0, 0); (AT_PLATFORM, platform_gva); (AT_EXECFN, execfn)]
  ++ (if negb (at_random =? 0) then [(AT_RANDOM, at_random)] else [])
  ++ [(AT_SECURE, 0); (AT_EGID, 0); (AT_GID, 0); (AT_EUID, 0); (AT_UID, 0); (AT_ENTRY, guest.(pl_ehdr).(e_entry) +u guest.(pl_load_adjust)); (AT_FLAGS, 0)]
  ++ (match dynlinker.(pl_filename) with Some _ => [(AT_BASE, dynlinker.(pl_load_adjust))] | None => [] end)
  ++ [(AT_PHNUM, guest.(pl_ehdr).(e_phnum)); (AT_PHENT, guest.(pl_ehdr).(e_phentsize)); (AT_PHDR, phdr); (AT_CLKTCK, e.(clk_tck)); (AT_PAGESZ, KM_PAGE_SIZE);
      (AT_MINSIGSTKSZ, if 0 <? e.(SIGSTKSZ) then e.(SIGSTKSZ) + 2 * KM_PAGE_SIZE else 4 * KM_PAGE_SIZE)]
  ++ (if negb (e.(vdso_base) =? 0) then [(AT_SYSINFO_EHDR, e.(vdso_base))] else []).
Definition new_auxv_ent (s : stk) (ent : Z * Z) : stk := push (le 8 ent.1 ++ le 8 ent.2) s.
Definition words (l : list Z) : list Z := flat_map (le 8) l.

(** ** The stack *)
Record start_st := mk_start { gs_machine : machine; gs_mem : Z -> Z; gs_auxv : list Z; gs_stack_top : Z }.
Definition platform : list Z := map (fun a => Z.of_N (Ascii.N_of_ascii a)) (chars "X86_64").

Section Start.
  Context `{Host} `{!GuestFiles} (env : start_env) (guest dynlinker : payload).

Definition realign (m : machine) (top : Z) (s : stk) : stk := mk_stk top (km_gva_to_kma_nocheck m top) s.(sk_mem).
Definition bytes_from (mem : Z -> Z) (a : Z) (n : nat) : list Z := map (fun i => mem (a + Z.of_nat i)) (seq 0 n).

(** Random bytes for AT_RANDOM; 0 when there are too few, and then the room is not kept. *)
Definition place_random (s : stk) : Z * stk :=
  let (rc, bytes) := env.(getrandom) in
  let below := s.(stack_top) -u 16 in
  let mem := put_bytes (s.(stack_top_kma) - 16) (take 16 bytes) s.(sk_mem) in
  if negb (rc =? 16) then (0, mk_stk s.(stack_top) s.(stack_top_kma) mem) else (below, mk_stk below (s.(stack_top_kma) - 16) mem).

(** The part of km_init_main behind the allocation, on a stack at [map_base]. *)
Definition build_stack (m : machine) (map_base : Z) (argv envp : list (list Z)) (mem : Z -> Z) : outcome (stk * list Z) :=
  let argc := Z.of_nat (length argv) in
  let envc := Z.of_nat (length envp) + 1 in
  let top := map_base +u GUEST_STACK_SIZE in
  match place_strings map_base envp (mk_stk top (km_gva_to_kma_nocheck m top) mem) with
  | None => Abort
  | Some (km_envp, s) =>
      let s := realign m (rounddown s.(stack_top) 8) s in
      match place_strings map_base (rev argv) s with
      | None => Abort
      | Some (ptrs, s) =>
          let argv_km := rev ptrs in
          let s := push (platform ++ [0]) s in
          let platform_gva := s.(stack_top) in
          let (at_random, s) := place_random s in
          let top := rounddown s.(stack_top) 16 in
          let top := if negb ((argc + envc) mod 2 =? 0) then top -u 8 else top in
          let s := realign m top s in
          let auxv_end := s.(stack_top_kma) in
          match at_phdr guest with
          | None => Abort
          | Some phdr =>
              let s := fold_left new_auxv_ent (auxv_entries env guest dynlinker platform_gva (nth 0 (argv_km ++ [0]) 0) at_random phdr) s in
              let auxv := bytes_from s.(sk_mem) s.(stack_top_kma) (Z.to_nat (auxv_end - s.(stack_top_kma))) in
              let s := push (words (km_envp ++ [0])) s in
              let s := push (words (argv_km ++ [0])) s in
              let s := push (le 8 argc) s in
              Ret (s, auxv)
          end
      end
  end.
Definition km_init_main (argv envp : list (list Z)) : M start_st Z := fun st =>
  match km_guest_mmap_simple GUEST_STACK_SIZE st.(gs_machine) with
  | Ret (map_base, m) =>
      if map_base =? FAILED_GA then Abort
      else
        match build_stack m map_base argv envp st.(gs_mem) with
        | Ret (s, auxv) => Ret (s.(stack_top), mk_start m s.(sk_mem) auxv s.(stack_top))
        | Abort => Abort
        | NoFuel => NoFuel
        end
  | Abort => Abort
  | NoFuel => NoFuel
  end.
End Start.
