(* ===== verification/GuestStartProps.v ===== *)
(** * The guest's first stack is what the ABI says (proofs)

    [abi_read] reads a stack the way the startup code of a C library does.  What
    km_init_main has laid out reads back as the arguments, the environment and the
    auxiliary vector, on an aligned stack that fits its allocation. *)
From S2P Require Import Prelude Machine MemGeom TopBreak MemBrk MmapRegion MmapGuest MmapList MmapRange MmapFree MmapCorrect FdTable Signal Stdio Notes IoContext CoreFs CoreDump GuestStart.

(** ** A reader of the stack; [g]: guest memory *)
Section Reader.
  Context (g : Z -> Z).
Definition word_at (a : Z) : Z := le_val (bytes_from g a 8).
Definition string_at (a : Z) : list Z := cstr (bytes_from g a (S PATH_MAX)).
Definition pointers (n : nat) (a : Z) : list Z := map (fun i => word_at (a + 8 * Z.of_nat i)) (seq 0 n).
Fixpoint until_null (fuel : nat) (a : Z) : list Z :=
  match fuel with O => [] | S fuel => if word_at a =? 0 then [] else word_at a :: until_null fuel (a + 8) end.
Fixpoint read_auxv (fuel : nat) (a : Z) : list (Z * Z) :=
  match fuel with O => [] | S fuel => if word_at a =? 0 then [] else (word_at a, word_at (a + 8)) :: read_auxv fuel (a + 16) end.
Definition abi_read (sp : Z) : list (list Z) * list (list Z) * list (Z * Z) :=
  let argc := Z.to_nat (word_at sp) in
  let envp := sp + 8 + 8 * (Z.of_nat argc + 1) in
  let envs := until_null (Z.to_nat GUEST_ARG_MAX) envp in
  (map string_at (pointers argc (sp + 8)), map string_at envs, read_auxv 32 (envp + 8 * (Z.of_nat (length envs) + 1))).
End Reader.

(** ** Pushing *)
Definition here (mem : Z -> Z) (a : Z) (l : list Z) : Prop := forall i, (i < length l)%nat -> mem (a + Z.of_nat i) = nth i l 0.
Lemma here_bytes mem a l : here mem a l -> bytes_from mem a (length l) = l.
Proof.
  intros Hh. unfold bytes_from. apply (nth_ext _ _ 0 0); [by rewrite length_map, length_seq|]. rewrite length_map, length_seq. intros i Hi.
  rewrite (nth_indep _ 0 (mem (a + Z.of_nat O))) by (by rewrite length_map, length_seq). rewrite (map_nth (fun i => mem (a + Z.of_nat i))), seq_nth by done. by apply Hh.
Qed.
Lemma here_app mem a l1 l2 : here mem a (l1 ++ l2) <-> here mem a l1 /\ here mem (a + Z.of_nat (length l1)) l2.
Proof.
  split.
  - intros Hh. split; intros i Hi.
    + rewrite Hh by (rewrite length_app; lia). by apply app_nth1.
    + rewrite <- Z.add_assoc, <- Nat2Z.inj_add, Hh by (rewrite length_app; lia). rewrite app_nth2 by lia. f_equal. lia.
  - intros [H1 H2] i Hi. rewrite length_app in Hi. destruct (Nat.lt_ge_cases i (length l1)) as [Hl|Hl]; [rewrite app_nth1 by done; by apply H1|].
    rewrite app_nth2 by done. rewrite <- H2 by lia. f_equal. lia.
Qed.
Lemma here_word g a v : 0 <= v < 2 ^ 64 -> here g a (le 8 v) -> word_at g a = v.
Proof. intros Hv Hh. apply here_bytes in Hh. rewrite length_le in Hh. unfold word_at. rewrite Hh. by apply le_val_le. Qed.
Lemma bytes_app mem a n k : bytes_from mem a (n + k) = bytes_from mem a n ++ bytes_from mem (a + Z.of_nat n) k.
Proof.
  unfold bytes_from. rewrite seq_app, map_app. f_equal. replace (0 + n)%nat with (n + 0)%nat by lia. rewrite <- fmap_add_seq. change (Nat.add n <$> seq 0 k) with (map (Nat.add n) (seq 0 k)).
  rewrite map_map. apply map_ext. intros i. f_equal. lia.
Qed.
Lemma here_string g a x : no_nul x -> (length x <= PATH_MAX)%nat -> here g a (x ++ [0]) -> string_at g a = x.
Proof.
  intros Hx Hl Hh. apply here_bytes in Hh. rewrite length_app in Hh. cbn [length] in Hh. unfold string_at. replace (S PATH_MAX) with (length x + 1 + (PATH_MAX - length x))%nat by lia.
  rewrite bytes_app, Hh, <- app_assoc. by apply cstr_put.
Qed.

(** ** Reading back *)
Definition u64s (l : list Z) : Prop := Forall (fun v => 0 < v < 2 ^ 64) l.
Lemma length_words l : length (words l) = (8 * length l)%nat.
Proof. unfold words. induction l as [|v l IH]; [done|]. cbn [flat_map length]. rewrite length_app, length_le, IH. lia. Qed.
Lemma words_app l1 l2 : words (l1 ++ l2) = words l1 ++ words l2.
Proof. unfold words. apply flat_map_app. Qed.
Lemma words_cons v l : words (v :: l) = le 8 v ++ words l.
Proof. done. Qed.
Lemma here_cons g a v l : here g a (words (v :: l)) -> here g a (le 8 v) /\ here g (a + 8) (words l).
Proof. rewrite words_cons, here_app, length_le. done. Qed.
Lemma until_null_words g fuel a l : (length l < fuel)%nat -> u64s l -> here g a (words (l ++ [0])) -> until_null g fuel a = l.
Proof.
  intros Hf Hl. revert fuel a Hf. induction Hl as [|v l Hv Hl IH]; intros [|fuel] a Hf Hh; cbn [length] in Hf; try lia; cbn [app] in Hh; apply here_cons in Hh as [H1 H2]; cbn [until_null].
  - by rewrite (here_word _ _ 0) by (done || lia).
  - rewrite (here_word _ _ v) by (done || lia). destruct (Z.eqb_spec v 0); [lia|]. f_equal. apply IH; [lia|done].
Qed.
Lemma pointers_words g a l : u64s l -> here g a (words l) -> pointers g (length l) a = l.
Proof.
  intros Hl Hh. unfold pointers. revert a Hh. induction Hl as [|v l Hv Hl IH]; intros a Hh; [done|]. apply here_cons in Hh as [H1 H2]. cbn [length]. rewrite <- cons_seq, <- fmap_S_seq. cbn [map]. f_equal.
  - rewrite Z.mul_0_r, Z.add_0_r. apply here_word; [lia|done].
  - rewrite <- (IH _ H2) at 2. change (S <$> seq 0 (length l)) with (map S (seq 0 (length l))). rewrite map_map. apply map_ext. intros i. f_equal. lia.
Qed.
Definition pair_ok (e : Z * Z) : Prop := 0 < e.1 < 2 ^ 64 /\ 0 <= e.2 < 2 ^ 64.
Definition pairs (l : list (Z * Z)) : list Z := flat_map (fun e => le 8 e.1 ++ le 8 e.2) l.
Lemma read_auxv_pairs g fuel a l : (length l < fuel)%nat -> Forall pair_ok l -> here g a (pairs (l ++ [(0, 0)])) -> read_auxv g fuel a = l.
Proof.
  intros Hf Hl. revert fuel a Hf. induction Hl as [|[t v] l [Ht Hv] Hl IH]; intros [|fuel] a Hf Hh; cbn [length] in Hf; try lia; cbn [app pairs flat_map fst snd] in Hh; cbn [read_auxv];
    rewrite <- app_assoc, here_app, here_app, !length_le in Hh; destruct Hh as (H1 & H2 & H3).
  - by rewrite (here_word _ _ 0) by (done || lia).
  - cbn [fst snd] in *. rewrite (here_word _ _ t), (here_word _ _ v) by (done || lia). destruct (Z.eqb_spec t 0); [lia|]. f_equal. apply IH; [lia|]. replace (a + 16) with (a + Z.of_nat 8 + Z.of_nat 8) by lia. exact H3.
Qed.

(** A stack between [base] and [top], whose addresses the monitor has [off] lower. *)
Section Stack.
  Context (base top off : Z) (Hb : 0 < base) (Ht : top < 2 ^ 62).
Record at_ok (s : stk) : Prop := { ak_kma : s.(stack_top_kma) = s.(stack_top) - off; ak_low : base <= s.(stack_top); ak_high : s.(stack_top) <= top }.
(** What lies above the stack pointer stays. *)
Record keeps (s s' : stk) : Prop := { kp_down : s'.(stack_top) <= s.(stack_top); kp_mem : forall x, s.(stack_top_kma) <= x -> s'.(sk_mem) x = s.(sk_mem) x }.
Definition view_of (s : stk) (a : Z) : Z := s.(sk_mem) (a - off).

Lemma stk_keeps_refl s : keeps s s.
Proof. by split. Qed.
Lemma stk_keeps_trans s1 s2 s3 : at_ok s1 -> at_ok s2 -> keeps s1 s2 -> keeps s2 s3 -> keeps s1 s3.
Proof. intros [E1 _ _] [E2 _ _] [D1 M1] [D2 M2]. split; [lia|]. intros x Hx. rewrite M2 by lia. by apply M1. Qed.
Lemma here_keeps s s' a l : at_ok s -> keeps s s' -> s.(stack_top) <= a -> here (view_of s) a l -> here (view_of s') a l.
Proof. intros [E _ _] [_ Hm] Ha Hh i Hi. unfold view_of. rewrite Hm by lia. by apply Hh. Qed.
Lemma push_ok l s : at_ok s -> base + Z.of_nat (length l) <= s.(stack_top) ->
  at_ok (push l s) /\ (push l s).(stack_top) = s.(stack_top) - Z.of_nat (length l) /\ keeps s (push l s) /\ here (view_of (push l s)) (push l s).(stack_top) l.
Proof.
  intros [E Hl Hh] Hr. assert (Ep : s.(stack_top) -u Z.of_nat (length l) = s.(stack_top) - Z.of_nat (length l)) by (apply u64_small; unfold is_u64, two64; lia).
  unfold push. rewrite Ep. split; [split; cbn; lia|]. split; [done|]. split.
  - split; cbn; [lia|]. intros x Hx. unfold put_bytes. destruct (Z.leb_spec (stack_top_kma s - Z.of_nat (length l)) x), (Z.ltb_spec x (stack_top_kma s - Z.of_nat (length l) + Z.of_nat (length l))); cbn; [lia|done..].
  - intros i Hi. unfold view_of, put_bytes. cbn. rewrite E. match goal with |- context [nth (Z.to_nat ?x) _ _] => replace x with (Z.of_nat i) by lia end.
    rewrite (proj2 (Z.leb_le _ _)), (proj2 (Z.ltb_lt _ _)) by lia. cbn. by rewrite Nat2Z.id.
Qed.
Definition string_ok (x : list Z) : Prop := no_nul x /\ (length x <= PATH_MAX)%nat.
Definition room (l : list (list Z)) : Z := foldr (fun x n => Z.of_nat (length x) + 1 + n) 0 l.
Lemma room_length l : Z.of_nat (length l) <= room l.
Proof. unfold room. induction l as [|x l IH]; cbn [foldr length]; lia. Qed.
Lemma strncpy_all x : (length x <= PATH_MAX)%nat -> strncpy x (strnlen x PATH_MAX + 1) = x ++ [0].
Proof. intros Hl. unfold strncpy, strnlen. rewrite Nat.min_l by done. rewrite take_ge by lia. f_equal. by replace (length x + 1 - length x)%nat with 1%nat by lia. Qed.

Context (Htop : top = base + GUEST_STACK_SIZE).
Lemma place_ok l s :
  at_ok s -> Forall string_ok l -> top - s.(stack_top) + room l <= GUEST_ARG_MAX ->
  exists ps s', place_strings base l s = Some (ps, s') /\ at_ok s' /\ keeps s s' /\ s'.(stack_top) = s.(stack_top) - room l
    /\ Forall2 (fun p x => s'.(stack_top) <= p /\ p + Z.of_nat (length x) + 1 <= top /\ here (view_of s') p (x ++ [0])) ps l.
Proof.
  intros Hs Hl. revert s Hs. induction Hl as [|x l [Hx Hlen] Hl IH]; intros s Hs Hroom; cbn [place_strings].
  - exists [], s. cbn [room foldr]. split_and!; [done|done|apply stk_keeps_refl|lia|constructor].
  - assert (HM : GUEST_ARG_MAX < GUEST_STACK_SIZE) by reflexivity. assert (Hpos : 0 <= room l) by (pose proof (room_length l); lia). cbn [room foldr] in Hroom. fold (room l) in Hroom.
    assert (Hn : Z.of_nat (length (strncpy x (strnlen x PATH_MAX + 1))) = Z.of_nat (length x) + 1) by (rewrite strncpy_all, length_app by done; cbn; lia).
    destruct (push_ok (strncpy x (strnlen x PATH_MAX + 1)) s Hs) as (H1 & H2 & H3 & H4); [lia|]. set (s1 := push _ s) in *.
    assert (Hlen' : Z.of_nat (strnlen x PATH_MAX + 1) = Z.of_nat (length x) + 1) by (unfold strnlen; rewrite Nat.min_l by done; lia). rewrite Hlen'. destruct Hs as [Hk Hlo Hhi].
    assert (Eu : s.(stack_top) -u (Z.of_nat (length x) + 1) = s.(stack_top) - (Z.of_nat (length x) + 1)) by (apply u64_small; unfold is_u64, two64; lia). rewrite Eu, <- Htop.
    rewrite u64_small by (unfold is_u64, two64; lia). destruct (Z.ltb_spec GUEST_ARG_MAX (top - (s.(stack_top) - (Z.of_nat (length x) + 1)))); [lia|].
    destruct (IH s1 H1) as (ps & s' & -> & A1 & A2 & A3 & A4); [lia|]. exists (s1.(stack_top) :: ps), s'. cbn [room foldr]. fold (room l). split_and!; [done|done| |lia|].
    + eapply stk_keeps_trans; [by split|exact H1|exact H3|exact A2].
    + constructor; [|done]. split_and!; [lia|lia|]. rewrite strncpy_all in H4 by done. by apply (here_keeps s1).
Qed.
Lemma auxv_ok l s :
  at_ok s -> base + 16 * Z.of_nat (length l) <= s.(stack_top) ->
  let s' := fold_left new_auxv_ent l s in
  at_ok s' /\ keeps s s' /\ s'.(stack_top) = s.(stack_top) - 16 * Z.of_nat (length l) /\ here (view_of s') s'.(stack_top) (pairs (rev l)).
Proof.
  cbv zeta. revert s. induction l as [|e l IH]; intros s Hs Hr; cbn [fold_left length rev] in *; [split_and!; [done|apply stk_keeps_refl|lia|intros i Hi; cbn in Hi; lia]|].
  assert (Hn : length (le 8 e.1 ++ le 8 e.2) = 16%nat) by (by rewrite length_app, !length_le). destruct (push_ok (le 8 e.1 ++ le 8 e.2) s Hs) as (H1 & H2 & H3 & H4); [rewrite Hn; lia|].
  rewrite Hn in H2. fold (new_auxv_ent s e) in *. set (s1 := new_auxv_ent s e) in *. destruct (IH s1 H1) as (A1 & A2 & A3 & A4); [lia|]. split_and!; [done|by eapply (stk_keeps_trans s s1)|lia|].
  unfold pairs. rewrite flat_map_app. apply here_app. split; [exact A4|]. cbn [flat_map]. rewrite app_nil_r.
  assert (Hlen : Z.of_nat (length (pairs (rev l))) = 16 * Z.of_nat (length l)).
  { rewrite <- (length_rev l). generalize (rev l). intros k. unfold pairs. induction k as [|x k IHk]; [done|]. cbn [flat_map length]. rewrite !length_app, !length_le. lia. }
  fold (pairs (rev l)). rewrite Hlen. replace (_ + _) with s1.(stack_top) by lia. by apply (here_keeps s1).
Qed.
End Stack.

Lemma platform_short : (length platform <= PATH_MAX)%nat.
Proof. apply Nat.leb_le. reflexivity. Qed.
#[local] Opaque PATH_MAX.
(** ** The whole stack *)
Section Build.
  Context (env : start_env) (guest dynlinker : payload) (m : machine) (base : Z).
  Context (Hb : 0 < base) (Ht : base + GUEST_STACK_SIZE < 2 ^ 62).
  Context (off : Z) (Hkma : forall a, base <= a <= base + GUEST_STACK_SIZE -> km_gva_to_kma_nocheck m a = a - off).
#[local] Abbreviation top := (base + GUEST_STACK_SIZE).
#[local] Abbreviation okay := (at_ok base top off).

(** What the host and the headers of the program give fits its fields. *)
Record start_env_ok (phdr : Z) : Prop := {
  so_phdr : at_phdr guest = Some phdr;
  so_phnum : 0 <= guest.(pl_ehdr).(e_phnum) < 2 ^ 64;
  so_phent : 0 <= guest.(pl_ehdr).(e_phentsize) < 2 ^ 64;
  so_adjust : 0 <= dynlinker.(pl_load_adjust) < 2 ^ 64;
  so_tck : 0 <= env.(clk_tck) < 2 ^ 64;
  so_sig : env.(SIGSTKSZ) < 2 ^ 31;
  so_vdso : 0 <= env.(vdso_base) < 2 ^ 64;
  so_random : env.(getrandom).1 = 16 -> length env.(getrandom).2 = 16%nat;
}.

Lemma realign_ok t s : okay s -> base <= t <= s.(stack_top) -> okay (realign m t s) /\ keeps s (realign m t s).
Proof. intros [E Hl Hh] Hr. split; [split; cbn; [apply Hkma; lia|lia|lia]|]. split; [cbn; lia|done]. Qed.

Lemma random_ok phdr s :
  start_env_ok phdr -> okay s -> base + 16 <= s.(stack_top) ->
  let (r, s') := place_random env s in
  okay s' /\ keeps s s' /\ s.(stack_top) - 16 <= s'.(stack_top) /\ 0 <= r /\ r + 16 <= top
  /\ (env.(getrandom).1 = 16 -> r <> 0 /\ s'.(stack_top) <= r /\ here (view_of off s') r env.(getrandom).2) /\ (env.(getrandom).1 <> 16 -> r = 0).
Proof.
  intros Ho [E Hl Hh] Hr. pose proof (so_random _ Ho) as Hran. unfold place_random. destruct (getrandom env) as [rc bytes]. cbn [fst snd] in *.
  assert (Eu : s.(stack_top) -u 16 = s.(stack_top) - 16) by (apply u64_small; unfold is_u64, two64; lia). rewrite Eu.
  assert (Hput : forall x, s.(stack_top_kma) <= x -> put_bytes (stack_top_kma s - 16) (take 16 bytes) (sk_mem s) x = sk_mem s x).
  { intros x Hx. unfold put_bytes. rewrite length_take. destruct (Z.ltb_spec x (stack_top_kma s - 16 + Z.of_nat (Init.Nat.min 16 (length bytes)))); [lia|]. by rewrite andb_false_r. }
  destruct (Z.eqb_spec rc 16) as [->|Hrc]; cbn [negb].
  - specialize (Hran eq_refl). split_and!; [split; cbn; lia|split; cbn; [lia|exact Hput]|cbn; lia|lia|lia| |done]. intros _. cbn. split_and!; [lia|lia|]. intros i Hi. unfold view_of, put_bytes. cbn.
    rewrite take_ge by lia. rewrite E. match goal with |- context [nth (Z.to_nat ?x) _ _] => replace x with (Z.of_nat i) by lia end.
    rewrite (proj2 (Z.leb_le _ _)), (proj2 (Z.ltb_lt _ _)) by lia. cbn. by rewrite Nat2Z.id.
  - split_and!; [split; cbn; lia|split; cbn; [lia|exact Hput]|cbn; lia|lia|unfold GUEST_STACK_SIZE in *; lia|done|done].
Qed.

Lemma entries_ok phdr platform_gva execfn r :
  start_env_ok phdr -> 0 <= phdr < 2 ^ 64 -> 0 < platform_gva < 2 ^ 64 -> 0 <= execfn < 2 ^ 64 -> 0 <= r < 2 ^ 64 ->
  exists l, auxv_entries env guest dynlinker platform_gva execfn r phdr = (0, 0) :: l /\ Forall pair_ok l /\ (length l < 20)%nat.
Proof.
  intros [] Hp Hg He Hr. assert (HP : KM_PAGE_SIZE = 4096) by done. pose proof (u64_range (e_entry (pl_ehdr guest) + pl_load_adjust guest)) as Hen. unfold is_u64, two64 in Hen.
  exists (tl (auxv_entries env guest dynlinker platform_gva execfn r phdr)). split; [done|]. unfold auxv_entries. cbn [app tl].
  assert (Hty : Forall (fun t => 0 < t < 2 ^ 64) [AT_PLATFORM; AT_EXECFN; AT_RANDOM; AT_SECURE; AT_EGID; AT_GID; AT_EUID; AT_UID; AT_ENTRY; AT_FLAGS; AT_BASE; AT_PHNUM; AT_PHENT; AT_PHDR; AT_CLKTCK; AT_PAGESZ; AT_MINSIGSTKSZ; AT_SYSINFO_EHDR])
    by (repeat (apply Forall_cons_2; [vm_compute; by split|]); constructor).
  repeat (apply Forall_cons_1 in Hty as [? Hty]). clear Hty. rewrite HP.
  destruct (negb (r =? 0)), (pl_filename dynlinker), (negb (vdso_base env =? 0)), (Z.ltb_spec 0 (SIGSTKSZ env)); cbn [app length];
    (split; [repeat (apply Forall_cons_2; [split; cbn [fst snd]; lia|]); constructor|lia]).
Qed.

Definition guest_view (s : stk) (a : Z) : Z := s.(sk_mem) (km_gva_to_kma_nocheck m a).
Lemma here_guest s a l : base <= a -> a + Z.of_nat (length l) <= top -> here (view_of off s) a l -> here (guest_view s) a l.
Proof. intros H1 H2 Hh i Hi. unfold guest_view. rewrite Hkma by lia. exact (Hh i Hi). Qed.
(** Addresses of strings, as they are seen from a later stack. *)
Definition points (s : stk) (p : Z) (x : list Z) : Prop := base <= p < 2 ^ 62 /\ string_at (guest_view s) p = x.
Lemma strings_point s s' ps l :
  okay s -> keeps s s' -> Forall string_ok l ->
  Forall2 (fun p x => s.(stack_top) <= p /\ p + Z.of_nat (length x) + 1 <= top /\ here (view_of off s) p (x ++ [0])) ps l -> Forall2 (points s') ps l.
Proof.
  intros Hs Hk Hl HF. induction HF as [|p x ps l (H1 & H2 & H3) HF IH]; [constructor|]. apply Forall_cons_1 in Hl as [[Hx Hlen] Hl]. constructor; [|by apply IH]. pose proof (ak_low _ _ _ _ Hs). split; [lia|].
  apply here_string; [done|done|]. apply here_guest; [lia|rewrite length_app; cbn; lia|]. by apply (here_keeps base top off s).
Qed.
Lemma points_read s ps l : Forall2 (points s) ps l -> map (string_at (guest_view s)) ps = l /\ u64s ps.
Proof. induction 1 as [|p x ps l [Hp <-] HF [IH1 IH2]]; [by split; [|constructor]|]. cbn. rewrite IH1. split; [done|]. constructor; [lia|done]. Qed.

(** What a program asks of the auxiliary vector, by the numbers of the ABI. *)
Definition getauxval (aux : list (Z * Z)) (ty : Z) : option Z := snd <$> find (fun e => e.1 =? ty) aux.
Record abi_auxv (g : Z -> Z) (phdr : Z) (argv : list (list Z)) (aux : list (Z * Z)) : Prop := {
  av_once : NoDup aux.*1;
  av_phdr : getauxval aux 3 = Some phdr;
  av_phent : getauxval aux 4 = Some guest.(pl_ehdr).(e_phentsize);
  av_phnum : getauxval aux 5 = Some guest.(pl_ehdr).(e_phnum);
  av_pagesz : getauxval aux 6 = Some 4096;
  av_base : getauxval aux 7 = match dynlinker.(pl_filename) with Some _ => Some dynlinker.(pl_load_adjust) | None => None end;
  av_flags : getauxval aux 8 = Some 0;
  av_entry : getauxval aux 9 = Some ((guest.(pl_ehdr).(e_entry) + guest.(pl_load_adjust)) mod 2 ^ 64);
  av_ids : Forall (fun ty => getauxval aux ty = Some 0) [11; 12; 13; 14];
  av_platform : exists p, getauxval aux 15 = Some p /\ string_at g p = [88; 56; 54; 95; 54; 52];
  av_clktck : getauxval aux 17 = Some env.(clk_tck);
  av_secure : getauxval aux 23 = Some 0;
  av_random : if env.(getrandom).1 =? 16 then exists r, getauxval aux 25 = Some r /\ bytes_from g r 16 = env.(getrandom).2 else getauxval aux 25 = None;
  av_execfn : exists p, getauxval aux 31 = Some p /\ match argv with [] => p = 0 | x :: _ => string_at g p = x end;
  av_vdso : getauxval aux 33 = if env.(vdso_base) =? 0 then None else Some env.(vdso_base);
  av_minsigstksz : getauxval aux 51 = Some (if 0 <? env.(SIGSTKSZ) then env.(SIGSTKSZ) + 8192 else 16384);
  av_only : Forall (fun ty => ty ∈ [3; 4; 5; 6; 7; 8; 9; 11; 12; 13; 14; 15; 17; 23; 25; 31; 33; 51]) aux.*1;
}.

Lemma entries_auxv g phdr argv platform_gva execfn r :
  string_at g platform_gva = platform -> match argv with [] => execfn = 0 | x :: _ => string_at g execfn = x end ->
  (if env.(getrandom).1 =? 16 then r <> 0 /\ bytes_from g r 16 = env.(getrandom).2 else r = 0) ->
  abi_auxv g phdr argv (rev (tl (auxv_entries env guest dynlinker platform_gva execfn r phdr))).
Proof.
  intros Hp Hx Hr. unfold auxv_entries. assert (Er : (getrandom env).1 = 16 /\ negb (r =? 0) = true \/ (getrandom env).1 <> 16 /\ negb (r =? 0) = false).
  { destruct (Z.eqb_spec (getrandom env).1 16); [left|right; by subst r]. destruct (Z.eqb_spec r 0); tauto. }
  destruct (Z.eqb_spec (getrandom env).1 16) as [E16|E16]; destruct Er as [[? ->]|[? ->]]; try done;
    (destruct (pl_filename dynlinker) eqn:Ef, (vdso_base env =? 0) eqn:Ev); cbn [negb app tl rev];
    split; rewrite ?Ef, ?Ev, ?(proj2 (Z.eqb_eq _ _) E16), ?(proj2 (Z.eqb_neq _ _) E16); try reflexivity;
    try (apply (bool_decide_unpack _); vm_compute; exact I); try (repeat (apply Forall_cons_2; [reflexivity|]); by constructor);
    try (eexists; split; [reflexivity|]; done || apply Hr).
Qed.

(** The stack, from the lowest word up; [auxv]: the copy for core dumps. *)
Record abi_stack (phdr : Z) (argv envp : list (list Z)) (s : stk) (auxv : list Z) : Prop := {
  ab_fits : base <= s.(stack_top);
  ab_aligned : s.(stack_top) mod 16 = 0;
  ab_read : exists aux, abi_read (guest_view s) s.(stack_top) = (argv, envp, aux) /\ auxv = pairs (aux ++ [(0, 0)]) /\ abi_auxv (guest_view s) phdr argv aux;
}.

(** The words from the auxiliary vector down to argc. *)
Definition place_words (ents : list (Z * Z)) (eps args : list Z) (s : stk) : stk * list Z :=
  let auxv_end := s.(stack_top_kma) in
  let s := fold_left new_auxv_ent ents s in
  let auxv := bytes_from s.(sk_mem) s.(stack_top_kma) (Z.to_nat (auxv_end - s.(stack_top_kma))) in
  (push (le 8 (Z.of_nat (length args))) (push (words (args ++ [0])) (push (words (eps ++ [0])) s)), auxv).
Lemma length_pairs l : length (pairs l) = (16 * length l)%nat.
Proof. unfold pairs. induction l as [|x l IH]; [done|]. cbn [flat_map length]. rewrite !length_app, !length_le. lia. Qed.
Lemma words_ok l eps args s :
  okay s -> Forall pair_ok l -> (length l < 20)%nat -> u64s eps -> u64s args -> Z.of_nat (length eps) + Z.of_nat (length args) < GUEST_ARG_MAX ->
  base + 16 * 21 + 8 * (Z.of_nat (length eps) + Z.of_nat (length args) + 3) <= s.(stack_top) ->
  let (s', auxv) := place_words ((0, 0) :: l) eps args s in
  okay s' /\ keeps s s' /\ s'.(stack_top) = s.(stack_top) - 16 * (Z.of_nat (length l) + 1) - 8 * (Z.of_nat (length eps) + Z.of_nat (length args) + 3)
  /\ auxv = pairs (rev l ++ [(0, 0)])
  /\ abi_read (guest_view s') s'.(stack_top) = (map (string_at (guest_view s')) args, map (string_at (guest_view s')) eps, rev l).
Proof.
  intros O6 Hl Hlen Hep Har Hn Hroom. unfold place_words.
  destruct (auxv_ok base top off Hb Ht ((0, 0) :: l) s O6) as (O7 & K7 & T7 & P7); [cbn [length]; lia|]. cbn [length rev] in T7, P7. set (s7 := fold_left _ _ s) in *.
  destruct (push_ok base top off Hb Ht (words (eps ++ [0])) s7 O7) as (O8 & T8 & K8 & P8); [rewrite length_words, length_app; cbn [length]; lia|]. rewrite length_words, length_app in T8. cbn [length] in T8. set (s8 := push _ s7) in *.
  destruct (push_ok base top off Hb Ht (words (args ++ [0])) s8 O8) as (O9 & T9 & K9 & P9); [rewrite length_words, length_app; cbn [length]; lia|]. rewrite length_words, length_app in T9. cbn [length] in T9. set (s9 := push _ s8) in *.
  destruct (push_ok base top off Hb Ht (le 8 (Z.of_nat (length args))) s9 O9) as (O10 & T10 & K10 & P10); [rewrite length_le; lia|]. rewrite length_le in T10. set (s10 := push _ s9) in *.
  pose proof (stk_keeps_trans _ _ _ _ _ _ O8 O9 K9 K10) as K810. pose proof (stk_keeps_trans _ _ _ _ _ _ O7 O8 K8 K810) as K710. pose proof (stk_keeps_trans _ _ _ _ _ _ O6 O7 K7 K710) as K610.
  pose proof (ak_high _ _ _ _ O6). pose proof (ak_low _ _ _ _ O10).
  assert (Haux : bytes_from (sk_mem s7) (stack_top_kma s7) (Z.to_nat (stack_top_kma s - stack_top_kma s7)) = pairs (rev l ++ [(0, 0)])).
  { rewrite (ak_kma _ _ _ _ O6), (ak_kma _ _ _ _ O7). assert (Hb7 : bytes_from (view_of off s7) (stack_top s7) (length (pairs (rev l ++ [(0, 0)]))) = pairs (rev l ++ [(0, 0)])) by (by apply here_bytes).
    rewrite <- Hb7. rewrite length_pairs, length_app, length_rev. cbn [length]. unfold bytes_from, view_of. replace (Z.to_nat _) with (16 * (length l + 1))%nat by lia. apply map_ext. intros i. f_equal. lia. }
  split_and!; [done|done|lia|exact Haux|].
  assert (Q10 : here (guest_view s10) s10.(stack_top) (le 8 (Z.of_nat (length args)))) by (apply here_guest; [lia|rewrite length_le; lia|done]).
  assert (Q9 : here (guest_view s10) (s10.(stack_top) + 8) (words (args ++ [0]))).
  { replace (s10.(stack_top) + 8) with s9.(stack_top) by lia. apply here_guest; [lia|rewrite length_words, length_app; cbn [length]; lia|]. by apply (here_keeps base top off s9). }
  assert (Q8 : here (guest_view s10) (s10.(stack_top) + 8 + 8 * (Z.of_nat (length args) + 1)) (words (eps ++ [0]))).
  { replace (s10.(stack_top) + 8 + _) with s8.(stack_top) by lia. apply here_guest; [lia|rewrite length_words, length_app; cbn [length]; lia|]. by apply (here_keeps base top off s8). }
  assert (Q7 : here (guest_view s10) (s10.(stack_top) + 8 + 8 * (Z.of_nat (length args) + 1) + 8 * (Z.of_nat (length eps) + 1)) (pairs (rev l ++ [(0, 0)]))).
  { replace (s10.(stack_top) + 8 + _ + _) with s7.(stack_top) by lia. apply here_guest; [lia|rewrite length_pairs, length_app, length_rev; cbn [length]; lia|]. by apply (here_keeps base top off s7). }
  unfold abi_read. assert (HA : GUEST_ARG_MAX = 131072) by done. rewrite (here_word _ _ (Z.of_nat (length args))) by (done || lia). rewrite Nat2Z.id.
  rewrite (until_null_words _ _ _ eps) by (done || lia). rewrite (read_auxv_pairs _ _ _ (rev l)) by (done || (rewrite length_rev; lia) || (by apply Forall_rev)).
  rewrite (pointers_words _ _ args); [done|done|]. rewrite words_app, here_app in Q9. apply Q9.
Qed.

Lemma platform_no_nul : no_nul platform.
Proof. change platform with [88; 56; 54; 95; 54; 52]. repeat (apply Forall_cons_2; [lia|]). constructor. Qed.
Lemma aligned t k n a e :
  t mod 16 = (if negb ((a + (e + 1)) mod 2 =? 0) then 8 else 0) -> n = a + e -> (t - 16 * k - 8 * (n + 3)) mod 16 = 0.
Proof.
  intros Hm ->. pose proof (Z.div_mod t 16 ltac:(lia)) as D. pose proof (Z.div_mod (a + (e + 1)) 2 ltac:(lia)) as D2. pose proof (Z.mod_pos_bound (a + (e + 1)) 2 ltac:(lia)).
  destruct (Z.eqb_spec ((a + (e + 1)) mod 2) 0); cbn [negb] in Hm;
    [replace (t - _ - _) with ((t / 16 - k - (a + (e + 1)) / 2 - 1) * 16) by lia|replace (t - _ - _) with ((t / 16 - k - (a + (e + 1)) / 2 - 1) * 16) by lia]; apply Z.mod_mul; lia.
Qed.

Lemma build_ok phdr argv envp mem :
  start_env_ok phdr -> 0 <= phdr < 2 ^ 64 -> Forall string_ok argv -> Forall string_ok envp -> room envp + room argv + 7 <= GUEST_ARG_MAX ->
  exists s auxv, build_stack env guest dynlinker m base argv envp mem = Ret (s, auxv) /\ abi_stack phdr argv envp s auxv.
Proof.
  intros Ho Hph Ha He Hroom. pose proof (room_length argv) as Hna. pose proof (room_length envp) as Hne. assert (Hsz : GUEST_STACK_SIZE = 2097152 /\ GUEST_ARG_MAX = 131072) by done. destruct Hsz as [Hsz Hmax].
  unfold build_stack. rewrite (u64_small top) by (unfold is_u64, two64; lia). set (s0 := mk_stk top _ mem). assert (O0 : okay s0) by (split; cbn; [apply Hkma; lia|lia|lia]).
  destruct (place_ok base top off Hb Ht eq_refl envp s0 O0 He) as (eps & s1 & -> & O1 & K1 & T1 & E1); [cbn; lia|]. change (stack_top s0) with top in T1.
  destruct (realign_ok (rounddown s1.(stack_top) 8) s1 O1) as [O2 K2]; [pose proof (rounddown_le s1.(stack_top) 8); lia|]. set (s2 := realign m _ s1) in *.
  assert (T2 : s1.(stack_top) - 7 <= s2.(stack_top) <= s1.(stack_top)) by (pose proof (rounddown_le s1.(stack_top) 8); cbn; lia).
  assert (Hrev : room (rev argv) = room argv).
  { clear. induction argv as [|x l IH]; [done|]. cbn [rev]. unfold room in *. rewrite foldr_app. cbn [foldr]. assert (Hg : forall k n, foldr (fun (x : list Z) n => Z.of_nat (length x) + 1 + n) n k = foldr (fun (x : list Z) n => Z.of_nat (length x) + 1 + n) 0 k + n).
    { intros k n. induction k as [|y k IHk]; cbn [foldr]; lia. } rewrite Hg, IH. lia. }
  destruct (place_ok base top off Hb Ht eq_refl (rev argv) s2 O2) as (aps & s3 & -> & O3 & K3 & T3 & E3); [by apply Forall_rev|rewrite Hrev; lia|]. rewrite Hrev in T3.
  destruct (push_ok base top off Hb Ht (platform ++ [0]) s3 O3) as (O4 & T4 & K4 & P4); [change (length _) with 7%nat; lia|]. change (length (platform ++ [0])) with 7%nat in T4. set (s4 := push _ s3) in *.
  pose proof (random_ok phdr s4 Ho O4) as Hran. destruct (place_random env s4) as [r s5]. destruct Hran as (O5 & K5 & T5 & Hr & Hr' & Hr1 & Hr2); [lia|].
  set (argc := Z.of_nat (length argv)). set (odd := negb _). set (t6 := if odd then _ else _). assert (T6 : s5.(stack_top) - 23 <= t6 <= s5.(stack_top) /\ t6 mod 16 = if odd then 8 else 0).
  { pose proof (ak_high _ _ _ _ O5). pose proof (rounddown_le s5.(stack_top) 16 ltac:(lia)) as Hd. pose proof (rounddown_mod s5.(stack_top) 16 ltac:(lia)) as Hmod. unfold t6. destruct odd; [|split; [lia|done]].
    rewrite u64_small by (unfold is_u64, two64; lia). split; [lia|]. rewrite Zminus_mod, Hmod. done. }
  destruct T6 as [T6 Hmod]. clearbody t6. destruct (realign_ok t6 s5 O5) as [O6 K6]; [lia|]. set (s6 := realign m t6 s5) in *. rewrite (so_phdr _ Ho). set (execfn := nth 0 (rev aps ++ [0]) 0).
  assert (Hargs : length (rev aps) = length argv) by (rewrite length_rev, (Forall2_length _ _ _ E3), length_rev; done). assert (Heps : length eps = length envp) by apply (Forall2_length _ _ _ E1).
  assert (K46 : keeps s4 s6) by (exact (stk_keeps_trans _ _ _ _ _ _ O4 O5 K5 K6)). assert (K36 : keeps s3 s6) by (exact (stk_keeps_trans _ _ _ _ _ _ O3 O4 K4 K46)).
  assert (K16 : keeps s1 s6) by (exact (stk_keeps_trans _ _ _ _ _ _ O1 O2 K2 (stk_keeps_trans _ _ _ _ _ _ O2 O3 K3 K36))).
  destruct (points_read _ _ _ (strings_point s1 s6 eps envp O1 K16 He E1)) as [_ Ue]. destruct (points_read _ _ _ (strings_point s3 s6 aps _ O3 K36 (Forall_rev Ha) E3)) as [_ Ua].
  apply Forall_rev in Ua. assert (Hx : 0 <= execfn < 2 ^ 64) by (unfold execfn; destruct (rev aps) as [|p ps]; [cbn; lia|]; apply Forall_cons_1 in Ua as [Hp _]; cbn; lia).
  assert (Hbounds : base < s4.(stack_top) < 2 ^ 62 /\ base + 1900000 <= s6.(stack_top)) by (change (stack_top s6) with t6; pose proof (ak_high _ _ _ _ O4); lia). destruct Hbounds as [H4 H6].
  destruct (entries_ok phdr s4.(stack_top) execfn r Ho Hph) as (l & El & Hl & Hlen); [lia|lia|lia|]. rewrite El.
  pose proof (words_ok l eps (rev aps) s6 O6 Hl Hlen Ue Ua) as Hw. unfold argc. rewrite <- Hargs. destruct (place_words ((0, 0) :: l) eps (rev aps) s6) as [s auxv] eqn:Ew. exists s, auxv. split; [by rewrite <- Ew|].
  destruct Hw as (O7 & K7 & T7 & Hauxv & Hread); [lia|lia|]. split; [apply O7| |].
  - rewrite T7. change (stack_top s6) with t6. apply (aligned t6 _ _ (Z.of_nat (length argv)) (Z.of_nat (length envp))); [exact Hmod|rewrite Hargs, Heps; lia].
  - exists (rev (tl (auxv_entries env guest dynlinker s4.(stack_top) execfn r phdr))). rewrite El. cbn [tl]. pose proof (stk_keeps_trans _ _ _ _ _ _ O4 O6 K46 K7) as K47.
    destruct (points_read _ _ _ (strings_point s1 s eps envp O1 (stk_keeps_trans _ _ _ _ _ _ O1 O6 K16 K7) He E1)) as [Re _].
    destruct (points_read _ _ _ (strings_point s3 s aps _ O3 (stk_keeps_trans _ _ _ _ _ _ O3 O6 K36 K7) (Forall_rev Ha) E3)) as [Ra _].
    assert (Rargs : map (string_at (guest_view s)) (rev aps) = argv) by (by rewrite map_rev, Ra, rev_involutive). split_and!; [by rewrite Hread, Re, Rargs|done|].
    change l with (tl ((0, 0) :: l)). rewrite <- El. apply entries_auxv.
    + apply here_string; [apply platform_no_nul|apply platform_short|]. apply here_guest; [lia|change (length (platform ++ [0])) with 7%nat; pose proof (ak_high _ _ _ _ O3); lia|]. by apply (here_keeps base top off s4).
    + unfold execfn. rewrite <- Rargs. by destruct (rev aps) as [|p ps].
    + destruct (Z.eqb_spec (getrandom env).1 16) as [E16|E16]; [|by apply Hr2]. destruct (Hr1 E16) as (Hr0 & Hrl & Hrh). split; [exact Hr0|]. pose proof (so_random _ Ho E16) as H16. rewrite <- H16. apply here_bytes, here_guest; [pose proof (ak_low _ _ _ _ O5); lia| |].
      * lia.
      * apply (here_keeps base top off s5); [done|exact (stk_keeps_trans _ _ _ _ _ _ O5 O6 K6 K7)|done|done].
Qed.
End Build.

(** ** With the allocation *)
Section Main.
  Context `{Host} `{!GuestFiles} (env : start_env) (guest dynlinker : payload).
#[local] Abbreviation TOP := GUEST_MEM_TOP_VA.

(** Where the stack is allocated. *)
Lemma stack_allocated m b m' :
  mmap_inv m -> host_mmap_fixed -> GUEST_STACK_SIZE < m.(tbrk) - GUEST_VA_OFFSET m -> km_guest_mmap_simple GUEST_STACK_SIZE m = Ret (b, m') -> b <> FAILED_GA ->
  mmap_inv m' /\ 0 < b /\ b + GUEST_STACK_SIZE <= TOP /\ (forall a, b <= a < b + GUEST_STACK_SIZE -> ~ mapped m.(mmaps_busy) a)
  /\ forall a, b <= a <= b + GUEST_STACK_SIZE -> km_gva_to_kma_nocheck m' a = a - GUEST_VA_OFFSET m'.
Proof.
  intros T Hh Hr E Hb. assert (HT : TOP < 2 ^ 40) by reflexivity. assert (Hrd : roundup GUEST_STACK_SIZE KM_PAGE_SIZE = GUEST_STACK_SIZE) by reflexivity. pose proof (tb_bounds m (ti_tb _ _ T)) as [Hb1 Hb2].
  assert (W : wp tb_exit (km_guest_mmap 0 GUEST_STACK_SIZE (Z.lor PROT_READ PROT_WRITE) (Z.lor MAP_PRIVATE MAP_ANONYMOUS) (-1) 0)
    (fun r s => mmap_inv s /\ mm_frame m s /\ mmap_outcome m (roundup GUEST_STACK_SIZE KM_PAGE_SIZE) (mk_attr (Z.lor PROT_READ PROT_WRITE) (Z.lor MAP_PRIVATE MAP_ANONYMOUS) false false None) r s) m)
    by (apply mmap_anon_spec; auto; rewrite ?Hrd; unfold GUEST_STACK_SIZE, MIB, ENOMEM in *; lia).
  unfold km_guest_mmap_simple, bind in E. unfold km_guest_mmap in W. unfold wp in W. destruct (km_guest_mmap_impl _ _ _ _ _ _ _ m) as [[r s]| |]; try discriminate E. injection E as <- <-.
  destruct W as (Ts & _ & Hout). rewrite Hrd in Hout. split; [done|]. destruct Hout as [gva s' H1 H2 H3 _|e s' He _].
  - assert (Eg : u64 (km_syscall_ok gva) = gva).
    { pose proof (tb_bounds s' (ti_tb _ _ Ts)) as [Ht Ho]. change GUEST_MEM_START_VA with 2097152 in Ht. change GUEST_STACK_SIZE with 2097152 in *. unfold km_syscall_ok. change (u64 (-4096)) with (2 ^ 64 - 4096). destruct (Z.ltb_spec (2 ^ 64 - 4096) gva); [lia|]. unfold s64.
      destruct (Z.ltb_spec gva (2 ^ 63)); [|lia]. apply u64_small. unfold is_u64, two64. lia. }
    rewrite Eg. pose proof (tb_bounds s' (ti_tb _ _ Ts)) as [Ht Ho]. change GUEST_MEM_START_VA with 2097152 in Ht. change GUEST_STACK_SIZE with 2097152 in *. split_and!; [lia|lia|done|]. intros a Ha.
    unfold km_gva_to_kma_nocheck, km_vdso_gva, km_guestmem_gva. assert (TOP < GUEST_VVAR_VDSO_BASE_VA) by reflexivity. assert (TOP < GUEST_KMGUESTMEM_BASE_VA) by reflexivity.
    destruct (Z.leb_spec GUEST_VVAR_VDSO_BASE_VA a); [lia|]. destruct (Z.leb_spec GUEST_KMGUESTMEM_BASE_VA a); [lia|].
    transitivity (if GUEST_VA_OFFSET s' <? a then a - GUEST_VA_OFFSET s' else a); [done|]. destruct (Z.ltb_spec (GUEST_VA_OFFSET s') a); [done|lia].
  - destruct Hb. unfold km_syscall_ok, neg_errno. assert (Ee : u64 (- e) = 2 ^ 64 - e).
    { unfold u64. rewrite <- (Z_mod_plus_full _ 1). rewrite Z.mod_small by (unfold two64; lia). unfold two64. lia. }
    rewrite Ee. change (u64 (-4096)) with (2 ^ 64 - 4096). destruct (Z.ltb_spec (2 ^ 64 - 4096) (2 ^ 64 - e)); [done|lia].
Qed.

Lemma phdr_range phdr : at_phdr guest = Some phdr -> 0 <= phdr < 2 ^ 64.
Proof. unfold at_phdr. destruct (phdr_of PT_PHDR guest); [intros [= <-]; apply u64_range|]. destruct (phdr_of PT_LOAD guest); [intros [= <-]; apply u64_range|done]. Qed.

(** C24. The stack of the main thread is what the ABI says: on a fresh range of 2 MiB, it is
    aligned to 16 bytes and fits, and a reader that follows the ABI finds argc, the strings
    of argv and of the environment each behind its pointer, and an auxiliary vector with the
    entries of [abi_auxv] and no others, each once: the address, size and number of the
    program headers, the entry point, the load address of the dynamic linker if there is
    one, the page size 4096, user and group ids, flags and secure mode 0, the platform's and
    the program's name behind their pointers, 16 random bytes behind theirs (no entry when
    the host gave fewer), the clock ticks, the size of a signal stack and the vdso if the
    guest has it. The copy kept for core dumps is that vector. Conditions: the range is
    granted; every argument and variable has at most PATH_MAX bytes ([string_ok]; a longer
    one is cut and gets no NUL, [long_argument_not_terminated]) and all of them with their
    NULs fit GUEST_ARG_MAX; the values fit 64 bits and the program has a PT_PHDR or PT_LOAD
    header ([start_env_ok]). *)
Theorem initial_stack_abi (argv envp : list (list Z)) (phdr : Z) (st : start_st) (b : Z) (m' : machine) :
  mmap_inv st.(gs_machine) -> host_mmap_fixed -> GUEST_STACK_SIZE < st.(gs_machine).(tbrk) - GUEST_VA_OFFSET st.(gs_machine) ->
  km_guest_mmap_simple GUEST_STACK_SIZE st.(gs_machine) = Ret (b, m') -> b <> FAILED_GA ->
  start_env_ok env guest dynlinker phdr -> Forall string_ok argv -> Forall string_ok envp -> room envp + room argv + 7 <= GUEST_ARG_MAX ->
  exists s auxv, km_init_main env guest dynlinker argv envp st = Ret (s.(stack_top), mk_start m' s.(sk_mem) auxv s.(stack_top)) /\ mmap_inv m'
    /\ (forall a, b <= a < b + GUEST_STACK_SIZE -> ~ mapped st.(gs_machine).(mmaps_busy) a) /\ abi_stack env guest dynlinker m' b phdr argv envp s auxv.
Proof.
  intros T Hh Hr E Hb Ho Ha He Hroom. destruct (stack_allocated _ _ _ T Hh Hr E Hb) as (T' & Hpos & Htop & Hnew & Hk). unfold km_init_main. rewrite E. destruct (Z.eqb_spec b FAILED_GA); [done|].
  destruct (build_ok env guest dynlinker m' b Hpos ltac:(assert (GUEST_MEM_TOP_VA < 2 ^ 40) by reflexivity; lia) _ Hk phdr argv envp st.(gs_mem) Ho (phdr_range _ (so_phdr _ _ _ _ Ho)) Ha He Hroom) as (s & auxv & Eb & Hs).
  exists s, auxv. rewrite Eb. by split_and!.
Qed.
End Main.
