(* ===== verification/GuestIntr.v ===== *)
(** * Exceptions of the guest (km_intr.c, km_guest_asmcode.s)

    The interrupt descriptor table of the guest, the stubs it points to, and
    [km_handle_interrupt], which turns an exception the stubs report into a signal.  The
    table of stubs is a list of the numbers they report; memory is by address of the
    monitor. *)
From S2P Require Import Prelude Machine MemGeom TopBreak MemBrk MmapRegion MmapGuest Signal Notes Decode.

(** ** The descriptor table *)
Record x86_idt_entry_t := mk_idt { fp_low : Z; sel_index : Z; idt_type : Z; idt_p : Z; fp_mid : Z; fp_high : Z }.
Definition X86_DSCT_INTR_GATE : Z := 0xe.
Definition X86_IDT_NENTRY : nat := 256.
Definition build_idt_entry (handler index : Z) : x86_idt_entry_t :=
  mk_idt (Z.land handler 0xffff) index X86_DSCT_INTR_GATE 1 (Z.land (Z.shiftr handler 16) 0xffff) (Z.land (Z.shiftr handler 32) 0xffffffff).

(** The stubs: [table] ends with its first 0; [other] is used behind it. *)
Fixpoint idt_handlers (n : nat) (table : list Z) (other : Z) : list Z :=
  match n with
  | O => []
  | S n =>
      match table with
      | h :: rest => if negb (h =? 0) then h :: idt_handlers n rest other else other :: idt_handlers n table other
      | [] => other :: idt_handlers n [] other
      end
  end.
Definition km_init_guest_idt (kma_to_gva : Z -> Z) (table : list Z) (other : Z) : list x86_idt_entry_t :=
  map (fun h => build_idt_entry (kma_to_gva h) 1) (idt_handlers X86_IDT_NENTRY table other).

(** The numbers the stubs of __km_interrupt_table report, and the one behind it. *)
Definition UNEX : Z := 0xff.
Definition stub_numbers : list Z := [0; UNEX; UNEX; UNEX; 4; 5; 6; 7; 8; UNEX; UNEX; UNEX; UNEX; 13; 14; UNEX; 16; 17; 18; 19; 20; 21; UNEX].
Definition other_number : Z := 0xdeadbeef.
(** The number reported for vector [v]. *)
Definition reported (v : nat) : Z := nth v stub_numbers other_number.

(** ** The handler *)
(** Bytes, so that -1 is 255. *)
Definition error_included : list Z :=
  [0; 0; 0; 0; 0; 0; 0; 0; 1; 255; 1; 1; 1; 1; 1; 255; 0; 0; 0; 0; 0; 0; 255; 255; 255; 255; 255; 255; 255; 255; 255; 255].
Record sregs_t := mk_sregs { cs_base : Z; ss_base : Z; cr2 : Z }.
(** What is posted: the signal and the address. *)
Record fault_info := mk_fault { fi_signo : Z; fi_addr : Z }.
Definition qword (mem : Z -> Z) (a : Z) : Z := le_val (map (fun i => mem (a + Z.of_nat i)) (seq 0 8)).
(** The signal of an exception, 0 where the code sets none. *)
Definition exception_signal (enumber : Z) : Z :=
  if bool_decide (enumber ∈ [0; 7; 16]) then SIGFPE
  else if bool_decide (enumber ∈ [1; 3]) then SIGTRAP
  else if bool_decide (enumber ∈ [4; 12]) then 0
  else if bool_decide (enumber ∈ [13; 14]) then SIGSEGV
  else if bool_decide (enumber ∈ [2; 8; 10]) then SIGSYS
  else SIGILL.
Definition X86_INTR_GP : Z := 13.
Definition X86_INTR_PF : Z := 14.

Section Handler.
  Context (m : machine) (mem : Z -> Z) (guest dynlinker : km_payload) (past_group : list Z) (fuel : nat).

Definition km_handle_interrupt (r : kvm_regs_t) (sr : sregs_t) : outcome (kvm_regs_t * sregs_t * fault_info) :=
  let enumber := r.(rbx) in
  if Z.of_nat (length error_included) <=? enumber then Abort
  else if nth (Z.to_nat enumber) error_included 0 =? -1 then Abort
  else
    let rsp_kma := km_gva_to_kma_nocheck m r.(rsp) in
    let iframe := if negb (nth (Z.to_nat enumber) error_included 0 =? 0) then rsp_kma + 32 else rsp_kma + 24 in
    let r' := mk_regs (qword mem rsp_kma) (qword mem (rsp_kma + 8)) r.(rcx) (qword mem (rsp_kma + 16)) r.(rsi) r.(rdi) (qword mem (iframe + 24)) r.(rbp)
                r.(r8) r.(r9) r.(r10) r.(r11) r.(r12) r.(r13) r.(r14) r.(r15) (qword mem iframe) r.(rflags) in
    let sr' := mk_sregs (qword mem (iframe + 8)) (qword mem (iframe + 32)) sr.(cr2) in
    if enumber =? X86_INTR_GP then
      match km_find_faulting_address m mem guest dynlinker past_group r' fuel with
      | Ret a => Ret (r', sr', mk_fault SIGSEGV a)
      | Abort => Abort
      | NoFuel => NoFuel
      end
    else Ret (r', sr', mk_fault (exception_signal enumber) (if enumber =? X86_INTR_PF then sr.(cr2) else 0)).
End Handler.

(** ** What the processor and the stub leave *)
(** Exceptions for which the processor pushes an error code. *)
Definition has_error_code (v : Z) : bool := bool_decide (v ∈ [8; 10; 11; 12; 13; 14; 17; 21]).
(** The words on the stack: the stub's, the error code, the processor's frame. *)
Definition exception_frame (v : Z) (r0 : kvm_regs_t) (error cs ss : Z) : list Z :=
  [r0.(rax); r0.(rbx); r0.(rdx)] ++ (if has_error_code v then [error] else []) ++ [r0.(rip); cs; r0.(rflags); r0.(rsp); ss].
Definition frame_at (mem : Z -> Z) (a : Z) (l : list Z) : Prop := forall i v, l !! i = Some v -> qword mem (a + 8 * Z.of_nat i) = v.
(** The registers in the hypercall: rax, rdx and the flags are the stub's. *)
Record in_stub (v : Z) (sp : Z) (r0 r : kvm_regs_t) : Prop := {
  is_rbx : r.(rbx) = v; is_rsp : r.(rsp) = sp;
  is_rest : [r.(rcx); r.(rsi); r.(rdi); r.(rbp); r.(r8); r.(r9); r.(r10); r.(r11); r.(r12); r.(r13); r.(r14); r.(r15)]
          = [r0.(rcx); r0.(rsi); r0.(rdi); r0.(rbp); r0.(r8); r0.(r9); r0.(r10); r0.(r11); r0.(r12); r0.(r13); r0.(r14); r0.(r15)];
}.
(** The table of hardware exceptions and signals of the AMD64 ABI, which the code cites. *)
Definition abi_signal (v : Z) : option Z :=
  if bool_decide (v ∈ [0; 7; 16]) then Some SIGFPE
  else if bool_decide (v ∈ [1; 3]) then Some SIGTRAP
  else if bool_decide (v ∈ [4; 5; 9; 12; 13; 14]) then Some SIGSEGV
  else if bool_decide (v ∈ [2; 8; 10; 11; 15]) then None
  else Some SIGILL.
Definition own_stub (v : nat) : Prop := reported v < 32.
(** What is posted instead of it: no signal for an overflow, SIGILL for a bound range, and
    SIGSYS for a double fault, for which the ABI has none. *)
Definition posted_signal (v : Z) : Z := if v =? 4 then 0 else if v =? 5 then SIGILL else if v =? 8 then SIGSYS else default 0 (abi_signal v).
Definition set_rflags (f : Z) (r : kvm_regs_t) : kvm_regs_t :=
  mk_regs r.(rax) r.(rbx) r.(rcx) r.(rdx) r.(rsi) r.(rdi) r.(rsp) r.(rbp) r.(r8) r.(r9) r.(r10) r.(r11) r.(r12) r.(r13) r.(r14) r.(r15) r.(rip) f.

Lemma frame_words mem k v r0 error cs ss :
  frame_at mem k (exception_frame v r0 error cs ss) ->
  let f := k + (if has_error_code v then 32 else 24) in
  qword mem k = r0.(rax) /\ qword mem (k + 8) = r0.(rbx) /\ qword mem (k + 16) = r0.(rdx) /\ qword mem (f + 24) = r0.(rsp) /\ qword mem f = r0.(rip)
  /\ qword mem (f + 8) = cs /\ qword mem (f + 32) = ss.
Proof.
  intros Hf f. unfold exception_frame in Hf. assert (Q : forall i x, ([rax r0; rbx r0; rdx r0] ++ (if has_error_code v then [error] else []) ++ [rip r0; cs; rflags r0; rsp r0; ss]) !! i = Some x -> qword mem (k + 8 * Z.of_nat i) = x) by exact Hf.
  unfold f. destruct (has_error_code v); rewrite <- ?Z.add_assoc.
  - rewrite <- (Z.add_0_r k) at 1. exact (conj (Q 0%nat _ eq_refl) (conj (Q 1%nat _ eq_refl) (conj (Q 2%nat _ eq_refl) (conj (Q 7%nat _ eq_refl) (conj (Q 4%nat _ eq_refl) (conj (Q 5%nat _ eq_refl) (Q 8%nat _ eq_refl))))))).
  - rewrite <- (Z.add_0_r k) at 1. exact (conj (Q 0%nat _ eq_refl) (conj (Q 1%nat _ eq_refl) (conj (Q 2%nat _ eq_refl) (conj (Q 6%nat _ eq_refl) (conj (Q 3%nat _ eq_refl) (conj (Q 4%nat _ eq_refl) (Q 7%nat _ eq_refl))))))).
Qed.
(** The handler's table agrees with the processor on the exceptions with a stub, but two. *)
Lemma signalled v : own_stub v -> v <> 17%nat -> v <> 21%nat ->
  (v < 32)%nat /\ nth v error_included 0 = (if has_error_code (Z.of_nat v) then 1 else 0) /\ exception_signal (Z.of_nat v) = posted_signal (Z.of_nat v) /\ reported v = Z.of_nat v.
Proof.
  intros Hs H17 H21. destruct (Nat.lt_ge_cases v 32) as [Hlt|Hge].
  - split; [done|]. do 32 (destruct v as [|v]; [first [done|vm_compute in Hs; first [discriminate Hs|by split_and!]]|]). lia.
  - unfold own_stub, reported in Hs. assert (Hl : length stub_numbers = 23%nat) by done. rewrite nth_overflow in Hs by lia. unfold other_number in Hs. lia.
Qed.
Lemma posted_abi v : own_stub v -> v ∉ [4; 5; 8]%nat -> abi_signal (Z.of_nat v) = Some (posted_signal (Z.of_nat v)).
Proof.
  intros Hs Hv. destruct (Nat.lt_ge_cases v 23) as [Hlt|Hge]; [do 23 (destruct v as [|v]; [first [exfalso; apply Hv; set_solver|by vm_compute in Hs|done]|]); lia|].
  unfold own_stub, reported, other_number in Hs. rewrite nth_overflow in Hs by exact Hge. lia.
Qed.

Section Theorems.
  Context (m : machine) (mem : Z -> Z) (guest dynlinker : km_payload) (past_group : list Z) (fuel : nat).

Definition handled (v : Z) (r0 r : kvm_regs_t) (sr : sregs_t) (cs ss signo addr : Z) : Prop :=
  km_handle_interrupt m mem guest dynlinker past_group fuel r sr = Ret (set_rflags r.(rflags) r0, mk_sregs cs ss sr.(cr2), mk_fault signo addr).

(** C25. An exception whose vector has a stub of its own (#DE, #OF, #BR, #UD, #NM, #DF, #GP,
    #PF, #MF, #MC, #XM, #VE; not #AC and #CP, see below) is handled: with the processor's
    frame and the stub's words on the stack, the handler puts back rip, rsp, rax, rbx, rdx
    and the segments, leaves the other registers as they were, and posts one signal, with
    the faulting address of a page fault from cr2, that of a general protection fault from
    the decoder (which is assumed to return), and no address otherwise. The flags are not
    put back: they stay the stub's. The signal is the one of the AMD64 ABI's table, which
    the code cites, except in three cases: an overflow posts signal 0 and a bound range
    SIGILL, where the table has SIGSEGV, and a double fault, which has none there, posts
    SIGSYS. #AC and #CP push an error code the handler does not expect
    ([alignment_check_diverted]); the vectors without a stub, breakpoints and stack faults
    among them, end the monitor ([unexpected_exception_aborts]). *)
Theorem exception_becomes_signal (v : nat) (r0 r : kvm_regs_t) (sr : sregs_t) (error cs ss : Z) :
  own_stub v -> v <> 17%nat -> v <> 21%nat ->
  in_stub (reported v) r.(rsp) r0 r -> frame_at mem (km_gva_to_kma_nocheck m r.(rsp)) (exception_frame (Z.of_nat v) r0 error cs ss) ->
  (Z.of_nat v = X86_INTR_GP -> exists a, km_find_faulting_address m mem guest dynlinker past_group (set_rflags r.(rflags) r0) fuel = Ret a) ->
  exists addr, handled (Z.of_nat v) r0 r sr cs ss (posted_signal (Z.of_nat v)) addr
    /\ (v ∉ [4; 5; 8]%nat -> abi_signal (Z.of_nat v) = Some (posted_signal (Z.of_nat v)))
    /\ (if Z.of_nat v =? X86_INTR_PF then addr = sr.(cr2)
        else if Z.of_nat v =? X86_INTR_GP then km_find_faulting_address m mem guest dynlinker past_group (set_rflags r.(rflags) r0) fuel = Ret addr
        else addr = 0).
Proof.
  intros Hst H17 H21 [Hbx _ Hrest] Hf Hgp. injection Hrest as E1 E2 E3 E4 E5 E6 E7 E8 E9 E10 E11 E12.
  destruct (signalled _ Hst H17 H21) as (Hlt & Her & Hsn & Hrep). rewrite Hrep in Hbx. set (e := nth v error_included 0) in *. set (k := km_gva_to_kma_nocheck m (rsp r)) in *.
  assert (Habi : v ∉ [4; 5; 8]%nat -> abi_signal (Z.of_nat v) = Some (posted_signal (Z.of_nat v))) by (intros Hv; by apply posted_abi).
  destruct (frame_words _ _ _ _ _ _ _ Hf) as (W1 & W2 & W3 & W4 & W5 & W6 & W7). unfold handled, km_handle_interrupt. rewrite Hbx, Nat2Z.id. fold k e.
  destruct (Z.leb_spec (Z.of_nat (length error_included)) (Z.of_nat v)); [cbn in *; lia|]. assert (He1 : (e =? -1) = false) by (destruct (has_error_code _); subst e; rewrite Her; done). rewrite He1.
  assert (Hfr : (if negb (e =? 0) then k + 32 else k + 24) = k + (if has_error_code (Z.of_nat v) then 32 else 24)) by (rewrite Her; by destruct (has_error_code _)). rewrite Hfr, W1, W2, W3, W4, W5, W6, W7, E1, E2, E3, E4, E5, E6, E7, E8, E9, E10, E11, E12.
  fold (set_rflags (rflags r) r0). destruct (Z.eqb_spec (Z.of_nat v) X86_INTR_GP) as [Eg|Eg].
  - destruct (Hgp Eg) as [a Ha]. rewrite Ha. exists a. split_and!; [by rewrite Eg|done|]. by rewrite Eg.
  - eexists. rewrite Hsn. split; [reflexivity|]. split; [done|]. by destruct (Z.of_nat v =? X86_INTR_PF).
Qed.
(** Exceptions without a stub of their own end the monitor, breakpoints and stack faults
    of the guest among them. *)
Theorem unexpected_exception_aborts (v : nat) (r : kvm_regs_t) (sr : sregs_t) :
  32 <= reported v -> r.(rbx) = reported v -> km_handle_interrupt m mem guest dynlinker past_group fuel r sr = Abort.
Proof. intros Hv E. unfold km_handle_interrupt. rewrite E. destruct (Z.leb_spec (Z.of_nat (length error_included)) (reported v)); [done|cbn in *; lia]. Qed.
(** After an alignment check the guest goes on at the error code: the handler's table says
    that there is none. *)
Theorem alignment_check_diverted (r0 r : kvm_regs_t) (sr : sregs_t) (error cs ss : Z) :
  in_stub 17 r.(rsp) r0 r -> frame_at mem (km_gva_to_kma_nocheck m r.(rsp)) (exception_frame 17 r0 error cs ss) ->
  exists r' sr' f, km_handle_interrupt m mem guest dynlinker past_group fuel r sr = Ret (r', sr', f) /\ r'.(rip) = error /\ r'.(rsp) = r0.(rflags).
Proof.
  intros [Hbx _ _] Hf. unfold km_handle_interrupt. rewrite Hbx. do 3 eexists. split; [reflexivity|]. cbn [rip rsp nth error_included Z.to_nat]. unfold frame_at in Hf.
  split; [exact (Hf 3%nat _ eq_refl)|]. change (qword mem (km_gva_to_kma_nocheck m (rsp r) + 24 + 24) = rflags r0). rewrite <- Z.add_assoc. exact (Hf 6%nat _ eq_refl).
Qed.
End Theorems.

(** ** The descriptor table *)
Definition entry_handler (e : x86_idt_entry_t) : Z := Z.lor e.(fp_low) (Z.lor (Z.shiftl e.(fp_mid) 16) (Z.shiftl e.(fp_high) 32)).
Lemma entry_handler_ok h index : 0 <= h < 2 ^ 64 -> entry_handler (build_idt_entry h index) = h.
Proof.
  intros Hh. unfold entry_handler, build_idt_entry. cbn [fp_low fp_mid fp_high]. change 0xffff with (Z.ones 16). change 0xffffffff with (Z.ones 32). rewrite !Z.land_ones by lia. apply Z.bits_inj'. intros n Hn.
  rewrite !Z.lor_spec, !Z.shiftl_spec by lia. destruct (Z.lt_ge_cases n 16) as [H1|H1].
  - rewrite Z.mod_pow2_bits_low by lia. rewrite (Z.testbit_neg_r _ (n - 16)), (Z.testbit_neg_r _ (n - 32)) by lia. by rewrite !orb_false_r.
  - rewrite Z.mod_pow2_bits_high by lia. cbn [orb]. destruct (Z.lt_ge_cases n 32) as [H2|H2].
    + rewrite Z.mod_pow2_bits_low, Z.shiftr_spec by lia. rewrite (Z.testbit_neg_r _ (n - 32)) by lia. rewrite orb_false_r. f_equal. lia.
    + rewrite (Z.mod_pow2_bits_high _ 16) by lia. cbn [orb]. destruct (Z.lt_ge_cases n 64) as [H3|H3].
      * rewrite Z.mod_pow2_bits_low, Z.shiftr_spec by lia. f_equal. lia.
      * rewrite Z.mod_pow2_bits_high by lia. symmetry. destruct (Z.eq_dec h 0) as [->|]; [by rewrite Z.bits_0|]. apply Z.bits_above_log2; [lia|]. apply Z.log2_lt_pow2; [lia|].
        apply (Z.lt_le_trans _ (2 ^ 64)); [lia|]. apply Z.pow_le_mono_r; lia.
Qed.
Lemma idt_handlers_nth n l rest other v : Forall (fun h => h <> 0) l -> (v < n)%nat -> nth v (idt_handlers n (l ++ 0 :: rest) other) 0 = nth v l other.
Proof.
  revert n v. induction l as [|h l IH]; intros n v Hl Hv.
  - cbn [app]. assert (Hn : forall k, idt_handlers k (0 :: rest) other = repeat other k) by (intros k; induction k as [|k IHk]; cbn; [done|]; by rewrite IHk). rewrite Hn.
    rewrite nth_repeat_lt by done. by destruct v.
  - apply Forall_cons_1 in Hl as [Hh Hl]. destruct n as [|n]; [lia|]. cbn [app idt_handlers]. destruct (Z.eqb_spec h 0); [done|]. cbn [negb]. destruct v as [|v]; [done|]. cbn [nth]. apply IH; [done|lia].
Qed.
(** Every vector's entry is a present interrupt gate to its stub. *)
Theorem idt_points_to_stubs (kma_to_gva : Z -> Z) (table rest : list Z) (other : Z) (v : nat) :
  Forall (fun h => h <> 0) table -> (forall h, 0 <= kma_to_gva h < 2 ^ 64) -> (v < X86_IDT_NENTRY)%nat ->
  exists e, km_init_guest_idt kma_to_gva (table ++ 0 :: rest) other !! v = Some e /\ entry_handler e = kma_to_gva (nth v table other)
    /\ e.(idt_p) = 1 /\ e.(idt_type) = X86_DSCT_INTR_GATE /\ e.(sel_index) = 1.
Proof.
  intros Ht Hk Hv. unfold km_init_guest_idt. revert Hv. generalize X86_IDT_NENTRY. intros n0 Hv. assert (Hm : forall (f : Z -> x86_idt_entry_t) l, map f l !! v = f <$> (l !! v)) by (intros f l; exact (list_lookup_fmap f l v)).
  assert (Hlen : forall n t, length (idt_handlers n t other) = n).
  { intros n. induction n as [|n IH]; intros [|h t]; cbn [idt_handlers length]; [done|done|by rewrite IH|]. destruct (negb _); cbn [length]; by rewrite IH. }
  pose proof (idt_handlers_nth n0 table rest other v Ht Hv) as Hn. rewrite Hm. destruct (idt_handlers n0 (table ++ 0 :: rest) other !! v) as [h|] eqn:E.
  - rewrite (nth_lookup_Some _ _ _ _ E) in Hn. subst h. eexists. split_and!; [reflexivity|by apply entry_handler_ok|done..].
  - apply lookup_ge_None in E. rewrite Hlen in E. lia.
Qed.
