(* ===== verification/GuestLoad.v ===== *)
(** * Loading of a program (load_elf.c)

    The segments of an ELF file are mapped into the guest's memory below the break.  The
    search for dlopen in the symbol table is left out. *)
From S2P Require Import Prelude Machine MemGeom TopBreak MemBrk MmapRegion MmapGuest FdTable Signal Stdio Notes IoContext CoreFs CoreDump FdRecover Snapshot.

Definition ET_EXEC : Z := 2.
Definition ET_DYN : Z := 3.
Definition PT_INTERP : Z := 3.

Record load_st := mk_load { ld_m : machine; ld_mem : Z -> Z }.

Section Load.
  Context `{Host}.

Definition at_machine {A} (c : M machine A) : M load_st A := fun s =>
  match c s.(ld_m) with Ret (a, m) => Ret (a, mk_load m s.(ld_mem)) | Abort => Abort | NoFuel => NoFuel end.
Definition change_mem (f : (Z -> Z) -> Z -> Z) : M load_st unit := modify (fun s => mk_load s.(ld_m) (f s.(ld_mem))).
Definition zero_bytes (a n : Z) (mem : Z -> Z) : Z -> Z := fun x => if (a <=? x) && (x <? a + n) then 0 else mem x.

(** mmap wants a page of the file. *)
Definition map_program_section (f : elf_file) (buf count offset : Z) : M load_st unit :=
  if 0 <? count then
    let* r := at_machine (hcall (H_mmap buf count PROT_WRITE (Z.lor MAP_PRIVATE MAP_FIXED) 0 offset)) in
    if (r <? 0) || negb (offset mod KM_PAGE_SIZE =? 0) then abort
    else
      change_mem (map_file f buf count offset) ;;;
      if negb (count =? roundup count KM_PAGE_SIZE) then change_mem (zero_bytes (buf + count) (roundup count KM_PAGE_SIZE - count)) else ret tt
  else ret tt.

(** A segment whose file part is larger than its memory makes the length of memset wrap. *)
Definition load_extent (f : elf_file) (ph : elf_phdr) (base : Z) : M load_st unit :=
  let top := u64 (ph.(ph_paddr) + ph.(ph_memsz) + base) in
  km_assert (GUEST_MEM_START_VA <=? top) ;;;
  let* cur := at_machine (km_mem_brk 0) in
  (if cur <=? top then let* r := at_machine (km_mem_brk top) in if negb (r =? top) then abort else ret tt else ret tt) ;;;
  let* s := get in
  let addr := u64 (km_gva_to_kma_nocheck s.(ld_m) ph.(ph_paddr) + base) in
  let extra := addr - rounddown addr KM_PAGE_SIZE in
  map_program_section f (addr - extra) (u64 (ph.(ph_filesz) + extra)) (u64 (ph.(ph_offset) - extra)) ;;;
  km_assert (ph.(ph_filesz) <=? ph.(ph_memsz)) ;;;
  change_mem (zero_bytes (addr + ph.(ph_filesz)) (ph.(ph_memsz) - ph.(ph_filesz))) ;;;
  let* r := at_machine (hcall (H_mprotect (addr - extra) (u64 (ph.(ph_memsz) + extra)) (protection_adjust (prot_elf_to_mmap ph.(ph_flags))))) in
  if r <? 0 then abort else ret tt.
Fixpoint load_extents (f : elf_file) (phs : list elf_phdr) (base : Z) : M load_st unit :=
  match phs with
  | [] => ret tt
  | ph :: rest => (if ph.(ph_type) =? PT_LOAD then load_extent f ph base else ret tt) ;;; load_extents f rest base
  end.

(** -1U is taken for the largest address. *)
Definition min_vaddr (phs : list elf_phdr) : Z :=
  fold_left (fun v ph => if (ph.(ph_type) =? PT_LOAD) && (ph.(ph_vaddr) <? v) then ph.(ph_vaddr) else v) phs (2 ^ 32 - 1).
(** The address and the length of the name of the dynamic linker; 0: there is none. *)
Definition interp_of (phs : list elf_phdr) : Z * Z :=
  fold_left (fun v ph => if ph.(ph_type) =? PT_INTERP then (ph.(ph_vaddr), ph.(ph_filesz)) else v) phs (0, 0).

(** [open_file]: the file of a name, if it is there. *)
Context (open_file : list Z -> option elf_file).
Definition read_elf (f : elf_file) : option (Elf64_Ehdr * list elf_phdr) :=
  e ← km_open_elf_file f; phs ← km_snapshot_fill_km_payload f e; Some (e, phs).
Definition load_dynlink (interp_vaddr interp_len interp_adjust : Z) : M load_st payload :=
  let* s := get in
  match km_gva_to_kma s.(ld_m) (u64 (interp_vaddr + interp_adjust)), km_gva_to_kma s.(ld_m) (u64 (interp_vaddr + interp_adjust + interp_len - 1)) with
  | Some kma, Some _ =>
      let name := cstr (map (fun i => s.(ld_mem) (kma + i)) (seqZ 0 (Z.of_nat PATH_MAX))) in
      match open_file name with
      | None => abort
      | Some f =>
          let* base := at_machine (km_mem_brk 0) in
          let* base := (if negb (base =? roundup base KM_PAGE_SIZE) then at_machine (km_mem_brk (roundup base KM_PAGE_SIZE)) else ret base) in
          match read_elf f with
          | None => abort
          | Some (e, phs) => load_extents f phs base ;;; ret (mk_pl e phs 0 (u64 (base - min_vaddr phs)) (Some name))
          end
      end
  | _, _ => abort
  end.
(** The program, its dynamic linker if it names one, and the adjustment. *)
Definition km_load_elf (path : list Z) (f : elf_file) : M load_st (payload * option payload * Z) :=
  match read_elf f with
  | None => abort
  | Some (e, phs) =>
      if negb ((e.(e_type) =? ET_EXEC) || (e.(e_type) =? ET_DYN)) then abort
      else
        let adjust := if e.(e_type) =? ET_EXEC then 0 else u64 (GUEST_MEM_START_VA - min_vaddr phs) in
        load_extents f phs adjust ;;;
        let (interp_vaddr, interp_len) := interp_of phs in
        let* dyn := (if negb (interp_vaddr =? 0) then let* d := load_dynlink interp_vaddr interp_len adjust in ret (Some d) else ret None) in
        ret (mk_pl e phs 0 adjust (Some path), dyn, adjust)
  end.
End Load.
