(* ===== verification/GuestLoadProps.v ===== *)
(** * The program is in memory as its headers say (proofs) *)
From S2P Require Import Prelude Machine MemGeom TopBreak MemBrk MmapRegion MmapGuest FdTable Signal Stdio Notes IoContext CoreFs CoreDump FdRecover Snapshot GuestLoad.

#[local] Abbreviation PAGE := KM_PAGE_SIZE.

(** The host maps files and sets protections. *)
Record host_loads `{Host} : Prop := {
  hl_mmap : forall tr a len prot fl fd off, 0 <= a -> 0 <= host_answer tr (H_mmap a len prot fl fd off);
  hl_mprotect : forall tr a len prot, 0 <= host_answer tr (H_mprotect a len prot);
}.

(** The translation of addresses does not depend on the break. *)
Lemma kma_static M b regs p tr a :
  M.(last_mem_idx) <= 35 -> outside M M.(vm_mem_regs) regs -> km_gva_to_kma_nocheck (set_brk b (with_mem M regs p tr)) a = km_gva_to_kma_nocheck M a.
Proof.
  intros Hlast Hout. assert (E1 : regs !! KM_RSRV_VDSOSLOT = M.(vm_mem_regs) !! KM_RSRV_VDSOSLOT) by (apply Hout; unfold KM_RSRV_VDSOSLOT; lia).
  assert (E2 : regs !! KM_RSRV_KMGUESTMEM_SLOT = M.(vm_mem_regs) !! KM_RSRV_KMGUESTMEM_SLOT) by (apply Hout; unfold KM_RSRV_KMGUESTMEM_SLOT; lia).
  unfold km_gva_to_kma_nocheck, km_vdso_gva, km_guestmem_gva, guestmem_reg, vdso_reg. cbn [vm_mem_regs set_brk with_mem set_vm_mem_regs set_pt set_trace km_vvar_vdso_size]. by rewrite E1, E2.
Qed.

Section Segments.
  Context `{Host} (Hl : host_loads) (Hc : host_coop) (f : elf_file) (m : machine) (w : Z) (base : Z).

(** Where a segment goes, as the monitor sees it, and the pages it takes.  Addresses are of 64
    bits: the adjustment of a file linked above 2 MiB is negative. *)
Definition place (ph : elf_phdr) : Z := u64 (km_gva_to_kma_nocheck m ph.(ph_paddr) + base).
Definition seg_top (ph : elf_phdr) : Z := u64 (ph.(ph_paddr) + ph.(ph_memsz) + base).
Definition first_page (ph : elf_phdr) : Z := rounddown (place ph) PAGE.
Definition page_end (ph : elf_phdr) : Z := rounddown (place ph + ph.(ph_memsz) + (PAGE - 1)) PAGE.
(** A segment as a linker makes it. *)
Record seg_fits (ph : elf_phdr) : Prop := {
  sf_addr : 0 <= place ph < 2 ^ 40;
  sf_top : GUEST_MEM_START_VA <= seg_top ph;
  sf_size : 0 <= ph.(ph_filesz) <= ph.(ph_memsz) /\ ph.(ph_memsz) < 2 ^ 40;
  sf_offset : 0 <= ph.(ph_offset) < 2 ^ 62 /\ ph.(ph_offset) mod PAGE = place ph mod PAGE;
}.
Definition has_bytes (mem : Z -> Z) (ph : elf_phdr) : Prop :=
  (forall i, 0 <= i < ph.(ph_filesz) -> mem (place ph + i) = f.(ef_bytes) (ph.(ph_offset) + i))
  /\ (forall i, ph.(ph_filesz) <= i < ph.(ph_memsz) -> mem (place ph + i) = 0).
(** On this machine the break is below the end of the segment and is not moved there. *)
Definition break_refused (ph : elf_phdr) (s : load_st) : Prop :=
  s.(ld_m).(brk) <= seg_top ph /\ exists m', km_mem_brk (seg_top ph) s.(ld_m) = Ret (neg_errno ENOMEM, m').
(** The loader comes to a segment, the earlier ones are loaded, and the break is refused. *)
Definition out_of_memory (phs : list elf_phdr) (s : load_st) : Prop :=
  exists pre ph post s1, phs = pre ++ ph :: post /\ ph.(ph_type) = PT_LOAD /\ load_extents f pre base s = Ret (tt, s1) /\ break_refused ph s1.
(** Machines that differ in the break only have the same addresses. *)
Definition same_places (m' : machine) : Prop := mem_inv m' w /\ forall a, km_gva_to_kma_nocheck m' a = km_gva_to_kma_nocheck m a.

Lemma place_page ph : place ph mod PAGE = place ph - first_page ph /\ 0 <= place ph - first_page ph < PAGE.
Proof. unfold first_page, rounddown. pose proof (Z.div_mod (place ph) PAGE ltac:(done)). pose proof (Z.mod_pos_bound (place ph) PAGE ltac:(done)). lia. Qed.

Lemma page_end_eq ph : seg_fits ph -> page_end ph = first_page ph + (ph.(ph_memsz) + (place ph - first_page ph) + 4095) / 4096 * 4096.
Proof.
  intros Hs. unfold page_end, rounddown. change PAGE with 4096. assert (E : first_page ph = place ph / 4096 * 4096) by done.
  replace (place ph + ph_memsz ph + (4096 - 1)) with (ph_memsz ph + (place ph - first_page ph) + 4095 + place ph / 4096 * 4096) by lia. rewrite Z.div_add by lia. lia.
Qed.
Lemma same_trace m' tr : same_places m' -> same_places (set_trace tr m').
Proof. intros [I Hk]. split; [|exact Hk]. apply (mem_inv_frame m' _ w I); [left; by destruct m'|done]. Qed.

Lemma wp_host c (Q : Z -> load_st -> Prop) s :
  (forall tr, 0 <= host_answer tr c) -> same_places s.(ld_m) -> (forall r m', 0 <= r -> same_places m' -> Q r (mk_load m' s.(ld_mem))) -> wp False (at_machine (hcall c)) Q s.
Proof. intros Hans Hs HQ. unfold wp, at_machine, hcall. cbn. apply HQ; [apply Hans|by apply same_trace]. Qed.

Lemma section_ok ph s :
  seg_fits ph -> same_places s.(ld_m) ->
  wp False (map_program_section f (first_page ph) (u64 (ph.(ph_filesz) + (place ph - first_page ph))) (u64 (ph.(ph_offset) - (place ph - first_page ph))))
    (fun _ s' => same_places s'.(ld_m) /\ (forall x, ~ first_page ph <= x < page_end ph -> s'.(ld_mem) x = s.(ld_mem) x)
       /\ forall i, 0 <= i < ph.(ph_filesz) -> s'.(ld_mem) (place ph + i) = f.(ef_bytes) (ph.(ph_offset) + i)) s.
Proof.
  intros Hf Hs. pose proof Hf as [Ha _ [Hs1 Hs2] [Ho1 Ho2]]. pose proof (place_page ph) as [Hm He]. change PAGE with 4096 in *. rewrite page_end_eq by done. set (e := place ph - first_page ph) in *.
  pose proof (Z.div_mod (ph_offset ph) 4096 ltac:(lia)) as Hd. assert (Hq : 0 <= ph_offset ph / 4096) by (apply Z.div_pos; lia).
  assert (En : u64 (ph_filesz ph + e) = ph_filesz ph + e) by (apply u64_small; unfold is_u64, two64; lia). assert (Eo : u64 (ph_offset ph - e) = ph_offset ph / 4096 * 4096) by (rewrite u64_small; [lia|unfold is_u64, two64; lia]).
  rewrite En, Eo. set (n := ph_filesz ph + e). unfold map_program_section. destruct (Z.ltb_spec 0 n) as [Hn|Hn]; [|apply wp_ret; split_and!; [done|done|lia]].
  destruct (roundup_bounds n 4096) as [Hr1 Hr2]; [lia|lia|unfold two64; lia|].
  assert (Hr3 : roundup n 4096 <= (ph_memsz ph + e + 4095) / 4096 * 4096) by (unfold roundup; rewrite u64_small by (unfold is_u64, two64; lia); apply Z.mul_le_mono_nonneg_r; [lia|]; apply Z.div_le_mono; lia).
  assert (Hfp : 0 <= first_page ph) by (apply Z.mul_nonneg_nonneg; [apply Z.div_pos; [lia|done]|done]). apply wp_bind, wp_host; [intros tr; by apply Hl|done|]. intros r m' Hr Hm'. change PAGE with 4096. rewrite Z.mod_mul by lia. destruct (Z.ltb_spec r 0); [lia|]. cbn [orb negb Z.eqb].
  apply wp_bind, wp_modify. cbn [ld_m ld_mem].
  assert (Hmap : forall x, map_file f (first_page ph) n (ph_offset ph / 4096 * 4096) (ld_mem s) x = if (first_page ph <=? x) && (x <? first_page ph + roundup n 4096) then f.(ef_bytes) (ph_offset ph / 4096 * 4096 + (x - first_page ph)) else ld_mem s x) by done.
  assert (Hin : forall i, 0 <= i < ph_filesz ph -> map_file f (first_page ph) n (ph_offset ph / 4096 * 4096) (ld_mem s) (place ph + i) = f.(ef_bytes) (ph_offset ph + i)).
  { intros i Hi. rewrite Hmap. rewrite (proj2 (Z.leb_le _ _)), (proj2 (Z.ltb_lt _ _)) by lia. cbn [andb]. f_equal. lia. }
  assert (Hout : forall x, ~ first_page ph <= x < first_page ph + (ph_memsz ph + e + 4095) / 4096 * 4096 -> map_file f (first_page ph) n (ph_offset ph / 4096 * 4096) (ld_mem s) x = ld_mem s x).
  { intros x Hx. rewrite Hmap. destruct (Z.leb_spec (first_page ph) x), (Z.ltb_spec x (first_page ph + roundup n 4096)); cbn [andb]; [lia|done..]. }
  destruct (negb _); [apply wp_modify|apply wp_ret]; cbn [ld_m ld_mem]; (split_and!; [done| |]); try done.
  - intros x Hx. unfold zero_bytes. destruct (Z.leb_spec (first_page ph + n) x), (Z.ltb_spec x (first_page ph + n + (roundup n 4096 - n))); cbn [andb]; [lia|by apply Hout..].
  - intros i Hi. unfold zero_bytes. destruct (Z.leb_spec (first_page ph + n) (place ph + i)); [lia|]. cbn [andb]. by apply Hin.
Qed.

Lemma brk_step ph s :
  GUEST_MEM_START_VA <= seg_top ph -> same_places s.(ld_m) ->
  wp (break_refused ph s) (if s.(ld_m).(brk) <=? seg_top ph then let* r := at_machine (km_mem_brk (seg_top ph)) in if negb (r =? seg_top ph) then abort else ret tt else ret tt)
    (fun _ s' => same_places s'.(ld_m) /\ s'.(ld_mem) = s.(ld_mem)) s.
Proof.
  intros Ht [I Hk]. unfold wp, bind. destruct (Z.leb_spec (brk (ld_m s)) (seg_top ph)) as [Hle|]; [|by split]. set (top := seg_top ph) in *.
  pose proof (km_mem_brk_spec s.(ld_m) w I top (or_intror Ht)) as Hw. unfold wp in Hw. unfold at_machine. destruct (km_mem_brk top (ld_m s)) as [[r m1]| |] eqn:E; [|done|done].
  destruct Hw as (I1 & (regs & p & tr & Hs & Hout) & Hr). destruct (Z.eqb_spec r top); cbn [negb].
  - cbn. split; [|done]. split; [done|]. intros a. rewrite <- Hk, Hs. by apply kma_static; [apply last_small with (w := w)|].
  - split; [done|]. exists m1. unfold GUEST_MEM_START_VA, MIB in Ht. destruct Hr as [(?&?&?)|[(?&?&?)|(_ & -> & _)]]; [lia|lia|done].
Qed.
Lemma extent_ok ph s :
  seg_fits ph -> same_places s.(ld_m) ->
  wp (break_refused ph s) (load_extent f ph base)
    (fun _ s' => same_places s'.(ld_m) /\ has_bytes s'.(ld_mem) ph /\ forall x, ~ first_page ph <= x < page_end ph -> s'.(ld_mem) x = s.(ld_mem) x) s.
Proof.
  intros Hf Hs. pose proof Hf as [Ha Ht [Hs1 Hs2] _]. unfold load_extent. fold (seg_top ph). apply wp_bind, wp_assert; [apply Z.leb_le; lia|]. apply wp_bind. assert (Hz : at_machine (km_mem_brk 0) s = Ret (s.(ld_m).(brk), s)) by (by destruct s). unfold wp at 1. rewrite Hz.
  apply wp_bind. eapply wp_mono; [by apply brk_step|]. intros [] s1 [S1 M1]. apply wp_bind, wp_get. rewrite (proj2 S1). fold (place ph).
  fold (first_page ph). replace (place ph - (place ph - first_page ph)) with (first_page ph) by lia.
  apply wp_bind. eapply wp_mono; [apply wp_safe, section_ok; done|]. intros [] s2 (S2 & O2 & B2). apply wp_bind, wp_assert; [apply Z.leb_le; lia|]. apply wp_bind, wp_modify.
  apply wp_bind, wp_safe, wp_host; [intros tr; apply Hl|done|]. intros r m' Hr Hm'. destruct (Z.ltb_spec r 0); [lia|]. apply wp_ret. cbn [ld_m ld_mem]. split; [done|].
  pose proof (place_page ph) as [_ He]. rewrite <- M1. change PAGE with 4096 in He.
  assert (Hend : place ph + ph_memsz ph <= page_end ph) by (rewrite page_end_eq by done; pose proof (Z.div_mod (ph_memsz ph + (place ph - first_page ph) + 4095) 4096 ltac:(lia)); pose proof (Z.mod_pos_bound (ph_memsz ph + (place ph - first_page ph) + 4095) 4096 ltac:(lia)); lia).
  split; [split; intros i Hi|intros x Hx]; unfold zero_bytes.
  - rewrite (proj2 (Z.leb_gt _ _)) by lia. cbn [andb]. by apply B2.
  - by rewrite (proj2 (Z.leb_le _ _)), (proj2 (Z.ltb_lt _ _)) by lia.
  - rewrite <- O2 by done. destruct (Z.leb_spec (place ph + ph_filesz ph) x), (Z.ltb_spec x (place ph + ph_filesz ph + (ph_memsz ph - ph_filesz ph))); cbn [andb]; [lia|done..].
Qed.

(** Segments that share no page. *)
Definition apart (p q : elf_phdr) : Prop := page_end p <= first_page q \/ page_end q <= first_page p.
Fixpoint segments_apart (l : list elf_phdr) : Prop := match l with [] => True | p :: l => Forall (apart p) l /\ segments_apart l end.
Lemma has_bytes_kept mem mem' ph q :
  seg_fits ph -> apart ph q -> (forall x, ~ first_page q <= x < page_end q -> mem' x = mem x) -> has_bytes mem ph -> has_bytes mem' ph.
Proof.
  intros Hf Ha Hm [B1 B2]. pose proof Hf as [_ _ [Hs1 Hs2] _]. pose proof (place_page ph) as [_ He]. change PAGE with 4096 in He.
  assert (Hend : place ph + ph_memsz ph <= page_end ph) by (rewrite page_end_eq by done; pose proof (Z.div_mod (ph_memsz ph + (place ph - first_page ph) + 4095) 4096 ltac:(lia)); pose proof (Z.mod_pos_bound (ph_memsz ph + (place ph - first_page ph) + 4095) 4096 ltac:(lia)); lia).
  split; intros i Hi; rewrite Hm by (destruct Ha; lia); auto.
Qed.
Lemma refused_later ph s s1 l : load_extents f [ph] base s = Ret (tt, s1) -> out_of_memory l s1 -> out_of_memory (ph :: l) s.
Proof.
  intros E (pre & q & post & s2 & -> & Hq & E2 & Hb). exists (ph :: pre), q, post, s2. split_and!; [done|done| |done]. cbn [load_extents] in *. unfold bind in *.
  destruct ((if ph_type ph =? PT_LOAD then load_extent f ph base else ret tt) s) as [[[] s0]| |]; [|done|done]. unfold ret in E. injection E as ->. exact E2.
Qed.
Lemma wp_mono_abort {S A} (ab ab' : Prop) (c : M S A) (P Q : A -> S -> Prop) s : (ab -> ab') -> wp ab c P s -> (forall a s', P a s' -> Q a s') -> wp ab' c Q s.
Proof. intros Hab Hw Hpq. unfold wp in *. destruct (c s) as [[a s']| |]; auto. Qed.
Lemma extents_ok l s :
  let segs := List.filter (fun ph => ph.(ph_type) =? PT_LOAD) l in
  Forall seg_fits segs -> segments_apart segs -> same_places s.(ld_m) ->
  wp (out_of_memory l s) (load_extents f l base)
    (fun _ s' => same_places s'.(ld_m) /\ Forall (has_bytes s'.(ld_mem)) segs /\ forall ph, seg_fits ph -> Forall (apart ph) segs -> has_bytes s.(ld_mem) ph -> has_bytes s'.(ld_mem) ph) s.
Proof.
  cbv zeta. revert s. induction l as [|ph l IH]; intros s Hf Ha Hs; cbn [load_extents List.filter] in *; [apply wp_ret; split_and!; [done|constructor|done]|].
  destruct (Z.eqb_spec (ph_type ph) PT_LOAD) as [Ety|Ety].
  - apply Forall_cons_1 in Hf as [Hp Hf]. destruct Ha as [Hap Ha]. pose proof (extent_ok ph s Hp Hs) as Hx. unfold wp at 1 in Hx. unfold wp, bind.
    destruct (load_extent f ph base s) as [[[] s1]| |] eqn:E; [|by exists [], ph, l, s|done]. destruct Hx as (S1 & B1 & O1).
    eapply (wp_mono_abort (out_of_memory l s1)); [|by apply IH|].
    + apply (refused_later ph s s1). cbn. unfold bind. rewrite Ety. cbn. by rewrite E.
    + intros [] s2 (S2 & B2 & K2). split_and!; [done|constructor; [by apply K2|done]|].
      intros q Hq Hqa Hqb. apply Forall_cons_1 in Hqa as [Hq1 Hqa]. apply K2; [done|done|]. by apply (has_bytes_kept s.(ld_mem) _ q ph).
  - apply wp_bind, wp_ret. eapply (wp_mono_abort (out_of_memory l s)); [|by apply IH|done]. apply (refused_later ph s s). cbn. unfold bind. by rewrite (proj2 (Z.eqb_neq _ _) Ety).
Qed.
End Segments.

(** C26. km_load_elf puts a program that names no dynamic linker into guest memory: every
    loadable segment is at its address - p_paddr, moved by the adjustment of a relocatable
    file in 64 bit arithmetic - with the bytes of the file and zeros behind them, the
    headers and the adjustment are kept for the auxiliary vector, and the machine keeps its
    memory invariant. The call does not return only if, at some segment of this file and
    with the earlier ones loaded, the break is below the segment's end and km_mem_brk
    answers -ENOMEM ([out_of_memory]). Conditions: the host maps files and sets protections
    ([host_loads]) and cooperates with the break ([host_coop]); the headers are readable;
    segments lie in different pages, start at the same place in their page as in the file,
    are no larger in the file than in memory, end above 2 MiB and are placed below 2^40
    ([seg_fits], [segments_apart]). The dynamic linker and the search for dlopen are not
    covered. *)
Theorem program_loaded `{Host} (open_file : list Z -> option elf_file) (path : list Z) (f : elf_file) (e : Elf64_Ehdr) (phs : list elf_phdr) (s : load_st) (w : Z) :
  let adjust := if e.(e_type) =? ET_EXEC then 0 else u64 (GUEST_MEM_START_VA - min_vaddr phs) in
  let segs := List.filter (fun ph => ph.(ph_type) =? PT_LOAD) phs in
  host_loads -> host_coop -> mem_inv s.(ld_m) w -> read_elf f = Some (e, phs) -> e.(e_type) = ET_EXEC \/ e.(e_type) = ET_DYN -> (interp_of phs).1 = 0 ->
  Forall (seg_fits s.(ld_m) adjust) segs -> segments_apart s.(ld_m) adjust segs ->
  wp (out_of_memory f adjust phs s) (km_load_elf open_file path f)
    (fun r s' => r = (mk_pl e phs 0 adjust (Some path), None, adjust) /\ mem_inv s'.(ld_m) w /\ Forall (has_bytes f s.(ld_m) adjust s'.(ld_mem)) segs) s.
Proof.
  intros adjust segs Hl Hc I Er Ht Hi Hf Ha. unfold km_load_elf. rewrite Er. assert (Ety : negb ((e_type e =? ET_EXEC) || (e_type e =? ET_DYN)) = false) by (destruct Ht as [-> | ->]; done). rewrite Ety. fold adjust.
  apply wp_bind. eapply wp_mono; [apply (extents_ok Hl Hc f s.(ld_m) w adjust phs s); [exact Hf|exact Ha|by split]|]. intros [] s1 ([I1 _] & B1 & _). destruct (interp_of phs) as [iv il]. cbn in Hi. subst iv. cbn [negb Z.eqb].
  apply wp_bind, wp_ret, wp_ret. by split_and!.
Qed.
