(* ===== verification/GuestWitness.v ===== *)
(** * Start and exceptions of the guest: examples *)
From S2P Require Import Prelude Machine MemGeom TopBreak PageTable MemBrk MmapRegion MmapGuest MmapList MmapRange MmapFree MmapCorrect MmapSystem.
From S2P Require Import FdTable Signal Stdio Notes IoContext CoreFs CoreDump Decode DecodeProps FdRecover Snapshot GuestStart GuestStartProps GuestIntr GuestLoad GuestLoadProps.

#[local] Existing Instance host_grants.
#[local] Existing Instance no_files.

(** A program of one segment, started as "ls" with one variable. *)
Definition ls_ehdr : Elf64_Ehdr := mk_ehdr [] 2 62 1 0x201000 64 0 0 64 56 1 0 0 0.
Definition ls_program : payload := mk_pl ls_ehdr [mk_elf_phdr PT_LOAD 5 0 0x200000 0x200000 0x1000 0x1000 0x1000] 0 0 None.
Definition no_linker : payload := mk_pl ls_ehdr [] 0 0 None.
Definition ls_env : start_env := mk_start_env (16, repeat 7 16) 100 8192 0.
Definition ls_argv : list (list Z) := [[108; 115]].
Definition ls_envp : list (list Z) := [[65; 61; 49]].
Lemma initial_stack_abi_witness : exists b m' s auxv,
  km_init_main ls_env ls_program no_linker ls_argv ls_envp (mk_start booted (fun _ => 0) [] 0) = Ret (s.(stack_top), mk_start m' s.(sk_mem) auxv s.(stack_top))
  /\ abi_stack ls_env ls_program no_linker m' b 0x200040 ls_argv ls_envp s auxv.
Proof.
  destruct booted_facts as (F1 & F2 & F3 & F4 & F5).
  destruct (km_guest_mmap_simple GUEST_STACK_SIZE booted) as [[b m']| |] eqn:E; [|vm_compute in E; discriminate|vm_compute in E; discriminate].
  assert (Hb : b <> FAILED_GA) by (intros ->; apply (f_equal (fun o => match o with Ret (x, _) => x =? FAILED_GA | _ => true end)) in E; vm_compute in E; discriminate).
  destruct (initial_stack_abi ls_env ls_program no_linker ls_argv ls_envp 0x200040 (mk_start booted (fun _ => 0) [] 0) b m' booted_inv host_grants_mmap) as (s & auxv & Es & _ & _ & Hs).
  - cbn [gs_machine]. rewrite F1, F5. reflexivity.
  - exact E.
  - exact Hb.
  - split; cbn; try lia; try done.
  - repeat (apply Forall_cons_2; [split; [repeat (apply Forall_cons_2; [lia|]); constructor|apply Nat.leb_le; reflexivity]|]). constructor.
  - repeat (apply Forall_cons_2; [split; [repeat (apply Forall_cons_2; [lia|]); constructor|apply Nat.leb_le; reflexivity]|]). constructor.
  - vm_compute. discriminate.
  - exists b, m', s, auxv. by split.
Defined.

(** An argument of more than PATH_MAX bytes has no NUL behind it. *)
Theorem long_argument_not_terminated (x : list Z) :
  Forall (fun b => b <> 0) x -> (PATH_MAX < length x)%nat -> Forall (fun b => b <> 0) (strncpy x (strnlen x PATH_MAX + 1)).
Proof.
  intros Hx Hl. unfold strncpy, strnlen. rewrite Nat.min_r by lia. replace (PATH_MAX + 1 - length x)%nat with 0%nat by lia. rewrite app_nil_r. by apply Forall_take.
Qed.

(** A page fault of a program at 0x201000. *)
Definition pf_regs : kvm_regs_t := mk_regs 1 2 3 4 5 6 0x7ff000 8 9 10 11 12 13 14 15 16 0x201000 0x202.
Definition pf_stub : kvm_regs_t := mk_regs 0 14 3 0 5 6 0x300000 8 9 10 11 12 13 14 15 16 0x8000 2.
Definition pf_mem (a : Z) : Z := let i := a - 0x300000 in (nth (Z.to_nat (i / 8)) (exception_frame 14 pf_regs 4 8 0) 0 / 2 ^ (8 * (i mod 8))) mod 256.
Lemma exception_becomes_signal_witness :
  km_handle_interrupt booted pf_mem no_payload no_payload [0] 16 pf_stub (mk_sregs 0 0 0xbad000) = Ret (set_rflags 2 pf_regs, mk_sregs 8 0 0xbad000, mk_fault SIGSEGV 0xbad000).
Proof.
  destruct (exception_becomes_signal booted pf_mem no_payload no_payload [0] 16 14 pf_regs pf_stub (mk_sregs 0 0 0xbad000) 4 8 0) as (addr & Hh & _ & Ha).
  - reflexivity.
  - discriminate.
  - discriminate.
  - by split.
  - intros i v Hi. do 9 (destruct i as [|i]; [injection Hi as <-; vm_compute; reflexivity|]). discriminate Hi.
  - discriminate.
  - cbn in Ha. rewrite Ha in Hh. exact Hh.
Defined.

(** A relocatable file of one segment in the second page, linked at 4 MiB and loaded at 2. *)
Definition hello_phdr : elf_phdr := mk_elf_phdr PT_LOAD 5 0x1000 0x400000 0x400000 16 32 0x1000.
Definition hello_ehdr : Elf64_Ehdr := mk_ehdr [0x7f; 69; 76; 70; 2; 1; 1; 0; 0; 0; 0; 0; 0; 0; 0; 0] ET_DYN EM_X86_64 1 0x400000 64 0 0 64 56 1 0 0 0.
Definition hello_head : list Z := ehdr_bytes hello_ehdr ++ phdr_bytes hello_phdr.
Definition hello : elf_file := mk_elf (fun i => nth (Z.to_nat i) hello_head (i mod 256)) 0x1010.
Definition hello_start : load_st := mk_load (boot_machine VM_TYPE_KKM 39) (fun _ => 1).
Definition returns_some {A} (o : outcome A) : bool := match o with Ret _ => true | _ => false end.
Lemma wp_returned {S A} ab (c : M S A) (Q : A -> S -> Prop) s : wp ab c Q s -> returns_some (c s) = true -> exists a s', c s = Ret (a, s') /\ Q a s'.
Proof. unfold wp. destruct (c s) as [[a s']| |]; [|done|done]. intros Hq _. by exists a, s'. Qed.
Lemma hello_returns : returns_some (km_load_elf (fun _ => None) [104] hello hello_start) = true.
Proof. vm_compute. reflexivity. Qed.
Definition hello_adjust : Z := 2 ^ 64 - 0x200000.
Lemma program_loaded_witness : exists r s',
  km_load_elf (fun _ => None) [104] hello hello_start = Ret (r, s') /\ has_bytes hello (boot_machine VM_TYPE_KKM 39) hello_adjust s'.(ld_mem) hello_phdr.
Proof.
  assert (Hw : wp (out_of_memory hello hello_adjust [hello_phdr] hello_start) (km_load_elf (fun _ => None) [104] hello)
    (fun r s' => r = (mk_pl hello_ehdr [hello_phdr] 0 hello_adjust (Some [104]), None, hello_adjust) /\ mem_inv s'.(ld_m) 39 /\ Forall (has_bytes hello (boot_machine VM_TYPE_KKM 39) hello_adjust s'.(ld_mem)) [hello_phdr]) hello_start).
  { apply (program_loaded (fun _ => None) [104] hello hello_ehdr [hello_phdr] hello_start 39).
    - split; intros; cbn; lia.
    - exact host_grants_coop.
    - by apply boot_machine_inv.
    - vm_compute. reflexivity.
    - by right.
    - reflexivity.
    - constructor; [|constructor]. split; vm_compute; by split_and?.
    - split; [constructor|done]. }
  destruct (wp_returned _ _ _ _ Hw hello_returns) as (r & s' & E & _ & _ & Hb). exists r, s'. split; [exact E|]. by apply Forall_cons_1 in Hb as [Hb _].
Defined.
